(* ===== verification/_CoqProject ===== *)
-Q . S2P
Prelude.v
BlockDevice.v
AhciIo.v
MemoryDb.v
MemoryDbSpec.v
MemoryDbTheorems.v
AppText.v
History.v
HistorySpec.v
HistoryTheorems.v
ConsoleLog.v
Syscalls.v
MemoryDbSafety.v
ModelCache.v
ModelCacheSpec.v
ModelCacheTheorems.v
AhciPort.v
AhciPortTheorems.v
UsbRing.v
UsbRingTheorems.v
UsbDesc.v
UsbDescTheorems.v
Xhci.v
XhciTheorems.v
UsbDevice.v
UsbDeviceTheorems.v
UsbMsc.v
UsbDma.v
UsbMachine.v
UsbMachineTheorems.v
UsbMscTheorems.v
UsbStorage.v
Fat32.v
Fat32Theorems.v
UsbModel.v
Shell.v
ShellSpec.v
ShellTheorems.v
ShellPersist.v
Ps2Keyboard.v
Ps2Theorems.v
Framebuffer.v
FramebufferTheorems.v
TaskQueue.v
TaskQueueTheorems.v
Scheduler.v
SchedulerSpec.v
SchedulerTheorems.v
Tasks.v
Synch.v
TasksSpec.v
TasksTheorems.v
SynchTheorems.v
TaskMachine.v
TaskProperties.v
Vfs.v
VfsSpec.v
VfsTheorems.v
Files.v
FilesTheorems.v
DirListing.v
FilesSafety.v
FileProperties.v
Env.v
EventFd.v
ModelTask.v
ModelTaskTheorems.v
SyncCalls.v
SyncCallsTheorems.v
