(* ===== verification/Prelude.v ===== *)
(** * Hermit localLLM: verification development

    The program is a unikernel image that runs a language model on bare x86-64
    hardware: the Hermit kernel (src/kernel), with storage, USB, keyboard and screen
    drivers of its own, and one application, the RAM shell (src/bitapp), which answers
    prompts with the model and remembers questions and answers on the SSD.

    ** Parts of the program and where they are modelled

    - The SSD.  kernel/src/drivers/storage/ahci.rs holds an AHCI port driver, an
      append-only memory database and a cache of the model.  AhciPort.v translates the
      port driver over abstract registers and DMA memory ([HbaIo]); AhciIo.v the statics
      and byte fields; MemoryDb.v the database; ModelCache.v the cache.  BlockDevice.v is
      the interface between them: [BlockDev] (sector reads and writes that may fail) with
      its contract [BlockDevSpec].
    - The USB stick.  kernel/src/drivers/usb/xhci.rs finds the model on a FAT32 volume or
      as a raw image and copies it into memory: Fat32.v, over [UsbDisk].  Below it is the
      library usb-oxide: UsbRing.v (ring.rs, ram.rs), UsbDesc.v (desc.rs and the descriptor
      walks of msc.rs and hid.rs), Xhci.v (xhci.rs, reg.rs), UsbDevice.v (dev.rs) and
      UsbMsc.v (msc.rs), over [XhcIo]; UsbDma.v is the DMA memory the kernel gives it.
      UsbMachine.v is the hardware: a controller and a bulk-only device.  UsbStorage.v has a
      SCSI disk for it, and UsbModel.v joins the parts: the FAT32 reader on the driver on
      the rings.  ModelTask.v is the task that looks through the ports ([UsbPorts]), reads
      the model of the first stick, announces it and fills the cache on the SSD.
    - The application.  bitapp/src/hermit_app.rs: AppText.v (byte strings), History.v
      (records, serialization, parsing, eviction) and Shell.v (the line editor, every
      command, the log pager, start-up and shut-down).  It reaches the kernel through the
      system calls of kernel/src/syscalls/mod.rs: Syscalls.v.
    - The console.  kernel/src/console_log.rs is ConsoleLog.v; the framebuffer console of
      kernel/src/drivers/console is Framebuffer.v; the PS/2 keyboard of
      kernel/src/arch/x86_64/kernel/ps2_keyboard.rs is Ps2Keyboard.v.
    - The tasks.  kernel/src/scheduler and kernel/src/synch: TaskQueue.v (the priority
      queues and the list of sleepers of task/mod.rs), Scheduler.v (the scheduler of one
      core and its interrupt handlers), Tasks.v (the task table, spawn, join, exit, waking
      across cores, the system calls of syscalls/tasks.rs) and Synch.v (semaphores,
      recursive mutexes, futexes).  TaskMachine.v puts them together: the cores of a system
      and all their steps, in any order.  SyncCalls.v has the clocks (time.rs,
      syscalls/timer.rs) and the system calls of semaphores, mutexes, spin locks and
      condition variables (syscalls/{semaphore,recmutex,spinlock,condvar}.rs).
    - The files.  kernel/src/fs and kernel/src/fd: Vfs.v (mem.rs and the [Filesystem] of
      fs/mod.rs: files in memory, the tree of directories, open objects) and Files.v (the
      descriptor table, standard input and output with the buffer of console.rs, the path
      functions, the file system calls of syscalls/mod.rs, the set-up at boot).  EventFd.v is
      fd/eventfd.rs.
    - The command line.  Env.v: the boot arguments of kernel/src/env.rs.

    ** How the code is translated

    Code that mutates state and may fail is a function of type [ST S E A]: it takes the
    state [S] and returns the new state with an [outcome], [Ok], [Err] (a Rust [Err]),
    [Panic] (an index out of range, a failed [unwrap], and in raw-pointer code an access
    outside the allocation) or [OutOfFuel].  [let!] and [let?] sequence such code like
    [?].  Integers are [Z] kept at their width by [as_u8] ... [as_u64], [add64], [add32];
    the image is built with the release profile, so plain [+] wraps.  Log messages,
    timing and locks are left out: each call runs to completion.  In the task files a step
    is what a core does while it holds the lock or has interrupts off; a call that blocks
    and then switches is two steps.

    ** Environment

    Hardware and code outside src are parameters: sector devices ([BlockDev]), the AHCI
    registers and DMA memory ([HbaIo]; AhciPortTheorems.v has a controller written from
    the AHCI specification), the i8042 ports ([PortIo]), mass-storage devices
    ([UsbDisk]), the host of the USB library ([XhcIo], with the laws [DmaSpec]), the frame
    allocator ([FrameAllocSpec]), the heap allocator, the rounding of the align_address
    crate ([rounds_up]), the keyboard and screen behind standard input and output
    ([Devices], with [devices_ok]), the words [shell_words::split] makes of the boot
    arguments and the C++ decoder.  What the theorems need of them is a class of laws
    ([BlockDevSpec], [UsbDiskSpec], ...) or a named hypothesis, and each such law has a
    concrete instance in a Demo module, on which the witnesses evaluate.  The controller of
    UsbMachine.v follows the xHCI and bulk-only specifications.  Any transfer may stall,
    break or stay unanswered, and the endpoint is then halted; a device may answer short,
    with a short-packet event and a residue.  Three things are left out: an answer after
    the driver's time limit, and for transfers of more than one TRB (64 KiB) short answers
    and controllers that end a descriptor at a link TRB without the chain bit.
    [scsi_command_exact] is stated for up to 64 KiB, where only the first matters.

    ** What the theorems show

    - MemoryDbTheorems.v: any sequence of appends, reads, erases and reboots behaves as
      an append-only list with a capacity ([run_ops_refines]; an append that does not fit
      fails without an effect), appends are atomic and survive a power loss at any sector
      write.  A boot accepts the log only inside the region ([log_inside]); the data area
      reaches 33 sectors past it, and a log that has grown there is replaced by the empty
      one, as the theorems say ([boot_kept]).  MemoryDbSafety.v: nothing panics on any disk contents.
    - ModelCacheTheorems.v: the cache is replaced atomically and loaded exactly or not
      at all; what a boot does not take for a model (a GGUF file of 1 to 8 GiB) is stored
      and not loaded ([model_cache_roundtrip]).  AhciPortTheorems.v: a transfer through the command structures is exactly
      one disk access of the controller model.
    - Fat32Theorems.v: reads with retries and splitting end and deliver the blocks asked
      for; copying a file in runs of adjacent clusters gives the file of the cluster
      chain, inside the allocation, on volumes whose cluster size divides 4 MiB.
      ModelTaskTheorems.v: the search of the directories and the copy end without a panic on
      any contents of such a stick, and the task leaves the kernel alone or delivers exactly
      the model of one stick, in memory and on the SSD ([usb_task_delivers]); the conditions
      are one block size of 512 to 4096 bytes that divides 4096, standard volumes, a bounce
      page, and that a successful read delivers all its data.
    - UsbRingTheorems.v, UsbDescTheorems.v, XhciTheorems.v, UsbDeviceTheorems.v: the rings
      are queues under every interleaving with the controller, the descriptor walks find
      what the descriptor tree contains, polling loses no event, port writes are safe, and
      a transfer becomes one descriptor that covers its buffer.  UsbMscTheorems.v: a SCSI
      command is executed exactly once or reported as failed, with the driver in order
      afterwards, short answers included.  UsbStorage.v, UsbModel.v: on a working stick
      blocks written are read back, and a file is copied exactly through the whole stack.
    - HistoryTheorems.v: parsing is total, round-trips what the shell wrote, keeps keys
      unique, and the live history is the one a reload gives, up to the 64 KiB it reads.
    - ShellTheorems.v, ShellPersist.v: no input panics the shell; as long as the log has
      room and the 64 KiB of a reload are not exceeded, flushing and rebooting reloads the
      live history, down to the sectors.
    - AppText.v, ConsoleLog.v, Ps2Theorems.v, FramebufferTheorems.v: search routines
      against their specifications, the log as a bounded queue, text typed by the
      printed layout of the keyboard arriving in order, drawing inside the screen.
    - SchedulerSpec.v, TasksSpec.v: the invariants, of one core (a task is where its status
      says) and of the system (whoever waits in a queue sleeps, and waits once).
      SchedulerTheorems.v, TasksTheorems.v, SynchTheorems.v: every operation keeps them.
      TaskMachine.v: so does every run of calls without time limits, and a call panics only where
      [sys_set_priority] does not find its task ([tasks_safe]).
      TaskQueueTheorems.v: the priority queues against a list in order of arrival.
      TaskProperties.v: which task runs next, turns within a priority, what the timer
      wakes, what an exit does for those who joined, and how a wake-up panics.
      SyncCallsTheorems.v: conversions of times, and the protocol of a condition variable
      under every interleaving with one notifier at a time that wakes no more tasks than
      have entered ([condvar_protocol]).
    - VfsSpec.v: the invariant of the file system (no dangling address, the directories form
      a tree) and its specification, a namespace from paths to nodes.  VfsTheorems.v,
      FileProperties.v: every call on the namespace refines it, errors included
      ([namespace_refines]).  FilesTheorems.v: reads, writes, seeks and truncations act on
      the bytes of a file and a position, and descriptors are the smallest free ones.
      DirListing.v: a directory read in several calls is listed completely, each name once.
      FilesSafety.v: in any state boot and earlier calls lead to, a file system call
      panics exactly with an unknown [whence] or on listing a descriptor of [opendir]
      ([file_calls_safe]).
    - Env.v: the command line gives every option, variable and argument written on it, by
      the table of the options, the last definition of a variable winning.  EventFd.v: what is written to an event counter
      is what was read from it and what it still holds.

    ** Fuel

    Loops that are not structural take fuel, and the theorems include that it is enough:
    sector loops are given the number of chunks, the splitting of USB reads 16 halvings
    of a 16-bit count, the FAT copy loop the number of clusters of the file, directory
    scans the 4096 clusters and four levels the code allows, hardware waits the time-out counts of the
    code, the chunks of a bulk transfer two more than its whole 64 KiB blocks, the draining
    of the event ring one round of the ring, the search of a task id one more than the number
    of tasks, the loop of a futex wake-up one more than the number of waiters, the search of
    a free descriptor one more than the number of open ones, the creation of missing
    directories one more than the length of the path.

    ** Not modelled

    The rest of upstream Hermit (memory management, networking and sockets, virtio, the file
    systems of a host, interrupt controllers, the boot loader and the hermit-rs library) is
    used unchanged by the image and only touched through the interfaces above; of a task, its
    stacks, registers and thread-local storage; of a file system call, waiting in [poll] and
    calls on sockets.  The BitNet engine is
    C++.  The HID polling and RTL8152 drivers of usb-oxide are not used by the image.  PCI
    set-up, cache flushes and the asynchronous executor are outside the drivers' models.  The heap of the
    kernel does not run out: a failing allocation of a vector (a file that grows too large,
    for one) is not modelled; DMA frames and the memory of the model do run out where a
    theorem does not say otherwise. *)

From stdpp Require Export prelude list.
From coqutil Require Export Byte Word.LittleEndianList.
From stdpp Require Export strings.

Declare Scope hermit_scope.
Delimit Scope hermit_scope with hermit.
#[global] Open Scope hermit_scope.
#[global] Open Scope Z_scope.

(** ** Bytes and byte strings *)

#[export] Instance byte_eq_dec : EqDecision byte := Byte.byte_eq_dec.

Abbreviation bytes := (list byte).

(** [b"..."] of the sources. *)
Definition bstr (s : string) : bytes := String.list_byte_of_string s.

(** The value of a byte. *)
Definition bz (b : byte) : Z := byte.unsigned b.

(** Length, prefix and suffix of a slice at [usize] indices. *)
Definition zlen {A} (l : list A) : Z := Z.of_nat (length l).
Definition ztake {A} (n : Z) (l : list A) : list A := take (Z.to_nat n) l.
Definition zdrop {A} (n : Z) (l : list A) : list A := drop (Z.to_nat n) l.
Definition slice {A} (l : list A) (a b : Z) : list A := ztake (b - a) (zdrop a l).
Definition zeros (n : Z) : bytes := replicate (Z.to_nat n) Byte.x00.

(** ** Machine integers: every value is a [Z] in [0, 2^w) *)

Definition U16_MAX : Z := 65535.
Definition U32_MAX : Z := 4294967295.
Definition U64_MAX : Z := 18446744073709551615.
Definition I32_MAX : Z := 2147483647.

Definition u64 (x : Z) : Prop := 0 <= x <= U64_MAX.
Definition u32 (x : Z) : Prop := 0 <= x <= U32_MAX.

(** [as u8/u16/u32/u64] and the release-profile [+], [-], [*]. *)
Definition as_u8 (x : Z) : Z := x mod 256.
Definition as_u16 (x : Z) : Z := x mod 65536.
Definition as_u32 (x : Z) : Z := x mod 4294967296.
Definition as_u64 (x : Z) : Z := x mod 18446744073709551616.
Definition add64 (a b : Z) : Z := as_u64 (a + b).
Definition sub64 (a b : Z) : Z := as_u64 (a - b).
Definition mul64 (a b : Z) : Z := as_u64 (a * b).

Definition sat_add64 (a b : Z) : Z := Z.min U64_MAX (a + b).
Definition sat_sub (a b : Z) : Z := Z.max 0 (a - b).
Definition sat_mul64 (a b : Z) : Z := Z.min U64_MAX (a * b).
Definition checked_add64 (a b : Z) : option Z :=
  if a + b <=? U64_MAX then Some (a + b) else None.
Definition checked_mul64 (a b : Z) : option Z :=
  if a * b <=? U64_MAX then Some (a * b) else None.
Definition div_ceil (a b : Z) : Z := (a + b - 1) / b.
Definition u32_try_from (x : Z) : option Z := if x <=? U32_MAX then Some x else None.
Definition u16_try_from (x : Z) : option Z := if x <=? U16_MAX then Some x else None.

Definition ISIZE_MAX : Z := 9223372036854775807.

Definition next_power_of_two (n : Z) : Z := if n <=? 1 then 1 else as_u64 (2 ^ Z.log2_up n).

Definition is_power_of_two (n : Z) : bool := (0 <? n) && (2 ^ Z.log2 n =? n).

(** [Layout::from_size_align]: a power of two that does not push the rounded
    size past [isize::MAX]. *)
Definition layout_from_size_align (size align : Z) : option (Z * Z) :=
  if negb (is_power_of_two align) then None
  else if ISIZE_MAX - (align - 1) <? size then None
  else Some (size, align).

(** What the model loaders rely on: an allocation is not at address zero, and the
    align_address crate rounds up to the next multiple of a power of two. *)
Definition alloc_nonnull (alloc : Z -> Z -> option Z) : Prop :=
  forall size align p, alloc size align = Some p -> p <> 0.
Definition rounds_up (align_up : Z -> Z -> Z) : Prop :=
  forall x a, is_power_of_two a = true -> 0 <= x -> x + a <= U64_MAX ->
    x <= align_up x a < x + a /\ align_up x a mod a = 0.

(** [OnceCell::set] with its result ignored: the first value stays. *)
Definition once_set {A} (cell : option A) (v : A) : option A :=
  match cell with Some w => Some w | None => Some v end.

(** ** Outcomes of fallible code

    [Err] is a Rust [Err], [Panic] an out-of-range index or a failed [unwrap];
    [OutOfFuel] only marks a loop whose fuel ran out, and is shown unreachable. *)
Inductive outcome (E A : Type) : Type :=
| Ok (a : A)
| Err (e : E)
| Panic
| OutOfFuel.
Arguments Ok {E A} a.
Arguments Err {E A} e.
Arguments Panic {E A}.
Arguments OutOfFuel {E A}.

Definition obind {E A B} (c : outcome E A) (k : A -> outcome E B) : outcome E B :=
  match c with
  | Ok a => k a
  | Err e => Err e
  | Panic => Panic
  | OutOfFuel => OutOfFuel
  end.

(** State-passing fallible code. *)
Definition ST (S E A : Type) : Type := S -> S * outcome E A.

Definition sret {S E A} (a : A) : ST S E A := fun s => (s, Ok a).
Definition sfail {S E A} (e : E) : ST S E A := fun s => (s, Err e).
Definition sfuel {S E A} : ST S E A := fun s => (s, OutOfFuel).
Definition slift {S E A} (o : outcome E A) : ST S E A := fun s => (s, o).
Definition sgets {S E A} (f : S -> A) : ST S E A := fun s => (s, Ok (f s)).
Definition smodify {S E} (f : S -> S) : ST S E unit := fun s => (f s, Ok tt).
Definition sbind {S E A B} (c : ST S E A) (k : A -> ST S E B) : ST S E B :=
  fun s => match c s with
           | (s', Ok a) => k a s'
           | (s', Err e) => (s', Err e)
           | (s', Panic) => (s', Panic)
           | (s', OutOfFuel) => (s', OutOfFuel)
           end.

(** [.is_ok()], [.is_err()], [if let Err(_) = ...]: the error becomes a value. *)
Definition scatch {S E A} (c : ST S E A) : ST S E (A + E) :=
  fun s => match c s with
           | (s', Ok a) => (s', Ok (inl a))
           | (s', Err e) => (s', Ok (inr e))
           | (s', Panic) => (s', Panic)
           | (s', OutOfFuel) => (s', OutOfFuel)
           end.

(** [o.ok_or(e)?] *)
Definition sopt {S E A} (e : E) (o : option A) : ST S E A :=
  match o with Some a => sret a | None => sfail e end.

Notation "'let!' x ':=' c 'in' k" := (sbind c (fun x => k))
  (at level 10, x pattern, c at level 100, k at level 200,
   format "'let!'  x  ':='  c  'in' '//' k") : hermit_scope.
Notation "'let?' x ':=' c 'in' k" := (obind c (fun x => k))
  (at level 10, x pattern, c at level 100, k at level 200,
   format "'let?'  x  ':='  c  'in' '//' k") : hermit_scope.

(** ** Loops with a large count

    [until p step s] runs [step] up to [p] times, from state to state, until it gives a
    result; the count is binary, so a time-out of millions of rounds is a term of a few
    constructors. *)
Fixpoint until {S R} (p : positive) (step : S -> S + R) (s : S) : S + R :=
  match p with
  | xH => step s
  | xO p => match until p step s with inl s => until p step s | inr r => inr r end
  | xI p =>
      match step s with
      | inl s => match until p step s with inl s => until p step s | inr r => inr r end
      | inr r => inr r
      end
  end.

(** The same, one step at a time. *)
Fixpoint steps {S R} (n : nat) (step : S -> S + R) (s : S) : S + R :=
  match n with
  | O => inl s
  | Datatypes.S n => match step s with inl s => steps n step s | inr r => inr r end
  end.

(** [loop { count += 1; if count > n { return timeout } .. }]: [body] sees the count and
    ends the loop with [Some], or with an error. *)
Definition spin_step {S E A} (body : Z -> ST S E (option A)) (sc : S * Z) : (S * Z) + (S * outcome E A) :=
  match body sc.2 sc.1 with
  | (s, Ok None) => inl (s, sc.2 + 1)
  | (s, Ok (Some a)) => inr (s, Ok a)
  | (s, Err e) => inr (s, Err e)
  | (s, Panic) => inr (s, Panic)
  | (s, OutOfFuel) => inr (s, OutOfFuel)
  end.

Definition spin {S E A} (n : positive) (body : Z -> ST S E (option A)) (timeout : ST S E A) : ST S E A :=
  fun s =>
    match until n (spin_step body) (s, 1) with
    | inl (s, _) => timeout s
    | inr r => r
    end.

(** ** Checked slice access: [buf[a..b]] and [buf[a..b].copy_from_slice(src)] *)

Definition get_slice {E A} (l : list A) (a b : Z) : outcome E (list A) :=
  if (0 <=? a) && (a <=? b) && (b <=? zlen l) then Ok (slice l a b) else Panic.

Definition splice {A} (l : list A) (off : Z) (src : list A) : list A :=
  ztake off l ++ src ++ zdrop (off + zlen src) l.

Definition put_slice {E A} (l : list A) (off : Z) (src : list A) : outcome E (list A) :=
  if (0 <=? off) && (off + zlen src <=? zlen l) then Ok (splice l off src) else Panic.

(** A sequence of such writes, in program order. *)
Fixpoint put_fields {E A} (l : list A) (fs : list (Z * list A)) : outcome E (list A) :=
  match fs with
  | [] => Ok l
  | (off, src) :: fs => let? l := put_slice l off src in put_fields l fs
  end.

(** [1 << n], and [v & mask != 0]. *)
Definition bit (n : Z) : Z := Z.shiftl 1 n.
Definition has (v mask : Z) : bool := negb (Z.land v mask =? 0).

(** [v.to_le_bytes()] at the widths in use. *)
Definition le16 (v : Z) : bytes := le_split 2 v.
Definition to_le32 (v : Z) : bytes := le_split 4 v.
Definition to_le64 (v : Z) : bytes := le_split 8 v.

(** ** Automation *)

Create HintDb hermit.

(** Width side conditions. *)
Ltac ulia := unfold u64, u32, U64_MAX, U32_MAX, U16_MAX in *; lia.

(** Break the [if]s and boolean tests of a translated guard. *)
Ltac bool_to_prop :=
  repeat match goal with
    | H : _ && _ = true |- _ => apply andb_true_iff in H as [??]
    | H : _ && _ = false |- _ => apply andb_false_iff in H
    | H : _ || _ = true |- _ => apply orb_true_iff in H
    | H : _ || _ = false |- _ => apply orb_false_iff in H as [??]
    | H : negb _ = true |- _ => apply negb_true_iff in H
    | H : negb _ = false |- _ => apply negb_false_iff in H
    | H : (_ <=? _) = true |- _ => apply Z.leb_le in H
    | H : (_ <=? _) = false |- _ => apply Z.leb_gt in H
    | H : (_ <? _) = true |- _ => apply Z.ltb_lt in H
    | H : (_ <? _) = false |- _ => apply Z.ltb_ge in H
    | H : (_ =? _) = true |- _ => apply Z.eqb_eq in H
    | H : (_ =? _) = false |- _ => apply Z.eqb_neq in H
    | H : bool_decide _ = true |- _ => apply bool_decide_eq_true in H
    | H : bool_decide _ = false |- _ => apply bool_decide_eq_false in H
    end.

(** Decide a guard of the goal by arithmetic, one branch at a time. *)
Ltac guard_true c := replace c with true by (symmetry; lia).
Ltac guard_false c := replace c with false by (symmetry; lia).

(** Split on the first test of the goal. *)
Ltac split_if :=
  match goal with
  | |- context [if ?c then _ else _] => destruct c eqn:?; bool_to_prop
  end.

Lemma steps_add {S R} n m (step : S -> S + R) s :
  steps (n + m) step s = match steps n step s with inl s => steps m step s | inr r => inr r end.
Proof. revert s. induction n as [|n IH]; intros s; [done|]. cbn. destruct (step s); [apply IH|done]. Qed.

Lemma until_steps {S R} p (step : S -> S + R) s : until p step s = steps (Pos.to_nat p) step s.
Proof.
  revert s. induction p as [p IH|p IH|]; intros s.
  - rewrite Pos2Nat.inj_xI. replace (2 * Pos.to_nat p)%nat with (Pos.to_nat p + Pos.to_nat p)%nat by lia.
    cbn [steps until]. destruct (step s) as [s1|]; [|done]. rewrite steps_add, IH.
    by destruct (steps _ step s1).
  - rewrite Pos2Nat.inj_xO. replace (2 * Pos.to_nat p)%nat with (Pos.to_nat p + Pos.to_nat p)%nat by lia.
    cbn [until]. rewrite steps_add, IH. by destruct (steps _ step s).
  - change (Pos.to_nat 1) with 1%nat. cbn. by destruct (step s).
Qed.

(** An invariant of the steps holds at the end, or the result satisfies [Q]. *)
Lemma until_ind {S R} (I : S -> Prop) (Q : R -> Prop) p (step : S -> S + R) s :
  I s -> (forall s, I s -> match step s with inl s' => I s' | inr r => Q r end) ->
  match until p step s with inl s' => I s' | inr r => Q r end.
Proof.
  intros Hs Hstep. rewrite until_steps. revert s Hs. induction (Pos.to_nat p) as [|n IH]; intros s Hs; [done|].
  cbn. pose proof (Hstep s Hs) as Hone. destruct (step s) as [s1|r]; [by apply IH|done].
Qed.

(** ** Slices *)

Section slices.
Context {A : Type}.
Implicit Types (l src : list A) (a b off n : Z).

Lemma zlen_nonneg l : 0 <= zlen l.
Proof. unfold zlen. lia. Qed.

Lemma zlen_nil : zlen (@nil A) = 0.
Proof. done. Qed.

Lemma zlen_cons x l : zlen (x :: l) = 1 + zlen l.
Proof. unfold zlen. simpl. lia. Qed.

Lemma zlen_app l src : zlen (l ++ src) = zlen l + zlen src.
Proof. unfold zlen. rewrite length_app. lia. Qed.

Lemma zlen_ztake n l : zlen (ztake n l) = Z.max 0 (Z.min n (zlen l)).
Proof. unfold zlen, ztake. rewrite length_take. lia. Qed.

Lemma zlen_zdrop n l : 0 <= n -> zlen (zdrop n l) = Z.max 0 (zlen l - n).
Proof. intros ?. unfold zlen, zdrop. rewrite length_drop. lia. Qed.

Lemma zlen_slice l a b : 0 <= a <= b -> b <= zlen l -> zlen (slice l a b) = b - a.
Proof. intros ??. unfold slice. rewrite zlen_ztake, zlen_zdrop; lia. Qed.

Lemma zlen_splice l off src :
  0 <= off -> off + zlen src <= zlen l -> zlen (splice l off src) = zlen l.
Proof.
  intros ??. unfold splice. pose proof (zlen_nonneg src).
  rewrite !zlen_app, zlen_ztake, zlen_zdrop; lia.
Qed.

Lemma ztake_all n l : zlen l <= n -> ztake n l = l.
Proof. intros ?. apply take_ge. unfold zlen in *. lia. Qed.

Lemma ztake_app_le n l src : n <= zlen l -> ztake n (l ++ src) = ztake n l.
Proof. intros ?. apply take_app_le. unfold zlen in *. lia. Qed.

Lemma ztake_app_ge n l src :
  zlen l <= n -> ztake n (l ++ src) = l ++ ztake (n - zlen l) src.
Proof.
  intros ?. unfold ztake, zlen in *. rewrite take_app_ge by lia.
  do 2 f_equal. lia.
Qed.

Lemma zdrop_app_le n l src : 0 <= n <= zlen l -> zdrop n (l ++ src) = zdrop n l ++ src.
Proof. intros ?. apply drop_app_le. unfold zlen in *. lia. Qed.

Lemma zdrop_app_ge n l src : zlen l <= n -> zdrop n (l ++ src) = zdrop (n - zlen l) src.
Proof.
  intros ?. unfold zdrop, zlen in *. rewrite drop_app_ge by lia. f_equal. lia.
Qed.

Lemma ztake_zdrop n l : ztake n l ++ zdrop n l = l.
Proof. apply take_drop. Qed.

Lemma zdrop_zdrop a b l : 0 <= a -> 0 <= b -> zdrop a (zdrop b l) = zdrop (b + a) l.
Proof.
  intros ??. unfold zdrop. rewrite drop_drop. f_equal. lia.
Qed.

Lemma ztake_ztake a b l : ztake a (ztake b l) = ztake (Z.min a b) l.
Proof. unfold ztake. rewrite take_take. f_equal. lia. Qed.

Lemma zdrop_ztake a b l : 0 <= a -> zdrop a (ztake b l) = ztake (b - a) (zdrop a l).
Proof.
  intros ?. unfold zdrop, ztake. rewrite skipn_firstn_comm. f_equal. lia.
Qed.

Lemma ztake_0 n l : n <= 0 -> ztake n l = [].
Proof. intros ?. unfold ztake. replace (Z.to_nat n) with 0%nat by lia. done. Qed.

Lemma zdrop_0 n l : n <= 0 -> zdrop n l = l.
Proof. intros ?. unfold zdrop. replace (Z.to_nat n) with 0%nat by lia. done. Qed.

Lemma zdrop_all n l : zlen l <= n -> zdrop n l = [].
Proof. intros ?. apply drop_ge. unfold zlen in *. lia. Qed.

Lemma ztake_zdrop_nil n m l : 0 <= m -> n <= 0 \/ zlen l <= m -> ztake n (zdrop m l) = [].
Proof.
  intros ? [?|?]; [by apply ztake_0|]. rewrite zdrop_all by done. unfold ztake. apply take_nil.
Qed.

Lemma ztake_zdrop_split n m l :
  0 <= n -> 0 <= m -> ztake (n + m) l = ztake n l ++ ztake m (zdrop n l).
Proof.
  intros ??. unfold ztake, zdrop. rewrite Z2Nat.inj_add by lia.
  symmetry. apply take_take_drop.
Qed.

Lemma slice_all l b : b = zlen l -> slice l 0 b = l.
Proof. intros ->. unfold slice. rewrite zdrop_0, ztake_all; [done|lia|lia]. Qed.

Lemma slice_splice_same l off src b :
  0 <= off -> off + zlen src <= zlen l -> b = off + zlen src ->
  slice (splice l off src) off b = src.
Proof.
  intros ?? ->. pose proof (zlen_nonneg src). unfold slice, splice.
  rewrite zdrop_app_ge by (rewrite zlen_ztake; lia).
  rewrite zlen_ztake, zdrop_0 by lia.
  rewrite ztake_app_le by lia. apply ztake_all. lia.
Qed.

Lemma slice_splice_before l off src a b :
  0 <= a <= b -> b <= off -> off + zlen src <= zlen l ->
  slice (splice l off src) a b = slice l a b.
Proof.
  intros ???. pose proof (zlen_nonneg src). unfold slice, splice.
  rewrite zdrop_app_le by (rewrite zlen_ztake; lia).
  rewrite zdrop_ztake by lia.
  rewrite ztake_app_le by (rewrite zlen_ztake, zlen_zdrop; lia).
  rewrite ztake_ztake. f_equal. lia.
Qed.

Lemma slice_splice_after l off src a b :
  0 <= off -> off + zlen src <= a -> a <= b -> b <= zlen l ->
  slice (splice l off src) a b = slice l a b.
Proof.
  intros ????. pose proof (zlen_nonneg src). unfold slice, splice.
  rewrite zdrop_app_ge by (rewrite zlen_ztake; lia).
  rewrite zdrop_app_ge by (rewrite zlen_ztake; lia).
  rewrite zlen_ztake, zdrop_zdrop by lia. do 2 f_equal. lia.
Qed.

Lemma get_slice_ok {E} l a b :
  0 <= a <= b -> b <= zlen l -> get_slice (E := E) l a b = Ok (slice l a b).
Proof.
  intros ??. unfold get_slice.
  by guard_true ((0 <=? a) && (a <=? b) && (b <=? zlen l)).
Qed.

Lemma put_slice_ok {E} l off src :
  0 <= off -> off + zlen src <= zlen l ->
  put_slice (E := E) l off src = Ok (splice l off src).
Proof.
  intros ??. unfold put_slice.
  by guard_true ((0 <=? off) && (off + zlen src <=? zlen l)).
Qed.
End slices.

Lemma zlen_zeros n : 0 <= n -> zlen (zeros n) = n.
Proof. intros ?. unfold zlen, zeros. rewrite length_replicate. lia. Qed.

(** A function that rounds as the align_address crate documents. *)
Definition align_up_div (x a : Z) : Z := (x + a - 1) / a * a.

Lemma align_up_div_rounds : rounds_up align_up_div.
Proof.
  intros x a Ha Hx _. unfold is_power_of_two in Ha. bool_to_prop. unfold align_up_div.
  pose proof (Z.div_mod (x + a - 1) a ltac:(lia)). pose proof (Z.mod_pos_bound (x + a - 1) a ltac:(lia)).
  split; [lia|]. apply Z.mod_mul. lia.
Qed.

(** ** Field-wise writes into a buffer

    The encoders of the sources write their fields in increasing offset order;
    for such a sequence every field reads back as written. *)
Fixpoint splice_fields {A} (l : list A) (fs : list (Z * list A)) : list A :=
  match fs with
  | [] => l
  | (off, src) :: fs => splice_fields (splice l off src) fs
  end.

Fixpoint fields_sorted {A} (lo hi : Z) (fs : list (Z * list A)) : Prop :=
  match fs with
  | [] => lo <= hi
  | (off, src) :: fs => lo <= off /\ fields_sorted (off + zlen src) hi fs
  end.

Section fields.
Context {A : Type}.
Implicit Types (l src : list A) (fs : list (Z * list A)).

Lemma fields_sorted_bound lo hi fs : fields_sorted lo hi fs -> lo <= hi.
Proof.
  revert lo. induction fs as [|[off src] fs IH]; simpl; intros lo H; [done|].
  destruct H as [? H]. apply IH in H. pose proof (zlen_nonneg src). lia.
Qed.

Lemma zlen_splice_fields lo l fs :
  0 <= lo -> fields_sorted lo (zlen l) fs -> zlen (splice_fields l fs) = zlen l.
Proof.
  revert lo l. induction fs as [|[off src] fs IH]; simpl; intros lo l ? H; [done|].
  destruct H as [? H]. pose proof (fields_sorted_bound _ _ _ H).
  pose proof (zlen_nonneg src).
  rewrite (IH (off + zlen src)); rewrite ?zlen_splice; try done; lia.
Qed.

Lemma put_fields_ok {E} lo l fs :
  0 <= lo -> fields_sorted lo (zlen l) fs ->
  put_fields (E := E) l fs = Ok (splice_fields l fs).
Proof.
  revert lo l. induction fs as [|[off src] fs IH]; simpl; intros lo l ? H; [done|].
  destruct H as [? H]. pose proof (fields_sorted_bound _ _ _ H).
  pose proof (zlen_nonneg src).
  rewrite put_slice_ok by lia. simpl.
  apply (IH (off + zlen src)); [lia|]. by rewrite zlen_splice by lia.
Qed.

Lemma slice_splice_fields_before lo l fs a b :
  0 <= a <= b -> b <= lo -> fields_sorted lo (zlen l) fs ->
  slice (splice_fields l fs) a b = slice l a b.
Proof.
  revert lo l. induction fs as [|[off src] fs IH]; simpl; intros lo l ?? H; [done|].
  destruct H as [? H]. pose proof (fields_sorted_bound _ _ _ H).
  pose proof (zlen_nonneg src).
  rewrite (IH (off + zlen src)).
  - apply slice_splice_before; lia.
  - done.
  - lia.
  - by rewrite zlen_splice by lia.
Qed.

Lemma slice_splice_fields lo l fs off src b :
  0 <= lo -> fields_sorted lo (zlen l) fs -> (off, src) ∈ fs -> b = off + zlen src ->
  slice (splice_fields l fs) off b = src.
Proof.
  intros Hlo H Hin ->. revert lo l Hlo H.
  induction fs as [|[off' src'] fs IH]; simpl; intros lo l ? H; [by apply elem_of_nil in Hin|].
  destruct H as [? H]. pose proof (fields_sorted_bound _ _ _ H).
  pose proof (zlen_nonneg src'). pose proof (zlen_nonneg src).
  apply elem_of_cons in Hin as [Heq|Hin].
  - simplify_eq. rewrite (slice_splice_fields_before (off' + zlen src')).
    + apply slice_splice_same; lia.
    + lia.
    + lia.
    + by rewrite zlen_splice by lia.
  - apply (IH Hin (off' + zlen src')); [lia|]. by rewrite zlen_splice by lia.
Qed.
End fields.

(** ** Little-endian integers *)

Lemma zlen_to_le32 v : zlen (to_le32 v) = 4.
Proof. done. Qed.

Lemma zlen_to_le64 v : zlen (to_le64 v) = 8.
Proof. done. Qed.

Lemma le_combine_to_le32 v : u32 v -> le_combine (to_le32 v) = v.
Proof.
  unfold u32, U32_MAX, to_le32. intros ?. rewrite le_combine_split.
  apply Z.mod_small. simpl. lia.
Qed.

Lemma le_combine_to_le64 v : u64 v -> le_combine (to_le64 v) = v.
Proof.
  unfold u64, U64_MAX, to_le64. intros ?. rewrite le_combine_split.
  apply Z.mod_small. simpl. lia.
Qed.

Lemma le_combine_u32 (s : bytes) : zlen s = 4 -> u32 (le_combine s).
Proof.
  intros H. pose proof (le_combine_bound s) as B. unfold zlen in H.
  rewrite H in B. unfold u32, U32_MAX. simpl in B. lia.
Qed.

Lemma le_combine_u64 (s : bytes) : zlen s = 8 -> u64 (le_combine s).
Proof.
  intros H. pose proof (le_combine_bound s) as B. unfold zlen in H.
  rewrite H in B. unfold u64, U64_MAX. simpl in B. lia.
Qed.

(** ** Arithmetic side conditions *)

Lemma as_u64_small x : u64 x -> as_u64 x = x.
Proof. unfold u64, as_u64, U64_MAX. intros. apply Z.mod_small. lia. Qed.

Lemma sat_add64_small a b : a + b <= U64_MAX -> sat_add64 a b = a + b.
Proof. unfold sat_add64. lia. Qed.

Lemma checked_add64_small a b : a + b <= U64_MAX -> checked_add64 a b = Some (a + b).
Proof. intros. unfold checked_add64. by guard_true (a + b <=? U64_MAX). Qed.

Lemma div_ceil_spec a b :
  0 < b -> 0 <= a -> a <= div_ceil a b * b < a + b /\ 0 <= div_ceil a b.
Proof.
  intros. unfold div_ceil.
  pose proof (Z.div_mod (a + b - 1) b ltac:(lia)).
  pose proof (Z.mod_pos_bound (a + b - 1) b ltac:(lia)).
  split; [nia|]. apply Z.div_pos; lia.
Qed.

(** ** Running state-passing code *)

Section st_lemmas.
Context {S E A B : Type}.
Implicit Types (c : ST S E A) (k : A -> ST S E B) (s : S).

Lemma sbind_ok c k s s' a : c s = (s', Ok a) -> sbind c k s = k a s'.
Proof. unfold sbind. by intros ->. Qed.

Lemma sbind_err c k s s' e : c s = (s', Err e) -> sbind c k s = (s', Err e).
Proof. unfold sbind. by intros ->. Qed.

(** The outcome of a sequence: its first half stopped, or the rest ran. *)
Lemma sbind_inv_ok c k s s' b :
  sbind c k s = (s', Ok b) -> exists s1 a, c s = (s1, Ok a) /\ k a s1 = (s', Ok b).
Proof. unfold sbind. destruct (c s) as [s1 [a|e| |]]; intros; simplify_eq; eauto. Qed.

Lemma scatch_ok c s s' a : c s = (s', Ok a) -> scatch c s = (s', Ok (inl a)).
Proof. unfold scatch. by intros ->. Qed.
End st_lemmas.

(** ** Weakest preconditions of state-passing code

    [wp c Q X s]: run from [s], [c] neither panics nor runs out of fuel, an
    [Ok] ends in [Q] and an [Err] in [X]. *)
Definition wp {S E A} (c : ST S E A) (Q : A -> S -> Prop) (X : E -> S -> Prop) (s : S) : Prop :=
  match c s with
  | (s', Ok a) => Q a s'
  | (s', Err e) => X e s'
  | (_, Panic) => False
  | (_, OutOfFuel) => False
  end.

Section wp.
Context {S E A B : Type}.
Implicit Types (c : ST S E A) (k : A -> ST S E B) (s : S) (X : E -> S -> Prop).

Lemma wp_bind c k (Q : B -> S -> Prop) X s :
  wp c (fun a => wp (k a) Q X) X s -> wp (sbind c k) Q X s.
Proof. unfold wp, sbind. by destruct (c s) as [s' [a|e| |]]. Qed.

Lemma wp_ret (a : A) (Q : A -> S -> Prop) X s : Q a s -> wp (sret a) Q X s.
Proof. done. Qed.

Lemma wp_fail (e : E) (Q : A -> S -> Prop) X s : X e s -> wp (sfail e) Q X s.
Proof. done. Qed.

Lemma wp_lift_ok (o : outcome E A) (a : A) (Q : A -> S -> Prop) X s :
  o = Ok a -> Q a s -> wp (slift o) Q X s.
Proof. by intros ->. Qed.

Lemma wp_lift_err (o : outcome E A) (e : E) (Q : A -> S -> Prop) X s :
  o = Err e -> X e s -> wp (slift o) Q X s.
Proof. by intros ->. Qed.

Lemma wp_opt_some (e : E) (o : option A) (a : A) (Q : A -> S -> Prop) X s :
  o = Some a -> Q a s -> wp (sopt e o) Q X s.
Proof. by intros ->. Qed.

Lemma wp_gets (f : S -> A) (Q : A -> S -> Prop) X s : Q (f s) s -> wp (sgets f) Q X s.
Proof. done. Qed.

Lemma wp_catch c (Q : A + E -> S -> Prop) X s :
  wp c (fun a => Q (inl a)) (fun e => Q (inr e)) s -> wp (scatch c) Q X s.
Proof. unfold wp, scatch. by destruct (c s) as [s' [a|e| |]]. Qed.

Lemma wp_mono c (Q Q' : A -> S -> Prop) X X' s :
  wp c Q X s -> (forall a s, Q a s -> Q' a s) -> (forall e s, X e s -> X' e s) -> wp c Q' X' s.
Proof. unfold wp. destruct (c s) as [s' [a|e| |]]; auto. Qed.

Lemma wp_conj c (Q1 Q2 : A -> S -> Prop) X1 X2 s :
  wp c Q1 X1 s -> wp c Q2 X2 s -> wp c (fun a s => Q1 a s /\ Q2 a s) (fun e s => X1 e s /\ X2 e s) s.
Proof. unfold wp. by destruct (c s) as [s' [a|e| |]]. Qed.

Lemma wp_ok c (Q : A -> S -> Prop) X s s' a : c s = (s', Ok a) -> Q a s' -> wp c Q X s.
Proof. unfold wp. by intros ->. Qed.

Lemma wp_err c (Q : A -> S -> Prop) X s s' e : c s = (s', Err e) -> X e s' -> wp c Q X s.
Proof. unfold wp. by intros ->. Qed.

(** Reading a proved [wp] back as a statement about the run. *)
Lemma wp_run c (Q : A -> S -> Prop) X s :
  wp c Q X s ->
  (exists s' a, c s = (s', Ok a) /\ Q a s') \/ (exists s' e, c s = (s', Err e) /\ X e s').
Proof. unfold wp. destruct (c s) as [s' [a|e| |]]; [left|right|done..]; eauto. Qed.

Lemma wp_run_ok c (Q : A -> S -> Prop) s :
  wp c Q (fun _ _ => False) s -> exists s' a, c s = (s', Ok a) /\ Q a s'.
Proof. intros [?|(?&?&_&[])]%wp_run. done. Qed.
End wp.

Lemma wp_modify {S E} (f : S -> S) (Q : unit -> S -> Prop) (X : E -> S -> Prop) s :
  Q tt (f s) -> wp (smodify f) Q X s.
Proof. done. Qed.

(** A loop keeps its invariant until it ends or times out. *)
Lemma wp_spin {S E A} (I : S -> Prop) n (body : Z -> ST S E (option A)) timeout Q X (s : S) :
  I s ->
  (forall count s, I s -> wp (body count) (fun o s' => match o with Some a => Q a s' | None => I s' end) X s) ->
  (forall s, I s -> wp timeout Q X s) ->
  wp (spin n body timeout) Q X s.
Proof.
  intros Hs Hbody Htime. unfold wp at 1, spin.
  pose proof (until_ind (fun '(s, _) => I s)
    (fun r => match r with (s', Ok a) => Q a s' | (s', Err e) => X e s' | _ => False end) n
    (spin_step body) (s, 1) Hs) as Hu.
  destruct (until _ _ _) as [[s' c']|[s' r]]; [apply Htime, Hu|apply Hu]; intros [s0 c0] H0;
    specialize (Hbody c0 s0 H0); unfold wp in Hbody; unfold spin_step; cbn [fst snd]; by destruct (body c0 s0) as [s1 [[a|]|e| |]].
Qed.

(** The same loop one round at a time, to follow a run that is known. *)
Fixpoint spin_from {S E A} (n : nat) (count : Z) (body : Z -> ST S E (option A)) (timeout : ST S E A) : ST S E A :=
  match n with
  | O => timeout
  | Datatypes.S n =>
      let! o := body count in
      match o with Some a => sret a | None => spin_from n (count + 1) body timeout end
  end.

Lemma spin_rounds {S E A} n (body : Z -> ST S E (option A)) timeout (s : S) :
  spin n body timeout s = spin_from (Pos.to_nat n) 1 body timeout s.
Proof.
  unfold spin. rewrite until_steps. generalize 1 as c. revert s.
  induction (Pos.to_nat n) as [|m IH]; intros s c; [done|]. cbn [steps spin_from]. unfold sbind, spin_step at 1. cbn [fst snd].
  destruct (body c s) as [s' [[a|]|e| |]]; first [done | apply IH].
Qed.

Lemma wp_spin_rounds {S E A} n (body : Z -> ST S E (option A)) timeout Q X (s : S) :
  wp (spin_from (Pos.to_nat n) 1 body timeout) Q X s -> wp (spin n body timeout) Q X s.
Proof. unfold wp. by rewrite spin_rounds. Qed.

(** A loop whose first round ends it. *)
Lemma wp_spin_first {S E A} n (body : Z -> ST S E (option A)) timeout Q X (s : S) :
  wp (body 1) (fun o s' => match o with Some a => Q a s' | None => False end) X s -> wp (spin n body timeout) Q X s.
Proof.
  intros Hb. apply wp_spin_rounds. destruct (Pos2Nat.is_succ n) as [k ->]. cbn [spin_from]. apply wp_bind.
  eapply wp_mono; [exact Hb| |done]. intros [a|] s' Ha; [by apply wp_ret|done].
Qed.

#[global] Opaque wp.
