(* ===== verification/BlockDevice.v ===== *)
(** * Block devices

    What the AHCI port driver promises to its clients (the memory database and
    the model cache of kernel/src/drivers/storage/ahci.rs): transfers of
    512-byte sectors, each of which may fail.  [BlockDev] holds the two
    operations, [BlockDevSpec] the contract the clients' theorems rest on, and
    [MemDisk] an executable device that satisfies it, with a write budget that
    models a power loss and a count of transient read faults. *)

From stdpp Require Import gmap.
From S2P Require Import Prelude.

Definition SECTOR_SIZE : Z := 512.

(** Sector [i] of a transfer buffer. *)
Definition nth_sector (b : bytes) (i : Z) : bytes :=
  slice b (i * SECTOR_SIZE) (i * SECTOR_SIZE + SECTOR_SIZE).

Class BlockDev (D : Type) := {
  (** [bd_read d lba count]: the buffer, or [None] on [Err(())]. *)
  bd_read : D -> Z -> Z -> D * option bytes;
  (** [bd_write d lba count buf]: whether the write completed. *)
  bd_write : D -> Z -> Z -> bytes -> D * bool;
}.

(** The contract of a disk: reads return the contents and change nothing; a
    completed write stores its buffer; a failed one may have stored any subset
    of its sectors (sectors are atomic); no other sector changes; and a working
    device serves every request inside its capacity of at most 8192 sectors (the
    4 MiB limit of one PRDT entry). *)
Class BlockDevSpec (D : Type) `{BlockDev D} := {
  bd_sec : D -> Z -> bytes;
  bd_cap : D -> Z;
  bd_ok : D -> Prop;
  bd_sec_len d l : zlen (bd_sec d l) = SECTOR_SIZE;
  bd_read_frame d lba n d' r :
    bd_read d lba n = (d', r) ->
    (forall l, bd_sec d' l = bd_sec d l) /\ bd_cap d' = bd_cap d;
  bd_read_data d lba n d' b :
    bd_read d lba n = (d', Some b) ->
    zlen b = n * SECTOR_SIZE /\ forall i, 0 <= i < n -> nth_sector b i = bd_sec d (lba + i);
  bd_write_frame d lba n b d' r :
    bd_write d lba n b = (d', r) ->
    bd_cap d' = bd_cap d /\
    (forall l, l < lba \/ lba + n <= l -> bd_sec d' l = bd_sec d l) /\
    (forall i, 0 <= i < n ->
       bd_sec d' (lba + i) = bd_sec d (lba + i) \/ bd_sec d' (lba + i) = nth_sector b i);
  bd_write_data d lba n b d' :
    bd_write d lba n b = (d', true) -> zlen b = n * SECTOR_SIZE ->
    forall i, 0 <= i < n -> bd_sec d' (lba + i) = nth_sector b i;
  bd_read_live d lba n :
    bd_ok d -> 0 <= lba -> 0 < n <= 8192 -> lba + n <= bd_cap d ->
    exists d' b, bd_read d lba n = (d', Some b) /\ bd_ok d';
  bd_write_live d lba n b :
    bd_ok d -> 0 <= lba -> 0 < n <= 8192 -> lba + n <= bd_cap d ->
    zlen b = n * SECTOR_SIZE ->
    exists d', bd_write d lba n b = (d', true) /\ bd_ok d';
}.

(** ** An executable disk *)

Record MemDisk := mkMemDisk {
  md_cap : Z;
  md_map : gmap Z bytes;
  md_budget : option nat;  (* writes left before power is lost; None: no limit *)
  md_faults : nat;         (* reads that will still fail *)
}.

Definition pad_sector (s : bytes) : bytes := ztake SECTOR_SIZE (s ++ zeros SECTOR_SIZE).

Definition md_sec (d : MemDisk) (l : Z) : bytes :=
  match md_map d !! l with Some s => pad_sector s | None => zeros SECTOR_SIZE end.

Fixpoint md_get (d : MemDisk) (lba : Z) (n : nat) : bytes :=
  match n with
  | O => []
  | S n => md_sec d lba ++ md_get d (lba + 1) n
  end.

Fixpoint md_put (m : gmap Z bytes) (lba : Z) (n : nat) (b : bytes) : gmap Z bytes :=
  match n with
  | O => m
  | S n => md_put (<[lba := pad_sector (ztake SECTOR_SIZE b)]> m) (lba + 1) n (zdrop SECTOR_SIZE b)
  end.

Definition md_in_range (d : MemDisk) (lba n : Z) : bool :=
  (0 <=? lba) && (0 <? n) && (lba + n <=? md_cap d).

Definition md_read (d : MemDisk) (lba n : Z) : MemDisk * option bytes :=
  match md_faults d with
  | S k => (mkMemDisk (md_cap d) (md_map d) (md_budget d) k, None)
  | O => if md_in_range d lba n then (d, Some (md_get d lba (Z.to_nat n))) else (d, None)
  end.

Definition md_write (d : MemDisk) (lba n : Z) (b : bytes) : MemDisk * bool :=
  if md_in_range d lba n && (zlen b =? n * SECTOR_SIZE) then
    match md_budget d with
    | Some O => (d, false)
    | Some (S k) => (mkMemDisk (md_cap d) (md_put (md_map d) lba (Z.to_nat n) b) (Some k)
                      (md_faults d), true)
    | None => (mkMemDisk (md_cap d) (md_put (md_map d) lba (Z.to_nat n) b) None (md_faults d), true)
    end
  else (d, false).

#[export] Instance MemDisk_BlockDev : BlockDev MemDisk := {
  bd_read := md_read;
  bd_write := md_write;
}.

(** ** The contract holds of [MemDisk] *)

Lemma zlen_pad_sector s : zlen (pad_sector s) = SECTOR_SIZE.
Proof.
  unfold pad_sector, SECTOR_SIZE. pose proof (zlen_nonneg s).
  rewrite zlen_ztake, zlen_app, zlen_zeros; lia.
Qed.

Lemma pad_sector_id s : zlen s = SECTOR_SIZE -> pad_sector s = s.
Proof.
  intros H. unfold pad_sector. rewrite ztake_app_le by lia. apply ztake_all. lia.
Qed.

Lemma md_sec_len d l : zlen (md_sec d l) = SECTOR_SIZE.
Proof.
  unfold md_sec. destruct (md_map d !! l); [apply zlen_pad_sector|].
  by rewrite zlen_zeros.
Qed.

Lemma nth_sector_app_0 s b : zlen s = SECTOR_SIZE -> nth_sector (s ++ b) 0 = s.
Proof.
  intros H. unfold nth_sector, slice, SECTOR_SIZE in *.
  rewrite zdrop_0 by lia. rewrite ztake_app_le by lia. apply ztake_all. lia.
Qed.

Lemma nth_sector_app_S s b i :
  zlen s = SECTOR_SIZE -> 0 < i -> nth_sector (s ++ b) i = nth_sector b (i - 1).
Proof.
  intros H ?. unfold nth_sector, slice, SECTOR_SIZE in *.
  rewrite zdrop_app_ge by lia. rewrite H. f_equal; [lia|]. f_equal. lia.
Qed.

Lemma nth_sector_zdrop b i :
  0 <= i -> nth_sector (zdrop SECTOR_SIZE b) i = nth_sector b (i + 1).
Proof.
  intros ?. unfold nth_sector, slice, SECTOR_SIZE in *.
  rewrite zdrop_zdrop by lia. f_equal; [lia|]. f_equal. lia.
Qed.

Lemma md_get_spec d lba n :
  zlen (md_get d lba n) = Z.of_nat n * SECTOR_SIZE /\
  forall i, 0 <= i < Z.of_nat n -> nth_sector (md_get d lba n) i = md_sec d (lba + i).
Proof.
  revert lba. induction n as [|n IH]; intros lba; simpl; [split; [done|lia]|].
  destruct (IH (lba + 1)) as [Hlen Hsec]. pose proof (md_sec_len d lba) as Hs.
  split; [rewrite zlen_app; lia|]. intros i Hi.
  destruct (decide (i = 0)) as [->|].
  - rewrite nth_sector_app_0 by done. f_equal. lia.
  - rewrite nth_sector_app_S by (done || lia). rewrite Hsec by lia. f_equal. lia.
Qed.

Lemma md_put_lookup_out m lba n b l :
  l < lba \/ lba + Z.of_nat n <= l -> md_put m lba n b !! l = m !! l.
Proof.
  revert m lba b. induction n as [|n IH]; intros m lba b Hl; simpl; [done|].
  rewrite IH by lia. apply lookup_insert_ne. lia.
Qed.

Lemma md_put_lookup_in m lba n b i :
  0 <= i < Z.of_nat n -> md_put m lba n b !! (lba + i) = Some (pad_sector (nth_sector b i)).
Proof.
  revert m lba b i. induction n as [|n IH]; intros m lba b i Hi; simpl; [lia|].
  destruct (decide (i = 0)) as [->|].
  - rewrite md_put_lookup_out by lia. rewrite Z.add_0_r, lookup_insert_eq.
    unfold nth_sector, slice. by rewrite zdrop_0 by (unfold SECTOR_SIZE; lia).
  - replace (lba + i) with (lba + 1 + (i - 1)) by lia. rewrite IH by lia.
    rewrite nth_sector_zdrop by lia. do 3 f_equal. lia.
Qed.

Lemma zlen_nth_sector b n i :
  zlen b = n * SECTOR_SIZE -> 0 <= i < n -> zlen (nth_sector b i) = SECTOR_SIZE.
Proof. intros H ?. unfold nth_sector, SECTOR_SIZE in *. rewrite zlen_slice; lia. Qed.

(** A failed budgeted write leaves the disk untouched: power was lost first. *)
Lemma md_write_inv d lba n b d' r :
  md_write d lba n b = (d', r) ->
  md_cap d' = md_cap d /\
  ((r = false /\ d' = d) \/
   (r = true /\ 0 < n /\ zlen b = n * SECTOR_SIZE /\
    md_map d' = md_put (md_map d) lba (Z.to_nat n) b)).
Proof.
  unfold md_write, md_in_range. intros H.
  destruct (_ && _ && _ && _) eqn:?; bool_to_prop; [|simplify_eq; auto].
  destruct (md_budget d) as [[|k]|]; simplify_eq/=; split; auto 10.
Qed.

Lemma md_read_frame d lba n d' r :
  md_read d lba n = (d', r) ->
  (forall l, md_sec d' l = md_sec d l) /\ md_cap d' = md_cap d.
Proof.
  unfold md_read. intros H. destruct (md_faults d); [|by simplify_eq].
  destruct (md_in_range d lba n); by simplify_eq.
Qed.

Lemma md_read_data d lba n d' b :
  md_read d lba n = (d', Some b) ->
  zlen b = n * SECTOR_SIZE /\ forall i, 0 <= i < n -> nth_sector b i = md_sec d (lba + i).
Proof.
  unfold md_read, md_in_range. intros H. destruct (md_faults d); [|done].
  destruct (_ && _) eqn:?; bool_to_prop; simplify_eq.
  destruct (md_get_spec d' lba (Z.to_nat n)) as [Hlen Hsec].
  rewrite Z2Nat.id in * by lia. done.
Qed.

Lemma md_write_sec d lba n b d' :
  md_map d' = md_put (md_map d) lba (Z.to_nat n) b -> zlen b = n * SECTOR_SIZE ->
  forall i, 0 <= i < n -> md_sec d' (lba + i) = nth_sector b i.
Proof.
  intros Hm Hb i Hi. unfold md_sec. rewrite Hm, md_put_lookup_in by lia.
  rewrite !pad_sector_id; rewrite ?zlen_pad_sector; eauto using zlen_nth_sector.
Qed.

Lemma md_write_frame d lba n b d' r :
  md_write d lba n b = (d', r) ->
  md_cap d' = md_cap d /\
  (forall l, l < lba \/ lba + n <= l -> md_sec d' l = md_sec d l) /\
  (forall i, 0 <= i < n ->
     md_sec d' (lba + i) = md_sec d (lba + i) \/ md_sec d' (lba + i) = nth_sector b i).
Proof.
  intros H. apply md_write_inv in H as [Hcap [[-> ->]|(-> & ? & Hb & Hm)]].
  - split_and!; auto.
  - split_and!; [done| |eauto using md_write_sec].
    intros l Hl. unfold md_sec. rewrite Hm, md_put_lookup_out; [done|lia].
Qed.

Lemma md_write_data d lba n b d' :
  md_write d lba n b = (d', true) -> zlen b = n * SECTOR_SIZE ->
  forall i, 0 <= i < n -> md_sec d' (lba + i) = nth_sector b i.
Proof.
  intros H Hb. apply md_write_inv in H as [Hcap [[? ->]|(_ & ? & _ & Hm)]]; [done|].
  eauto using md_write_sec.
Qed.

(** No power loss ahead and no read fault pending. *)
Definition md_works (d : MemDisk) : Prop := md_budget d = None /\ md_faults d = O.

Lemma md_read_live d lba n :
  md_works d -> 0 <= lba -> 0 < n <= 8192 -> lba + n <= md_cap d ->
  exists d' b, md_read d lba n = (d', Some b) /\ md_works d'.
Proof.
  intros [Hok Hf] ???. unfold md_read, md_in_range, md_works. rewrite Hf.
  guard_true ((0 <=? lba) && (0 <? n) && (lba + n <=? md_cap d)). eauto.
Qed.

Lemma md_write_live d lba n b :
  md_works d -> 0 <= lba -> 0 < n <= 8192 -> lba + n <= md_cap d ->
  zlen b = n * SECTOR_SIZE ->
  exists d', md_write d lba n b = (d', true) /\ md_works d'.
Proof.
  intros [Hok Hf] ????. unfold md_write, md_in_range, md_works.
  guard_true ((0 <=? lba) && (0 <? n) && (lba + n <=? md_cap d) && (zlen b =? n * SECTOR_SIZE)).
  rewrite Hok. eauto.
Qed.

#[export] Instance MemDisk_BlockDevSpec : BlockDevSpec MemDisk := {
  bd_sec := md_sec;
  bd_cap := md_cap;
  bd_ok := md_works;
  bd_sec_len := md_sec_len;
  bd_read_frame := md_read_frame;
  bd_read_data := md_read_data;
  bd_write_frame := md_write_frame;
  bd_write_data := md_write_data;
  bd_read_live := md_read_live;
  bd_write_live := md_write_live;
}.
