(* ===== verification/AhciIo.v ===== *)
(** * The AHCI driver's statics, sector I/O and byte-field helpers

    kernel/src/drivers/storage/ahci.rs keeps its state in [OnceCell] statics;
    they are the fields of [Ahci], next to the device behind the first SATA
    port.  [AM] is the driver's effect: state passing with [Result<_, ()>]. *)

From S2P Require Import Prelude BlockDevice.

Record Ahci (D : Type) := mkAhci {
  ah_dev : D;
  FIRST_SATA_PORT : option Z;
  MODEL_CACHE_START_LBA : option Z;
  SSD_SECTOR_COUNT : option Z;
  MEMORY_DB_HEADER_LBA : option Z;
}.
Arguments mkAhci {D}.
Arguments ah_dev {D}.
Arguments FIRST_SATA_PORT {D}.
Arguments MODEL_CACHE_START_LBA {D}.
Arguments SSD_SECTOR_COUNT {D}.
Arguments MEMORY_DB_HEADER_LBA {D}.

Definition set_dev {D} (d : D) (s : Ahci D) : Ahci D :=
  mkAhci d (FIRST_SATA_PORT s) (MODEL_CACHE_START_LBA s) (SSD_SECTOR_COUNT s)
    (MEMORY_DB_HEADER_LBA s).
Definition set_MODEL_CACHE_START_LBA {D} (v : Z) (s : Ahci D) : Ahci D :=
  mkAhci (ah_dev s) (FIRST_SATA_PORT s) (once_set (MODEL_CACHE_START_LBA s) v)
    (SSD_SECTOR_COUNT s) (MEMORY_DB_HEADER_LBA s).
Definition set_SSD_SECTOR_COUNT {D} (v : Z) (s : Ahci D) : Ahci D :=
  mkAhci (ah_dev s) (FIRST_SATA_PORT s) (MODEL_CACHE_START_LBA s)
    (once_set (SSD_SECTOR_COUNT s) v) (MEMORY_DB_HEADER_LBA s).
Definition set_MEMORY_DB_HEADER_LBA {D} (v : Z) (s : Ahci D) : Ahci D :=
  mkAhci (ah_dev s) (FIRST_SATA_PORT s) (MODEL_CACHE_START_LBA s)
    (SSD_SECTOR_COUNT s) (once_set (MEMORY_DB_HEADER_LBA s) v).

Abbreviation AM D A := (ST (Ahci D) unit A).

Section io.
Context {D : Type} `{BlockDev D}.

(** [read_sectors(lba, count, buf)]: the buffer after an [Ok(())]. *)
Definition read_sectors (lba count : Z) : AM D bytes := fun s =>
  match FIRST_SATA_PORT s with
  | None => (s, Err tt)
  | Some port =>
      match bd_read (ah_dev s) lba count with
      | (d, Some b) => (set_dev d s, Ok b)
      | (d, None) => (set_dev d s, Err tt)
      end
  end.

Definition write_sectors (lba count : Z) (buf : bytes) : AM D unit := fun s =>
  match FIRST_SATA_PORT s with
  | None => (s, Err tt)
  | Some port =>
      match bd_write (ah_dev s) lba count buf with
      | (d, true) => (set_dev d s, Ok tt)
      | (d, false) => (set_dev d s, Err tt)
      end
  end.
End io.

Definition sectors_for_bytes (bytes : Z) : Z := div_ceil bytes SECTOR_SIZE.

Definition le_u32 (buf : bytes) (offset : Z) : outcome unit Z :=
  let? s := get_slice buf offset (offset + 4) in Ok (le_combine s).

Definition le_u64 (buf : bytes) (offset : Z) : outcome unit Z :=
  let? s := get_slice buf offset (offset + 8) in Ok (le_combine s).

Definition write_le_u32 (buf : bytes) (offset value : Z) : outcome unit bytes :=
  put_slice buf offset (to_le32 value).

Definition write_le_u64 (buf : bytes) (offset value : Z) : outcome unit bytes :=
  put_slice buf offset (to_le64 value).
