(* ===== verification/MemoryDb.v ===== *)
(** * The SSD memory database: operations

    The append-only log of kernel/src/drivers/storage/ahci.rs that keeps the RAM
    shell's history across reboots.  On disk it is a header sector at [db_lba],
    32 map sectors (one map header and 31 sectors of 16-byte entries), then the
    payload sectors.  This file translates the data and every operation;
    MemoryDbSpec.v states and proves what they do. *)

From S2P Require Import Prelude BlockDevice AhciIo.

Definition MODEL_IO_SECTORS : Z := 8192.
Definition MEMORY_DB_MAGIC : bytes := bstr "MEMDB002".
Definition MEMORY_DB_VERSION : Z := 2.
Definition MEMORY_DB_TOTAL_SECTORS : Z := 131072.
Definition MEMORY_DB_MAP_MAGIC : bytes := bstr "DMAP".
Definition MEMORY_DB_MAP_VERSION : Z := 1.
Definition MEMORY_DB_MAP_SECTORS : Z := 32.
Definition MEMORY_DB_MAP_ENTRY_SIZE : Z := 16.
Definition MEMORY_DB_MAP_ENTRY_SIZE_U32 : Z := 16.
Definition MEMORY_DB_MAP_ENTRIES_PER_SECTOR : Z := SECTOR_SIZE / MEMORY_DB_MAP_ENTRY_SIZE.
Definition MEMORY_DB_MAP_MAX_ENTRIES : Z :=
  sat_sub MEMORY_DB_MAP_SECTORS 1 * MEMORY_DB_MAP_ENTRIES_PER_SECTOR.

Definition MEMORY_DB_VERSION_OFFSET : Z := 8.
Definition MEMORY_DB_SECTOR_SIZE_OFFSET : Z := 12.
Definition MEMORY_DB_HEADER_LBA_OFFSET : Z := 16.
Definition MEMORY_DB_DATA_LBA_OFFSET : Z := 24.
Definition MEMORY_DB_TOTAL_SECTORS_OFFSET : Z := 32.
Definition MEMORY_DB_NEXT_APPEND_LBA_OFFSET : Z := 40.
Definition MEMORY_DB_LAST_SSD_LBA_OFFSET : Z := 48.
Definition MEMORY_DB_MODEL_START_LBA_OFFSET : Z := 56.
Definition MEMORY_DB_MODEL_LAST_LBA_OFFSET : Z := 64.
Definition MEMORY_DB_MAP_LBA_OFFSET : Z := 72.
Definition MEMORY_DB_MAP_ENTRIES_USED_OFFSET : Z := 80.
Definition MEMORY_DB_MAP_SECTORS_OFFSET : Z := 88.
Definition MEMORY_DB_MAP_HEADER_MAGIC_OFFSET : Z := 0.
Definition MEMORY_DB_MAP_HEADER_VERSION_OFFSET : Z := 4.
Definition MEMORY_DB_MAP_HEADER_ENTRY_SIZE_OFFSET : Z := 8.
Definition MEMORY_DB_MAP_HEADER_CAPACITY_OFFSET : Z := 12.
Definition MEMORY_DB_MAP_HEADER_USED_OFFSET : Z := 16.
Definition MEMORY_DB_MAP_ENTRY_START_OFFSET : Z := 0.
Definition MEMORY_DB_MAP_ENTRY_BYTES_OFFSET : Z := 8.
Definition MEMORY_DB_MAP_ENTRY_FLAGS_OFFSET : Z := 12.
Definition MEMORY_DB_MAP_FLAG_ACTIVE : Z := Z.shiftl 1 0.
Definition MEMORY_DB_ERASE_CHUNK_SECTORS : Z := 8.
Definition MEMORY_DB_ERASE_CHUNK_BYTES : Z := MEMORY_DB_ERASE_CHUNK_SECTORS * SECTOR_SIZE.

Record MemoryDbHeader := mkMemoryDbHeader {
  h_magic : bytes;
  h_version : Z;
  h_sector_size : Z;
  h_header_lba : Z;
  h_data_lba : Z;
  h_total_sectors : Z;
  h_next_append_lba : Z;
  h_last_ssd_lba : Z;
  h_model_start_lba : Z;
  h_model_last_lba : Z;
  h_map_lba : Z;
  h_map_entries_used : Z;
  h_map_sectors : Z;
}.

Record MemoryDbMapEntry := mkMemoryDbMapEntry {
  e_start_lba : Z;
  e_payload_bytes : Z;
  e_flags : Z;
}.

(** [state.next_append_lba = cursor; state.map_entries_used = used]. *)
Definition set_cursor (cursor used : Z) (h : MemoryDbHeader) : MemoryDbHeader :=
  mkMemoryDbHeader (h_magic h) (h_version h) (h_sector_size h) (h_header_lba h)
    (h_data_lba h) (h_total_sectors h) cursor (h_last_ssd_lba h) (h_model_start_lba h)
    (h_model_last_lba h) (h_map_lba h) used (h_map_sectors h).

Definition memory_db_map_entry_capacity : Z := MEMORY_DB_MAP_MAX_ENTRIES.

Definition memory_db_map_entry_location (entry_index : Z) : outcome unit (Z * Z) :=
  if memory_db_map_entry_capacity <=? entry_index then Err tt
  else
    let entries_per_sector := MEMORY_DB_MAP_ENTRIES_PER_SECTOR in
    let sector_offset := entry_index / entries_per_sector in
    let offset_within_sector :=
      sat_mul64 (entry_index mod entries_per_sector) MEMORY_DB_MAP_ENTRY_SIZE in
    Ok (sector_offset, offset_within_sector).

(** The header fields in the order [memory_db_write_header] writes them. *)
Definition header_fields (h : MemoryDbHeader) : list (Z * bytes) :=
  [ (0, h_magic h);
    (MEMORY_DB_VERSION_OFFSET, to_le32 (h_version h));
    (MEMORY_DB_SECTOR_SIZE_OFFSET, to_le32 (h_sector_size h));
    (MEMORY_DB_HEADER_LBA_OFFSET, to_le64 (h_header_lba h));
    (MEMORY_DB_DATA_LBA_OFFSET, to_le64 (h_data_lba h));
    (MEMORY_DB_TOTAL_SECTORS_OFFSET, to_le64 (h_total_sectors h));
    (MEMORY_DB_NEXT_APPEND_LBA_OFFSET, to_le64 (h_next_append_lba h));
    (MEMORY_DB_LAST_SSD_LBA_OFFSET, to_le64 (h_last_ssd_lba h));
    (MEMORY_DB_MODEL_START_LBA_OFFSET, to_le64 (h_model_start_lba h));
    (MEMORY_DB_MODEL_LAST_LBA_OFFSET, to_le64 (h_model_last_lba h));
    (MEMORY_DB_MAP_LBA_OFFSET, to_le64 (h_map_lba h));
    (MEMORY_DB_MAP_ENTRIES_USED_OFFSET, to_le64 (h_map_entries_used h));
    (MEMORY_DB_MAP_SECTORS_OFFSET, to_le64 (h_map_sectors h)) ].

Definition map_header_fields (map_entries_used : Z) : list (Z * bytes) :=
  [ (MEMORY_DB_MAP_HEADER_MAGIC_OFFSET, MEMORY_DB_MAP_MAGIC);
    (MEMORY_DB_MAP_HEADER_VERSION_OFFSET, to_le32 MEMORY_DB_MAP_VERSION);
    (MEMORY_DB_MAP_HEADER_ENTRY_SIZE_OFFSET, to_le32 MEMORY_DB_MAP_ENTRY_SIZE_U32);
    (MEMORY_DB_MAP_HEADER_CAPACITY_OFFSET, to_le32 memory_db_map_entry_capacity);
    (MEMORY_DB_MAP_HEADER_USED_OFFSET, to_le64 map_entries_used) ].

(** The three fields of map entry bytes, relative to the entry's offset. *)
Definition map_entry_fields (entry_offset start_lba payload_bytes flags : Z) : list (Z * bytes) :=
  [ (entry_offset + MEMORY_DB_MAP_ENTRY_START_OFFSET, to_le64 start_lba);
    (entry_offset + MEMORY_DB_MAP_ENTRY_BYTES_OFFSET, to_le32 payload_bytes);
    (entry_offset + MEMORY_DB_MAP_ENTRY_FLAGS_OFFSET, to_le32 flags) ].

(** The checks and field reads of [memory_db_read_map_header] on its buffer. *)
Definition decode_map_header (map_header : bytes) : outcome unit (Z * Z) :=
  let? magic := get_slice map_header MEMORY_DB_MAP_HEADER_MAGIC_OFFSET
                  (MEMORY_DB_MAP_HEADER_MAGIC_OFFSET + zlen MEMORY_DB_MAP_MAGIC) in
  if negb (bool_decide (magic = MEMORY_DB_MAP_MAGIC)) then Err tt else
  let? version := le_u32 map_header MEMORY_DB_MAP_HEADER_VERSION_OFFSET in
  if negb (version =? MEMORY_DB_MAP_VERSION) then Err tt else
  let? entry_size := le_u32 map_header MEMORY_DB_MAP_HEADER_ENTRY_SIZE_OFFSET in
  if negb (entry_size =? MEMORY_DB_MAP_ENTRY_SIZE) then Err tt else
  let? entry_capacity := le_u32 map_header MEMORY_DB_MAP_HEADER_CAPACITY_OFFSET in
  let? map_entries_used := le_u64 map_header MEMORY_DB_MAP_HEADER_USED_OFFSET in
  if negb (entry_capacity =? memory_db_map_entry_capacity)
     || (entry_capacity <? map_entries_used) then Err tt
  else Ok (entry_size, map_entries_used).

Definition decode_map_entry (sector : bytes) (entry_offset : Z) : outcome unit MemoryDbMapEntry :=
  let? start_lba := le_u64 sector (entry_offset + MEMORY_DB_MAP_ENTRY_START_OFFSET) in
  let? payload_bytes := le_u32 sector (entry_offset + MEMORY_DB_MAP_ENTRY_BYTES_OFFSET) in
  let? flags := le_u32 sector (entry_offset + MEMORY_DB_MAP_ENTRY_FLAGS_OFFSET) in
  Ok (mkMemoryDbMapEntry start_lba payload_bytes flags).

(** The checks and field reads of [memory_db_read_header] on its buffer. *)
Definition decode_header (header : bytes) : outcome unit MemoryDbHeader :=
  let? magic := get_slice header 0 (zlen MEMORY_DB_MAGIC) in
  if negb (bool_decide (magic = MEMORY_DB_MAGIC)) then Err tt else
  let? version := le_u32 header MEMORY_DB_VERSION_OFFSET in
  if negb (version =? MEMORY_DB_VERSION) then Err tt else
  let? sector_size := le_u32 header MEMORY_DB_SECTOR_SIZE_OFFSET in
  if negb (sector_size =? SECTOR_SIZE) then Err tt else
  let? header_lba := le_u64 header MEMORY_DB_HEADER_LBA_OFFSET in
  let? data_lba := le_u64 header MEMORY_DB_DATA_LBA_OFFSET in
  let? total_sectors := le_u64 header MEMORY_DB_TOTAL_SECTORS_OFFSET in
  let? next_append_lba := le_u64 header MEMORY_DB_NEXT_APPEND_LBA_OFFSET in
  let? last_ssd_lba := le_u64 header MEMORY_DB_LAST_SSD_LBA_OFFSET in
  let? model_start_lba := le_u64 header MEMORY_DB_MODEL_START_LBA_OFFSET in
  let? model_last_lba := le_u64 header MEMORY_DB_MODEL_LAST_LBA_OFFSET in
  let? map_lba := le_u64 header MEMORY_DB_MAP_LBA_OFFSET in
  let? map_entries_used := le_u64 header MEMORY_DB_MAP_ENTRIES_USED_OFFSET in
  let? map_sectors := le_u64 header MEMORY_DB_MAP_SECTORS_OFFSET in
  Ok (mkMemoryDbHeader magic version sector_size header_lba data_lba total_sectors
        next_append_lba last_ssd_lba model_start_lba model_last_lba map_lba
        map_entries_used map_sectors).

Section operations.
Context {D : Type} `{BlockDev D}.

Definition memory_db_read_map_header (map_lba : Z) : AM D (Z * Z) :=
  let! map_header := read_sectors map_lba 1 in
  slift (decode_map_header map_header).

Definition memory_db_write_map_header (map_lba map_entries_used : Z) : AM D unit :=
  let! _ := sopt tt (u32_try_from memory_db_map_entry_capacity) in
  let! map_header := slift (put_fields (zeros SECTOR_SIZE) (map_header_fields map_entries_used)) in
  write_sectors map_lba 1 map_header.

Definition memory_db_read_map_entry (map_lba entry_index : Z) : AM D MemoryDbMapEntry :=
  let! (entry_sector_offset, entry_offset) := slift (memory_db_map_entry_location entry_index) in
  let entry_lba := sat_add64 map_lba (entry_sector_offset + 1) in
  let! sector := read_sectors entry_lba 1 in
  slift (decode_map_entry sector entry_offset).

Definition memory_db_write_map_entry
    (map_lba entry_index start_lba payload_bytes flags : Z) : AM D unit :=
  let! (entry_sector_offset, entry_offset) := slift (memory_db_map_entry_location entry_index) in
  let entry_lba := sat_add64 map_lba (entry_sector_offset + 1) in
  let! sector := read_sectors entry_lba 1 in
  let! sector :=
    slift (put_fields sector (map_entry_fields entry_offset start_lba payload_bytes flags)) in
  write_sectors entry_lba 1 sector.

Definition memory_db_register_state (db_lba data_lba : Z) : AM D unit :=
  smodify (set_MEMORY_DB_HEADER_LBA db_lba).

Definition memory_db_read_header (db_lba : Z) : AM D MemoryDbHeader :=
  let! header := read_sectors db_lba 1 in
  slift (decode_header header).

(** The [while recovered < mapped_entries] loop of the recovery scan; it ends
    with the cursor and the number of entries accepted. *)
Fixpoint recover_loop (fuel : nat) (map_lba db_data_end mapped_entries cursor recovered : Z)
    : AM D (Z * Z) :=
  if negb (recovered <? mapped_entries) then sret (cursor, recovered) else
  match fuel with
  | O => sfuel
  | S fuel =>
      let! entry := memory_db_read_map_entry map_lba recovered in
      if Z.land (e_flags entry) MEMORY_DB_MAP_FLAG_ACTIVE =? 0 then sret (cursor, recovered)
      else if e_payload_bytes entry =? 0 then sret (cursor, recovered)
      else
        let entry_sectors := sectors_for_bytes (e_payload_bytes entry) in
        match checked_add64 cursor entry_sectors with
        | None => sfail tt
        | Some next_cursor =>
            if negb (e_start_lba entry =? cursor) || (db_data_end <? next_cursor)
            then sret (cursor, recovered)
            else recover_loop fuel map_lba db_data_end mapped_entries next_cursor (recovered + 1)
        end
  end.

(** [memory_db_recover_from_map(&mut state)]: the state after the call, and
    whether it returned [Ok(())]. *)
Definition memory_db_recover_from_map (state : MemoryDbHeader) : AM D (MemoryDbHeader * bool) :=
  let map_capacity := memory_db_map_entry_capacity in
  if (h_map_lba state =? 0) || negb (h_map_sectors state =? MEMORY_DB_MAP_SECTORS)
  then sret (state, false)
  else
    let db_data_end := sat_add64 (h_data_lba state) (h_total_sectors state) in
    let! mh := scatch (memory_db_read_map_header (h_map_lba state)) in
    match mh with
    | inr _ => sret (state, false)
    | inl (_, used_from_map_header) =>
        let mapped_entries := Z.min used_from_map_header map_capacity in
        let! scan := scatch (recover_loop (Z.to_nat mapped_entries) (h_map_lba state)
                               db_data_end mapped_entries (h_data_lba state) 0) in
        match scan with
        | inr _ => sret (state, false)
        | inl (cursor, recovered) =>
            let state := set_cursor cursor recovered state in
            if (h_next_append_lba state <? h_data_lba state)
               || (db_data_end <? h_next_append_lba state)
            then sret (state, false)
            else sret (state, true)
        end
    end.

Definition memory_db_write_header (state : MemoryDbHeader) : AM D unit :=
  let! cell := sgets MEMORY_DB_HEADER_LBA in
  match cell with
  | None => sfail tt
  | Some db_lba =>
      if negb (h_header_lba state =? db_lba) then sfail tt
      else
        let! header := slift (put_fields (zeros SECTOR_SIZE) (header_fields state)) in
        write_sectors db_lba 1 header
  end.

(** [if full_sectors > 0 { ... }] of the append loop: the cursor, the bytes
    written and remaining, and the sectors written in this iteration. *)
Definition append_full (data : bytes) (full_sectors write_lba written remaining : Z)
    : AM D (Z * Z * Z * Z) :=
  if 0 <? full_sectors then
    let! sectors := sopt tt (u16_try_from full_sectors) in
    let! src := slift (get_slice data written (written + full_sectors * SECTOR_SIZE)) in
    let! _ := write_sectors write_lba sectors src in
    sret (add64 write_lba sectors, add64 written (full_sectors * SECTOR_SIZE),
          sub64 remaining (full_sectors * SECTOR_SIZE), sectors)
  else sret (write_lba, written, remaining, 0).

(** [if tail_bytes > 0 { ... }]: the last, zero-padded sector. *)
Definition append_tail (data : bytes) (tail_bytes write_lba written remaining sectors_written : Z)
    : AM D (Z * Z * Z * Z) :=
  if 0 <? tail_bytes then
    let! src := slift (get_slice data written (written + tail_bytes)) in
    let! tail := slift (put_slice (zeros SECTOR_SIZE) 0 src) in
    let! _ := write_sectors write_lba 1 tail in
    sret (add64 write_lba 1, add64 written tail_bytes, sub64 remaining tail_bytes,
          sectors_written + 1)
  else sret (write_lba, written, remaining, sectors_written).

(** The chunk length of one iteration. *)
Definition append_chunk (remaining available_lba : Z) : Z :=
  let available_bytes := sat_mul64 available_lba SECTOR_SIZE in
  let chunk_len := Z.min remaining available_bytes in
  if MODEL_IO_SECTORS * SECTOR_SIZE <? chunk_len then MODEL_IO_SECTORS * SECTOR_SIZE
  else chunk_len.

(** The [while remaining > 0] loop of [append_memory_db]: one iteration writes
    the full sectors of a chunk, then its zero-padded tail.  The data pointer
    is read through the byte list it points to. *)
Fixpoint append_loop (fuel : nat) (data : bytes) (db_end_exclusive remaining written write_lba : Z)
    : AM D (Z * Z) :=
  if negb (0 <? remaining) then sret (written, write_lba) else
  match fuel with
  | O => sfuel
  | S fuel =>
      let available_lba := sat_sub db_end_exclusive write_lba in
      if available_lba =? 0 then sfail tt else
      let chunk_len := append_chunk remaining available_lba in
      if chunk_len =? 0 then sfail tt else
      let full_sectors := chunk_len / SECTOR_SIZE in
      let tail_bytes := chunk_len - full_sectors * SECTOR_SIZE in
      let! (write_lba, written, remaining, sectors_written) :=
        append_full data full_sectors write_lba written remaining in
      let! (write_lba, written, remaining, sectors_written) :=
        append_tail data tail_bytes write_lba written remaining sectors_written in
      if sectors_written =? 0 then sfail tt
      else append_loop fuel data db_end_exclusive remaining written write_lba
  end.

(** [append_memory_db] from the recovered [state] on: the capacity and cursor
    checks, the data, then the map entry, the map header and the header. *)
Definition append_recovered (state : MemoryDbHeader) (data : bytes) : AM D Z :=
  let data_len := zlen data in
  let map_capacity := memory_db_map_entry_capacity in
  if map_capacity <=? h_map_entries_used state then sfail tt else
  let! capacity := sgets SSD_SECTOR_COUNT in
  match capacity with
  | None => sfail tt
  | Some capacity_sectors =>
  let db_data_end := sat_add64 (h_data_lba state) (h_total_sectors state) in
  let disk_last_exclusive := sat_add64 capacity_sectors 1 in
  let db_end_exclusive := Z.min db_data_end disk_last_exclusive in
  if (h_next_append_lba state <? h_data_lba state)
     || (db_end_exclusive <=? h_next_append_lba state) then sfail tt else
  let! (written, write_lba) :=
    append_loop (Z.to_nat (sectors_for_bytes data_len)) data db_end_exclusive
      data_len 0 (h_next_append_lba state) in
  let! payload_u32 := sopt tt (u32_try_from data_len) in
  let! _ := memory_db_write_map_entry (h_map_lba state) (h_map_entries_used state)
              (h_next_append_lba state) payload_u32 MEMORY_DB_MAP_FLAG_ACTIVE in
  let state := set_cursor write_lba (add64 (h_map_entries_used state) 1) state in
  let! _ := memory_db_write_map_header (h_map_lba state) (h_map_entries_used state) in
  let! _ := memory_db_write_header state in
  sret written
  end.

(** [append_memory_db(data_ptr, data_len)]; [None] is a null pointer. *)
Definition append_memory_db (data_ptr : option bytes) : AM D Z :=
  let! cell := sgets MEMORY_DB_HEADER_LBA in
  match cell with
  | None => sfail tt
  | Some db_lba =>
  match data_ptr with
  | None => sret 0
  | Some data =>
  if zlen data =? 0 then sret 0 else
  let! state := memory_db_read_header db_lba in
  let expected_map_lba := sat_add64 db_lba 1 in
  if negb (h_map_lba state =? expected_map_lba)
     || negb (h_map_sectors state =? MEMORY_DB_MAP_SECTORS) then sfail tt else
  let! (state, _) := memory_db_recover_from_map state in
  append_recovered state data
  end end.

(** The zeroing loop of [erase_memory_db]. *)
Fixpoint erase_loop (fuel : nat) (zero : bytes) (db_end_exclusive lba : Z) : AM D unit :=
  if negb (lba <? db_end_exclusive) then sret tt else
  match fuel with
  | O => sfuel
  | S fuel =>
      let remaining := sat_sub db_end_exclusive lba in
      let! sectors := sopt tt (u16_try_from (Z.min remaining MEMORY_DB_ERASE_CHUNK_SECTORS)) in
      let! src := slift (get_slice zero 0 (sectors * SECTOR_SIZE)) in
      let! _ := write_sectors lba sectors src in
      erase_loop fuel zero db_end_exclusive (sat_add64 lba sectors)
  end.

Definition erase_memory_db : AM D unit :=
  let! cell := sgets MEMORY_DB_HEADER_LBA in
  match cell with
  | None => sfail tt
  | Some db_lba =>
  let! state := memory_db_read_header db_lba in
  let expected_map_lba := sat_add64 db_lba 1 in
  if negb (h_header_lba state =? db_lba)
     || negb (h_map_lba state =? expected_map_lba)
     || negb (h_map_sectors state =? MEMORY_DB_MAP_SECTORS)
     || negb (h_total_sectors state =? MEMORY_DB_TOTAL_SECTORS) then sfail tt else
  let! capacity := sgets SSD_SECTOR_COUNT in
  match capacity with
  | None => sfail tt
  | Some capacity_sectors =>
  let! db_end_exclusive := sopt tt (checked_add64 db_lba MEMORY_DB_TOTAL_SECTORS) in
  if capacity_sectors <? db_end_exclusive then sfail tt else
  let zero := zeros MEMORY_DB_ERASE_CHUNK_BYTES in
  let! _ := erase_loop (Z.to_nat (div_ceil MEMORY_DB_TOTAL_SECTORS MEMORY_DB_ERASE_CHUNK_SECTORS))
              zero db_end_exclusive db_lba in
  let! _ := memory_db_write_map_header (h_map_lba state) 0 in
  let fresh :=
    mkMemoryDbHeader MEMORY_DB_MAGIC MEMORY_DB_VERSION SECTOR_SIZE db_lba (h_data_lba state)
      MEMORY_DB_TOTAL_SECTORS (h_data_lba state) (sat_sub capacity_sectors 1)
      (h_model_start_lba state) (h_model_last_lba state) (h_map_lba state) 0
      MEMORY_DB_MAP_SECTORS in
  memory_db_write_header fresh
  end end.

(** The inner loop of [read_memory_db]: copy one entry's payload, a sector at a
    time, while the caller's buffer has room.  [out] is the buffer's filled
    prefix, [total_read] its length as the code counts it. *)
Fixpoint read_entry_loop (fuel : nat) (start_lba payload_bytes usable_tail entry_offset : Z)
    (out : bytes) (total_read remaining : Z) : AM D (bytes * Z * Z) :=
  if negb ((entry_offset <? payload_bytes) && (0 <? remaining))
  then sret (out, total_read, remaining) else
  match fuel with
  | O => sfuel
  | S fuel =>
      let bytes_left := payload_bytes - entry_offset in
      let to_copy := Z.min (Z.min bytes_left remaining) SECTOR_SIZE in
      let sector_index := entry_offset / SECTOR_SIZE in
      let! read_lba := sopt tt (checked_add64 start_lba sector_index) in
      if usable_tail <=? read_lba then sfail tt else
      let! sector := read_sectors read_lba 1 in
      let! copied := slift (get_slice sector 0 to_copy) in
      read_entry_loop fuel start_lba payload_bytes usable_tail
        (sat_add64 entry_offset to_copy) (out ++ copied)
        (add64 total_read to_copy) (sat_sub remaining to_copy)
  end.

(** The outer loop: the recovered entries, oldest first. *)
Fixpoint read_loop (fuel : nat) (state : MemoryDbHeader) (usable_tail entries_remaining : Z)
    (out : bytes) (total_read remaining : Z) : AM D (bytes * Z) :=
  if negb ((0 <? entries_remaining) && (0 <? remaining)) then sret (out, total_read) else
  match fuel with
  | O => sfuel
  | S fuel =>
      let entry_index := sub64 (h_map_entries_used state) entries_remaining in
      let! entry := memory_db_read_map_entry (h_map_lba state) entry_index in
      if Z.land (e_flags entry) MEMORY_DB_MAP_FLAG_ACTIVE =? 0 then sret (out, total_read)
      else if e_payload_bytes entry =? 0 then sret (out, total_read)
      else
        let payload_bytes := e_payload_bytes entry in
        let! (out, total_read, remaining) :=
          read_entry_loop (Z.to_nat (sectors_for_bytes payload_bytes)) (e_start_lba entry)
            payload_bytes usable_tail 0 out total_read remaining in
        read_loop fuel state usable_tail (sat_sub entries_remaining 1) out total_read remaining
  end.

(** [read_memory_db] from the recovered [state] on. *)
Definition read_recovered (state : MemoryDbHeader) (buf_len : Z) : AM D (bytes * Z) :=
  let! capacity := sgets SSD_SECTOR_COUNT in
  match capacity with
  | None => sfail tt
  | Some capacity_sectors =>
  let db_data_end := sat_add64 (h_data_lba state) (h_total_sectors state) in
  let usable_tail := if db_data_end <? capacity_sectors then capacity_sectors else db_data_end in
  if (h_next_append_lba state <? h_data_lba state)
     || (db_data_end <? h_next_append_lba state) then sfail tt else
  let entries_remaining := Z.min (h_map_entries_used state) memory_db_map_entry_capacity in
  if entries_remaining =? 0 then sret ([], 0) else
  read_loop (Z.to_nat entries_remaining) state usable_tail entries_remaining [] 0 buf_len
  end.

(** [read_memory_db(buf, buf_len)]: the bytes placed at the start of [buf] and
    the returned count.  [buf_null] is [buf.is_null()]. *)
Definition read_memory_db (buf_null : bool) (buf_len : Z) : AM D (bytes * Z) :=
  let! cell := sgets MEMORY_DB_HEADER_LBA in
  match cell with
  | None => sfail tt
  | Some db_lba =>
  if buf_null || (buf_len =? 0) then sret ([], 0) else
  let! state := memory_db_read_header db_lba in
  let expected_map_lba := sat_add64 db_lba 1 in
  if negb (h_map_lba state =? expected_map_lba)
     || negb (h_map_sectors state =? MEMORY_DB_MAP_SECTORS) then sfail tt else
  let! (state, _) := memory_db_recover_from_map state in
  read_recovered state buf_len
  end.

(** [for i in 0..MEMORY_DB_MAP_SECTORS] of [ensure_memory_db]. *)
Fixpoint zero_map_sectors (n : nat) (db_map_lba i : Z) : AM D unit :=
  match n with
  | O => sret tt
  | S n =>
      let! _ := write_sectors (add64 db_map_lba i) 1 (zeros SECTOR_SIZE) in
      zero_map_sectors n db_map_lba (i + 1)
  end.

(** [if memory_db_recover_from_map(&mut state).is_ok() { ... return Ok(()) }]:
    [true] when it returned. *)
Definition keep_recovered (db_lba db_data_lba : Z) (state : MemoryDbHeader) : AM D bool :=
  let! (state, recovered) := memory_db_recover_from_map state in
  if recovered : bool then
    let! _ := memory_db_write_map_header (h_map_lba state) (h_map_entries_used state) in
    let! _ := memory_db_register_state db_lba db_data_lba in
    let! _ := memory_db_write_header state in
    sret true
  else sret false.

(** The branch of [ensure_memory_db] that keeps an existing database: [true]
    when it returned [Ok(())]. *)
Definition ensure_existing (existing : bytes)
    (db_lba db_map_lba db_data_lba db_end_exclusive model_start_lba model_last_lba : Z)
    : AM D bool :=
  let! magic := slift (get_slice existing 0 (zlen MEMORY_DB_MAGIC)) in
  let existing_magic_ok := bool_decide (magic = MEMORY_DB_MAGIC) in
  let! existing_version := slift (le_u32 existing MEMORY_DB_VERSION_OFFSET) in
  let! existing_sector_size := slift (le_u32 existing MEMORY_DB_SECTOR_SIZE_OFFSET) in
  let! existing_header_lba := slift (le_u64 existing MEMORY_DB_HEADER_LBA_OFFSET) in
  let! existing_data_lba := slift (le_u64 existing MEMORY_DB_DATA_LBA_OFFSET) in
  let! existing_total_sectors := slift (le_u64 existing MEMORY_DB_TOTAL_SECTORS_OFFSET) in
  let! existing_next_append_lba := slift (le_u64 existing MEMORY_DB_NEXT_APPEND_LBA_OFFSET) in
  let! existing_map_lba := slift (le_u64 existing MEMORY_DB_MAP_LBA_OFFSET) in
  let! existing_map_entries_used := slift (le_u64 existing MEMORY_DB_MAP_ENTRIES_USED_OFFSET) in
  let! existing_map_sectors := slift (le_u64 existing MEMORY_DB_MAP_SECTORS_OFFSET) in
  let! map_read := scatch (memory_db_read_map_header existing_map_lba) in
  let map_read_ok := match map_read with inl _ => true | inr _ => false end in
  if existing_magic_ok
     && (existing_version =? MEMORY_DB_VERSION)
     && (existing_sector_size =? SECTOR_SIZE)
     && (existing_header_lba =? db_lba)
     && (existing_data_lba =? db_data_lba)
     && (existing_map_lba =? db_map_lba)
     && (existing_map_sectors =? MEMORY_DB_MAP_SECTORS)
     && (existing_total_sectors =? MEMORY_DB_TOTAL_SECTORS)
     && (db_data_lba <=? existing_next_append_lba)
     && (existing_next_append_lba <=? db_end_exclusive)
     && (existing_map_entries_used <=? memory_db_map_entry_capacity)
     && map_read_ok
  then
    let! last_ssd_lba := slift (le_u64 existing MEMORY_DB_LAST_SSD_LBA_OFFSET) in
    let state :=
      mkMemoryDbHeader MEMORY_DB_MAGIC existing_version existing_sector_size existing_header_lba
        existing_data_lba existing_total_sectors existing_next_append_lba last_ssd_lba
        model_start_lba model_last_lba existing_map_lba existing_map_entries_used
        existing_map_sectors in
    keep_recovered db_lba db_data_lba state
  else sret false.

(** The branch that formats a fresh database, its header written last and read back. *)
Definition ensure_fresh
    (db_lba db_map_lba db_data_lba capacity_sectors model_start_lba model_last_lba : Z)
    : AM D unit :=
  let state :=
    mkMemoryDbHeader MEMORY_DB_MAGIC MEMORY_DB_VERSION SECTOR_SIZE db_lba db_data_lba
      MEMORY_DB_TOTAL_SECTORS db_data_lba (sat_sub capacity_sectors 1) model_start_lba
      model_last_lba db_map_lba 0 MEMORY_DB_MAP_SECTORS in
  let! header := slift (put_fields (zeros SECTOR_SIZE) (header_fields state)) in
  let! _ := zero_map_sectors (Z.to_nat MEMORY_DB_MAP_SECTORS) db_map_lba 0 in
  let! _ := memory_db_write_map_header db_map_lba 0 in
  let! _ := write_sectors db_lba 1 header in
  let! verify := read_sectors db_lba 1 in
  let! magic := slift (get_slice verify 0 (zlen MEMORY_DB_MAGIC)) in
  if negb (bool_decide (magic = MEMORY_DB_MAGIC)) then sfail tt
  else memory_db_register_state db_lba db_data_lba.

Definition ensure_memory_db (db_lba model_start_lba model_last_lba : Z) : AM D unit :=
  let! capacity := sgets SSD_SECTOR_COUNT in
  match capacity with
  | None => sfail tt
  | Some capacity_sectors =>
  let! db_end_exclusive := sopt tt (checked_add64 db_lba MEMORY_DB_TOTAL_SECTORS) in
  if capacity_sectors <? db_end_exclusive then sfail tt else
  let db_map_lba := sat_add64 db_lba 1 in
  let db_data_lba := sat_add64 db_map_lba MEMORY_DB_MAP_SECTORS in
  if db_end_exclusive <=? db_data_lba then sfail tt else
  let! existing := scatch (read_sectors db_lba 1) in
  let! kept :=
    match existing with
    | inl existing =>
        ensure_existing existing db_lba db_map_lba db_data_lba db_end_exclusive
          model_start_lba model_last_lba
    | inr _ => sret false
    end in
  if kept : bool then sret tt
  else ensure_fresh db_lba db_map_lba db_data_lba capacity_sectors model_start_lba model_last_lba
  end.
End operations.
