(* ===== verification/MemoryDbSpec.v ===== *)
(** * The SSD memory database: specification and proofs

    [db_rep d db h log]: the sectors of device [d] from [db] on hold the log
    [log], a list of payloads, under header [h].  The operations of MemoryDb.v
    implement the abstract log: an append adds one payload at the end, a read
    returns the concatenation, an erase empties it, and a reboot (new statics,
    same disk) keeps it.  All theorems hold of any device that meets
    [BlockDevSpec]. *)

From S2P Require Import Prelude BlockDevice AhciIo MemoryDb.

(** ** Codecs *)

Definition encode_header (h : MemoryDbHeader) : bytes :=
  splice_fields (zeros SECTOR_SIZE) (header_fields h).
Definition encode_map_header (used : Z) : bytes :=
  splice_fields (zeros SECTOR_SIZE) (map_header_fields used).

Definition header_wf (h : MemoryDbHeader) : Prop :=
  h_magic h = MEMORY_DB_MAGIC /\ h_version h = MEMORY_DB_VERSION /\
  h_sector_size h = SECTOR_SIZE /\ u64 (h_header_lba h) /\ u64 (h_data_lba h) /\
  u64 (h_total_sectors h) /\ u64 (h_next_append_lba h) /\ u64 (h_last_ssd_lba h) /\
  u64 (h_model_start_lba h) /\ u64 (h_model_last_lba h) /\ u64 (h_map_lba h) /\
  u64 (h_map_entries_used h) /\ u64 (h_map_sectors h).

Lemma le_u32_ok buf off :
  0 <= off -> off + 4 <= zlen buf -> le_u32 buf off = Ok (le_combine (slice buf off (off + 4))).
Proof. intros. unfold le_u32. rewrite get_slice_ok by lia. done. Qed.

Lemma le_u64_ok buf off :
  0 <= off -> off + 8 <= zlen buf -> le_u64 buf off = Ok (le_combine (slice buf off (off + 8))).
Proof. intros. unfold le_u64. rewrite get_slice_ok by lia. done. Qed.

(** A field that an encoder wrote reads back. *)
Lemma field_bounds lo l fs off (src : bytes) :
  0 <= lo -> fields_sorted lo (zlen l) fs -> (off, src) ∈ fs ->
  0 <= off /\ off + zlen src <= zlen (splice_fields l fs).
Proof.
  intros Hlo Hs Hin. rewrite (zlen_splice_fields lo) by done. revert lo Hlo Hs.
  induction fs as [|[off' src'] fs IH]; simpl; intros lo Hlo Hs; [by apply elem_of_nil in Hin|].
  destruct Hs as [? Hs].
  pose proof (zlen_nonneg src'). pose proof (fields_sorted_bound _ _ _ Hs).
  apply elem_of_cons in Hin as [?|Hin]; [simplify_eq; lia|].
  apply (IH Hin (off' + zlen src')); [lia|done].
Qed.

Lemma get_slice_field {E} l fs off (src : bytes) b :
  fields_sorted 0 (zlen l) fs -> (off, src) ∈ fs -> b = off + zlen src ->
  get_slice (E := E) (splice_fields l fs) off b = Ok src.
Proof.
  intros Hs Hin ->. pose proof (zlen_nonneg src).
  destruct (field_bounds 0 l fs off src) as [??]; [done..|].
  rewrite get_slice_ok by lia. f_equal. by apply (slice_splice_fields 0).
Qed.

Lemma le_u64_field l fs off v :
  fields_sorted 0 (zlen l) fs -> (off, to_le64 v) ∈ fs -> u64 v ->
  le_u64 (splice_fields l fs) off = Ok v.
Proof.
  intros. unfold le_u64. rewrite (get_slice_field l fs off (to_le64 v)) by done.
  cbn [obind]. by rewrite le_combine_to_le64.
Qed.

Lemma le_u32_field l fs off v :
  fields_sorted 0 (zlen l) fs -> (off, to_le32 v) ∈ fs -> u32 v ->
  le_u32 (splice_fields l fs) off = Ok v.
Proof.
  intros. unfold le_u32. rewrite (get_slice_field l fs off (to_le32 v)) by done.
  cbn [obind]. by rewrite le_combine_to_le32.
Qed.

Ltac find_field := unfold header_fields, map_header_fields, map_entry_fields;
  repeat (apply list_elem_of_here || apply list_elem_of_further).
Ltac read_fields Hs :=
  repeat (first
    [ erewrite (le_u64_field _ _ _ _ Hs) by (find_field || done || by vm_compute)
    | erewrite (le_u32_field _ _ _ _ Hs) by (find_field || done || by vm_compute) ]; cbn [obind]).

Lemma header_fields_sorted h :
  h_magic h = MEMORY_DB_MAGIC -> fields_sorted 0 (zlen (zeros SECTOR_SIZE)) (header_fields h).
Proof.
  intros Hm. rewrite zlen_zeros by done. unfold header_fields. simpl.
  rewrite Hm, ?zlen_to_le64, ?zlen_to_le32. vm_compute. intuition discriminate.
Qed.

Lemma map_header_fields_sorted used :
  fields_sorted 0 (zlen (zeros SECTOR_SIZE)) (map_header_fields used).
Proof.
  rewrite zlen_zeros by done. unfold map_header_fields. simpl.
  rewrite ?zlen_to_le64, ?zlen_to_le32. vm_compute. intuition discriminate.
Qed.

Lemma zlen_encode_header h : h_magic h = MEMORY_DB_MAGIC -> zlen (encode_header h) = SECTOR_SIZE.
Proof.
  intros. unfold encode_header.
  rewrite (zlen_splice_fields 0) by (done || by apply header_fields_sorted).
  by rewrite zlen_zeros.
Qed.

Lemma zlen_encode_map_header used : zlen (encode_map_header used) = SECTOR_SIZE.
Proof.
  unfold encode_map_header.
  rewrite (zlen_splice_fields 0) by (done || apply map_header_fields_sorted).
  by rewrite zlen_zeros.
Qed.

(** Round trip of the database header: what is written decodes to itself. *)
Lemma decode_encode_header h : header_wf h -> decode_header (encode_header h) = Ok h.
Proof.
  intros (Hm & Hv & Hss & Hw). pose proof (header_fields_sorted h Hm) as Hs.
  destruct_and! Hw. unfold decode_header, encode_header.
  rewrite (get_slice_field _ _ 0 (h_magic h)) by (done || find_field || by rewrite Hm).
  cbn [obind]. rewrite bool_decide_eq_true_2 by done. cbn [negb].
  rewrite (le_u32_field _ _ _ (h_version h) Hs) by (find_field || by rewrite Hv).
  cbn [obind]. rewrite Hv. cbn [negb Z.eqb MEMORY_DB_VERSION Pos.eqb].
  rewrite (le_u32_field _ _ _ (h_sector_size h) Hs) by (find_field || by rewrite Hss).
  cbn [obind]. rewrite Hss. cbn [negb Z.eqb SECTOR_SIZE Pos.eqb].
  read_fields Hs. destruct h; simpl in *; congruence.
Qed.

Lemma map_max_entries : MEMORY_DB_MAP_MAX_ENTRIES = 992.
Proof. done. Qed.

Lemma decode_encode_map_header used :
  0 <= used <= MEMORY_DB_MAP_MAX_ENTRIES ->
  decode_map_header (encode_map_header used) = Ok (MEMORY_DB_MAP_ENTRY_SIZE, used).
Proof.
  intros Hu. pose proof (map_header_fields_sorted used) as Hs.
  rewrite map_max_entries in Hu. assert (u64 used) by ulia.
  unfold decode_map_header, encode_map_header.
  rewrite (get_slice_field _ _ _ MEMORY_DB_MAP_MAGIC) by (done || find_field).
  cbn [obind]. rewrite bool_decide_eq_true_2 by done. cbn [negb].
  read_fields Hs. change memory_db_map_entry_capacity with 992.
  cbn -[Z.ltb]. by guard_false (992 <? used).
Qed.

Lemma decode_map_header_bound b sz used :
  decode_map_header b = Ok (sz, used) -> used <= MEMORY_DB_MAP_MAX_ENTRIES.
Proof.
  unfold decode_map_header. intros H.
  repeat match type of H with
    | obind ?c _ = _ => destruct c; cbn [obind] in H; try done
    | (if ?c then _ else _) = _ => destruct c eqn:?; bool_to_prop; try done
    end.
  simplify_eq. unfold memory_db_map_entry_capacity in *. lia.
Qed.

Lemma le_u64_nonneg b off v : le_u64 b off = Ok v -> 0 <= v.
Proof.
  unfold le_u64. destruct (get_slice b off (off + 8)) as [x| | |]; try done.
  intros [= <-]. apply le_combine_bound.
Qed.

Lemma decode_map_header_nonneg b sz used : decode_map_header b = Ok (sz, used) -> 0 <= used.
Proof.
  unfold decode_map_header. intros H.
  repeat match type of H with
    | obind ?c _ = _ => destruct c eqn:?; cbn [obind] in H; try done
    | (if ?c then _ else _) = _ => destruct c; try done
    end.
  simplify_eq. eauto using le_u64_nonneg.
Qed.

Lemma decode_map_header_total b :
  zlen b = SECTOR_SIZE -> (exists r, decode_map_header b = Ok r) \/ decode_map_header b = Err tt.
Proof.
  intros Hb. unfold decode_map_header. rewrite get_slice_ok by (rewrite ?Hb; done). cbn [obind].
  destruct (negb _); [by right|].
  rewrite !le_u32_ok by (done || by rewrite Hb). cbn [obind]. do 2 (destruct (negb _); [by right|]).
  rewrite !le_u64_ok by (done || by rewrite Hb). cbn [obind].
  destruct (_ || _); [by right|left; eauto].
Qed.

(** The fields of a header sector, whether or not it passes the checks. *)
Definition header_of (b : bytes) : MemoryDbHeader :=
  let f32 off := le_combine (slice b off (off + 4)) in
  let f64 off := le_combine (slice b off (off + 8)) in
  mkMemoryDbHeader (slice b 0 (zlen MEMORY_DB_MAGIC)) (f32 MEMORY_DB_VERSION_OFFSET)
    (f32 MEMORY_DB_SECTOR_SIZE_OFFSET) (f64 MEMORY_DB_HEADER_LBA_OFFSET)
    (f64 MEMORY_DB_DATA_LBA_OFFSET) (f64 MEMORY_DB_TOTAL_SECTORS_OFFSET)
    (f64 MEMORY_DB_NEXT_APPEND_LBA_OFFSET) (f64 MEMORY_DB_LAST_SSD_LBA_OFFSET)
    (f64 MEMORY_DB_MODEL_START_LBA_OFFSET) (f64 MEMORY_DB_MODEL_LAST_LBA_OFFSET)
    (f64 MEMORY_DB_MAP_LBA_OFFSET) (f64 MEMORY_DB_MAP_ENTRIES_USED_OFFSET)
    (f64 MEMORY_DB_MAP_SECTORS_OFFSET).

Lemma decode_header_of b h : zlen b = SECTOR_SIZE -> decode_header b = Ok h -> h = header_of b.
Proof.
  intros Hb. unfold decode_header. rewrite get_slice_ok by (rewrite ?Hb; done). cbn [obind].
  destruct (negb _); [done|].
  rewrite !le_u32_ok by (done || by rewrite Hb). cbn [obind]. do 2 (destruct (negb _); [done|]).
  rewrite !le_u64_ok by (done || by rewrite Hb). cbn [obind]. by intros [= <-].
Qed.

Lemma map_entry_fields_sorted lo (sec : bytes) off start len flags :
  lo <= off -> off + 16 <= zlen sec ->
  fields_sorted lo (zlen sec) (map_entry_fields off start len flags).
Proof.
  intros. unfold map_entry_fields. simpl.
  rewrite zlen_to_le64, !zlen_to_le32.
  unfold MEMORY_DB_MAP_ENTRY_START_OFFSET, MEMORY_DB_MAP_ENTRY_BYTES_OFFSET,
    MEMORY_DB_MAP_ENTRY_FLAGS_OFFSET. lia.
Qed.

Lemma decode_map_entry_new sec off start len flags :
  0 <= off -> off + 16 <= zlen sec -> u64 start -> u32 len -> u32 flags ->
  decode_map_entry (splice_fields sec (map_entry_fields off start len flags)) off
  = Ok (mkMemoryDbMapEntry start len flags).
Proof.
  intros. pose proof (map_entry_fields_sorted 0 sec off start len flags ltac:(lia) ltac:(lia)) as Hs.
  unfold decode_map_entry. by read_fields Hs.
Qed.

(** An entry below the one that was written keeps its bytes. *)
Lemma decode_map_entry_below sec off start len flags off' :
  0 <= off' -> off' + 16 <= off -> off + 16 <= zlen sec ->
  decode_map_entry (splice_fields sec (map_entry_fields off start len flags)) off'
  = decode_map_entry sec off'.
Proof.
  intros. pose proof (map_entry_fields_sorted off sec off start len flags ltac:(lia) ltac:(lia)) as Hs.
  unfold decode_map_entry, MEMORY_DB_MAP_ENTRY_START_OFFSET, MEMORY_DB_MAP_ENTRY_BYTES_OFFSET,
    MEMORY_DB_MAP_ENTRY_FLAGS_OFFSET.
  assert (zlen (splice_fields sec (map_entry_fields off start len flags)) = zlen sec) as Hl
    by (apply (zlen_splice_fields off); [lia|done]).
  rewrite !le_u64_ok, !le_u32_ok by lia. cbn [obind].
  by rewrite !(slice_splice_fields_before off) by (lia || done).
Qed.

(** ** The log on disk *)

Definition entry_sectors (p : bytes) : Z := sectors_for_bytes (zlen p).
Definition log_sectors (log : list bytes) : Z := foldr (fun p n => entry_sectors p + n) 0 log.

(** Payload lengths that a map entry can hold. *)
Definition payload_ok (p : bytes) : Prop := 0 < zlen p <= U32_MAX.

Definition header_layout (h : MemoryDbHeader) (db : Z) : Prop :=
  header_wf h /\ h_header_lba h = db /\ h_map_lba h = db + 1 /\
  h_data_lba h = db + 1 + MEMORY_DB_MAP_SECTORS /\
  h_total_sectors h = MEMORY_DB_TOTAL_SECTORS /\ h_map_sectors h = MEMORY_DB_MAP_SECTORS.

(** [db] leaves room for the whole region inside the 48-bit LBA space of the
    DMA EXT commands. *)
Definition LBA48_MAX : Z := 281474976710656.
Definition db_addressable (db : Z) : Prop :=
  0 <= db /\ db + 2 * MEMORY_DB_TOTAL_SECTORS <= LBA48_MAX.

Definition data_start (db : Z) : Z := db + 1 + MEMORY_DB_MAP_SECTORS.
Definition data_end (db : Z) : Z := data_start db + MEMORY_DB_TOTAL_SECTORS.

(** Linear arithmetic over the fixed layout of the region. *)
Ltac dblia :=
  unfold payload_ok, data_end, data_start, db_addressable in *;
  unfold MEMORY_DB_MAP_SECTORS, MEMORY_DB_TOTAL_SECTORS, memory_db_map_entry_capacity in *;
  unfold LBA48_MAX, sat_add64, sat_sub, SECTOR_SIZE in *; rewrite ?map_max_entries in *; ulia.

Section rep.
Context {D : Type} `{BlockDevSpec D}.

(** Two devices that cannot be told apart by reading. *)
Definition dev_eq (d d' : D) : Prop :=
  (forall l, bd_sec d' l = bd_sec d l) /\ bd_cap d' = bd_cap d.

#[export] Instance dev_eq_equiv : Equivalence dev_eq.
Proof.
  split; red; unfold dev_eq; intros; destruct_and?; split; intros; try done; congruence.
Qed.

Definition payload_at (d : D) (lba : Z) (p : bytes) : Prop :=
  forall j, 0 <= j < entry_sectors p ->
    ztake (zlen p - j * SECTOR_SIZE) (bd_sec d (lba + j))
    = slice p (j * SECTOR_SIZE) (j * SECTOR_SIZE + SECTOR_SIZE).

Definition entry_at (d : D) (db i : Z) (e : MemoryDbMapEntry) : Prop :=
  decode_map_entry (bd_sec d (db + 2 + i / 32)) (i mod 32 * 16) = Ok e.

(** An active entry for [len] bytes from [lba] on. *)
Definition live_entry (d : D) (db i lba len : Z) : Prop :=
  exists flags, Z.land flags MEMORY_DB_MAP_FLAG_ACTIVE <> 0 /\
    entry_at d db i (mkMemoryDbMapEntry lba len flags).

Fixpoint log_on_disk (d : D) (db i lba : Z) (log : list bytes) : Prop :=
  match log with
  | [] => True
  | p :: log =>
      live_entry d db i lba (zlen p) /\
      payload_at d lba p /\ payload_ok p /\
      log_on_disk d db (i + 1) (lba + entry_sectors p) log
  end.

Record db_rep (d : D) (db : Z) (h : MemoryDbHeader) (log : list bytes) : Prop := {
  rep_addr : db_addressable db;
  rep_header : decode_header (bd_sec d db) = Ok h;
  rep_layout : header_layout h db;
  rep_cursor : data_start db <= h_next_append_lba h <= data_end db;
  rep_used : h_map_entries_used h <= MEMORY_DB_MAP_MAX_ENTRIES;
  rep_map : decode_map_header (bd_sec d (db + 1)) = Ok (MEMORY_DB_MAP_ENTRY_SIZE, zlen log);
  rep_log : log_on_disk d db 0 (data_start db) log;
  rep_fits : log_sectors log <= MEMORY_DB_TOTAL_SECTORS;
}.

(** The header's own cursor agrees with the map. *)
Definition db_synced (db : Z) (h : MemoryDbHeader) (log : list bytes) : Prop :=
  h_next_append_lba h = data_start db + log_sectors log /\ h_map_entries_used h = zlen log.

(** The statics once a database is registered, over the device [d]. *)
Definition db_ready (s : Ahci D) (db : Z) : Prop :=
  FIRST_SATA_PORT s <> None /\ MEMORY_DB_HEADER_LBA s = Some db /\
  SSD_SECTOR_COUNT s = Some (bd_cap (ah_dev s)).

Lemma entry_sectors_pos p : payload_ok p -> 0 < entry_sectors p.
Proof.
  unfold payload_ok, entry_sectors, sectors_for_bytes. intros.
  pose proof (div_ceil_spec (zlen p) SECTOR_SIZE ltac:(done) ltac:(lia)).
  unfold SECTOR_SIZE in *. lia.
Qed.

Lemma entry_sectors_nonneg p : 0 <= entry_sectors p.
Proof.
  unfold entry_sectors, sectors_for_bytes. pose proof (zlen_nonneg p).
  pose proof (div_ceil_spec (zlen p) SECTOR_SIZE ltac:(done) ltac:(lia)). lia.
Qed.

Lemma log_sectors_nil : log_sectors [] = 0.
Proof. done. Qed.

Lemma log_sectors_cons p log : log_sectors (p :: log) = entry_sectors p + log_sectors log.
Proof. done. Qed.

Lemma log_sectors_nonneg log : 0 <= log_sectors log.
Proof.
  induction log as [|p log IH]; simpl; [lia|]. pose proof (entry_sectors_nonneg p). lia.
Qed.

Lemma log_sectors_app l1 l2 : log_sectors (l1 ++ l2) = log_sectors l1 + log_sectors l2.
Proof. induction l1 as [|p l1 IH]; simpl; [done|]. rewrite IH. lia. Qed.

Lemma log_on_disk_frame d d' db i lba log :
  (forall j e, i <= j < i + zlen log -> entry_at d db j e -> entry_at d' db j e) ->
  (forall l, lba <= l < lba + log_sectors log -> bd_sec d' l = bd_sec d l) ->
  log_on_disk d db i lba log -> log_on_disk d' db i lba log.
Proof.
  revert i lba. induction log as [|p log IH]; simpl; intros i lba He Hd; [done|].
  rewrite zlen_cons in He. pose proof (zlen_nonneg log).
  pose proof (log_sectors_nonneg log). pose proof (entry_sectors_nonneg p).
  intros ((f & ? & ?) & Hp & ? & Hl).
  split_and!; [exists f; split; [done|]; apply He; [lia|done]| |done|].
  - intros j Hj. rewrite Hd by lia. by apply Hp.
  - apply IH; [|intros; apply Hd; lia|done]. intros; apply He; [lia|done].
Qed.

Lemma log_on_disk_snoc d db i lba log p :
  log_on_disk d db i lba (log ++ [p]) <->
  log_on_disk d db i lba log /\
  live_entry d db (i + zlen log) (lba + log_sectors log) (zlen p) /\
  payload_at d (lba + log_sectors log) p /\ payload_ok p.
Proof.
  revert i lba. induction log as [|q log IH]; intros i lba; simpl.
  - rewrite !Z.add_0_r. tauto.
  - rewrite IH, zlen_cons, !Z.add_assoc. tauto.
Qed.

(** A device that agrees on the header, the map and the live payload sectors
    represents the same log. *)
Lemma db_rep_frame d d' db h log :
  db_rep d db h log ->
  bd_sec d' db = bd_sec d db -> bd_sec d' (db + 1) = bd_sec d (db + 1) ->
  (forall j e, 0 <= j < zlen log -> entry_at d db j e -> entry_at d' db j e) ->
  (forall l, data_start db <= l < data_start db + log_sectors log -> bd_sec d' l = bd_sec d l) ->
  db_rep d' db h log.
Proof.
  intros [] Hh Hm He Hd. split; try done; [by rewrite Hh|by rewrite Hm|].
  eapply log_on_disk_frame; [..|done]; [intros; apply He; [lia|done]|done].
Qed.

#[export] Instance db_rep_proper : Proper (dev_eq ==> (=) ==> (=) ==> (=) ==> iff) db_rep.
Proof.
  assert (forall d d' db h log, dev_eq d d' -> db_rep d db h log -> db_rep d' db h log) as Hp.
  { intros d d' db h log [Hs _] Hr. apply (db_rep_frame d); auto.
    unfold entry_at. intros. by rewrite Hs. }
  intros d d' Heq db ? <- h ? <- log ? <-. split; apply Hp; [done|by symmetry].
Qed.

(** ** Transfers

    [G] is a condition under which the device is known to work: while it holds
    no transfer inside the capacity fails. *)

Lemma wp_read_sectors (G : Prop) s d lba n Q X :
  FIRST_SATA_PORT s <> None -> (G -> bd_ok d) ->
  (G -> 0 <= lba /\ 0 < n <= 8192 /\ lba + n <= bd_cap d) ->
  (forall d' b, (G -> bd_ok d') -> dev_eq d d' -> zlen b = n * SECTOR_SIZE ->
     (forall i, 0 <= i < n -> nth_sector b i = bd_sec d (lba + i)) -> Q b (set_dev d' s)) ->
  (forall d', ~ G -> dev_eq d d' -> X tt (set_dev d' s)) ->
  wp (read_sectors lba n) Q X (set_dev d s).
Proof.
  intros Hp Hok Hr HQ HX. Transparent wp. unfold wp, read_sectors. Opaque wp. simpl.
  destruct (FIRST_SATA_PORT s) eqn:Hport; [|congruence].
  destruct (bd_read d lba n) as [d' [b|]] eqn:E.
  - destruct (bd_read_frame _ _ _ _ _ E) as [??], (bd_read_data _ _ _ _ _ E) as [??].
    unfold set_dev in *; simpl in *. rewrite Hport in *. apply HQ; [|done..].
    intros HG. destruct (Hr HG) as (?&?&?).
    destruct (bd_read_live d lba n) as (?&?&Hx&?); auto.
    rewrite Hx in E. by simplify_eq.
  - destruct (bd_read_frame _ _ _ _ _ E) as [??].
    unfold set_dev in *; simpl in *. rewrite Hport in *. apply HX; [|done..].
    intros HG. destruct (Hr HG) as (?&?&?).
    destruct (bd_read_live d lba n) as (?&?&Hx&?); auto.
    rewrite Hx in E. by simplify_eq.
Qed.

(** [d'] is [d] with the sectors of [b] stored at [lba]. *)
Definition written (d d' : D) (lba n : Z) (b : bytes) : Prop :=
  bd_cap d' = bd_cap d /\
  (forall l, l < lba \/ lba + n <= l -> bd_sec d' l = bd_sec d l) /\
  (forall i, 0 <= i < n -> bd_sec d' (lba + i) = nth_sector b i).

(** After a failed write, each sector is the old or the new one. *)
Definition torn (d d' : D) (lba n : Z) (b : bytes) : Prop :=
  bd_cap d' = bd_cap d /\
  (forall l, l < lba \/ lba + n <= l -> bd_sec d' l = bd_sec d l) /\
  (forall i, 0 <= i < n ->
     bd_sec d' (lba + i) = bd_sec d (lba + i) \/ bd_sec d' (lba + i) = nth_sector b i).

Lemma wp_write_sectors (G : Prop) s d lba n b Q X :
  FIRST_SATA_PORT s <> None -> (G -> bd_ok d) ->
  (G -> 0 <= lba /\ 0 < n <= 8192 /\ lba + n <= bd_cap d) -> zlen b = n * SECTOR_SIZE ->
  (forall d', (G -> bd_ok d') -> written d d' lba n b -> Q tt (set_dev d' s)) ->
  (forall d', ~ G -> torn d d' lba n b -> X tt (set_dev d' s)) ->
  wp (write_sectors lba n b) Q X (set_dev d s).
Proof.
  intros Hp Hok Hr Hb HQ HX. Transparent wp. unfold wp, write_sectors. Opaque wp. simpl.
  destruct (FIRST_SATA_PORT s) eqn:Hport; [|congruence].
  destruct (bd_write d lba n b) as [d' r] eqn:E.
  pose proof (bd_write_frame _ _ _ _ _ _ E) as (?&?&?).
  assert (G -> r = true /\ bd_ok d') as Hlive.
  { intros HG. destruct (Hr HG) as (?&?&?).
    destruct (bd_write_live d lba n b) as (?&Hx&?); auto.
    rewrite Hx in E. by simplify_eq. }
  unfold set_dev in *; simpl in *. rewrite Hport in *. destruct r.
  - apply HQ; [by intros HG; apply Hlive|]. split_and!; auto.
    by apply (bd_write_data _ _ _ _ _ E).
  - apply HX; [by intros HG; destruct (Hlive HG)|done].
Qed.

(** One-sector transfers, the common case. *)
Lemma nth_sector_0 b : zlen b = SECTOR_SIZE -> nth_sector b 0 = b.
Proof. intros Hb. unfold nth_sector. by apply slice_all. Qed.

Lemma wp_read_sector (G : Prop) s d lba Q X :
  FIRST_SATA_PORT s <> None -> (G -> bd_ok d) -> (G -> 0 <= lba < bd_cap d) ->
  (forall d', (G -> bd_ok d') -> dev_eq d d' -> Q (bd_sec d lba) (set_dev d' s)) ->
  (forall d', ~ G -> dev_eq d d' -> X tt (set_dev d' s)) ->
  wp (read_sectors lba 1) Q X (set_dev d s).
Proof.
  intros ?? Hr HQ HX. apply (wp_read_sectors G); [done|done|intros; specialize (Hr ltac:(done)); lia| |done].
  intros d' b ?? Hb Hs. specialize (Hs 0 ltac:(lia)).
  rewrite nth_sector_0, Z.add_0_r in Hs by (unfold SECTOR_SIZE in *; lia). subst. by apply HQ.
Qed.

(** A device with these contents that works still works after a read of sector
    [lba], whether or not the read succeeds. *)
Definition survives_read (d : D) (lba : Z) : Prop :=
  forall d1 d2 r, dev_eq d d1 -> bd_ok d1 -> bd_read d1 lba 1 = (d2, r) -> bd_ok d2.

Lemma survives_inside d lba : 0 <= lba < bd_cap d -> survives_read d lba.
Proof.
  intros Hl d1 d2 r [_ Hc] Hok Hrd.
  destruct (bd_read_live d1 lba 1) as (d' & b & Hx & ?); [done|lia|lia|lia|]. congruence.
Qed.

(** The read of one sector, anywhere: the sector or an error. *)
Lemma wp_read_anywhere s d lba Q X :
  FIRST_SATA_PORT s <> None -> bd_ok d -> survives_read d lba ->
  (forall d', bd_ok d' -> dev_eq d d' -> Q (bd_sec d lba) (set_dev d' s)) ->
  (forall d', bd_ok d' -> dev_eq d d' -> ~ 0 <= lba < bd_cap d -> X tt (set_dev d' s)) ->
  wp (read_sectors lba 1) Q X (set_dev d s).
Proof.
  intros Hp Hok Hsv HQ HX. destruct (decide (0 <= lba < bd_cap d)) as [Hin|Hout].
  { apply (wp_read_sector True); auto; tauto. }
  destruct (bd_read d lba 1) as [d' r] eqn:E.
  pose proof (Hsv d d' r ltac:(reflexivity) Hok E). pose proof (bd_read_frame _ _ _ _ _ E) as He.
  Transparent wp. unfold wp, read_sectors. Opaque wp. simpl.
  destruct (FIRST_SATA_PORT s) eqn:Hport; [|congruence]. rewrite E.
  destruct r as [b|]; unfold set_dev in *; simpl in *; rewrite Hport in *; [|by apply HX].
  destruct (bd_read_data _ _ _ _ _ E) as [Hb Hs]. specialize (Hs 0 ltac:(lia)).
  rewrite nth_sector_0, Z.add_0_r in Hs by (unfold SECTOR_SIZE in *; lia). subst. by apply HQ.
Qed.

Lemma wp_write_sector (G : Prop) s d lba b Q X :
  FIRST_SATA_PORT s <> None -> (G -> bd_ok d) -> (G -> 0 <= lba < bd_cap d) ->
  zlen b = SECTOR_SIZE ->
  (forall d', (G -> bd_ok d') -> bd_cap d' = bd_cap d -> bd_sec d' lba = b ->
     (forall l, l <> lba -> bd_sec d' l = bd_sec d l) -> Q tt (set_dev d' s)) ->
  (forall d', ~ G -> bd_cap d' = bd_cap d -> (bd_sec d' lba = b \/ bd_sec d' lba = bd_sec d lba) ->
     (forall l, l <> lba -> bd_sec d' l = bd_sec d l) -> X tt (set_dev d' s)) ->
  wp (write_sectors lba 1 b) Q X (set_dev d s).
Proof.
  intros ?? Hr Hb HQ HX. apply (wp_write_sectors G); [done|done| |lia| |].
  - intros; specialize (Hr ltac:(done)); lia.
  - intros d' ? (? & Hout & Hin). apply HQ; [done|done| |intros; apply Hout; lia].
    specialize (Hin 0 ltac:(lia)). by rewrite Z.add_0_r, nth_sector_0 in Hin.
  - intros d' ? (? & Hout & Hin). apply HX; [done|done| |intros; apply Hout; lia].
    specialize (Hin 0 ltac:(lia)). rewrite Z.add_0_r, nth_sector_0 in Hin by done. tauto.
Qed.

(** ** The operations, one rule each *)

Section rules.
Context (G : Prop) (s : Ahci D) (Hport : FIRST_SATA_PORT s <> None).

(** The device works as long as [G] holds, and holds the header and the map. *)
Definition dev_good (db : Z) (d : D) : Prop :=
  G -> bd_ok d /\ 0 <= db /\ data_start db <= bd_cap d.

Lemma dev_good_eq db d d' :
  dev_good db d -> (G -> bd_ok d') -> bd_cap d' = bd_cap d -> dev_good db d'.
Proof. unfold dev_good. intros Hd ? -> HG. destruct (Hd HG) as (?&?&?). auto. Qed.

Lemma wp_read_meta db d lba Q X :
  dev_good db d -> db <= lba < data_start db ->
  (forall d', dev_good db d' -> dev_eq d d' -> Q (bd_sec d lba) (set_dev d' s)) ->
  (forall d', ~ G -> dev_eq d d' -> X tt (set_dev d' s)) ->
  wp (read_sectors lba 1) Q X (set_dev d s).
Proof.
  intros Hd ? HQ HX. apply (wp_read_sector G); [done|..].
  - intros HG. by destruct (Hd HG).
  - intros HG. destruct (Hd HG) as (?&?&?). lia.
  - intros d' ? Hde. apply HQ; [|done]. destruct Hde. by apply (dev_good_eq db d).
  - done.
Qed.

Lemma wp_write_meta db d lba b Q X :
  dev_good db d -> db <= lba < data_start db -> zlen b = SECTOR_SIZE ->
  (forall d', dev_good db d' -> bd_cap d' = bd_cap d -> bd_sec d' lba = b ->
     (forall l, l <> lba -> bd_sec d' l = bd_sec d l) -> Q tt (set_dev d' s)) ->
  (forall d', ~ G -> bd_cap d' = bd_cap d -> (bd_sec d' lba = b \/ bd_sec d' lba = bd_sec d lba) ->
     (forall l, l <> lba -> bd_sec d' l = bd_sec d l) -> X tt (set_dev d' s)) ->
  wp (write_sectors lba 1 b) Q X (set_dev d s).
Proof.
  intros Hd ?? HQ HX. apply (wp_write_sector G); [done|..]; try done.
  - intros HG. by destruct (Hd HG).
  - intros HG. destruct (Hd HG) as (?&?&?). lia.
  - intros d' ???. apply HQ; try done. by apply (dev_good_eq db d).
Qed.

Lemma wp_read_header db d h log Q X :
  dev_good db d -> db_rep d db h log ->
  (forall d', dev_good db d' -> dev_eq d d' -> Q h (set_dev d' s)) ->
  (forall d', ~ G -> dev_eq d d' -> X tt (set_dev d' s)) ->
  wp (memory_db_read_header db) Q X (set_dev d s).
Proof.
  intros Hd Hr HQ HX. apply wp_bind, (wp_read_meta db); [done|..|done].
  - unfold data_start, MEMORY_DB_MAP_SECTORS. lia.
  - intros d' ??. apply (wp_lift_ok _ h); [apply Hr|by apply HQ].
Qed.

Lemma wp_read_map_header db d used Q X :
  dev_good db d -> decode_map_header (bd_sec d (db + 1)) = Ok used ->
  (forall d', dev_good db d' -> dev_eq d d' -> Q used (set_dev d' s)) ->
  (forall d', ~ G -> dev_eq d d' -> X tt (set_dev d' s)) ->
  wp (memory_db_read_map_header (db + 1)) Q X (set_dev d s).
Proof.
  intros Hd Hr HQ HX. apply wp_bind, (wp_read_meta db); [done|..|done].
  - unfold data_start, MEMORY_DB_MAP_SECTORS. lia.
  - intros d' ??. apply (wp_lift_ok _ used); [done|by apply HQ].
Qed.

Lemma map_entry_location_ok i :
  0 <= i < MEMORY_DB_MAP_MAX_ENTRIES ->
  memory_db_map_entry_location i = Ok (i / 32, i mod 32 * 16) /\
  0 <= i / 32 < 31 /\ 0 <= i mod 32 * 16 <= 496.
Proof.
  rewrite map_max_entries. intros Hi. pose proof (Z.mod_pos_bound i 32 ltac:(lia)).
  assert (0 <= i / 32 < 31)
    by (split; [apply Z.div_pos; lia|apply Z.div_lt_upper_bound; lia]).
  split; [|lia]. unfold memory_db_map_entry_location.
  change memory_db_map_entry_capacity with 992. guard_false (992 <=? i).
  change MEMORY_DB_MAP_ENTRIES_PER_SECTOR with 32. change MEMORY_DB_MAP_ENTRY_SIZE with 16.
  unfold sat_mul64. do 2 f_equal. ulia.
Qed.

Lemma map_entry_lba db i :
  db_addressable db -> 0 <= i / 32 < 31 -> sat_add64 (db + 1) (i / 32 + 1) = db + 2 + i / 32.
Proof.
  intros [??] ?. rewrite sat_add64_small; [lia|dblia].
Qed.

Lemma wp_read_map_entry db d i e Q X :
  dev_good db d -> db_addressable db -> 0 <= i < MEMORY_DB_MAP_MAX_ENTRIES -> entry_at d db i e ->
  (forall d', dev_good db d' -> dev_eq d d' -> Q e (set_dev d' s)) ->
  (forall d', ~ G -> dev_eq d d' -> X tt (set_dev d' s)) ->
  wp (memory_db_read_map_entry (db + 1) i) Q X (set_dev d s).
Proof.
  intros Hd Ha Hi He HQ HX. destruct (map_entry_location_ok i Hi) as (Hl & ? & ?).
  apply wp_bind. eapply wp_lift_ok; [done|]. cbn beta iota.
  rewrite map_entry_lba by done.
  apply wp_bind, (wp_read_meta db); [done|..|done].
  - unfold data_start, MEMORY_DB_MAP_SECTORS. lia.
  - intros d' ??. eapply wp_lift_ok; [done|by apply HQ].
Qed.

Lemma entry_at_eq d d' db i e : dev_eq d d' -> entry_at d db i e -> entry_at d' db i e.
Proof. intros [Hs _]. unfold entry_at. by rewrite Hs. Qed.

Lemma log_on_disk_eq d d' db i lba log :
  dev_eq d d' -> log_on_disk d db i lba log -> log_on_disk d' db i lba log.
Proof.
  intros Hd. apply log_on_disk_frame; [intros; by eapply entry_at_eq|].
  intros. by destruct Hd.
Qed.

(** The scan accepts exactly the entries of the log. *)
Lemma wp_recover_loop db d i lba log fuel Q X :
  dev_good db d -> db_addressable db -> log_on_disk d db i lba log ->
  0 <= i -> i + zlen log <= MEMORY_DB_MAP_MAX_ENTRIES -> (length log <= fuel)%nat ->
  lba + log_sectors log <= data_end db ->
  (forall d', dev_good db d' -> dev_eq d d' ->
     Q (lba + log_sectors log, i + zlen log) (set_dev d' s)) ->
  (forall d', ~ G -> dev_eq d d' -> X tt (set_dev d' s)) ->
  wp (recover_loop fuel (db + 1) (data_end db) (i + zlen log) lba i) Q X (set_dev d s).
Proof.
  intros Hd Ha. revert d i lba fuel Hd.
  induction log as [|p log IH]; intros d i lba fuel Hd Hl Hi Hmax Hf Hend HQ HX; simpl in *.
  - specialize (HQ d Hd (reflexivity d)). rewrite zlen_nil, !Z.add_0_r in *.
    destruct fuel; simpl; rewrite Z.ltb_irrefl; by apply wp_ret.
  - destruct Hl as ((f & Hf1 & He) & _ & [Hp _] & Hl). rewrite zlen_cons in *. pose proof (zlen_nonneg log).
    pose proof (entry_sectors_nonneg p). pose proof (log_sectors_nonneg log).
    destruct fuel as [|fuel]; [lia|]. simpl. guard_true (i <? i + (1 + zlen log)). cbn [negb].
    apply wp_bind, (wp_read_map_entry db) with (1 := Hd) (4 := He); [done|lia| |done].
    intros d' Hd' Hde. cbn [e_flags e_payload_bytes e_start_lba].
    rewrite (proj2 (Z.eqb_neq _ _) Hf1).
    guard_false (zlen p =? 0). fold (entry_sectors p).
    rewrite checked_add64_small
      by (destruct Ha; dblia).
    rewrite Z.eqb_refl. cbn [negb orb]. guard_false (data_end db <? lba + entry_sectors p).
    replace (i + (1 + zlen log)) with (i + 1 + zlen log) by lia.
    apply IH; try lia; [done|by eapply log_on_disk_eq| |].
    + intros d'' ??. replace (lba + entry_sectors p + log_sectors log)
        with (lba + (entry_sectors p + log_sectors log)) by lia.
      replace (i + 1 + zlen log) with (i + (1 + zlen log)) by lia.
      apply HQ; [done|by etrans].
    + intros d'' ??. apply HX; [done|by etrans].
Qed.

Lemma rep_log_length d db h log : db_rep d db h log -> zlen log <= MEMORY_DB_MAP_MAX_ENTRIES.
Proof. intros Hr. eapply decode_map_header_bound, Hr. Qed.

Lemma data_end_sat db h :
  db_addressable db -> header_layout h db ->
  sat_add64 (h_data_lba h) (h_total_sectors h) = data_end db.
Proof.
  intros [??] (_ & _ & _ & -> & -> & _). unfold data_end, data_start. apply sat_add64_small.
  dblia.
Qed.

(** The scan of the map, from its first entry on, ends at [cursor] after
    accepting [n] entries, whatever the device is asked in between. *)
Definition scans (db : Z) (d : D) (used cursor n : Z) : Prop :=
  forall d1 Q X, dev_good db d1 -> dev_eq d d1 ->
    (forall d', dev_good db d' -> dev_eq d d' -> Q (cursor, n) (set_dev d' s)) ->
    (forall d', ~ G -> dev_eq d d' -> X tt (set_dev d' s)) ->
    wp (recover_loop (Z.to_nat used) (db + 1) (data_end db) used (data_start db) 0) Q X
      (set_dev d1 s).

(** Recovery sets the header's cursor to where the scan ends; when a read
    fails it leaves the header as it was. *)
Lemma wp_recover_scan db d h sz used cursor n Q X :
  dev_good db d -> db_addressable db -> header_layout h db ->
  decode_map_header (bd_sec d (db + 1)) = Ok (sz, used) ->
  data_start db <= cursor <= data_end db -> scans db d used cursor n ->
  (forall d', dev_good db d' -> dev_eq d d' -> Q (set_cursor cursor n h, true) (set_dev d' s)) ->
  (forall d', ~ G -> dev_eq d d' -> Q (h, false) (set_dev d' s)) ->
  wp (memory_db_recover_from_map h) Q X (set_dev d s).
Proof.
  intros Hd Ha Hlay Hm Hc Hscan HQ HX. pose proof (decode_map_header_bound _ _ _ Hm).
  pose proof Hlay as (Hwf & Hhl & Hml & Hdl & Htl & Hms). pose proof (proj1 Ha).
  unfold memory_db_recover_from_map. rewrite (data_end_sat db h) by done.
  rewrite Hml, Hms.
  guard_false (db + 1 =? 0). cbn [orb negb Z.eqb MEMORY_DB_MAP_SECTORS Pos.eqb].
  apply wp_bind, wp_catch, (wp_read_map_header db) with (1 := Hd) (2 := Hm).
  2: { intros. by apply wp_ret, HX. }
  intros d1 Hd1 He1. cbn beta iota. rewrite Z.min_l by done.
  apply wp_bind, wp_catch. rewrite Hdl. fold (data_start db).
  apply Hscan; [done|done| |].
  - intros d2 Hd2 He2. cbn beta iota. cbn [set_cursor h_next_append_lba h_data_lba]. rewrite Hdl.
    fold (data_start db). guard_false (cursor <? data_start db). guard_false (data_end db <? cursor).
    by apply wp_ret, HQ.
  - intros d2 ??. by apply wp_ret, HX.
Qed.

Lemma scans_log db d log :
  db_addressable db -> log_on_disk d db 0 (data_start db) log ->
  zlen log <= MEMORY_DB_MAP_MAX_ENTRIES -> log_sectors log <= MEMORY_DB_TOTAL_SECTORS ->
  scans db d (zlen log) (data_start db + log_sectors log) (zlen log).
Proof.
  intros Ha Hl Hmax Hfit d1 Q X Hd1 He1 HQ HX. rewrite <- (Z.add_0_l (zlen log)).
  apply (wp_recover_loop db); try done.
  - by eapply log_on_disk_eq.
  - unfold zlen. lia.
  - unfold data_end. lia.
  - intros. apply HQ; [done|by etrans].
  - intros. apply HX; [done|by etrans].
Qed.

Lemma wp_recover db d h log Q X :
  dev_good db d -> db_rep d db h log ->
  (forall d', dev_good db d' -> dev_eq d d' ->
     Q (set_cursor (data_start db + log_sectors log) (zlen log) h, true) (set_dev d' s)) ->
  (forall d', ~ G -> dev_eq d d' -> Q (h, false) (set_dev d' s)) ->
  wp (memory_db_recover_from_map h) Q X (set_dev d s).
Proof.
  intros Hd Hr HQ HX. pose proof (rep_log_length _ _ _ _ Hr) as Hmax.
  pose proof (log_sectors_nonneg log). destruct Hr as [Ha Hh Hlay Hc Hu Hm Hl Hfit].
  eapply wp_recover_scan; [done|done|done|done| |by apply scans_log|done|done].
  unfold data_end. lia.
Qed.

(** Any map content scans to some log: the entries accepted, with the payload
    bytes that lie in their sectors. *)
Lemma entry_at_total d db i :
  0 <= i < MEMORY_DB_MAP_MAX_ENTRIES ->
  exists e, entry_at d db i e /\ u64 (e_start_lba e) /\ u32 (e_payload_bytes e).
Proof.
  intros Hi. destruct (map_entry_location_ok i Hi) as (_ & _ & Hoff). unfold entry_at.
  pose proof (bd_sec_len d (db + 2 + i / 32)) as Hl. unfold SECTOR_SIZE in Hl.
  unfold decode_map_entry, MEMORY_DB_MAP_ENTRY_START_OFFSET, MEMORY_DB_MAP_ENTRY_BYTES_OFFSET,
    MEMORY_DB_MAP_ENTRY_FLAGS_OFFSET.
  rewrite le_u64_ok, !le_u32_ok by lia. eexists. split; [done|]. cbn [e_start_lba e_payload_bytes].
  split; [apply le_combine_u64|apply le_combine_u32]; rewrite zlen_slice by lia; lia.
Qed.

(** [n] sectors from [lba] on, as one buffer. *)
Definition sectors_at (d : D) (lba : Z) (n : nat) : bytes :=
  concat ((fun j => bd_sec d (lba + Z.of_nat j)) <$> seq 0 n).

Lemma sectors_at_S d lba n :
  sectors_at d lba (S n) = bd_sec d lba ++ sectors_at d (lba + 1) n.
Proof.
  unfold sectors_at. cbn [seq fmap list_fmap concat]. rewrite Z.add_0_r. f_equal.
  rewrite <- seq_shift, <- list_fmap_compose. f_equal. apply list_fmap_ext.
  intros j x _. unfold compose. f_equal. lia.
Qed.

Lemma zlen_sectors_at d lba n : zlen (sectors_at d lba n) = Z.of_nat n * 512.
Proof.
  revert lba. induction n as [|n IH]; intros lba; [done|].
  rewrite sectors_at_S, zlen_app, IH, bd_sec_len. unfold SECTOR_SIZE. lia.
Qed.

Lemma nth_sector_sectors_at d lba n j :
  0 <= j < Z.of_nat n -> nth_sector (sectors_at d lba n) j = bd_sec d (lba + j).
Proof.
  revert lba j. induction n as [|n IH]; intros lba j Hj; [lia|]. rewrite sectors_at_S.
  destruct (decide (j = 0)) as [->|].
  - rewrite nth_sector_app_0 by apply bd_sec_len. by rewrite Z.add_0_r.
  - rewrite nth_sector_app_S by (apply bd_sec_len || lia). rewrite IH by lia. f_equal. lia.
Qed.

Lemma payload_at_exists d lba n :
  0 < n <= U32_MAX -> exists p, zlen p = n /\ payload_ok p /\ payload_at d lba p.
Proof.
  intros Hn. pose proof (div_ceil_spec n SECTOR_SIZE ltac:(done) ltac:(lia)) as Hd.
  set (k := div_ceil n SECTOR_SIZE) in *. unfold SECTOR_SIZE in Hd.
  assert (zlen (ztake n (sectors_at d lba (Z.to_nat k))) = n) as Hl
    by (rewrite zlen_ztake, zlen_sectors_at; lia).
  exists (ztake n (sectors_at d lba (Z.to_nat k))). split_and!; [done|unfold payload_ok; lia..|].
  intros j Hj. unfold entry_sectors, sectors_for_bytes in Hj. rewrite Hl in *. fold k in Hj.
  rewrite <- (nth_sector_sectors_at d lba (Z.to_nat k)) by lia.
  unfold nth_sector, slice, SECTOR_SIZE.
  rewrite ztake_ztake, zdrop_ztake, ztake_ztake by lia. f_equal. lia.
Qed.

Lemma scan_any db d fuel i lba :
  db_addressable db -> 0 <= i -> i + Z.of_nat fuel <= MEMORY_DB_MAP_MAX_ENTRIES ->
  data_start db <= lba <= data_end db ->
  exists log, log_on_disk d db i lba log /\ zlen log <= Z.of_nat fuel /\
    lba + log_sectors log <= data_end db /\
    forall d1 Q X, dev_good db d1 -> dev_eq d d1 ->
      (forall d', dev_good db d' -> dev_eq d d' ->
         Q (lba + log_sectors log, i + zlen log) (set_dev d' s)) ->
      (forall d', ~ G -> dev_eq d d' -> X tt (set_dev d' s)) ->
      wp (recover_loop fuel (db + 1) (data_end db) (i + Z.of_nat fuel) lba i) Q X (set_dev d1 s).
Proof.
  intros Ha. revert i lba. induction fuel as [|fuel IH]; intros i lba Hi Hmax Hlba.
  { exists []. split_and!; [done|done|simpl; lia|]. intros d1 Q X Hd1 He1 HQ HX.
    cbn [recover_loop]. rewrite Z.add_0_r, Z.ltb_irrefl. apply wp_ret.
    specialize (HQ d1 Hd1 He1). by rewrite log_sectors_nil, (zlen_nil (A := bytes)), !Z.add_0_r in HQ. }
  destruct (entry_at_total d db i) as (e & He & Hu1 & Hu2); [lia|].
  set (n := sectors_for_bytes (e_payload_bytes e)).
  assert (0 <= n <= 8388608) 
    by (pose proof (div_ceil_spec (e_payload_bytes e) 512 ltac:(lia) ltac:(ulia));
        unfold n, sectors_for_bytes; dblia).
  destruct ((Z.land (e_flags e) MEMORY_DB_MAP_FLAG_ACTIVE =? 0) || (e_payload_bytes e =? 0)
    || (negb (e_start_lba e =? lba) || (data_end db <? lba + n))) eqn:Hstop.
  - exists []. split_and!; [done|rewrite zlen_nil; lia|simpl; lia|]. intros d1 Q X Hd1 He1 HQ HX.
    cbn [recover_loop]. rewrite (proj2 (Z.ltb_lt i (i + Z.of_nat (S fuel)))) by lia. cbn [negb].
    apply wp_bind, (wp_read_map_entry db d1 i e);
      [done|done|lia|by eapply entry_at_eq| |intros; apply HX; [done|by etrans]].
    intros d2 Hd2 He2. specialize (HQ d2 Hd2 ltac:(by etrans)).
    rewrite log_sectors_nil, (zlen_nil (A := bytes)), !Z.add_0_r in HQ. fold n. destruct (_ =? 0); [by apply wp_ret|].
    destruct (_ =? 0) eqn:Hp0; [by apply wp_ret|]. cbn [orb] in Hstop.
    rewrite checked_add64_small, Hstop; [by apply wp_ret|]. dblia.
  - apply orb_false_iff in Hstop as [[Hf Hp0]%orb_false_iff [Hst Hn]%orb_false_iff]. bool_to_prop.
    destruct (payload_at_exists d lba (e_payload_bytes e)) as (p & Hpl & Hpo & Hpay); [ulia|].
    destruct (IH (i + 1) (lba + n)) as (log & Hlog & Hll & Hle & Hwp); [lia..| |].
    { lia. }
    assert (entry_sectors p = n) as Hes by (unfold entry_sectors; by rewrite Hpl).
    exists (p :: log). rewrite log_sectors_cons, zlen_cons, Hes. split_and!; [|lia|lia|].
    { cbn [log_on_disk]. rewrite Hpl, Hes. split_and!; try done; [|apply Hpo..].
      exists (e_flags e). split; [done|]. destruct e; simpl in *; congruence. }
    intros d1 Q X Hd1 He1 HQ HX. cbn [recover_loop].
    rewrite (proj2 (Z.ltb_lt i (i + Z.of_nat (S fuel)))) by lia. cbn [negb].
    apply wp_bind, (wp_read_map_entry db d1 i e);
      [done|done|lia|by eapply entry_at_eq| |intros; apply HX; [done|by etrans]].
    intros d2 Hd2 He2. rewrite (proj2 (Z.eqb_neq _ _) Hf), (proj2 (Z.eqb_neq _ _) Hp0). fold n.
    rewrite checked_add64_small by dblia. rewrite Hst, Z.eqb_refl. cbn [negb orb].
    guard_false (data_end db <? lba + n).
    replace (i + Z.of_nat (S fuel)) with (i + 1 + Z.of_nat fuel) by lia.
    apply Hwp; [done|by etrans| |done]. intros d3 Hd3 He3.
    replace (lba + n + log_sectors log) with (lba + (n + log_sectors log)) by lia.
    replace (i + 1 + zlen log) with (i + (1 + zlen log)) by lia. by apply HQ.
Qed.

Lemma scans_any db d sz used :
  db_addressable db -> decode_map_header (bd_sec d (db + 1)) = Ok (sz, used) ->
  exists log, log_on_disk d db 0 (data_start db) log /\ zlen log <= MEMORY_DB_MAP_MAX_ENTRIES /\
    log_sectors log <= MEMORY_DB_TOTAL_SECTORS /\
    scans db d used (data_start db + log_sectors log) (zlen log).
Proof.
  intros Ha Hm. pose proof (decode_map_header_bound _ _ _ Hm).
  pose proof (decode_map_header_nonneg _ _ _ Hm).
  destruct (scan_any db d (Z.to_nat used) 0 (data_start db)) as (log & ? & ? & ? & Hs);
    [done|lia|lia|dblia|].
  exists log. split_and!; [done|lia|dblia|]. intros d1 Q X ????.
  specialize (Hs d1 Q X). rewrite Z.add_0_l, Z2Nat.id in Hs by lia. auto.
Qed.

Lemma put_map_header {E} used :
  put_fields (E := E) (zeros SECTOR_SIZE) (map_header_fields used) = Ok (encode_map_header used).
Proof. apply (put_fields_ok 0); [done|]. apply map_header_fields_sorted. Qed.

Lemma put_header {E} h :
  h_magic h = MEMORY_DB_MAGIC ->
  put_fields (E := E) (zeros SECTOR_SIZE) (header_fields h) = Ok (encode_header h).
Proof. intros. apply (put_fields_ok 0); [done|]. by apply header_fields_sorted. Qed.

(** [d'] is [d] with sector [lba] replaced by [b]; or, torn, possibly so. *)
Definition sector_set (d d' : D) (lba : Z) (b : bytes) : Prop :=
  bd_cap d' = bd_cap d /\ bd_sec d' lba = b /\ forall l, l <> lba -> bd_sec d' l = bd_sec d l.
Definition sector_torn (d d' : D) (lba : Z) (b : bytes) : Prop :=
  dev_eq d d' \/ sector_set d d' lba b.

Lemma sector_torn_intro d d' lba b :
  bd_cap d' = bd_cap d -> (bd_sec d' lba = b \/ bd_sec d' lba = bd_sec d lba) ->
  (forall l, l <> lba -> bd_sec d' l = bd_sec d l) -> sector_torn d d' lba b.
Proof.
  intros ? [?|Hs] ?; [by right|left]. split; [|done].
  intros l. destruct (decide (l = lba)) as [->|]; auto.
Qed.

Lemma wp_write_meta' db d lba b Q X :
  dev_good db d -> db <= lba < data_start db -> zlen b = SECTOR_SIZE ->
  (forall d', dev_good db d' -> sector_set d d' lba b -> Q tt (set_dev d' s)) ->
  (forall d', ~ G -> sector_torn d d' lba b -> X tt (set_dev d' s)) ->
  wp (write_sectors lba 1 b) Q X (set_dev d s).
Proof.
  intros ??? HQ HX. apply (wp_write_meta db); try done.
  - intros. by apply HQ.
  - intros. apply HX; [done|]. by apply sector_torn_intro.
Qed.

Lemma wp_write_map_header db d used Q X :
  dev_good db d ->
  (forall d', dev_good db d' -> sector_set d d' (db + 1) (encode_map_header used) ->
     Q tt (set_dev d' s)) ->
  (forall d', ~ G -> sector_torn d d' (db + 1) (encode_map_header used) -> X tt (set_dev d' s)) ->
  wp (memory_db_write_map_header (db + 1) used) Q X (set_dev d s).
Proof.
  intros Hd HQ HX. unfold memory_db_write_map_header.
  apply wp_bind. eapply wp_opt_some; [done|].
  apply wp_bind. eapply wp_lift_ok; [apply put_map_header|].
  apply (wp_write_meta' db); [done| |apply zlen_encode_map_header|done..].
  unfold data_start, MEMORY_DB_MAP_SECTORS. lia.
Qed.

Lemma wp_write_header db d h Q X :
  dev_good db d -> MEMORY_DB_HEADER_LBA s = Some db ->
  h_header_lba h = db -> h_magic h = MEMORY_DB_MAGIC ->
  (forall d', dev_good db d' -> sector_set d d' db (encode_header h) -> Q tt (set_dev d' s)) ->
  (forall d', ~ G -> sector_torn d d' db (encode_header h) -> X tt (set_dev d' s)) ->
  wp (memory_db_write_header h) Q X (set_dev d s).
Proof.
  intros Hd Hdb Hh Hm HQ HX. unfold memory_db_write_header.
  apply wp_bind, wp_gets. cbn [set_dev MEMORY_DB_HEADER_LBA]. rewrite Hdb.
  rewrite (proj2 (Z.eqb_eq _ _) Hh). cbn [negb].
  apply wp_bind. eapply wp_lift_ok; [by apply put_header|].
  apply (wp_write_meta' db); [done| |by apply zlen_encode_header|done..].
  unfold data_start, MEMORY_DB_MAP_SECTORS. lia.
Qed.

(** The sector that [memory_db_write_map_entry] writes for entry [i]. *)
Definition map_entry_sector (d : D) (db i start len : Z) : bytes :=
  splice_fields (bd_sec d (db + 2 + i / 32))
    (map_entry_fields (i mod 32 * 16) start len MEMORY_DB_MAP_FLAG_ACTIVE).

Lemma wp_write_map_entry db d i start len Q X :
  dev_good db d -> db_addressable db -> 0 <= i < MEMORY_DB_MAP_MAX_ENTRIES ->
  (forall d', dev_good db d' ->
     sector_set d d' (db + 2 + i / 32) (map_entry_sector d db i start len) -> Q tt (set_dev d' s)) ->
  (forall d', ~ G ->
     sector_torn d d' (db + 2 + i / 32) (map_entry_sector d db i start len) -> X tt (set_dev d' s)) ->
  wp (memory_db_write_map_entry (db + 1) i start len MEMORY_DB_MAP_FLAG_ACTIVE) Q X (set_dev d s).
Proof.
  intros Hd Ha Hi HQ HX. destruct (map_entry_location_ok i Hi) as (Hl & ? & ?).
  assert (db <= db + 2 + i / 32 < data_start db)
    by (unfold data_start, MEMORY_DB_MAP_SECTORS; lia).
  pose proof (bd_sec_len d (db + 2 + i / 32)) as Hsl.
  assert (fields_sorted 0 (zlen (bd_sec d (db + 2 + i / 32)))
    (map_entry_fields (i mod 32 * 16) start len MEMORY_DB_MAP_FLAG_ACTIVE)) as Hs
    by (apply map_entry_fields_sorted; [|rewrite Hsl; unfold SECTOR_SIZE]; lia).
  apply wp_bind. eapply wp_lift_ok; [done|]. cbn beta iota. rewrite map_entry_lba by done.
  apply wp_bind, (wp_read_meta db); [done..| |].
  - intros d1 Hd1 [He1 Hc1]. apply wp_bind. eapply wp_lift_ok; [by apply (put_fields_ok 0)|].
    apply (wp_write_meta' db); [done|done|by rewrite (zlen_splice_fields 0)|..].
    + intros d2 Hd2 (?&?&Ho). apply HQ; [done|]. split_and!; [congruence|done|].
      intros. rewrite Ho; auto.
    + intros d2 HG [[Hs2 Hc2]|(?&?&Ho)]; apply HX; try done; [left|right].
      * split; [|congruence]. intros. by rewrite Hs2.
      * split_and!; [congruence|done|]. intros. rewrite Ho; auto.
  - intros d1 ??. apply HX; [done|by left].
Qed.

(** ** The append loop *)

(** [k] sectors of [p] are stored from [B] on, and nothing else has changed
    since [d0]. *)
Definition append_inv (d0 : D) (B : Z) (p : bytes) (k : Z) (d : D) : Prop :=
  0 <= k <= entry_sectors p /\ bd_cap d = bd_cap d0 /\
  (forall l, l < B \/ B + k <= l -> bd_sec d l = bd_sec d0 l) /\
  (forall j, 0 <= j < k ->
     ztake (zlen p - j * SECTOR_SIZE) (bd_sec d (B + j))
     = slice p (j * SECTOR_SIZE) (j * SECTOR_SIZE + SECTOR_SIZE)).

(** Only the sectors meant for [p] may differ. *)
Definition append_torn (d0 : D) (B : Z) (p : bytes) (d : D) : Prop :=
  bd_cap d = bd_cap d0 /\
  forall l, l < B \/ B + entry_sectors p <= l -> bd_sec d l = bd_sec d0 l.

Lemma entry_sectors_spec p :
  zlen p <= entry_sectors p * 512 < zlen p + 512 /\ 0 <= entry_sectors p.
Proof. apply (div_ceil_spec (zlen p) 512); [lia|apply zlen_nonneg]. Qed.

Lemma append_inv_torn d0 B p k d : append_inv d0 B p k d -> append_torn d0 B p d.
Proof. intros (?&?&Ho&_). split; [done|]. intros. apply Ho. lia. Qed.

Lemma append_inv_full d0 B p k n d d' :
  append_inv d0 B p k d -> 0 < n -> (k + n) * 512 <= zlen p ->
  written d d' (B + k) n (slice p (k * 512) (k * 512 + n * 512)) ->
  append_inv d0 B p (k + n) d'.
Proof.
  intros (? & Hc & Ho & Hs) ?? (Hc' & Ho' & Hs'). pose proof (entry_sectors_spec p).
  split_and!; [lia|lia|congruence| |].
  - intros l ?. rewrite Ho' by lia. apply Ho. lia.
  - intros j Hj. destruct (decide (j < k)).
    + rewrite Ho' by lia. apply Hs. lia.
    + replace (B + j) with (B + k + (j - k)) by lia. rewrite Hs' by lia.
      unfold nth_sector, SECTOR_SIZE. rewrite ztake_all.
      2: { rewrite zlen_slice; [lia|lia|]. rewrite zlen_slice; lia. }
      unfold slice. rewrite zdrop_ztake, zdrop_zdrop, ztake_ztake by lia.
      f_equal; [lia|]. f_equal. lia.
Qed.

Lemma append_inv_tail d0 B p k d d' b :
  append_inv d0 B p k d -> k * 512 < zlen p < k * 512 + 512 ->
  b = splice (zeros SECTOR_SIZE) 0 (slice p (k * 512) (zlen p)) ->
  written d d' (B + k) 1 b -> append_inv d0 B p (k + 1) d'.
Proof.
  intros (? & Hc & Ho & Hs) Hk Hb (Hc' & Ho' & Hs'). pose proof (entry_sectors_spec p).
  assert (zlen (slice p (k * 512) (zlen p)) = zlen p - k * 512) as Hl by (rewrite zlen_slice; lia).
  assert (zlen b = SECTOR_SIZE) as Hbl
    by (rewrite Hb, zlen_splice; rewrite ?Hl, ?zlen_zeros; unfold SECTOR_SIZE; lia).
  split_and!; [lia|lia|congruence| |].
  - intros l ?. rewrite Ho' by lia. apply Ho. lia.
  - intros j Hj. destruct (decide (j < k)).
    + rewrite Ho' by lia. apply Hs. lia.
    + assert (j = k) as -> by lia. specialize (Hs' 0 ltac:(lia)).
      rewrite Z.add_0_r, nth_sector_0 in Hs' by done. rewrite Hs', Hb.
      unfold splice. rewrite (ztake_0 0) by lia. cbn [app].
      rewrite ztake_app_le by (unfold SECTOR_SIZE; lia).
      rewrite ztake_all by (unfold SECTOR_SIZE; lia).
      unfold slice, SECTOR_SIZE. rewrite !ztake_all; rewrite ?zlen_zdrop; lia || done.
Qed.

Section append.
Context (d0 : D) (B : Z) (p : bytes).
Context (HB : 0 <= B) (Hlim : B + entry_sectors p <= U64_MAX) (Hlen : zlen p <= U64_MAX).

Lemma wp_append_full k n d Q X :
  (G -> bd_ok d) -> append_inv d0 B p k d -> 0 <= n <= 8192 -> (k + n) * 512 <= zlen p ->
  (G -> B + (k + n) <= bd_cap d0) ->
  (forall d', (G -> bd_ok d') -> append_inv d0 B p (k + n) d' ->
     Q (B + (k + n), (k + n) * 512, zlen p - (k + n) * 512, n) (set_dev d' s)) ->
  (forall d', ~ G -> append_torn d0 B p d' -> X tt (set_dev d' s)) ->
  wp (append_full p n (B + k) (k * 512) (zlen p - k * 512)) Q X (set_dev d s).
Proof.
  intros Hok Hinv Hn Hk Hspace HQ HX. pose proof (proj1 Hinv). pose proof (proj1 (proj2 Hinv)) as Hcap.
  unfold append_full. destruct (0 <? n) eqn:Hn0; bool_to_prop.
  2: { assert (n = 0) as -> by lia. apply wp_ret. rewrite Z.add_0_r in *. by apply HQ. }
  apply wp_bind, (wp_opt_some _ _ n).
  { unfold u16_try_from, U16_MAX. by guard_true (n <=? 65535). }
  apply wp_bind. eapply wp_lift_ok; [apply get_slice_ok; unfold SECTOR_SIZE; lia|].
  unfold SECTOR_SIZE. pose proof (entry_sectors_spec p).
  apply wp_bind, (wp_write_sectors G); [done|done| | | |].
  - intros HG. specialize (Hspace HG). lia.
  - unfold SECTOR_SIZE. rewrite zlen_slice; lia.
  - intros d' Hok' Hw. apply wp_ret.
    unfold add64, sub64. rewrite !as_u64_small by ulia.
    replace (B + k + n) with (B + (k + n)) by lia.
    replace (k * 512 + n * 512) with ((k + n) * 512) by lia.
    replace (zlen p - k * 512 - n * 512) with (zlen p - (k + n) * 512) by lia.
    apply HQ; [done|]. eapply append_inv_full; [done|lia|lia|done].
  - intros d' HG (Hc & Ho & _). apply HX; [done|]. split; [congruence|].
    intros. rewrite Ho by lia. apply Hinv. lia.
Qed.

Lemma wp_append_tail k tail n d Q X :
  (G -> bd_ok d) -> append_inv d0 B p k d -> 0 <= tail < 512 ->
  (0 < tail -> k * 512 + tail = zlen p) -> (G -> 0 < tail -> B + (k + 1) <= bd_cap d0) ->
  (forall d' k' n', (G -> bd_ok d') -> append_inv d0 B p k' d' ->
     (tail = 0 /\ k' = k /\ n' = n \/ 0 < tail /\ k' = k + 1 /\ n' = n + 1) ->
     Q (B + k', k * 512 + tail, zlen p - (k * 512 + tail), n') (set_dev d' s)) ->
  (forall d', ~ G -> append_torn d0 B p d' -> X tt (set_dev d' s)) ->
  wp (append_tail p tail (B + k) (k * 512) (zlen p - k * 512) n) Q X (set_dev d s).
Proof.
  intros Hok Hinv Ht Hk Hspace HQ HX. pose proof (proj1 Hinv). pose proof (proj1 (proj2 Hinv)) as Hcap.
  unfold append_tail. destruct (0 <? tail) eqn:Ht0; bool_to_prop.
  2: { apply wp_ret. specialize (HQ d k n). assert (tail = 0) as -> by lia.
       rewrite Z.add_0_r in HQ. apply HQ; auto. }
  specialize (Hk Ht0). pose proof (entry_sectors_spec p).
  assert (G -> B + (k + 1) <= bd_cap d0) as Hspace' by auto. clear Hspace.
  assert (zlen (slice p (k * 512) (zlen p)) = zlen p - k * 512) as Hl by (rewrite zlen_slice; lia).
  apply wp_bind. eapply wp_lift_ok; [apply get_slice_ok; lia|]. rewrite Hk.
  apply wp_bind. eapply wp_lift_ok; [apply put_slice_ok; rewrite ?zlen_zeros; unfold SECTOR_SIZE; lia|].
  apply wp_bind, (wp_write_sectors G); [done|done| | | |].
  - intros HG. specialize (Hspace' HG). lia.
  - rewrite zlen_splice; rewrite ?zlen_zeros; unfold SECTOR_SIZE; lia.
  - intros d' Hok' Hw. apply wp_ret.
    unfold add64, sub64. rewrite !as_u64_small by ulia.
    replace (B + k + 1) with (B + (k + 1)) by lia.
    replace (zlen p - k * 512 - tail) with (zlen p - (k * 512 + tail)) by lia.
    apply HQ; [done| |lia]. eapply append_inv_tail; [done|lia|done|done].
  - intros d' HG (Hc & Ho & _). apply HX; [done|]. split; [congruence|].
    intros. rewrite Ho by lia. apply Hinv. lia.
Qed.

(** The chunk of one iteration: either all that remains or a whole number of
    sectors, never more than the free space or one PRDT entry. *)
Lemma append_chunk_spec r a :
  0 < r -> 0 < a -> a * 512 <= U64_MAX ->
  let c := append_chunk r a in
  0 < c <= r /\ c / 512 <= 8192 /\ c <= a * 512 /\ (c mod 512 <> 0 -> c = r).
Proof.
  intros. subst c. unfold append_chunk, sat_mul64, MODEL_IO_SECTORS, SECTOR_SIZE.
  rewrite (Z.min_r U64_MAX) by lia. split_if.
  - change (8192 * 512 / 512) with 8192. change ((8192 * 512) mod 512) with 0. lia.
  - split_and!; [lia|lia|apply Z.div_le_upper_bound; lia|lia|]. intros Hm.
    destruct (Z.min_spec r (a * 512)) as [[? ->]|[? Heq]]; [done|].
    rewrite Heq, Z.mod_mul in Hm; lia.
Qed.

(** The loop stores the payload or stops at the end [E] of the free sectors; on a
    working device it stops only when the payload does not fit below [E]. *)
Lemma wp_append_loop fuel E k d Q X :
  (G -> bd_ok d) -> append_inv d0 B p k d -> (G -> Z.min E (B + entry_sectors p) <= bd_cap d0) ->
  (E - B) * 512 <= U64_MAX -> entry_sectors p - k <= Z.of_nat fuel ->
  (forall d', (G -> bd_ok d') -> append_inv d0 B p (entry_sectors p) d' ->
     B + entry_sectors p <= Z.max (B + k) E ->
     Q (zlen p, B + entry_sectors p) (set_dev d' s)) ->
  (forall d', (G -> bd_ok d' /\ E < B + entry_sectors p) -> append_torn d0 B p d' ->
     X tt (set_dev d' s)) ->
  wp (append_loop fuel p E (zlen p - Z.min (k * 512) (zlen p)) (Z.min (k * 512) (zlen p)) (B + k))
    Q X (set_dev d s).
Proof.
  revert k d. induction fuel as [|fuel IH]; intros k d Hok Hinv Hspace HEB Hf HQ HX;
    pose proof (entry_sectors_spec p); pose proof (proj1 Hinv);
    (destruct (decide (zlen p <= k * 512));
      [assert (k = entry_sectors p) as -> by lia; rewrite Z.min_r, Z.sub_diag by lia;
       apply wp_ret, HQ; try done; lia|]); [lia|].
  rewrite Z.min_l by lia. cbn [append_loop]. guard_true (0 <? zlen p - k * 512). cbn [negb].
  unfold sat_sub. destruct (decide (E <= B + k)).
  { rewrite Z.max_l by lia. cbn [Z.eqb]. apply wp_fail, HX; [|by eapply append_inv_torn].
    intros HG. split; [auto|lia]. }
  assert (forall d', ~ G -> append_torn d0 B p d' -> X tt (set_dev d' s)) as HX' by (intros; apply HX; [tauto|done]).
  rewrite Z.max_r by lia. guard_false (E - (B + k) =? 0).
  destruct (append_chunk_spec (zlen p - k * 512) (E - (B + k))) as (Hc & Hc8 & Hca & Hct); [lia..|].
  set (c := append_chunk _ _) in *. guard_false (c =? 0). unfold SECTOR_SIZE.
  pose proof (Z.div_mod c 512 ltac:(lia)). pose proof (Z.mod_pos_bound c 512 ltac:(lia)).
  pose proof (Z.div_pos c 512 ltac:(lia) ltac:(lia)).
  apply wp_bind, wp_append_full;
    [done|done|lia|lia|intros HG; specialize (Hspace HG); lia| |done].
  intros d1 Hok1 Hinv1. cbn beta iota.
  apply wp_bind, wp_append_tail;
    [done|done|lia|lia|intros HG Ht; specialize (Hspace HG); lia| |done].
  intros d2 k2 n2 Hok2 Hinv2 Hk2. cbn beta iota. guard_false (n2 =? 0).
  replace ((k + c / 512) * 512 + (c - c / 512 * 512)) with (Z.min (k2 * 512) (zlen p)) by lia.
  apply IH; [done|done|done|done|lia| |done].
  intros. apply HQ; [done|done|lia].
Qed.
End append.

(** ** What each write of an append does to the represented log *)

Lemma meta_not_data db : db < data_start db /\ db + 1 < data_start db.
Proof. unfold data_start, MEMORY_DB_MAP_SECTORS. lia. Qed.

Lemma entry_lba_meta db i :
  0 <= i < MEMORY_DB_MAP_MAX_ENTRIES -> db + 1 < db + 2 + i / 32 < data_start db.
Proof.
  intros Hi. destruct (map_entry_location_ok i Hi) as (_ & ? & _).
  unfold data_start, MEMORY_DB_MAP_SECTORS. lia.
Qed.

Lemma rep_append_data d d' db h log p :
  db_rep d db h log -> append_torn d (data_start db + log_sectors log) p d' -> db_rep d' db h log.
Proof.
  intros Hr [_ Ho]. pose proof (meta_not_data db). pose proof (log_sectors_nonneg log).
  pose proof (rep_log_length _ _ _ _ Hr). apply (db_rep_frame d); [done|..].
  - apply Ho. lia.
  - apply Ho. lia.
  - intros j e Hj. unfold entry_at.
    rewrite Ho; [done|]. pose proof (entry_lba_meta db j). lia.
  - intros. apply Ho. lia.
Qed.

Lemma rep_map_entry d d' db h log start len :
  db_rep d db h log -> zlen log < MEMORY_DB_MAP_MAX_ENTRIES -> u64 start -> u32 len ->
  sector_set d d' (db + 2 + zlen log / 32) (map_entry_sector d db (zlen log) start len) ->
  db_rep d' db h log /\
  entry_at d' db (zlen log) (mkMemoryDbMapEntry start len MEMORY_DB_MAP_FLAG_ACTIVE).
Proof.
  intros Hr Hlt Hst Hln (_ & Hs & Ho). pose proof (zlen_nonneg log).
  pose proof (entry_lba_meta db (zlen log) ltac:(lia)) as Hlba.
  pose proof (map_entry_location_ok (zlen log) ltac:(lia)) as (_ & _ & Hoff).
  pose proof (bd_sec_len d (db + 2 + zlen log / 32)) as Hsl. unfold SECTOR_SIZE in Hsl. split.
  - apply (db_rep_frame d); [done|apply Ho; lia|apply Ho; lia| |intros; apply Ho; lia].
    intros j e Hj. unfold entry_at. destruct (decide (j / 32 = zlen log / 32)) as [Heq|].
    + rewrite Heq, Hs. unfold map_entry_sector. pose proof (Z.mod_pos_bound j 32 ltac:(lia)).
      pose proof (Z.div_mod j 32 ltac:(lia)). pose proof (Z.div_mod (zlen log) 32 ltac:(lia)).
      rewrite decode_map_entry_below; [done|lia..].
    + rewrite Ho; [done|lia].
  - unfold entry_at. rewrite Hs. apply decode_map_entry_new; [lia|lia|done|done|done].
Qed.

Lemma rep_map_header d d' db h log p :
  db_rep d db h log -> zlen log < MEMORY_DB_MAP_MAX_ENTRIES -> payload_ok p ->
  log_sectors log + entry_sectors p <= MEMORY_DB_TOTAL_SECTORS ->
  entry_at d db (zlen log)
    (mkMemoryDbMapEntry (data_start db + log_sectors log) (zlen p) MEMORY_DB_MAP_FLAG_ACTIVE) ->
  payload_at d (data_start db + log_sectors log) p ->
  sector_set d d' (db + 1) (encode_map_header (zlen log + 1)) ->
  db_rep d' db h (log ++ [p]).
Proof.
  intros Hr Hlt Hp Hfit He Hpay (_ & Hs & Ho). pose proof (zlen_nonneg log).
  pose proof (meta_not_data db). pose proof (log_sectors_nonneg log).
  pose proof (entry_sectors_nonneg p).
  assert (zlen (log ++ [p]) = zlen log + 1) as Hl by (rewrite zlen_app; done).
  assert (log_on_disk d db 0 (data_start db) (log ++ [p])) as Hlog
    by (apply log_on_disk_snoc; split; [apply Hr|]; split; [|done]; by exists MEMORY_DB_MAP_FLAG_ACTIVE).
  destruct Hr. split; try done.
  - rewrite Ho; [done|lia].
  - rewrite Hs, Hl. apply decode_encode_map_header. lia.
  - eapply log_on_disk_frame; [..|done].
    + intros j e Hj. unfold entry_at. rewrite Ho; [done|].
      pose proof (entry_lba_meta db j). lia.
    + intros. apply Ho. lia.
  - rewrite log_sectors_app. simpl. lia.
Qed.

Lemma rep_header_set d d' db h h' log :
  db_rep d db h log -> header_layout h' db ->
  data_start db <= h_next_append_lba h' <= data_end db ->
  h_map_entries_used h' <= MEMORY_DB_MAP_MAX_ENTRIES ->
  sector_set d d' db (encode_header h') -> db_rep d' db h' log.
Proof.
  intros Hr Hl Hc Hu (_ & Hs & Ho). pose proof (meta_not_data db).
  pose proof (rep_log_length _ _ _ _ Hr). destruct Hr. split; try done.
  - rewrite Hs. apply decode_encode_header, Hl.
  - rewrite Ho; [done|lia].
  - eapply log_on_disk_frame; [..|done].
    + intros j e Hj. unfold entry_at. rewrite Ho; [done|]. pose proof (entry_lba_meta db j). lia.
    + intros. apply Ho. lia.
Qed.

Lemma layout_set_cursor h db c u :
  header_layout h db -> u64 c -> u64 u -> header_layout (set_cursor c u h) db.
Proof. unfold header_layout, header_wf. destruct h; simpl. tauto. Qed.

Lemma set_cursor_id h : set_cursor (h_next_append_lba h) (h_map_entries_used h) h = h.
Proof. by destruct h. Qed.

(** The header an append leaves behind. *)
Definition appended_header (db : Z) (h : MemoryDbHeader) (log : list bytes) (p : bytes) :=
  set_cursor (data_start db + log_sectors log + entry_sectors p) (zlen log + 1) h.

(** The two states a failed append may leave. *)
Definition append_aborted (db : Z) (h : MemoryDbHeader) (log : list bytes) (p : bytes) (d : D) : Prop :=
  db_rep d db h log \/
  db_rep d db h (log ++ [p]) \/ db_rep d db (appended_header db h log p) (log ++ [p]).

(** Enough room for [p] in the map, in the region and on the disk. *)
Definition append_room (db : Z) (log : list bytes) (p : bytes) (d : D) : Prop :=
  zlen log < MEMORY_DB_MAP_MAX_ENTRIES /\ zlen p <= U32_MAX /\
  log_sectors log + entry_sectors p <= MEMORY_DB_TOTAL_SECTORS /\
  data_start db + log_sectors log + entry_sectors p <= bd_cap d.

(** The three writes that commit the data already stored. *)
Lemma wp_append_commit db d h log p Q X :
  let B := data_start db + log_sectors log in
  dev_good db d -> MEMORY_DB_HEADER_LBA s = Some db -> db_rep d db h log -> payload_at d B p ->
  zlen log < MEMORY_DB_MAP_MAX_ENTRIES -> payload_ok p ->
  log_sectors log + entry_sectors p <= MEMORY_DB_TOTAL_SECTORS ->
  (forall d', dev_good db d' -> bd_cap d' = bd_cap d ->
     db_rep d' db (appended_header db h log p) (log ++ [p]) ->
     Q (zlen p) (set_dev d' s)) ->
  (forall d', ~ G -> bd_cap d' = bd_cap d -> append_aborted db h log p d' -> X tt (set_dev d' s)) ->
  wp (let! _ := memory_db_write_map_entry (db + 1) (zlen log) B (zlen p) MEMORY_DB_MAP_FLAG_ACTIVE in
      let! _ := memory_db_write_map_header (db + 1) (zlen log + 1) in
      let! _ := memory_db_write_header (appended_header db h log p) in
      sret (zlen p)) Q X (set_dev d s).
Proof.
  intros B Hd Hdb Hr Hpay Hlt Hp Hfit HQ HX.
  pose proof (zlen_nonneg log). pose proof (log_sectors_nonneg log).
  pose proof (entry_sectors_nonneg p). destruct (rep_addr _ _ _ _ Hr) as [Ha1 Ha2].
  assert (u64 B /\ u64 (B + entry_sectors p) /\ u64 (zlen log + 1)) as (HuB & HuE & Hul)
    by (unfold B; dblia).
  assert (u32 (zlen p)) by (destruct Hp; ulia).
  apply wp_bind, (wp_write_map_entry db); [done|done|lia| |].
  2: { intros d2 HG [He|Hs]; (apply HX; [done|by apply He || by apply Hs|]); left;
         [by rewrite <- He|].
       by destruct (rep_map_entry _ _ _ _ _ _ _ Hr Hlt HuB ltac:(done) Hs). }
  intros d2 Hd2 Hs2. pose proof (proj1 Hs2).
  destruct (rep_map_entry _ _ _ _ _ _ _ Hr Hlt HuB ltac:(done) Hs2) as [Hr2 He2].
  assert (payload_at d2 B p) as Hpay2.
  { intros j Hj. destruct Hs2 as (_ & _ & Ho). rewrite Ho; [by apply Hpay|].
    pose proof (entry_lba_meta db (zlen log)). unfold B. lia. }
  apply wp_bind, (wp_write_map_header db); [done| |].
  2: { intros d3 HG [He|Hs]; (apply HX; [done|destruct He || destruct Hs; congruence|]);
         [left; by rewrite <- He|right; left].
       by eapply rep_map_header. }
  intros d3 Hd3 Hs3. pose proof (proj1 Hs3). pose proof (rep_map_header _ _ _ _ _ _ Hr2 Hlt Hp Hfit He2 Hpay2 Hs3) as Hr3.
  assert (forall d4, sector_set d3 d4 db (encode_header (appended_header db h log p)) ->
    db_rep d4 db (appended_header db h log p) (log ++ [p])) as Hr4.
  { intros d4. eapply rep_header_set; [done|apply layout_set_cursor; [apply Hr|done..]|..];
      simpl; unfold data_end; lia. }
  apply wp_bind, (wp_write_header db); [done|done|simpl; apply Hr|simpl; apply Hr| |].
  - intros d4 Hd4 Hs4. apply wp_ret, HQ; [done| |auto]. destruct Hs4; congruence.
  - intros d4 HG [He|Hs4]; (apply HX; [done|destruct He || destruct Hs4; congruence|]);
      right; [left; by rewrite <- He|right; auto].
Qed.

(** The failures of an append: one that a working device shows only when there is no
    room leaves the log and the header as they were. *)
Definition append_refused (db : Z) (h : MemoryDbHeader) (log : list bytes) (p : bytes) (d d' : D) : Prop :=
  G -> dev_good db d' /\ ~ append_room db log p d /\ db_rep d' db h log.

(** The data area lies on the disk, or at least the part [p] takes. *)
Definition area_on_disk (db : Z) (log : list bytes) (p : bytes) (d : D) : Prop :=
  data_end db <= bd_cap d \/ append_room db log p d.

Lemma wp_append_recovered db d h log p Q X :
  dev_good db d -> MEMORY_DB_HEADER_LBA s = Some db -> SSD_SECTOR_COUNT s = Some (bd_cap d) ->
  db_rep d db h log -> 0 < zlen p <= U64_MAX -> (G -> area_on_disk db log p d) ->
  (forall d', dev_good db d' -> bd_cap d' = bd_cap d -> zlen log < MEMORY_DB_MAP_MAX_ENTRIES ->
     zlen p <= U32_MAX -> log_sectors log + entry_sectors p <= MEMORY_DB_TOTAL_SECTORS ->
     db_rep d' db (appended_header db h log p) (log ++ [p]) ->
     Q (zlen p) (set_dev d' s)) ->
  (forall d', append_refused db h log p d d' -> bd_cap d' = bd_cap d ->
     append_aborted db h log p d' -> X tt (set_dev d' s)) ->
  wp (append_recovered (set_cursor (data_start db + log_sectors log) (zlen log) h) p)
    Q X (set_dev d s).
Proof.
  intros Hd Hdb Hssd Hr Hp Harea HQ HX.
  pose proof (zlen_nonneg log). pose proof (log_sectors_nonneg log).
  pose proof (entry_sectors_spec p) as [Hes1 Hes2]. pose proof Hr as [[Ha1 Ha2] _ Hlay _ _ _ _ Hfit].
  pose proof Hlay as (_ & _ & Hml & Hdl & Htl & _).
  assert (forall d', (G -> bd_ok d' /\ ~ append_room db log p d) ->
    append_torn d (data_start db + log_sectors log) p d' -> X tt (set_dev d' s)) as HXt.
  { intros d' Hw Ht. pose proof (rep_append_data _ _ _ _ _ _ Hr Ht). destruct Ht as [Hc _].
    apply HX; [|done|by left]. intros HG. destruct (Hw HG). split; [|done].
    by apply (dev_good_eq db d). }
  assert ((G -> ~ append_room db log p d) -> X tt (set_dev d s)) as HX0.
  { intros Hno. apply HX; [|done|by left]. intros HG. split; [done|]. auto. }
  unfold append_recovered. cbn [set_cursor h_map_entries_used].
  destruct (memory_db_map_entry_capacity <=? zlen log) eqn:Hcap; bool_to_prop.
  { apply wp_fail, HX0. intros HG [? _]. dblia. }
  apply wp_bind, wp_gets. cbn [set_dev SSD_SECTOR_COUNT]. rewrite Hssd.
  cbn [h_data_lba h_total_sectors h_next_append_lba h_map_lba set_cursor].
  rewrite (data_end_sat db h) by done. rewrite Hdl. fold (data_start db).
  guard_false (data_start db + log_sectors log <? data_start db). cbn [orb].
  set (E := Z.min _ _). destruct (E <=? _) eqn:HE; bool_to_prop.
  { apply wp_fail, HX0. intros HG (_ & _ & ? & ?).
    pose proof (Hd HG) as (_ & ? & ?). unfold E in *. dblia. }
  (* the data *)
  replace (append_loop _ p E (zlen p) 0 (data_start db + log_sectors log)) with
    (append_loop (Z.to_nat (entry_sectors p)) p E (zlen p - Z.min (0 * 512) (zlen p))
       (Z.min (0 * 512) (zlen p)) (data_start db + log_sectors log + 0))
    by (f_equal; lia).
  apply wp_bind, (wp_append_loop d); try done.
  - lia || dblia.
  - unfold E in *. dblia.
  - apply Hp.
  - intros HG. by destruct (Hd HG).
  - split_and!; [lia|done|done|done|]. intros; lia.
  - intros HG. unfold E. destruct (Harea HG) as [?|(_ & _ & _ & ?)]; lia.
  - unfold E in *. dblia.
  - lia.
  - intros d1 Hok1 Hinv HEmax. pose proof (append_inv_torn _ _ _ _ _ Hinv) as Ht.
    unfold u32_try_from. destruct (zlen p <=? U32_MAX) eqn:Hu; bool_to_prop.
    2: { apply wp_bind, wp_fail, HXt; [|done]. intros HG. split; [auto|]. intros (_ & ? & _). lia. }
    apply wp_bind, wp_ret. rewrite Hml. unfold add64. rewrite as_u64_small by dblia.
    change (set_cursor _ _ (set_cursor _ _ h)) with (appended_header db h log p).
    assert (log_sectors log + entry_sectors p <= MEMORY_DB_TOTAL_SECTORS) as Hroom
      by (unfold E in *; dblia).
    apply (wp_append_commit db); try done.
    + eapply dev_good_eq; [done|done|apply Hinv].
    + by eapply rep_append_data.
    + by destruct Hinv as (_ & _ & _ & ?).
    + unfold payload_ok. lia.
    + intros. apply HQ; [done| |done..]. destruct Ht; congruence.
    + intros d' HG ??. apply HX; [by intros|destruct Ht; congruence|done].
  - intros d1 Hw Ht. apply HXt; [|done]. intros HG. destruct (Hw HG) as [? HEp]. split; [done|].
    intros (_ & _ & ? & ?). unfold E in HEp. dblia.
Qed.

(** An append on any device: with [G] it works, and fails only for want of room. *)
Lemma wp_append_any db d h log p Q X :
  dev_good db d -> MEMORY_DB_HEADER_LBA s = Some db -> SSD_SECTOR_COUNT s = Some (bd_cap d) ->
  db_rep d db h log -> (~ G -> db_synced db h log) ->
  0 < zlen p <= U64_MAX -> (G -> area_on_disk db log p d) ->
  (forall d', dev_good db d' -> bd_cap d' = bd_cap d -> zlen log < MEMORY_DB_MAP_MAX_ENTRIES ->
     zlen p <= U32_MAX -> log_sectors log + entry_sectors p <= MEMORY_DB_TOTAL_SECTORS ->
     db_rep d' db (appended_header db h log p) (log ++ [p]) ->
     Q (zlen p) (set_dev d' s)) ->
  (forall d', append_refused db h log p d d' -> bd_cap d' = bd_cap d ->
     append_aborted db h log p d' -> X tt (set_dev d' s)) ->
  wp (append_memory_db (Some p)) Q X (set_dev d s).
Proof.
  intros Hd Hdb Hssd Hr Hsync Hp Harea HQ HX.
  pose proof (rep_addr _ _ _ _ Hr) as [Ha1 Ha2].
  pose proof (rep_layout _ _ _ _ Hr) as (_ & _ & Hml & _ & _ & Hms).
  assert (forall d', dev_eq d d' -> dev_good db d' ->
    wp (append_recovered (set_cursor (data_start db + log_sectors log) (zlen log) h) p)
      Q X (set_dev d' s)) as Hcont.
  { intros d' He Hd'. apply (wp_append_recovered db); try done.
    - by rewrite (proj2 He).
    - by rewrite <- He.
    - unfold area_on_disk, append_room. by rewrite (proj2 He).
    - intros. apply HQ; try done. destruct He; congruence.
    - unfold append_refused, append_room. rewrite (proj2 He). intros. apply HX; done. }
  unfold append_memory_db. apply wp_bind, wp_gets. cbn [set_dev MEMORY_DB_HEADER_LBA].
  rewrite Hdb. guard_false (zlen p =? 0).
  apply wp_bind, (wp_read_header db) with (1 := Hd) (2 := Hr).
  2: { intros d1 HG He. apply HX; [by intros|apply He|]. left. by rewrite <- He. }
  intros d1 Hd1 He1. rewrite sat_add64_small by dblia.
  rewrite Hml, Hms, !Z.eqb_refl. cbn [negb orb].
  apply wp_bind, (wp_recover db _ h log); [done|by rewrite <- He1| |].
  - intros d2 Hd2 He2. apply Hcont; [by etrans|done].
  - intros d2 HG He2. destruct (Hsync HG) as [Hs1 Hs2].
    rewrite <- (set_cursor_id h), Hs1, Hs2 at 1. apply Hcont; [by etrans|done].
Qed.

Lemma wp_append_memory_db db d h log p Q X :
  dev_good db d -> MEMORY_DB_HEADER_LBA s = Some db -> SSD_SECTOR_COUNT s = Some (bd_cap d) ->
  db_rep d db h log -> (~ G -> db_synced db h log) ->
  0 < zlen p <= U64_MAX -> (G -> append_room db log p d) ->
  (forall d', dev_good db d' -> bd_cap d' = bd_cap d ->
     db_rep d' db (appended_header db h log p) (log ++ [p]) ->
     Q (zlen p) (set_dev d' s)) ->
  (forall d', ~ G -> bd_cap d' = bd_cap d -> append_aborted db h log p d' -> X tt (set_dev d' s)) ->
  wp (append_memory_db (Some p)) Q X (set_dev d s).
Proof.
  intros Hd Hdb Hssd Hr Hsync Hp Hroom HQ HX.
  apply (wp_append_any db d h log); try done; [intros HG; right; auto|auto|].
  intros d' Href. apply HX. intros HG. destruct (Href HG) as (_ & Hno & _). auto.
Qed.

(** ** Reading the log *)

Lemma payload_at_eq d d' lba p : dev_eq d d' -> payload_at d lba p -> payload_at d' lba p.
Proof. intros [Hs _] Hp j Hj. rewrite Hs. by apply Hp. Qed.

(** The bytes copied from one sector. *)
Lemma payload_at_prefix d lba p o c :
  payload_at d lba p -> 0 <= o < zlen p -> o mod 512 = 0 -> 0 <= c <= zlen p - o -> c <= 512 ->
  ztake c (bd_sec d (lba + o / 512)) = ztake c (zdrop o p).
Proof.
  intros Hp Ho Hm Hc Hc'. pose proof (Z.div_mod o 512 ltac:(lia)).
  pose proof (entry_sectors_spec p).
  specialize (Hp (o / 512) ltac:(lia)). apply (f_equal (ztake c)) in Hp.
  unfold slice, SECTOR_SIZE in Hp. rewrite !ztake_ztake in Hp.
  replace (o / 512 * 512) with o in Hp by lia.
  rewrite !Z.min_l in Hp by lia. done.
Qed.

Lemma wp_read_entry_loop db d lba p tail fuel o out T r Q X :
  dev_good db d -> payload_at d lba p -> 0 <= lba -> lba + entry_sectors p <= tail ->
  tail <= U64_MAX -> zlen p <= U32_MAX -> (G -> lba + entry_sectors p <= bd_cap d) ->
  0 <= o -> 0 <= r -> 0 <= T -> T + r <= U64_MAX ->
  (r = 0 \/ zlen p <= o \/ o mod 512 = 0) -> (r = 0 \/ zlen p - o <= Z.of_nat fuel * 512) ->
  (forall d' c, dev_good db d' -> dev_eq d d' -> c = zlen (ztake r (zdrop o p)) ->
     Q (out ++ ztake r (zdrop o p), T + c, r - c) (set_dev d' s)) ->
  (forall d', ~ G -> dev_eq d d' -> X tt (set_dev d' s)) ->
  wp (read_entry_loop fuel lba (zlen p) tail o out T r) Q X (set_dev d s).
Proof.
  intros Hd. revert d o out T r Hd.
  induction fuel as [|fuel IH]; intros d o out T r Hd Hpay Hlba Htail Hmax Hp Hcap Ho Hr HT HTr Hor Hf HQ HX;
    cbn [read_entry_loop]; (destruct ((o <? zlen p) && (0 <? r)) eqn:Hg; bool_to_prop; cbn [negb];
    [|apply wp_ret; specialize (HQ d 0 Hd (reflexivity d));
      rewrite !Z.add_0_r, Z.sub_0_r, ztake_zdrop_nil, app_nil_r in HQ by lia; by apply HQ]); [lia|].
  assert (o mod 512 = 0) as Hm by lia. pose proof (Z.div_mod o 512 ltac:(lia)).
  pose proof (entry_sectors_spec p). unfold SECTOR_SIZE.
  set (c := Z.min (Z.min (zlen p - o) r) 512).
  apply wp_bind. eapply wp_opt_some; [apply checked_add64_small; lia|].
  guard_false (tail <=? lba + o / 512).
  apply wp_bind, (wp_read_sector G); [done|by intros HG; destruct (Hd HG)| | |].
  { intros HG. specialize (Hcap HG). lia. }
  2: done.
  intros d1 Hok1 He1. apply wp_bind. eapply wp_lift_ok.
  { apply get_slice_ok; [lia|]. rewrite bd_sec_len. unfold SECTOR_SIZE. lia. }
  unfold slice. rewrite zdrop_0, Z.sub_0_r by lia. rewrite (payload_at_prefix d lba p) by (done || lia).
  rewrite sat_add64_small by ulia. unfold add64, sat_sub. rewrite as_u64_small by ulia.
  rewrite Z.max_r by lia.
  assert (zlen (ztake c (zdrop o p)) = c) as Hc by (rewrite zlen_ztake, zlen_zdrop; lia).
  assert (ztake c (zdrop o p) ++ ztake (r - c) (zdrop (o + c) p) = ztake r (zdrop o p)) as Happ.
  { rewrite <- zdrop_zdrop, <- ztake_zdrop_split by lia. f_equal. lia. }
  apply IH; try lia; [by eapply dev_good_eq; [|..|apply He1]|by eapply payload_at_eq| | | |].
  - by rewrite (proj2 He1).
  - destruct (decide (c = 512)) as [->|]; [|lia]. right. right. rewrite <- Zplus_mod_idemp_r, Z.mod_same, Z.add_0_r by lia. done.
  - intros d2 c2 Hd2 He2 Hc2. rewrite <- app_assoc, Happ.
    replace (T + c + c2) with (T + (c + c2)) by lia. replace (r - c - c2) with (r - (c + c2)) by lia.
    apply HQ; [done|by etrans|]. rewrite <- Happ, zlen_app, Hc. lia.
  - intros d2 ??. apply HX; [done|by etrans].
Qed.

Lemma wp_read_loop db d st suf i lba tail fuel out T r Q X :
  dev_good db d -> db_addressable db -> h_map_lba st = db + 1 ->
  h_map_entries_used st = i + zlen suf -> log_on_disk d db i lba suf ->
  0 <= i -> i + zlen suf <= MEMORY_DB_MAP_MAX_ENTRIES ->
  0 <= lba -> lba + log_sectors suf <= tail -> tail <= U64_MAX ->
  (G -> lba + log_sectors suf <= bd_cap d) ->
  0 <= r -> 0 <= T -> T + r <= U64_MAX -> (length suf <= fuel)%nat ->
  (forall d', dev_good db d' -> dev_eq d d' ->
     Q (out ++ ztake r (concat suf), T + zlen (ztake r (concat suf))) (set_dev d' s)) ->
  (forall d', ~ G -> dev_eq d d' -> X tt (set_dev d' s)) ->
  wp (read_loop fuel st tail (zlen suf) out T r) Q X (set_dev d s).
Proof.
  intros Hd Ha Hml. revert d i lba fuel out T r Hd.
  induction suf as [|p suf IH];
    intros d i lba fuel out T r Hd Hu Hl Hi Hmax Hlba Htail Htm Hcap Hr HT HTr Hf HQ HX.
  { specialize (HQ d Hd (reflexivity d)). cbn [concat] in HQ.
    assert (ztake r (@nil byte) = []) as Hn by apply take_nil.
    rewrite Hn, app_nil_r, zlen_nil, Z.add_0_r in HQ.
    destruct fuel; apply wp_ret; done. }
  cbn [log_on_disk log_sectors foldr] in *. fold (log_sectors suf) in *.
  destruct Hl as ((f & Hf1 & He) & Hpay & [Hp1 Hp2] & Hl). rewrite zlen_cons in *. pose proof (zlen_nonneg suf).
  pose proof (entry_sectors_spec p). pose proof (log_sectors_nonneg suf).
  destruct fuel as [|fuel]; [simpl in Hf; lia|]. cbn [read_loop]. guard_true (0 <? 1 + zlen suf).
  destruct (0 <? r) eqn:Hr0; bool_to_prop; cbn [andb negb].
  2: { specialize (HQ d Hd (reflexivity d)).
       rewrite ztake_0, app_nil_r, zlen_nil, Z.add_0_r in HQ by lia. by apply wp_ret. }
  rewrite Hml, Hu. unfold sub64. rewrite as_u64_small by dblia.
  replace (i + (1 + zlen suf) - (1 + zlen suf)) with i by lia.
  apply wp_bind, (wp_read_map_entry db) with (1 := Hd) (4 := He); [done|lia| |done].
  intros d1 Hd1 He1. cbn [e_flags e_payload_bytes e_start_lba].
  rewrite (proj2 (Z.eqb_neq _ _) Hf1).
  guard_false (zlen p =? 0).
  apply wp_bind, (wp_read_entry_loop db d1 lba p); try lia;
    [done|by eapply payload_at_eq| |by auto| | |].
  { rewrite (proj2 He1). intros HG. specialize (Hcap HG). lia. }
  { right. fold (entry_sectors p). lia. }
  2: { intros d2 ??. apply HX; [done|by etrans]. }
  intros d2 c Hd2 He2 Hc. cbn beta iota. rewrite (zdrop_0 0) in * by lia.
  unfold sat_sub. rewrite Z.max_r by lia. replace (1 + zlen suf - 1) with (zlen suf) by lia.
  rewrite zlen_ztake in Hc. pose proof (zlen_nonneg p).
  assert (ztake r (concat (p :: suf)) = ztake r p ++ ztake (r - c) (concat suf)) as Happ.
  { cbn [concat]. destruct (decide (zlen p <= r)).
    - rewrite ztake_app_ge by done. rewrite (ztake_all r p) by done. do 2 f_equal. lia.
    - rewrite ztake_app_le by lia. rewrite (ztake_0 (r - c)) by lia. by rewrite app_nil_r. }
  apply (IH d2 (i + 1) (lba + entry_sectors p)); try lia; [done| | | | |].
  - eapply log_on_disk_eq; [|done]. by etrans.
  - rewrite (proj2 He2), (proj2 He1). intros HG. specialize (Hcap HG). lia.
  - simpl in Hf. lia.
  - intros d3 Hd3 He3. rewrite <- app_assoc, <- Happ.
    replace (T + c + zlen (ztake (r - c) (concat suf))) with (T + zlen (ztake r (concat (p :: suf)))).
    + apply HQ; [done|]. by do 2 (etrans; [done|]).
    + rewrite Happ, zlen_app, !zlen_ztake. lia.
  - intros d3 ??. apply HX; [done|]. by do 2 (etrans; [done|]).
Qed.

Lemma wp_read_recovered db d h log n Q X :
  dev_good db d -> SSD_SECTOR_COUNT s = Some (bd_cap d) -> db_rep d db h log -> 0 < n <= U64_MAX ->
  (G -> data_start db + log_sectors log <= bd_cap d) -> bd_cap d <= U64_MAX ->
  (forall d', dev_good db d' -> dev_eq d d' ->
     Q (ztake n (concat log), zlen (ztake n (concat log))) (set_dev d' s)) ->
  (forall d', ~ G -> dev_eq d d' -> X tt (set_dev d' s)) ->
  wp (read_recovered (set_cursor (data_start db + log_sectors log) (zlen log) h) n)
    Q X (set_dev d s).
Proof.
  intros Hd Hssd Hr Hn Hdisk Hcap HQ HX.
  pose proof Hr as [[Ha1 Ha2] _ Hlay _ _ _ Hlog Hfit].
  pose proof Hlay as (_ & _ & Hml & Hdl & Htl & Hms).
  pose proof (rep_log_length _ _ _ _ Hr) as Hmax. pose proof (zlen_nonneg log).
  pose proof (log_sectors_nonneg log). unfold read_recovered.
  apply wp_bind, wp_gets. cbn [set_dev SSD_SECTOR_COUNT]. rewrite Hssd.
  cbn [h_data_lba h_total_sectors h_next_append_lba h_map_entries_used set_cursor].
  rewrite (data_end_sat db h), Hdl by done. fold (data_start db).
  assert (data_start db + log_sectors log <= data_end db) by (unfold data_end; lia).
  guard_false (data_start db + log_sectors log <? data_start db).
  guard_false (data_end db <? data_start db + log_sectors log). cbn [orb].
  rewrite Z.min_l by done. destruct (zlen log =? 0) eqn:Hl0; bool_to_prop.
  - apply wp_ret. destruct log; [|rewrite zlen_cons in Hl0; pose proof (zlen_nonneg log); lia].
    specialize (HQ d Hd (reflexivity d)). unfold ztake in HQ. cbn [concat] in HQ.
    by rewrite take_nil in HQ.
  - set (tail := if _ <? _ then _ else _).
    assert (data_end db <= tail <= U64_MAX) as [??]
      by (unfold tail; destruct (data_end db <? bd_cap d) eqn:?; bool_to_prop; dblia).
    apply (wp_read_loop db d _ log 0 (data_start db)); try done; try (unfold zlen; lia).
    all: dblia.
Qed.

Lemma wp_read_memory_db db d h log n Q X :
  dev_good db d -> MEMORY_DB_HEADER_LBA s = Some db -> SSD_SECTOR_COUNT s = Some (bd_cap d) ->
  db_rep d db h log -> (~ G -> db_synced db h log) -> 0 < n <= U64_MAX ->
  (G -> data_start db + log_sectors log <= bd_cap d) -> bd_cap d <= U64_MAX ->
  (forall d', dev_good db d' -> dev_eq d d' ->
     Q (ztake n (concat log), zlen (ztake n (concat log))) (set_dev d' s)) ->
  (forall d', ~ G -> dev_eq d d' -> X tt (set_dev d' s)) ->
  wp (read_memory_db false n) Q X (set_dev d s).
Proof.
  intros Hd Hdb Hssd Hr Hsync Hn Hdisk Hcap HQ HX.
  pose proof (rep_addr _ _ _ _ Hr) as [Ha1 Ha2].
  pose proof (rep_layout _ _ _ _ Hr) as (_ & _ & Hml & _ & _ & Hms).
  assert (forall d', dev_eq d d' -> dev_good db d' ->
    wp (read_recovered (set_cursor (data_start db + log_sectors log) (zlen log) h) n)
      Q X (set_dev d' s)) as Hcont.
  { intros d' He Hd'. apply (wp_read_recovered db _ h); rewrite ?(proj2 He); try done.
    - by rewrite <- He.
    - intros. apply HQ; [done|by etrans].
    - intros. apply HX; [done|by etrans]. }
  unfold read_memory_db. apply wp_bind, wp_gets. cbn [set_dev MEMORY_DB_HEADER_LBA].
  rewrite Hdb. guard_false (n =? 0). cbn [orb].
  apply wp_bind, (wp_read_header db) with (1 := Hd) (2 := Hr); [|done].
  intros d1 Hd1 He1. rewrite sat_add64_small by dblia.
  rewrite Hml, Hms, !Z.eqb_refl. cbn [negb orb].
  apply wp_bind, (wp_recover db _ h log); [done|by rewrite <- He1| |].
  - intros d2 Hd2 He2. apply Hcont; [by etrans|done].
  - intros d2 HG He2. destruct (Hsync HG) as [Hs1 Hs2].
    rewrite <- (set_cursor_id h), Hs1, Hs2 at 1. apply Hcont; [by etrans|done].
Qed.

(** ** Erasing *)

(** The sectors of [lo, hi) are zero and the others are those of [d0]. *)
Definition zeroed (d0 d : D) (lo hi : Z) : Prop :=
  bd_cap d = bd_cap d0 /\
  (forall l, lo <= l < hi -> bd_sec d l = zeros SECTOR_SIZE) /\
  (forall l, l < lo \/ hi <= l -> bd_sec d l = bd_sec d0 l).

Lemma nth_sector_zeros n i : 0 <= i < n -> nth_sector (zeros (n * 512)) i = zeros 512.
Proof.
  intros ?. unfold nth_sector, slice, ztake, zdrop, zeros, SECTOR_SIZE.
  rewrite drop_replicate, take_replicate. f_equal. lia.
Qed.

Lemma ztake_zeros n m : 0 <= n <= m -> ztake n (zeros m) = zeros n.
Proof. intros ?. unfold ztake, zeros. rewrite take_replicate. f_equal. lia. Qed.

Lemma zeroed_extend d0 d d' lo lba n :
  zeroed d0 d lo lba -> lo <= lba -> 0 <= n -> written d d' lba n (zeros (n * 512)) ->
  zeroed d0 d' lo (lba + n).
Proof.
  intros (Hc & Hz & Ho) ?? (Hc' & Ho' & Hw). split_and!; [congruence| |].
  - intros l ?. destruct (decide (l < lba)); [rewrite Ho' by lia; apply Hz; lia|].
    replace l with (lba + (l - lba)) by lia. rewrite Hw, nth_sector_zeros by lia. done.
  - intros l ?. rewrite Ho' by lia. apply Ho. lia.
Qed.

Lemma wp_erase_loop d0 lo hi lba fuel d Q X :
  (G -> bd_ok d) -> (G -> hi <= bd_cap d0) -> zeroed d0 d lo lba ->
  0 <= lo -> lo <= lba <= hi -> hi <= U64_MAX -> hi - lba <= Z.of_nat fuel * 8 ->
  (forall d', (G -> bd_ok d') -> zeroed d0 d' lo hi -> Q tt (set_dev d' s)) ->
  (forall d', ~ G -> bd_cap d' = bd_cap d0 ->
     (forall l, l < lo \/ hi <= l -> bd_sec d' l = bd_sec d0 l) -> X tt (set_dev d' s)) ->
  wp (erase_loop fuel (zeros MEMORY_DB_ERASE_CHUNK_BYTES) hi lba) Q X (set_dev d s).
Proof.
  revert lba d. induction fuel as [|fuel IH]; intros lba d Hok Hcap Hz Hlo Hlba Hhi Hf HQ HX;
    cbn [erase_loop]; (destruct (lba <? hi) eqn:Hlt; bool_to_prop; cbn [negb];
      [|apply wp_ret; assert (lba = hi) as -> by lia; by apply HQ]); [lia|].
  unfold sat_sub, MEMORY_DB_ERASE_CHUNK_SECTORS. rewrite Z.max_r by lia.
  set (n := Z.min (hi - lba) 8). assert (0 < n <= 8) by lia.
  apply wp_bind, (wp_opt_some _ _ n).
  { unfold u16_try_from, U16_MAX. by guard_true (n <=? 65535). }
  apply wp_bind. eapply wp_lift_ok.
  { apply get_slice_ok; rewrite ?zlen_zeros by done; cbv [SECTOR_SIZE MEMORY_DB_ERASE_CHUNK_BYTES
      MEMORY_DB_ERASE_CHUNK_SECTORS]; lia. }
  unfold slice, SECTOR_SIZE. rewrite zdrop_0, Z.sub_0_r, ztake_zeros
    by (cbv [SECTOR_SIZE MEMORY_DB_ERASE_CHUNK_BYTES MEMORY_DB_ERASE_CHUNK_SECTORS]; lia).
  pose proof Hz as (Hc & _ & Ho).
  apply wp_bind, (wp_write_sectors G); [done|done| | | |].
  - intros HG. specialize (Hcap HG). lia.
  - rewrite zlen_zeros; unfold SECTOR_SIZE; lia.
  - intros d1 Hok1 Hw. rewrite sat_add64_small by ulia.
    apply IH; try done; [|lia|lia]. eapply zeroed_extend; [done|lia|lia|done].
  - intros d1 HG (Hc1 & Ho1 & _). apply HX; [done|congruence|].
    intros. rewrite Ho1 by lia. apply Ho. lia.
Qed.

(** The header that [erase_memory_db] writes. *)
Definition erased_header (db cap : Z) (h : MemoryDbHeader) : MemoryDbHeader :=
  mkMemoryDbHeader MEMORY_DB_MAGIC MEMORY_DB_VERSION SECTOR_SIZE db (data_start db)
    MEMORY_DB_TOTAL_SECTORS (data_start db) (sat_sub cap 1)
    (h_model_start_lba h) (h_model_last_lba h) (db + 1) 0 MEMORY_DB_MAP_SECTORS.

(** A device that holds nothing but a header and an empty map from [db] on. *)
Lemma rep_empty d db h :
  db_addressable db -> header_layout h db -> h_next_append_lba h = data_start db ->
  h_map_entries_used h = 0 -> bd_sec d db = encode_header h ->
  bd_sec d (db + 1) = encode_map_header 0 -> db_rep d db h [] /\ db_synced db h [].
Proof.
  intros Ha Hl Hn Hu Hh Hm. split; [|split; simpl; lia || done].
  split; try done.
  - rewrite Hh. apply decode_encode_header, Hl.
  - rewrite Hn. dblia.
  - rewrite Hu. done.
  - rewrite Hm. by apply decode_encode_map_header.
Qed.

(** The same, after the map header and then the header were written. *)
Lemma rep_formatted d1 d2 d3 db h :
  db_addressable db -> header_layout h db -> h_next_append_lba h = data_start db ->
  h_map_entries_used h = 0 -> sector_set d1 d2 (db + 1) (encode_map_header 0) ->
  sector_set d2 d3 db (encode_header h) ->
  (db_rep d3 db h [] /\ db_synced db h []) /\
  bd_cap d3 = bd_cap d1 /\ forall l, l < db \/ db + 1 < l -> bd_sec d3 l = bd_sec d1 l.
Proof.
  intros ???? (Hc & Hm & Ho) (Hc' & Hh & Ho'). split; [|split].
  - apply rep_empty; try done. rewrite Ho' by lia. done.
  - congruence.
  - intros l ?. rewrite Ho', Ho by lia. done.
Qed.

(** What a completed erase leaves: an empty log, the whole region but the two
    headers zeroed, every other sector of the disk untouched. *)
Definition erased (d d' : D) (db : Z) (h : MemoryDbHeader) : Prop :=
  let h' := erased_header db (bd_cap d) h in
  db_rep d' db h' [] /\ db_synced db h' [] /\ bd_cap d' = bd_cap d /\
  (forall l, db + 2 <= l < db + MEMORY_DB_TOTAL_SECTORS -> bd_sec d' l = zeros SECTOR_SIZE) /\
  (forall l, l < db \/ db + MEMORY_DB_TOTAL_SECTORS <= l -> bd_sec d' l = bd_sec d l).

Lemma erased_layout db cap h :
  db_addressable db -> header_layout h db -> u64 cap -> header_layout (erased_header db cap h) db.
Proof.
  intros [??] (Hwf & _) ?. unfold header_wf in Hwf. destruct_and! Hwf.
  unfold header_layout, header_wf, erased_header. simpl. split_and!; try done; dblia.
Qed.

Lemma wp_erase_memory_db db d h log Q X :
  dev_good db d -> MEMORY_DB_HEADER_LBA s = Some db -> SSD_SECTOR_COUNT s = Some (bd_cap d) ->
  db_rep d db h log -> u64 (bd_cap d) -> (G -> db + MEMORY_DB_TOTAL_SECTORS <= bd_cap d) ->
  (forall d', dev_good db d' -> erased d d' db h -> Q tt (set_dev d' s)) ->
  (forall d', ~ G -> bd_cap d' = bd_cap d ->
     (forall l, l < db \/ db + MEMORY_DB_TOTAL_SECTORS <= l -> bd_sec d' l = bd_sec d l) ->
     X tt (set_dev d' s)) ->
  wp erase_memory_db Q X (set_dev d s).
Proof.
  intros Hd Hdb Hssd Hr Hu Hcap HQ HX.
  pose proof (rep_addr _ _ _ _ Hr) as [Ha1 Ha2].
  pose proof (rep_layout _ _ _ _ Hr) as Hlay. pose proof Hlay as (_ & Hhl & Hml & Hdl & Htl & Hms).
  unfold erase_memory_db. apply wp_bind, wp_gets. cbn [set_dev MEMORY_DB_HEADER_LBA]. rewrite Hdb.
  apply wp_bind, (wp_read_header db) with (1 := Hd) (2 := Hr).
  2: { intros d1 HG [He Hc]. apply HX; [done|done|]. intros. apply He. }
  intros d1 Hd1 [He1 Hc1]. rewrite sat_add64_small by dblia.
  rewrite Hhl, Hml, Hms, Htl, !Z.eqb_refl. cbn [negb orb].
  apply wp_bind, wp_gets. cbn [set_dev SSD_SECTOR_COUNT]. rewrite Hssd.
  apply wp_bind. eapply wp_opt_some; [apply checked_add64_small; dblia|].
  destruct (bd_cap d <? _) eqn:Hlt; bool_to_prop.
  { apply wp_fail, HX; [|done|by intros]. intros HG. specialize (Hcap HG). lia. }
  apply wp_bind, (wp_erase_loop d1 db).
  - intros HG. by destruct (Hd1 HG).
  - lia.
  - split_and!; [done|lia|done].
  - done.
  - dblia.
  - dblia.
  - change (div_ceil MEMORY_DB_TOTAL_SECTORS MEMORY_DB_ERASE_CHUNK_SECTORS) with 16384. dblia.
  - intros d2 Hok2 (Hc2 & Hz2 & Ho2).
    assert (dev_good db d2) as Hd2 by (eapply (dev_good_eq db d1); done).
    rewrite ?Hdl. fold (data_start db) (erased_header db (bd_cap d) h).
    apply wp_bind, (wp_write_map_header db); [done| |].
    2: { intros d3 HG [[He Hc]|(Hc & _ & Ho)]; (apply HX; [done|congruence|]); intros.
         - rewrite He, Ho2 by lia. apply He1.
         - rewrite Ho, Ho2 by dblia. apply He1. }
    intros d3 Hd3 Hs3.
    apply (wp_write_header db); [done|done|done|done| |].
    2: { intros d4 HG Ht. destruct Hs3 as (Hc3 & _ & Ho3).
         destruct Ht as [[He Hc]|(Hc & _ & Ho)]; (apply HX; [done|congruence|]); intros.
         - rewrite He, Ho3, Ho2 by dblia. apply He1.
         - rewrite Ho, Ho3, Ho2 by dblia. apply He1. }
    intros d4 Hd4 Hs4. apply HQ; [done|].
    destruct (rep_formatted d2 d3 d4 db (erased_header db (bd_cap d) h)) as ([??] & Hc4 & Ho4);
      try done; [by apply erased_layout|].
    do 2 (split; [done|]). split; [congruence|]. split; intros l Hl; rewrite Ho4 by dblia.
    + apply Hz2. lia.
    + rewrite Ho2 by lia. apply He1.
  - intros d2 HG Hc2 Ho2. apply HX; [done|congruence|]. intros. rewrite Ho2 by lia. apply He1.
Qed.
End rules.

(** ** Booting: [ensure_memory_db] on a working device *)

Section boot.
Context (s : Ahci D) (Hport : FIRST_SATA_PORT s <> None).
Context (db : Z) (Ha : db_addressable db).

(** The tests of [ensure_existing] on the header sector. *)
Definition keepable (h : MemoryDbHeader) : bool :=
  bool_decide (h_magic h = MEMORY_DB_MAGIC)
  && (h_version h =? MEMORY_DB_VERSION) && (h_sector_size h =? SECTOR_SIZE)
  && (h_header_lba h =? db) && (h_data_lba h =? data_start db) && (h_map_lba h =? db + 1)
  && (h_map_sectors h =? MEMORY_DB_MAP_SECTORS) && (h_total_sectors h =? MEMORY_DB_TOTAL_SECTORS)
  && (data_start db <=? h_next_append_lba h)
  && (h_next_append_lba h <=? db + MEMORY_DB_TOTAL_SECTORS)
  && (h_map_entries_used h <=? memory_db_map_entry_capacity).

(** The header it starts from: the model extent of this boot, the rest from disk. *)
Definition kept_header (h : MemoryDbHeader) (ms ml : Z) : MemoryDbHeader :=
  mkMemoryDbHeader MEMORY_DB_MAGIC (h_version h) (h_sector_size h) (h_header_lba h)
    (h_data_lba h) (h_total_sectors h) (h_next_append_lba h) (h_last_ssd_lba h) ms ml
    (h_map_lba h) (h_map_entries_used h) (h_map_sectors h).

Lemma header_of_u64 d :
  u64 (h_last_ssd_lba (header_of (bd_sec d db))) /\
  u64 (h_next_append_lba (header_of (bd_sec d db))) /\
  u64 (h_map_entries_used (header_of (bd_sec d db))).
Proof.
  do 2 try split; apply le_combine_u64; rewrite zlen_slice by (rewrite ?bd_sec_len; done); done.
Qed.

Lemma keepable_layout d ms ml :
  let h := header_of (bd_sec d db) in
  keepable h = true -> u64 ms -> u64 ml -> header_layout (kept_header h ms ml) db.
Proof.
  destruct Ha as [??]. pose proof (header_of_u64 d) as Hu. intros h. fold h in Hu.
  destruct Hu as (?&?&?). clearbody h.
  unfold keepable. intros Hk **. bool_to_prop.
  unfold header_layout, header_wf, kept_header. simpl. split_and!; try done; dblia.
Qed.

Definition map_readable (d : D) : bool :=
  match decode_map_header (bd_sec d (h_map_lba (header_of (bd_sec d db)))) with
  | Ok _ => true | _ => false
  end.

(** The map sector an old header points at is on the disk, or the device survives
    reads past its end: [ensure_memory_db] reads the sector before it checks the
    pointer. *)
Definition map_pointer_safe (d : D) : Prop :=
  h_map_lba (header_of (bd_sec d db)) < bd_cap d \/ forall d' lba, survives_read d' lba.

Lemma map_pointer_survives d :
  map_pointer_safe d -> survives_read d (h_map_lba (header_of (bd_sec d db))).
Proof. intros [?|?]; [|done]. apply survives_inside. split; [apply le_combine_bound|done]. Qed.

Lemma map_pointer_ext d d' :
  bd_sec d' db = bd_sec d db -> bd_cap d' = bd_cap d -> map_pointer_safe d -> map_pointer_safe d'.
Proof. unfold map_pointer_safe. by intros -> ->. Qed.

Lemma keepable_map_lba h : keepable h = true -> h_map_lba h = db + 1.
Proof. unfold keepable. intros Hk. bool_to_prop. done. Qed.

Lemma wp_ensure_existing d ms ml Q X :
  dev_good True db d -> map_pointer_safe d ->
  (forall d', dev_good True db d' -> dev_eq d d' ->
     wp (if keepable (header_of (bd_sec d db)) && map_readable d
         then keep_recovered db (data_start db) (kept_header (header_of (bd_sec d db)) ms ml)
         else sret false) Q X (set_dev d' s)) ->
  wp (ensure_existing (bd_sec d db) db (db + 1) (data_start db) (db + MEMORY_DB_TOTAL_SECTORS)
        ms ml) Q X (set_dev d s).
Proof.
  intros Hd Hml HQ. pose proof (bd_sec_len d db) as Hb. unfold ensure_existing.
  apply wp_bind. eapply wp_lift_ok; [apply get_slice_ok; rewrite ?Hb; done|].
  do 2 (apply wp_bind; eapply wp_lift_ok; [apply le_u32_ok; rewrite ?Hb; done|]).
  do 7 (apply wp_bind; eapply wp_lift_ok; [apply le_u64_ok; rewrite ?Hb; done|]).
  set (ml_lba := h_map_lba (header_of (bd_sec d db))) in *.
  destruct (Hd I) as (Hok & ? & Hcap).
  apply wp_bind, wp_catch, wp_bind, wp_read_anywhere; [done|done|by apply map_pointer_survives|..].
  - intros d1 Hok1 He1. specialize (HQ d1).
    assert (dev_good True db d1) as Hd1 by (eapply dev_good_eq; [done|done|apply He1]).
    specialize (HQ Hd1 He1).
    change (le_combine (slice (bd_sec d db) MEMORY_DB_MAP_LBA_OFFSET (MEMORY_DB_MAP_LBA_OFFSET + 8)))
      with ml_lba.
    destruct (decode_map_header_total (bd_sec d ml_lba)) as [[r Hr]|Hr];
      [apply bd_sec_len|..]; unfold map_readable in HQ; fold ml_lba in HQ.
    + eapply wp_lift_ok; [done|]. rewrite Hr in HQ. cbn beta iota.
      match goal with |- wp (if ?c then _ else _) _ _ _ =>
        change c with (keepable (header_of (bd_sec d db)) && true) end.
      destruct (keepable _ && true); [|done].
      apply wp_bind. eapply wp_lift_ok; [apply le_u64_ok; rewrite ?Hb; done|]. exact HQ.
    + apply wp_lift_err with (1 := Hr). rewrite Hr, andb_false_r in HQ. cbn beta iota zeta.
      match goal with |- wp (if ?c then _ else _) _ _ _ =>
        change c with (keepable (header_of (bd_sec d db)) && false) end.
      by rewrite andb_false_r.
  - intros d1 Hok1 He1 Hout. cbn beta iota zeta.
    match goal with |- wp (if ?c then _ else _) _ _ _ =>
      change c with (keepable (header_of (bd_sec d db)) && false) end.
    rewrite andb_false_r.
    assert (keepable (header_of (bd_sec d db)) = false) as Hk.
    { destruct (keepable _) eqn:Hk; [|done]. apply keepable_map_lba in Hk. exfalso. apply Hout.
      change (0 <= ml_lba < bd_cap d). unfold ml_lba. rewrite Hk. dblia. }
    rewrite Hk in HQ. apply HQ; [|done]. eapply dev_good_eq; [done|done|apply He1].
Qed.

Context (Hreg : MEMORY_DB_HEADER_LBA s = None \/ MEMORY_DB_HEADER_LBA s = Some db).

Definition registered : Ahci D := set_MEMORY_DB_HEADER_LBA db s.

Lemma registered_lba : MEMORY_DB_HEADER_LBA registered = Some db.
Proof. unfold registered, set_MEMORY_DB_HEADER_LBA. simpl. by destruct Hreg as [->| ->]. Qed.

Lemma wp_register d Q X :
  Q tt (set_dev d registered) ->
  wp (memory_db_register_state db (data_start db)) Q X (set_dev d s).
Proof. intros HQ. exact (wp_modify _ Q X _ HQ). Qed.

(** Only the header and the map may change at boot. *)
Definition boot_frame (d d' : D) : Prop :=
  bd_cap d' = bd_cap d /\
  forall l, l < db \/ data_start db <= l -> bd_sec d' l = bd_sec d l.

(** A boot ends with a consistent, registered database holding [log]. *)
Definition booted (d d' : D) (log : list bytes) : Prop :=
  boot_frame d d' /\ exists h, db_rep d' db h log /\ db_synced db h log.

Lemma wp_keep_recovered d h log sz used Q X :
  dev_good True db d -> header_layout h db ->
  decode_map_header (bd_sec d (db + 1)) = Ok (sz, used) ->
  log_on_disk d db 0 (data_start db) log -> zlen log <= MEMORY_DB_MAP_MAX_ENTRIES ->
  log_sectors log <= MEMORY_DB_TOTAL_SECTORS ->
  scans True s db d used (data_start db + log_sectors log) (zlen log) ->
  (forall d', dev_good True db d' -> booted d d' log -> Q true (set_dev d' registered)) ->
  wp (keep_recovered db (data_start db) h) Q X (set_dev d s).
Proof.
  intros Hd Hlay Hm Hlog Hmax Hfit Hscan HQ. pose proof (log_sectors_nonneg log).
  pose proof (zlen_nonneg log). pose proof Ha as [Ha1 Ha2]. pose proof (meta_not_data db).
  unfold keep_recovered.
  apply wp_bind, (wp_recover_scan True s Hport db) with (1 := Hd) (3 := Hlay) (4 := Hm) (6 := Hscan);
    [done|dblia| |tauto].
  intros d1 Hd1 [He1 Hc1]. cbn beta iota. set (h' := set_cursor _ _ h).
  assert (header_layout h' db) as Hlay' by (apply layout_set_cursor; [done|dblia|dblia]).
  replace (h_map_lba h') with (db + 1) by (symmetry; apply Hlay').
  apply wp_bind, (wp_write_map_header True s Hport db); [done| |tauto].
  intros d2 Hd2 (Hc2 & Hs2 & Ho2). apply wp_bind, wp_register.
  apply wp_bind, (wp_write_header True registered Hport db);
    [done|apply registered_lba|apply Hlay'|apply Hlay'| |tauto].
  intros d3 Hd3 (Hc3 & Hs3 & Ho3). apply wp_ret, HQ; [done|].
  assert (forall l, l <> db -> l <> db + 1 -> bd_sec d3 l = bd_sec d l) as Ho
    by (intros; rewrite Ho3, Ho2 by done; apply He1).
  split; [split; [congruence|intros; apply Ho; lia]|].
  exists h'. split; [|split; done]. split; try done.
  - rewrite Hs3. apply decode_encode_header, Hlay'.
  - simpl. dblia.
  - rewrite Ho3, Hs2 by lia. apply decode_encode_map_header. done.
  - eapply log_on_disk_frame; [..|done].
    + intros j e Hj. unfold entry_at. pose proof (entry_lba_meta db j ltac:(lia)).
      rewrite Ho by lia. done.
    + intros. apply Ho; lia.
Qed.

Lemma wp_zero_map_sectors n i d0 d Q X :
  dev_good True db d -> zeroed d0 d (db + 1) (db + 1 + i) -> 0 <= i ->
  i + Z.of_nat n = MEMORY_DB_MAP_SECTORS ->
  (forall d', dev_good True db d' -> zeroed d0 d' (db + 1) (data_start db) -> Q tt (set_dev d' s)) ->
  wp (zero_map_sectors n (db + 1) i) Q X (set_dev d s).
Proof.
  pose proof Ha as [Ha1 Ha2]. revert i d. induction n as [|n IH]; intros i d Hd Hz Hi Hn HQ; simpl.
  - apply wp_ret, HQ; [done|]. unfold data_start. by replace MEMORY_DB_MAP_SECTORS with i by lia.
  - unfold add64. rewrite as_u64_small by dblia.
    apply wp_bind, (wp_write_meta' True s Hport db); [done|dblia|done| |tauto].
    intros d1 Hd1 (Hc & Hs & Ho). destruct Hz as (Hc0 & Hz0 & Ho0).
    apply IH; [done| |lia|lia|done]. split_and!; [congruence| |].
    + intros l Hl. destruct (decide (l = db + 1 + i)) as [->|]; [done|].
      rewrite Ho by done. apply Hz0. lia.
    + intros l Hl. rewrite Ho by lia. apply Ho0. lia.
Qed.

Lemma wp_ensure_fresh d ms ml Q X :
  dev_good True db d -> u64 (bd_cap d) -> u64 ms -> u64 ml ->
  (forall d', dev_good True db d' -> booted d d' [] -> Q tt (set_dev d' registered)) ->
  wp (ensure_fresh db (db + 1) (data_start db) (bd_cap d) ms ml) Q X (set_dev d s).
Proof.
  intros Hd Hu Hms Hml HQ. pose proof Ha as [Ha1 Ha2]. unfold ensure_fresh.
  set (h := mkMemoryDbHeader _ _ _ _ _ _ _ _ _ _ _ _ _).
  assert (header_layout h db) as Hlay
    by (unfold header_layout, header_wf; simpl; split_and!; try done; dblia).
  apply wp_bind. eapply wp_lift_ok; [by apply put_header|].
  apply wp_bind, (wp_zero_map_sectors _ 0 d); [done|split_and!; [done|lia|done]|done|done|].
  intros d1 Hd1 (Hc1 & _ & Ho1).
  apply wp_bind, (wp_write_map_header True s Hport db); [done| |tauto]. intros d2 Hd2 Hs2.
  apply wp_bind, (wp_write_meta' True s Hport db); [done|dblia|by apply zlen_encode_header| |tauto].
  intros d3 Hd3 Hs3.
  destruct (rep_formatted d1 d2 d3 db h) as ([Hr Hsy] & Hc3 & Ho3); try done.
  apply wp_bind, (wp_read_meta True s Hport db); [done|dblia| |tauto]. intros d4 Hd4 He4.
  pose proof Hs3 as (_ & -> & _).
  apply wp_bind. eapply wp_lift_ok.
  { apply (get_slice_field _ _ 0 (h_magic h)); [by apply header_fields_sorted|find_field|done]. }
  rewrite bool_decide_eq_true_2 by done. cbn [negb]. apply wp_register, HQ; [done|].
  split; [split|].
  - rewrite (proj2 He4). congruence.
  - intros. rewrite (proj1 He4), Ho3, Ho1 by dblia. done.
  - exists h. by rewrite <- He4.
Qed.

(** The log that a boot finds: what the map scans to when the header is kept,
    nothing otherwise. *)
Definition boot_log (d : D) (log : list bytes) : Prop :=
  if keepable (header_of (bd_sec d db)) && map_readable d then
    log_on_disk d db 0 (data_start db) log /\ zlen log <= MEMORY_DB_MAP_MAX_ENTRIES /\
    log_sectors log <= MEMORY_DB_TOTAL_SECTORS /\
    exists sz used, decode_map_header (bd_sec d (db + 1)) = Ok (sz, used) /\
      scans True s db d used (data_start db + log_sectors log) (zlen log)
  else log = [].

Lemma boot_log_exists d : exists log, boot_log d log.
Proof.
  unfold boot_log. destruct (keepable _ && map_readable d) eqn:Hk; [|eauto].
  apply andb_true_iff in Hk as [Hk Hm]. unfold map_readable in Hm.
  rewrite (keepable_map_lba _ Hk) in Hm.
  destruct (decode_map_header _) as [[sz used]| | |] eqn:E; try done.
  destruct (scans_any True s Hport db d sz used) as (log & ?&?&?&?); [done|done|].
  exists log. split_and!; eauto.
Qed.

Lemma boot_log_rep d h log :
  db_rep d db h log -> h_next_append_lba h <= db + MEMORY_DB_TOTAL_SECTORS -> boot_log d log.
Proof.
  intros Hr Hn. pose proof (rep_log_length _ _ _ _ Hr).
  destruct Hr as [_ Hh Hlay Hc Hu Hm Hl Hfit].
  apply decode_header_of in Hh; [|apply bd_sec_len]. unfold boot_log. rewrite <- Hh.
  destruct Hlay as ((Hmg & Hv & Hss & _) & Hhl & Hml & Hdl & Htl & Hms).
  assert (keepable h = true) as ->.
  { unfold keepable. rewrite Hmg, Hv, Hss, Hhl, Hml, Hdl, Htl, Hms.
    rewrite bool_decide_eq_true_2, !Z.eqb_refl by done. fold (data_start db).
    cbn [andb]. rewrite !andb_true_iff, !Z.leb_le. dblia. }
  unfold map_readable. rewrite <- Hh, Hml, Hm. cbn [andb].
  split_and!; [done|done|done|]. exists MEMORY_DB_MAP_ENTRY_SIZE, (zlen log).
  split; [done|]. by apply scans_log.
Qed.

Lemma boot_log_eq d d' log : dev_eq d d' -> boot_log d log -> boot_log d' log.
Proof.
  intros He. pose proof He as [Hs _]. unfold boot_log, map_readable. rewrite !Hs.
  destruct (_ && _); [|done]. intros (Hl & ? & ? & sz & used & ? & Hsc).
  split_and!; [by eapply log_on_disk_eq|done|done|]. exists sz, used. split; [done|].
  intros d1 Q X Hd1 He1 HQ HX. apply Hsc; [done|by etrans|..].
  - intros. apply HQ; [done|]. by etrans; [symmetry|].
  - intros. apply HX; [done|]. by etrans; [symmetry|].
Qed.

Lemma booted_eq d d' d'' log : dev_eq d d' -> booted d' d'' log -> booted d d'' log.
Proof.
  intros [Hs Hc] ((Hc' & Ho) & Hx). split; [|done]. split; [congruence|].
  intros. rewrite Ho by done. apply Hs.
Qed.

Lemma wp_ensure_memory_db d ms ml log Q X :
  dev_good True db d -> SSD_SECTOR_COUNT s = Some (bd_cap d) -> u64 (bd_cap d) ->
  db + MEMORY_DB_TOTAL_SECTORS <= bd_cap d -> u64 ms -> u64 ml ->
  map_pointer_safe d -> boot_log d log ->
  (forall d', dev_good True db d' -> booted d d' log -> Q tt (set_dev d' registered)) ->
  wp (ensure_memory_db db ms ml) Q X (set_dev d s).
Proof.
  intros Hd Hssd Hu Hcap Hms Hml Hmlba Hlog HQ. pose proof Ha as [Ha1 Ha2].
  unfold ensure_memory_db. apply wp_bind, wp_gets. cbn [set_dev SSD_SECTOR_COUNT]. rewrite Hssd.
  apply wp_bind. eapply wp_opt_some; [apply checked_add64_small; dblia|].
  guard_false (bd_cap d <? db + MEMORY_DB_TOTAL_SECTORS).
  rewrite (sat_add64_small db 1), sat_add64_small by dblia. fold (data_start db).
  replace (db + MEMORY_DB_TOTAL_SECTORS <=? data_start db) with false by (symmetry; dblia).
  apply wp_bind, wp_catch, (wp_read_meta True s Hport db); [done|dblia| |tauto].
  intros d1 Hd1 He1. cbn beta iota. apply wp_bind.
  apply (map_pointer_ext _ d1) in Hmlba; [|apply He1..]. rewrite <- (proj1 He1), <- (proj2 He1) in *.
  apply wp_ensure_existing; [done|done|]. intros d2 Hd2 He2.
  pose proof (boot_log_eq _ _ _ He1 Hlog) as Hlog1. pose proof (boot_log_eq _ _ _ He2 Hlog1) as Hlog2.
  assert (forall d', booted d2 d' log -> booted d d' log) as Hb
    by (intros; eapply booted_eq, booted_eq; done).
  unfold boot_log in Hlog1, Hlog2. pose proof He2 as [Hs2 Hc2].
  unfold map_readable in Hlog2. rewrite !Hs2 in Hlog2. fold (map_readable d1) in Hlog2.
  destruct (keepable _ && map_readable d1) eqn:Hk.
  - apply andb_true_iff in Hk as [Hk _]. destruct Hlog2 as (Hl & Hmax & Hfit & sz & used & Hm & Hsc).
    apply (wp_keep_recovered d2 _ log sz used) with (1 := Hd2) (4 := Hl) (5 := Hmax) (6 := Hfit) (7 := Hsc);
      [by apply keepable_layout|by rewrite Hs2|].
    intros d3 Hd3 Hb3. apply wp_ret. auto.
  - apply wp_ret. rewrite <- Hc2. subst log. apply wp_ensure_fresh; [done|by rewrite Hc2|done|done|].
    auto.
Qed.
End boot.
End rep.
