(* ===== verification/MemoryDbTheorems.v ===== *)
(** * The SSD memory database: theorems

    The contract of the memory database of kernel/src/drivers/storage/ahci.rs,
    for every device that meets [BlockDevSpec]: it is an append-only list of
    payloads that survives power loss and reboots.  [abs_step] is the abstract
    log; [run_ops] runs the operations of MemoryDb.v. *)

From stdpp Require Import gmap.
From S2P Require Import Prelude BlockDevice AhciIo MemoryDb MemoryDbSpec.

Section online.
Context {D : Type} `{BlockDevSpec D}.
Implicit Types (s : Ahci D) (db : Z) (h : MemoryDbHeader) (log : list bytes) (p : bytes).

(** The statics are set for a database at [db] that lies on the disk. *)
Definition db_attached s db : Prop :=
  db_ready s db /\ u64 (bd_cap (ah_dev s)) /\ db + MEMORY_DB_TOTAL_SECTORS <= bd_cap (ah_dev s).

(** ... and the device works. *)
Definition db_online s db : Prop := db_attached s db /\ bd_ok (ah_dev s).

(** [s] holds the log [log], its header in step with its map. *)
Definition db_holds s db log : Prop :=
  exists h, db_rep (ah_dev s) db h log /\ db_synced db h log.

(** The statics after a power cycle: the port and the capacity are found again,
    the database is not registered yet. *)
Definition power_cycle s : Ahci D :=
  mkAhci (ah_dev s) (FIRST_SATA_PORT s) (MODEL_CACHE_START_LBA s) (SSD_SECTOR_COUNT s) None.

Lemma set_dev_id s : set_dev (ah_dev s) s = s.
Proof. by destruct s. Qed.

Lemma attached_set_dev s db d :
  db_attached s db -> bd_cap d = bd_cap (ah_dev s) -> db_attached (set_dev d s) db.
Proof. intros ((?&?&?)&?&?) Hc. unfold db_attached, db_ready. simpl. by rewrite Hc. Qed.

Lemma online_set_dev s db d :
  db_online s db -> bd_cap d = bd_cap (ah_dev s) -> bd_ok d -> db_online (set_dev d s) db.
Proof. intros [??] ??. split; [by apply attached_set_dev|done]. Qed.

Lemma online_good s db :
  db_online s db -> 0 <= db -> dev_good True db (ah_dev s).
Proof. intros [(_ & _ & ?) ?] ? _. split_and!; [done|done|dblia]. Qed.

Lemma rep_nonneg d db h log : db_rep d db h log -> 0 <= db.
Proof. intros Hr. apply Hr. Qed.

Lemma appended_synced db h log p :
  db_synced db (appended_header db h log p) (log ++ [p]).
Proof.
  split; simpl; [rewrite log_sectors_app; simpl; lia|rewrite zlen_app; done].
Qed.

(** Room for [p] inside the region [db, db + 131072) that erase and boot check. *)
Definition fits log p : Prop :=
  zlen log < MEMORY_DB_MAP_MAX_ENTRIES /\ payload_ok p /\
  1 + MEMORY_DB_MAP_SECTORS + log_sectors log + entry_sectors p <= MEMORY_DB_TOTAL_SECTORS.

Lemma fits_room s db log p :
  db_online s db -> fits log p -> append_room db log p (ah_dev s).
Proof. intros [(_ & _ & ?) _] (?&?&?). unfold append_room. split_and!; dblia. Qed.

Lemma append_runs s db log p :
  db_online s db -> db_holds s db log -> 0 < zlen p -> append_room db log p (ah_dev s) ->
  exists s', append_memory_db (Some p) s = (s', Ok (zlen p)) /\
    db_online s' db /\ db_holds s' db (log ++ [p]) /\ power_cycle s' = set_dev (ah_dev s') (power_cycle s).
Proof.
  intros Hon (h & Hr & Hsy) Hp Hroom. pose proof Hon as [Hat Hok].
  pose proof Hat as ((Hport & Hdb & Hssd) & Hu & Hcap).
  destruct (wp_run_ok (append_memory_db (Some p))
    (fun a s' => a = zlen p /\ db_online s' db /\ db_holds s' db (log ++ [p]) /\
       power_cycle s' = set_dev (ah_dev s') (power_cycle s)) s) as (s' & a & Hrun & -> & Hpost); [|eauto].
  rewrite <- (set_dev_id s) at 1.
  apply (wp_append_memory_db True s Hport db (ah_dev s) h log); try done.
  - apply online_good; [done|]. by eapply rep_nonneg.
  - destruct Hroom as (_ & ? & _). ulia.
  - intros d' Hd' Hc Hr'. split; [done|]. split; [|split; [|done]].
    { apply online_set_dev; [done|done|by apply Hd']. }
    eexists. split; [done|]. apply appended_synced.
Qed.

Lemma read_runs s db log n :
  db_online s db -> db_holds s db log -> 0 < n <= U64_MAX ->
  data_start db + log_sectors log <= bd_cap (ah_dev s) ->
  exists s', read_memory_db false n s = (s', Ok (ztake n (concat log), zlen (ztake n (concat log)))) /\
    db_online s' db /\ dev_eq (ah_dev s) (ah_dev s') /\ s' = set_dev (ah_dev s') s.
Proof.
  intros Hon (h & Hr & Hsy) Hn Hfit. pose proof Hon as [((Hport & Hdb & Hssd) & Hu & Hcap) Hok].
  destruct (wp_run_ok (read_memory_db false n)
    (fun a s' => a = (ztake n (concat log), zlen (ztake n (concat log))) /\ db_online s' db /\
       dev_eq (ah_dev s) (ah_dev s') /\ s' = set_dev (ah_dev s') s) s)
    as (s' & a & Hrun & -> & Hpost); [|eauto].
  rewrite <- (set_dev_id s) at 1.
  apply (wp_read_memory_db True s Hport db (ah_dev s) h log); try done.
  - apply online_good; [done|]. by eapply rep_nonneg.
  - ulia.
  - intros d' Hd' He. split_and!; [done| |done|done].
    apply online_set_dev; [done|apply He|by apply Hd'].
Qed.

Lemma erase_runs s db log :
  db_online s db -> db_holds s db log ->
  exists s', erase_memory_db s = (s', Ok tt) /\ db_online s' db /\ db_holds s' db [] /\
    (forall l, db + 2 <= l < db + MEMORY_DB_TOTAL_SECTORS ->
       bd_sec (ah_dev s') l = zeros SECTOR_SIZE) /\
    (forall l, l < db \/ db + MEMORY_DB_TOTAL_SECTORS <= l ->
       bd_sec (ah_dev s') l = bd_sec (ah_dev s) l) /\ s' = set_dev (ah_dev s') s.
Proof.
  intros Hon (h & Hr & Hsy). pose proof Hon as [((Hport & Hdb & Hssd) & Hu & Hcap) Hok].
  destruct (wp_run_ok erase_memory_db
    (fun _ s' => db_online s' db /\ db_holds s' db [] /\
    (forall l, db + 2 <= l < db + MEMORY_DB_TOTAL_SECTORS ->
       bd_sec (ah_dev s') l = zeros SECTOR_SIZE) /\
    (forall l, l < db \/ db + MEMORY_DB_TOTAL_SECTORS <= l ->
       bd_sec (ah_dev s') l = bd_sec (ah_dev s) l) /\ s' = set_dev (ah_dev s') s) s)
    as (s' & [] & Hrun & Hpost); [|eauto].
  rewrite <- (set_dev_id s) at 1.
  apply (wp_erase_memory_db True s Hport db (ah_dev s) h log); try done.
  - apply online_good; [done|]. by eapply rep_nonneg.
  - intros d' Hd' (Hr' & Hs' & Hc & Hz & Ho). split; [|split; [|done]].
    + apply online_set_dev; [done|done|by apply Hd'].
    + eexists. split; [exact Hr'|exact Hs'].
Qed.

(** A boot on a working device, from the log it finds. *)
Lemma ensure_runs s db ms ml log :
  db_online s db -> db_addressable db -> u64 ms -> u64 ml ->
  map_pointer_safe db (ah_dev s) ->
  boot_log (power_cycle s) db (ah_dev s) log ->
  exists s', ensure_memory_db db ms ml (power_cycle s) = (s', Ok tt) /\
    db_online s' db /\ db_holds s' db log /\ boot_frame db (ah_dev s) (ah_dev s') /\
    s' = set_dev (ah_dev s') s.
Proof.
  intros Hon Ha Hms Hml Hmap Hlog. pose proof Hon as [((Hport & Hdb & Hssd) & Hu & Hcap) Hok].
  destruct (wp_run_ok (ensure_memory_db db ms ml)
    (fun _ s' => db_online s' db /\ db_holds s' db log /\ boot_frame db (ah_dev s) (ah_dev s') /\
       s' = set_dev (ah_dev s') s) (power_cycle s)) as (s' & [] & Hrun & Hpost); [|eauto].
  rewrite <- (set_dev_id (power_cycle s)) at 1.
  apply (wp_ensure_memory_db (power_cycle s) Hport db Ha) with (log := log);
    [by left| |exact Hssd|exact Hu|exact Hcap|exact Hms|exact Hml|exact Hmap|exact Hlog|].
  - apply (online_good s db Hon), Ha.
  - intros d' Hd' (Hf & Hrep).
    assert (set_dev d' (registered (power_cycle s) db) = set_dev d' s) as ->
      by (unfold set_dev, registered, power_cycle, set_MEMORY_DB_HEADER_LBA; simpl; by rewrite Hdb).
    split; [|split; [exact Hrep|split; [exact Hf|reflexivity]]].
    apply online_set_dev; [done|apply Hf|by apply Hd'].
Qed.

Lemma rep_map_lba d db h log :
  db_rep d db h log -> h_map_lba (header_of (bd_sec d db)) = db + 1.
Proof.
  intros Hr. rewrite <- (decode_header_of _ h); [|apply bd_sec_len|apply Hr].
  by destruct (rep_layout _ _ _ _ Hr) as (_ & _ & ? & _).
Qed.

Lemma rep_pointer_safe s db h log :
  db_online s db -> db_rep (ah_dev s) db h log -> map_pointer_safe db (ah_dev s).
Proof.
  intros [(_ & _ & Hcap) _] Hr. left.
  rewrite (rep_map_lba _ _ h log) by done. pose proof (rep_nonneg _ _ _ _ Hr). dblia.
Qed.

(** A boot from a representation whose header passes the boot-time checks. *)
Lemma reboot_keeps s db h log ms ml :
  db_online s db -> db_rep (ah_dev s) db h log ->
  h_next_append_lba h <= db + MEMORY_DB_TOTAL_SECTORS -> u64 ms -> u64 ml ->
  exists s', ensure_memory_db db ms ml (power_cycle s) = (s', Ok tt) /\
    db_online s' db /\ db_holds s' db log /\ s' = set_dev (ah_dev s') s.
Proof.
  intros Hon Hr Hn Hms Hml. pose proof Hon as [((Hport & _) & _ & Hcap) _].
  destruct (ensure_runs s db ms ml log) as (s' & Hrun & ? & ? & _ & ?);
    [done|apply Hr|done|done|by eapply rep_pointer_safe| |eauto 10].
  by apply (boot_log_rep (power_cycle s) Hport db (rep_addr _ _ _ _ Hr) _ h).
Qed.

Lemma boot_log_drops s db d h log :
  db_rep d db h log -> db + MEMORY_DB_TOTAL_SECTORS < h_next_append_lba h -> boot_log s db d [].
Proof.
  intros Hr Hn. unfold boot_log. rewrite <- (decode_header_of _ h) by (apply bd_sec_len || apply Hr).
  replace (keepable db h) with false; [done|]. symmetry. unfold keepable.
  guard_false (h_next_append_lba h <=? db + MEMORY_DB_TOTAL_SECTORS). by rewrite andb_false_r.
Qed.

(** A boot from one whose cursor lies past the checked region formats afresh. *)
Lemma reboot_drops s db h log ms ml :
  db_online s db -> db_rep (ah_dev s) db h log ->
  db + MEMORY_DB_TOTAL_SECTORS < h_next_append_lba h -> u64 ms -> u64 ml ->
  exists s', ensure_memory_db db ms ml (power_cycle s) = (s', Ok tt) /\
    db_online s' db /\ db_holds s' db [] /\ s' = set_dev (ah_dev s') s.
Proof.
  intros Hon Hr Hn Hms Hml. pose proof (rep_addr _ _ _ _ Hr) as Ha.
  destruct (ensure_runs s db ms ml []) as (s' & ? & ? & ? & _ & ?);
    [done|done|done|done|by eapply rep_pointer_safe|by eapply boot_log_drops|eauto 10].
Qed.

(** The log lies inside the region checked at boot. *)
Definition log_inside log : Prop :=
  1 + MEMORY_DB_MAP_SECTORS + log_sectors log <= MEMORY_DB_TOTAL_SECTORS.

#[export] Instance log_inside_dec log : Decision (log_inside log).
Proof. unfold log_inside. apply _. Defined.

(** What a reboot leaves of a log: the data area reaches 33 sectors past the region
    the boot accepts, and a log that has grown into them is replaced. *)
Definition boot_kept log : list bytes := if bool_decide (log_inside log) then log else [].

Lemma boot_kept_inside log : log_inside log -> boot_kept log = log.
Proof. intros. unfold boot_kept. by rewrite bool_decide_eq_true_2. Qed.

Lemma boot_log_holds s db d h log :
  FIRST_SATA_PORT s <> None -> db_rep d db h log -> db_synced db h log ->
  boot_log s db d (boot_kept log).
Proof.
  intros Hport Hr [Hs _]. unfold boot_kept.
  destruct (bool_decide (log_inside log)) eqn:Hin;
    [apply bool_decide_eq_true in Hin|apply bool_decide_eq_false in Hin]; unfold log_inside in Hin.
  - apply (boot_log_rep s Hport db (rep_addr _ _ _ _ Hr) d h); [done|]. rewrite Hs. dblia.
  - eapply boot_log_drops; [done|]. rewrite Hs. dblia.
Qed.

Lemma reboot_runs s db log ms ml :
  db_online s db -> db_holds s db log -> u64 ms -> u64 ml ->
  exists s', ensure_memory_db db ms ml (power_cycle s) = (s', Ok tt) /\
    db_online s' db /\ db_holds s' db (boot_kept log) /\ s' = set_dev (ah_dev s') s.
Proof.
  intros Hon (h & Hr & Hs) Hms Hml. pose proof Hon as [((Hport & _) & _) _].
  destruct (ensure_runs s db ms ml (boot_kept log)) as (s' & ? & ? & ? & _ & ?);
    [done|apply Hr|done|done|by eapply rep_pointer_safe|by eapply boot_log_holds|eauto 10].
Qed.

(** ** Operation sequences against the abstract log *)

Inductive db_op :=
| OpAppend (p : bytes)
| OpRead (buf_len : Z)
| OpErase
| OpReboot (model_start_lba model_last_lba : Z).

Inductive db_out :=
| OutCount (n : Z)
| OutBytes (b : bytes) (n : Z)
| OutUnit.

Definition run_op (db : Z) (op : db_op) : AM D db_out :=
  match op with
  | OpAppend p => let! n := append_memory_db (Some p) in sret (OutCount n)
  | OpRead n => let! (b, c) := read_memory_db false n in sret (OutBytes b c)
  | OpErase => let! _ := erase_memory_db in sret OutUnit
  | OpReboot ms ml =>
      let! _ := smodify power_cycle in
      let! _ := ensure_memory_db db ms ml in sret OutUnit
  end.

(** The operations one after the other, each with its own answer: an error of one
    does not stop the next. *)
Fixpoint run_ops (db : Z) (ops : list db_op) (s : Ahci D) : Ahci D * list (outcome unit db_out) :=
  match ops with
  | [] => (s, [])
  | op :: ops =>
      let '(s, o) := run_op db op s in let '(s, os) := run_ops db ops s in (s, o :: os)
  end.

(** The arguments are machine words. *)
Definition op_args (op : db_op) : Prop :=
  match op with
  | OpAppend p => zlen p <= U64_MAX
  | OpRead n => u64 n
  | OpErase => True
  | OpReboot ms ml => u64 ms /\ u64 ml
  end.

(** A free map entry and enough free sectors of the data area. *)
Definition has_room log p : bool :=
  (zlen log <? MEMORY_DB_MAP_MAX_ENTRIES)
  && (log_sectors log + entry_sectors p <=? MEMORY_DB_TOTAL_SECTORS).

(** The abstract log: what each operation answers and leaves. *)
Definition abs_step log (op : db_op) : list bytes * outcome unit db_out :=
  match op with
  | OpAppend p =>
      if zlen p =? 0 then (log, Ok (OutCount 0))
      else if has_room log p then (log ++ [p], Ok (OutCount (zlen p)))
      else (log, Err tt)
  | OpRead n => let b := ztake n (concat log) in (log, Ok (OutBytes b (zlen b)))
  | OpErase => ([], Ok OutUnit)
  | OpReboot _ _ => (boot_kept log, Ok OutUnit)
  end.

Fixpoint abs_run log (ops : list db_op) : list bytes * list (outcome unit db_out) :=
  match ops with
  | [] => (log, [])
  | op :: ops =>
      let '(log, o) := abs_step log op in let '(log, os) := abs_run log ops in (log, o :: os)
  end.

Lemma holds_eq s s' db log :
  dev_eq (ah_dev s) (ah_dev s') -> db_holds s db log -> db_holds s' db log.
Proof. intros He (h & Hr & Hs). exists h. by rewrite <- He. Qed.

(** A working database whose whole data area is on the disk. *)
Definition db_roomy s db : Prop := db_online s db /\ data_end db <= bd_cap (ah_dev s).

Lemma has_room_spec s db log p :
  db_roomy s db -> has_room log p = true <-> append_room db log p (ah_dev s).
Proof.
  intros [_ Hend]. pose proof (entry_sectors_spec p). pose proof (log_sectors_nonneg log).
  unfold has_room, append_room. rewrite andb_true_iff, Z.ltb_lt, Z.leb_le. split.
  - intros [??]. split_and!; [done|dblia|done|dblia].
  - by intros (?&_&?&_).
Qed.

(** An append on a working device for which there is no room. *)
Lemma append_full_fails s db log p :
  db_roomy s db -> db_holds s db log -> 0 < zlen p <= U64_MAX -> has_room log p = false ->
  exists s', append_memory_db (Some p) s = (s', Err tt) /\ db_roomy s' db /\ db_holds s' db log.
Proof.
  intros Hroomy (h & Hr & Hsy) Hp Hno. pose proof Hroomy as [Hon Hend].
  pose proof Hon as [((Hport & Hdb & Hssd) & Hu & Hcap) Hok].
  assert (~ append_room db log p (ah_dev s)) as Hno'
    by (intros Hx; apply (has_room_spec s) in Hx; [congruence|done]).
  assert (wp (append_memory_db (Some p)) (fun _ _ => False)
    (fun _ s' => db_roomy s' db /\ db_holds s' db log) s) as Hwp.
  { rewrite <- (set_dev_id s) at 1.
    apply (wp_append_any True s Hport db (ah_dev s) h log); try done.
    - apply online_good; [done|]. by eapply rep_nonneg.
    - intros _. by left.
    - intros d' _ _ ? ? ? _. apply Hno'. unfold append_room. split_and!; try done. dblia.
    - intros d' Href Hc _. destruct (Href I) as (Hgood & _ & Hr').
      split; [|exists h; done]. split; [|simpl; lia].
      apply online_set_dev; [done|done|]. by destruct (Hgood I). }
  apply wp_run in Hwp as [(s' & a & Hrun & [])|(s' & [] & Hrun & ? & ?)]. eauto.
Qed.

Lemma run_op_refines s db log op :
  db_roomy s db -> db_holds s db log -> op_args op ->
  exists s', run_op db op s = (s', snd (abs_step log op)) /\ db_roomy s' db /\
    db_holds s' db (fst (abs_step log op)).
Proof.
  intros Hroomy Hh Hargs. pose proof Hroomy as [Hon Hend].
  pose proof Hon as [((Hport & Hdb & Hssd) & _ & Hcap) _].
  assert (forall s', db_online s' db -> bd_cap (ah_dev s') = bd_cap (ah_dev s) -> db_roomy s' db) as Hrm
    by (intros s' ? Hc; split; [done|lia]).
  assert (forall s', db_online s' db -> SSD_SECTOR_COUNT s' = SSD_SECTOR_COUNT s -> db_roomy s' db) as Hrm'.
  { intros s' Ho' Hc. apply Hrm; [done|]. destruct Ho' as [((_ & _ & Hx) & _) _]. congruence. }
  destruct op as [p|n| |ms ml]; simpl in Hargs |- *.
  - destruct (zlen p =? 0) eqn:Hp0; bool_to_prop.
    { exists s. split; [|done]. unfold append_memory_db, sbind, sgets. rewrite Hdb, Hp0. done. }
    pose proof (zlen_nonneg p). destruct (has_room log p) eqn:Hrm2.
    + destruct (append_runs s db log p) as (s' & Hrun & ? & ? & Hpc); [done|done|lia|by apply has_room_spec|].
      exists s'. rewrite (sbind_ok _ _ _ _ _ Hrun). split_and!; try done.
      apply Hrm'; [done|]. apply (f_equal SSD_SECTOR_COUNT) in Hpc. exact Hpc.
    + destruct (append_full_fails s db log p) as (s' & Hrun & ? & ?); [done|done|lia|done|].
      exists s'. split; [|done]. unfold sbind. by rewrite Hrun.
  - destruct (decide (n = 0)) as [->|].
    { exists s. split; [|done]. unfold read_memory_db, sbind, sgets. by rewrite Hdb. }
    destruct (read_runs s db log n) as (s' & Hrun & ? & He & _); [done|done|ulia| |].
    { destruct Hh as (h & Hr & _). pose proof (rep_fits _ _ _ _ Hr). dblia. }
    exists s'. rewrite (sbind_ok _ _ _ _ _ Hrun). split_and!; [done| |by eapply holds_eq].
    apply Hrm; [done|apply He].
  - destruct (erase_runs s db log) as (s' & Hrun & ? & ? & _ & _ & Hs'); [done|done|].
    exists s'. rewrite (sbind_ok _ _ _ _ _ Hrun). split_and!; try done.
    apply Hrm'; [done|by rewrite Hs'].
  - destruct Hargs as [Hms Hml].
    destruct (reboot_runs s db log ms ml) as (s' & Hrun & Hon' & ? & Hs'); [done..|].
    exists s'. rewrite (sbind_ok _ _ s (power_cycle s) tt) by done.
    rewrite (sbind_ok _ _ _ _ _ Hrun). split_and!; try done. apply Hrm'; [done|by rewrite Hs'].
Qed.

(** C1: the memory database refines an append-only log, full and empty cases included.
    On a working disk that holds the whole data area, any sequence of appends, reads,
    erases and reboots (arguments any 64-bit values, payloads of any length) answers
    operation by operation exactly what the abstract list of payloads answers: an empty
    append 0 without effect, an append with a free map entry and free sectors its length,
    any other append an error that leaves the log as it was; a read the first bytes of
    the concatenation and their count; an erase the empty log; a reboot the same log, or
    the empty one when the log has grown past the region the boot accepts.  The disk
    represents the abstract log at the end. *)
Theorem run_ops_refines s db log ops :
  db_roomy s db -> db_holds s db log -> Forall op_args ops ->
  exists s', run_ops db ops s = (s', snd (abs_run log ops)) /\ db_roomy s' db /\
    db_holds s' db (fst (abs_run log ops)).
Proof.
  revert s log. induction ops as [|op ops IH]; intros s log Hon Hh Hargs; [by exists s|].
  apply Forall_cons in Hargs as [Hop Hargs].
  destruct (run_op_refines s db log op) as (s1 & Hr1 & Hon1 & Hh1); [done..|].
  destruct (IH s1 (fst (abs_step log op))) as (s2 & Hr2 & ? & ?); [done..|].
  exists s2. simpl. rewrite Hr1. destruct (abs_step log op) as [log1 o]. simpl in *. rewrite Hr2.
  destruct (abs_run log1 ops). done.
Qed.

(** ** Failing devices *)

Lemma append_outcomes s db h log p :
  db_attached s db -> db_rep (ah_dev s) db h log -> db_synced db h log -> 0 < zlen p <= U64_MAX ->
  exists s', s' = set_dev (ah_dev s') s /\ db_attached s' db /\
    ((append_memory_db (Some p) s = (s', Ok (zlen p)) /\
      db_rep (ah_dev s') db (appended_header db h log p) (log ++ [p])) \/
     (append_memory_db (Some p) s = (s', Err tt) /\ append_aborted db h log p (ah_dev s'))).
Proof.
  intros Hat Hr Hsy Hp. pose proof Hat as ((Hport & Hdb & Hssd) & Hu & Hcap).
  assert (wp (append_memory_db (Some p))
    (fun a s' => a = zlen p /\ s' = set_dev (ah_dev s') s /\ db_attached s' db /\
       db_rep (ah_dev s') db (appended_header db h log p) (log ++ [p]))
    (fun _ s' => s' = set_dev (ah_dev s') s /\ db_attached s' db /\
       append_aborted db h log p (ah_dev s')) s) as Hwp.
  { rewrite <- (set_dev_id s) at 1.
    apply (wp_append_memory_db False s Hport db (ah_dev s) h log); try done.
    - intros d' _ Hc Hr'. split_and!; try done. by apply attached_set_dev.
    - intros d' _ Hc Hab. split_and!; try done. by apply attached_set_dev. }
  apply wp_run in Hwp as [(s' & a & Hrun & -> & ? & ? & ?)|(s' & [] & Hrun & ? & ? & ?)]; eauto 10.
Qed.

(** C2: an append is atomic on any device, failing ones included.  Whatever transfers
    fail and whatever subset of their sectors they stored, the call neither panics nor
    loops; [Ok] reports the payload's length and the payload is in the log; after [Err]
    the disk holds the log with or without the whole payload, never a damaged one. *)
Theorem append_memory_db_atomic s db log p :
  db_attached s db -> db_holds s db log -> 0 < zlen p <= U64_MAX ->
  exists s', db_attached s' db /\
    ((append_memory_db (Some p) s = (s', Ok (zlen p)) /\ db_holds s' db (log ++ [p])) \/
     (append_memory_db (Some p) s = (s', Err tt) /\
      exists h log', db_rep (ah_dev s') db h log' /\ (log' = log \/ log' = log ++ [p]))).
Proof.
  intros Hat (h & Hr & Hsy) Hp.
  destruct (append_outcomes s db h log p) as (s' & _ & Hat' & Hcase); [done..|].
  exists s'. split; [done|]. destruct Hcase as [[Hrun Hr']|[Hrun Hab]]; [left|right].
  - split; [done|]. eexists. split; [done|]. apply appended_synced.
  - split; [done|]. destruct Hab as [?|[?|?]]; eauto 10.
Qed.

Lemma log_inside_app log p : log_inside (log ++ [p]) -> log_inside log.
Proof.
  unfold log_inside. rewrite log_sectors_app. simpl. pose proof (entry_sectors_nonneg p). lia.
Qed.

(** C3: crash recovery.  Cut the power at any point of an append of any payload to any
    log; at the next boot, on a device with those contents that works again,
    [ensure_memory_db] succeeds and the database holds the old log or the old log with
    the payload, and the latter whenever the append had returned [Ok].  The one
    exception is a log that the payload pushes past the region the boot accepts
    ([log_inside]): then the boot may also start afresh with the empty log. *)
Theorem append_crash_recovery s s1 d2 db log p ms ml r :
  db_attached s db -> db_holds s db log -> 0 < zlen p <= U64_MAX -> u64 ms -> u64 ml ->
  append_memory_db (Some p) s = (s1, r) -> dev_eq (ah_dev s1) d2 -> bd_ok d2 ->
  exists s2 log', ensure_memory_db db ms ml (power_cycle (set_dev d2 s1)) = (s2, Ok tt) /\
    db_online s2 db /\ db_holds s2 db log' /\
    (log' = log ++ [p] \/ (log' = log /\ r = Err tt) \/
     (log' = [] /\ ~ log_inside (log ++ [p]))).
Proof.
  intros Hat (h & Hr & Hsy) Hp Hms Hml Hrun He Hok.
  destruct (append_outcomes s db h log p) as (s1' & _ & Hat' & Hcase); [done..|].
  assert (s1' = s1) as -> by (destruct Hcase as [[??]|[??]]; congruence).
  assert (db_online (set_dev d2 s1) db) as Hon
    by (split; [apply attached_set_dev; [done|apply He]|done]).
  assert (forall h', h_next_append_lba h' <= db + MEMORY_DB_TOTAL_SECTORS \/
    db + MEMORY_DB_TOTAL_SECTORS < h_next_append_lba h') as Hsplit by (intros; lia).
  assert (forall h' log', db_rep (ah_dev s1) db h' log' -> db_rep d2 db h' log') as Hrep2
    by (intros; by rewrite <- He).
  assert (forall h' log', db_rep (ah_dev s1) db h' log' ->
    (db + MEMORY_DB_TOTAL_SECTORS < h_next_append_lba h' -> ~ log_inside (log ++ [p])) ->
    exists s' log2, ensure_memory_db db ms ml (power_cycle (set_dev d2 s1)) = (s', Ok tt) /\
    db_online s' db /\ db_holds s' db log2 /\
    (log2 = log' \/ (log2 = [] /\ ~ log_inside (log ++ [p])))) as Hboot.
  { intros h' log' Hr' Hover. destruct (Hsplit h').
    - destruct (reboot_keeps (set_dev d2 s1) db h' log' ms ml) as (s' & ? & ? & ? & _); auto 10.
      exists s', log'. auto 10.
    - destruct (reboot_drops (set_dev d2 s1) db h' log' ms ml) as (s' & ? & ? & ? & _); auto 10.
      exists s', []. auto 10. }
  assert (db + MEMORY_DB_TOTAL_SECTORS < h_next_append_lba h -> ~ log_inside (log ++ [p])) as Hn1.
  { destruct Hsy as [-> _]. intros Hov Hin. apply log_inside_app in Hin. unfold log_inside in Hin. dblia. }
  assert (db + MEMORY_DB_TOTAL_SECTORS < h_next_append_lba (appended_header db h log p) ->
    ~ log_inside (log ++ [p])) as Hn2.
  { unfold log_inside. rewrite log_sectors_app. simpl. intros ??. dblia. }
  destruct Hcase as [[Hr1 Hrep]|[Hr1 [Hrep|[Hrep|Hrep]]]];
    (destruct (Hboot _ _ Hrep ltac:(done)) as (s2 & log2 & ? & ? & ? & Hlog2); exists s2, log2;
     split_and!; [done..|]; destruct Hlog2 as [->|?]; [|tauto]); auto.
  right. left. split; [done|]. congruence.
Qed.

(** Reading never changes the database and never returns wrong data.  On any device
    the call either returns the first [n] bytes of the concatenated payloads, with their
    exact count, or an error; the disk contents are untouched either way. *)
Theorem read_memory_db_exact s db log n :
  db_attached s db -> db_holds s db log -> 0 < n <= U64_MAX ->
  exists s', dev_eq (ah_dev s) (ah_dev s') /\ db_holds s' db log /\
    (read_memory_db false n s
       = (s', Ok (ztake n (concat log), zlen (ztake n (concat log)))) \/
     read_memory_db false n s = (s', Err tt)).
Proof.
  intros Hat (h & Hr & Hsy) Hn. pose proof Hat as ((Hport & Hdb & Hssd) & Hu & Hcap).
  assert (wp (read_memory_db false n)
    (fun a s' => a = (ztake n (concat log), zlen (ztake n (concat log))) /\
       dev_eq (ah_dev s) (ah_dev s'))
    (fun _ s' => dev_eq (ah_dev s) (ah_dev s')) s) as Hwp.
  { rewrite <- (set_dev_id s) at 1.
    apply (wp_read_memory_db False s Hport db (ah_dev s) h log); try done. ulia. }
  apply wp_run in Hwp as [(s' & a & Hrun & -> & He)|(s' & [] & Hrun & He)]; exists s';
    (split_and!; [done|eapply holds_eq; [done|by exists h]|]); auto.
Qed.

(** C4: erasing on a working device empties the log and wipes it: every sector of the
    region but the two rewritten headers is zero afterwards, and no sector outside the
    region changes. *)
Theorem erase_memory_db_wipes s db log :
  db_online s db -> db_holds s db log ->
  exists s', erase_memory_db s = (s', Ok tt) /\ db_online s' db /\ db_holds s' db [] /\
    (forall l, db + 2 <= l < db + MEMORY_DB_TOTAL_SECTORS ->
       bd_sec (ah_dev s') l = zeros SECTOR_SIZE) /\
    (forall l, l < db \/ db + MEMORY_DB_TOTAL_SECTORS <= l ->
       bd_sec (ah_dev s') l = bd_sec (ah_dev s) l).
Proof.
  intros Hon Hh. destruct (erase_runs s db log Hon Hh) as (s' & ? & ? & ? & ? & ? & _). eauto 10.
Qed.

(** C5: booting establishes the database from any disk contents.  On a working device
    large enough for the region, [ensure_memory_db] succeeds whatever the sectors hold,
    the result is a consistent database, and no sector outside the header and the map
    is written.  The code reads the sector that the old header's bytes name as the map
    before it checks them: that sector is on the disk, or the device stays usable after
    a read past its end ([map_pointer_safe]). *)
Theorem ensure_memory_db_establishes s db ms ml :
  db_online s db -> db_addressable db -> u64 ms -> u64 ml -> map_pointer_safe db (ah_dev s) ->
  exists s' log, ensure_memory_db db ms ml (power_cycle s) = (s', Ok tt) /\
    db_online s' db /\ db_holds s' db log /\ boot_frame db (ah_dev s) (ah_dev s').
Proof.
  intros Hon Ha Hms Hml Hmap. pose proof Hon as [((Hport & _) & _ & _) _].
  destruct (boot_log_exists (power_cycle s) Hport db Ha (ah_dev s)) as [log Hlog].
  destruct (ensure_runs s db ms ml log) as (s' & ? & ? & ? & ? & _); [done..|]. eauto 10.
Qed.

(** The log is lost when it grows into the last 33 sectors.  An append may fill the
    data area up to [data_lba + total_sectors], 33 sectors past the region that
    [ensure_memory_db] checks: such an append returns [Ok] and the payload reads back,
    but at the next boot the header is rejected and a fresh, empty database replaces it. *)
Theorem append_overhang_lost s db log p ms ml :
  db_online s db -> db_holds s db log -> 0 < zlen p -> append_room db log p (ah_dev s) ->
  MEMORY_DB_TOTAL_SECTORS < 1 + MEMORY_DB_MAP_SECTORS + log_sectors log + entry_sectors p ->
  u64 ms -> u64 ml ->
  exists s1 s2, append_memory_db (Some p) s = (s1, Ok (zlen p)) /\ db_holds s1 db (log ++ [p]) /\
    ensure_memory_db db ms ml (power_cycle s1) = (s2, Ok tt) /\ db_holds s2 db [].
Proof.
  intros Hon Hh Hp Hroom Hover Hms Hml.
  destruct (append_runs s db log p) as (s1 & Hrun & Hon1 & Hh1 & _); [done..|].
  destruct (reboot_runs s1 db (log ++ [p]) ms ml) as (s2 & ? & ? & Hh2 & _); [done..|].
  unfold boot_kept in Hh2. rewrite bool_decide_eq_false_2 in Hh2; [eauto 10|].
  unfold log_inside. rewrite log_sectors_app. simpl. lia.
Qed.

(** One failed read at boot erases the history.  When the read of the header sector
    fails once, [ensure_memory_db] takes the database for absent and formats a fresh one
    over it, returning [Ok]: the log it held is gone although every sector was intact. *)
Theorem ensure_read_fault_formats s d1 db log ms ml :
  db_attached s db -> db_holds s db log -> u64 ms -> u64 ml ->
  bd_read (ah_dev s) db 1 = (d1, None) -> bd_ok d1 ->
  exists s', ensure_memory_db db ms ml (power_cycle s) = (s', Ok tt) /\ db_holds s' db [].
Proof.
  intros Hat (h & Hr & _) Hms Hml Hrd Hok. pose proof Hat as ((Hport & Hdb & Hssd) & Hu & Hcap).
  pose proof (rep_addr _ _ _ _ Hr) as Ha. pose proof Ha as [Ha1 Ha2].
  destruct (bd_read_frame _ _ _ _ _ Hrd) as [Hsec Hc].
  destruct (wp_run_ok (ensure_memory_db db ms ml) (fun _ s' => db_holds s' db []) (power_cycle s))
    as (s' & [] & Hrun & Hpost); [|eauto].
  unfold ensure_memory_db. apply wp_bind, wp_gets. cbn [power_cycle SSD_SECTOR_COUNT]. rewrite Hssd.
  apply wp_bind. eapply wp_opt_some; [apply checked_add64_small; dblia|].
  guard_false (bd_cap (ah_dev s) <? db + MEMORY_DB_TOTAL_SECTORS).
  rewrite (sat_add64_small db 1), sat_add64_small by dblia. fold (data_start db).
  replace (db + MEMORY_DB_TOTAL_SECTORS <=? data_start db) with false by (symmetry; dblia).
  apply wp_bind, wp_catch, (wp_err _ _ _ _ (set_dev d1 (power_cycle s)) tt).
  { unfold read_sectors. simpl. destruct (FIRST_SATA_PORT s) eqn:Hp; [|done]. by rewrite Hrd. }
  cbn beta iota. apply wp_bind, wp_ret. rewrite <- Hc.
  apply (wp_ensure_fresh (power_cycle s) Hport db Ha); [by left| |by rewrite Hc|done|done|].
  - intros _. split_and!; [done|done|rewrite Hc; dblia].
  - intros d' _ (_ & Hx). exact Hx.
Qed.
End online.

Lemma memdisk_survives (d : MemDisk) lba : survives_read d lba.
Proof.
  intros d1 d2 r _ [Hb Hf] Hrd. cbn in Hrd. unfold md_read in Hrd. rewrite Hf in Hrd.
  destruct (md_in_range d1 lba 1); injection Hrd as <- _; by split.
Qed.

(** ** A concrete database

    A disk of 200000 sectors with an empty database at sector 100, used to
    instantiate the theorems above. *)
Module Demo.
Definition header : MemoryDbHeader :=
  mkMemoryDbHeader MEMORY_DB_MAGIC MEMORY_DB_VERSION SECTOR_SIZE 100 133 MEMORY_DB_TOTAL_SECTORS
    133 199999 0 0 101 0 MEMORY_DB_MAP_SECTORS.

Definition disk (budget : option nat) (faults : nat) : MemDisk :=
  mkMemDisk 200000 (<[100 := encode_header header]> (<[101 := encode_map_header 0]> ∅)) budget faults.

Definition state (budget : option nat) (faults : nat) : Ahci MemDisk :=
  mkAhci (disk budget faults) (Some 0) None (Some 200000) (Some 100).

Lemma attached budget faults : db_attached (state budget faults) 100.
Proof. split_and!; done. Qed.

Lemma online : db_online (state None 0) 100.
Proof. split; [apply attached|done]. Qed.

Lemma layout : header_layout header 100.
Proof. unfold header_layout, header_wf. simpl. split_and!; done. Qed.

Lemma holds budget faults : db_holds (state budget faults) 100 [].
Proof.
  exists header. apply rep_empty; [done|apply layout|done|done|..];
    cbn [bd_sec MemDisk_BlockDevSpec]; unfold md_sec; cbn [ah_dev state disk md_map].
  - rewrite lookup_insert_eq. apply pad_sector_id. by apply zlen_encode_header.
  - rewrite lookup_insert_ne, lookup_insert_eq by done. apply pad_sector_id, zlen_encode_map_header.
Qed.

Definition note : bytes := bstr "[RAMQA v1 q=1 a=1] a b".

(** Three writes, then the power is gone: the data, the map entry and the map
    header are stored, the header is not. *)
Definition crashed : Ahci MemDisk * outcome unit Z := append_memory_db (Some note) (state (Some 3%nat) 0).
Definition restored : MemDisk :=
  let d := ah_dev (fst crashed) in mkMemDisk (md_cap d) (md_map d) None 0.
End Demo.

(** Two notes around a reboot, an empty append, reads and an erase. *)
Lemma run_ops_refines_witness :
  let ops := [OpAppend Demo.note; OpReboot 0 0; OpAppend []; OpAppend Demo.note; OpRead 30; OpErase;
              OpRead 0] in
  exists s', run_ops 100 ops (Demo.state None 0)
     = (s', [Ok (OutCount 22); Ok OutUnit; Ok (OutCount 0); Ok (OutCount 22);
             Ok (OutBytes (bstr "[RAMQA v1 q=1 a=1] a b[RAMQA v") 30); Ok OutUnit;
             Ok (OutBytes [] 0)]) /\ db_roomy s' 100 /\ db_holds s' 100 [].
Proof.
  apply (run_ops_refines (Demo.state None 0) 100 []
    [OpAppend Demo.note; OpReboot 0 0; OpAppend []; OpAppend Demo.note; OpRead 30; OpErase; OpRead 0]);
    [split; [apply Demo.online|by vm_compute]|apply Demo.holds|].
  repeat (constructor; [by vm_compute|]). constructor.
Defined.

Lemma append_memory_db_atomic_witness :
  exists s', db_attached s' 100 /\
    ((append_memory_db (Some Demo.note) (Demo.state (Some 2%nat) 0) = (s', Ok (zlen Demo.note)) /\
      db_holds s' 100 ([] ++ [Demo.note])) \/
     (append_memory_db (Some Demo.note) (Demo.state (Some 2%nat) 0) = (s', Err tt) /\
      exists h log', db_rep (ah_dev s') 100 h log' /\ (log' = [] \/ log' = [] ++ [Demo.note]))).
Proof.
  apply (append_memory_db_atomic (Demo.state (Some 2%nat) 0) 100 [] Demo.note);
    [apply Demo.attached|apply Demo.holds|by vm_compute].
Defined.

Lemma append_crash_recovery_witness :
  snd Demo.crashed = Err tt /\
  exists s2 log', ensure_memory_db 100 0 0 (power_cycle (set_dev Demo.restored (fst Demo.crashed)))
      = (s2, Ok tt) /\ db_online s2 100 /\ db_holds s2 100 log' /\
    (log' = [] ++ [Demo.note] \/ (log' = [] /\ snd Demo.crashed = Err tt) \/
     (log' = [] /\ ~ log_inside ([] ++ [Demo.note]))).
Proof.
  split; [by vm_compute|].
  apply (append_crash_recovery (Demo.state (Some 3%nat) 0) (fst Demo.crashed) Demo.restored 100 []
    Demo.note 0 0 (snd Demo.crashed));
    [apply Demo.attached|apply Demo.holds|by vm_compute|done|done|apply surjective_pairing|done|done].
Defined.

Lemma read_memory_db_exact_witness :
  exists s', dev_eq (ah_dev (Demo.state None 1)) (ah_dev s') /\ db_holds s' 100 [] /\
    (read_memory_db false 64 (Demo.state None 1)
       = (s', Ok (ztake 64 (concat []), zlen (ztake 64 (concat (@nil bytes))))) \/
     read_memory_db false 64 (Demo.state None 1) = (s', Err tt)).
Proof.
  apply (read_memory_db_exact (Demo.state None 1) 100 [] 64);
    [apply Demo.attached|apply Demo.holds|by vm_compute].
Defined.

Lemma erase_memory_db_wipes_witness :
  exists s', erase_memory_db (Demo.state None 0) = (s', Ok tt) /\ db_online s' 100 /\
    db_holds s' 100 [] /\
    (forall l, 100 + 2 <= l < 100 + MEMORY_DB_TOTAL_SECTORS ->
       bd_sec (ah_dev s') l = zeros SECTOR_SIZE) /\
    (forall l, l < 100 \/ 100 + MEMORY_DB_TOTAL_SECTORS <= l ->
       bd_sec (ah_dev s') l = bd_sec (ah_dev (Demo.state None 0)) l).
Proof. apply (erase_memory_db_wipes _ _ []); [apply Demo.online|apply Demo.holds]. Defined.

(** A sector of 0xff bytes where the header should be: the map pointer in it is far
    past the end of the disk. *)
Definition ff_sector : bytes := replicate 512 Byte.xff.

Lemma ensure_memory_db_establishes_witness :
  let s := mkAhci (mkMemDisk 200000 (<[100 := ff_sector]> ∅) None 0) (Some 0) None (Some 200000) (Some 100) in
  exists s' log, ensure_memory_db 100 0 0 (power_cycle s) = (s', Ok tt) /\
    db_online s' 100 /\ db_holds s' 100 log /\ boot_frame 100 (ah_dev s) (ah_dev s').
Proof.
  intros s. apply (ensure_memory_db_establishes s); [|by vm_compute..|right; apply memdisk_survives].
  split; [split_and!|]; done.
Defined.

Lemma append_overhang_lost_witness :
  let p := zeros ((MEMORY_DB_TOTAL_SECTORS - 32) * SECTOR_SIZE) in
  exists s1 s2, append_memory_db (Some p) (Demo.state None 0) = (s1, Ok (zlen p)) /\
    db_holds s1 100 ([] ++ [p]) /\
    ensure_memory_db 100 0 0 (power_cycle s1) = (s2, Ok tt) /\ db_holds s2 100 [].
Proof.
  set (n := (MEMORY_DB_TOTAL_SECTORS - 32) * SECTOR_SIZE).
  cut (forall p, zlen p = n -> entry_sectors p = 131040 ->
    exists s1 s2, append_memory_db (Some p) (Demo.state None 0) = (s1, Ok (zlen p)) /\
    db_holds s1 100 ([] ++ [p]) /\
    ensure_memory_db 100 0 0 (power_cycle s1) = (s2, Ok tt) /\ db_holds s2 100 []).
  { intros Hgen p. assert (zlen p = n) as Hl by (apply zlen_zeros; discriminate).
    apply Hgen; [exact Hl|]. unfold entry_sectors. rewrite Hl. reflexivity. }
  intros p Hl He. apply (append_overhang_lost (Demo.state None 0) 100 [] p);
    [apply Demo.online|apply Demo.holds|by rewrite Hl| |by rewrite He|done|done].
  unfold append_room. by rewrite Hl, He.
Defined.

Lemma ensure_read_fault_formats_witness :
  exists s', ensure_memory_db 100 0 0 (power_cycle (Demo.state None 1)) = (s', Ok tt) /\
    db_holds s' 100 [].
Proof.
  apply (ensure_read_fault_formats (Demo.state None 1) (Demo.disk None 0) 100 []);
    [apply Demo.attached|apply Demo.holds|done..].
Defined.
