(* ===== verification/AppText.v ===== *)
(** * Byte-string helpers of the RAM shell application

    bitapp/src/hermit_app.rs works on [&[u8]] slices: trimming, decimal
    numbers, substring search, case-insensitive comparison and word matching.
    A slice is the list of its bytes; [text[start..]] is a suffix. *)

From S2P Require Import Prelude.

(** ** Bytes *)


Definition is_ascii_digit (b : byte) : bool := (48 <=? bz b) && (bz b <=? 57).
Definition is_ascii_upper (b : byte) : bool := (65 <=? bz b) && (bz b <=? 90).
Definition is_ascii_lower (b : byte) : bool := (97 <=? bz b) && (bz b <=? 122).
Definition is_ascii_alphanumeric (b : byte) : bool :=
  is_ascii_digit b || is_ascii_upper b || is_ascii_lower b.
Definition to_ascii_lowercase (b : byte) : byte :=
  if is_ascii_upper b then byte.of_Z (bz b + 32) else b.

Definition is_word_byte (b : byte) : bool := is_ascii_alphanumeric b.

(** [b' ' | b'\t' | b'\r' | b'\n'] *)
Definition is_blank (b : byte) : bool :=
  (bz b =? 32) || (bz b =? 9) || (bz b =? 13) || (bz b =? 10).

Definition NL : byte := Byte.x0a.

Definition eq_ignore_ascii_case_byte (a b : byte) : bool :=
  bool_decide (to_ascii_lowercase a = to_ascii_lowercase b).

(** ** Iterators *)

Fixpoint take_while (f : byte -> bool) (l : bytes) : bytes :=
  match l with
  | [] => []
  | b :: l => if f b then b :: take_while f l else []
  end.
Fixpoint drop_while (f : byte -> bool) (l : bytes) : bytes :=
  match l with
  | [] => []
  | b :: l' => if f b then drop_while f l' else l
  end.

(** [iter().position(f)] *)
Fixpoint position (f : byte -> bool) (l : bytes) : option Z :=
  match l with
  | [] => None
  | b :: l => if f b then Some 0 else match position f l with Some i => Some (i + 1) | None => None end
  end.

(** [left.iter().zip(right).all(eq_ignore_ascii_case_byte)] *)
Fixpoint zip_all_eq_ignore_case (l r : bytes) : bool :=
  match l, r with
  | a :: l, b :: r => eq_ignore_ascii_case_byte a b && zip_all_eq_ignore_case l r
  | _, _ => true
  end.

(** [windows(n).any(f)] and [windows(n).position(f)], for [n > 0]. *)
Fixpoint windows_any (n : Z) (f : bytes -> bool) (l : bytes) : bool :=
  match l with
  | [] => false
  | _ :: l' => if n <=? zlen l then f (ztake n l) || windows_any n f l' else false
  end.
Fixpoint windows_position (n : Z) (f : bytes -> bool) (l : bytes) : option Z :=
  match l with
  | [] => None
  | _ :: l' =>
      if n <=? zlen l then
        if f (ztake n l) then Some 0
        else match windows_position n f l' with Some i => Some (i + 1) | None => None end
      else None
  end.

(** ** The helpers *)

Definition contains_case_insensitive (haystack needle : bytes) : bool :=
  if (zlen needle =? 0) || (zlen haystack <? zlen needle) then false
  else windows_any (zlen needle) (fun window => zip_all_eq_ignore_case window needle) haystack.

Definition eq_ignore_ascii_case_slice (l r : bytes) : bool :=
  (zlen l =? zlen r) && zip_all_eq_ignore_case l r.

(** The outer loop of [contains_word_sequence]; [text] is [text[start..]], and
    the index [word_index] is below [words.len()] at every test. *)
Fixpoint word_loop (fuel : nat) (words : list bytes) (text : bytes) (word_index : nat) : bool :=
  match fuel with
  | O => false
  | S fuel =>
      if zlen text =? 0 then false else
      let text := drop_while (fun b => negb (is_word_byte b)) text in
      let word := take_while is_word_byte text in
      let rest := drop_while is_word_byte text in
      let next := zdrop 1 rest in
      if (0 <? zlen word) && match words !! word_index with
                             | Some w => eq_ignore_ascii_case_slice word w | None => false end
      then
        let word_index := S word_index in
        if Nat.eqb word_index (length words) then true else word_loop fuel words next word_index
      else if 0 <? zlen word then
        word_loop fuel words next
          (match words with
           | w :: _ => if eq_ignore_ascii_case_slice word w then 1%nat else O
           | [] => O
           end)
      else word_loop fuel words next word_index
  end.

Definition contains_word_sequence (text : bytes) (words : list bytes) : bool :=
  match words with
  | [] => false
  | _ => word_loop (length text) words text O
  end.

(** Both loops of [trim_ascii]. *)
Definition trim_start (l : bytes) : bytes := drop_while is_blank l.
Definition trim_end (l : bytes) : bytes := rev (drop_while is_blank (rev l)).
Definition trim_ascii (bytes : bytes) : Prelude.bytes := trim_end (trim_start bytes).

Definition find_byte (l : bytes) (needle : byte) : option Z :=
  position (fun b => bool_decide (b = needle)) l.

Definition find_subslice (l needle : bytes) : option Z :=
  if (zlen needle =? 0) || (zlen l <? zlen needle) then None
  else windows_position (zlen needle) (fun window => bool_decide (window = needle)) l.

Fixpoint parse_decimal_loop (value : Z) (l : bytes) : option Z :=
  match l with
  | [] => Some value
  | b :: l =>
      if negb (is_ascii_digit b) then None else
      match checked_mul64 value 10 with
      | None => None
      | Some v =>
          match checked_add64 v (bz b - 48) with
          | None => None
          | Some v => parse_decimal_loop v l
          end
      end
  end.

Definition parse_decimal (l : bytes) : option Z :=
  match l with [] => None | _ => parse_decimal_loop 0 l end.

(** The two loops of [append_decimal]: the digits, least significant first, in
    a 20-byte array, then pushed in reverse.  Twenty digits hold any [usize]. *)
Fixpoint decimal_digits (fuel : nat) (value : Z) : bytes :=
  match fuel with
  | O => []
  | S fuel =>
      if 0 <? value then byte.of_Z (48 + value mod 10) :: decimal_digits fuel (value / 10) else []
  end.

Definition append_decimal (target : bytes) (value : Z) : bytes :=
  if value =? 0 then target ++ bstr "0" else target ++ rev (decimal_digits 20 value).

Definition c_string_len (buf : bytes) : Z :=
  match find_byte buf Byte.x00 with Some i => i | None => zlen buf end.

(** [build_raw_prompt]: the buffer after the call and the returned length. *)
Definition build_raw_prompt (prompt_buf prompt : bytes) : bytes * Z :=
  if zlen prompt_buf <=? zlen prompt then (prompt_buf, 0)
  else (splice (splice prompt_buf 0 prompt) (zlen prompt) [Byte.x00], zlen prompt).

(** [bytes.get(..n).filter(|h| h.eq_ignore_ascii_case(prefix)).map(trim rest)] *)
Definition strip_prefix_once (l prefix : bytes) : option bytes :=
  if (zlen prefix <=? zlen l) && eq_ignore_ascii_case_slice (ztake (zlen prefix) l) prefix
  then Some (trim_ascii (zdrop (zlen prefix) l)) else None.

(** [l.get(i).copied() == Some(b)] *)
Definition byte_at (l : bytes) (i : Z) : option byte := if i <? 0 then None else l !! Z.to_nat i.

Definition count_nonblank (l : bytes) : Z := zlen (filter (fun b => is_blank b = false) l).

Definition trim_trailing_orphan_one (l : bytes) : bytes :=
  let answer := trim_ascii l in
  let n := zlen answer in
  if n <? 4 then answer else
  let finish marker_start :=
    if marker_start =? 0 then answer else
    match byte_at answer (marker_start - 1) with
    | Some b =>
        if negb (is_blank b) then answer else
        let prefix := trim_ascii (ztake marker_start answer) in
        if 8 <=? count_nonblank prefix then prefix else answer
    | None => answer
    end in
  if bool_decide (byte_at answer (n - 1) = Some Byte.x31) then finish (n - 1)
  else if (2 <=? n) && bool_decide (byte_at answer (n - 1) = Some Byte.x2e)
          && bool_decide (byte_at answer (n - 2) = Some Byte.x31) then finish (n - 2)
  else answer.

Definition ram_shell_answer_bytes (generated : bytes) : bytes :=
  let answer := trim_ascii generated in
  let answer :=
    match strip_prefix_once answer (bstr "Answer:") with
    | Some s => s
    | None =>
        match strip_prefix_once answer (bstr "Final answer:") with
        | Some s => s
        | None => match strip_prefix_once answer (bstr "A:") with Some s => s | None => answer end
        end
    end in
  trim_trailing_orphan_one answer.

(** ** Decimal numbers *)

Lemma bz_bound b : 0 <= bz b < 256.
Proof. apply byte.unsigned_range. Qed.

Lemma bz_of_Z z : 0 <= z < 256 -> bz (byte.of_Z z) = z.
Proof. intros. unfold bz. rewrite byte.unsigned_of_Z. unfold byte.wrap. by apply Z.mod_small. Qed.

Lemma append_decimal_app target value :
  append_decimal target value = target ++ append_decimal [] value.
Proof. unfold append_decimal. by destruct (value =? 0). Qed.

Lemma decimal_digits_digit fuel v b : b ∈ decimal_digits fuel v -> is_ascii_digit b = true.
Proof.
  revert v. induction fuel as [|fuel IH]; intros v Hb; simpl in Hb; [by apply elem_of_nil in Hb|].
  destruct (0 <? v) eqn:Hv; [|by apply elem_of_nil in Hb].
  apply elem_of_cons in Hb as [->|Hb]; [|eauto].
  pose proof (Z.mod_pos_bound v 10 ltac:(lia)). unfold is_ascii_digit. rewrite bz_of_Z; lia.
Qed.

Lemma append_decimal_digit v b : b ∈ append_decimal [] v -> is_ascii_digit b = true.
Proof.
  unfold append_decimal. destruct (v =? 0); cbn [app].
  - intros Hb. apply list_elem_of_singleton in Hb as ->. done.
  - intros Hb%list_elem_of_In%in_rev%list_elem_of_In. by eapply decimal_digits_digit.
Qed.

Lemma decimal_digits_length fuel v : zlen (decimal_digits fuel v) <= Z.of_nat fuel.
Proof.
  revert v. induction fuel as [|fuel IH]; intros v; simpl; [done|].
  destruct (0 <? v); [|unfold zlen; simpl; lia]. rewrite zlen_cons. specialize (IH (v / 10)). lia.
Qed.

Lemma append_decimal_length v : zlen (append_decimal [] v) <= 20.
Proof.
  unfold append_decimal. destruct (v =? 0); [done|]. cbn [app]. unfold zlen. rewrite length_rev.
  apply (decimal_digits_length 20 v).
Qed.

Lemma append_decimal_nonempty v : 0 <= v -> append_decimal [] v <> [].
Proof.
  intros ?. unfold append_decimal. destruct (v =? 0) eqn:E; bool_to_prop; [done|].
  cbn [app decimal_digits]. guard_true (0 <? v). simpl. by destruct (rev _).
Qed.

Lemma parse_decimal_loop_app v l1 l2 :
  parse_decimal_loop v (l1 ++ l2)
  = match parse_decimal_loop v l1 with Some v => parse_decimal_loop v l2 | None => None end.
Proof.
  revert v. induction l1 as [|b l1 IH]; intros v; simpl; [done|].
  destruct (negb _); [done|]. destruct (checked_mul64 v 10) as [w|]; [|done].
  destruct (checked_add64 w _) as [w'|]; [|done]. apply IH.
Qed.

Lemma parse_decimal_digits fuel v :
  0 <= v <= U64_MAX -> v < 10 ^ Z.of_nat fuel ->
  parse_decimal_loop 0 (rev (decimal_digits fuel v)) = Some v.
Proof.
  revert v. induction fuel as [|fuel IH]; intros v Hv Hf.
  { simpl in *. f_equal. lia. }
  cbn [decimal_digits]. destruct (0 <? v) eqn:E; bool_to_prop; [|simpl; f_equal; lia].
  pose proof (Z.mod_pos_bound v 10 ltac:(lia)). pose proof (Z.div_mod v 10 ltac:(lia)).
  assert (0 <= v / 10 < 10 ^ Z.of_nat fuel).
  { split; [apply Z.div_pos; lia|]. apply Z.div_lt_upper_bound; [lia|].
    rewrite <- Z.pow_succ_r by lia. by rewrite <- Nat2Z.inj_succ. }
  cbn [rev]. rewrite parse_decimal_loop_app, IH by lia. cbn [parse_decimal_loop].
  unfold is_ascii_digit. rewrite bz_of_Z by lia.
  guard_true ((48 <=? 48 + v mod 10) && (48 + v mod 10 <=? 57)). cbn [negb].
  unfold checked_mul64, checked_add64.
  guard_true (v / 10 * 10 <=? U64_MAX).
  guard_true (v / 10 * 10 + (48 + v mod 10 - 48) <=? U64_MAX). f_equal. lia.
Qed.

Lemma parse_append_decimal v : u64 v -> parse_decimal (append_decimal [] v) = Some v.
Proof.
  intros Hv. unfold parse_decimal. destruct (append_decimal [] v) as [|b l] eqn:E.
  { by apply append_decimal_nonempty in E; [|destruct Hv]. }
  rewrite <- E. unfold append_decimal. destruct (v =? 0) eqn:E0; bool_to_prop; [by subst|].
  cbn [app]. apply parse_decimal_digits; [done|]. change (10 ^ Z.of_nat 20) with 100000000000000000000.
  ulia.
Qed.

Lemma parse_decimal_u64 l v : parse_decimal l = Some v -> u64 v.
Proof.
  assert (forall l w, u64 w -> parse_decimal_loop w l = Some v -> u64 v) as Hloop.
  { clear l. intros l. induction l as [|b l IH]; intros w Hw; cbn [parse_decimal_loop];
      [by intros [= <-]|].
    destruct (negb _) eqn:Hd; [done|]. unfold is_ascii_digit in Hd. bool_to_prop.
    unfold checked_mul64, checked_add64.
    destruct (w * 10 <=? U64_MAX) eqn:?; [|done].
    destruct (w * 10 + (bz b - 48) <=? U64_MAX) eqn:?; [|done]. bool_to_prop. apply IH. unfold u64 in *. lia. }
  unfold parse_decimal. destruct l; [done|]. apply Hloop. done.
Qed.

(** ** Searching *)

Lemma position_app_skip f l1 l2 :
  (forall b, b ∈ l1 -> f b = false) ->
  position f (l1 ++ l2) = match position f l2 with Some i => Some (zlen l1 + i) | None => None end.
Proof.
  induction l1 as [|b l1 IH]; intros Hf; simpl.
  - destruct (position f l2); [|done]. f_equal.
  - rewrite Hf by apply list_elem_of_here. rewrite IH by (intros; apply Hf; by apply list_elem_of_further).
    destruct (position f l2); [|done]. rewrite zlen_cons. f_equal. lia.
Qed.

Lemma position_some f l i :
  position f l = Some i ->
  exists b, 0 <= i < zlen l /\ l = ztake i l ++ b :: zdrop (i + 1) l /\ f b = true /\
    forall c, c ∈ ztake i l -> f c = false.
Proof.
  revert i. induction l as [|a l IH]; intros i; simpl; [done|]. pose proof (zlen_nonneg l).
  destruct (f a) eqn:Ha.
  - intros [= <-]. exists a. rewrite zlen_cons. split_and!; [lia|lia|done|done|].
    intros c Hc. by apply elem_of_nil in Hc.
  - destruct (position f l) as [j|]; [|done]. intros [= <-].
    destruct (IH j eq_refl) as (b & Hj & Hl & Hb & Hc). exists b.
    rewrite zlen_cons. unfold ztake, zdrop in *.
    replace (Z.to_nat (j + 1 + 1)) with (S (Z.to_nat (j + 1))) by lia.
    replace (Z.to_nat (j + 1)) with (S (Z.to_nat j)) in * by lia. cbn [take drop app] in *.
    split_and!; [lia|lia|by f_equal|done|].
    intros c [->|Hin]%elem_of_cons; [done|auto].
Qed.

Lemma find_byte_first l1 l2 b : b ∉ l1 -> find_byte (l1 ++ b :: l2) b = Some (zlen l1).
Proof.
  intros Hb. unfold find_byte. rewrite position_app_skip.
  - simpl. rewrite bool_decide_eq_true_2 by done. f_equal. lia.
  - intros c Hc. apply bool_decide_eq_false. by intros ->.
Qed.

Lemma find_byte_none l b : b ∉ l -> find_byte l b = None.
Proof.
  intros Hb. unfold find_byte. rewrite <- (app_nil_r l), position_app_skip; [done|].
  intros c Hc. apply bool_decide_eq_false. by intros ->.
Qed.

Lemma find_byte_some l b i :
  find_byte l b = Some i -> 0 <= i < zlen l /\ l = ztake i l ++ b :: zdrop (i + 1) l /\ b ∉ ztake i l.
Proof.
  intros (c & ? & Hl & Hc & Hn)%position_some. apply bool_decide_eq_true in Hc as ->.
  split_and!; try lia; [done|]. intros Hin%Hn. by apply bool_decide_eq_false in Hin.
Qed.

(** The window at position [i] of [l]. *)
Definition occurs_at (needle l : bytes) (i : Z) : Prop :=
  0 <= i /\ i + zlen needle <= zlen l /\ slice l i (i + zlen needle) = needle.

Lemma windows_position_spec n f l :
  0 < n ->
  match windows_position n f l with
  | Some i => 0 <= i /\ i + n <= zlen l /\ f (slice l i (i + n)) = true /\
              forall j, 0 <= j < i -> f (slice l j (j + n)) = false
  | None => forall j, 0 <= j -> j + n <= zlen l -> f (slice l j (j + n)) = false
  end.
Proof.
  intros Hn. assert (forall (a : byte) l j, 0 < j -> slice (a :: l) j (j + n) = slice l (j - 1) (j - 1 + n))
    as Hs.
  { intros a l' j Hj. unfold slice, ztake, zdrop. replace (Z.to_nat j) with (S (Z.to_nat (j - 1))) by lia.
    cbn [drop]. f_equal. lia. }
  assert (forall l : bytes, slice l 0 (0 + n) = ztake n l) as H0.
  { intros. unfold slice. rewrite zdrop_0 by lia. f_equal. lia. }
  induction l as [|a l IH]; cbn [windows_position]; [unfold zlen; simpl; lia|].
  rewrite zlen_cons. destruct (n <=? 1 + zlen l) eqn:Hle; bool_to_prop; [|lia].
  rewrite <- H0. destruct (f (slice (a :: l) 0 (0 + n))) eqn:Hf.
  { split_and!; try lia. done. }
  destruct (windows_position n f l) as [i|].
  - destruct IH as (? & ? & Hi & Hmin). split_and!; [lia|lia|rewrite Hs by lia|].
    + by replace (i + 1 - 1) with i by lia.
    + intros j Hj. destruct (decide (j = 0)) as [->|]; [done|]. rewrite Hs by lia. apply Hmin. lia.
  - intros j ??. destruct (decide (j = 0)) as [->|]; [done|]. rewrite Hs by lia. apply IH; lia.
Qed.

(** [find_subslice] finds the first occurrence, and none only if there is none. *)
Lemma find_subslice_spec l needle :
  needle <> [] ->
  match find_subslice l needle with
  | Some i => occurs_at needle l i /\ forall j, 0 <= j < i -> ~ occurs_at needle l j
  | None => forall j, ~ occurs_at needle l j
  end.
Proof.
  intros Hne. assert (0 < zlen needle) as Hn
    by (destruct needle; [done|rewrite zlen_cons; pose proof (zlen_nonneg needle); lia]).
  unfold find_subslice. guard_false (zlen needle =? 0). cbn [orb].
  destruct (zlen l <? zlen needle) eqn:Hlt; bool_to_prop.
  { intros j (?&?&_). lia. }
  pose proof (windows_position_spec (zlen needle) (fun w => bool_decide (w = needle)) l Hn) as Hw.
  destruct (windows_position _ _ l) as [i|].
  - destruct Hw as (? & ? & Hi & Hmin). apply bool_decide_eq_true in Hi. split; [done|].
    intros j Hj (? & ? & Ho). specialize (Hmin j Hj). by apply bool_decide_eq_false in Hmin.
  - intros j (? & ? & Ho). specialize (Hw j ltac:(lia) ltac:(lia)). by apply bool_decide_eq_false in Hw.
Qed.

Lemma occurs_at_app needle l1 l2 : occurs_at needle (l1 ++ needle ++ l2) (zlen l1).
Proof.
  pose proof (zlen_nonneg l1). pose proof (zlen_nonneg l2).
  split_and!; [lia|rewrite !zlen_app; lia|]. unfold slice.
  rewrite zdrop_app_ge, zdrop_0 by lia. rewrite ztake_app_le by lia. apply ztake_all. lia.
Qed.

Lemma find_subslice_first l1 needle l2 :
  needle <> [] -> (forall j, 0 <= j < zlen l1 -> ~ occurs_at needle (l1 ++ needle ++ l2) j) ->
  find_subslice (l1 ++ needle ++ l2) needle = Some (zlen l1).
Proof.
  intros Hne Hno. pose proof (find_subslice_spec (l1 ++ needle ++ l2) needle Hne) as Hs.
  pose proof (occurs_at_app needle l1 l2) as Ho. pose proof (zlen_nonneg l1).
  destruct (find_subslice _ _) as [i|]; [|by destruct (Hs (zlen l1))].
  destruct Hs as [Hi Hmin]. f_equal.
  destruct (Z.lt_trichotomy i (zlen l1)) as [Hlt|[->|Hgt]]; [|done|].
  - destruct (Hno i); [destruct Hi; lia|done].
  - by destruct (Hmin (zlen l1)).
Qed.

(** ** Trimming *)

Definition blanks (l : bytes) : Prop := forall b, b ∈ l -> is_blank b = true.

(** Neither end is blank. *)
Definition trimmed (l : bytes) : Prop :=
  (forall b l', l = b :: l' -> is_blank b = false) /\
  (forall l' b, l = l' ++ [b] -> is_blank b = false).

Lemma take_drop_while f l : take_while f l ++ drop_while f l = l.
Proof. induction l as [|b l IH]; simpl; [done|]. destruct (f b); [|done]. simpl. by f_equal. Qed.

Lemma take_while_all f l b : b ∈ take_while f l -> f b = true.
Proof.
  induction l as [|a l IH]; simpl; [by intros Hb%elem_of_nil|].
  destruct (f a) eqn:Ha; [|by intros Hb%elem_of_nil]. intros [->|Hb]%elem_of_cons; auto.
Qed.

Lemma drop_while_head f l b l' : drop_while f l = b :: l' -> f b = false.
Proof.
  induction l as [|a l IH]; simpl; [done|]. destruct (f a) eqn:Ha; [done|]. by intros [= -> ->].
Qed.

Lemma drop_while_id f l : (forall b l', l = b :: l' -> f b = false) -> drop_while f l = l.
Proof. destruct l as [|b l]; simpl; [done|]. intros Hf. by rewrite (Hf b l). Qed.

Lemma trim_start_spec l : exists a, blanks a /\ l = a ++ trim_start l.
Proof.
  exists (take_while is_blank l). split; [intros b; apply take_while_all|].
  symmetry. apply take_drop_while.
Qed.

Lemma trim_end_spec l : exists a, blanks a /\ l = trim_end l ++ a.
Proof.
  exists (rev (take_while is_blank (rev l))). split.
  - intros b Hb%list_elem_of_In%in_rev%list_elem_of_In. by eapply take_while_all.
  - unfold trim_end. rewrite <- rev_app_distr, take_drop_while, rev_involutive. done.
Qed.

Lemma trim_start_head l b l' : trim_start l = b :: l' -> is_blank b = false.
Proof. apply drop_while_head. Qed.

Lemma trim_end_last l l' b : trim_end l = l' ++ [b] -> is_blank b = false.
Proof.
  unfold trim_end. intros Hr. apply (f_equal (@rev byte)) in Hr.
  rewrite rev_involutive, rev_app_distr in Hr. simpl in Hr. by eapply drop_while_head.
Qed.

(** [trim_ascii] removes exactly the blanks at both ends. *)
Lemma trim_ascii_spec l :
  trimmed (trim_ascii l) /\ exists a b, blanks a /\ blanks b /\ l = a ++ trim_ascii l ++ b.
Proof.
  destruct (trim_start_spec l) as (a & Ha & Hl).
  destruct (trim_end_spec (trim_start l)) as (c & Hc & Hs). fold (trim_ascii l) in Hs.
  split; [split|].
  - intros b l' Hb. rewrite Hb in Hs. by eapply trim_start_head.
  - intros l' b Hb. by eapply trim_end_last.
  - exists a, c. split_and!; [done|done|]. by rewrite <- Hs.
Qed.

Lemma trim_ascii_trimmed l : trimmed (trim_ascii l).
Proof. apply trim_ascii_spec. Qed.

Lemma trim_ascii_id l : trimmed l -> trim_ascii l = l.
Proof.
  intros [Hh Ht]. unfold trim_ascii, trim_start. rewrite drop_while_id by done.
  unfold trim_end. rewrite drop_while_id, rev_involutive; [done|].
  intros b l' Hr. apply (f_equal (@rev byte)) in Hr. rewrite rev_involutive in Hr.
  simpl in Hr. by apply (Ht (rev l')).
Qed.

Lemma trim_ascii_idemp l : trim_ascii (trim_ascii l) = trim_ascii l.
Proof. apply trim_ascii_id, trim_ascii_trimmed. Qed.

Lemma zlen_trim_ascii l : zlen (trim_ascii l) <= zlen l.
Proof.
  destruct (trim_ascii_spec l) as (_ & a & b & _ & _ & Hl). rewrite Hl at 2. rewrite !zlen_app.
  pose proof (zlen_nonneg a). pose proof (zlen_nonneg b). lia.
Qed.

(** ** Case-insensitive comparison *)

Definition lower (l : bytes) : bytes := to_ascii_lowercase <$> l.

Lemma zlen_lower l : zlen (lower l) = zlen l.
Proof. unfold zlen, lower. by rewrite length_fmap. Qed.

Lemma zip_all_eq_lower l r :
  zlen l = zlen r -> (zip_all_eq_ignore_case l r = true <-> lower l = lower r).
Proof.
  revert r. induction l as [|a l IH]; intros [|b r]; simpl; rewrite ?zlen_cons; intros Hl; try done.
  - pose proof (zlen_nonneg r). by rewrite zlen_nil in Hl; lia.
  - pose proof (zlen_nonneg l). by rewrite zlen_nil in Hl; lia.
  - rewrite andb_true_iff, IH by lia. unfold eq_ignore_ascii_case_byte.
    rewrite bool_decide_eq_true. unfold lower. cbn. split; [intros [-> ->]; done|by intros [= -> ->]].
Qed.

Lemma eq_ignore_slice_lower l r : eq_ignore_ascii_case_slice l r = true <-> lower l = lower r.
Proof.
  unfold eq_ignore_ascii_case_slice. rewrite andb_true_iff, Z.eqb_eq. split.
  - intros [? Hz]. by apply zip_all_eq_lower.
  - intros Hl. assert (zlen l = zlen r) by (rewrite <- (zlen_lower l), Hl; apply zlen_lower).
    split; [done|]. by apply zip_all_eq_lower.
Qed.

Lemma windows_any_spec n f l :
  0 < n ->
  (windows_any n f l = true <->
   exists i, 0 <= i /\ i + n <= zlen l /\ f (slice l i (i + n)) = true).
Proof.
  intros Hn. assert (windows_any n f l = match windows_position n f l with Some _ => true | None => false end)
    as ->.
  { induction l as [|a l IH]; cbn [windows_any windows_position]; [done|].
    destruct (n <=? _); [|done]. destruct (f _); [done|]. rewrite IH.
    by destruct (windows_position n f l). }
  pose proof (windows_position_spec n f l Hn) as Hs.
  destruct (windows_position n f l) as [i|].
  - destruct Hs as (? & ? & ? & _). split; eauto.
  - split; [done|]. intros (i & ? & ? & Hf). by rewrite Hs in Hf.
Qed.

(** ** Words

    The reference: the maximal runs of word bytes, and a run of consecutive
    words equal to [words] up to case. *)
Fixpoint split_words (acc text : bytes) : list bytes :=
  match text with
  | [] => match acc with [] => [] | _ => [rev acc] end
  | b :: text =>
      if is_word_byte b then split_words (b :: acc) text
      else match acc with [] => split_words [] text | _ => rev acc :: split_words [] text end
  end.

Definition same_word (t w : bytes) : Prop := lower t = lower w.

Definition word_prefix (words toks : list bytes) : Prop :=
  exists mid rest, toks = mid ++ rest /\ Forall2 same_word mid words.

Definition word_infix (words toks : list bytes) : Prop :=
  exists pre toks', toks = pre ++ toks' /\ word_prefix words toks'.

(** The loop, on the words instead of the text. *)
Fixpoint match_words (words toks : list bytes) (i : nat) : bool :=
  match toks with
  | [] => false
  | t :: toks =>
      if match words !! i with Some w => eq_ignore_ascii_case_slice t w | None => false end
      then if Nat.eqb (S i) (length words) then true else match_words words toks (S i)
      else match_words words toks
             (match words with
              | w :: _ => if eq_ignore_ascii_case_slice t w then 1%nat else O
              | [] => O
              end)
  end.

Lemma split_words_skip text :
  split_words [] text = split_words [] (drop_while (fun b => negb (is_word_byte b)) text).
Proof.
  induction text as [|b text IH]; simpl; [done|]. destruct (is_word_byte b) eqn:Hb; simpl; [|done].
  by rewrite Hb.
Qed.

Lemma split_words_run acc text :
  split_words acc text
  = match rev acc ++ take_while is_word_byte text with
    | [] => []
    | w => [w]
    end ++ split_words [] (zdrop 1 (drop_while is_word_byte text)).
Proof.
  revert acc. induction text as [|b text IH]; intros acc; cbn [split_words take_while drop_while].
  - rewrite app_nil_r. destruct acc as [|a acc]; [done|]. cbn [rev]. rewrite app_nil_r.
    destruct (rev acc ++ [a]) eqn:E; [by destruct (rev acc)|done].
  - destruct (is_word_byte b) eqn:Hb.
    + rewrite IH. cbn [rev]. by rewrite <- app_assoc.
    + rewrite app_nil_r. unfold zdrop. cbn [drop]. destruct acc as [|a acc]; [done|]. cbn [rev].
      destruct (rev acc ++ [a]) eqn:E; [by destruct (rev acc)|done].
Qed.

Lemma zlen_drop_while f l : zlen (drop_while f l) <= zlen l.
Proof.
  rewrite <- (take_drop_while f l) at 2. rewrite zlen_app. pose proof (zlen_nonneg (take_while f l)). lia.
Qed.

Lemma word_loop_match fuel words text i :
  zlen text <= Z.of_nat fuel ->
  word_loop fuel words text i = match_words words (split_words [] text) i.
Proof.
  revert text i. induction fuel as [|fuel IH]; intros text i Hf.
  { destruct text; [done|]. rewrite zlen_cons in Hf. pose proof (zlen_nonneg text). lia. }
  cbn [word_loop]. destruct text as [|b0 text0] eqn:Ht0; [done|].
  rewrite <- Ht0 in *. assert (0 < zlen text) as Hpos
    by (rewrite Ht0, zlen_cons; pose proof (zlen_nonneg text0); lia). clear Ht0 b0 text0.
  guard_false (zlen text =? 0). rewrite split_words_skip.
  pose proof (zlen_drop_while (fun b => negb (is_word_byte b)) text) as Hl.
  set (text1 := drop_while _ text) in *. rewrite split_words_run. cbn [rev app].
  set (word := take_while is_word_byte text1) in *. set (rest := drop_while is_word_byte text1).
  assert (zlen (zdrop 1 rest) <= Z.of_nat fuel) as Hrest.
  { rewrite zlen_zdrop by lia. pose proof (zlen_drop_while is_word_byte text1). unfold rest. lia. }
  destruct word as [|w0 word0] eqn:Hw.
  - change (0 <? zlen (@nil byte)) with false. cbn [andb app]. by apply IH.
  - cbn [app]. assert (0 < zlen (w0 :: word0)) as Hp
      by (rewrite zlen_cons; pose proof (zlen_nonneg word0); lia).
    guard_true (0 <? zlen (w0 :: word0)). cbn [andb match_words].
    destruct (match words !! i with Some _ => _ | None => _ end).
    + destruct (Nat.eqb (S i) (length words)); [done|]. by apply IH.
    + by apply IH.
Qed.

Lemma word_prefix_cons w words t toks :
  word_prefix (w :: words) (t :: toks) <-> same_word t w /\ word_prefix words toks.
Proof.
  split.
  - intros (mid & rest & Heq & Hf). apply Forall2_cons_inv_r in Hf as (t' & mid' & Ht & Hm & ->).
    simplify_eq/=. split; [done|]. by exists mid', rest.
  - intros [Ht (mid & rest & -> & Hf)]. exists (t :: mid), rest. split; [done|]. by constructor.
Qed.

Lemma word_prefix_nil_r w words : ~ word_prefix (w :: words) [].
Proof.
  intros (mid & rest & Heq & Hf). apply Forall2_cons_inv_r in Hf as (? & ? & _ & _ & ->). done.
Qed.

Lemma word_infix_cons words t toks :
  word_infix words (t :: toks) <-> word_prefix words (t :: toks) \/ word_infix words toks.
Proof.
  split.
  - intros (pre & toks' & Heq & Hp). destruct pre as [|t' pre]; simplify_eq/=; [by left|].
    right. by exists pre, toks'.
  - intros [Hp|(pre & toks' & -> & Hp)]; [by exists [], (t :: toks)|by exists (t :: pre), toks'].
Qed.

(** The first word does not occur again in the sequence, up to case. *)
Definition first_word_unique (words : list bytes) : Prop :=
  match words with
  | [] => True
  | w :: rest => forall v, v ∈ rest -> ~ same_word w v
  end.

Lemma match_words_spec words toks i :
  first_word_unique words -> (i < length words)%nat ->
  (match_words words toks i = true <->
   word_prefix (drop i words) toks \/ word_infix words toks).
Proof.
  intros Hu. revert i. induction toks as [|t toks IH]; intros i Hi; cbn [match_words].
  { split; [done|]. destruct (drop i words) as [|w rest] eqn:Hd.
    { apply (f_equal length) in Hd. rewrite length_drop in Hd. simpl in Hd. lia. }
    destruct words as [|w0 words]; [simpl in Hi; lia|].
    intros [Hp|(pre & toks' & Heq & Hp)]; [by apply word_prefix_nil_r in Hp|].
    symmetry in Heq. apply app_eq_nil in Heq as [_ ->]. by apply word_prefix_nil_r in Hp. }
  destruct (lookup_lt_is_Some_2 words i Hi) as [w Hw]. rewrite Hw.
  rewrite (drop_S words w i Hw), word_prefix_cons, word_infix_cons.
  destruct words as [|w0 words]; [simpl in Hi; lia|].
  destruct (eq_ignore_ascii_case_slice t w) eqn:Et.
  - apply eq_ignore_slice_lower in Et. destruct (Nat.eqb (S i) (length (w0 :: words))) eqn:Hlast.
    + apply Nat.eqb_eq in Hlast. split; [|done]. intros _. left. split; [done|].
      rewrite drop_ge by lia. by exists [], toks.
    + apply Nat.eqb_neq in Hlast. rewrite IH by lia. rewrite word_prefix_cons.
      destruct i as [|i].
      * simpl in Hw. simplify_eq. simpl. unfold same_word in *. tauto.
      * assert (~ same_word t w0) as Hn.
        { intros Ht. apply (Hu w); [|unfold same_word in *; congruence].
          simpl in Hw. by eapply list_elem_of_lookup_2. }
        unfold same_word in *. tauto.
  - assert (~ same_word t w) as Hn
      by (intros Ht%eq_ignore_slice_lower; congruence).
    destruct (eq_ignore_ascii_case_slice t w0) eqn:Et0.
    + apply eq_ignore_slice_lower in Et0.
      destruct words as [|w1 words].
      { destruct i; [|simpl in Hi; lia]. simpl in Hw. simplify_eq. by destruct Hn. }
      rewrite IH by (simpl; lia). rewrite word_prefix_cons. simpl. unfold same_word in *. tauto.
    + assert (~ same_word t w0) as Hn0 by (intros Ht%eq_ignore_slice_lower; congruence).
      rewrite IH by (simpl; lia). rewrite word_prefix_cons. simpl. 
      split; [intros [?|?]; [|tauto]|tauto].
      right. right. by exists [], toks.
Qed.

(** The word matcher of the memory keys is exact.  For a sequence whose first word
    does not recur in it (every sequence the shell uses), [contains_word_sequence] is true
    exactly when the text has those words in a row, as whole words and up to case. *)
Theorem contains_word_sequence_exact text words :
  words <> [] -> first_word_unique words ->
  (contains_word_sequence text words = true <-> word_infix words (split_words [] text)).
Proof.
  intros Hne Hu. unfold contains_word_sequence. destruct words as [|w words]; [done|].
  rewrite word_loop_match by (unfold zlen; lia). rewrite match_words_spec by (done || simpl; lia).
  simpl. split; [|by right]. intros [Hp|?]; [|done]. by exists [], (split_words [] text).
Qed.

Lemma contains_word_sequence_exact_witness :
  contains_word_sequence (bstr "My SECURE phrase") [bstr "secure"; bstr "phrase"] = true <->
  word_infix [bstr "secure"; bstr "phrase"] (split_words [] (bstr "My SECURE phrase")).
Proof.
  apply contains_word_sequence_exact; [done|].
  intros v Hv%list_elem_of_singleton. subst v. by vm_compute.
Defined.

(** The substring test of [forget] is exact: true when and only when the non-empty
    needle occurs in the haystack up to ASCII case. *)
Theorem contains_case_insensitive_exact haystack needle :
  contains_case_insensitive haystack needle = true <->
  needle <> [] /\
  exists i, 0 <= i /\ i + zlen needle <= zlen haystack /\
    lower (slice haystack i (i + zlen needle)) = lower needle.
Proof.
  unfold contains_case_insensitive. destruct needle as [|b0 needle0] eqn:Hn.
  { simpl. split; [done|]. by intros []. }
  rewrite <- Hn. assert (0 < zlen needle) as Hpos
    by (rewrite Hn, zlen_cons; pose proof (zlen_nonneg needle0); lia).
  guard_false (zlen needle =? 0). cbn [orb].
  assert (needle <> []) as Hne by (by rewrite Hn).
  destruct (zlen haystack <? zlen needle) eqn:Hlt; bool_to_prop.
  { split; [done|]. intros (_ & i & ? & ? & _). lia. }
  rewrite windows_any_spec by done. split.
  - intros (i & ? & ? & Hz). split; [done|]. exists i. split_and!; [lia|lia|].
    apply zip_all_eq_lower in Hz; [done|]. rewrite zlen_slice; lia.
  - intros (_ & i & ? & ? & Hl). exists i. split_and!; [lia|lia|].
    apply zip_all_eq_lower; [|done]. rewrite zlen_slice; lia.
Qed.
