(* ===== verification/History.v ===== *)
(** * The question-and-answer history of the RAM shell

    bitapp/src/hermit_app.rs keeps a vector of [QaRecord]s and a byte buffer
    [session_delta] of records not yet persisted, serialized as
    "[RAMQA v1 q=<len> a=<len>]" and "[RAMDEL v1 k=<len>]" entries.  At boot the
    bytes read back from the memory database are parsed and replayed. *)

From S2P Require Import Prelude AppText.

Definition RAM_SHELL_HISTORY_CAP_BYTES : Z := 64 * 1024.

Record QaRecord := mkQaRecord { question : bytes; answer : bytes }.

#[export] Instance QaRecord_eq_dec : EqDecision QaRecord.
Proof. solve_decision. Defined.

(** ** Sizes and eviction *)

Definition qa_record_payload_len (record : QaRecord) : Z :=
  sat_add64 (sat_add64 (zlen (question record)) (zlen (answer record))) 8.

(** [iter().map(qa_record_payload_len).sum()] *)
Definition history_payload_len (history : list QaRecord) : Z :=
  fold_left (fun n r => add64 n (qa_record_payload_len r)) history 0.

(** [history.remove(0)] until the rest and [needed] fit. *)
Fixpoint shrink_records (history : list QaRecord) (needed : Z) : list QaRecord :=
  match history with
  | [] => []
  | _ :: rest =>
      if RAM_SHELL_HISTORY_CAP_BYTES <? sat_add64 (history_payload_len history) needed
      then shrink_records rest needed else history
  end.

Definition shrink_bytes (buf : bytes) (needed : Z) : bytes :=
  let required := sat_add64 (zlen buf) needed in
  if required <=? RAM_SHELL_HISTORY_CAP_BYTES then buf
  else if RAM_SHELL_HISTORY_CAP_BYTES <=? needed then []
  else
    let drop_len := sat_sub required RAM_SHELL_HISTORY_CAP_BYTES in
    zdrop (Z.min drop_len (zlen buf)) buf.

(** ** Serialization *)

Definition QA_MARK : bytes := bstr "[RAMQA v1 q=".
Definition DEL_MARK : bytes := bstr "[RAMDEL v1 k=".
Definition A_MARK : bytes := bstr " a=".
Definition HEADER_END : bytes := bstr "]" ++ [NL].

(** [if !target.is_empty() { target.push(b'\n') }] *)
Definition push_separator (target : bytes) : bytes :=
  match target with [] => [] | _ => target ++ [NL] end.

Definition append_serialized_qa (target prompt answer : bytes) : bytes :=
  let target := push_separator target in
  let target := target ++ QA_MARK in
  let target := append_decimal target (zlen prompt) in
  let target := target ++ A_MARK in
  let target := append_decimal target (zlen answer) in
  let target := target ++ HEADER_END in
  let target := target ++ prompt in
  let target := target ++ [NL] in
  let target := target ++ answer in
  target ++ [NL].

Definition append_serialized_forget (target key : bytes) : bytes :=
  let target := push_separator target in
  let target := target ++ DEL_MARK in
  let target := append_decimal target (zlen key) in
  let target := target ++ HEADER_END in
  let target := target ++ key in
  target ++ [NL].

(** ** Keys *)

Definition memory_key_from_text (text : bytes) : option bytes :=
  if contains_word_sequence text [bstr "secure"; bstr "phrase"]
     || contains_word_sequence text [bstr "stored"; bstr "secure"; bstr "phrase"]
     || contains_word_sequence text [bstr "secured"; bstr "stored"; bstr "phrase"]
  then Some (bstr "secure phrase")
  else if contains_word_sequence text [bstr "secret"; bstr "phrase"]
          || contains_word_sequence text [bstr "secret"; bstr "key"]
  then Some (bstr "secret phrase")
  else if contains_word_sequence text [bstr "memory"; bstr "test"; bstr "phrase"]
  then Some (bstr "memory test phrase")
  else if contains_word_sequence text [bstr "project"; bstr "codename"]
          || contains_word_sequence text [bstr "code"; bstr "name"]
          || contains_word_sequence text [bstr "codename"]
  then Some (bstr "codename")
  else None.

Definition QUESTION_WORDS : list bytes :=
  [bstr "what"; bstr "which"; bstr "who"; bstr "when"; bstr "where"; bstr "why"; bstr "how";
   bstr "do"; bstr "does"; bstr "did"; bstr "is"; bstr "are"; bstr "can"; bstr "will"].

Definition starts_with_question_word (text : bytes) : bool :=
  let text := trim_ascii text in
  let first := take_while is_word_byte text in
  if zlen first =? 0 then false
  else existsb (fun word => eq_ignore_ascii_case_slice first word) QUESTION_WORDS.

Definition looks_like_question (text : bytes) : bool :=
  existsb (fun b => bz b =? 63) text || starts_with_question_word text.

Definition qa_record_key (record : QaRecord) : option bytes :=
  match (if negb (looks_like_question (question record))
         then memory_key_from_text (question record) else None) with
  | Some key => Some key
  | None => memory_key_from_text (answer record)
  end.

(** [history.retain(f)] *)
Fixpoint retain (f : QaRecord -> bool) (history : list QaRecord) : list QaRecord :=
  match history with
  | [] => []
  | r :: history => if f r then r :: retain f history else retain f history
  end.

Definition upsert_history_record (history : list QaRecord) (record : QaRecord) : list QaRecord :=
  let history :=
    match qa_record_key record with
    | Some key => retain (fun existing => negb (bool_decide (qa_record_key existing = Some key))) history
    | None => history
    end in
  history ++ [record].

Definition record_mentions_key (record : QaRecord) (key : bytes) : bool :=
  bool_decide (memory_key_from_text (question record) = Some key)
  || bool_decide (memory_key_from_text (answer record) = Some key).

Definition record_matches_forget_phrase (record : QaRecord) (phrase : bytes) : bool :=
  let phrase := trim_ascii phrase in
  if zlen phrase =? 0 then false else
  if match memory_key_from_text phrase with
     | Some key => bool_decide (qa_record_key record = Some key) || record_mentions_key record key
     | None => false
     end then true
  else contains_case_insensitive (question record) phrase
       || contains_case_insensitive (answer record) phrase.

(** The history after the call and the number of records removed. *)
Definition forget_history_records (history : list QaRecord) (phrase : bytes) : list QaRecord * Z :=
  let before := zlen history in
  let history := retain (fun record => negb (record_matches_forget_phrase record phrase)) history in
  (history, sat_sub before (zlen history)).

(** ** Recording *)

Definition append_to_history (history : list QaRecord) (session_delta prompt answer : bytes)
    : list QaRecord * bytes :=
  let needed := sat_add64 (sat_add64 (zlen prompt) (zlen answer)) 64 in
  let history := shrink_records history needed in
  let session_delta := shrink_bytes session_delta needed in
  let history := upsert_history_record history (mkQaRecord prompt answer) in
  (history, append_serialized_qa session_delta prompt answer).

Definition append_forget_to_history (history : list QaRecord) (session_delta phrase : bytes)
    : list QaRecord * bytes * Z :=
  let phrase := trim_ascii phrase in
  if zlen phrase =? 0 then (history, session_delta, 0) else
  let key := match memory_key_from_text phrase with Some k => k | None => phrase end in
  let needed := sat_add64 (zlen key) 64 in
  let session_delta := shrink_bytes session_delta needed in
  let (history, removed) := forget_history_records history key in
  (history, append_serialized_forget session_delta key, removed).

(** ** Parsing *)

(** The loop of [parse_legacy_qa_records]; the rest of the input shrinks by at
    least three bytes per iteration. *)
Fixpoint parse_legacy_loop (fuel : nat) (l : bytes) (history : list QaRecord)
    : outcome unit (list QaRecord) :=
  match fuel with
  | O => OutOfFuel
  | S fuel =>
      match find_subslice l (bstr "Q: ") with
      | None => Ok history
      | Some q_pos =>
          let? l := get_slice l (q_pos + 3) (zlen l) in
          match find_byte l NL with
          | None => Ok history
          | Some q_end =>
              let? q := get_slice l 0 q_end in
              let question := trim_ascii q in
              let? l := get_slice l (q_end + 1) (zlen l) in
              if negb (bool_decide (ztake 3 l = bstr "A: ")) then parse_legacy_loop fuel l history else
              let? l := get_slice l 3 (zlen l) in
              let a_end := match find_byte l NL with Some i => i | None => zlen l end in
              let? a := get_slice l 0 a_end in
              let answer := trim_ascii a in
              let history :=
                if negb (zlen question =? 0) && negb (zlen answer =? 0)
                then upsert_history_record history (mkQaRecord question answer) else history in
              if zlen l <=? a_end then Ok history else
              let? l := get_slice l (a_end + 1) (zlen l) in
              parse_legacy_loop fuel l history
          end
      end
  end.

Definition parse_legacy_qa_records (l : bytes) (history : list QaRecord)
    : outcome unit (list QaRecord) :=
  parse_legacy_loop (S (length l)) l history.

(** The [for (rel, kind)] loop that picks the nearer marker: [true] is RAMDEL. *)
Definition next_record (rel_qa rel_del : option Z) : option (Z * bool) :=
  let next := match rel_qa with Some c => Some (c, false) | None => None end in
  match rel_del with
  | Some c =>
      match next with
      | Some (current, _) => if c <? current then Some (c, true) else next
      | None => Some (c, true)
      end
  | None => next
  end.

(** What one iteration of the structured loop does next. *)
Inductive parse_next :=
| Continue (offset : Z) (history : list QaRecord)
| Break (history : list QaRecord).

Definition header_closed (header : bytes) : bool :=
  bool_decide (byte_at header (zlen header - 1) = Some Byte.x5d).

Definition parse_del_record (l : bytes) (start : Z) (history : list QaRecord)
    : outcome unit parse_next :=
  let header_start := start + zlen DEL_MARK in
  let? tail := get_slice l header_start (zlen l) in
  match find_byte tail NL with
  | None => Ok (Break history)
  | Some header_end_rel =>
      let header_end := header_start + header_end_rel in
      let? header := get_slice l header_start header_end in
      if negb (header_closed header) then Ok (Continue (start + 1) history) else
      let? digits := get_slice header 0 (zlen header - 1) in
      match parse_decimal digits with
      | None => Ok (Continue (start + 1) history)
      | Some key_len =>
          let key_start := header_end + 1 in
          let key_end := sat_add64 key_start key_len in
          if zlen l <? key_end then Ok (Break history) else
          let? raw := get_slice l key_start key_end in
          let key := trim_ascii raw in
          let history := if negb (zlen key =? 0) then fst (forget_history_records history key) else history in
          Ok (Continue (Z.min (sat_add64 key_end 1) (zlen l)) history)
      end
  end.

Definition parse_qa_record (l : bytes) (start : Z) (history : list QaRecord)
    : outcome unit parse_next :=
  let header_start := start + zlen QA_MARK in
  let? tail := get_slice l header_start (zlen l) in
  match find_byte tail NL with
  | None => Ok (Break history)
  | Some header_end_rel =>
      let header_end := header_start + header_end_rel in
      let? header := get_slice l header_start header_end in
      match find_subslice header A_MARK with
      | None => Ok (Continue (start + 1) history)
      | Some a_marker =>
          if negb (header_closed header) then Ok (Continue (start + 1) history) else
          let? q_digits := get_slice header 0 a_marker in
          match parse_decimal q_digits with
          | None => Ok (Continue (start + 1) history)
          | Some q_len =>
              let? a_digits := get_slice header (a_marker + 3) (zlen header - 1) in
              match parse_decimal a_digits with
              | None => Ok (Continue (start + 1) history)
              | Some a_len =>
                  let q_start := header_end + 1 in
                  let q_end := sat_add64 q_start q_len in
                  let a_start := sat_add64 q_end 1 in
                  let a_end := sat_add64 a_start a_len in
                  if zlen l <? a_end then Ok (Break history) else
                  let? q := get_slice l q_start q_end in
                  let? a := get_slice l a_start a_end in
                  let history := upsert_history_record history (mkQaRecord q a) in
                  Ok (Continue (Z.min (sat_add64 a_end 1) (zlen l)) history)
              end
          end
      end
  end.

Definition structured_step (l : bytes) (offset : Z) (history : list QaRecord)
    : outcome unit parse_next :=
  let? rest := get_slice l offset (zlen l) in
  match next_record (find_subslice rest QA_MARK) (find_subslice rest DEL_MARK) with
  | None => let? history := parse_legacy_qa_records rest history in Ok (Break history)
  | Some (rel_start, record_kind) =>
      let start := offset + rel_start in
      let? history :=
        if offset <? start then
          let? gap := get_slice l offset start in parse_legacy_qa_records gap history
        else Ok history in
      if record_kind : bool then parse_del_record l start history
      else parse_qa_record l start history
  end.

(** The [while offset < bytes.len()] loop; [offset] grows in every iteration. *)
Fixpoint structured_loop (fuel : nat) (l : bytes) (offset : Z) (history : list QaRecord)
    : outcome unit (list QaRecord) :=
  if negb (offset <? zlen l) then Ok history else
  match fuel with
  | O => OutOfFuel
  | S fuel =>
      let? next := structured_step l offset history in
      match next with
      | Break history => Ok history
      | Continue offset history => structured_loop fuel l offset history
      end
  end.

Definition parse_structured_qa_records (l : bytes) (history : list QaRecord)
    : outcome unit (list QaRecord) :=
  structured_loop (length l) l 0 history.
