(* ===== verification/HistorySpec.v ===== *)
(** * The history: parsing is total, serialization round-trips

    [replay] is the meaning of one log entry; [stream] the bytes the shell
    writes for a sequence of entries.  Parsing any bytes ends without a panic,
    parsing a stream replays it, and parsing a stream cut at any byte replays
    the entries before the cut. *)

From S2P Require Import Prelude AppText History.

(** ** Totality *)

Lemma get_slice_tail {E} (l : bytes) a :
  0 <= a <= zlen l -> get_slice (E := E) l a (zlen l) = Ok (zdrop a l).
Proof.
  intros. rewrite get_slice_ok by lia. f_equal. unfold slice. apply ztake_all.
  rewrite zlen_zdrop; lia.
Qed.

Lemma get_slice_head {E} (l : bytes) b :
  0 <= b <= zlen l -> get_slice (E := E) l 0 b = Ok (ztake b l).
Proof. intros. rewrite get_slice_ok by lia. f_equal. unfold slice. by rewrite zdrop_0, Z.sub_0_r by lia. Qed.

Lemma find_subslice_bounds l needle i :
  find_subslice l needle = Some i -> 0 <= i /\ i + zlen needle <= zlen l.
Proof.
  intros Hf. assert (needle <> []) as Hne by (by intros ->).
  pose proof (find_subslice_spec l needle Hne) as Hs. rewrite Hf in Hs. by destruct Hs as [(?&?&_) _].
Qed.

Lemma find_byte_bounds l b i : find_byte l b = Some i -> 0 <= i < zlen l.
Proof. by intros (? & _)%find_byte_some. Qed.

Lemma parse_legacy_total fuel l history :
  zlen l < Z.of_nat fuel -> exists h, parse_legacy_loop fuel l history = Ok h.
Proof.
  revert l history. induction fuel as [|fuel IH]; intros l history Hf; [pose proof (zlen_nonneg l); lia|].
  cbn [parse_legacy_loop]. destruct (find_subslice l _) as [q_pos|] eqn:Hq; [|eauto].
  apply find_subslice_bounds in Hq as [Hq0 Hq1]. change (zlen (bstr "Q: ")) with 3 in Hq1.
  rewrite get_slice_tail by lia. cbn [obind]. set (l1 := zdrop (q_pos + 3) l).
  assert (zlen l1 = zlen l - (q_pos + 3)) as Hl1 by (unfold l1; rewrite zlen_zdrop; lia).
  destruct (find_byte l1 NL) as [q_end|] eqn:He; [|eauto]. apply find_byte_bounds in He.
  rewrite get_slice_head, get_slice_tail by lia. cbn [obind]. set (l2 := zdrop (q_end + 1) l1).
  assert (zlen l2 = zlen l1 - (q_end + 1)) as Hl2 by (unfold l2; rewrite zlen_zdrop; lia).
  destruct (bool_decide (ztake 3 l2 = bstr "A: ")) eqn:Ha; cbn [negb]; [|apply IH; lia].
  apply bool_decide_eq_true in Ha. apply (f_equal zlen) in Ha. rewrite zlen_ztake in Ha.
  change (zlen (bstr "A: ")) with 3 in Ha. rewrite get_slice_tail by lia. cbn [obind].
  set (l3 := zdrop 3 l2). assert (zlen l3 = zlen l2 - 3) as Hl3 by (unfold l3; rewrite zlen_zdrop; lia).
  set (a_end := match find_byte l3 NL with Some i => i | None => zlen l3 end).
  assert (0 <= a_end <= zlen l3) as Hae.
  { unfold a_end. destruct (find_byte l3 NL) eqn:Hb; [apply find_byte_bounds in Hb; lia|].
    pose proof (zlen_nonneg l3). lia. }
  rewrite get_slice_head by lia. cbn [obind].
  destruct (zlen l3 <=? a_end) eqn:Hle; [eauto|]. bool_to_prop.
  rewrite get_slice_tail by lia. cbn [obind]. apply IH. rewrite zlen_zdrop; lia.
Qed.

Lemma parse_legacy_records_total l history : exists h, parse_legacy_qa_records l history = Ok h.
Proof. apply parse_legacy_total. unfold zlen. lia. Qed.

(** One iteration ends, and moves [offset] forward if it continues. *)
Definition step_ok (l : bytes) (offset : Z) (r : outcome unit parse_next) : Prop :=
  match r with
  | Ok (Continue offset' _) => offset < offset' <= zlen l
  | Ok (Break _) => True
  | _ => False
  end.

Lemma header_closed_len header : header_closed header = true -> 0 < zlen header.
Proof.
  unfold header_closed, byte_at. rewrite bool_decide_eq_true.
  destruct (zlen header - 1 <? 0) eqn:?; [done|]. bool_to_prop. lia.
Qed.

Lemma parse_del_ok l start offset history :
  zlen l < U64_MAX -> 0 <= offset <= start -> start + zlen DEL_MARK <= zlen l ->
  step_ok l offset (parse_del_record l start history).
Proof.
  intros Hl Ho Hs. unfold parse_del_record. change (zlen DEL_MARK) with 13 in *.
  rewrite get_slice_tail by lia. cbn [obind].
  destruct (find_byte _ NL) as [he|] eqn:He; [|done]. apply find_byte_bounds in He.
  rewrite zlen_zdrop in He by lia. rewrite get_slice_ok by lia. cbn [obind].
  set (header := slice l _ _). destruct (header_closed header) eqn:Hc; cbn [negb]; [|simpl; lia].
  apply header_closed_len in Hc. rewrite get_slice_head by lia. cbn [obind].
  destruct (parse_decimal _) as [key_len|] eqn:Hp; [|simpl; lia].
  apply parse_decimal_u64 in Hp as [??]. set (key_end := sat_add64 _ _).
  assert (start + 13 + he + 1 <= key_end) by (unfold key_end, sat_add64; lia).
  destruct (zlen l <? key_end) eqn:Hk; [done|]. bool_to_prop.
  rewrite get_slice_ok by lia. cbn [obind step_ok]. unfold sat_add64. lia.
Qed.

Lemma parse_qa_ok l start offset history :
  zlen l < U64_MAX -> 0 <= offset <= start -> start + zlen QA_MARK <= zlen l ->
  step_ok l offset (parse_qa_record l start history).
Proof.
  intros Hl Ho Hs. unfold parse_qa_record. change (zlen QA_MARK) with 12 in *.
  rewrite get_slice_tail by lia. cbn [obind].
  destruct (find_byte _ NL) as [he|] eqn:He; [|done]. apply find_byte_bounds in He.
  rewrite zlen_zdrop in He by lia. rewrite get_slice_ok by lia. cbn [obind].
  set (header := slice l _ _). destruct (find_subslice header A_MARK) as [am|] eqn:Ham; [|simpl; lia].
  destruct (header_closed header) eqn:Hc; cbn [negb]; [|simpl; lia].
  assert (0 <= am /\ am + 3 <= zlen header - 1) as [Ham0 Ham1].
  { assert (A_MARK <> []) as Hne by done. pose proof (find_subslice_spec header A_MARK Hne) as Hf.
    rewrite Ham in Hf. destruct Hf as [(? & Hb & Hsl) _]. change (zlen A_MARK) with 3 in *.
    split; [done|]. destruct (decide (am + 3 = zlen header)) as [Heq|]; [|lia]. exfalso.
    unfold header_closed, byte_at in Hc. apply bool_decide_eq_true in Hc.
    destruct (zlen header - 1 <? 0) eqn:?; [done|]. bool_to_prop.
    assert (A_MARK !! 2%nat = Some Byte.x5d) as Hx; [|done].
    rewrite <- Hsl. unfold slice, ztake, zdrop. rewrite lookup_take_lt, lookup_drop by lia.
    rewrite <- Hc. f_equal. unfold zlen in *. lia. }
  rewrite get_slice_head by lia. cbn [obind].
  destruct (parse_decimal _) as [q_len|] eqn:Hpq; [|simpl; lia]. apply parse_decimal_u64 in Hpq as [??].
  rewrite get_slice_ok by lia. cbn [obind].
  destruct (parse_decimal (slice _ _ _)) as [a_len|] eqn:Hpa; [|simpl; lia].
  apply parse_decimal_u64 in Hpa as [??].
  set (q_end := sat_add64 (_ + 1) q_len). set (a_start := sat_add64 q_end 1).
  set (a_end := sat_add64 a_start a_len). destruct (zlen l <? a_end) eqn:Hk; [done|]. bool_to_prop.
  unfold a_end, a_start, q_end, sat_add64 in *.
  rewrite !get_slice_ok by lia. cbn [obind step_ok]. lia.
Qed.

Lemma next_record_inv rel_qa rel_del rel kind :
  next_record rel_qa rel_del = Some (rel, kind) ->
  if kind then rel_del = Some rel else rel_qa = Some rel.
Proof.
  unfold next_record. destruct rel_qa as [x|], rel_del as [y|]; try (by intros [= <- <-]).
  destruct (y <? x); by intros [= <- <-].
Qed.

Lemma structured_step_ok l offset history :
  zlen l < U64_MAX -> 0 <= offset < zlen l -> step_ok l offset (structured_step l offset history).
Proof.
  intros Hl Ho. unfold structured_step. rewrite get_slice_tail by lia. cbn [obind].
  destruct (next_record _ _) as [[rel kind]|] eqn:Hn.
  2: { destruct (parse_legacy_records_total (zdrop offset l) history) as [h ->]. done. }
  apply next_record_inv in Hn.
  assert (0 <= rel /\ rel + (if kind then 13 else 12) <= zlen l - offset) as [Hr0 Hr1].
  { destruct kind; apply find_subslice_bounds in Hn as [? Hb]; rewrite zlen_zdrop in Hb by lia;
      [change (zlen DEL_MARK) with 13 in Hb|change (zlen QA_MARK) with 12 in Hb]; lia. }
  assert (exists h, (if offset <? offset + rel
    then let? gap := get_slice l offset (offset + rel) in parse_legacy_qa_records gap history
    else Ok history) = Ok h) as [h ->].
  { destruct (offset <? offset + rel) eqn:?; [|eauto]. destruct kind; rewrite get_slice_ok by lia; cbn [obind];
      apply parse_legacy_records_total. }
  cbn [obind]. destruct kind; [apply parse_del_ok|apply parse_qa_ok]; try done; try lia.
  - change (zlen DEL_MARK) with 13. lia.
  - change (zlen QA_MARK) with 12. lia.
Qed.

Lemma structured_loop_total fuel l offset history :
  zlen l < U64_MAX -> 0 <= offset <= zlen l -> zlen l - offset <= Z.of_nat fuel ->
  exists h, structured_loop fuel l offset history = Ok h.
Proof.
  intros Hl. revert offset history. induction fuel as [|fuel IH]; intros offset history Ho Hf;
    cbn [structured_loop]; (destruct (offset <? zlen l) eqn:Hlt; bool_to_prop; cbn [negb]; [|eauto]); [lia|].
  pose proof (structured_step_ok l offset history Hl ltac:(lia)) as Hs.
  destruct (structured_step l offset history) as [[off h|h]| | |]; try done; cbn [obind]; [|eauto].
  simpl in Hs. apply IH; lia.
Qed.

(** ** Entries and their bytes *)

Inductive entry :=
| EQa (q a : bytes)
| EDel (k : bytes).

Definition entry_mark (e : entry) : bytes := match e with EQa _ _ => QA_MARK | EDel _ => DEL_MARK end.

(** The header between the marker and its line end. *)
Definition entry_header (e : entry) : bytes :=
  match e with
  | EQa q a => append_decimal [] (zlen q) ++ A_MARK ++ append_decimal [] (zlen a) ++ bstr "]"
  | EDel k => append_decimal [] (zlen k) ++ bstr "]"
  end.

Definition entry_body (e : entry) : bytes :=
  match e with EQa q a => q ++ [NL] ++ a | EDel k => k end.

(** An entry without its final line end. *)
Definition entry_core (e : entry) : bytes := entry_mark e ++ entry_header e ++ [NL] ++ entry_body e.
Definition entry_bytes (e : entry) : bytes := entry_core e ++ [NL].

(** What an entry does to the history. *)
Definition replay (history : list QaRecord) (e : entry) : list QaRecord :=
  match e with
  | EQa q a => upsert_history_record history (mkQaRecord q a)
  | EDel k =>
      if zlen (trim_ascii k) =? 0 then history else fst (forget_history_records history (trim_ascii k))
  end.

Lemma append_serialized_qa_bytes target q a :
  append_serialized_qa target q a = push_separator target ++ entry_bytes (EQa q a).
Proof.
  unfold append_serialized_qa, entry_bytes, entry_core, entry_header, HEADER_END.
  cbn [entry_mark entry_body].
  rewrite (append_decimal_app (_ ++ A_MARK)), (append_decimal_app (_ ++ QA_MARK)).
  by rewrite <- !app_assoc.
Qed.

Lemma append_serialized_forget_bytes target k :
  append_serialized_forget target k = push_separator target ++ entry_bytes (EDel k).
Proof.
  unfold append_serialized_forget, entry_bytes, entry_core, entry_header, HEADER_END.
  cbn [entry_mark entry_body]. rewrite append_decimal_app. by rewrite <- !app_assoc.
Qed.

(** *** Slices of a concatenation *)

Lemma get_slice_mid {E} (A B C : bytes) a b :
  a = zlen A -> b = zlen A + zlen B -> get_slice (E := E) (A ++ B ++ C) a b = Ok B.
Proof.
  intros -> ->. pose proof (zlen_nonneg A). pose proof (zlen_nonneg B). pose proof (zlen_nonneg C).
  rewrite get_slice_ok by (rewrite ?zlen_app; lia). f_equal. unfold slice.
  rewrite zdrop_app_ge, zdrop_0 by lia. rewrite ztake_app_le by lia. apply ztake_all. lia.
Qed.

Lemma get_slice_rest {E} (A B : bytes) a :
  a = zlen A -> get_slice (E := E) (A ++ B) a (zlen (A ++ B)) = Ok B.
Proof.
  intros ->. pose proof (zlen_nonneg A). pose proof (zlen_nonneg B).
  rewrite get_slice_tail by (rewrite zlen_app; lia). by rewrite zdrop_app_ge, zdrop_0 by lia.
Qed.

Lemma occurs_at_lookup needle l i k b :
  occurs_at needle l i -> needle !! k = Some b -> l !! (Z.to_nat i + k)%nat = Some b.
Proof.
  intros (? & ? & Hs) Hk. rewrite <- Hs in Hk. unfold slice, ztake, zdrop in Hk.
  apply lookup_take_Some in Hk as [Hk _]. by rewrite lookup_drop in Hk.
Qed.

(** The header up to its closing bracket has no line end and no blank but the
    one of " a=". *)
Lemma digit_not v b : b ∈ append_decimal [] v -> b <> NL /\ b <> Byte.x20.
Proof. intros Hd%append_decimal_digit. by split; intros ->. Qed.

Lemma entry_header_no_nl e : NL ∉ entry_header e.
Proof.
  assert (forall v, NL ∉ append_decimal [] v) as Hd by (intros v Hb; by apply digit_not in Hb as []).
  assert (NL ∉ A_MARK) by (apply (bool_decide_unpack _); by vm_compute).
  assert (NL ∉ bstr "]") by (apply (bool_decide_unpack _); by vm_compute).
  destruct e; cbn [entry_header]; rewrite !not_elem_of_app; auto.
Qed.

Lemma header_closed_app h : header_closed (h ++ bstr "]") = true.
Proof.
  unfold header_closed, byte_at. rewrite zlen_app. change (zlen (bstr "]")) with 1.
  pose proof (zlen_nonneg h). guard_false (zlen h + 1 - 1 <? 0). apply bool_decide_eq_true.
  unfold zlen. rewrite lookup_app_r by lia.
  by replace (Z.to_nat (Z.of_nat (length h) + 1 - 1) - length h)%nat with O by lia.
Qed.

Lemma find_a_mark v rest :
  find_subslice (append_decimal [] v ++ A_MARK ++ rest) A_MARK = Some (zlen (append_decimal [] v)).
Proof.
  apply find_subslice_first; [done|]. intros j Hj Ho.
  apply (occurs_at_lookup _ _ _ 0 Byte.x20) in Ho; [|done].
  rewrite Nat.add_0_r, lookup_app_l in Ho by (unfold zlen in Hj; lia).
  apply list_elem_of_lookup_2, digit_not in Ho as [_ []]. done.
Qed.

Lemma find_nl_first l R : NL ∉ l -> find_byte (l ++ [NL] ++ R) NL = Some (zlen l).
Proof. apply find_byte_first. Qed.

(** *** One record of either kind, followed by any bytes [R] *)

Lemma slice_app_shift (A R : bytes) a b :
  0 <= a <= b -> b <= zlen R -> slice (A ++ R) (zlen A + a) (zlen A + b) = slice R a b.
Proof.
  intros. pose proof (zlen_nonneg A). unfold slice.
  rewrite zdrop_app_ge by lia. f_equal; [lia|]. f_equal. lia.
Qed.

Lemma get_slice_shift {E} (A R : bytes) x a b :
  x = zlen A -> 0 <= a <= b -> b <= zlen R ->
  get_slice (E := E) (A ++ R) (x + a) (x + b) = Ok (slice R a b).
Proof.
  intros ->. intros. pose proof (zlen_nonneg A).
  rewrite get_slice_ok by (rewrite ?zlen_app; lia). by rewrite slice_app_shift.
Qed.

(** The header of a record and the position after it. *)
Definition record_end (P : bytes) (e : entry) : Z := zlen P + zlen (entry_mark e) + zlen (entry_header e) + 1.

Lemma parse_qa_record_at P q a R h :
  let e := EQa q a in
  let l := P ++ entry_mark e ++ entry_header e ++ [NL] ++ R in
  zlen l < U64_MAX -> record_end P e + zlen q + zlen a + 2 <= U64_MAX ->
  parse_qa_record l (zlen P) h
  = if zlen R <? zlen q + 1 + zlen a then Ok (Break h)
    else Ok (Continue (Z.min (record_end P e + zlen q + 1 + zlen a + 1) (zlen l))
               (upsert_history_record h (mkQaRecord (slice R 0 (zlen q))
                  (slice R (zlen q + 1) (zlen q + 1 + zlen a))))).
Proof.
  intros e l Hl Hu. pose proof (zlen_nonneg P). pose proof (zlen_nonneg q). pose proof (zlen_nonneg a).
  pose proof (zlen_nonneg (entry_header e)). pose proof (zlen_nonneg R).
  unfold record_end in *. change (entry_mark e) with QA_MARK in *. change (zlen QA_MARK) with 12 in *.
  assert (l = (P ++ QA_MARK) ++ entry_header e ++ [NL] ++ R) as Hl1 by (unfold l; by rewrite <- app_assoc).
  assert (l = ((P ++ QA_MARK) ++ entry_header e ++ [NL]) ++ R) as Hl2
    by (rewrite Hl1; by rewrite <- !app_assoc).
  assert (zlen (P ++ QA_MARK) = zlen P + 12) as Hz1 by (rewrite zlen_app; done).
  set (A := (P ++ QA_MARK) ++ entry_header e ++ [NL]) in *.
  assert (zlen A = zlen P + 12 + zlen (entry_header e) + 1) as Hz2
    by (unfold A; rewrite !zlen_app, ?Hz1; change (zlen [NL]) with 1; change (zlen QA_MARK) with 12; lia).
  assert (zlen l = zlen A + zlen R) as HlR by (rewrite Hl2, zlen_app; lia).
  unfold parse_qa_record. change (zlen QA_MARK) with 12.
  rewrite Hl1 at 1 2. rewrite get_slice_rest by lia. cbn [obind].
  rewrite find_nl_first by apply entry_header_no_nl.
  rewrite Hl1 at 1. rewrite get_slice_mid by lia. cbn [obind].
  set (dq := append_decimal [] (zlen q)). set (da := append_decimal [] (zlen a)).
  assert (entry_header e = dq ++ A_MARK ++ da ++ bstr "]") as Hhd by done.
  assert (zlen (entry_header e) = zlen dq + 3 + zlen da + 1) as Hzh
    by (rewrite Hhd, !zlen_app; change (zlen A_MARK) with 3; change (zlen (bstr "]")) with 1; lia).
  assert (find_subslice (entry_header e) A_MARK = Some (zlen dq)) as -> by apply find_a_mark.
  assert (header_closed (entry_header e) = true) as ->.
  { rewrite Hhd. replace (dq ++ A_MARK ++ da ++ bstr "]") with ((dq ++ A_MARK ++ da) ++ bstr "]")
      by (by rewrite <- !app_assoc). apply header_closed_app. }
  cbn [negb]. pose proof (zlen_nonneg dq). pose proof (zlen_nonneg da).
  replace (get_slice (entry_header e) 0 (zlen dq)) with (Ok (E := unit) dq)
    by (rewrite Hhd; symmetry; by apply (get_slice_mid [] dq)). cbn [obind].
  unfold dq at 1. rewrite parse_append_decimal by ulia.
  replace (get_slice (entry_header e) (zlen dq + 3) (zlen (entry_header e) - 1)) with (Ok (E := unit) da).
  2: { rewrite Hhd at 1. rewrite (app_assoc dq), get_slice_mid; [done|..]; rewrite ?Hzh, zlen_app;
       change (zlen A_MARK) with 3; lia. }
  cbn [obind]. unfold da at 1. rewrite parse_append_decimal by ulia.
  unfold sat_add64. rewrite !Z.min_r by lia.
  replace (zlen l <? _) with (zlen R <? zlen q + 1 + zlen a) by lia.
  destruct (zlen R <? zlen q + 1 + zlen a) eqn:HR; [done|]. bool_to_prop.
  rewrite Hl2 at 1.
  replace (zlen P + 12 + zlen (entry_header e) + 1) with (zlen A + 0) at 1 by lia.
  replace (zlen P + 12 + zlen (entry_header e) + 1 + zlen q) with (zlen A + zlen q) at 1 by lia.
  rewrite get_slice_shift by lia. cbn [obind]. rewrite Hl2 at 1.
  replace (zlen P + 12 + zlen (entry_header e) + 1 + zlen q + 1) with (zlen A + (zlen q + 1)) at 1 by lia.
  replace (zlen P + 12 + zlen (entry_header e) + 1 + zlen q + 1 + zlen a)
    with (zlen A + (zlen q + 1 + zlen a)) at 1 by lia.
  rewrite get_slice_shift by lia. cbn [obind]. do 2 f_equal. lia.
Qed.

Lemma parse_del_record_at P k R h :
  let e := EDel k in
  let l := P ++ entry_mark e ++ entry_header e ++ [NL] ++ R in
  zlen l < U64_MAX -> record_end P e + zlen k + 1 <= U64_MAX ->
  parse_del_record l (zlen P) h
  = if zlen R <? zlen k then Ok (Break h)
    else Ok (Continue (Z.min (record_end P e + zlen k + 1) (zlen l)) (replay h (EDel (slice R 0 (zlen k))))).
Proof.
  intros e l Hl Hu. pose proof (zlen_nonneg P). pose proof (zlen_nonneg k).
  pose proof (zlen_nonneg (entry_header e)). pose proof (zlen_nonneg R).
  unfold record_end in *. change (entry_mark e) with DEL_MARK in *. change (zlen DEL_MARK) with 13 in *.
  assert (l = (P ++ DEL_MARK) ++ entry_header e ++ [NL] ++ R) as Hl1 by (unfold l; by rewrite <- app_assoc).
  assert (l = ((P ++ DEL_MARK) ++ entry_header e ++ [NL]) ++ R) as Hl2
    by (rewrite Hl1; by rewrite <- !app_assoc).
  assert (zlen (P ++ DEL_MARK) = zlen P + 13) as Hz1 by (rewrite zlen_app; done).
  set (A := (P ++ DEL_MARK) ++ entry_header e ++ [NL]) in *.
  assert (zlen A = zlen P + 13 + zlen (entry_header e) + 1) as Hz2
    by (unfold A; rewrite !zlen_app, ?Hz1; change (zlen [NL]) with 1; change (zlen DEL_MARK) with 13; lia).
  assert (zlen l = zlen A + zlen R) as HlR by (rewrite Hl2, zlen_app; lia).
  unfold parse_del_record. change (zlen DEL_MARK) with 13.
  rewrite Hl1 at 1 2. rewrite get_slice_rest by lia. cbn [obind].
  rewrite find_nl_first by apply entry_header_no_nl.
  rewrite Hl1 at 1. rewrite get_slice_mid by lia. cbn [obind].
  set (dk := append_decimal [] (zlen k)).
  assert (entry_header e = dk ++ bstr "]") as Hhd by done.
  assert (zlen (entry_header e) = zlen dk + 1) as Hzh by (rewrite Hhd, !zlen_app; done).
  rewrite Hhd at 1. rewrite header_closed_app. cbn [negb]. pose proof (zlen_nonneg dk).
  replace (get_slice (entry_header e) 0 (zlen (entry_header e) - 1)) with (Ok (E := unit) dk)
    by (rewrite Hzh, Hhd; symmetry; apply (get_slice_mid [] dk); [done|change (zlen (@nil byte)) with 0; lia]).
  cbn [obind]. unfold dk at 1. rewrite parse_append_decimal by ulia.
  unfold sat_add64. rewrite !Z.min_r by lia.
  replace (zlen l <? _) with (zlen R <? zlen k) by lia.
  destruct (zlen R <? zlen k) eqn:HR; [done|]. bool_to_prop.
  rewrite Hl2 at 1.
  replace (zlen P + 13 + zlen (entry_header e) + 1) with (zlen A + 0) at 1 by lia.
  replace (zlen P + 13 + zlen (entry_header e) + 1 + zlen k) with (zlen A + zlen k) at 1 by lia.
  rewrite get_slice_shift by lia. cbn [obind replay].
  destruct (zlen (trim_ascii _) =? 0); cbn [negb]; do 2 f_equal; lia.
Qed.

(** *** One iteration at an entry *)

Definition is_sep (s : bytes) : Prop := s = [] \/ s = [NL].

Lemma mark_not_in_sep S needle rest j :
  is_sep S -> needle !! O = Some Byte.x5b -> 0 <= j < zlen S -> ~ occurs_at needle (S ++ rest) j.
Proof.
  intros [->| ->] Hn Hj Ho; [change (zlen (@nil byte)) with 0 in Hj; lia|].
  change (zlen [NL]) with 1 in Hj. assert (j = 0) as -> by lia.
  apply (occurs_at_lookup _ _ _ 0 Byte.x5b) in Ho; done.
Qed.

Lemma find_mark_qa S rest :
  is_sep S -> next_record (find_subslice (S ++ QA_MARK ++ rest) QA_MARK)
                (find_subslice (S ++ QA_MARK ++ rest) DEL_MARK) = Some (zlen S, false).
Proof.
  intros HS. pose proof (zlen_nonneg S).
  rewrite find_subslice_first by (done || intros; by apply mark_not_in_sep). unfold next_record.
  pose proof (find_subslice_spec (S ++ QA_MARK ++ rest) DEL_MARK ltac:(done)) as Hd.
  destruct (find_subslice _ DEL_MARK) as [j|]; [|done]. destruct Hd as [Ho _].
  destruct (j <? zlen S) eqn:Hj; [|done]. bool_to_prop. exfalso.
  by apply (mark_not_in_sep S DEL_MARK (QA_MARK ++ rest) j); [| |destruct Ho; lia|].
Qed.

Lemma find_mark_del S rest :
  is_sep S -> next_record (find_subslice (S ++ DEL_MARK ++ rest) QA_MARK)
                (find_subslice (S ++ DEL_MARK ++ rest) DEL_MARK) = Some (zlen S, true).
Proof.
  intros HS. pose proof (zlen_nonneg S).
  rewrite (find_subslice_first S DEL_MARK) by (done || intros; by apply mark_not_in_sep).
  unfold next_record.
  pose proof (find_subslice_spec (S ++ DEL_MARK ++ rest) QA_MARK ltac:(done)) as Hq.
  destruct (find_subslice _ QA_MARK) as [j|]; [|done]. destruct Hq as [Ho _].
  destruct (zlen S <? j) eqn:Hj; [done|]. bool_to_prop. exfalso.
  destruct (decide (j = zlen S)) as [->|].
  - apply (occurs_at_lookup _ _ _ 4 Byte.x51) in Ho; [|done]. unfold zlen in Ho.
    rewrite Nat2Z.id, lookup_app_r in Ho by lia.
    replace (length S + 4 - length S)%nat with 4%nat in Ho by lia. done.
  - by apply (mark_not_in_sep S QA_MARK (DEL_MARK ++ rest) j); [| |destruct Ho; lia|].
Qed.

Lemma legacy_sep S h : is_sep S -> parse_legacy_qa_records S h = Ok h.
Proof. by intros [->| ->]. Qed.

(** [structured_step] at an entry whose marker is complete: skip the separator
    and parse the record. *)
Lemma structured_step_at P S e R h :
  is_sep S ->
  let l := P ++ S ++ entry_mark e ++ R in
  structured_step l (zlen P) h
  = (match e with EQa _ _ => parse_qa_record | EDel _ => parse_del_record end) l (zlen (P ++ S)) h.
Proof.
  intros HS l. pose proof (zlen_nonneg P). pose proof (zlen_nonneg S). unfold structured_step.
  unfold l at 1 2. rewrite get_slice_rest by done. cbn [obind].
  assert (next_record (find_subslice (S ++ entry_mark e ++ R) QA_MARK)
    (find_subslice (S ++ entry_mark e ++ R) DEL_MARK)
    = Some (zlen S, match e with EQa _ _ => false | EDel _ => true end)) as ->
    by (destruct e; [by apply find_mark_qa|by apply find_mark_del]).
  rewrite zlen_app.
  replace (if zlen P <? zlen P + zlen S
    then let? gap := get_slice l (zlen P) (zlen P + zlen S) in parse_legacy_qa_records gap h
    else Ok h) with (Ok (E := unit) h).
  2: { destruct (zlen P <? zlen P + zlen S); [|done]. unfold l. rewrite get_slice_mid by done.
       cbn [obind]. by rewrite legacy_sep. }
  cbn [obind]. by destruct e.
Qed.

Lemma slice_mid (A B C : bytes) a b :
  a = zlen A -> b = zlen A + zlen B -> slice (A ++ B ++ C) a b = B.
Proof. intros -> ->. by destruct (occurs_at_app B A C) as (_ & _ & ?). Qed.

Lemma zlen_entry_core e :
  zlen (entry_core e) = zlen (entry_mark e) + zlen (entry_header e) + 1 + zlen (entry_body e).
Proof. unfold entry_core. rewrite !zlen_app. change (zlen [NL]) with 1. lia. Qed.

(** A complete entry is replayed and skipped, with its line end if present. *)
Lemma step_entry P S e rest h :
  is_sep S ->
  let l := P ++ S ++ entry_core e ++ rest in
  zlen l < U64_MAX ->
  structured_step l (zlen P) h
  = Ok (Continue (Z.min (zlen P + zlen S + zlen (entry_core e) + 1) (zlen l)) (replay h e)).
Proof.
  intros HS l Hl. pose proof (zlen_entry_core e) as Hz. pose proof (zlen_nonneg rest).
  assert (zlen l = zlen P + zlen S + zlen (entry_core e) + zlen rest) as Hzl
    by (unfold l; rewrite !zlen_app; lia).
  assert (l = P ++ S ++ entry_mark e ++ entry_header e ++ [NL] ++ entry_body e ++ rest) as Hl1
    by (unfold l, entry_core; by rewrite <- !app_assoc).
  rewrite Hl1 at 1. rewrite structured_step_at by done. rewrite (app_assoc P S).
  assert (zlen (P ++ S) = zlen P + zlen S) as HPS by apply zlen_app.
  assert (record_end (P ++ S) e + zlen (entry_body e) = zlen P + zlen S + zlen (entry_core e)) as Hre
    by (unfold record_end; lia).
  assert (l = (P ++ S) ++ entry_mark e ++ entry_header e ++ [NL] ++ entry_body e ++ rest) as Hl2
    by (rewrite Hl1; by rewrite <- app_assoc).
  destruct e as [q a|k]; cbn [entry_body] in *.
  - rewrite !zlen_app in Hre. change (zlen [NL]) with 1 in Hre.
    assert (zlen ((q ++ [NL] ++ a) ++ rest) = zlen q + 1 + zlen a + zlen rest) as HzR
      by (rewrite !zlen_app; change (zlen [NL]) with 1; lia).
    rewrite parse_qa_record_at by (rewrite <- ?Hl2; lia). rewrite <- Hl2.
    guard_false (zlen ((q ++ [NL] ++ a) ++ rest) <? zlen q + 1 + zlen a).
    do 2 f_equal; [lia|]. cbn [replay]. do 2 f_equal.
    + rewrite <- app_assoc. by apply (slice_mid []).
    + replace ((q ++ [NL] ++ a) ++ rest) with ((q ++ [NL]) ++ a ++ rest) by (by rewrite <- !app_assoc).
      apply slice_mid; rewrite zlen_app; done.
  - rewrite parse_del_record_at by (rewrite <- ?Hl2; lia). rewrite <- Hl2.
    rewrite zlen_app. guard_false (zlen k + zlen rest <? zlen k).
    do 2 f_equal; [lia|]. do 2 f_equal. by apply (slice_mid []).
Qed.

(** *** A cut entry *)

Lemma trunc_mark_none S e n :
  is_sep S -> (n < length (S ++ entry_mark e))%nat ->
  let t := take n (S ++ entry_mark e) in
  find_subslice t QA_MARK = None /\ find_subslice t DEL_MARK = None /\
  find_subslice t (bstr "Q: ") = None.
Proof.
  intros [->| ->] Hn; destruct e; cbn [entry_mark] in *;
    (do 14 (destruct n as [|n]; [first [by vm_compute|simpl in Hn; lia]|]));
    simpl in Hn; lia.
Qed.

Lemma legacy_none l h : find_subslice l (bstr "Q: ") = None -> parse_legacy_qa_records l h = Ok h.
Proof. intros Hf. unfold parse_legacy_qa_records. cbn [parse_legacy_loop]. by rewrite Hf. Qed.

Lemma parse_record_no_nl P e R h :
  NL ∉ R ->
  (match e with EQa _ _ => parse_qa_record | EDel _ => parse_del_record end)
    (P ++ entry_mark e ++ R) (zlen P) h = Ok (Break h).
Proof.
  intros HR. destruct e; cbn [entry_mark]; [unfold parse_qa_record|unfold parse_del_record];
    rewrite (app_assoc P), get_slice_rest by (by rewrite zlen_app); cbn [obind];
    rewrite (find_byte_none _ _ HR); done.
Qed.

Lemma ztake_app_split n (A B : bytes) :
  ztake n (A ++ B) = ztake n A ++ ztake (n - zlen A) B.
Proof. unfold ztake, zlen. rewrite take_app. f_equal. f_equal. lia. Qed.

Lemma step_cut P S e n h :
  is_sep S -> 0 <= n < zlen (S ++ entry_core e) -> zlen (P ++ S ++ entry_core e) < U64_MAX - 1 ->
  structured_step (P ++ ztake n (S ++ entry_core e)) (zlen P) h = Ok (Break h).
Proof.
  intros HS Hn Hl. pose proof (zlen_entry_core e) as Hz. pose proof (zlen_nonneg P).
  pose proof (zlen_nonneg S). pose proof (zlen_nonneg (entry_header e)).
  pose proof (zlen_nonneg (entry_mark e)). pose proof (zlen_nonneg (entry_body e)).
  rewrite !zlen_app in Hl. rewrite zlen_app in Hn.
  destruct (decide (n < zlen (S ++ entry_mark e))) as [Hm|Hm].
  - assert (ztake n (S ++ entry_core e) = ztake n (S ++ entry_mark e)) as ->.
    { unfold entry_core. rewrite (app_assoc S), ztake_app_le by lia. done. }
    destruct (trunc_mark_none S e (Z.to_nat n)) as (Hq & Hd & Hleg); [done|unfold zlen in Hm; lia|].
    unfold structured_step. rewrite get_slice_rest by done. cbn [obind]. unfold ztake.
    rewrite Hq, Hd. cbn [next_record]. by rewrite legacy_none.
  - rewrite zlen_app in Hm.
    set (m := n - zlen S - zlen (entry_mark e)).
    assert (ztake n (S ++ entry_core e)
      = S ++ entry_mark e ++ ztake m (entry_header e ++ [NL] ++ entry_body e)) as ->.
    { unfold entry_core. rewrite ztake_app_split, (ztake_all n S) by lia.
      rewrite ztake_app_split, ztake_all by lia. do 3 f_equal. }
    rewrite structured_step_at by done. rewrite (app_assoc P S).
    destruct (decide (m <= zlen (entry_header e))) as [Hmh|Hmh].
    + rewrite ztake_app_le by done. apply parse_record_no_nl.
      intros Hin. apply (entry_header_no_nl e). by apply (subseteq_take (Z.to_nat m)).
    + rewrite ztake_app_split, ztake_all by lia.
      set (m' := m - zlen (entry_header e) - 1).
      assert (ztake (m - zlen (entry_header e)) ([NL] ++ entry_body e) = [NL] ++ ztake m' (entry_body e))
        as -> by (rewrite ztake_app_split, ztake_all; [done|change (zlen [NL]) with 1; lia]).
      assert (zlen (ztake m' (entry_body e)) = m') as Hm' by (rewrite zlen_ztake; lia).
      destruct e as [q a|k]; cbn [entry_body] in *.
      * assert (zlen (q ++ [NL] ++ a) = zlen q + 1 + zlen a) as Hb
          by (rewrite !zlen_app; change (zlen [NL]) with 1; lia).
        rewrite parse_qa_record_at; [rewrite Hm'; by guard_true (m' <? zlen q + 1 + zlen a)|..];
          unfold record_end; rewrite ?zlen_app, ?Hm'; change (zlen [NL]) with 1; lia.
      * rewrite parse_del_record_at; [rewrite Hm'; by guard_true (m' <? zlen k)|..];
          unfold record_end; rewrite ?zlen_app, ?Hm'; change (zlen [NL]) with 1; lia.
Qed.

(** ** Streams

    Records follow each other with or without an empty line between them: the
    shell separates the records of one session, not those of two. *)
Definition sep_of (sep : bool) : bytes := if sep then [NL] else [].

Fixpoint stream (es : list (bool * entry)) : bytes :=
  match es with
  | [] => []
  | (sep, e) :: es => sep_of sep ++ entry_bytes e ++ stream es
  end.

(** The entries that lie before byte [n] of the stream, their line end aside. *)
Fixpoint whole (n : Z) (es : list (bool * entry)) : list entry :=
  match es with
  | [] => []
  | (sep, e) :: es =>
      if zlen (sep_of sep ++ entry_core e) <=? n
      then e :: whole (n - zlen (sep_of sep ++ entry_core e) - 1) es else []
  end.

Lemma sep_of_is_sep sep : is_sep (sep_of sep).
Proof. destruct sep; [by right|by left]. Qed.

Lemma whole_neg n es : n < 0 -> whole n es = [].
Proof.
  intros Hn. destruct es as [|[sep e] es]; [done|]. cbn [whole].
  pose proof (zlen_nonneg (sep_of sep ++ entry_core e)).
  by guard_false (zlen (sep_of sep ++ entry_core e) <=? n).
Qed.

Lemma whole_all n es : zlen (stream es) <= n -> whole n es = snd <$> es.
Proof.
  revert n. induction es as [|[sep e] es IH]; intros n Hn; [done|]. cbn [whole stream] in *.
  unfold entry_bytes in Hn. rewrite !zlen_app in *. change (zlen [NL]) with 1 in Hn.
  pose proof (zlen_nonneg (stream es)). guard_true (zlen (sep_of sep) + zlen (entry_core e) <=? n).
  cbn [fmap list_fmap snd]. f_equal. apply IH. lia.
Qed.

Lemma entry_core_pos e : 0 < zlen (entry_core e).
Proof.
  rewrite zlen_entry_core. pose proof (zlen_nonneg (entry_mark e)).
  pose proof (zlen_nonneg (entry_header e)). pose proof (zlen_nonneg (entry_body e)). lia.
Qed.

Lemma structured_loop_done fuel l offset h :
  zlen l <= offset -> structured_loop fuel l offset h = Ok h.
Proof. intros Hl. destruct fuel; cbn [structured_loop]; by guard_false (offset <? zlen l). Qed.

Lemma parse_stream_loop es P n h fuel :
  zlen (P ++ stream es) < U64_MAX - 1 -> zlen (ztake n (stream es)) <= Z.of_nat fuel ->
  structured_loop fuel (P ++ ztake n (stream es)) (zlen P) h = Ok (foldl replay h (whole n es)).
Proof.
  revert P n h fuel. induction es as [|[sep e] es IH]; intros P n h fuel Hl Hf.
  { cbn [stream]. unfold ztake. rewrite take_nil, app_nil_r. by apply structured_loop_done. }
  pose proof (entry_core_pos e). pose proof (zlen_nonneg (sep_of sep)). pose proof (zlen_nonneg P).
  pose proof (zlen_nonneg (stream es)). pose proof (sep_of_is_sep sep) as HS.
  set (C := sep_of sep ++ entry_core e). assert (zlen C = zlen (sep_of sep) + zlen (entry_core e)) as HC
    by apply zlen_app.
  assert (stream ((sep, e) :: es) = C ++ [NL] ++ stream es) as Hst
    by (unfold C; cbn [stream]; unfold entry_bytes; by rewrite <- !app_assoc).
  rewrite Hst in *. rewrite !zlen_app in Hl. change (zlen [NL]) with 1 in Hl. cbn [whole]. fold C.
  destruct (zlen C <=? n) eqn:Hn; bool_to_prop; cbn [foldl].
  - rewrite ztake_app_ge in * by lia. set (R := ztake (n - zlen C) ([NL] ++ stream es)) in *.
    assert (zlen R = Z.min (n - zlen C) (1 + zlen (stream es))) as HR
      by (unfold R; rewrite zlen_ztake, zlen_app; change (zlen [NL]) with 1; lia).
    rewrite zlen_app in Hf. destruct fuel as [|fuel]; [lia|]. cbn [structured_loop].
    rewrite (zlen_app P), (zlen_app C).
    guard_true (zlen P <? zlen P + (zlen C + zlen R)). cbn [negb].
    assert (P ++ C ++ R = P ++ sep_of sep ++ entry_core e ++ R) as Heq by (unfold C; by rewrite <- app_assoc).
    rewrite Heq at 1. rewrite step_entry by (try done; rewrite !zlen_app; lia). cbn [obind].
    rewrite <- Heq, (zlen_app P), (zlen_app C).
    destruct (decide (n = zlen C)) as [->|Hne].
    + rewrite whole_neg by lia. cbn [foldl]. apply structured_loop_done. rewrite !zlen_app. lia.
    + rewrite Z.min_l by lia.
      assert (P ++ C ++ R = (P ++ C ++ [NL]) ++ ztake (n - zlen C - 1) (stream es)) as ->.
      { unfold R. rewrite (ztake_app_ge _ [NL]) by (change (zlen [NL]) with 1; lia).
        rewrite <- !app_assoc. done. }
      replace (zlen P + zlen (sep_of sep) + zlen (entry_core e) + 1) with (zlen (P ++ C ++ [NL]))
        by (rewrite !zlen_app; change (zlen [NL]) with 1; lia).
      apply IH; [rewrite !zlen_app; change (zlen [NL]) with 1; lia|].
      rewrite zlen_ztake. lia.
  - rewrite ztake_app_le in * by lia. destruct (decide (n <= 0)) as [|Hpos].
    { rewrite ztake_0, app_nil_r by done. by apply structured_loop_done. }
    assert (zlen (ztake n C) = n) as Hzn by (rewrite zlen_ztake; lia).
    destruct fuel as [|fuel]; [lia|]. cbn [structured_loop]. rewrite zlen_app, Hzn.
    guard_true (zlen P <? zlen P + n). cbn [negb]. unfold C.
    rewrite step_cut; [done|done|fold C; lia|fold C; rewrite zlen_app; lia].
Qed.

(** *** The bytes the shell writes are streams *)

Lemma stream_app es1 es2 : stream (es1 ++ es2) = stream es1 ++ stream es2.
Proof.
  induction es1 as [|[sep e] es1 IH]; [done|]. cbn [app stream]. by rewrite IH, <- !app_assoc.
Qed.

(** A session buffer holds the entries [es], the first without a separator. *)
Definition delta_of (es : list entry) : bytes :=
  match es with
  | [] => []
  | e :: es => stream ((false, e) :: ((fun e => (true, e)) <$> es))
  end.

Lemma delta_of_snoc es e : delta_of (es ++ [e]) = push_separator (delta_of es) ++ entry_bytes e.
Proof.
  destruct es as [|e0 es]; cbn [app delta_of].
  - cbn [stream sep_of app fmap list_fmap]. by rewrite app_nil_r.
  - rewrite fmap_app. cbn [fmap list_fmap].
    rewrite app_comm_cons, stream_app. cbn [stream sep_of]. rewrite app_nil_r.
    cbn [app]. set (x := entry_bytes e0 ++ _). assert (0 < zlen x) as Hx.
    { unfold x, entry_bytes. rewrite !zlen_app. pose proof (entry_core_pos e0).
      pose proof (zlen_nonneg (stream ((fun e => (true, e)) <$> es))). change (zlen [NL]) with 1. lia. }
    destruct x as [|b l]; [done|]. cbn [push_separator]. by rewrite <- app_assoc.
Qed.

Lemma append_serialized_qa_delta es q a :
  append_serialized_qa (delta_of es) q a = delta_of (es ++ [EQa q a]).
Proof. by rewrite append_serialized_qa_bytes, delta_of_snoc. Qed.

Lemma append_serialized_forget_delta es k :
  append_serialized_forget (delta_of es) k = delta_of (es ++ [EDel k]).
Proof. by rewrite append_serialized_forget_bytes, delta_of_snoc. Qed.
