(* ===== verification/HistoryTheorems.v ===== *)
(** * The history: theorems

    Invariants of the record vector, bounds of the session buffer, and the
    agreement between the live history and the one a reboot reloads. *)

From S2P Require Import Prelude AppText History HistorySpec.

(** ** Records *)

Lemma retain_filter f h : retain f h = filter (fun r => f r = true) h.
Proof.
  induction h as [|r h IH]; [done|]. cbn [retain]. rewrite filter_cons, IH.
  destruct (f r) eqn:E; [by rewrite decide_True|by rewrite decide_False; [|congruence]].
Qed.

Lemma forget_fst h k :
  fst (forget_history_records h k) = filter (fun r => record_matches_forget_phrase r k = false) h.
Proof.
  unfold forget_history_records. cbn [fst]. rewrite retain_filter. apply list_filter_iff.
  intros r. by rewrite negb_true_iff.
Qed.

Lemma zlen_filter_split {A} (P : A -> Prop) `{!forall r, Decision (P r)} (h : list A) :
  zlen (filter P h) + zlen (filter (fun r => ~ P r) h) = zlen h.
Proof.
  induction h as [|r h IH]; [done|]. rewrite !filter_cons, zlen_cons.
  destruct (decide (P r)); [rewrite decide_False by auto|rewrite decide_True by done];
    rewrite zlen_cons; lia.
Qed.

(** The memory keys held by a history. *)
Definition keys (h : list QaRecord) : list bytes := omap qa_record_key h.

Lemma keys_filter (P : QaRecord -> Prop) `{!forall r, Decision (P r)} h :
  keys (filter P h) `sublist_of` keys h.
Proof.
  unfold keys. induction h as [|r h IH]; [done|]. rewrite filter_cons.
  destruct (decide (P r)); cbn [omap list_omap]; destruct (qa_record_key r); auto using sublist_skip, sublist_cons.
Qed.

Lemma keys_app h1 h2 : keys (h1 ++ h2) = keys h1 ++ keys h2.
Proof. apply omap_app. Qed.

Lemma keys_elem h k : k ∈ keys h <-> exists r, r ∈ h /\ qa_record_key r = Some k.
Proof. apply list_elem_of_omap. Qed.

Lemma upsert_keys_nodup h r : NoDup (keys h) -> NoDup (keys (upsert_history_record h r)).
Proof.
  intros Hn. unfold upsert_history_record. rewrite keys_app. apply NoDup_app.
  destruct (qa_record_key r) as [k|] eqn:Hk.
  - rewrite retain_filter. split_and!.
    + eapply sublist_NoDup; [done|apply keys_filter].
    + intros k' Hk' Hin. unfold keys in Hin. cbn in Hin. rewrite Hk in Hin.
      apply list_elem_of_singleton in Hin as ->.
      apply keys_elem in Hk' as (r' & Hr' & Hkr). apply list_elem_of_filter in Hr' as [Hf _].
      apply negb_true_iff, bool_decide_eq_false in Hf. done.
    + unfold keys. cbn. rewrite Hk. apply NoDup_singleton.
  - unfold keys at 3 4. cbn. rewrite Hk. split_and!; [done|by intros ? _ ?%elem_of_nil|constructor].
Qed.

Lemma forget_keys_nodup h k : NoDup (keys h) -> NoDup (keys (fst (forget_history_records h k))).
Proof. intros Hn. rewrite forget_fst. eapply sublist_NoDup; [done|apply keys_filter]. Qed.

Lemma sublist_suffix_keys h1 h2 : NoDup (keys (h1 ++ h2)) -> NoDup (keys h2).
Proof. rewrite keys_app. intros (_ & _ & ?)%NoDup_app. done. Qed.

(** Whatever [upsert] and [forget] preserve, parsing preserves. *)
Section preserved.
Context (I : list QaRecord -> Prop).
Context (Hup : forall h r, I h -> I (upsert_history_record h r)).
Context (Hfg : forall h k, I h -> I (fst (forget_history_records h k))).

Ltac break_parse H :=
  repeat match type of H with
    | obind ?c _ = _ => destruct c eqn:?; cbn [obind] in H; try done
    | (if ?c then _ else _) = _ => destruct c eqn:?; try done
    | match ?c with Some _ => _ | None => _ end = _ => destruct c eqn:?; try done
    end.

Lemma legacy_preserves fuel l h h' : I h -> parse_legacy_loop fuel l h = Ok h' -> I h'.
Proof.
  revert l h. induction fuel as [|fuel IH]; intros l h Hi Hp; [done|]. cbn [parse_legacy_loop] in Hp.
  break_parse Hp; simplify_eq; try done; try (eapply IH; [|exact Hp]; try done);
    repeat case_match; auto.
Qed.

Definition next_ok (n : parse_next) : Prop := match n with Continue _ h | Break h => I h end.

Lemma del_preserves l start h n : I h -> parse_del_record l start h = Ok n -> next_ok n.
Proof.
  unfold parse_del_record. intros Hi Hp. break_parse Hp; simplify_eq; try done.
  all: cbn [next_ok]; destruct (negb (zlen _ =? 0)); [by apply (Hfg h (trim_ascii a2))|done].
Qed.

Lemma qa_preserves l start h n : I h -> parse_qa_record l start h = Ok n -> next_ok n.
Proof.
  unfold parse_qa_record. intros Hi Hp. break_parse Hp; simplify_eq; try done; cbn [next_ok]; auto.
Qed.

Lemma step_preserves l offset h n : I h -> structured_step l offset h = Ok n -> next_ok n.
Proof.
  unfold structured_step, parse_legacy_qa_records. intros Hi Hp.
  destruct (get_slice l offset (zlen l)) as [rest| | |]; try done. cbn [obind] in Hp.
  destruct (next_record _ _) as [[rel kind]|].
  - destruct (if offset <? offset + rel then _ else _) as [h1| | |] eqn:Hg; try done. cbn [obind] in Hp.
    assert (I h1) as Hi1.
    { destruct (offset <? offset + rel); [|by simplify_eq].
      destruct (get_slice l offset (offset + rel)); try done. by eapply legacy_preserves. }
    destruct kind; [by eapply del_preserves|by eapply qa_preserves].
  - destruct (parse_legacy_loop _ _ _) as [h1| | |] eqn:Hg; try done. simplify_eq/=.
    exact (legacy_preserves (S (length rest)) rest _ _ Hi Hg).
Qed.

Lemma parse_preserves l h h' : I h -> parse_structured_qa_records l h = Ok h' -> I h'.
Proof.
  unfold parse_structured_qa_records. generalize 0. generalize (length l). intros fuel.
  revert h. induction fuel as [|fuel IH]; intros h offset Hi; cbn [structured_loop];
    (destruct (negb _); [by intros [= <-]|]); [done|].
  destruct (structured_step l offset h) as [n| | |] eqn:Hs; try done. cbn [obind].
  apply step_preserves in Hs; [|done]. destruct n; [by apply IH|by intros [= <-]].
Qed.
End preserved.

(** ** Eviction *)

Lemma shrink_records_suffix h needed : exists d, h = d ++ shrink_records h needed.
Proof.
  induction h as [|r h [d IH]]; [by exists []|]. cbn [shrink_records].
  destruct (_ <? _); [exists (r :: d); simpl; by f_equal|by exists []].
Qed.

Definition fits_cap (h : list QaRecord) (needed : Z) : Prop :=
  sat_add64 (history_payload_len h) needed <= RAM_SHELL_HISTORY_CAP_BYTES.

Lemma shrink_records_fits h needed :
  shrink_records h needed = [] \/ fits_cap (shrink_records h needed) needed.
Proof.
  induction h as [|r h IH]; [by left|]. cbn [shrink_records].
  destruct (_ <? _) eqn:E; [done|]. bool_to_prop. by right.
Qed.

Lemma shrink_records_longest h needed d r rest :
  h = d ++ r :: rest -> zlen (shrink_records h needed) < zlen (r :: rest) -> ~ fits_cap (r :: rest) needed.
Proof.
  revert d. induction h as [|r0 h IH]; intros d Heq Hlen; [by destruct d|]. cbn [shrink_records] in Hlen.
  destruct (_ <? sat_add64 _ _) eqn:E; bool_to_prop.
  - destruct d as [|r1 d]; simplify_eq/=; [unfold fits_cap; lia|]. by eapply IH.
  - rewrite Heq, zlen_app in Hlen. pose proof (zlen_nonneg d). lia.
Qed.

Lemma shrink_records_id h needed : fits_cap h needed -> shrink_records h needed = h.
Proof. destruct h as [|r h]; [done|]. unfold fits_cap. cbn [shrink_records]. intros. by case_match; bool_to_prop; [lia|]. Qed.

Lemma shrink_bytes_fits buf needed :
  0 <= needed < RAM_SHELL_HISTORY_CAP_BYTES -> zlen buf + needed <= U64_MAX ->
  zlen (shrink_bytes buf needed) + needed <= RAM_SHELL_HISTORY_CAP_BYTES /\
  exists d, buf = d ++ shrink_bytes buf needed.
Proof.
  intros Hn Hu. pose proof (zlen_nonneg buf). unfold shrink_bytes, sat_add64, sat_sub, RAM_SHELL_HISTORY_CAP_BYTES in *.
  destruct (_ <=? _) eqn:E; bool_to_prop; [split; [ulia|by exists []]|].
  guard_false (64 * 1024 <=? needed). split.
  - rewrite zlen_zdrop by lia. unfold U64_MAX in *. lia.
  - eexists. symmetry. apply ztake_zdrop.
Qed.

Lemma shrink_bytes_id buf needed :
  zlen buf + needed <= RAM_SHELL_HISTORY_CAP_BYTES -> shrink_bytes buf needed = buf.
Proof.
  intros Hn. unfold shrink_bytes, sat_add64. unfold RAM_SHELL_HISTORY_CAP_BYTES in *.
  by guard_true (Z.min U64_MAX (zlen buf + needed) <=? 64 * 1024).
Qed.

(** ** Sessions: what is recorded is what is reloaded *)

Inductive event :=
| Ask (prompt answer : bytes)
| Forget (phrase : bytes).

Definition run_event (st : list QaRecord * bytes) (e : event) : list QaRecord * bytes :=
  match e with
  | Ask q a => append_to_history (fst st) (snd st) q a
  | Forget p => fst (append_forget_to_history (fst st) (snd st) p)
  end.

(** The entry an event logs, if any. *)
Definition event_entry (e : event) : option entry :=
  match e with
  | Ask q a => Some (EQa q a)
  | Forget p =>
      let p := trim_ascii p in
      if zlen p =? 0 then None
      else Some (EDel (match memory_key_from_text p with Some k => k | None => p end))
  end.

(** An upper bound of the bytes an event needs in the history and the session buffer. *)
Definition event_cost (e : event) : Z :=
  match e with
  | Ask q a => zlen q + zlen a + 64
  | Forget p => zlen p + 96
  end.

Definition total_cost (es : list event) : Z := foldr (fun e n => event_cost e + n) 0 es.

Lemma memory_key_values p k :
  memory_key_from_text p = Some k ->
  k = bstr "secure phrase" \/ k = bstr "secret phrase" \/ k = bstr "memory test phrase" \/
  k = bstr "codename".
Proof.
  unfold memory_key_from_text. intros Hk.
  repeat (case_match; simplify_eq; auto).
Qed.

Lemma event_entry_key p k :
  event_entry (Forget p) = Some (EDel k) ->
  trim_ascii k = k /\ 0 < zlen k <= zlen p + 18.
Proof.
  cbn [event_entry]. destruct (zlen (trim_ascii p) =? 0) eqn:E; [done|]. bool_to_prop.
  pose proof (zlen_trim_ascii p). pose proof (zlen_nonneg (trim_ascii p)). pose proof (zlen_nonneg p).
  destruct (memory_key_from_text _) as [k'|] eqn:Hk; intros [= <-].
  - apply memory_key_values in Hk as [->|[->|[->| ->]]]; (split; [done|]);
      unfold zlen at 1 2; simpl length; lia.
  - split; [apply trim_ascii_idemp|lia].
Qed.

Lemma zlen_push_separator t : zlen (push_separator t) <= zlen t + 1.
Proof.
  destruct t as [|b t]; [done|]. cbn [push_separator]. rewrite (zlen_app (b :: t)).
  change (zlen [NL]) with 1. lia.
Qed.

Lemma zlen_serialized_qa t q a :
  zlen (append_serialized_qa t q a) <= zlen t + zlen q + zlen a + 64.
Proof.
  rewrite append_serialized_qa_bytes, zlen_app. unfold entry_bytes. rewrite zlen_app, zlen_entry_core.
  cbn [entry_mark entry_header entry_body]. rewrite !zlen_app.
  pose proof (zlen_push_separator t). pose proof (append_decimal_length (zlen q)).
  pose proof (append_decimal_length (zlen a)).
  change (zlen QA_MARK) with 12. change (zlen A_MARK) with 3. change (zlen (bstr "]")) with 1.
  change (zlen [NL]) with 1. lia.
Qed.

Lemma zlen_serialized_forget t k :
  zlen (append_serialized_forget t k) <= zlen t + zlen k + 64.
Proof.
  rewrite append_serialized_forget_bytes, zlen_app. unfold entry_bytes. rewrite zlen_app, zlen_entry_core.
  cbn [entry_mark entry_header entry_body]. rewrite !zlen_app.
  pose proof (zlen_push_separator t). pose proof (append_decimal_length (zlen k)).
  change (zlen DEL_MARK) with 13. change (zlen (bstr "]")) with 1. change (zlen [NL]) with 1. lia.
Qed.

(** *** Payload sizes without the wrap-around *)

Definition plen (h : list QaRecord) : Z :=
  foldr (fun r n => zlen (question r) + zlen (answer r) + 8 + n) 0 h.

Lemma plen_nonneg h : 0 <= plen h.
Proof.
  induction h as [|r h IH]; simpl; [lia|]. pose proof (zlen_nonneg (question r)).
  pose proof (zlen_nonneg (answer r)). lia.
Qed.

Lemma plen_app h1 h2 : plen (h1 ++ h2) = plen h1 + plen h2.
Proof. induction h1 as [|r h1 IH]; simpl; [done|]. rewrite IH. lia. Qed.

Lemma history_payload_plen h : plen h <= U64_MAX -> history_payload_len h = plen h.
Proof.
  unfold history_payload_len. intros Hu.
  cut (forall n, 0 <= n -> n + plen h <= U64_MAX ->
    fold_left (fun n r => add64 n (qa_record_payload_len r)) h n = n + plen h).
  { intros Hc. rewrite Hc; lia. }
  clear Hu. induction h as [|r h IH]; intros n Hn Hs; simpl in *; [lia|].
  pose proof (zlen_nonneg (question r)). pose proof (zlen_nonneg (answer r)). pose proof (plen_nonneg h).
  unfold qa_record_payload_len, sat_add64, add64. rewrite !Z.min_r by lia.
  rewrite as_u64_small by ulia. rewrite IH by lia. lia.
Qed.

Lemma plen_filter (P : QaRecord -> Prop) `{!forall r, Decision (P r)} h : plen (filter P h) <= plen h.
Proof.
  induction h as [|r h IH]; [done|]. rewrite filter_cons. pose proof (zlen_nonneg (question r)).
  pose proof (zlen_nonneg (answer r)). destruct (decide (P r)); simpl; lia.
Qed.

Lemma plen_upsert h r :
  plen (upsert_history_record h r) <= plen h + zlen (question r) + zlen (answer r) + 8.
Proof.
  unfold upsert_history_record. rewrite plen_app. simpl.
  destruct (qa_record_key r); [rewrite retain_filter|lia].
  match goal with |- plen (filter ?P h) + _ <= _ => pose proof (plen_filter P h) end. lia.
Qed.

Lemma plen_forget h k : plen (fst (forget_history_records h k)) <= plen h.
Proof. rewrite forget_fst. apply plen_filter. Qed.

Lemma total_cost_nonneg es : 0 <= total_cost es.
Proof.
  induction es as [|[q a|p] es IH]; simpl; [lia| |].
  - pose proof (zlen_nonneg q). pose proof (zlen_nonneg a). lia.
  - pose proof (zlen_nonneg p). lia.
Qed.

Lemma total_cost_snoc es e : total_cost (es ++ [e]) = total_cost es + event_cost e.
Proof. induction es as [|e0 es IH]; simpl; [lia|]. rewrite IH. lia. Qed.

Lemma event_cost_nonneg e : 0 <= event_cost e.
Proof.
  destruct e as [q a|p]; simpl; [pose proof (zlen_nonneg q); pose proof (zlen_nonneg a)|
    pose proof (zlen_nonneg p)]; lia.
Qed.

(** The entries an event writes: one, or none for an empty "forget". *)
Definition event_entries (e : event) : list entry :=
  match event_entry e with Some x => [x] | None => [] end.

(** Within the cap, an event replays its entry on the history and appends it to
    the session buffer. *)
Lemma session_step h log e :
  plen h + event_cost e <= RAM_SHELL_HISTORY_CAP_BYTES ->
  zlen (delta_of log) + event_cost e <= RAM_SHELL_HISTORY_CAP_BYTES ->
  run_event (h, delta_of log) e = (foldl replay h (event_entries e), delta_of (log ++ event_entries e)) /\
  plen (foldl replay h (event_entries e)) <= plen h + event_cost e /\
  zlen (delta_of (log ++ event_entries e)) <= zlen (delta_of log) + event_cost e.
Proof.
  intros Hh Hd. pose proof (plen_nonneg h). pose proof (zlen_nonneg (delta_of log)).
  assert (RAM_SHELL_HISTORY_CAP_BYTES = 65536) as Hcap by done. unfold event_entries.
  destruct e as [q a|p].
  - cbn [run_event fst snd event_entry event_cost foldl replay] in *.
    unfold append_to_history. pose proof (zlen_nonneg q). pose proof (zlen_nonneg a).
    unfold sat_add64 at 1 2 3 4. rewrite !Z.min_r by ulia.
    rewrite shrink_records_id, shrink_bytes_id by
      (try unfold fits_cap, sat_add64; rewrite ?history_payload_plen by ulia; ulia).
    rewrite append_serialized_qa_delta. split_and!; [done| |].
    + pose proof (plen_upsert h (mkQaRecord q a)) as Hup. cbn [question answer] in Hup. lia.
    + rewrite <- append_serialized_qa_delta. pose proof (zlen_serialized_qa (delta_of log) q a). lia.
  - pose proof (event_cost_nonneg (Forget p)). cbn [run_event fst snd] in *.
    unfold append_forget_to_history.
    destruct (event_entry (Forget p)) as [ent|] eqn:Hent.
    2: { cbn [event_entry] in Hent. destruct (zlen (trim_ascii p) =? 0); [|done].
         cbn [fst foldl]. rewrite app_nil_r. split_and!; [done|lia|lia]. }
    assert (exists k, ent = EDel k /\ event_entry (Forget p) = Some (EDel k) /\
      (zlen (trim_ascii p) =? 0) = false /\
      k = match memory_key_from_text (trim_ascii p) with Some k => k | None => trim_ascii p end)
      as (k & -> & Hk & Hne & Hkv).
    { revert Hent. cbn [event_entry]. destruct (zlen (trim_ascii p) =? 0); [done|]. intros [= <-]. eauto. }
    rewrite Hne, <- Hkv. apply event_entry_key in Hk as [Htr Hkz]. cbn [foldl replay event_cost] in *.
    rewrite Htr. guard_false (zlen k =? 0).
    unfold sat_add64. rewrite Z.min_r by ulia. rewrite shrink_bytes_id by ulia.
    destruct (forget_history_records h k) as [h' removed] eqn:Hf. cbn [fst].
    rewrite append_serialized_forget_delta. split_and!; [done| |].
    + pose proof (plen_forget h k) as Hpf. rewrite Hf in Hpf. simpl in Hpf. lia.
    + rewrite <- append_serialized_forget_delta.
      pose proof (zlen_serialized_forget (delta_of log) k). lia.
Qed.

(** Within the cap, a session's history is the replay of its log, and its
    buffer the log's serialization. *)
Lemma session_state es :
  total_cost es <= RAM_SHELL_HISTORY_CAP_BYTES ->
  let log := es ≫= event_entries in
  foldl run_event ([], []) es = (foldl replay [] log, delta_of log) /\
  plen (foldl replay [] log) <= total_cost es /\ zlen (delta_of log) <= total_cost es.
Proof.
  induction es as [|e es IH] using rev_ind; intros Hc; [by vm_compute|].
  rewrite total_cost_snoc in Hc |- *. cbn zeta. rewrite foldl_app, bind_app. cbn [foldl mbind list_bind].
  pose proof (event_cost_nonneg e). destruct IH as (-> & Hp & Hz); [lia|].
  set (log := es ≫= event_entries) in *. rewrite app_nil_r, foldl_app.
  destruct (session_step (foldl replay [] log) log e) as (-> & ? & ?); [lia|lia|].
  split_and!; [done|lia|lia].
Qed.

(** The session buffer stays within its cap, event by event. *)
Lemma event_delta_bounded h delta e :
  zlen delta <= RAM_SHELL_HISTORY_CAP_BYTES -> event_cost e < RAM_SHELL_HISTORY_CAP_BYTES ->
  zlen (snd (run_event (h, delta) e)) <= RAM_SHELL_HISTORY_CAP_BYTES.
Proof.
  intros IH He. pose proof (zlen_nonneg delta).
  assert (RAM_SHELL_HISTORY_CAP_BYTES = 65536) as Hcap by done.
  destruct e as [q a|p]; cbn [run_event fst snd event_cost] in *.
  - unfold append_to_history. pose proof (zlen_nonneg q). pose proof (zlen_nonneg a).
    unfold sat_add64. rewrite !Z.min_r by ulia. cbn [snd].
    destruct (shrink_bytes_fits delta (zlen q + zlen a + 64)) as [Hs _]; [lia|ulia|].
    pose proof (zlen_serialized_qa (shrink_bytes delta (zlen q + zlen a + 64)) q a). lia.
  - unfold append_forget_to_history.
    destruct (event_entry (Forget p)) as [ent|] eqn:Hent; cbn [event_entry] in Hent;
      (destruct (zlen (trim_ascii p) =? 0) eqn:E0; [done|]); [|done].
    set (k := match memory_key_from_text _ with Some k => k | None => _ end) in *.
    assert (zlen k <= zlen p + 18) as Hk.
    { apply (event_entry_key p k). cbn [event_entry]. by rewrite E0. }
    pose proof (zlen_nonneg k). unfold sat_add64. rewrite Z.min_r by ulia.
    destruct (forget_history_records h k). cbn [fst snd].
    destruct (shrink_bytes_fits delta (zlen k + 64)) as [Hs _]; [lia|ulia|].
    pose proof (zlen_serialized_forget (shrink_bytes delta (zlen k + 64)) k). lia.
Qed.

(** Keys stay unique, event by event. *)
Lemma event_keys_nodup h delta e :
  NoDup (keys h) -> NoDup (keys (fst (run_event (h, delta) e))).
Proof.
  intros Hn. destruct e as [q a|p]; cbn [run_event fst snd].
  - unfold append_to_history. cbn [fst]. apply upsert_keys_nodup.
    destruct (shrink_records_suffix h (sat_add64 (sat_add64 (zlen q) (zlen a)) 64)) as [d Hd].
    rewrite Hd in Hn. by eapply sublist_suffix_keys.
  - unfold append_forget_to_history. destruct (zlen (trim_ascii p) =? 0); [done|].
    set (k := match memory_key_from_text _ with Some k => k | None => _ end).
    pose proof (forget_keys_nodup h k Hn). by destruct (forget_history_records h k).
Qed.

(** ** Theorems *)

(** Parsing the persisted history is total: on any bytes, in any state, the loop ends,
    no slice is out of range and no arithmetic panics. *)
Theorem parse_structured_total l history :
  zlen l < U64_MAX -> exists h, parse_structured_qa_records l history = Ok h.
Proof.
  intros Hl. apply structured_loop_total; [done| |].
  - pose proof (zlen_nonneg l). lia.
  - unfold zlen. lia.
Qed.

Lemma parse_structured_total_witness :
  exists h, parse_structured_qa_records (bstr "[RAMQA v1 q=9 a=]") [] = Ok h.
Proof. apply parse_structured_total. by vm_compute. Defined.

(** Reading back what was written.  Parsing the serialization of any sequence of
    records and deletions (arbitrary bytes inside, written in one session or several),
    cut at any byte, replays exactly the entries before the cut; uncut, it replays all. *)
Theorem parse_stream_replays es n history :
  zlen (stream es) < U64_MAX - 1 ->
  parse_structured_qa_records (ztake n (stream es)) history = Ok (foldl replay history (whole n es)) /\
  (zlen (stream es) <= n -> whole n es = snd <$> es).
Proof.
  intros Hl. split; [|apply whole_all].
  apply (parse_stream_loop es [] n history); [done|]. unfold zlen. lia.
Qed.

Lemma parse_stream_replays_witness :
  parse_structured_qa_records
    (ztake 40 (stream [(false, EQa (bstr "q") (bstr "a")); (true, EDel (bstr "[RAMQA v1 q="))])) []
  = Ok (foldl replay []
      (whole 40 [(false, EQa (bstr "q") (bstr "a")); (true, EDel (bstr "[RAMQA v1 q="))])) /\ True.
Proof.
  split; [|done].
  apply (parse_stream_replays [(false, EQa (bstr "q") (bstr "a")); (true, EDel (bstr "[RAMQA v1 q="))] 40).
  by vm_compute.
Defined.

(** C7: the live history and the reloaded one agree.  Start from an empty history and run
    any sequence of questions and "forget" commands whose total size is at most the
    64 KiB a reload reads: parsing the session buffer gives back exactly the history in memory. *)
Theorem session_reloads es :
  total_cost es <= RAM_SHELL_HISTORY_CAP_BYTES ->
  parse_structured_qa_records (snd (foldl run_event ([], []) es)) []
  = Ok (fst (foldl run_event ([], []) es)).
Proof.
  intros Hc. destruct (session_state es Hc) as (-> & _ & Hz). cbn [fst snd].
  set (log := es ≫= event_entries) in *.
  assert (exists ss, delta_of log = stream ss /\ snd <$> ss = log) as (ss & Hs & Hlog).
  { destruct log as [|e log']; [by exists []|].
    exists ((false, e) :: ((fun e => (true, e)) <$> log')). split; [done|].
    cbn [fmap list_fmap snd]. f_equal. rewrite <- list_fmap_compose. by apply list_fmap_id. }
  rewrite Hs in *. rewrite <- (ztake_all (zlen (stream ss)) (stream ss)) at 1 by done.
  unfold parse_structured_qa_records.
  rewrite (parse_stream_loop ss [] (zlen (stream ss)) []).
  - rewrite whole_all, Hlog by done. done.
  - change (zlen (stream ss) < U64_MAX - 1). unfold RAM_SHELL_HISTORY_CAP_BYTES in Hc. ulia.
  - rewrite ztake_all by done. unfold zlen. lia.
Qed.

Lemma session_reloads_witness :
  let es := [Ask (bstr "hello") (bstr "the secret key is 7"); Forget (bstr "secret key");
             Ask (bstr "x") (bstr "y")] in
  parse_structured_qa_records (snd (foldl run_event ([], []) es)) []
  = Ok (fst (foldl run_event ([], []) es)).
Proof. apply session_reloads. by vm_compute. Defined.

(** No two records share a memory key after parsing any bytes, if none did before. *)
Theorem parse_keys_unique l history history' :
  NoDup (keys history) -> parse_structured_qa_records l history = Ok history' ->
  NoDup (keys history').
Proof.
  apply (parse_preserves (fun h => NoDup (keys h))); [apply upsert_keys_nodup|apply forget_keys_nodup].
Qed.

Lemma parse_keys_unique_witness :
  NoDup (keys [mkQaRecord (bstr "q") (bstr "the secret key is 2")]).
Proof.
  apply (parse_keys_unique
    (stream [(false, EQa (bstr "q") (bstr "the secret key is 1"));
             (true, EQa (bstr "q") (bstr "the secret key is 2"))]) []).
  - constructor.
  - by vm_compute.
Defined.

(** A record replaces the one with its key.  After an upsert the new record is last,
    it is the only one with its key, and the records with other keys keep their order. *)
Theorem upsert_replaces history r k :
  qa_record_key r = Some k ->
  let others h := filter (fun r' => qa_record_key r' <> Some k) h in
  upsert_history_record history r = others history ++ [r] /\
  filter (fun r' => qa_record_key r' = Some k) (upsert_history_record history r) = [r].
Proof.
  intros Hk others. assert (upsert_history_record history r = others history ++ [r]) as Heq.
  { unfold upsert_history_record. rewrite Hk, retain_filter. f_equal. apply list_filter_iff.
    intros r'. by rewrite negb_true_iff, bool_decide_eq_false. }
  split; [done|]. rewrite Heq, filter_app, filter_cons_True by done. rewrite filter_nil.
  assert (filter (fun r' => qa_record_key r' = Some k) (others history) = []) as ->; [|done].
  unfold others. clear Heq others. induction history as [|x h IH]; [done|]. rewrite filter_cons.
  destruct (decide (qa_record_key x <> Some k)) as [Hx|Hx]; [by rewrite filter_cons_False|done].
Qed.

Lemma upsert_replaces_witness :
  let h := [mkQaRecord (bstr "q") (bstr "codename: one"); mkQaRecord (bstr "x") (bstr "y")] in
  let r := mkQaRecord (bstr "my codename is two") (bstr "ok") in
  upsert_history_record h r
    = filter (fun r' => qa_record_key r' <> Some (bstr "codename")) h ++ [r] /\
  filter (fun r' => qa_record_key r' = Some (bstr "codename")) (upsert_history_record h r) = [r].
Proof. intros h r. apply (upsert_replaces h r (bstr "codename")). by vm_compute. Defined.

(** "forget" removes exactly the matching records: the others stay in order, the count
    returned is the number removed, none that matches is left, and a second call removes
    nothing. *)
Theorem forget_exact history phrase :
  let matches r := record_matches_forget_phrase r phrase = true in
  let (h', removed) := forget_history_records history phrase in
  h' = filter (fun r => ~ matches r) history /\ removed = zlen (filter matches history) /\
  (forall r, r ∈ h' -> ~ matches r) /\ forget_history_records h' phrase = (h', 0).
Proof.
  intros matches. destruct (forget_history_records history phrase) as [h' removed] eqn:Hf.
  assert (h' = filter (fun r => ~ matches r) history) as Hh.
  { pose proof (forget_fst history phrase) as H1. rewrite Hf in H1. cbn [fst] in H1. rewrite H1.
    apply list_filter_iff. intros r. unfold matches. by destruct (record_matches_forget_phrase r phrase). }
  assert (forall r, r ∈ h' -> ~ matches r) as Hnone by (intros r; rewrite Hh; by intros [? _]%list_elem_of_filter).
  split_and!; [done| |done|].
  - unfold forget_history_records in Hf. injection Hf as Hh' <-. rewrite Hh', Hh. unfold sat_sub.
    assert (zlen (filter matches history) + zlen (filter (fun r => ~ matches r) history) = zlen history)
      as <- by apply zlen_filter_split.
    pose proof (zlen_nonneg (filter matches history)). lia.
  - unfold forget_history_records. rewrite retain_filter.
    assert (filter (fun r => negb (record_matches_forget_phrase r phrase) = true) h' = h') as ->.
    { clear Hf Hh. induction h' as [|r h' IH]; [done|]. rewrite filter_cons_True.
      - f_equal. apply IH. intros. apply Hnone. by apply list_elem_of_further.
      - apply negb_true_iff. destruct (record_matches_forget_phrase r phrase) eqn:E; [|done].
        destruct (Hnone r); [apply list_elem_of_here|done]. }
    f_equal. unfold sat_sub. lia.
Qed.

(** Eviction keeps the longest suffix of the history that fits with the new record
    (or nothing, when even the last record does not). *)
Theorem shrink_records_longest_suffix history needed :
  let kept := shrink_records history needed in
  (exists dropped, history = dropped ++ kept) /\ (kept = [] \/ fits_cap kept needed) /\
  (forall d r rest, history = d ++ r :: rest -> zlen kept < zlen (r :: rest) ->
     ~ fits_cap (r :: rest) needed).
Proof.
  split_and!; [apply shrink_records_suffix|apply shrink_records_fits|].
  intros. by eapply shrink_records_longest.
Qed.

(** The session buffer never outgrows its 64 KiB: no sequence of events, each smaller
    than the cap, makes it longer than RAM_SHELL_HISTORY_CAP_BYTES. *)
Theorem session_delta_bounded es :
  (forall e, e ∈ es -> event_cost e < RAM_SHELL_HISTORY_CAP_BYTES) ->
  zlen (snd (foldl run_event ([], []) es)) <= RAM_SHELL_HISTORY_CAP_BYTES.
Proof.
  induction es as [|e es IH] using rev_ind; intros Hes; [done|].
  rewrite foldl_app. cbn [foldl].
  specialize (IH ltac:(intros; apply Hes, elem_of_app; by left)).
  specialize (Hes e ltac:(apply elem_of_app; right; apply list_elem_of_here)).
  destruct (foldl run_event ([], []) es) as [h delta]. by apply event_delta_bounded.
Qed.

Lemma session_delta_bounded_witness :
  zlen (snd (foldl run_event ([], []) [Ask (zeros 30000) (zeros 30000); Ask (zeros 100) (zeros 10000)]))
  <= RAM_SHELL_HISTORY_CAP_BYTES.
Proof.
  apply session_delta_bounded. intros e He. apply list_elem_of_In in He. simpl in He.
  destruct He as [<-|[<-|[]]]; by vm_compute.
Defined.
