(* ===== verification/ConsoleLog.v ===== *)
(** * The kernel console log

    kernel/src/console_log.rs: a ring buffer of the last 256 KiB written to the
    console, read by the shell's log viewer.  The operations are translated for
    any capacity; [CONSOLE_LOG_CAPACITY] is the kernel's. *)

From S2P Require Import Prelude.

Definition CONSOLE_LOG_CAPACITY : Z := 256 * 1024.

Record ConsoleLog := mkConsoleLog {
  cl_buffer : bytes;
  cl_start : Z;
  cl_len : Z;
  cl_capture_enabled : bool;
}.

Section ring.
Context (cap : Z).

Definition new : ConsoleLog := mkConsoleLog (zeros cap) 0 0 true.

(** [append(&mut self, bytes)] *)
Definition append (log : ConsoleLog) (l : bytes) : outcome unit ConsoleLog :=
  if negb (cl_capture_enabled log) || (zlen l =? 0) then Ok log else
  if cap <=? zlen l then
    let? l := get_slice l (zlen l - cap) (zlen l) in
    Ok (mkConsoleLog l 0 cap (cl_capture_enabled log))
  else
    let free := sub64 cap (cl_len log) in
    let '(start, len) :=
      if free <? zlen l then
        let drop_len := zlen l - free in
        (add64 (cl_start log) drop_len mod cap, sub64 (cl_len log) drop_len)
      else (cl_start log, cl_len log) in
    let write_start := add64 start len mod cap in
    let first_len := Z.min (cap - write_start) (zlen l) in
    let second_len := zlen l - first_len in
    let? first := get_slice l 0 first_len in
    let? buffer := put_slice (cl_buffer log) write_start first in
    let? buffer :=
      if 0 <? second_len then
        let? second := get_slice l first_len (zlen l) in put_slice buffer 0 second
      else Ok buffer in
    Ok (mkConsoleLog buffer start (add64 len (zlen l)) (cl_capture_enabled log)).

(** [read(&self, offset, output)]: the bytes placed at the start of [output]
    and their number; [out_len] is [output.len()]. *)
Definition read (log : ConsoleLog) (offset out_len : Z) : outcome unit (bytes * Z) :=
  if (cl_len log <=? offset) || (out_len =? 0) then Ok ([], 0) else
  let read_len := Z.min (cl_len log - offset) out_len in
  let read_start := add64 (cl_start log) offset mod cap in
  let first_len := Z.min (cap - read_start) read_len in
  let second_len := read_len - first_len in
  let? first := get_slice (cl_buffer log) read_start (read_start + first_len) in
  let? second :=
    if 0 <? second_len then get_slice (cl_buffer log) 0 second_len else Ok [] in
  Ok (first ++ second, read_len).

Definition len (log : ConsoleLog) : Z := cl_len log.

Definition set_capture_enabled (log : ConsoleLog) (enabled : bool) : ConsoleLog :=
  mkConsoleLog (cl_buffer log) (cl_start log) (cl_len log) enabled.

(** ** The abstract log: the bytes from the oldest to the newest *)

Definition byte_get (l : bytes) (i : Z) : byte := nth (Z.to_nat i) l Byte.x00.

Definition contents (log : ConsoleLog) : bytes :=
  (fun i => byte_get (cl_buffer log) ((cl_start log + i) mod cap)) <$> seqZ 0 (cl_len log).

Definition log_wf (log : ConsoleLog) : Prop :=
  zlen (cl_buffer log) = cap /\ 0 <= cl_start log < cap /\ 0 <= cl_len log <= cap.

(** The last [cap] bytes of [l]. *)
Definition last_cap (l : bytes) : bytes := zdrop (zlen l - cap) l.

Context (Hcap : 0 < cap) (Hmax : 2 * cap <= U64_MAX).

Lemma zlen_contents log : 0 <= cl_len log -> zlen (contents log) = cl_len log.
Proof. intros. unfold contents, zlen. rewrite length_fmap, length_seqZ. lia. Qed.

(** *** Reading bytes by index *)

Lemma byte_get_ext l l' :
  zlen l = zlen l' -> (forall i, 0 <= i < zlen l -> byte_get l i = byte_get l' i) -> l = l'.
Proof.
  intros Hl Hi. unfold zlen, byte_get in *. apply (nth_ext _ _ Byte.x00 Byte.x00); [lia|].
  intros n Hn. specialize (Hi (Z.of_nat n) ltac:(lia)). by rewrite Nat2Z.id in Hi.
Qed.

Lemma byte_get_app l l' i :
  0 <= i -> byte_get (l ++ l') i = if i <? zlen l then byte_get l i else byte_get l' (i - zlen l).
Proof.
  intros Hi. unfold byte_get, zlen. destruct (i <? _) eqn:E; bool_to_prop.
  - apply app_nth1. lia.
  - rewrite app_nth2 by lia. f_equal. lia.
Qed.

Lemma byte_get_zdrop n l i : 0 <= n -> 0 <= i -> byte_get (zdrop n l) i = byte_get l (n + i).
Proof.
  intros Hn Hi. unfold byte_get, zdrop. rewrite !nth_lookup, lookup_drop. do 2 f_equal. lia.
Qed.

Lemma byte_get_ztake n l i : 0 <= i < n -> byte_get (ztake n l) i = byte_get l i.
Proof. intros Hi. unfold byte_get, ztake. rewrite !nth_lookup, lookup_take_lt; [done|lia]. Qed.

Lemma byte_get_slice l a b i : 0 <= a -> 0 <= i < b - a -> byte_get (slice l a b) i = byte_get l (a + i).
Proof. intros. unfold slice. rewrite byte_get_ztake, byte_get_zdrop by lia. done. Qed.

Lemma byte_get_splice l off src i :
  0 <= off -> off + zlen src <= zlen l -> 0 <= i ->
  byte_get (splice l off src) i
  = if (off <=? i) && (i <? off + zlen src) then byte_get src (i - off) else byte_get l i.
Proof.
  intros Ho Hs Hi. pose proof (zlen_nonneg src). unfold splice.
  assert (zlen (ztake off l) = off) as Ht by (rewrite zlen_ztake; lia).
  rewrite byte_get_app, Ht by lia. destruct (i <? off) eqn:E; bool_to_prop.
  - rewrite byte_get_ztake by lia. by guard_false ((off <=? i) && (i <? off + zlen src)).
  - rewrite byte_get_app by lia. destruct (i - off <? zlen src) eqn:E2; bool_to_prop.
    + by guard_true ((off <=? i) && (i <? off + zlen src)).
    + guard_false ((off <=? i) && (i <? off + zlen src)). rewrite byte_get_zdrop by lia. f_equal. lia.
Qed.

Lemma byte_get_contents log i :
  0 <= i < cl_len log ->
  byte_get (contents log) i = byte_get (cl_buffer log) ((cl_start log + i) mod cap).
Proof.
  intros Hi. unfold contents. unfold byte_get at 1. rewrite nth_lookup, list_lookup_fmap.
  rewrite lookup_seqZ_lt by lia. simpl. by rewrite Z2Nat.id by lia.
Qed.

Lemma mod_wrap x : 0 <= x < 2 * cap -> x mod cap = if x <? cap then x else x - cap.
Proof.
  intros Hx. destruct (x <? cap) eqn:E; bool_to_prop; [apply Z.mod_small; lia|].
  symmetry. apply (Z.mod_unique_pos _ _ 1); lia.
Qed.

(** ** Reading *)

Lemma read_spec log offset out_len :
  log_wf log -> 0 <= offset -> 0 <= out_len ->
  let r := slice (contents log) offset (Z.min (offset + out_len) (cl_len log)) in
  read log offset out_len = Ok (r, zlen r).
Proof.
  intros (Hb & Hs & Hl) Ho Hol r. pose proof (zlen_contents log ltac:(lia)) as Hz. unfold read.
  destruct ((cl_len log <=? offset) || (out_len =? 0)) eqn:E.
  { assert (r = []) as ->; [|done]. unfold r, slice. apply ztake_0. apply orb_true_iff in E.
    destruct E as [E|E]; bool_to_prop; lia. }
  apply orb_false_iff in E as [E1 E2]. bool_to_prop.
  unfold add64. rewrite as_u64_small by ulia. rewrite mod_wrap by lia.
  set (n := Z.min (cl_len log - offset) out_len). assert (0 < n) as Hn by (unfold n; lia).
  set (rs := if cl_start log + offset <? cap then _ else _).
  assert (0 <= rs < cap /\ (rs = cl_start log + offset \/ rs = cl_start log + offset - cap)) as [Hrs Hrs']
    by (unfold rs; destruct (_ <? _) eqn:?; bool_to_prop; lia).
  set (f := Z.min (cap - rs) n).
  assert (0 <= f <= n /\ rs + f <= cap /\ (f < n -> rs + f = cap)) as (Hf1 & Hf2 & Hf3) by (unfold f; lia).
  assert (n <= out_len /\ n <= cl_len log - offset) as [Hn1 Hn2] by (unfold n; lia).
  clearbody rs f. rewrite get_slice_ok by lia. cbn [obind].
  assert (zlen r = n) as Hzr by (unfold r; rewrite zlen_slice; lia).
  assert (zlen (slice (cl_buffer log) rs (rs + f)) = f) as Hzf by (rewrite zlen_slice; lia).
  assert (forall second, (0 < n - f -> second = slice (cl_buffer log) 0 (n - f)) ->
    (n - f <= 0 -> second = []) -> slice (cl_buffer log) rs (rs + f) ++ second = r) as Heq.
  { intros second Hs1 Hs2.
    assert (zlen second = n - f) as Hz2.
    { destruct (decide (0 < n - f)); [rewrite Hs1 by lia; rewrite zlen_slice; lia|].
      rewrite Hs2 by lia. change (zlen (@nil byte)) with 0. lia. }
    apply byte_get_ext; rewrite zlen_app, Hz2, Hzf; [lia|]. intros i Hi.
    rewrite byte_get_app, Hzf by lia. unfold r. rewrite (byte_get_slice (contents log)) by lia.
    rewrite byte_get_contents, mod_wrap by lia.
    destruct (i <? f) eqn:Hif; bool_to_prop;
      [|rewrite Hs1 by lia]; (rewrite byte_get_slice by lia); f_equal;
      destruct (_ <? cap) eqn:?; bool_to_prop; lia. }
  destruct (0 <? n - f) eqn:E; bool_to_prop.
  - rewrite get_slice_ok by lia. cbn [obind]. rewrite Heq, Hzr; [done|done|lia].
  - cbn [obind]. rewrite Heq, Hzr; [done|lia|done].
Qed.

(** ** Appending *)

Lemma contents_full buf : zlen buf = cap -> forall c, contents (mkConsoleLog buf 0 cap c) = buf.
Proof.
  intros Hb c. apply byte_get_ext; rewrite zlen_contents; simpl; try lia. intros i Hi.
  rewrite byte_get_contents by done. simpl. f_equal. apply Z.mod_small. lia.
Qed.

(** The bytes after a wrapped write of [l] behind the [len] bytes from [start]. *)
Lemma contents_write buf start len l w f c :
  zlen buf = cap -> 0 <= start < cap -> 0 <= len -> len + zlen l <= cap ->
  w = (start + len) mod cap -> f = Z.min (cap - w) (zlen l) ->
  let buf1 := splice buf w (slice l 0 f) in
  let buf2 := if 0 <? zlen l - f then splice buf1 0 (slice l f (zlen l)) else buf1 in
  zlen buf2 = cap /\
  contents (mkConsoleLog buf2 start (len + zlen l) c) = contents (mkConsoleLog buf start len c) ++ l.
Proof.
  intros Hb Hs Hl Hfit Hw Hf buf1 buf2. rewrite mod_wrap in Hw by (pose proof (zlen_nonneg l); lia).
  pose proof (zlen_nonneg l).
  assert (0 <= w < cap) as Hw' by (subst w; destruct (_ <? _) eqn:?; bool_to_prop; lia).
  assert (zlen (slice l 0 f) = f) as Hz1 by (rewrite zlen_slice; lia).
  assert (zlen buf1 = cap) as Hb1 by (unfold buf1; rewrite zlen_splice; lia).
  assert (zlen (slice l f (zlen l)) = zlen l - f) as Hz2 by (rewrite zlen_slice; lia).
  assert (zlen buf2 = cap) as Hb2
    by (unfold buf2; destruct (0 <? _) eqn:?; bool_to_prop; [rewrite zlen_splice; lia|done]).
  split; [done|]. apply byte_get_ext.
  { rewrite zlen_app, !zlen_contents by (simpl; lia). done. }
  rewrite zlen_contents by (simpl; lia). simpl. intros i Hi.
  rewrite byte_get_contents by (simpl; lia). simpl.
  rewrite byte_get_app, zlen_contents by (simpl; lia). simpl.
  set (j := (start + i) mod cap). assert (j = if start + i <? cap then start + i else start + i - cap) as Hj
    by (unfold j; apply mod_wrap; lia).
  assert (byte_get buf2 j = if (w <=? j) && (j <? w + f) then byte_get l (j - w)
    else if j <? zlen l - f then byte_get l (f + j) else byte_get buf j) as ->.
  { assert (0 <= j) by (apply Z.mod_pos_bound; lia).
    assert (byte_get buf1 j = if (w <=? j) && (j <? w + f) then byte_get l (j - w) else byte_get buf j) as H1.
    { unfold buf1. rewrite byte_get_splice, Hz1 by lia.
      destruct ((w <=? j) && (j <? w + f)) eqn:E; [|done]. bool_to_prop. by rewrite byte_get_slice by lia. }
    unfold buf2. destruct (0 <? zlen l - f) eqn:E; bool_to_prop.
    - rewrite byte_get_splice, Hz2, H1 by lia. rewrite Z.sub_0_r.
      destruct (j <? 0 + (zlen l - f)) eqn:E2; bool_to_prop.
      + guard_true (0 <=? j). cbn [andb]. guard_true (j <? zlen l - f).
        guard_false ((w <=? j) && (j <? w + f)). rewrite byte_get_slice by lia. done.
      + guard_false (j <? zlen l - f). by rewrite andb_false_r.
    - rewrite H1. by guard_false (j <? zlen l - f). }
  destruct (i <? len) eqn:E; bool_to_prop.
  - rewrite byte_get_contents by (simpl; lia). simpl. fold j.
    replace ((w <=? j) && (j <? w + f)) with false
      by (rewrite Hj, Hw, Hf, Hw; destruct (start + len <? cap) eqn:?; destruct (start + i <? cap) eqn:?;
          bool_to_prop; lia).
    replace (j <? zlen l - f) with false; [done|].
    rewrite Hj, Hf, Hw. destruct (start + len <? cap) eqn:?; destruct (start + i <? cap) eqn:?;
      bool_to_prop; lia.
  - destruct ((w <=? j) && (j <? w + f)) eqn:E1.
    + bool_to_prop. f_equal. rewrite Hj, Hw in *.
      destruct (start + len <? cap) eqn:?; destruct (start + i <? cap) eqn:?; bool_to_prop; lia.
    + replace (j <? zlen l - f) with true.
      * f_equal. apply andb_false_iff in E1. rewrite Hj, Hf, Hw in *.
        destruct (start + len <? cap) eqn:?; destruct (start + i <? cap) eqn:?;
          destruct E1 as [E1|E1]; bool_to_prop; lia.
      * apply andb_false_iff in E1. rewrite Hj, Hf, Hw in *.
        destruct (start + len <? cap) eqn:?; destruct (start + i <? cap) eqn:?;
          destruct E1 as [E1|E1]; bool_to_prop; lia.
Qed.

(** Dropping the oldest bytes. *)
Lemma contents_drop buf start len n c :
  0 <= start < cap -> 0 <= n <= len -> len <= cap ->
  contents (mkConsoleLog buf ((start + n) mod cap) (len - n) c)
  = zdrop n (contents (mkConsoleLog buf start len c)).
Proof.
  intros Hs Hn Hl. apply byte_get_ext.
  { rewrite zlen_zdrop, !zlen_contents by (simpl; lia). simpl. lia. }
  rewrite zlen_contents by (simpl; lia). simpl. intros i Hi.
  rewrite byte_get_zdrop, !byte_get_contents by (simpl; lia). simpl.
  rewrite Zplus_mod_idemp_l. do 2 f_equal. lia.
Qed.

Lemma append_spec log l :
  log_wf log -> zlen l <= U64_MAX ->
  exists log', append log l = Ok log' /\ log_wf log' /\
    cl_capture_enabled log' = cl_capture_enabled log /\
    contents log' = if cl_capture_enabled log then last_cap (contents log ++ l) else contents log.
Proof.
  intros Hwf Hlu. pose proof Hwf as (Hb & Hs & Hl). pose proof (zlen_nonneg l).
  assert (zlen (contents log) = cl_len log) as Hz by (apply zlen_contents; lia).
  destruct log as [buf start n c]; cbn [cl_buffer cl_start cl_len cl_capture_enabled] in *.
  unfold append; cbn [cl_buffer cl_start cl_len cl_capture_enabled].
  destruct c; cbn [negb orb]; [|by eexists].
  destruct (zlen l =? 0) eqn:E0; bool_to_prop.
  { eexists. split_and!; [done..|]. assert (l = []) as -> by (by destruct l).
    rewrite app_nil_r. unfold last_cap. by rewrite zdrop_0 by lia. }
  destruct (cap <=? zlen l) eqn:E1; bool_to_prop.
  { rewrite get_slice_ok by lia. cbn [obind]. eexists. split; [done|].
    assert (slice l (zlen l - cap) (zlen l) = zdrop (zlen l - cap) l) as ->
      by (unfold slice; apply ztake_all; rewrite zlen_zdrop; lia).
    assert (zlen (zdrop (zlen l - cap) l) = cap) as Hzd by (rewrite zlen_zdrop; lia).
    split; [by split_and!; simpl; lia|]. split; [done|]. rewrite contents_full by done.
    unfold last_cap. rewrite zlen_app, zdrop_app_ge by lia. f_equal. lia. }
  replace (sub64 cap n) with (cap - n) by (unfold sub64; rewrite as_u64_small; ulia).
  cbv zeta. set (d := Z.max 0 (zlen l - (cap - n))).
  assert ((if cap - n <? zlen l
    then (add64 start (zlen l - (cap - n)) mod cap, sub64 n (zlen l - (cap - n)))
    else (start, n)) = ((start + d) mod cap, n - d)) as ->.
  { unfold d, add64, sub64. destruct (cap - n <? zlen l) eqn:?; bool_to_prop.
    - rewrite !as_u64_small, Z.max_r by ulia. done.
    - rewrite Z.max_l, Z.add_0_r, Z.sub_0_r, Z.mod_small by lia. done. }
  assert (0 <= d <= n /\ n - d + zlen l <= cap) as [Hd Hfit] by (unfold d; lia).
  pose proof (Z.mod_pos_bound (start + d) cap Hcap) as Hs'.
  set (start' := (start + d) mod cap) in *.
  unfold add64. rewrite (as_u64_small (start' + (n - d))), (as_u64_small (n - d + zlen l)) by ulia.
  pose proof (Z.mod_pos_bound (start' + (n - d)) cap Hcap) as Hw.
  set (w := (start' + (n - d)) mod cap) in *. set (f := Z.min (cap - w) (zlen l)).
  destruct (contents_write buf start' (n - d) l w f true) as [Hb2 Hc2]; [lia|lia|lia|lia|done|done|].
  assert (0 <= f <= zlen l /\ w + f <= cap) as [Hf1 Hf2] by (unfold f; lia).
  rewrite (get_slice_ok l 0 f) by lia. cbn [obind].
  assert (zlen (slice l 0 f) = f) as Hz1 by (rewrite zlen_slice; lia).
  rewrite put_slice_ok by lia. cbn [obind].
  assert ((if 0 <? zlen l - f
    then let? second := get_slice l f (zlen l) in put_slice (splice buf w (slice l 0 f)) 0 second
    else Ok (splice buf w (slice l 0 f))) =
    Ok (E := unit) (if 0 <? zlen l - f then splice (splice buf w (slice l 0 f)) 0 (slice l f (zlen l))
        else splice buf w (slice l 0 f))) as ->.
  { destruct (0 <? zlen l - f) eqn:?; [|done]. bool_to_prop.
    rewrite get_slice_ok by lia. cbn [obind]. apply put_slice_ok; [lia|].
    rewrite zlen_splice, zlen_slice by lia. unfold f in *. lia. }
  cbn [obind]. eexists. split; [done|]. split; [split_and!; simpl; lia|]. split; [done|].
  rewrite Hc2. unfold start'. rewrite contents_drop by lia.
  unfold last_cap. rewrite zlen_app, Hz. unfold d in *.
  destruct (decide (0 <= zlen l - (cap - n))).
  - rewrite Z.max_r, zdrop_app_le by lia. do 2 f_equal. lia.
  - by rewrite Z.max_l, !zdrop_0 by lia.
Qed.
End ring.

Lemma kernel_capacity : 0 < CONSOLE_LOG_CAPACITY /\ 2 * CONSOLE_LOG_CAPACITY <= U64_MAX.
Proof. done. Qed.

(** Every state reached from [new] by appends and capture switches. *)
Inductive log_op := OpWrite (l : bytes) | OpCapture (enabled : bool).

Definition run_log_op (cap : Z) (log : ConsoleLog) (op : log_op) : outcome unit ConsoleLog :=
  match op with
  | OpWrite l => append cap log l
  | OpCapture b => Ok (set_capture_enabled log b)
  end.

Fixpoint run_log (cap : Z) (log : ConsoleLog) (ops : list log_op) : outcome unit ConsoleLog :=
  match ops with
  | [] => Ok log
  | op :: ops => let? log := run_log_op cap log op in run_log cap log ops
  end.

(** The bytes written while capture was on, oldest first. *)
Fixpoint captured (on : bool) (ops : list log_op) : bytes :=
  match ops with
  | [] => []
  | OpWrite l :: ops => if on then l ++ captured on ops else captured on ops
  | OpCapture b :: ops => captured b ops
  end.

Lemma last_cap_app cap l l' : 0 <= cap -> last_cap cap (last_cap cap l ++ l') = last_cap cap (l ++ l').
Proof.
  intros Hc. unfold last_cap. pose proof (zlen_nonneg l). pose proof (zlen_nonneg l').
  destruct (decide (zlen l <= cap)); [by rewrite (zdrop_0 (zlen l - cap)) by lia|].
  set (b := zdrop (zlen l - cap) l). set (a := ztake (zlen l - cap) l).
  assert (l ++ l' = a ++ b ++ l') as -> by (unfold a, b; by rewrite app_assoc, ztake_zdrop).
  assert (zlen b = cap) as Hb by (unfold b; rewrite zlen_zdrop; lia). pose proof (zlen_nonneg a).
  rewrite !zlen_app, (zdrop_app_ge _ a) by lia. f_equal. lia.
Qed.

(** C8: the console log is a bounded queue.  From the initial state, any sequence of
    writes and capture switches runs without an out-of-range index, and what can be read
    afterwards is exactly the last [cap] bytes written while capture was enabled: a read
    at [offset] returns the bytes from there on, as many as the output holds. *)
Theorem console_log_refines cap ops offset out_len :
  0 < cap -> 2 * cap <= U64_MAX ->
  (forall l, OpWrite l ∈ ops -> zlen l <= U64_MAX) -> 0 <= offset -> 0 <= out_len ->
  let q := last_cap cap (captured true ops) in
  exists log, run_log cap (new cap) ops = Ok log /\ len log = zlen q /\
    let r := slice q offset (Z.min (offset + out_len) (zlen q)) in
    read cap log offset out_len = Ok (r, zlen r).
Proof.
  intros Hcap Hmax Hops Ho Hol q.
  assert (forall log pre, log_wf cap log -> contents cap log = last_cap cap pre ->
    exists log', run_log cap log ops = Ok log' /\ log_wf cap log' /\
      contents cap log' = last_cap cap (pre ++ captured (cl_capture_enabled log) ops)) as Hrun.
  { clear q Ho Hol. induction ops as [|op ops IH]; intros log pre Hwf Hc; cbn [run_log captured].
    { exists log. by rewrite app_nil_r. }
    assert (forall l, OpWrite l ∈ ops -> zlen l <= U64_MAX) as Hops'
      by (intros; apply Hops; by apply list_elem_of_further).
    destruct op as [l|b]; cbn [run_log_op].
    - destruct (append_spec cap Hcap Hmax log l Hwf) as (log1 & -> & Hwf1 & Hen & Hc1);
        [apply Hops, list_elem_of_here|]. cbn [obind].
      rewrite Hc in Hc1. destruct (cl_capture_enabled log) eqn:Hce.
      + rewrite last_cap_app in Hc1 by lia.
        destruct (IH Hops' log1 (pre ++ l)) as (log2 & ? & ? & Hc2); [done|done|].
        exists log2. split; [done|]. split; [done|]. rewrite Hc2, Hen, <- app_assoc. done.
      + destruct (IH Hops' log1 pre) as (log2 & ? & ? & Hc2); [done|done|].
        exists log2. split; [done|]. split; [done|]. by rewrite Hc2, Hen.
    - cbn [obind]. by apply (IH Hops' (set_capture_enabled log b)). }
  destruct (Hrun (new cap) []) as (log & Hr & Hwf & Hc).
  { split_and!; simpl; try lia. apply zlen_zeros. lia. }
  { unfold last_cap, zdrop. by rewrite drop_nil. }
  exists log. cbn [app cl_capture_enabled new] in Hc. fold q in Hc.
  assert (zlen q = cl_len log) as Hz by (rewrite <- Hc; apply zlen_contents; apply Hwf).
  split_and!; [done|done|]. rewrite Hz, <- Hc. by apply read_spec.
Qed.

Lemma console_log_refines_witness :
  let ops := [OpWrite (bstr "boot "); OpCapture false; OpWrite (bstr "hidden"); OpCapture true;
              OpWrite (bstr "done")] in
  let q := last_cap CONSOLE_LOG_CAPACITY (captured true ops) in
  exists log, run_log CONSOLE_LOG_CAPACITY (new CONSOLE_LOG_CAPACITY) ops = Ok log /\
    len log = zlen q /\
    let r := slice q 2 (Z.min (2 + 4) (zlen q)) in
    read CONSOLE_LOG_CAPACITY log 2 4 = Ok (r, zlen r).
Proof.
  intros ops. refine (console_log_refines CONSOLE_LOG_CAPACITY ops 2 4 _ _ _ _ _);
    [reflexivity|discriminate| |discriminate|discriminate].
  intros l Hl. apply list_elem_of_In in Hl. simpl in Hl.
  destruct Hl as [[= <-]|[?|[[= <-]|[?|[[= <-]|[]]]]]]; discriminate.
Defined.
