(* ===== verification/Syscalls.v ===== *)
(** * The system calls between the application and the kernel

    kernel/src/syscalls/mod.rs: C-style wrappers around the memory database and
    the console log that turn results into [i32] codes, negative for an error. *)

From S2P Require Import Prelude BlockDevice AhciIo MemoryDb MemoryDbSpec MemoryDbTheorems ConsoleLog.

Definition Errno_Inval : Z := 22.
Definition Errno_Nospc : Z := 28.
Definition Errno_Io : Z := 5.

(** [i32::try_from(n).unwrap_or(i32::MAX)] *)
Definition to_i32 (n : Z) : Z := if n <=? I32_MAX then n else I32_MAX.

Section calls.
Context {D : Type} `{BlockDev D}.

Definition sys_append_memory_db (data : option bytes) : AM D Z :=
  match data with
  | None => sret (- Errno_Inval)
  | Some _ =>
      let! r := scatch (append_memory_db data) in
      sret (match r with inl written => to_i32 written | inr _ => - Errno_Nospc end)
  end.

(** The bytes placed in the buffer, and the code. *)
Definition sys_read_memory_db (buf_null : bool) (buf_len : Z) : AM D (bytes * Z) :=
  if buf_null then sret ([], - Errno_Inval)
  else if buf_len =? 0 then sret ([], 0)
  else
    let! r := scatch (read_memory_db buf_null buf_len) in
    sret (match r with inl (b, n) => (b, to_i32 n) | inr _ => ([], - Errno_Io) end).

Definition sys_erase_memory_db : AM D Z :=
  let! r := scatch erase_memory_db in
  sret (match r with inl _ => 0 | inr _ => - Errno_Io end).
End calls.

Definition sys_console_log_len (log : ConsoleLog) : Z := len log.

Definition sys_read_console_log (log : ConsoleLog) (offset : Z) (buf_null : bool) (buf_len : Z)
    : outcome unit (bytes * Z) :=
  if buf_len =? 0 then Ok ([], 0)
  else if buf_null then Ok ([], - Errno_Inval)
  else
    let? (b, n) := read CONSOLE_LOG_CAPACITY log offset buf_len in Ok (b, to_i32 n).

Definition sys_set_console_log_capture (log : ConsoleLog) (enabled : Z) : ConsoleLog * Z :=
  (set_capture_enabled log (negb (enabled =? 0)), 0).
