(* ===== verification/MemoryDbSafety.v ===== *)
(** * The SSD memory database: no operation panics, on any disk

    The theorems of MemoryDbTheorems.v start from a consistent database.  Here
    nothing is assumed of the disk contents, of the header found there or of the
    statics: whatever the sectors hold and whichever transfers fail, every
    operation returns. *)

From S2P Require Import Prelude BlockDevice AhciIo MemoryDb MemoryDbSpec MemoryDbTheorems.

Section safety.
Context {D : Type} `{BlockDevSpec D}.

(** [c] returns from every state. *)
Definition returns {A} (c : AM D A) : Prop :=
  forall s, wp c (fun _ _ => True) (fun _ _ => True) s.

(** [c] returns, and its result satisfies [P]. *)
Definition returns_with {A} (c : AM D A) (P : A -> Prop) : Prop :=
  forall s, wp c (fun a _ => P a) (fun _ _ => True) s.

Lemma returns_bind {A B} (c : AM D A) (k : A -> AM D B) P Q :
  returns_with c P -> (forall a, P a -> returns_with (k a) Q) -> returns_with (sbind c k) Q.
Proof.
  intros Hc Hk s. apply wp_bind. eapply wp_mono; [apply Hc| |done]. intros a s' Ha. by apply Hk.
Qed.

Lemma returns_ret {A} (a : A) (P : A -> Prop) : P a -> returns_with (sret a) P.
Proof. intros Ha s. by apply wp_ret. Qed.

Lemma returns_fail {A} (P : A -> Prop) : returns_with (sfail tt) P.
Proof. intros s. by apply wp_fail. Qed.

Lemma returns_lift {A} (o : outcome unit A) (P : A -> Prop) :
  match o with Ok a => P a | Err _ => True | _ => False end -> returns_with (slift o) P.
Proof.
  intros Ho s. by destruct o as [a|[]| |].
Qed.

Lemma returns_lift_ok {A} (o : outcome unit A) a : o = Ok a -> returns_with (slift o) (fun _ => True).
Proof. by intros -> s. Qed.

Lemma returns_opt {A} (o : option A) (P : A -> Prop) :
  (forall a, o = Some a -> P a) -> returns_with (sopt tt o) P.
Proof. intros Ho. destruct o as [a|]; [by apply returns_ret, Ho|apply returns_fail]. Qed.

Lemma returns_gets {A} (f : Ahci D -> A) : returns_with (sgets f) (fun _ => True).
Proof. intros s. by apply wp_gets. Qed.

Lemma returns_modify (f : Ahci D -> Ahci D) : returns_with (smodify f) (fun _ => True).
Proof. intros s. by apply wp_modify. Qed.

Lemma returns_catch {A} (c : AM D A) P :
  returns_with c P -> returns_with (scatch c) (fun r => match r with inl a => P a | inr _ => True end).
Proof. intros Hc s. apply wp_catch. apply Hc. Qed.

Lemma returns_weaken {A} (c : AM D A) (P Q : A -> Prop) :
  returns_with c P -> (forall a, P a -> Q a) -> returns_with c Q.
Proof. intros Hc HPQ s. eapply wp_mono; [apply Hc|auto|done]. Qed.

Lemma returns_any {A} (c : AM D A) P : returns_with c P -> returns c.
Proof. intros Hc s. eapply wp_mono; [apply Hc|done|done]. Qed.

(** Transfers: a completed read fills the buffer. *)
Lemma returns_read lba n :
  returns_with (read_sectors lba n) (fun b => zlen b = n * SECTOR_SIZE).
Proof.
  intros s. Transparent wp. unfold wp, read_sectors. Opaque wp.
  destruct (FIRST_SATA_PORT s); [|done].
  destruct (bd_read (ah_dev s) lba n) as [d [b|]] eqn:E; [|done].
  by destruct (bd_read_data _ _ _ _ _ E).
Qed.

Lemma returns_read1 lba : returns_with (read_sectors lba 1) (fun b => zlen b = SECTOR_SIZE).
Proof. eapply returns_weaken; [apply returns_read|]. intros b Hb. rewrite Hb. apply Z.mul_1_l. Qed.

Lemma returns_write lba n b : returns_with (write_sectors lba n b) (fun _ => True).
Proof.
  intros s. Transparent wp. unfold wp, write_sectors. Opaque wp.
  destruct (FIRST_SATA_PORT s); [|done]. by destruct (bd_write (ah_dev s) lba n b) as [d []].
Qed.

(** ** The sectors decode *)

Lemma decode_header_returns b :
  zlen b = SECTOR_SIZE -> match decode_header b with Ok _ | Err _ => True | _ => False end.
Proof.
  intros Hb. unfold decode_header. rewrite get_slice_ok by (rewrite ?Hb; done). cbn [obind].
  destruct (negb _); [done|].
  rewrite !le_u32_ok by (done || by rewrite Hb). cbn [obind]. do 2 (destruct (negb _); [done|]).
  by rewrite !le_u64_ok by (done || by rewrite Hb).
Qed.

Lemma returns_read_map_header lba :
  returns_with (memory_db_read_map_header lba) (fun r => 0 <= snd r <= MEMORY_DB_MAP_MAX_ENTRIES).
Proof.
  eapply returns_bind; [apply returns_read1|]. intros b Hb. cbn beta in Hb. apply returns_lift.
  destruct (decode_map_header_total b Hb) as [[[sz used] Hr]| ->]; [|done]. rewrite Hr. simpl.
  eauto using decode_map_header_bound, decode_map_header_nonneg.
Qed.

Lemma location_returns i :
  0 <= i ->
  match memory_db_map_entry_location i with
  | Ok (_, off) => 0 <= off /\ off + 16 <= SECTOR_SIZE
  | Err _ => True | _ => False
  end.
Proof.
  intros Hi. destruct (decide (i < MEMORY_DB_MAP_MAX_ENTRIES)) as [Hlt|Hge].
  - destruct (map_entry_location_ok i) as (-> & _ & ?); [lia|]. unfold SECTOR_SIZE. lia.
  - unfold memory_db_map_entry_location, memory_db_map_entry_capacity.
    by guard_true (MEMORY_DB_MAP_MAX_ENTRIES <=? i).
Qed.

Lemma returns_read_map_entry lba i :
  0 <= i -> returns_with (memory_db_read_map_entry lba i)
              (fun e => u64 (e_start_lba e) /\ u32 (e_payload_bytes e)).
Proof.
  intros Hi. eapply returns_bind; [apply returns_lift|].
  { pose proof (location_returns i Hi) as Hl.
    instantiate (1 := fun r => 0 <= snd r /\ snd r + 16 <= SECTOR_SIZE).
    by destruct (memory_db_map_entry_location i) as [[a off]| | |]. }
  intros [so off] [Ho1 Ho2]. cbn [snd] in *. eapply returns_bind; [apply returns_read1|]. intros b Hb. cbn beta in Hb.
  apply returns_lift. unfold decode_map_entry, MEMORY_DB_MAP_ENTRY_START_OFFSET,
    MEMORY_DB_MAP_ENTRY_BYTES_OFFSET, MEMORY_DB_MAP_ENTRY_FLAGS_OFFSET, SECTOR_SIZE in *.
  rewrite le_u64_ok, !le_u32_ok by lia. simpl.
  split; [apply le_combine_u64|apply le_combine_u32]; rewrite zlen_slice by lia; lia.
Qed.

Lemma returns_write_map_entry lba i start len flags :
  0 <= i -> returns_with (memory_db_write_map_entry lba i start len flags) (fun _ => True).
Proof.
  intros Hi. eapply returns_bind; [apply returns_lift|].
  { pose proof (location_returns i Hi) as Hl.
    instantiate (1 := fun r => 0 <= snd r /\ snd r + 16 <= SECTOR_SIZE).
    by destruct (memory_db_map_entry_location i) as [[a off]| | |]. }
  intros [so off] [Ho1 Ho2]. cbn [snd] in *. eapply returns_bind; [apply returns_read1|]. intros b Hb. cbn beta in Hb.
  eapply returns_bind; [|intros; apply returns_write].
  eapply returns_lift_ok, (put_fields_ok 0); [done|].
  apply map_entry_fields_sorted; lia.
Qed.

Lemma returns_write_map_header lba used :
  returns_with (memory_db_write_map_header lba used) (fun _ => True).
Proof.
  eapply returns_bind; [by apply (returns_opt _ (fun _ => True))|]. intros _ _.
  eapply returns_bind; [eapply returns_lift_ok, put_map_header|intros; apply returns_write].
Qed.

Lemma decode_header_magic b h : decode_header b = Ok h -> h_magic h = MEMORY_DB_MAGIC.
Proof.
  unfold decode_header. intros Hd.
  repeat match type of Hd with
    | obind ?c _ = _ => destruct c; cbn [obind] in Hd; try done
    | (if negb (bool_decide ?P) then _ else _) = _ => destruct (bool_decide P) eqn:?; cbn [negb] in Hd; try done
    | (if ?c then _ else _) = _ => destruct c; try done
    end.
  bool_to_prop. by simplify_eq/=.
Qed.

(** Headers as they come from a sector: the magic is right, the map counter an
    unsigned number. *)
Definition header_read (h : MemoryDbHeader) : Prop :=
  h_magic h = MEMORY_DB_MAGIC /\ 0 <= h_map_entries_used h.

Lemma returns_read_header lba : returns_with (memory_db_read_header lba) header_read.
Proof.
  eapply returns_bind; [apply returns_read1|]. intros b Hb. cbn beta in Hb. apply returns_lift.
  pose proof (decode_header_returns b Hb) as Hr.
  destruct (decode_header b) as [h| | |] eqn:E; try done. pose proof (decode_header_magic _ _ E).
  apply decode_header_of in E; [|done]. rewrite E. split; [by rewrite <- E|]. simpl.
  apply le_combine_bound.
Qed.

Lemma returns_write_header h :
  h_magic h = MEMORY_DB_MAGIC -> returns_with (memory_db_write_header h) (fun _ => True).
Proof.
  intros Hm. eapply returns_bind; [apply returns_gets|]. intros [db|] _; [|apply returns_fail].
  destruct (negb _); [apply returns_fail|].
  eapply returns_bind; [by eapply returns_lift_ok, put_header|intros; apply returns_write].
Qed.

(** ** The loops *)

Lemma returns_recover_loop fuel lba de n cursor i :
  0 <= i -> n - i <= Z.of_nat fuel ->
  returns_with (recover_loop fuel lba de n cursor i) (fun r => i <= snd r).
Proof.
  revert cursor i. induction fuel as [|fuel IH]; intros cursor i Hi Hf; cbn [recover_loop].
  - guard_false (i <? n). by apply returns_ret.
  - destruct (i <? n) eqn:E; [|by apply returns_ret]. cbn [negb]. bool_to_prop.
    eapply returns_bind; [by apply returns_read_map_entry|]. intros e _.
    do 2 (destruct (_ =? 0); [by apply returns_ret|]).
    destruct (checked_add64 _ _); [|apply returns_fail].
    destruct (_ || _); [by apply returns_ret|].
    eapply returns_weaken; [apply IH; lia|]. intros [c r]; simpl. lia.
Qed.

Lemma returns_recover h :
  header_read h -> returns_with (memory_db_recover_from_map h) (fun r => header_read (fst r)).
Proof.
  intros [Hm Hu]. unfold memory_db_recover_from_map.
  destruct (_ || _); [by apply returns_ret|].
  eapply returns_bind; [apply returns_catch, returns_read_map_header|].
  intros [[sz used]|e] Hr; [|by apply returns_ret]. cbn [snd] in Hr.
  eapply returns_bind; [apply returns_catch, (returns_recover_loop _ _ _ _ _ 0); lia|].
  intros [[cursor r]|e'] Hs; [|by apply returns_ret]. cbn [snd] in Hs.
  by destruct (_ || _); apply returns_ret.
Qed.

(** One iteration's data writes keep [written + remaining] at the length. *)
Lemma returns_append_full data full wl written remaining :
  0 <= full -> 0 <= written -> full * SECTOR_SIZE <= remaining ->
  written + remaining = zlen data -> u64 (zlen data) ->
  returns_with (append_full data full wl written remaining)
    (fun '(_, w, r, _) => w = written + full * SECTOR_SIZE /\ r = remaining - full * SECTOR_SIZE).
Proof.
  intros Hf Hw Hr Hd Hu. unfold append_full, SECTOR_SIZE in *.
  destruct (0 <? full) eqn:E; bool_to_prop; [|apply returns_ret; lia].
  eapply returns_bind; [by apply (returns_opt _ (fun _ => True))|]. intros n _.
  eapply returns_bind; [eapply returns_lift_ok, get_slice_ok; lia|]. intros src _.
  eapply returns_bind; [apply returns_write|]. intros _ _. apply returns_ret.
  unfold add64, sub64. rewrite !as_u64_small by ulia. done.
Qed.

Lemma returns_append_tail data tail wl written remaining n :
  0 <= tail < SECTOR_SIZE -> 0 <= written -> tail <= remaining ->
  written + remaining = zlen data -> u64 (zlen data) ->
  returns_with (append_tail data tail wl written remaining n)
    (fun '(_, w, r, _) => w = written + tail /\ r = remaining - tail).
Proof.
  intros Ht Hw Hr Hd Hu. unfold append_tail, SECTOR_SIZE in *.
  destruct (0 <? tail) eqn:E; bool_to_prop; [|apply returns_ret; lia].
  eapply returns_bind; [apply returns_lift; rewrite get_slice_ok by lia|].
  { instantiate (1 := fun src => zlen src = tail). cbn beta. rewrite zlen_slice; lia. }
  intros src Hs. cbn beta in Hs.
  eapply returns_bind; [eapply returns_lift_ok, put_slice_ok; rewrite ?zlen_zeros; lia|]. intros b _.
  eapply returns_bind; [apply returns_write|]. intros _ _. apply returns_ret.
  unfold add64, sub64. rewrite !as_u64_small by ulia. done.
Qed.

Lemma append_chunk_cases remaining available :
  0 < remaining -> 0 < available ->
  0 < append_chunk remaining available <= remaining /\
  (append_chunk remaining available = remaining \/ SECTOR_SIZE <= append_chunk remaining available).
Proof.
  intros. unfold append_chunk, sat_mul64, MODEL_IO_SECTORS, SECTOR_SIZE. split_if; ulia.
Qed.

Lemma returns_append_loop fuel data db_end remaining written wl :
  0 <= remaining <= Z.of_nat fuel * SECTOR_SIZE -> 0 <= written ->
  written + remaining = zlen data -> u64 (zlen data) ->
  returns_with (append_loop fuel data db_end remaining written wl) (fun _ => True).
Proof.
  revert remaining written wl. induction fuel as [|fuel IH]; intros remaining written wl Hr Hw Hd Hu;
    cbn [append_loop].
  { guard_false (0 <? remaining). by apply returns_ret. }
  destruct (0 <? remaining) eqn:E; cbn [negb]; bool_to_prop; [|by apply returns_ret].
  destruct (sat_sub db_end wl =? 0) eqn:E1; bool_to_prop; [apply returns_fail|].
  destruct (append_chunk_cases remaining (sat_sub db_end wl)) as [Hc Hcs]; [done|unfold sat_sub in *; lia|].
  set (c := append_chunk remaining (sat_sub db_end wl)) in *. clearbody c.
  destruct (c =? 0); [apply returns_fail|].
  pose proof (Z.div_mod c SECTOR_SIZE ltac:(done)). pose proof (Z.mod_pos_bound c SECTOR_SIZE ltac:(done)).
  pose proof (Z.div_pos c SECTOR_SIZE ltac:(lia) ltac:(done)).
  eapply returns_bind; [apply returns_append_full; [lia|done|lia|done|done]|].
  intros [[[wl1 w1] r1] n1] [-> ->].
  eapply returns_bind; [apply returns_append_tail; unfold SECTOR_SIZE in *; (lia || done)|].
  intros [[[wl2 w2] r2] n2] [-> ->].
  destruct (n2 =? 0); [apply returns_fail|]. apply IH; unfold SECTOR_SIZE in *; (lia || done).
Qed.

Lemma returns_erase_loop fuel db_end lba :
  db_end - lba <= Z.of_nat fuel * MEMORY_DB_ERASE_CHUNK_SECTORS -> db_end <= U64_MAX ->
  returns_with (erase_loop fuel (zeros MEMORY_DB_ERASE_CHUNK_BYTES) db_end lba) (fun _ => True).
Proof.
  revert lba. induction fuel as [|fuel IH]; intros lba Hf Hm; cbn [erase_loop].
  { guard_false (lba <? db_end). by apply returns_ret. }
  destruct (lba <? db_end) eqn:E; cbn [negb]; bool_to_prop; [|by apply returns_ret].
  eapply returns_bind;
    [apply (returns_opt _ (fun n => n = Z.min (sat_sub db_end lba) MEMORY_DB_ERASE_CHUNK_SECTORS));
     intros n; unfold u16_try_from; split_if; intros; by simplify_eq|].
  intros n ->. unfold MEMORY_DB_ERASE_CHUNK_SECTORS, sat_sub in *.
  eapply returns_bind.
  { eapply returns_lift_ok, get_slice_ok; unfold SECTOR_SIZE; [lia|].
    rewrite zlen_zeros by done. change MEMORY_DB_ERASE_CHUNK_BYTES with 4096. lia. }
  intros src _. eapply returns_bind; [apply returns_write|]. intros _ _.
  apply IH; [|done]. unfold sat_add64. ulia.
Qed.

Lemma returns_read_entry_loop fuel start len tail off out total remaining :
  0 <= off -> len - off <= Z.of_nat fuel * SECTOR_SIZE -> u32 len ->
  returns_with (read_entry_loop fuel start len tail off out total remaining) (fun _ => True).
Proof.
  revert off out total remaining. induction fuel as [|fuel IH]; intros off out total remaining Ho Hf Hu;
    cbn [read_entry_loop].
  { guard_false (off <? len). by apply returns_ret. }
  destruct ((off <? len) && (0 <? remaining)) eqn:E; cbn [negb]; bool_to_prop; [|by apply returns_ret].
  eapply returns_bind; [by apply (returns_opt _ (fun _ => True))|]. intros lba _.
  destruct (tail <=? lba); [apply returns_fail|].
  eapply returns_bind; [apply returns_read1|]. intros b Hb. cbn beta in Hb.
  eapply returns_bind; [eapply returns_lift_ok, get_slice_ok; unfold SECTOR_SIZE in *; lia|].
  intros src _. rewrite sat_add64_small by (unfold SECTOR_SIZE in *; ulia).
  destruct (decide (remaining <= Z.min (len - off) SECTOR_SIZE)) as [Hle|Hgt].
  - (* the caller's buffer is full after this sector *)
    replace (sat_sub remaining _) with 0 by (unfold sat_sub, SECTOR_SIZE in *; lia).
    destruct fuel; cbn [read_entry_loop]; rewrite andb_false_r; by apply returns_ret.
  - apply IH; unfold SECTOR_SIZE in *; (lia || done).
Qed.

Lemma returns_read_loop fuel h tail n out total remaining :
  n <= Z.of_nat fuel ->
  returns_with (read_loop fuel h tail n out total remaining) (fun _ => True).
Proof.
  revert n out total remaining. induction fuel as [|fuel IH]; intros n out total remaining Hf;
    cbn [read_loop].
  { guard_false (0 <? n). by apply returns_ret. }
  destruct ((0 <? n) && (0 <? remaining)) eqn:E; cbn [negb]; bool_to_prop; [|by apply returns_ret].
  eapply returns_bind; [apply returns_read_map_entry, Z.mod_pos_bound; done|]. intros e [_ Hu].
  do 2 (destruct (_ =? 0); [by apply returns_ret|]).
  destruct (div_ceil_spec (e_payload_bytes e) SECTOR_SIZE) as [Hd Hd0]; [done|ulia|].
  eapply returns_bind; [apply returns_read_entry_loop; [done| |done]|].
  { unfold sectors_for_bytes. rewrite Z2Nat.id; lia. }
  intros [[out' total'] rem'] _. apply IH. unfold sat_sub. lia.
Qed.

Lemma returns_zero_map_sectors n lba i : returns_with (zero_map_sectors n lba i) (fun _ => True).
Proof.
  revert i. induction n as [|n IH]; intros i; cbn [zero_map_sectors]; [by apply returns_ret|].
  eapply returns_bind; [apply returns_write|]. intros _ _. apply IH.
Qed.

(** ** The operations *)

Lemma returns_append data :
  u64 (zlen (default [] data)) -> returns_with (append_memory_db data) (fun _ => True).
Proof.
  intros Hu. eapply returns_bind; [apply returns_gets|]. intros [lba|] _; [|apply returns_fail].
  destruct data as [data|]; [|by apply returns_ret]. change (u64 (zlen data)) in Hu.
  destruct (_ =? 0); [by apply returns_ret|].
  eapply returns_bind; [apply returns_read_header|]. intros h Hh. cbn beta zeta. destruct (_ || _); [apply returns_fail|].
  eapply returns_bind; [by apply returns_recover|]. intros [h' ok] [Hm Hn]. cbn [fst] in *.
  unfold append_recovered. destruct (_ <=? _); [apply returns_fail|].
  eapply returns_bind; [apply returns_gets|]. intros [cap|] _; [|apply returns_fail].
  destruct (_ || _); [apply returns_fail|].
  destruct (div_ceil_spec (zlen data) SECTOR_SIZE) as [Hd Hd0]; [done|ulia|].
  eapply returns_bind; [apply returns_append_loop; unfold sectors_for_bytes; rewrite ?Z2Nat.id by done; (ulia || done)|].
  intros [w wl] _. eapply returns_bind; [by apply (returns_opt _ (fun _ => True))|]. intros n _.
  eapply returns_bind; [by apply returns_write_map_entry|]. intros _ _.
  eapply returns_bind; [apply returns_write_map_header|]. intros _ _.
  eapply returns_bind; [by apply returns_write_header|]. intros _ _. by apply returns_ret.
Qed.

Lemma returns_read_db null n : returns_with (read_memory_db null n) (fun _ => True).
Proof.
  eapply returns_bind; [apply returns_gets|]. intros [lba|] _; [|apply returns_fail].
  destruct (_ || _); [by apply returns_ret|].
  eapply returns_bind; [apply returns_read_header|]. intros h Hh. cbn beta zeta. destruct (_ || _); [apply returns_fail|].
  eapply returns_bind; [by apply returns_recover|]. intros [h' ok] [Hm Hn]. cbn [fst] in *.
  unfold read_recovered. eapply returns_bind; [apply returns_gets|]. intros [cap|] _; [|apply returns_fail].
  destruct (_ || _); [apply returns_fail|]. destruct (_ =? 0); [by apply returns_ret|].
  apply returns_read_loop. lia.
Qed.

Lemma returns_erase : returns_with erase_memory_db (fun _ => True).
Proof.
  eapply returns_bind; [apply returns_gets|]. intros [lba|] _; [|apply returns_fail].
  eapply returns_bind; [apply returns_read_header|]. intros h Hh. cbn beta zeta. destruct (_ || _); [apply returns_fail|].
  eapply returns_bind; [apply returns_gets|]. intros [cap|] _; [|apply returns_fail].
  eapply returns_bind.
  { apply (returns_opt _ (fun e => e = lba + MEMORY_DB_TOTAL_SECTORS /\ e <= U64_MAX)).
    intros e. unfold checked_add64. split_if; intros; by simplify_eq. }
  intros e [-> He]. destruct (_ <? _); [apply returns_fail|].
  eapply returns_bind; [apply returns_erase_loop; [|done]|].
  { unfold MEMORY_DB_TOTAL_SECTORS, MEMORY_DB_ERASE_CHUNK_SECTORS, div_ceil.
    rewrite Z2Nat.id by done. change ((131072 + 8 - 1) / 8) with 16384. lia. }
  intros _ _. eapply returns_bind; [apply returns_write_map_header|]. intros _ _.
  by apply returns_write_header.
Qed.

Lemma returns_keep_recovered lba dl h :
  header_read h -> returns_with (keep_recovered lba dl h) (fun _ => True).
Proof.
  intros Hh. eapply returns_bind; [by apply returns_recover|]. intros [h' ok] [Hm Hn]. cbn [fst] in *.
  destruct ok; [|by apply returns_ret].
  eapply returns_bind; [apply returns_write_map_header|]. intros _ _.
  eapply returns_bind; [apply returns_modify|]. intros _ _.
  eapply returns_bind; [by apply returns_write_header|]. intros _ _. by apply returns_ret.
Qed.

Lemma returns_le_u64 b off :
  zlen b = SECTOR_SIZE -> 0 <= off <= 504 -> returns_with (slift (le_u64 b off)) (fun v => 0 <= v).
Proof.
  intros Hb Ho. apply returns_lift. unfold SECTOR_SIZE in Hb. rewrite le_u64_ok by lia.
  apply le_combine_bound.
Qed.

Lemma returns_le_u32 b off :
  zlen b = SECTOR_SIZE -> 0 <= off <= 508 -> returns_with (slift (le_u32 b off)) (fun v => 0 <= v).
Proof.
  intros Hb Ho. apply returns_lift. unfold SECTOR_SIZE in Hb. rewrite le_u32_ok by lia.
  apply le_combine_bound.
Qed.

Lemma returns_ensure_existing b lba ml dl de ms me :
  zlen b = SECTOR_SIZE -> returns_with (ensure_existing b lba ml dl de ms me) (fun _ => True).
Proof.
  intros Hb. unfold ensure_existing.
  eapply returns_bind; [eapply returns_lift_ok, get_slice_ok; [done|by rewrite Hb]|]. intros magic _.
  do 2 (eapply returns_bind; [by apply returns_le_u32|]; intros ? _).
  do 5 (eapply returns_bind; [by apply returns_le_u64|]; intros ? _).
  eapply returns_bind; [by apply returns_le_u64|]; intros used Hused. cbn beta in Hused.
  eapply returns_bind; [by apply returns_le_u64|]; intros ? _.
  eapply returns_bind; [apply returns_catch, returns_read_map_header|]. intros mr _.
  destruct (_ && _); [|by apply returns_ret].
  eapply returns_bind; [by apply returns_le_u64|]; intros ? _.
  by apply returns_keep_recovered.
Qed.

Lemma returns_ensure_fresh lba ml dl cap ms me :
  returns_with (ensure_fresh lba ml dl cap ms me) (fun _ => True).
Proof.
  unfold ensure_fresh. eapply returns_bind; [by eapply returns_lift_ok, put_header|]. intros hd _.
  eapply returns_bind; [apply returns_zero_map_sectors|]. intros _ _.
  eapply returns_bind; [apply returns_write_map_header|]. intros _ _.
  eapply returns_bind; [apply returns_write|]. intros _ _.
  eapply returns_bind; [apply returns_read1|]. intros b Hb. cbn beta in Hb.
  eapply returns_bind; [eapply returns_lift_ok, get_slice_ok; [done|by rewrite Hb]|]. intros magic _.
  destruct (negb _); [apply returns_fail|]. apply returns_modify.
Qed.

Lemma returns_ensure lba ms me : returns_with (ensure_memory_db lba ms me) (fun _ => True).
Proof.
  unfold ensure_memory_db. eapply returns_bind; [apply returns_gets|]. intros [cap|] _; [|apply returns_fail].
  eapply returns_bind; [by apply (returns_opt _ (fun _ => True))|]. intros e _.
  do 2 (destruct (_ : bool); [apply returns_fail|]).
  eapply returns_bind; [apply returns_catch, returns_read1|]. intros ex Hex.
  eapply returns_bind.
  { instantiate (1 := fun _ => True). destruct ex; [by apply returns_ensure_existing|by apply returns_ret]. }
  intros [] _; [by apply returns_ret|]. apply returns_ensure_fresh.
Qed.
End safety.

(** A call came back: with a value or with the error. *)
Definition ended {S A} (r : S * outcome unit A) : Prop :=
  (exists s a, r = (s, Ok a)) \/ (exists s, r = (s, Err tt)).

Lemma returns_ended {D A} `{BlockDevSpec D} (c : AM D A) P s : returns_with c P -> ended (c s).
Proof.
  intros Hc. destruct (wp_run _ _ _ _ (Hc s)) as [(s' & a & -> & _)|(s' & [] & -> & _)];
    [left|right]; eauto.
Qed.

(** C6: whatever the sectors hold, whichever transfers fail and whichever
    statics are set, every operation of the memory database comes back with a
    value or an error: no slice index is out of range, no [unwrap] fails and
    every loop ends. *)
Theorem memory_db_total {D} `{BlockDevSpec D} (s : Ahci D) (data : option bytes) :
  u64 (zlen (default [] data)) ->
  ended (append_memory_db data s) /\
  (forall buf_null buf_len, ended (read_memory_db buf_null buf_len s)) /\
  ended (erase_memory_db s) /\
  (forall db_lba model_start_lba model_last_lba,
     ended (ensure_memory_db db_lba model_start_lba model_last_lba s)).
Proof.
  intros Hu. split_and!; intros; eapply returns_ended;
    eauto using returns_append, returns_read_db, returns_erase, returns_ensure.
Qed.

(** A disk whose sectors are all zero and whose first three reads fail. *)
Lemma memory_db_total_witness : exists s : Ahci MemDisk, ended (append_memory_db (Some (bstr "x")) s).
Proof.
  exists (mkAhci (mkMemDisk 1000 ∅ None 3) (Some 0) None (Some 1000) (Some 5)).
  apply memory_db_total. vm_compute. split; discriminate.
Defined.
