(* ===== verification/ModelCache.v ===== *)
(** * The raw model cache on the SSD: operations

    kernel/src/drivers/storage/ahci.rs keeps a copy of the language model on the
    SSD behind a one-sector header at LBA 2048, so that later boots load it from
    there and not from USB.  The header says WRITING while the copy is made and
    READY afterwards; the memory database starts in the sector after the model.
    The kernel's record of the model in memory is that of kernel/src/env.rs. *)

From stdpp Require Import gmap.
From S2P Require Import Prelude BlockDevice AhciIo MemoryDb.

Definition MODEL_FIXED_CACHE_LBA : Z := 2048.
Definition MODEL_HEADER_SECTORS : Z := 8.
Definition MIN_RAW_MODEL_SIZE : Z := 1024 * 1024 * 1024.
Definition MAX_RAW_MODEL_SIZE : Z := 8 * 1024 * 1024 * 1024.
Definition MODEL_MAGIC_READY : bytes := bstr "BITNET01".
Definition MODEL_MAGIC_WRITING : bytes := bstr "BITNET00".
Definition MODEL_CACHE_TAG : bytes := bstr "BITNET2B".
Definition MODEL_CACHE_TAG_OFFSET : Z := 24.

(** ** The kernel's record of the model *)

Record ModelInfo := mkModelInfo {
  mi_address : Z;
  mi_size : Z;
  mi_source : bytes;
}.

Definition NO_MODEL : ModelInfo := mkModelInfo 0 0 (bstr "none").

(** The kernel as the model cache sees it: the AHCI driver, the static
    [KERNEL_MODEL_INFO], the model the device tree announces, if any, and the
    memory obtained from the allocator: for each allocation, by address, what has
    been written from its start. *)
Record Kernel (D : Type) := mkKernel {
  k_ahci : Ahci D;
  KERNEL_MODEL_INFO : ModelInfo;
  k_fdt_model : option ModelInfo;
  k_mem : gmap Z bytes;
}.
Arguments mkKernel {D}.
Arguments k_ahci {D}.
Arguments KERNEL_MODEL_INFO {D}.
Arguments k_fdt_model {D}.
Arguments k_mem {D}.

Definition set_ahci_of {D} (a : Ahci D) (k : Kernel D) : Kernel D :=
  mkKernel a (KERNEL_MODEL_INFO k) (k_fdt_model k) (k_mem k).
Definition set_mem {D} (base : Z) (b : bytes) (k : Kernel D) : Kernel D :=
  mkKernel (k_ahci k) (KERNEL_MODEL_INFO k) (k_fdt_model k) (<[base := b]> (k_mem k)).

Definition set_model_info_with_source {D} (address size : Z) (source : bytes) (k : Kernel D) : Kernel D :=
  mkKernel (k_ahci k) (mkModelInfo address size source) (k_fdt_model k) (k_mem k).

Definition set_model_info {D} (address size : Z) : Kernel D -> Kernel D :=
  set_model_info_with_source address size (bstr "unknown").

Definition model_info {D} (k : Kernel D) : option ModelInfo :=
  if negb (mi_address (KERNEL_MODEL_INFO k) =? 0) then Some (KERNEL_MODEL_INFO k)
  else k_fdt_model k.

Abbreviation KM D A := (ST (Kernel D) unit A).

(** A call of the driver from kernel code. *)
Definition ahci {D A} (c : AM D A) : KM D A := fun k =>
  let '(a, r) := c (k_ahci k) in (set_ahci_of a k, r).

(** ** The header *)

Definition model_header_fields (magic : bytes) (model_size data_lba : Z) : list (Z * bytes) :=
  [(0, magic); (8, to_le64 model_size); (16, to_le64 data_lba);
   (MODEL_CACHE_TAG_OFFSET, MODEL_CACHE_TAG)].

Definition write_model_header (magic : bytes) (model_size data_lba : Z) : outcome unit bytes :=
  put_fields (zeros SECTOR_SIZE) (model_header_fields magic model_size data_lba).

(** The checks of [try_load_raw_model] on the header sector: the size of a model
    that may be loaded. *)
Definition model_header_size (header : bytes) (cache_lba : Z) : outcome unit (option Z) :=
  let? magic := get_slice header 0 8 in
  if negb (bool_decide (magic = MODEL_MAGIC_READY)) then Ok None else
  let? tag := get_slice header MODEL_CACHE_TAG_OFFSET (MODEL_CACHE_TAG_OFFSET + zlen MODEL_CACHE_TAG) in
  if negb (bool_decide (tag = MODEL_CACHE_TAG)) then Ok None else
  let? model_size := le_u64 header 8 in
  let? data_lba := le_u64 header 16 in
  if negb (data_lba =? add64 cache_lba MODEL_HEADER_SECTORS) then Ok None else
  if model_size =? 0 then Ok None else
  if negb ((MIN_RAW_MODEL_SIZE <=? model_size) && (model_size <=? MAX_RAW_MODEL_SIZE)) then Ok None
  else Ok (Some model_size).

(** ** Partition table helpers (not called) *)

(** [char::from_u32] of a 16-bit unit; a surrogate prints as a question mark. *)
Definition gpt_char (ch : Z) : Z := if (0xD800 <=? ch) && (ch <=? 0xDFFF) then 63 else ch.

(** The code points of [gpt_partition_name]. *)
Fixpoint gpt_partition_name (raw_name : bytes) : list Z :=
  match raw_name with
  | lo :: hi :: rest =>
      let ch := le_combine [lo; hi] in
      if ch =? 0 then [] else gpt_char ch :: gpt_partition_name rest
  | _ => []
  end.

Section operations.
Context {D : Type} `{BlockDev D}.

Definition discover_model_cache_lba : AM D (option Z) :=
  let! cell := sgets MODEL_CACHE_START_LBA in
  match cell with
  | Some lba => sret (Some lba)
  | None =>
      let! _ := smodify (set_MODEL_CACHE_START_LBA MODEL_FIXED_CACHE_LBA) in
      sret (Some MODEL_FIXED_CACHE_LBA)
  end.

Definition raw_model_range_fits (data_lba model_size : Z) : AM D bool :=
  let! capacity := sgets SSD_SECTOR_COUNT in
  match capacity with
  | None => sret true
  | Some capacity_sectors =>
      match checked_add64 data_lba (sectors_for_bytes model_size) with
      | None => sret false
      | Some end_exclusive => sret (negb (capacity_sectors <? end_exclusive))
      end
  end.

Definition smoke_test_raw_model_cache (cache_lba : Z) : AM D unit :=
  let test_lba := add64 cache_lba 1 in
  let! write_buf :=
    slift (put_fields (zeros SECTOR_SIZE) [(0, bstr "HSMOKE01"); (8, to_le64 test_lba)]) in
  let! _ := write_sectors test_lba 1 write_buf in
  let! read_buf := read_sectors test_lba 1 in
  let! r := slift (get_slice read_buf 0 16) in
  let! w := slift (get_slice write_buf 0 16) in
  if negb (bool_decide (r = w)) then sfail tt else sret tt.

(** The sectors of the chunk at [offset]. *)
Definition chunk_sectors (model_size offset : Z) : Z :=
  let remaining := model_size - offset in
  let chunk_bytes := Z.min remaining (MODEL_IO_SECTORS * SECTOR_SIZE) in
  as_u16 (div_ceil chunk_bytes SECTOR_SIZE).

(** The number of chunks, fuel for the copy loops. *)
Definition chunk_count (model_size : Z) : nat :=
  Z.to_nat (div_ceil model_size (MODEL_IO_SECTORS * SECTOR_SIZE)).

(** The copy loop of [write_raw_model_cache].  [mem] is the memory from
    [model_ptr] on; a transfer reads whole sectors of it. *)
Fixpoint write_chunks (fuel : nat) (mem : bytes) (data_lba model_size offset : Z) : AM D unit :=
  if negb (offset <? model_size) then sret tt else
  match fuel with
  | O => sfuel
  | S fuel =>
      let sectors := chunk_sectors model_size offset in
      let! src := slift (get_slice mem offset (offset + sectors * SECTOR_SIZE)) in
      let! _ := write_sectors (add64 data_lba (offset / SECTOR_SIZE)) sectors src in
      write_chunks fuel mem data_lba model_size (add64 offset (sectors * SECTOR_SIZE))
  end.

Definition write_raw_model_cache (mem : bytes) (model_size : Z) : AM D unit :=
  let! cache_lba := discover_model_cache_lba in
  match cache_lba with
  | None => sfail tt
  | Some cache_lba =>
  let data_lba := add64 cache_lba MODEL_HEADER_SECTORS in
  let! fits := raw_model_range_fits data_lba model_size in
  if negb fits then sfail tt else
  let! _ := smoke_test_raw_model_cache cache_lba in
  let! header := slift (write_model_header MODEL_MAGIC_WRITING model_size data_lba) in
  let! _ := write_sectors cache_lba 1 header in
  let! _ := write_chunks (chunk_count model_size) mem data_lba model_size 0 in
  let! header := slift (write_model_header MODEL_MAGIC_READY model_size data_lba) in
  let! _ := write_sectors cache_lba 1 header in
  let sector_count := sectors_for_bytes model_size in
  let last_lba := add64 data_lba (sat_sub sector_count 1) in
  let next_free_lba := add64 data_lba sector_count in
  let! _ := scatch (ensure_memory_db next_free_lba data_lba last_lba) in
  sret tt
  end.

Definition verify_raw_model_extent (data_lba model_size : Z) : AM D bool :=
  let sector_count := sectors_for_bytes model_size in
  if sector_count =? 0 then sret false else
  let last_lba := sub64 (add64 data_lba sector_count) 1 in
  let next_free_lba := add64 data_lba sector_count in
  let! last_sector := scatch (read_sectors last_lba 1) in
  match last_sector with
  | inr _ => sret false
  | inl _ =>
      let! capacity := sgets SSD_SECTOR_COUNT in
      let! _ :=
        match capacity with
        | Some capacity_sectors =>
            if next_free_lba <? capacity_sectors
            then let! _ := scatch (read_sectors next_free_lba 1) in sret tt
            else sret tt
        | None => sret tt
        end in
      let! _ := scatch (ensure_memory_db next_free_lba data_lba last_lba) in
      sret true
  end.

(** The load loop of [try_load_raw_model] into the allocation at [target_base] of
    [alloc_size] bytes: a chunk that would not fit the allocation is a panic here,
    which the theorems exclude.  [false] is an early return. *)
Fixpoint load_chunks (fuel : nat) (target_base alloc_size data_lba model_size offset : Z) : KM D bool :=
  if negb (offset <? model_size) then sret true else
  match fuel with
  | O => sfuel
  | S fuel =>
      let sectors := chunk_sectors model_size offset in
      if alloc_size <? offset + sectors * SECTOR_SIZE then slift Panic else
      let! chunk := scatch (ahci (read_sectors (add64 data_lba (offset / SECTOR_SIZE)) sectors)) in
      match chunk with
      | inr _ => sret false
      | inl chunk =>
          let! before := sgets (fun k => default [] (k_mem k !! target_base)) in
          let! _ := smodify (set_mem target_base (ztake offset before ++ chunk)) in
          let! gguf :=
            if offset =? 0 then
              let! first := slift (get_slice chunk 0 4) in sret (bool_decide (first = bstr "GGUF"))
            else sret true in
          if negb gguf then sret false
          else load_chunks fuel target_base alloc_size data_lba model_size
                 (add64 offset (sectors * SECTOR_SIZE))
      end
  end.

(** The heap allocator and the rounding of the align_address crate. *)
Context (alloc : Z -> Z -> option Z) (align_up : Z -> Z -> Z).

(** [try_load_raw_model] once the header has named a model that fits. *)
Definition load_raw_model (data_lba model_size : Z) : KM D bool :=
  let! ok := ahci (verify_raw_model_extent data_lba model_size) in
  if negb ok then sret false else
  let alloc_size := align_up model_size (MODEL_IO_SECTORS * SECTOR_SIZE) in
  match layout_from_size_align alloc_size 4096 with
  | None => slift Panic
  | Some (size, align) =>
      match alloc size align with
      | None => sret false
      | Some target_base =>
          let! ok := load_chunks (chunk_count model_size) target_base alloc_size data_lba model_size 0 in
          if negb ok then sret false else
          let! _ := smodify (set_model_info_with_source target_base model_size (bstr "ssd-cache")) in
          sret true
      end
  end.

Definition try_load_raw_model : KM D bool :=
  let! present := sgets model_info in
  match present with
  | Some _ => sret true
  | None =>
  let! cache_lba := ahci discover_model_cache_lba in
  match cache_lba with
  | None => sret false
  | Some cache_lba =>
  let! header := scatch (ahci (read_sectors cache_lba 1)) in
  match header with
  | inr _ => sret false
  | inl header =>
      let! size := slift (model_header_size header cache_lba) in
      match size with
      | None => sret false
      | Some model_size =>
          let data_lba := add64 cache_lba MODEL_HEADER_SECTORS in
          let! fits := ahci (raw_model_range_fits data_lba model_size) in
          if negb fits then sret false else load_raw_model data_lba model_size
      end
  end
  end
  end.

(** The entry loop of [discover_model_partition]. *)
Fixpoint gpt_entry_loop (n : nat) (entries_lba entry_size index : Z) : AM D (option Z) :=
  match n with
  | O => sret None
  | S n =>
      let byte_offset := mul64 index entry_size in
      let lba := add64 entries_lba (byte_offset / SECTOR_SIZE) in
      let offset := byte_offset mod SECTOR_SIZE in
      if SECTOR_SIZE <? offset + entry_size then gpt_entry_loop n entries_lba entry_size (index + 1) else
      let! sector := scatch (read_sectors lba 1) in
      match sector with
      | inr _ => sret None
      | inl sector =>
          let! entry := slift (get_slice sector offset (offset + entry_size)) in
          let! kind := slift (get_slice entry 0 16) in
          if forallb (fun b => bz b =? 0) kind
          then gpt_entry_loop n entries_lba entry_size (index + 1)
          else
            let! first_lba := slift (le_u64 entry 32) in
            let! _ := slift (le_u64 entry 40) in
            let! _ := slift (get_slice entry 56 entry_size) in
            sret (Some first_lba)
      end
  end.

Definition discover_model_partition : AM D (option Z) :=
  let! header := scatch (read_sectors 1 1) in
  match header with
  | inr _ => sret None
  | inl header =>
      let! signature := slift (get_slice header 0 8) in
      if negb (bool_decide (signature = bstr "EFI PART")) then sret None else
      let! entries_lba := slift (le_u64 header 72) in
      let! entry_count := slift (le_u32 header 80) in
      let! entry_size := slift (le_u32 header 84) in
      if (entry_size =? 0) || (SECTOR_SIZE <? entry_size) then sret None
      else gpt_entry_loop (Z.to_nat entry_count) entries_lba entry_size 0
  end.
End operations.
