(* ===== verification/ModelCacheSpec.v ===== *)
(** * The raw model cache: abstract cache and frames

    [cached] is the model a boot would find on the disk.  [confined] says that a
    driver call writes only sectors of a range, whatever fails: the calls of the
    model cache into the memory database stay behind the model. *)

From stdpp Require Import gmap.
From S2P Require Import Prelude BlockDevice AhciIo MemoryDb MemoryDbSpec MemoryDbTheorems MemoryDbSafety ModelCache.

Section frame.
Context {D : Type} `{BlockDevSpec D}.
Implicit Types (s : Ahci D).

(** The statics of the port are the same and only sectors of [lo, hi) differ. *)
Definition agree (lo hi : Z) s s' : Prop :=
  FIRST_SATA_PORT s' = FIRST_SATA_PORT s /\ MODEL_CACHE_START_LBA s' = MODEL_CACHE_START_LBA s /\
  SSD_SECTOR_COUNT s' = SSD_SECTOR_COUNT s /\ bd_cap (ah_dev s') = bd_cap (ah_dev s) /\
  forall l, l < lo \/ hi <= l -> bd_sec (ah_dev s') l = bd_sec (ah_dev s) l.

#[export] Instance agree_refl lo hi : Reflexive (agree lo hi).
Proof. done. Qed.

#[export] Instance agree_trans lo hi : Transitive (agree lo hi).
Proof.
  intros s1 s2 s3 (?&?&?&?&Ha) (?&?&?&?&Hb). split_and!; try congruence.
  intros l Hl. by rewrite Hb, Ha.
Qed.

(** From every state [c] leaves an agreeing one, and an [Ok] value satisfies [P]. *)
Definition confined (lo hi : Z) {A} (c : AM D A) (P : A -> Prop) : Prop :=
  forall s, agree lo hi s (fst (c s)) /\ forall a, snd (c s) = Ok a -> P a.

Context (lo hi : Z).

Lemma confined_bind {A B} (c : AM D A) (k : A -> AM D B) P Q :
  confined lo hi c P -> (forall a, P a -> confined lo hi (k a) Q) -> confined lo hi (sbind c k) Q.
Proof.
  intros Hc Hk s. unfold sbind. specialize (Hc s). destruct (c s) as [s1 r]. cbn [fst snd] in Hc.
  destruct Hc as [Ha Hp]. destruct r as [a|e| |]; try by split.
  destruct (Hk a (Hp a eq_refl) s1) as [Hb ?]. split; [by etrans|done].
Qed.

Lemma confined_weaken {A} (c : AM D A) (P Q : A -> Prop) :
  confined lo hi c P -> (forall a, P a -> Q a) -> confined lo hi c Q.
Proof. intros Hc HPQ s. destruct (Hc s). auto. Qed.

Lemma confined_ret {A} (a : A) (P : A -> Prop) : P a -> confined lo hi (sret a) P.
Proof. intros ? s. split; [done|]. cbn. intros. by simplify_eq. Qed.

Lemma confined_fail {A} (P : A -> Prop) : confined lo hi (sfail tt) P.
Proof. done. Qed.

Lemma confined_lift {A} (o : outcome unit A) (P : A -> Prop) :
  (forall a, o = Ok a -> P a) -> confined lo hi (slift o) P.
Proof. done. Qed.

Lemma confined_opt {A} (o : option A) (P : A -> Prop) :
  (forall a, o = Some a -> P a) -> confined lo hi (sopt tt o) P.
Proof. intros Ho. destruct o; [by apply confined_ret, Ho|done]. Qed.

Lemma confined_gets {A} (f : Ahci D -> A) : confined lo hi (sgets f) (fun _ => True).
Proof. done. Qed.

Lemma confined_catch {A} (c : AM D A) P :
  confined lo hi c P -> confined lo hi (scatch c) (fun r => match r with inl a => P a | inr _ => True end).
Proof.
  intros Hc s. specialize (Hc s). unfold scatch. destruct (c s) as [s1 [a|e| |]]; simpl in *;
    (split; [apply Hc|]); intros; simplify_eq; [by apply Hc|done].
Qed.

Lemma confined_read lba n : confined lo hi (read_sectors lba n) (fun _ => True).
Proof.
  intros s. split; [|done]. unfold read_sectors. destruct (FIRST_SATA_PORT s) eqn:Hp; [|done].
  destruct (bd_read (ah_dev s) lba n) as [d r] eqn:E. apply bd_read_frame in E as [Hs Hc].
  by destruct r; split_and!; cbn.
Qed.

Lemma confined_write lba n b :
  lo <= lba -> lba + n <= hi -> confined lo hi (write_sectors lba n b) (fun _ => True).
Proof.
  intros Hlo Hhi s. split; [|done]. unfold write_sectors. destruct (FIRST_SATA_PORT s) eqn:Hp; [|done].
  destruct (bd_write (ah_dev s) lba n b) as [d r] eqn:E. apply bd_write_frame in E as (Hc & Hs & _).
  by destruct r; split_and!; cbn; try done; intros; apply Hs; lia.
Qed.

Lemma confined_register db dl : confined lo hi (memory_db_register_state db dl) (fun _ => True).
Proof. done. Qed.
End frame.

Create HintDb confined discriminated.
#[export] Hint Resolve confined_ret confined_fail confined_gets confined_read confined_register : confined.

(** ** What a boot writes in the memory database *)

Section memory_db.
Context {D : Type} `{BlockDevSpec D} (db : Z) (Ha : db_addressable db).

Abbreviation inside c P := (confined (D := D) db (data_start db) c P).

Ltac step := eapply confined_bind;
  [first [apply confined_catch; apply confined_read | apply confined_read | apply confined_gets
         |by apply (confined_lift _ _ _ (fun _ => True))|by apply (confined_opt _ _ _ (fun _ => True))]|];
  intros ? _.

Lemma inside_read_map_header lba : inside (memory_db_read_map_header lba) (fun _ => True).
Proof. unfold memory_db_read_map_header. step. by apply confined_lift. Qed.

Lemma inside_read_map_entry lba i : inside (memory_db_read_map_entry lba i) (fun _ => True).
Proof.
  unfold memory_db_read_map_entry. step. case_match. step. by apply confined_lift.
Qed.

Lemma inside_recover_loop fuel lba de n cursor i :
  inside (recover_loop fuel lba de n cursor i) (fun _ => True).
Proof.
  revert cursor i. induction fuel as [|fuel IH]; intros; cbn [recover_loop].
  - by destruct (negb _).
  - destruct (negb _); [by apply confined_ret|].
    eapply confined_bind; [apply inside_read_map_entry|]. intros e _.
    do 2 (destruct (_ =? 0); [by apply confined_ret|]).
    destruct (checked_add64 _ _); [|apply confined_fail].
    destruct (_ || _); [by apply confined_ret|apply IH].
Qed.

(** The recovery scan moves the cursor only. *)
Definition same_place (h h' : MemoryDbHeader) : Prop :=
  h_map_lba h' = h_map_lba h /\ h_header_lba h' = h_header_lba h.

Lemma inside_recover h :
  inside (memory_db_recover_from_map h) (fun r => same_place h (fst r)).
Proof.
  unfold memory_db_recover_from_map. destruct (_ || _); [by apply confined_ret|].
  eapply confined_bind; [apply confined_catch, inside_read_map_header|].
  intros [[sz used]|e] _; [|by apply confined_ret].
  eapply confined_bind; [apply confined_catch, inside_recover_loop|].
  intros [[cursor r]|e'] _; [|by apply confined_ret]. by destruct (_ || _); apply confined_ret.
Qed.

Lemma inside_write_map_header used : inside (memory_db_write_map_header (db + 1) used) (fun _ => True).
Proof.
  unfold memory_db_write_map_header. do 2 step. apply confined_write; dblia.
Qed.

Lemma inside_write_header h :
  h_header_lba h = db -> inside (memory_db_write_header h) (fun _ => True).
Proof.
  intros Hh. unfold memory_db_write_header. step. case_match; [|apply confined_fail].
  destruct (negb _) eqn:E; [apply confined_fail|]. bool_to_prop. step.
  apply confined_write; dblia.
Qed.

Lemma inside_zero_map_sectors n i :
  0 <= i -> i + Z.of_nat n <= MEMORY_DB_MAP_SECTORS ->
  inside (zero_map_sectors n (db + 1) i) (fun _ => True).
Proof.
  pose proof Ha as [Ha1 Ha2]. revert i. induction n as [|n IH]; intros i Hi Hn; cbn [zero_map_sectors];
    [by apply confined_ret|].
  unfold add64. rewrite as_u64_small by dblia.
  eapply confined_bind; [apply confined_write; dblia|]. intros _ _. apply IH; lia.
Qed.

Lemma inside_keep_recovered h :
  h_map_lba h = db + 1 -> h_header_lba h = db ->
  inside (keep_recovered db (data_start db) h) (fun _ => True).
Proof.
  intros Hm Hh. unfold keep_recovered. eapply confined_bind; [apply inside_recover|].
  intros [h' ok] [Hm' Hh']. cbn [fst] in *. destruct ok; [|by apply confined_ret].
  rewrite Hm', Hm. eapply confined_bind; [apply inside_write_map_header|]. intros _ _.
  eapply confined_bind; [apply confined_register|]. intros _ _.
  eapply confined_bind; [apply inside_write_header; congruence|]. intros _ _. by apply confined_ret.
Qed.

Lemma inside_ensure_existing b de ms ml :
  inside (ensure_existing b db (db + 1) (data_start db) de ms ml) (fun _ => True).
Proof.
  unfold ensure_existing. do 10 step.
  eapply confined_bind; [apply confined_catch, inside_read_map_header|]. intros mr _.
  destruct (_ && _) eqn:E; [|by apply confined_ret]. bool_to_prop. step.
  by apply inside_keep_recovered.
Qed.

Lemma inside_ensure_fresh cap ms ml :
  inside (ensure_fresh db (db + 1) (data_start db) cap ms ml) (fun _ => True).
Proof.
  unfold ensure_fresh. step.
  eapply confined_bind; [apply inside_zero_map_sectors; done|]. intros _ _.
  eapply confined_bind; [apply inside_write_map_header|]. intros _ _.
  eapply confined_bind; [apply confined_write; dblia|]. intros _ _.
  do 2 step. destruct (negb _); [apply confined_fail|apply confined_register].
Qed.

(** A boot writes only the header and the map of the database, whatever the disk
    holds and whichever transfers fail. *)
Lemma inside_ensure ms ml : inside (ensure_memory_db db ms ml) (fun _ => True).
Proof.
  pose proof Ha as [Ha1 Ha2]. unfold ensure_memory_db. step. case_match; [|apply confined_fail]. step.
  case_match; [apply confined_fail|].
  rewrite !(sat_add64_small db) by dblia. rewrite sat_add64_small by dblia. fold (data_start db).
  case_match; [apply confined_fail|]. step.
  eapply (confined_bind _ _ _ _ (fun _ => True)).
  { case_match; [apply inside_ensure_existing|by apply confined_ret]. }
  intros [] _; [by apply confined_ret|]. apply inside_ensure_fresh.
Qed.
End memory_db.

(** ** The abstract cache *)

Definition CACHE_DATA_LBA : Z := MODEL_FIXED_CACHE_LBA + MODEL_HEADER_SECTORS.

(** A model that a boot accepts. *)
Definition model_ok (m : bytes) : bool :=
  (MIN_RAW_MODEL_SIZE <=? zlen m) && (zlen m <=? MAX_RAW_MODEL_SIZE)
  && bool_decide (ztake 4 m = bstr "GGUF").

Section cache.
Context {D : Type} `{BlockDevSpec D}.
Implicit Types (d : D) (s : Ahci D) (m mem : bytes).

(** The first [n] bytes of the data area. *)
Definition cache_data d (n : Z) : bytes :=
  ztake n (sectors_at d CACHE_DATA_LBA (Z.to_nat (sectors_for_bytes n))).

(** The model a boot finds: the header names its size, it lies on the disk and
    starts with the GGUF magic. *)
Definition cached d : option bytes :=
  match model_header_size (bd_sec d MODEL_FIXED_CACHE_LBA) MODEL_FIXED_CACHE_LBA with
  | Ok (Some n) =>
      if (CACHE_DATA_LBA + sectors_for_bytes n <=? bd_cap d) && model_ok (cache_data d n)
      then Some (cache_data d n) else None
  | _ => None
  end.

(** The statics as [identify_device] leaves them, the cache at its fixed place, on a
    disk that ends before the 48-bit LBA space does. *)
Definition cache_disk s : Prop :=
  FIRST_SATA_PORT s <> None /\
  (MODEL_CACHE_START_LBA s = None \/ MODEL_CACHE_START_LBA s = Some MODEL_FIXED_CACHE_LBA) /\
  SSD_SECTOR_COUNT s = Some (bd_cap (ah_dev s)) /\
  bd_cap (ah_dev s) + 2 * MEMORY_DB_TOTAL_SECTORS <= LBA48_MAX.

Lemma sectors_for_spec n :
  0 <= n -> 0 <= sectors_for_bytes n /\ n <= sectors_for_bytes n * 512 < n + 512.
Proof.
  intros Hn. pose proof (div_ceil_spec n 512 ltac:(done) Hn). unfold sectors_for_bytes, SECTOR_SIZE. lia.
Qed.

Lemma chunk_sectors_spec n k :
  0 <= n -> 0 <= k < sectors_for_bytes n ->
  chunk_sectors n (k * 512) = Z.min (sectors_for_bytes n - k) 8192.
Proof.
  intros Hn Hk. pose proof (sectors_for_spec n Hn). unfold chunk_sectors, MODEL_IO_SECTORS, SECTOR_SIZE.
  pose proof (div_ceil_spec (Z.min (n - k * 512) (8192 * 512)) 512 ltac:(done) ltac:(lia)).
  unfold as_u16. rewrite Z.mod_small; lia.
Qed.

Lemma chunk_count_spec n : 0 <= n -> sectors_for_bytes n <= 8192 * Z.of_nat (chunk_count n).
Proof.
  intros Hn. pose proof (sectors_for_spec n Hn). unfold chunk_count, MODEL_IO_SECTORS, SECTOR_SIZE.
  pose proof (div_ceil_spec n (8192 * 512) ltac:(done) Hn). lia.
Qed.

Lemma sectors_at_ext d d' lba k :
  (forall i, 0 <= i < Z.of_nat k -> bd_sec d' (lba + i) = bd_sec d (lba + i)) ->
  sectors_at d' lba k = sectors_at d lba k.
Proof.
  revert lba. induction k as [|k IH]; intros lba Hs; [done|]. rewrite !sectors_at_S. f_equal.
  - specialize (Hs 0 ltac:(lia)). by rewrite Z.add_0_r in Hs.
  - apply IH. intros i Hi. specialize (Hs (i + 1) ltac:(lia)).
    by replace (lba + 1 + i) with (lba + (i + 1)) by lia.
Qed.

Lemma sectors_at_app d lba j k :
  sectors_at d lba (j + k) = sectors_at d lba j ++ sectors_at d (lba + Z.of_nat j) k.
Proof.
  revert lba. induction j as [|j IH]; intros lba; [by rewrite Z.add_0_r|].
  cbn [Nat.add]. rewrite !sectors_at_S, IH, <- app_assoc. do 3 f_equal. lia.
Qed.

(** A buffer whose sectors are those of the disk. *)
Lemma buffer_is_sectors d lba k b :
  zlen b = Z.of_nat k * SECTOR_SIZE ->
  (forall i, 0 <= i < Z.of_nat k -> nth_sector b i = bd_sec d (lba + i)) -> b = sectors_at d lba k.
Proof.
  revert lba b. induction k as [|k IH]; intros lba b Hl Hs.
  - apply length_zero_iff_nil. unfold zlen in Hl. lia.
  - rewrite sectors_at_S. unfold SECTOR_SIZE in *. rewrite <- (ztake_zdrop 512 b). f_equal.
    + specialize (Hs 0 ltac:(lia)). rewrite Z.add_0_r in Hs. rewrite <- Hs.
      unfold nth_sector, slice, SECTOR_SIZE. by rewrite zdrop_0 by lia.
    + apply IH; [rewrite zlen_zdrop; lia|]. intros i Hi.
      rewrite nth_sector_zdrop by lia. rewrite Hs by lia. f_equal. lia.
Qed.

Lemma zlen_cache_data d n : 0 <= n -> zlen (cache_data d n) = n.
Proof.
  intros Hn. pose proof (sectors_for_spec n Hn). unfold cache_data.
  rewrite zlen_ztake, zlen_sectors_at. lia.
Qed.

Lemma cache_data_prefix d n j :
  0 <= n -> 0 <= j <= n -> ztake j (cache_data d n) = ztake j (sectors_at d CACHE_DATA_LBA (Z.to_nat (sectors_for_bytes n))).
Proof. intros ??. unfold cache_data. rewrite ztake_ztake. f_equal. lia. Qed.

(** The cache depends on its own sectors only. *)
Lemma cached_ext d d' :
  bd_cap d' = bd_cap d ->
  bd_sec d' MODEL_FIXED_CACHE_LBA = bd_sec d MODEL_FIXED_CACHE_LBA ->
  (forall n i, model_header_size (bd_sec d MODEL_FIXED_CACHE_LBA) MODEL_FIXED_CACHE_LBA = Ok (Some n) ->
     CACHE_DATA_LBA + sectors_for_bytes n <= bd_cap d ->
     0 <= i < sectors_for_bytes n -> bd_sec d' (CACHE_DATA_LBA + i) = bd_sec d (CACHE_DATA_LBA + i)) ->
  cached d' = cached d.
Proof.
  intros Hc Hh Hs. unfold cached. rewrite Hc, Hh.
  destruct (model_header_size _ _) as [[n|]| | |] eqn:E; try done.
  destruct (CACHE_DATA_LBA + sectors_for_bytes n <=? bd_cap d) eqn:Hfit; [|done]. bool_to_prop.
  replace (cache_data d' n) with (cache_data d n); [done|].
  unfold cache_data. f_equal. symmetry. apply sectors_at_ext. intros. eapply Hs; [done|done|lia].
Qed.

Lemma cached_dev_eq d d' : dev_eq d d' -> cached d' = cached d.
Proof. intros [Hs Hc]. apply cached_ext; auto. Qed.

(** ** The header *)

Definition model_header magic n : bytes :=
  splice_fields (zeros SECTOR_SIZE) (model_header_fields magic n CACHE_DATA_LBA).

Lemma model_header_sorted magic n :
  zlen magic = 8 ->
  fields_sorted 0 (zlen (zeros SECTOR_SIZE)) (model_header_fields magic n CACHE_DATA_LBA).
Proof.
  intros Hm. rewrite zlen_zeros by done. cbn [fields_sorted model_header_fields].
  rewrite !zlen_to_le64, Hm.
  unfold MODEL_CACHE_TAG_OFFSET. change (zlen MODEL_CACHE_TAG) with 8. unfold SECTOR_SIZE. lia.
Qed.

Lemma write_model_header_ok magic n :
  zlen magic = 8 -> write_model_header magic n CACHE_DATA_LBA = Ok (model_header magic n).
Proof. intros Hm. by eapply (put_fields_ok 0), model_header_sorted. Qed.

Lemma zlen_model_header magic n : zlen magic = 8 -> zlen (model_header magic n) = SECTOR_SIZE.
Proof.
  intros Hm. unfold model_header. erewrite zlen_splice_fields; [by rewrite zlen_zeros|done|].
  by apply model_header_sorted.
Qed.

Lemma model_header_ready n :
  u64 n ->
  model_header_size (model_header MODEL_MAGIC_READY n) MODEL_FIXED_CACHE_LBA
  = Ok (if (MIN_RAW_MODEL_SIZE <=? n) && (n <=? MAX_RAW_MODEL_SIZE) then Some n else None).
Proof.
  intros Hn. pose proof (model_header_sorted MODEL_MAGIC_READY n eq_refl) as Hs.
  unfold model_header_size, model_header.
  erewrite (get_slice_field _ _ 0 MODEL_MAGIC_READY 8 Hs) by (done || apply list_elem_of_here).
  cbn [obind]. rewrite bool_decide_eq_true_2 by done. cbn [negb].
  erewrite (get_slice_field _ _ MODEL_CACHE_TAG_OFFSET MODEL_CACHE_TAG _ Hs)
    by (done || (unfold model_header_fields; find_field)).
  cbn [obind]. rewrite bool_decide_eq_true_2 by done. cbn [negb].
  rewrite (le_u64_field _ _ 8 n Hs), (le_u64_field _ _ 16 CACHE_DATA_LBA Hs)
    by (done || (unfold model_header_fields; find_field)).
  cbn [obind]. rewrite Z.eqb_refl. cbn [negb].
  destruct (n =? 0) eqn:E; bool_to_prop; [by subst|].
  by destruct (_ && _).
Qed.

Lemma model_header_writing n :
  model_header_size (model_header MODEL_MAGIC_WRITING n) MODEL_FIXED_CACHE_LBA = Ok None.
Proof.
  pose proof (model_header_sorted MODEL_MAGIC_WRITING n eq_refl) as Hs.
  unfold model_header_size, model_header.
  erewrite (get_slice_field _ _ 0 MODEL_MAGIC_WRITING 8 Hs) by (done || apply list_elem_of_here).
  done.
Qed.

(** Whatever a sector holds, reading it as a header ends; a size it names is in range. *)
Lemma model_header_total b lba :
  zlen b = SECTOR_SIZE ->
  exists r, model_header_size b lba = Ok r /\
    forall n, r = Some n -> MIN_RAW_MODEL_SIZE <= n <= MAX_RAW_MODEL_SIZE.
Proof.
  intros Hb. unfold model_header_size, MODEL_CACHE_TAG_OFFSET. change (zlen MODEL_CACHE_TAG) with 8.
  unfold SECTOR_SIZE in Hb.
  rewrite get_slice_ok by lia. cbn [obind]. destruct (negb _); [by eexists|].
  rewrite get_slice_ok by lia. cbn [obind]. destruct (negb _); [by eexists|].
  rewrite !le_u64_ok by lia. cbn [obind]. destruct (negb _); [by eexists|].
  destruct (_ =? 0); [by eexists|]. destruct (negb _) eqn:E; [by eexists|]. bool_to_prop.
  eexists. split; [done|]. intros. by simplify_eq.
Qed.
End cache.
