(* ===== verification/ModelCacheTheorems.v ===== *)
(** * The raw model cache: theorems

    The cache of kernel/src/drivers/storage/ahci.rs is replaced atomically, is
    loaded exactly or not at all, and a boot that loads it finds the memory
    database behind it again. *)

From stdpp Require Import gmap.
From S2P Require Import Prelude BlockDevice AhciIo MemoryDb MemoryDbSpec MemoryDbTheorems MemoryDbSafety ModelCache ModelCacheSpec.

(** Linear arithmetic over the fixed layout of the cache. *)
Ltac cachelia :=
  unfold CACHE_DATA_LBA, MODEL_FIXED_CACHE_LBA, MODEL_HEADER_SECTORS in *; dblia.

Section write.
Context {D : Type} `{BlockDevSpec D} (G : Prop).
Implicit Types (d : D) (s : Ahci D) (m mem : bytes).

(** The statics once the cache has been looked up. *)
Definition discovered s : Ahci D :=
  mkAhci (ah_dev s) (FIRST_SATA_PORT s) (Some MODEL_FIXED_CACHE_LBA) (SSD_SECTOR_COUNT s)
    (MEMORY_DB_HEADER_LBA s).

Lemma wp_discover s Q X :
  cache_disk s -> Q (Some MODEL_FIXED_CACHE_LBA) (discovered s) -> wp discover_model_cache_lba Q X s.
Proof.
  intros (_ & Hm & _) HQ. unfold discover_model_cache_lba. apply wp_bind, wp_gets.
  unfold discovered in HQ. destruct Hm as [Hm|Hm]; rewrite Hm.
  - apply wp_bind, wp_modify, wp_ret. unfold set_MODEL_CACHE_START_LBA. by rewrite Hm.
  - apply wp_ret. destruct s. simpl in *. by subst.
Qed.

Lemma discovered_disk s : cache_disk s -> cache_disk (discovered s).
Proof. intros (?&?&?&?). split_and!; auto. Qed.

(** The data area after [k] sectors of [mem] have been copied. *)
Definition copied (d0 : D) mem (n k : Z) d : Prop :=
  bd_cap d = bd_cap d0 /\
  (forall l, l < CACHE_DATA_LBA \/ CACHE_DATA_LBA + n <= l -> bd_sec d l = bd_sec d0 l) /\
  (forall i, 0 <= i < k -> bd_sec d (CACHE_DATA_LBA + i) = nth_sector mem i).

Lemma nth_sector_slice mem k c i :
  0 <= k -> 0 <= i < c -> nth_sector (slice mem (k * 512) (k * 512 + c * 512)) i = nth_sector mem (k + i).
Proof.
  intros Hk Hi. unfold nth_sector, slice, SECTOR_SIZE.
  rewrite zdrop_ztake, ztake_ztake, zdrop_zdrop by lia. f_equal; [lia|]. f_equal. lia.
Qed.

Lemma copied_step d0 d d' mem n k c :
  0 <= k -> 0 <= c -> k + c <= n -> copied d0 mem n k d ->
  written d d' (CACHE_DATA_LBA + k) c (slice mem (k * 512) (k * 512 + c * 512)) ->
  copied d0 mem n (k + c) d'.
Proof.
  intros Hk Hc Hn (Hcap & Ho & Hd) (Hcap' & Ho' & Hw). split_and!; [congruence| |].
  - intros l Hl. rewrite Ho' by lia. apply Ho. lia.
  - intros i Hi. destruct (decide (i < k)).
    + rewrite Ho' by lia. apply Hd. lia.
    + specialize (Hw (i - k) ltac:(lia)). rewrite nth_sector_slice in Hw by lia.
      by replace (CACHE_DATA_LBA + k + (i - k)) with (CACHE_DATA_LBA + i) in Hw by lia;
        replace (k + (i - k)) with i in Hw by lia.
Qed.

Lemma copied_torn d0 d d' mem n k c b :
  0 <= k -> k + c <= n -> copied d0 mem n k d -> torn d d' (CACHE_DATA_LBA + k) c b ->
  copied d0 mem n 0 d'.
Proof.
  intros Hk Hn (Hcap & Ho & Hd) (Hcap' & Ho' & Hw). split_and!; [congruence| |lia].
  intros l Hl. rewrite Ho' by lia. apply Ho. lia.
Qed.

Lemma wp_write_chunks s mem n d0 fuel k d Q X :
  FIRST_SATA_PORT s <> None -> (G -> bd_ok d) -> 0 <= n ->
  sectors_for_bytes n * 512 <= zlen mem -> CACHE_DATA_LBA + sectors_for_bytes n <= bd_cap d0 ->
  bd_cap d0 <= LBA48_MAX -> copied d0 mem (sectors_for_bytes n) k d ->
  0 <= k <= sectors_for_bytes n -> sectors_for_bytes n - k <= 8192 * Z.of_nat fuel ->
  (forall d', (G -> bd_ok d') -> copied d0 mem (sectors_for_bytes n) (sectors_for_bytes n) d' ->
     Q tt (set_dev d' s)) ->
  (forall d', ~ G -> copied d0 mem (sectors_for_bytes n) 0 d' -> X tt (set_dev d' s)) ->
  wp (write_chunks fuel mem CACHE_DATA_LBA n (k * 512)) Q X (set_dev d s).
Proof.
  intros Hport Hok Hn Hmem Hfit Hlba. pose proof (sectors_for_spec n Hn) as [HS0 HS].
  set (S := sectors_for_bytes n) in *. revert k d Hok.
  induction fuel as [|fuel IH]; intros k d Hok Hcop Hk Hf HQ HX; cbn [write_chunks].
  { guard_false (k * 512 <? n). apply wp_ret, HQ; [done|]. by replace k with S in Hcop by lia. }
  destruct (k * 512 <? n) eqn:E; bool_to_prop; cbn [negb].
  2: { apply wp_ret, HQ; [done|]. by replace k with S in Hcop by lia. }
  rewrite chunk_sectors_spec by lia. fold S. set (c := Z.min (S - k) 8192).
  assert (0 < c <= 8192 /\ k + c <= S /\ (c = S - k \/ c = 8192)) as (Hc & Hkc & Hcc) by lia. clearbody c.
  change SECTOR_SIZE with 512. apply wp_bind. eapply wp_lift_ok; [apply get_slice_ok; lia|].
  unfold add64. rewrite Z.div_mul, !as_u64_small by cachelia.
  pose proof Hcop as [Hcap _]. apply wp_bind, (wp_write_sectors G); [done|done| |..].
  - intros _. cachelia.
  - unfold SECTOR_SIZE. rewrite zlen_slice; lia.
  - intros d' Hok' Hw. replace (k * 512 + c * 512) with ((k + c) * 512) in * by lia.
    apply IH; [done| |lia|lia|done|done].
    apply (copied_step d0 d); [lia|lia|lia|done|].
    by replace (k * 512 + c * 512) with ((k + c) * 512) by lia.
  - intros d' HG Ht. apply HX; [done|]. by eapply copied_torn; [| |done|done]; lia.
Qed.

(** ** Replacing the cache *)

Lemma wp_fits s d n (Q : bool -> Ahci D -> Prop) X :
  SSD_SECTOR_COUNT s = Some (bd_cap d) -> 0 <= n <= U64_MAX -> bd_cap d <= LBA48_MAX ->
  Q (CACHE_DATA_LBA + sectors_for_bytes n <=? bd_cap d) (set_dev d s) ->
  wp (raw_model_range_fits CACHE_DATA_LBA n) Q X (set_dev d s).
Proof.
  intros Hssd Hn Hcap HQ. pose proof (sectors_for_spec n ltac:(lia)).
  unfold raw_model_range_fits. apply wp_bind, wp_gets. cbn [set_dev SSD_SECTOR_COUNT]. rewrite Hssd.
  rewrite checked_add64_small by cachelia. apply wp_ret. by rewrite <- Z.leb_antisym.
Qed.

(** The smoke test writes sector 2049, which no model uses. *)
Lemma wp_smoke_test s d Q X :
  FIRST_SATA_PORT s <> None -> (G -> bd_ok d) -> (G -> CACHE_DATA_LBA <= bd_cap d) ->
  (forall d', (G -> bd_ok d') -> bd_cap d' = bd_cap d ->
     (forall l, l <> 2049 -> bd_sec d' l = bd_sec d l) -> Q tt (set_dev d' s)) ->
  (forall d', ~ G -> bd_cap d' = bd_cap d ->
     (forall l, l <> 2049 -> bd_sec d' l = bd_sec d l) -> X tt (set_dev d' s)) ->
  wp (smoke_test_raw_model_cache MODEL_FIXED_CACHE_LBA) Q X (set_dev d s).
Proof.
  intros Hport Hok Hcap HQ HX. unfold smoke_test_raw_model_cache.
  change (add64 MODEL_FIXED_CACHE_LBA 1) with 2049.
  set (fs := [(0, bstr "HSMOKE01"); (8, to_le64 2049)]).
  assert (fields_sorted 0 (zlen (zeros SECTOR_SIZE)) fs) as Hfs by (by vm_compute).
  apply wp_bind. eapply wp_lift_ok; [by apply (put_fields_ok 0)|].
  set (b := splice_fields _ fs). assert (zlen b = SECTOR_SIZE) as Hb by (by vm_compute). clearbody b.
  apply wp_bind, (wp_write_sector G); [done|done|intros HG; specialize (Hcap HG); cachelia|done| |].
  2: { intros d' HG Hc _ Ho. by apply HX. }
  intros d1 Hok1 Hc1 Hs1 Ho1.
  apply wp_bind, (wp_read_sector G); [done|done|intros HG; specialize (Hcap HG); cachelia| |].
  2: { intros d' HG [Hs Hc]. apply HX; [done|congruence|]. intros. rewrite Hs. by apply Ho1. }
  intros d2 Hok2 [Hs2 Hc2]. rewrite Hs1.
  do 2 (apply wp_bind; eapply wp_lift_ok; [apply get_slice_ok; rewrite ?Hb; done|]).
  rewrite bool_decide_eq_true_2 by done. apply wp_ret, HQ; [done|congruence|].
  intros. rewrite Hs2. by apply Ho1.
Qed.

(** The cache after a completed copy, as a boot sees it: the copy returns [Ok] for any
    bytes, but only a GGUF file of 1 to 8 GiB is a model. *)
Definition as_cached m : option bytes := if model_ok m then Some m else None.

Lemma cached_ready d mem n :
  0 <= n <= U64_MAX -> sectors_for_bytes n * 512 <= zlen mem ->
  bd_sec d MODEL_FIXED_CACHE_LBA = model_header MODEL_MAGIC_READY n ->
  CACHE_DATA_LBA + sectors_for_bytes n <= bd_cap d ->
  (forall i, 0 <= i < sectors_for_bytes n -> bd_sec d (CACHE_DATA_LBA + i) = nth_sector mem i) ->
  cached d = as_cached (ztake n mem).
Proof.
  intros Hn Hmem Hh Hfit Hd. pose proof (sectors_for_spec n ltac:(lia)) as [HS0 HS].
  unfold cached, as_cached. rewrite Hh, model_header_ready by done.
  assert (cache_data d n = ztake n mem) as Hcd.
  { unfold cache_data. rewrite <- (buffer_is_sectors d CACHE_DATA_LBA _ (ztake (sectors_for_bytes n * 512) mem)).
    - rewrite ztake_ztake. f_equal. lia.
    - unfold SECTOR_SIZE. rewrite zlen_ztake. lia.
    - intros i Hi. rewrite Hd by lia. rewrite <- (zdrop_0 0 mem) at 1 by lia.
      pose proof (nth_sector_slice mem 0 (sectors_for_bytes n) i ltac:(lia) ltac:(lia)) as Hx.
      unfold slice in Hx. rewrite zdrop_0 in * by lia. etrans; [|etrans; [exact Hx|]]; f_equal; f_equal; lia. }
  assert (model_ok (ztake n mem) = (MIN_RAW_MODEL_SIZE <=? n) && (n <=? MAX_RAW_MODEL_SIZE)
    && bool_decide (ztake 4 (ztake n mem) = bstr "GGUF")) as Hok.
  { unfold model_ok. rewrite zlen_ztake. by replace (Z.max 0 (Z.min n (zlen mem))) with n by lia. }
  destruct ((MIN_RAW_MODEL_SIZE <=? n) && (n <=? MAX_RAW_MODEL_SIZE)); [|by rewrite Hok].
  rewrite Hcd. by guard_true (CACHE_DATA_LBA + sectors_for_bytes n <=? bd_cap d).
Qed.

Lemma cached_writing d n :
  bd_sec d MODEL_FIXED_CACHE_LBA = model_header MODEL_MAGIC_WRITING n -> cached d = None.
Proof. intros Hh. unfold cached. by rewrite Hh, model_header_writing. Qed.

(** The disk when the new model is in place and marked ready. *)
Definition stored (d0 : D) mem n d : Prop :=
  bd_cap d = bd_cap d0 /\ cached d = as_cached (ztake n mem) /\
  bd_sec d MODEL_FIXED_CACHE_LBA = model_header MODEL_MAGIC_READY n /\
  forall l, CACHE_DATA_LBA + sectors_for_bytes n <= l -> bd_sec d l = bd_sec d0 l.

(** After a failure: the old cache, none, or the new one. *)
Definition replaced (d0 : D) mem n d : Prop :=
  bd_cap d = bd_cap d0 /\
  (cached d = cached d0 \/ cached d = None \/ cached d = as_cached (ztake n mem)).

Lemma cached_past_smoke d d' :
  bd_cap d' = bd_cap d -> (forall l, l <> 2049 -> bd_sec d' l = bd_sec d l) -> cached d' = cached d.
Proof.
  intros Hc Hs. apply cached_ext; [done|by apply Hs|]. intros. apply Hs. cachelia.
Qed.

(** [write_raw_model_cache] up to the call into the memory database. *)
Lemma wp_write_raw_model_cache s mem n Q X :
  let d0 := ah_dev s in let data_end := CACHE_DATA_LBA + sectors_for_bytes n in
  cache_disk s -> (G -> bd_ok d0 /\ data_end <= bd_cap d0) -> 0 <= n <= U64_MAX ->
  sectors_for_bytes n * 512 <= zlen mem ->
  (forall d, (G -> bd_ok d) -> stored d0 mem n d -> data_end <= bd_cap d0 ->
     wp (let! _ := scatch (ensure_memory_db data_end CACHE_DATA_LBA
                             (CACHE_DATA_LBA + sat_sub (sectors_for_bytes n) 1)) in sret tt)
       Q X (set_dev d (discovered s))) ->
  (forall d, ~ G -> replaced d0 mem n d -> X tt (set_dev d (discovered s))) ->
  wp (write_raw_model_cache mem n) Q X s.
Proof.
  intros d0 data_end Hcd HG Hn Hmem HE HX. pose proof (sectors_for_spec n ltac:(lia)) as [HS0 HS].
  pose proof Hcd as (Hport & _ & Hssd & Hlba). fold d0 in Hssd, Hlba.
  unfold write_raw_model_cache. apply wp_bind, wp_discover; [done|].
  change (add64 MODEL_FIXED_CACHE_LBA MODEL_HEADER_SECTORS) with CACHE_DATA_LBA.
  change (discovered s) with (set_dev d0 (discovered s)). apply wp_bind, wp_fits; [done|done|cachelia|].
  fold data_end. destruct (data_end <=? bd_cap d0) eqn:Hfit; bool_to_prop; cbn [negb].
  2: { apply wp_fail, HX; [intros g; destruct (HG g); lia|]. split; auto. }
  apply wp_bind, wp_smoke_test; [done|by apply HG|intros; unfold data_end in *; lia| |].
  2: { intros d' ? Hc Hs. apply HX; [done|]. split; [done|]. left. by apply cached_past_smoke. }
  intros d1 Hok1 Hc1 Hs1. apply wp_bind. eapply wp_lift_ok; [by apply write_model_header_ok|].
  apply wp_bind, (wp_write_sector G);
    [done|done|unfold data_end in *; cachelia|by apply zlen_model_header| |].
  2: { intros d' ? Hc Ht Ho. apply HX; [done|]. split; [congruence|].
       destruct Ht as [Ht|Ht]; [right; left; by eapply cached_writing|left].
       transitivity (cached d1); [apply cached_ext; [done|done|]|by apply cached_past_smoke].
       intros. apply Ho. cachelia. }
  intros d2 Hok2 Hc2 Hh2 Ho2. apply wp_bind, (wp_write_chunks _ _ _ d2 _ 0);
    [done|done|lia|done|unfold data_end in *; lia|cachelia|split_and!; [done|done|lia]|lia|
     rewrite Z.sub_0_r; apply chunk_count_spec; lia| |].
  2: { intros d' ? (Hc & Ho & _). apply HX; [done|]. split; [congruence|]. right. left.
       eapply cached_writing. rewrite Ho by cachelia. done. }
  intros d3 Hok3 (Hc3 & Ho3 & Hd3). apply wp_bind. eapply wp_lift_ok; [by apply write_model_header_ok|].
  assert (forall d, bd_cap d = bd_cap d3 -> bd_sec d MODEL_FIXED_CACHE_LBA = model_header MODEL_MAGIC_READY n ->
    (forall l, l <> MODEL_FIXED_CACHE_LBA -> bd_sec d l = bd_sec d3 l) -> stored d0 mem n d) as Hst.
  { intros d Hc Hh Ho. split_and!; [congruence| |done|].
    - apply cached_ready; [done|done|done|unfold data_end in *; lia|].
      intros i Hi. rewrite Ho by cachelia. by apply Hd3.
    - intros l Hl. rewrite Ho, Ho3, Ho2, Hs1 by cachelia. done. }
  apply wp_bind, (wp_write_sector G);
    [done|done|unfold data_end in *; cachelia|by apply zlen_model_header| |].
  2: { intros d' ? Hc Ht Ho. apply HX; [done|]. split; [congruence|]. right.
       destruct Ht as [Ht|Ht]; [right; by apply Hst|left; eapply cached_writing].
       rewrite Ht, Ho3 by cachelia. done. }
  intros d4 Hok4 Hc4 Hh4 Ho4. cbv zeta.
  unfold add64. rewrite !as_u64_small by (unfold data_end, sat_sub in *; cachelia).
  apply HE; [done|by apply Hst|done].
Qed.
End write.

(** ** Calls into the memory database *)

Section ensure.
Context {D : Type} `{BlockDevSpec D}.
Implicit Types (s : Ahci D).

Lemma agree_disk lo hi s s' : agree lo hi s s' -> cache_disk s -> cache_disk s'.
Proof.
  intros (Hp & Hm & Hc & Hcap & _) (?&?&?&?). unfold cache_disk. by rewrite Hp, Hm, Hc, Hcap.
Qed.

(** A write behind the model leaves the cache alone. *)
Lemma agree_cached lo hi s s' :
  agree lo hi s s' -> MODEL_FIXED_CACHE_LBA < lo ->
  (forall n, model_header_size (bd_sec (ah_dev s) MODEL_FIXED_CACHE_LBA) MODEL_FIXED_CACHE_LBA = Ok (Some n) ->
     CACHE_DATA_LBA + sectors_for_bytes n <= lo) ->
  cached (ah_dev s') = cached (ah_dev s).
Proof.
  intros (_ & _ & _ & Hcap & Hs) Hlo Hn. apply cached_ext; [done|apply Hs; lia|].
  intros n i Hh _ Hi. apply Hs. specialize (Hn n Hh). lia.
Qed.

Lemma wp_ensure_any s db ms ml (Q : unit + unit -> Ahci D -> Prop) X :
  db_addressable db -> (forall r s', agree db (data_start db) s s' -> Q r s') ->
  wp (scatch (ensure_memory_db db ms ml)) Q X s.
Proof.
  intros Ha HQ. apply wp_catch. pose proof (returns_ensure db ms ml s) as Hr.
  pose proof (inside_ensure db Ha ms ml s) as [Hag _]. Transparent wp. unfold wp in *. Opaque wp.
  destruct (ensure_memory_db db ms ml s) as [s' [a|e| |]]; try done; by apply HQ.
Qed.

Lemma disk_addressable s db : cache_disk s -> 0 <= db <= bd_cap (ah_dev s) -> db_addressable db.
Proof. intros (_ & _ & _ & ?) ?. split; lia. Qed.
End ensure.

Lemma write_cache_atomic {D} `{BlockDevSpec D} (s : Ahci D) (mem : bytes) n :
  cache_disk s -> 0 <= n <= U64_MAX -> sectors_for_bytes n * SECTOR_SIZE <= zlen mem ->
  exists s' r, write_raw_model_cache mem n s = (s', r) /\ cache_disk s' /\
    ((r = Ok tt /\ cached (ah_dev s') = as_cached (ztake n mem)) \/
     (r = Err tt /\ (cached (ah_dev s') = cached (ah_dev s) \/ cached (ah_dev s') = None \/
                     cached (ah_dev s') = as_cached (ztake n mem)))).
Proof.
  intros Hcd Hn Hmem. pose proof (sectors_for_spec n ltac:(lia)) as [HS0 HS].
  assert (forall d, bd_cap d = bd_cap (ah_dev s) -> cache_disk (set_dev d (discovered s))) as Hdisk.
  { intros d Hc. destruct (discovered_disk s Hcd) as (?&?&?&?). unfold cache_disk. cbn in *. by rewrite Hc. }
  destruct (wp_run (write_raw_model_cache mem n)
    (fun _ s' => cache_disk s' /\ cached (ah_dev s') = as_cached (ztake n mem))
    (fun _ s' => cache_disk s' /\ replaced (ah_dev s) mem n (ah_dev s')) s)
    as [(s' & [] & Hrun & ? & ?)|(s' & [] & Hrun & ? & _ & ?)]; [|eauto 10..].
  apply (wp_write_raw_model_cache False); [done|done|done|done| |].
  - intros d _ (Hc & Hca & Hh & Ho) Hfit. apply wp_bind, wp_ensure_any.
    { apply (disk_addressable s); [done|]. cachelia. }
    intros r s' Hag. apply wp_ret. split; [eapply agree_disk; [done|by apply Hdisk]|].
    rewrite <- Hca. apply (agree_cached _ _ _ _ Hag); [cachelia|]. cbn [set_dev ah_dev]. rewrite Hh.
    intros n' Hn'. rewrite model_header_ready in Hn' by done. destruct (_ && _); by simplify_eq.
  - intros d _ Hrep. split; [|done]. by apply Hdisk, Hrep.
Qed.

(** C14: the cached model is replaced atomically.  On any device, failing ones
    included, [write_raw_model_cache] never panics: an [Ok] leaves exactly the new
    model in the cache (or none, when a boot would not accept it), and an [Err] the
    old cache, an empty one or the new one, never a mixture. *)
Theorem model_cache_atomic {D} `{BlockDevSpec D} (s : Ahci D) (mem : bytes) n :
  cache_disk s -> 0 <= n <= U64_MAX -> sectors_for_bytes n * SECTOR_SIZE <= zlen mem ->
  exists s' r, write_raw_model_cache mem n s = (s', r) /\ cache_disk s' /\
    ((r = Ok tt /\ cached (ah_dev s') = as_cached (ztake n mem)) \/
     (r = Err tt /\ (cached (ah_dev s') = cached (ah_dev s) \/ cached (ah_dev s') = None \/
                     cached (ah_dev s') = as_cached (ztake n mem)))).
Proof. apply write_cache_atomic. Qed.

(** ** Loading *)

Section load.
Context {D : Type} `{BlockDevSpec D}.
Implicit Types (d : D) (k : Kernel D) (m : bytes).

Lemma wp_ahci {A} (c : AM D A) k Q X :
  wp c (fun a s => Q a (set_ahci_of s k)) (fun e s => X e (set_ahci_of s k)) (k_ahci k) ->
  wp (ahci c) Q X k.
Proof.
  Transparent wp. unfold wp, ahci. Opaque wp. by destruct (c (k_ahci k)) as [s [a|e| |]].
Qed.

(** The application's view: the model in memory is [m]. *)
Definition has_model k m : Prop :=
  exists mi buf, model_info k = Some mi /\ mi_size mi = zlen m /\
    k_mem k !! mi_address mi = Some buf /\ ztake (mi_size mi) buf = m.

(** [k'] is [k] after reads of the disk and writes to the allocation. *)
Definition reading (k k' : Kernel D) : Prop :=
  k_ahci k' = set_dev (ah_dev (k_ahci k')) (k_ahci k) /\
  dev_eq (ah_dev (k_ahci k)) (ah_dev (k_ahci k')) /\
  KERNEL_MODEL_INFO k' = KERNEL_MODEL_INFO k /\ k_fdt_model k' = k_fdt_model k.

#[export] Instance reading_refl : Reflexive reading.
Proof. intros k. unfold reading. by rewrite set_dev_id. Qed.

#[export] Instance reading_trans : Transitive reading.
Proof.
  intros k1 k2 k3 (Ha & Hd & Hm & Hf) (Ha' & Hd' & Hm' & Hf'). unfold reading. split_and!; try congruence.
  - rewrite Ha', Ha. done.
  - by etrans.
Qed.

Lemma reading_after d k b base :
  dev_eq (ah_dev (k_ahci k)) d -> reading k (set_mem base b (set_ahci_of (set_dev d (k_ahci k)) k)).
Proof. done. Qed.

Lemma sectors_at_dev_eq d d' lba n : dev_eq d d' -> sectors_at d' lba n = sectors_at d lba n.
Proof. intros [Hs _]. by apply sectors_at_ext. Qed.

(** One chunk, read and placed behind the [j] sectors already there. *)
Lemma place_chunk d0 j c before chunk :
  0 <= j -> 0 < c -> (0 < j -> before = sectors_at d0 CACHE_DATA_LBA (Z.to_nat j)) ->
  chunk = sectors_at d0 (CACHE_DATA_LBA + j) (Z.to_nat c) ->
  ztake (j * 512) before ++ chunk = sectors_at d0 CACHE_DATA_LBA (Z.to_nat (j + c)).
Proof.
  intros Hj Hc Hb ->. rewrite Z2Nat.inj_add, sectors_at_app, Z2Nat.id by lia. f_equal.
  destruct (decide (j = 0)) as [->|]; [by rewrite ztake_0 by lia|].
  rewrite Hb by lia. apply ztake_all. rewrite zlen_sectors_at. lia.
Qed.

Lemma first_chunk d0 c :
  0 < c -> ztake 4 (sectors_at d0 CACHE_DATA_LBA (Z.to_nat c)) = ztake 4 (bd_sec d0 CACHE_DATA_LBA).
Proof.
  intros Hc. destruct (Z.to_nat c) eqn:E; [lia|]. rewrite sectors_at_S.
  apply ztake_app_le. rewrite bd_sec_len. done.
Qed.

Section chunks.
Context (G : Prop) (n base asize : Z) (d0 : D).
Let S := sectors_for_bytes n.
Context (Hn : 0 <= n) (Hfit : CACHE_DATA_LBA + S <= bd_cap d0) (Hlba : bd_cap d0 <= LBA48_MAX).
Context (Hroom : S * 512 <= asize).

Lemma wp_load_chunks fuel j k Q X :
  FIRST_SATA_PORT (k_ahci k) <> None -> dev_eq d0 (ah_dev (k_ahci k)) -> (G -> bd_ok (ah_dev (k_ahci k))) ->
  0 <= j <= S -> S - j <= 8192 * Z.of_nat fuel ->
  (0 < j -> k_mem k !! base = Some (sectors_at d0 CACHE_DATA_LBA (Z.to_nat j))) ->
  (forall k', reading k k' -> (G -> bd_ok (ah_dev (k_ahci k'))) -> (0 < S -> k_mem k' !! base = Some (sectors_at d0 CACHE_DATA_LBA (Z.to_nat S))) ->
     (j < S -> j = 0 -> ztake 4 (bd_sec d0 CACHE_DATA_LBA) = bstr "GGUF") -> Q true k') ->
  (forall k', reading k k' -> ~ G \/ (j = 0 /\ ztake 4 (bd_sec d0 CACHE_DATA_LBA) <> bstr "GGUF") -> Q false k') ->
  wp (load_chunks fuel base asize CACHE_DATA_LBA n (j * 512)) Q X k.
Proof.
  pose proof (sectors_for_spec n Hn) as [HS0 HS]. fold S in HS0, HS. revert j k.
  induction fuel as [|fuel IH]; intros j k Hport He Hok Hj Hf Hmem HQ HF; cbn [load_chunks].
  { guard_false (j * 512 <? n). apply wp_ret, HQ; [reflexivity|done| |lia]. replace S with j by lia. auto. }
  destruct (j * 512 <? n) eqn:E; bool_to_prop; cbn [negb].
  2: { apply wp_ret, HQ; [reflexivity|done| |lia]. replace S with j by lia. auto. }
  rewrite chunk_sectors_spec by (fold S; lia). fold S. set (c := Z.min (S - j) 8192).
  assert (0 < c <= 8192 /\ j + c <= S /\ (c = S - j \/ c = 8192)) as (Hc & Hjc & Hcc) by lia. clearbody c.
  change SECTOR_SIZE with 512. guard_false (asize <? j * 512 + c * 512).
  unfold add64. rewrite Z.div_mul, !as_u64_small by cachelia.
  pose proof He as [Hes Hec]. apply wp_bind, wp_catch, wp_ahci.
  rewrite <- (set_dev_id (k_ahci k)) at 1. apply (wp_read_sectors G); [done|done|intros _; cachelia| |].
  2: { intros d' HG He'. apply wp_ret, HF; [done|auto]. }
  intros d' b Hok' He' Hbl Hbs. cbn beta iota.
  assert (b = sectors_at d0 (CACHE_DATA_LBA + j) (Z.to_nat c)) as Hb.
  { apply buffer_is_sectors; rewrite Z2Nat.id by lia; [done|]. intros i Hi. rewrite Hbs by lia. apply Hes. }
  apply wp_bind, wp_gets, wp_bind, wp_modify. cbn [set_ahci_of k_mem].
  rewrite (place_chunk d0 j c) by (try done; try lia; intros Hj0; rewrite Hmem by lia; done).
  set (k1 := set_mem base _ _).
  assert (reading k k1) as Hk1 by (by apply reading_after).
  assert (k_mem k1 !! base = Some (sectors_at d0 CACHE_DATA_LBA (Z.to_nat (j + c)))) as Hm1
    by (by apply lookup_insert_eq).
  assert (forall Q' : bool -> Kernel D -> Prop,
    Q' (if j =? 0 then bool_decide (ztake 4 (bd_sec d0 CACHE_DATA_LBA) = bstr "GGUF") else true) k1 ->
    wp (if j * 512 =? 0 then let! first := slift (get_slice b 0 4) in
          sret (bool_decide (first = bstr "GGUF")) else sret true) Q' X k1) as Hcheck.
  { intros Q' HQ'. destruct (j =? 0) eqn:Ej; bool_to_prop.
    - subst j. cbn [Z.mul Z.eqb]. apply wp_bind. unfold SECTOR_SIZE in Hbl.
      eapply wp_lift_ok; [apply get_slice_ok; lia|]. apply wp_ret.
      unfold slice. rewrite zdrop_0 by lia. change (4 - 0) with 4. rewrite Z.add_0_r in Hb.
      rewrite Hb, first_chunk by lia. done.
    - guard_false (j * 512 =? 0). by apply wp_ret. }
  apply wp_bind, Hcheck. destruct (if j =? 0 then _ else _) eqn:Eg; cbn [negb].
  2: { apply wp_ret, HF; [done|]. right. destruct (j =? 0) eqn:Ej; bool_to_prop; [|done]. auto. }
  replace (j * 512 + c * 512) with ((j + c) * 512) by lia.
  apply IH; [done| |by apply Hok'|lia|lia|done| |].
  - by etrans.
  - intros k' Hk' Hok1 Hm _. apply HQ; [by etrans|done|done|]. intros _ ->. cbn [Z.eqb] in Eg. by bool_to_prop.
  - intros k' Hk' [?|[? _]]; [apply HF; [by etrans|by left]|lia].
Qed.
End chunks.

(** [verify_raw_model_extent] up to the call into the memory database. *)
Lemma wp_verify (G : Prop) (a : Ahci D) d n Q X :
  let data_end := CACHE_DATA_LBA + sectors_for_bytes n in
  FIRST_SATA_PORT a <> None -> SSD_SECTOR_COUNT a = Some (bd_cap d) -> (G -> bd_ok d) ->
  0 < n -> data_end <= bd_cap d -> bd_cap d <= LBA48_MAX ->
  (forall d', dev_eq d d' -> (G -> bd_ok d') ->
     wp (let! _ := scatch (ensure_memory_db data_end CACHE_DATA_LBA (data_end - 1)) in sret true)
       Q X (set_dev d' a)) ->
  (forall d', ~ G -> dev_eq d d' -> Q false (set_dev d' a)) ->
  wp (verify_raw_model_extent CACHE_DATA_LBA n) Q X (set_dev d a).
Proof.
  intros data_end Hport Hssd Hok Hn Hfit Hlba HE HF. unfold verify_raw_model_extent.
  pose proof (sectors_for_spec n ltac:(lia)) as [HS0 HS].
  guard_false (sectors_for_bytes n =? 0). unfold add64, sub64.
  rewrite (as_u64_small (CACHE_DATA_LBA + _)) by (unfold data_end in *; cachelia). fold data_end.
  rewrite as_u64_small by (unfold data_end in *; cachelia).
  apply wp_bind, wp_catch, (wp_read_sector G);
    [done|done|unfold data_end in *; cachelia| |intros; by apply wp_ret, HF].
  intros d1 Hok1 He1. apply wp_bind, wp_gets. cbn [set_dev SSD_SECTOR_COUNT]. rewrite Hssd.
  destruct (data_end <? bd_cap d) eqn:E; bool_to_prop; apply wp_bind; [|by apply wp_ret, HE].
  apply wp_bind, wp_catch, (wp_read_sector G); [done|done| |..].
  - intros _. destruct He1 as [_ ->]. unfold data_end in *. cachelia.
  - intros d2 Hok2 He2. apply wp_ret, HE; [by etrans|done].
  - intros d2 HG He2. apply wp_ret, HE; [by etrans|done].
Qed.

Context (alloc : Z -> Z -> option Z) (align_up : Z -> Z -> Z).
Context (Halloc : alloc_nonnull alloc) (Halign : rounds_up align_up).

(** The allocation holds every sector of the model, and its layout is valid. *)
Lemma alloc_size_ok n :
  MIN_RAW_MODEL_SIZE <= n <= MAX_RAW_MODEL_SIZE ->
  let size := align_up n (MODEL_IO_SECTORS * SECTOR_SIZE) in
  sectors_for_bytes n * 512 <= size /\ layout_from_size_align size 4096 = Some (size, 4096).
Proof.
  intros Hn size. unfold MIN_RAW_MODEL_SIZE, MAX_RAW_MODEL_SIZE in Hn. pose proof (sectors_for_spec n ltac:(lia)).
  change (MODEL_IO_SECTORS * SECTOR_SIZE) with 4194304 in size.
  destruct (Halign n 4194304 eq_refl) as [Hge Hmod]; [lia|ulia|]. fold size in Hge, Hmod.
  apply Z.div_exact in Hmod; [|done]. split; [lia|].
  unfold layout_from_size_align, ISIZE_MAX. change (is_power_of_two 4096) with true. cbn [negb].
  by guard_false (9223372036854775807 - (4096 - 1) <? size).
Qed.

(** The disk and the statics after a load attempt. *)
Definition cache_kept k k' : Prop :=
  cache_disk (k_ahci k') /\ cached (ah_dev (k_ahci k')) = cached (ah_dev (k_ahci k)).

Definition no_model_set k k' : Prop :=
  KERNEL_MODEL_INFO k' = KERNEL_MODEL_INFO k /\ k_fdt_model k' = k_fdt_model k.

Lemma discovered_kept k d :
  cache_disk (k_ahci k) -> dev_eq (ah_dev (k_ahci k)) d ->
  cache_kept k (set_ahci_of (set_dev d (discovered (k_ahci k))) k).
Proof.
  intros Hcd He. split; [|by apply cached_dev_eq].
  destruct (discovered_disk _ Hcd) as (?&?&?&?). destruct He as [_ Hc].
  unfold cache_disk. cbn in *. by rewrite Hc.
Qed.

(** After the memory database has been set up behind a model of [n] bytes. *)
Lemma agree_kept k d n s' :
  cache_disk (k_ahci k) -> dev_eq (ah_dev (k_ahci k)) d ->
  model_header_size (bd_sec (ah_dev (k_ahci k)) MODEL_FIXED_CACHE_LBA) MODEL_FIXED_CACHE_LBA = Ok (Some n) ->
  let db := CACHE_DATA_LBA + sectors_for_bytes n in
  0 <= n -> agree db (data_start db) (set_dev d (discovered (k_ahci k))) s' ->
  cache_kept k (set_ahci_of s' k) /\
  forall i, 0 <= i < sectors_for_bytes n ->
    bd_sec (ah_dev s') (CACHE_DATA_LBA + i) = bd_sec (ah_dev (k_ahci k)) (CACHE_DATA_LBA + i).
Proof.
  intros Hcd He Hh db Hn Hag. pose proof (sectors_for_spec n Hn).
  destruct (discovered_kept k d Hcd He) as [Hdd Hdc]. split; [split|].
  - by eapply agree_disk.
  - rewrite <- Hdc. apply (agree_cached _ _ _ _ Hag); [unfold db; cachelia|].
    cbn [set_dev ah_dev]. destruct He as [-> _]. rewrite Hh. intros. by simplify_eq.
  - intros i Hi. destruct Hag as (_ & _ & _ & _ & Hs). rewrite Hs by (unfold db; lia). apply He.
Qed.

Lemma model_ok_cache_data d n :
  MIN_RAW_MODEL_SIZE <= n <= MAX_RAW_MODEL_SIZE ->
  model_ok (cache_data d n) = bool_decide (ztake 4 (bd_sec d CACHE_DATA_LBA) = bstr "GGUF").
Proof.
  intros Hn. unfold MIN_RAW_MODEL_SIZE, MAX_RAW_MODEL_SIZE in *.
  pose proof (sectors_for_spec n ltac:(lia)). unfold model_ok. rewrite zlen_cache_data by lia.
  unfold MIN_RAW_MODEL_SIZE, MAX_RAW_MODEL_SIZE.
  guard_true ((1024 * 1024 * 1024 <=? n) && (n <=? 8 * 1024 * 1024 * 1024)). cbn [andb].
  by rewrite cache_data_prefix, first_chunk by lia.
Qed.

(** A header that names a size: the cache holds that many bytes, if they start right. *)
Lemma cached_named d n :
  model_header_size (bd_sec d MODEL_FIXED_CACHE_LBA) MODEL_FIXED_CACHE_LBA = Ok (Some n) ->
  MIN_RAW_MODEL_SIZE <= n <= MAX_RAW_MODEL_SIZE -> CACHE_DATA_LBA + sectors_for_bytes n <= bd_cap d ->
  cached d = if bool_decide (ztake 4 (bd_sec d CACHE_DATA_LBA) = bstr "GGUF")
             then Some (cache_data d n) else None.
Proof.
  intros Hh Hn Hfit. unfold cached. rewrite Hh, model_ok_cache_data by done.
  by guard_true (CACHE_DATA_LBA + sectors_for_bytes n <=? bd_cap d).
Qed.

Section attempt.
Context (G : Prop) (E : Ahci D -> Prop) (k : Kernel D) (Q : bool -> Kernel D -> Prop).
Let a := k_ahci k.
Let d0 := ah_dev a.
Context (Hcd : cache_disk a) (Hok : G -> bd_ok d0 /\ CACHE_DATA_LBA <= bd_cap d0).
Context (HE : forall n d,
  let db := CACHE_DATA_LBA + sectors_for_bytes n in
  model_header_size (bd_sec d0 MODEL_FIXED_CACHE_LBA) MODEL_FIXED_CACHE_LBA = Ok (Some n) ->
  MIN_RAW_MODEL_SIZE <= n <= MAX_RAW_MODEL_SIZE -> db <= bd_cap d0 -> dev_eq d0 d -> (G -> bd_ok d) ->
  wp (scatch (ensure_memory_db db CACHE_DATA_LBA (db - 1)))
    (fun _ s' => agree db (data_start db) (set_dev d (discovered a)) s' /\ (G -> bd_ok (ah_dev s')) /\ E s')
    (fun _ _ => False) (set_dev d (discovered a))).
Context (HT : forall k' m s', cached d0 = Some m -> has_model k' m -> cache_kept k k' -> E s' ->
  k_ahci k' = set_dev (ah_dev (k_ahci k')) s' -> dev_eq (ah_dev s') (ah_dev (k_ahci k')) ->
  (G -> bd_ok (ah_dev (k_ahci k'))) -> Q true k').
Context (HF : forall k', cache_kept k k' -> no_model_set k k' ->
  ~ G \/ cached d0 = None \/ (exists size align, alloc size align = None) -> Q false k').

Lemma reading_kept k1 k2 : cache_kept k k1 -> reading k1 k2 -> cache_kept k k2.
Proof.
  intros [Hd Hc] (Ha & He & _). split.
  - rewrite Ha. destruct Hd as (?&?&?&?). destruct He as [_ Hcap]. unfold cache_disk. cbn. by rewrite Hcap.
  - rewrite <- Hc. by apply cached_dev_eq.
Qed.

Lemma wp_load_raw_model n d :
  model_header_size (bd_sec d0 MODEL_FIXED_CACHE_LBA) MODEL_FIXED_CACHE_LBA = Ok (Some n) ->
  MIN_RAW_MODEL_SIZE <= n <= MAX_RAW_MODEL_SIZE ->
  CACHE_DATA_LBA + sectors_for_bytes n <= bd_cap d0 -> dev_eq d0 d -> (G -> bd_ok d) ->
  wp (load_raw_model alloc align_up CACHE_DATA_LBA n) Q (fun _ _ => False)
    (set_ahci_of (set_dev d (discovered a)) k).
Proof.
  intros Hh Hn Hfit He Hokd. pose proof Hcd as (Hport & _ & Hssd & Hlba). fold d0 in Hssd, Hlba.
  assert (0 < n) as Hn0 by (unfold MIN_RAW_MODEL_SIZE in Hn; lia).
  pose proof (sectors_for_spec n ltac:(lia)) as [HS0 HS]. pose proof (proj2 He) as Hec.
  unfold load_raw_model. apply wp_bind, wp_ahci. cbn [set_ahci_of k_ahci].
  apply (wp_verify G); [done|by rewrite Hec|done|done|by rewrite Hec|rewrite Hec; cachelia| |].
  2: { intros d' HG He'. apply wp_ret, HF; [|done|by left]. apply (discovered_kept k d'); [done|by etrans]. }
  intros d1 He1 Hok1. assert (dev_eq d0 d1) as He01 by (by etrans).
  apply wp_bind. eapply wp_mono; [by apply HE| |done]. intros _ s1 (Hag & Hok2 & HEs). apply wp_ret.
  destruct (agree_kept k d1 n s1 Hcd He01 Hh ltac:(lia) Hag) as [Hkept Hdata]. cbn [negb].
  destruct (alloc_size_ok n Hn) as [Hroom Hlay]. rewrite Hlay.
  destruct (alloc _ 4096) as [base|] eqn:Hal; [|apply wp_ret, HF; [done|done|eauto]].
  pose proof Hag as (Hp1 & _ & _ & Hc1 & _). cbn in Hp1, Hc1. rewrite (proj2 He01) in Hc1.
  assert (ztake 4 (bd_sec (ah_dev s1) CACHE_DATA_LBA) = ztake 4 (bd_sec d0 CACHE_DATA_LBA)) as Hfirst.
  { specialize (Hdata 0 ltac:(lia)). rewrite Z.add_0_r in Hdata. by rewrite Hdata. }
  assert (cache_data (ah_dev s1) n = cache_data d0 n) as Hcda.
  { unfold cache_data. f_equal. apply sectors_at_ext. intros. apply Hdata. lia. }
  pose proof (cached_named d0 n Hh Hn Hfit) as Hcached.
  apply wp_bind. change 0 with (0 * 512) at 1.
  apply (wp_load_chunks G n base _ (ah_dev s1) ltac:(lia) ltac:(lia) ltac:(cachelia) Hroom);
    [by rewrite <- Hp1 in Hport|done|done|lia|rewrite Z.sub_0_r; apply chunk_count_spec; lia|lia| |].
  - intros k' Hk' Hok3 Hm Hg. cbn [negb]. apply wp_bind, wp_modify, wp_ret.
    rewrite bool_decide_eq_true_2 in Hcached by (rewrite <- Hfirst; apply Hg; lia).
    apply (HT _ (cache_data d0 n) s1); [done| | |done|apply Hk'|apply Hk'|done].
    + exists (mkModelInfo base n (bstr "ssd-cache")), (sectors_at (ah_dev s1) CACHE_DATA_LBA (Z.to_nat (sectors_for_bytes n))).
      pose proof (Halloc _ _ _ Hal). split_and!.
      * unfold model_info, set_model_info_with_source. cbn [KERNEL_MODEL_INFO mi_address].
        by guard_false (base =? 0).
      * cbn [mi_size]. by rewrite zlen_cache_data by lia.
      * apply Hm. lia.
      * exact Hcda.
    + change (cache_kept k k'). by eapply reading_kept.
  - intros k' Hk' Hwhy. cbn [negb]. apply wp_ret, HF; [by eapply reading_kept|by apply Hk'|].
    destruct Hwhy as [?|[_ Hng]]; [by left|right; left].
    rewrite Hcached, bool_decide_eq_false_2; [done|]. by rewrite <- Hfirst.
Qed.

Lemma wp_try_load :
  model_info k = None -> wp (try_load_raw_model alloc align_up) Q (fun _ _ => False) k.
Proof.
  intros Hno. pose proof Hcd as (Hport & _ & Hssd & Hlba). fold d0 in Hssd, Hlba.
  unfold try_load_raw_model. apply wp_bind, wp_gets. rewrite Hno.
  apply wp_bind, wp_ahci, wp_discover; [done|]. fold a.
  apply wp_bind, wp_catch, wp_ahci. cbn [set_ahci_of k_ahci].
  apply (wp_read_sector G (discovered a) d0); [done|by apply Hok|intros HG; destruct (Hok HG); cachelia| |].
  2: { intros d' HG He. apply wp_ret, HF; [by apply (discovered_kept k d')|done|by left]. }
  intros d Hokd He. cbn beta iota.
  destruct (model_header_total (bd_sec d0 MODEL_FIXED_CACHE_LBA) MODEL_FIXED_CACHE_LBA) as ([n|] & Hh & Hn);
    [apply bd_sec_len| |]; apply wp_bind; (eapply wp_lift_ok; [exact Hh|]).
  2: { apply wp_ret, HF; [by apply (discovered_kept k d)|done|]. right. left. unfold cached. by rewrite Hh. }
  specialize (Hn n eq_refl). cbv zeta.
  change (add64 MODEL_FIXED_CACHE_LBA MODEL_HEADER_SECTORS) with CACHE_DATA_LBA.
  apply wp_bind, wp_ahci, wp_fits;
    [by rewrite (proj2 He)|unfold MIN_RAW_MODEL_SIZE, MAX_RAW_MODEL_SIZE in Hn; ulia|rewrite (proj2 He); cachelia|].
  rewrite (proj2 He). destruct (_ <=? _) eqn:Hfit; bool_to_prop; cbn [negb].
  - by apply wp_load_raw_model.
  - apply wp_ret, HF; [by apply (discovered_kept k d)|done|]. right. left. unfold cached. rewrite Hh.
    by guard_false (CACHE_DATA_LBA + sectors_for_bytes n <=? bd_cap d0).
Qed.
End attempt.
End load.

(** A load without a model in memory, on any device. *)
Lemma load_outcome {D} `{BlockDevSpec D} alloc align_up (k : Kernel D) :
  alloc_nonnull alloc -> rounds_up align_up -> cache_disk (k_ahci k) -> model_info k = None ->
  exists k' b, try_load_raw_model alloc align_up k = (k', Ok b) /\ cache_kept k k' /\
    if b : bool then exists m, cached (ah_dev (k_ahci k)) = Some m /\ has_model k' m
    else model_info k' = None.
Proof.
  intros Hal Hup Hcd Hmi. destruct (wp_run_ok (try_load_raw_model alloc align_up)
    (fun b k' => cache_kept k k' /\ if b then exists m, cached (ah_dev (k_ahci k)) = Some m /\ has_model k' m
                 else no_model_set k k') k) as (k' & b & Hrun & Hkept & Hres).
  - apply (wp_try_load _ _ Hal Hup False (fun _ => True)); [done|done| | | |done].
    + intros n d db _ Hn Hfit He _. apply wp_ensure_any; [|done].
      apply (disk_addressable (k_ahci k)); [done|]. unfold db, MIN_RAW_MODEL_SIZE in *.
      pose proof (sectors_for_spec n ltac:(lia)). cachelia.
    + intros k' m s' Hm Hhas Hkept _ _ _ _. eauto.
    + auto.
  - exists k', b. split; [done|]. split; [done|]. destruct b; [done|].
    destruct Hres as [Hi Hf]. unfold model_info in *. by rewrite Hi, Hf.
Qed.

(** C15: a load is exact or does nothing.  Whatever the disk holds and whichever
    transfers fail, [try_load_raw_model] ends without a panic and without writing
    past its allocation; [true] means a model was present before or the memory now
    holds exactly the cached model, [false] leaves the kernel without one; and the
    cache on the disk is as before. *)
Theorem model_load_exact {D} `{BlockDevSpec D} alloc align_up (k : Kernel D) :
  alloc_nonnull alloc -> rounds_up align_up -> cache_disk (k_ahci k) ->
  exists k' b, try_load_raw_model alloc align_up k = (k', Ok b) /\ cache_kept k k' /\
    if b : bool then
      (model_info k <> None /\ k' = k) \/
      (exists m, cached (ah_dev (k_ahci k)) = Some m /\ has_model k' m)
    else model_info k = None /\ model_info k' = None.
Proof.
  intros Hal Hup Hcd. destruct (model_info k) as [mi|] eqn:Hmi.
  { exists k, true. split; [|split; [done|left; done]].
    unfold try_load_raw_model, sbind, sgets. by rewrite Hmi. }
  destruct (load_outcome alloc align_up k) as (k' & b & Hrun & Hkept & Hres); [done..|].
  exists k', b. split; [done|]. split; [done|]. destruct b; [by right|by split].
Qed.

(** ** A working device: model and memory database together *)

Section working.
Context {D : Type} `{BlockDevSpec D}.
Implicit Types (s : Ahci D) (k : Kernel D) (m : bytes).

(** The sector behind a model of [n] bytes, where the memory database starts. *)
Definition db_behind (n : Z) : Z := CACHE_DATA_LBA + sectors_for_bytes n.

(** The database fits behind the model and is not registered elsewhere. *)
Definition room_behind s n : Prop :=
  db_behind n + MEMORY_DB_TOTAL_SECTORS <= bd_cap (ah_dev s) /\
  (MEMORY_DB_HEADER_LBA s = None \/ MEMORY_DB_HEADER_LBA s = Some (db_behind n)).

Lemma wp_ensure_behind s d n log (Q : unit + unit -> Ahci D -> Prop) X :
  cache_disk s -> bd_ok d -> bd_cap d = bd_cap (ah_dev s) -> 0 <= n -> room_behind s n ->
  map_pointer_safe (db_behind n) d -> boot_log s (db_behind n) d log ->
  (forall s', agree (db_behind n) (data_start (db_behind n)) (set_dev d s) s' ->
     db_online s' (db_behind n) -> db_holds s' (db_behind n) log -> Q (inl tt) s') ->
  wp (scatch (ensure_memory_db (db_behind n) CACHE_DATA_LBA (db_behind n - 1))) Q X (set_dev d s).
Proof.
  intros (Hport & _ & Hssd & Hlba) Hok Hcap Hn [Hroom Hreg] Hmap Hlog HQ.
  pose proof (sectors_for_spec n Hn) as [HS0 HS].
  assert (0 <= db_behind n) as Hdb by (unfold db_behind; cachelia).
  assert (db_addressable (db_behind n)) as Ha by (split; dblia).
  apply wp_catch, (wp_ensure_memory_db s Hport (db_behind n) Ha Hreg d _ _ log).
  - intros _. split_and!; [done|done|dblia].
  - by rewrite Hcap.
  - rewrite Hcap. dblia.
  - lia.
  - done.
  - unfold db_behind in *. cachelia.
  - done.
  - done.
  - intros d' Hgood ((Hc' & Ho) & h & Hr & Hsy). destruct (Hgood I) as (Hok' & _ & _).
    apply HQ.
    + by split_and!.
    + split; [|done]. unfold db_attached, db_ready. cbn. rewrite Hc'.
      split_and!; [done|exact (registered_lba s (db_behind n) Hreg)|by rewrite Hcap|dblia|lia].
    + by exists h.
Qed.

Lemma wp_ensure_behind' s d n (Q : unit + unit -> Ahci D -> Prop) X :
  cache_disk s -> bd_ok d -> bd_cap d = bd_cap (ah_dev s) -> 0 <= n -> room_behind s n ->
  map_pointer_safe (db_behind n) d ->
  (forall s' log, agree (db_behind n) (data_start (db_behind n)) (set_dev d s) s' ->
     db_online s' (db_behind n) -> db_holds s' (db_behind n) log -> Q (inl tt) s') ->
  wp (scatch (ensure_memory_db (db_behind n) CACHE_DATA_LBA (db_behind n - 1))) Q X (set_dev d s).
Proof.
  intros Hcd Hok Hcap Hn Hroom Hmap HQ. pose proof Hcd as (Hport & _ & _ & Hlba).
  pose proof (sectors_for_spec n Hn) as [HS0 HS]. pose proof Hroom as [Hr _].
  destruct (boot_log_exists s Hport (db_behind n)) with (d := d) as [log Hlog].
  { split; [unfold db_behind; cachelia|dblia]. }
  apply (wp_ensure_behind s d n log); [done..|]. intros. by eapply HQ.
Qed.

Lemma online_eq s d' db :
  db_online s db -> dev_eq (ah_dev s) d' -> bd_ok d' -> db_online (set_dev d' s) db.
Proof. intros Hon [_ Hc] Hok. by apply online_set_dev. Qed.

Lemma cached_size (d : D) m :
  cached d = Some m ->
  model_header_size (bd_sec d MODEL_FIXED_CACHE_LBA) MODEL_FIXED_CACHE_LBA = Ok (Some (zlen m)) /\
  db_behind (zlen m) <= bd_cap d.
Proof.
  unfold cached. intros Hc.
  destruct (model_header_total (bd_sec d MODEL_FIXED_CACHE_LBA) MODEL_FIXED_CACHE_LBA) as ([n|] & Hh & Hn);
    [apply bd_sec_len|rewrite Hh in *|by rewrite Hh in Hc].
  destruct (_ && _) eqn:E; bool_to_prop; simplify_eq.
  specialize (Hn n eq_refl). unfold MIN_RAW_MODEL_SIZE in Hn.
  rewrite zlen_cache_data by lia. done.
Qed.

(** A load on a working device succeeds; [E] is what the call into the memory
    database establishes. *)
Lemma model_load_runs alloc align_up k m (E : Ahci D -> Prop) :
  alloc_nonnull alloc -> (forall size align, alloc size align <> None) -> rounds_up align_up ->
  model_info k = None -> cache_disk (k_ahci k) -> bd_ok (ah_dev (k_ahci k)) ->
  cached (ah_dev (k_ahci k)) = Some m ->
  (forall s d, E s -> dev_eq (ah_dev s) d -> bd_ok d -> E (set_dev d s)) ->
  (forall d, dev_eq (ah_dev (k_ahci k)) d -> bd_ok d ->
     let db := db_behind (zlen m) in let s := set_dev d (discovered (k_ahci k)) in
     wp (scatch (ensure_memory_db db CACHE_DATA_LBA (db - 1)))
       (fun _ s' => agree db (data_start db) s s' /\ bd_ok (ah_dev s') /\ E s') (fun _ _ => False) s) ->
  exists k', try_load_raw_model alloc align_up k = (k', Ok true) /\ has_model k' m /\ cache_kept k k' /\
    E (k_ahci k').
Proof.
  intros Hal Hall Hup Hno Hcd Hok Hm HEeq HE.
  destruct (cached_size _ _ Hm) as [Hh Hfit]. pose proof (zlen_nonneg m) as Hm0.
  pose proof (sectors_for_spec (zlen m) Hm0) as [HS0 HS].
  destruct (wp_run_ok (try_load_raw_model alloc align_up)
    (fun b k' => b = true /\ has_model k' m /\ cache_kept k k' /\ E (k_ahci k')) k)
    as (k' & b & Hrun & -> & ?); [|eauto].
  apply (wp_try_load _ _ Hal Hup True E);
    [done|intros _; split; [done|unfold db_behind in *; cachelia]| | | |done].
  - intros n d db Hn _ _ He Hokd. rewrite Hh in Hn. simplify_eq. subst db.
    eapply wp_mono; [by apply HE, Hokd| |done]. intros r s' (?&?&?). auto.
  - intros k' m' s' Hm' Hhas Hkept HEs Hset He' Hok'. rewrite Hm in Hm'. simplify_eq.
    split; [done|]. split; [done|]. split; [done|]. rewrite Hset. apply HEeq; [done|done|by apply Hok'].
  - intros k' _ _ [?|[?|(size & align & ?)]]; [done|congruence|by destruct (Hall size align)].
Qed.

(** The database behind the model is registered, working and holds [log]. *)
Definition db_serves (n : Z) (log : list bytes) s : Prop :=
  db_online s (db_behind n) /\ db_holds s (db_behind n) log.

Lemma serves_eq n log s d :
  db_serves n log s -> dev_eq (ah_dev s) d -> bd_ok d -> db_serves n log (set_dev d s).
Proof. intros [Hon Hh] He Hok. split; [by apply online_eq|by apply (holds_eq s)]. Qed.

Lemma holds_pointer_safe s n log :
  db_holds s (db_behind n) log -> 0 <= n -> room_behind s n -> map_pointer_safe (db_behind n) (ah_dev s).
Proof.
  intros (h & Hr & _) Hn [Hroom _]. left. rewrite (rep_map_lba _ _ h log) by done.
  pose proof (rep_nonneg _ _ _ _ Hr). dblia.
Qed.

(** Writing a model to a working disk with room behind it. *)
Lemma write_runs s mem n :
  cache_disk s -> bd_ok (ah_dev s) -> sectors_for_bytes n * SECTOR_SIZE <= zlen mem ->
  0 < n <= U64_MAX -> room_behind s n ->
  map_pointer_safe (db_behind n) (ah_dev s) ->
  exists s1 log, write_raw_model_cache mem n s = (s1, Ok tt) /\ cache_disk s1 /\ room_behind s1 n /\
    cached (ah_dev s1) = as_cached (ztake n mem) /\ db_serves n log s1.
Proof.
  intros Hcd Hok Hmem Hn Hroom Hmap. pose proof (sectors_for_spec n ltac:(lia)) as [HS0 HS].
  pose proof (discovered_disk _ Hcd) as Hdd. pose proof Hroom as [Hr _].
  destruct (wp_run_ok (write_raw_model_cache mem n)
    (fun _ s1 => cache_disk s1 /\ room_behind s1 n /\ cached (ah_dev s1) = as_cached (ztake n mem) /\
       exists log, db_serves n log s1) s) as (s1 & [] & Hrun & ? & ? & ? & log & ?); [|by eauto 10].
  apply (wp_write_raw_model_cache True);
    [done|intros _; split; [done|unfold db_behind in Hr; dblia]|lia|done| |by intros ? []].
  intros d Hokd (Hc & Hca & Hhd & Ho) _. apply wp_bind. fold (db_behind n).
  replace (CACHE_DATA_LBA + sat_sub (sectors_for_bytes n) 1) with (db_behind n - 1)
    by (unfold db_behind, sat_sub; lia).
  apply (wp_ensure_behind' (discovered s)); 
    [done|by apply Hokd|done|lia|done|apply (map_pointer_ext _ (ah_dev s)); [by apply Ho|done|done]|].
  intros s1 log Hag Hon Hh. apply wp_ret. pose proof Hag as (_ & _ & _ & Hcap & _). cbn in Hcap.
  split; [|split; [|split; [|exists log; by split]]].
  - eapply agree_disk; [done|]. destruct Hdd as (?&?&?&?). unfold cache_disk. cbn in *. by rewrite Hc.
  - split; [by rewrite Hcap, Hc|]. right. apply Hon.
  - rewrite (agree_cached _ _ _ _ Hag); cbn [set_dev ah_dev].
    + done.
    + unfold db_behind. cachelia.
    + rewrite Hhd, model_header_ready by (unfold u64; lia). intros n' Hn'. destruct (_ && _); by simplify_eq.
Qed.
End working.

(** C16: a boot from the SSD finds the model and the history.  With a model in the
    cache of a working disk, the memory database behind it holding a log, the disk large
    enough for both and memory for the model ([alloc] never fails),
    [try_load_raw_model] loads exactly that model, registers the database there and
    keeps its log; only a log that has grown into the last 33 sectors, past the region
    the boot accepts, is replaced by the empty one ([boot_kept]). *)
Theorem boot_finds_model_and_log {D} `{BlockDevSpec D} alloc align_up (k : Kernel D) m log :
  alloc_nonnull alloc -> (forall size align, alloc size align <> None) -> rounds_up align_up ->
  model_info k = None -> cache_disk (k_ahci k) -> bd_ok (ah_dev (k_ahci k)) ->
  cached (ah_dev (k_ahci k)) = Some m -> room_behind (k_ahci k) (zlen m) ->
  db_holds (k_ahci k) (db_behind (zlen m)) log ->
  exists k', try_load_raw_model alloc align_up k = (k', Ok true) /\ has_model k' m /\ cache_kept k k' /\
    db_serves (zlen m) (boot_kept log) (k_ahci k').
Proof.
  intros Hal Hall Hup Hno Hcd Hok Hm Hroom Hh. pose proof (zlen_nonneg m).
  apply model_load_runs; try done; [apply serves_eq|]. intros d He Hokd db s.
  pose proof (discovered_disk _ Hcd) as Hdd. pose proof Hdd as (Hport & _).
  apply (wp_ensure_behind (discovered (k_ahci k)) d (zlen m) (boot_kept log));
    [done|done|by destruct He|done|done|..].
  - apply (map_pointer_ext _ (ah_dev (k_ahci k))); [apply He..|by eapply holds_pointer_safe].
  - destruct Hh as (h & Hr & Hs).
    apply (boot_log_eq _ _ (ah_dev (k_ahci k))); [done|]. by eapply boot_log_holds.
  - intros s' ? Hon ?. split; [done|]. split; [apply Hon|by split].
Qed.

(** The kernel after a reboot: nothing registered, no model in memory. *)
Definition rebooted_kernel {D} (s : Ahci D) (d : D) : Kernel D :=
  mkKernel (power_cycle (set_dev d s)) NO_MODEL None ∅.

(** C17: what is cached is loaded, if a boot takes it for a model.  Writing any bytes to
    a working disk with room for them and the memory database behind them succeeds and
    sets up a database there (with the old map pointer found there on the disk, or a
    device that survives reads past its end).  After a reboot with memory for the model,
    [try_load_raw_model] puts exactly those bytes into memory and serves the database
    from the same place when they are a GGUF model of 1 to 8 GiB ([model_ok]); anything
    else it leaves alone, and the kernel starts without a model. *)
Theorem model_cache_roundtrip {D} `{BlockDevSpec D} alloc align_up (s : Ahci D) (mem : bytes) n :
  alloc_nonnull alloc -> (forall size align, alloc size align <> None) -> rounds_up align_up ->
  cache_disk s -> bd_ok (ah_dev s) -> sectors_for_bytes n * SECTOR_SIZE <= zlen mem ->
  0 < n <= U64_MAX -> room_behind s n -> map_pointer_safe (db_behind n) (ah_dev s) ->
  exists s1 log, write_raw_model_cache mem n s = (s1, Ok tt) /\ db_serves n log s1 /\
    forall d2, dev_eq (ah_dev s1) d2 -> bd_ok d2 ->
    if model_ok (ztake n mem) then
      exists k2 log2, try_load_raw_model alloc align_up (rebooted_kernel s1 d2) = (k2, Ok true) /\
        has_model k2 (ztake n mem) /\ db_serves n log2 (k_ahci k2)
    else
      exists k2, try_load_raw_model alloc align_up (rebooted_kernel s1 d2) = (k2, Ok false) /\
        model_info k2 = None.
Proof.
  intros Hal Hall Hup Hcd Hok Hmem Hn Hroom Hmap. pose proof (sectors_for_spec n ltac:(lia)) as [HS0 HS].
  assert (zlen (ztake n mem) = n) as Hlen by (unfold SECTOR_SIZE in Hmem; rewrite zlen_ztake; lia).
  destruct (write_runs s mem n) as (s1 & log & Hrun & Hcd1 & [Hr1 Hreg1] & Hc1 & Hsv); [done..|].
  exists s1, log. split; [done|]. split; [done|]. intros d2 He2 Hok2.
  assert (cache_disk (power_cycle (set_dev d2 s1))) as Hcd2.
  { destruct Hcd1 as (?&?&?&?). destruct He2 as [_ Hc2]. unfold cache_disk. cbn in *. by rewrite Hc2. }
  assert (cached d2 = as_cached (ztake n mem)) as Hc2 by (rewrite <- Hc1; by apply cached_dev_eq).
  unfold as_cached in Hc2. destruct (model_ok (ztake n mem)) eqn:Hmok.
  2: { destruct (load_outcome alloc align_up (rebooted_kernel s1 d2)) as (k2 & b & Hrun2 & _ & Hres);
         [done|done|done|done|]. exists k2. destruct b; [|by destruct Hres].
       destruct Hres as (m & Hm & _). cbn in Hm. congruence. }
  pose proof (discovered_disk _ Hcd2) as Hdd2. destruct Hsv as [Hon Hh].
  destruct (model_load_runs alloc align_up (rebooted_kernel s1 d2) (ztake n mem)
    (fun s => exists log2, db_serves n log2 s)) as (k2 & Hrun2 & Hhas & _ & log2 & Hsv2); try done.
  - intros s' d [log2 ?] ??. exists log2. by apply serves_eq.
  - intros d He Hokd db s2. subst db s2. rewrite Hlen.
    assert (dev_eq (ah_dev s1) d) as [Hs3 Hc3] by (by etrans).
    assert (room_behind (discovered (power_cycle (set_dev d2 s1))) n) as Hroom2.
    { split; [cbn; by rewrite (proj2 He2)|by left]. }
    apply (wp_ensure_behind' (discovered (power_cycle (set_dev d2 s1)))); try done; [apply He|lia|..].
    + apply (map_pointer_ext _ (ah_dev s1)); [done|done|].
      eapply holds_pointer_safe; [done|lia|by split].
    + intros s' log2 ? Hon2 ?. split; [done|]. split; [apply Hon2|]. exists log2. by split.
  - eauto 10.
Qed.

(** ** Witnesses *)

Module CacheDemo.
Definition alloc (size align : Z) : option Z := Some 4096.
Lemma alloc_ok : alloc_nonnull alloc.
Proof. intros size align p Hp. by injection Hp as <-. Qed.

(** A model of 1 GiB. *)
Definition size : Z := 1073741824.
Definition image : bytes := bstr "GGUF" ++ zeros (size - 4).

Lemma zlen_image : zlen image = size.
Proof. unfold image. rewrite zlen_app, zlen_zeros; unfold size; [|lia]. change (zlen (bstr "GGUF")) with 4. lia. Qed.

Lemma image_ok : model_ok (ztake size image) = true.
Proof.
  rewrite ztake_all by (rewrite zlen_image; lia). unfold model_ok. rewrite zlen_image.
  unfold image. rewrite ztake_app_le by (change (zlen (bstr "GGUF")) with 4; lia).
  unfold size. rewrite bool_decide_eq_true_2; reflexivity.
Qed.

Definition blank (budget : option nat) : Ahci MemDisk :=
  mkAhci (mkMemDisk 3000000 ∅ budget 0) (Some 0) None (Some 3000000) None.

Lemma blank_disk budget : cache_disk (blank budget).
Proof.
  split; [discriminate|]. split; [by left|]. split; [reflexivity|].
  cbn. unfold MEMORY_DB_TOTAL_SECTORS, LBA48_MAX. lia.
Qed.

(** The cache filled, an empty database behind it. *)
Definition db : Z := 2099208.
Definition header : MemoryDbHeader :=
  mkMemoryDbHeader MEMORY_DB_MAGIC MEMORY_DB_VERSION SECTOR_SIZE db (db + 33) MEMORY_DB_TOTAL_SECTORS
    (db + 33) 2999999 2056 (db - 1) (db + 1) 0 MEMORY_DB_MAP_SECTORS.
Definition disk : MemDisk :=
  mkMemDisk 3000000
    (<[2048 := model_header MODEL_MAGIC_READY size]> (<[2056 := bstr "GGUF"]>
      (<[db := encode_header header]> (<[db + 1 := encode_map_header 0]> ∅)))) None 0.
Definition kernel : Kernel MemDisk :=
  mkKernel (mkAhci disk (Some 0) None (Some 3000000) None) NO_MODEL None ∅.
Definition model : bytes := cache_data disk size.

Lemma zlen_model : zlen model = size.
Proof. apply zlen_cache_data. unfold size. lia. Qed.

Lemma disk_cached : cached disk = Some model.
Proof.
  assert (ztake 4 (bd_sec disk CACHE_DATA_LBA) = bstr "GGUF") as Hg by (vm_compute; reflexivity).
  rewrite (cached_named disk size); [|vm_compute; reflexivity|unfold size, MIN_RAW_MODEL_SIZE, MAX_RAW_MODEL_SIZE; lia|].
  - rewrite (bool_decide_eq_true_2 _ Hg). unfold model. reflexivity.
  - vm_compute. discriminate.
Qed.

Lemma disk_holds : db_holds (k_ahci kernel) db [].
Proof.
  exists header. apply rep_empty; [done| |done|done|..].
  - unfold header_layout, header_wf. simpl. split_and!; done.
  - cbn [bd_sec MemDisk_BlockDevSpec]; unfold md_sec; cbn [ah_dev k_ahci kernel disk md_map].
    do 2 (rewrite lookup_insert_ne by (unfold db; lia)). rewrite lookup_insert_eq. apply pad_sector_id. by apply zlen_encode_header.
  - cbn [bd_sec MemDisk_BlockDevSpec]; unfold md_sec; cbn [ah_dev k_ahci kernel disk md_map].
    do 3 (rewrite lookup_insert_ne by (unfold db; lia)). rewrite lookup_insert_eq. apply pad_sector_id, zlen_encode_map_header.
Qed.
End CacheDemo.

(** The power fails after the header has been marked as being written. *)
Lemma model_cache_atomic_witness :
  exists s' r, write_raw_model_cache CacheDemo.image CacheDemo.size (CacheDemo.blank (Some 2%nat)) = (s', r) /\
    cache_disk s' /\
    ((r = Ok tt /\ cached (ah_dev s') = as_cached (ztake CacheDemo.size CacheDemo.image)) \/
     (r = Err tt /\ (cached (ah_dev s') = cached (ah_dev (CacheDemo.blank (Some 2%nat))) \/
        cached (ah_dev s') = None \/ cached (ah_dev s') = as_cached (ztake CacheDemo.size CacheDemo.image)))).
Proof.
  apply model_cache_atomic; [apply CacheDemo.blank_disk|unfold CacheDemo.size, U64_MAX; lia|].
  rewrite CacheDemo.zlen_image. vm_compute. discriminate.
Defined.

Lemma model_load_exact_witness :
  exists k' b, try_load_raw_model CacheDemo.alloc align_up_div CacheDemo.kernel = (k', Ok b) /\
    cache_kept CacheDemo.kernel k' /\
    if b : bool then
      (model_info CacheDemo.kernel <> None /\ k' = CacheDemo.kernel) \/
      (exists m, cached (ah_dev (k_ahci CacheDemo.kernel)) = Some m /\ has_model k' m)
    else model_info CacheDemo.kernel = None /\ model_info k' = None.
Proof.
  apply model_load_exact; [apply CacheDemo.alloc_ok|apply align_up_div_rounds|].
  split; [discriminate|]. split; [by left|]. split; [reflexivity|]. vm_compute. discriminate.
Defined.

Lemma boot_finds_model_and_log_witness :
  exists k', try_load_raw_model CacheDemo.alloc align_up_div CacheDemo.kernel = (k', Ok true) /\
    has_model k' CacheDemo.model /\ cache_kept CacheDemo.kernel k' /\
    db_serves (zlen CacheDemo.model) [] (k_ahci k').
Proof.
  apply (boot_finds_model_and_log _ _ _ _ []).
  - apply CacheDemo.alloc_ok.
  - discriminate.
  - apply align_up_div_rounds.
  - reflexivity.
  - split; [discriminate|]. split; [by left|]. split; [reflexivity|]. vm_compute. discriminate.
  - split; reflexivity.
  - apply CacheDemo.disk_cached.
  - rewrite CacheDemo.zlen_model. split; [vm_compute; discriminate|by left].
  - rewrite CacheDemo.zlen_model. apply CacheDemo.disk_holds.
Defined.

Lemma model_cache_roundtrip_witness :
  let s := CacheDemo.blank None in let m := ztake CacheDemo.size CacheDemo.image in
  exists s1 log, write_raw_model_cache CacheDemo.image CacheDemo.size s = (s1, Ok tt) /\
    db_serves CacheDemo.size log s1 /\
    forall d2, dev_eq (ah_dev s1) d2 -> bd_ok d2 ->
    if model_ok m then
      exists k2 log2,
        try_load_raw_model CacheDemo.alloc align_up_div (rebooted_kernel s1 d2) = (k2, Ok true) /\
        has_model k2 m /\ db_serves CacheDemo.size log2 (k_ahci k2)
    else
      exists k2, try_load_raw_model CacheDemo.alloc align_up_div (rebooted_kernel s1 d2) = (k2, Ok false) /\
        model_info k2 = None.
Proof.
  apply model_cache_roundtrip.
  - apply CacheDemo.alloc_ok.
  - discriminate.
  - apply align_up_div_rounds.
  - apply CacheDemo.blank_disk.
  - split; reflexivity.
  - rewrite CacheDemo.zlen_image. vm_compute. discriminate.
  - unfold CacheDemo.size, U64_MAX. lia.
  - split; [vm_compute; discriminate|by left].
  - left. vm_compute. reflexivity.
Defined.
