(* ===== verification/AhciPort.v ===== *)
(** * The AHCI port driver: registers, commands and discovery

    The part of kernel/src/drivers/storage/ahci.rs that talks to the controller:
    the command structures it builds in DMA memory, the transfer of sectors through
    command slot 0 with its time-outs, IDENTIFY DEVICE, and the discovery of the
    ports.  The hardware is behind [HbaIo]: the memory-mapped registers of the
    controller and the memory it reads and writes by DMA. *)

From S2P Require Import Prelude BlockDevice AhciIo.

(** ** Structures shared with the controller *)

Record CommandHeader := mkCommandHeader {
  ch_cfl_flags : Z;   (* u16 *)
  ch_prdtl : Z;       (* u16 *)
  ch_prdbc : Z;       (* u32 *)
  ch_ctba : Z;        (* u32 *)
  ch_ctbau : Z;       (* u32 *)
}.

Record PRDTEntry := mkPRDTEntry {
  pr_dba : Z;
  pr_dbau : Z;
  pr_reserved : Z;
  pr_dbc_flags : Z;
}.

Record CommandTable := mkCommandTable {
  ct_cfis : bytes;
  ct_acmd : bytes;
  ct_reserved : bytes;
  ct_prdt : PRDTEntry;
}.

(** [repr(C, align(32))]: 32 bytes. *)
Definition header_bytes (h : CommandHeader) : bytes :=
  le16 (ch_cfl_flags h) ++ le16 (ch_prdtl h) ++ to_le32 (ch_prdbc h)
  ++ to_le32 (ch_ctba h) ++ to_le32 (ch_ctbau h) ++ zeros 16.

Definition prdt_bytes (p : PRDTEntry) : bytes :=
  to_le32 (pr_dba p) ++ to_le32 (pr_dbau p) ++ to_le32 (pr_reserved p) ++ to_le32 (pr_dbc_flags p).

(** [repr(C, align(128))]: the entry of the region table is at offset 128. *)
Definition table_bytes (t : CommandTable) : bytes :=
  ct_cfis t ++ ct_acmd t ++ ct_reserved t ++ prdt_bytes (ct_prdt t).

(** ** The hardware as the driver uses it *)

Class HbaIo (P : Type) := {
  (** A 32-bit register at a byte offset of the controller's memory. *)
  mmio_read : Z -> P -> P * Z;
  mmio_write : Z -> Z -> P -> P;
  (** DMA memory at a physical address. *)
  mem_load : Z -> Z -> P -> bytes;
  mem_store : Z -> bytes -> P -> P;
}.

(** Ports are memory windows; [port.add(i)] is the register at [port + 4 * i]. *)
Definition PxCLB : Z := 0.
Definition PxCLBU : Z := 1.
Definition PxFB : Z := 2.
Definition PxFBU : Z := 3.
Definition PxIS : Z := 4.
Definition PxCMD : Z := 6.
Definition PxTFD : Z := 8.
Definition PxSIG : Z := 9.
Definition PxSSTS : Z := 10.
Definition PxSERR : Z := 12.
Definition PxCI : Z := 14.

Section driver.
Context {P : Type} `{HbaIo P}.

Definition rd (port i : Z) (p : P) : P * Z := mmio_read (port + 4 * i) p.
Definition wr (port i v : Z) (p : P) : P := mmio_write (port + 4 * i) v p.

(** [while port.add(i).read_volatile() & mask != 0 && timeout > 0 { timeout -= 1; .. }]:
    the count left. *)
Fixpoint wait_clear (port i mask : Z) (timeout : nat) (p : P) : P * nat :=
  let '(p, v) := rd port i p in
  if has v mask then
    match timeout with
    | O => (p, O)
    | S timeout => wait_clear port i mask timeout p
    end
  else (p, timeout).

Definition stop_port (port : Z) (p : P) : P :=
  let '(p, cmd) := rd port PxCMD p in
  let cmd := Z.ldiff cmd 1 in
  let cmd := Z.ldiff cmd (bit 4) in
  let p := wr port PxCMD cmd p in
  fst (wait_clear port PxCMD (Z.lor (bit 15) (bit 14)) 1000 p).

Definition start_port (port : Z) (p : P) : P :=
  let '(p, _) := wait_clear port PxCMD (bit 15) 1000 p in
  let '(p, cmd) := rd port PxCMD p in
  let cmd := Z.lor cmd (bit 4) in
  let p := wr port PxCMD cmd p in
  let cmd := Z.lor cmd 1 in
  wr port PxCMD cmd p.

(** The completion loop of [transfer_sectors]: [None] on a task file error, else the
    count left. *)
Fixpoint wait_command (port : Z) (timeout : nat) (p : P) : P * option nat :=
  let '(p, ci) := rd port PxCI p in
  if has ci 1 then
    match timeout with
    | O => (p, Some O)
    | S timeout =>
        let '(p, px_is) := rd port PxIS p in
        if has px_is (bit 30) then
          let '(p, _) := rd port PxIS p in
          let '(p, _) := rd port PxSERR p in
          let '(p, _) := rd port PxTFD p in
          (p, None)
        else wait_command port timeout p
    end
  else (p, Some timeout).

Definition command_header (ct_phys : Z) (is_write : bool) : CommandHeader :=
  mkCommandHeader (Z.lor 5 (if is_write then bit 6 else 0)) 1 0
    (as_u32 ct_phys) (as_u32 (Z.shiftr ct_phys 32)).

(** [(u32::from(count) * 512 - 1) & 0x3f_ffff], wrapping for a count of zero. *)
Definition transfer_prdt (data_phys count : Z) : PRDTEntry :=
  mkPRDTEntry (as_u32 data_phys) (as_u32 (Z.shiftr data_phys 32)) 0
    (Z.land (as_u32 (count * 512 - 1)) 0x3fffff).

Definition byte_of (v : Z) : byte := byte.of_Z v.

(** The H2D register FIS of a DMA command. *)
Definition transfer_cfis (lba count : Z) (is_write : bool) : bytes :=
  [byte_of 0x27; byte_of 0x80; byte_of (if is_write then 0x35 else 0x25); byte_of 0;
   byte_of (Z.land lba 0xff); byte_of (Z.land (Z.shiftr lba 8) 0xff);
   byte_of (Z.land (Z.shiftr lba 16) 0xff); byte_of 0x40;
   byte_of (Z.land (Z.shiftr lba 24) 0xff); byte_of (Z.land (Z.shiftr lba 32) 0xff);
   byte_of (Z.land (Z.shiftr lba 40) 0xff); byte_of 0;
   byte_of (Z.land count 0xff); byte_of (as_u8 (Z.shiftr count 8))] ++ zeros 50.

Definition transfer_table (data_phys lba count : Z) (is_write : bool) : CommandTable :=
  mkCommandTable (transfer_cfis lba count is_write) (zeros 16) (zeros 48)
    (transfer_prdt data_phys count).

(** [transfer_sectors]: [cl_ptr] is the command list, [ct_phys] the command table and
    [data_phys] the data buffer, by physical address; whether it returned [Ok(())]. *)
Definition transfer_sectors (port : Z) (cl_ptr : option Z) (ct_phys data_phys lba count : Z)
    (is_write : bool) (p : P) : P * bool :=
  match cl_ptr with
  | None => (p, false)
  | Some cl_ptr =>
      let '(p, wait) := wait_clear port PxTFD (Z.lor (bit 7) (bit 3)) (Z.to_nat 10000) p in
      if Nat.eqb wait 0 then let '(p, _) := rd port PxTFD p in (p, false) else
      let p := wr port PxIS 0xffffffff p in
      let p := wr port PxSERR 0xffffffff p in
      let p := mem_store ct_phys (table_bytes (transfer_table data_phys lba count is_write)) p in
      let p := mem_store cl_ptr (header_bytes (command_header ct_phys is_write)) p in
      let p := wr port PxCI 1 p in
      match wait_command port (if is_write then Z.to_nat 50000 else Z.to_nat 1000) p with
      | (p, None) => (p, false)
      | (p, Some O) =>
          let '(p, _) := rd port PxIS p in
          let '(p, _) := rd port PxTFD p in
          (p, false)
      | (p, Some _) => (p, true)
      end
  end.

(** ** IDENTIFY DEVICE *)

(** The completion loop: a task file error ends it with the count left. *)
Fixpoint wait_identify (port : Z) (timeout : nat) (p : P) : P * nat :=
  let '(p, ci) := rd port PxCI p in
  if has ci 1 then
    match timeout with
    | O => (p, O)
    | S timeout' =>
        let '(p, px_is) := rd port PxIS p in
        if has px_is (bit 30) then (p, timeout)
        else wait_identify port timeout' p
    end
  else (p, timeout).

(** Word [i] of the 256 words of identify data. *)
Definition word (data : bytes) (i : Z) : Z := le_combine (slice data (2 * i) (2 * i + 2)).

Definition lba48_supported (data : bytes) : bool := has (word data 83) (bit 10).

Definition identify_capacity (data : bytes) : Z :=
  if lba48_supported data then
    let low := Z.lor (word data 100) (as_u32 (Z.shiftl (word data 101) 16)) in
    let high := Z.lor (word data 102) (as_u32 (Z.shiftl (word data 103) 16)) in
    Z.lor (as_u64 (Z.shiftl high 32)) low
  else Z.lor (word data 60) (as_u32 (Z.shiftl (word data 61) 16)).

Definition is_ascii_graphic (b : Z) : bool := (33 <=? b) && (b <=? 126).

(** The characters of words [a..b]: big-endian bytes, a dot for what does not print. *)
Definition identify_string (data : bytes) (a b : Z) : list Z :=
  map (fun c => if is_ascii_graphic c || (c =? 32) then c else 46)
    (flat_map (fun i => let w := word data (Z.of_nat i) in [Z.shiftr w 8; Z.land w 0xff])
       (seq (Z.to_nat a) (Z.to_nat (b - a)))).

Record Identity := mkIdentity {
  id_serial : list Z;
  id_firmware : list Z;
  id_model : list Z;
  id_capacity : Z;
}.

Definition identify_table (data_phys : Z) : CommandTable :=
  mkCommandTable ([byte_of 0x27; byte_of 0x80; byte_of 0xec] ++ zeros 61) (zeros 16) (zeros 48)
    (mkPRDTEntry (as_u32 data_phys) (as_u32 (Z.shiftr data_phys 32)) 0 511).

(** [identify_device]: what it reports and stores in [SSD_SECTOR_COUNT], or [None] when
    it timed out.  The data buffer starts out zeroed. *)
Definition identify_device (port cl_ptr ct_phys data_phys : Z) (p : P) : P * option Identity :=
  let p := mem_store data_phys (zeros 512) p in
  let p := start_port port p in
  let p := mem_store ct_phys (table_bytes (identify_table data_phys)) p in
  let p := mem_store cl_ptr
    (header_bytes (mkCommandHeader 5 1 0 (as_u32 ct_phys) (as_u32 (Z.shiftr ct_phys 32)))) p in
  let p := wr port PxCI 1 p in
  let '(p, timeout) := wait_identify port 500 p in
  if Nat.eqb timeout 0 then (p, None) else
  let data := mem_load data_phys 512 p in
  (p, Some (mkIdentity (identify_string data 10 20) (identify_string data 23 27)
              (identify_string data 27 47) (identify_capacity data))).

(** ** Discovery *)

Inductive DeviceType := SATA | SATAPI | EnclosureManagementBridge | PortMultiplier | UnknownDevice.

Definition ahci_device_type (sig : Z) : DeviceType :=
  if (sig =? 0x00000101) || (sig =? 0x01010101) then SATA
  else if sig =? 0xeb140101 then SATAPI
  else if sig =? 0xc33c0101 then EnclosureManagementBridge
  else if sig =? 0x96690101 then PortMultiplier
  else UnknownDevice.

Definition is_unknown (t : DeviceType) : bool := match t with UnknownDevice => true | _ => false end.
Definition is_sata (t : DeviceType) : bool := match t with SATA => true | _ => false end.

(** [for _ in 0..n { udelay; ssts = ..; if ssts & 0xf == 3 { break } }]. *)
Fixpoint wait_detect (n : nat) (port ssts : Z) (p : P) : P * Z :=
  match n with
  | O => (p, ssts)
  | S n =>
      let '(p, ssts) := rd port PxSSTS p in
      if Z.land ssts 0xf =? 3 then (p, ssts) else wait_detect n port ssts p
  end.

Fixpoint wait_signature (n : nat) (port : Z) (t : DeviceType) (p : P) : P * DeviceType :=
  match n with
  | O => (p, t)
  | S n =>
      let '(p, sig) := rd port PxSIG p in
      let t := ahci_device_type sig in
      if is_unknown t then wait_signature n port t p else (p, t)
  end.

(** [for _ in 0..n { if GHC & 1 == 0 { break } .. }] after the reset. *)
Fixpoint wait_reset (n : nat) (p : P) : P :=
  match n with
  | O => p
  | S n =>
      let '(p, ghc) := mmio_read 4 p in
      if Z.land ghc 1 =? 0 then p else wait_reset n p
  end.

Definition enable_ahci (p : P) : P :=
  let '(p, ghc) := mmio_read 4 p in mmio_write 4 (Z.lor ghc (bit 31)) p.

(** The statics discovery fills in, and what it identified. *)
Record Found := mkFound {
  FIRST_SATA_PORT_OFF : option Z;
  FIRST_SATA_PORT_CL : option Z;
  FIRST_SATA_PORT_FIS : option Z;
  FOUND_SECTOR_COUNT : option Z;
}.

Definition NOT_FOUND : Found := mkFound None None None None.

(** The DMA allocations of discovery: command list, FIS area, command table, data. *)
Context (cl_phys fis_phys ct_phys data_phys : Z).

(** A SATA disk at the port the driver uses. *)
Definition attach_port (port : Z) (f : Found) (p : P) : P * Found :=
  let p := mem_store cl_phys (zeros 1024) p in
  let p := mem_store fis_phys (zeros 256) p in
  let p := stop_port port p in
  let p := wr port PxCLB (as_u32 cl_phys) p in
  let p := wr port PxCLBU (as_u32 (Z.shiftr cl_phys 32)) p in
  let p := wr port PxFB (as_u32 fis_phys) p in
  let p := wr port PxFBU (as_u32 (Z.shiftr fis_phys 32)) p in
  let p := start_port port p in
  let f := mkFound (once_set (FIRST_SATA_PORT_OFF f) port) (once_set (FIRST_SATA_PORT_CL f) cl_phys)
             (once_set (FIRST_SATA_PORT_FIS f) fis_phys) (FOUND_SECTOR_COUNT f) in
  match identify_device port cl_phys ct_phys data_phys p with
  | (p, None) => (p, f)
  | (p, Some id) =>
      (p, mkFound (FIRST_SATA_PORT_OFF f) (FIRST_SATA_PORT_CL f) (FIRST_SATA_PORT_FIS f)
            (once_set (FOUND_SECTOR_COUNT f) (id_capacity id)))
  end.

(** The body of the port loop of [enumerate_controller]. *)
Definition enumerate_port (i pi : Z) (f : Found) (p : P) : P * Found :=
  if Z.land pi (bit i) =? 0 then (p, f) else
  let port := 0x100 + i * 0x80 in
  let '(p, ssts) := rd port PxSSTS p in
  if Z.land ssts 0xf =? 0 then (p, f) else
  let '(p, cmd) := rd port PxCMD p in
  let p := wr port PxCMD (Z.lor cmd (Z.lor (bit 1) (bit 2))) p in
  let '(p, ssts) := rd port PxSSTS p in
  let '(p, ssts) := if negb (Z.land ssts 0xf =? 3) then wait_detect 100 port ssts p else (p, ssts) in
  if negb (Z.land ssts 0xf =? 3) then (p, f) else
  let '(p, cmd) := rd port PxCMD p in
  let cmd := Z.lor cmd (bit 4) in
  let p := wr port PxCMD cmd p in
  let p := wr port PxCMD (Z.lor cmd 1) p in
  let '(p, sig) := rd port PxSIG p in
  let t := ahci_device_type sig in
  let '(p, t) := if is_unknown t then wait_signature 500 port t p else (p, t) in
  if is_sata t && (i =? 2) then attach_port port f p else (p, f).

Fixpoint enumerate_ports (n : nat) (i pi : Z) (f : Found) (p : P) : P * Found :=
  match n with
  | O => (p, f)
  | S n => let '(p, f) := enumerate_port i pi f p in enumerate_ports n (i + 1) pi f p
  end.

(** [enumerate_controller] on a mapped controller, up to the model load that follows
    on the port found. *)
Definition enumerate_controller (f : Found) (p : P) : P * Found :=
  let p := enable_ahci p in
  let '(p, ghc) := mmio_read 4 p in
  let p := mmio_write 4 (Z.lor ghc 1) p in
  let p := wait_reset 1000 p in
  let p := enable_ahci p in
  let '(p, _) := mmio_read 0 p in
  let '(p, pi) := mmio_read 12 p in
  let '(p, _) := mmio_read 16 p in
  let '(p, _) := mmio_read 4 p in
  enumerate_ports 32 0 pi f p.
End driver.
