(* ===== verification/AhciPortTheorems.v ===== *)
(** * The AHCI port driver: theorems

    [Hba] is a controller with one disk, written from the AHCI 1.3 register
    interface and independent of the driver: it fetches the command header and table
    from memory, decodes the FIS and the region entry, and moves the data.  Against
    it the driver's transfers are exactly the disk's reads and writes. *)

From stdpp Require Import gmap.
From S2P Require Import Prelude BlockDevice AhciIo AhciPort.

(** ** Memory *)

Definition memory : Type := Z -> byte.
Definition load (a n : Z) (m : memory) : bytes := (fun i => m (a + Z.of_nat i)) <$> seq 0 (Z.to_nat n).
Definition store (a : Z) (b : bytes) (m : memory) : memory := fun x =>
  if (a <=? x) && (x <? a + zlen b) then nth (Z.to_nat (x - a)) b Byte.x00 else m x.

Lemma zlen_load a n m : 0 <= n -> zlen (load a n m) = n.
Proof. intros. unfold load, zlen. rewrite length_fmap, length_seq. lia. Qed.

Lemma load_store a b m n : n = zlen b -> load a n (store a b m) = b.
Proof.
  intros ->. apply list_eq_same_length with (n := length b); [done| |].
  - unfold load, zlen. by rewrite length_fmap, length_seq, Nat2Z.id.
  - intros i x y Hi Hx Hy. unfold load in Hx. apply list_lookup_fmap_Some in Hx as (j & -> & Hj).
    apply lookup_seq in Hj as [-> ?]. unfold store, zlen in *. cbn [Nat.add].
    assert ((a <=? a + Z.of_nat i) && (a + Z.of_nat i <? a + Z.of_nat (length b)) = true) as -> by lia.
    replace (Z.to_nat (a + Z.of_nat i - a)) with i by lia.
    by apply nth_lookup_Some with (d := Byte.x00) in Hy.
Qed.

Lemma load_store_other a n a' b m :
  0 <= n -> a + n <= a' \/ a' + zlen b <= a -> load a n (store a' b m) = load a n m.
Proof.
  intros Hn Hd. unfold load. apply list_fmap_ext. intros i x Hi. apply lookup_seq in Hi as [-> ?].
  unfold store. pose proof (zlen_nonneg b). cbn [Nat.add].
  by assert ((a' <=? a + Z.of_nat i) && (a + Z.of_nat i <? a' + zlen b) = false) as -> by lia.
Qed.

(** ** The controller

    For one command at a time.  After a task-file error a real controller also stops until
    [PxCMD.ST] is cleared and set again, which is not modelled: the theorems are about a
    single transfer. *)

Record Hba (D : Type) := mkHba {
  hb_disk : D;
  hb_mem : memory;
  hb_clb : Z;            (* command list base *)
  hb_busy : nat;         (* polls of PxTFD that still show the port busy *)
  hb_latency : nat;      (* polls of PxCI before a command shows as complete *)
  hb_pending : option nat;
  hb_error : bool;       (* PxIS.TFES *)
}.
Arguments mkHba {D}.
Arguments hb_disk {D}.
Arguments hb_mem {D}.
Arguments hb_clb {D}.
Arguments hb_busy {D}.
Arguments hb_latency {D}.
Arguments hb_pending {D}.
Arguments hb_error {D}.

Inductive Command := ReadDma (addr lba count : Z) | WriteDma (addr lba count : Z).

Definition nb (b : bytes) (i : Z) : Z := bz (nth (Z.to_nat i) b Byte.x00).

(** The command table named by the header in slot 0, and its direction. *)
Definition fetch_header (h : bytes) : option (Z * bool) :=
  let flags := le_combine (slice h 0 2) in
  if (Z.land flags 31 =? 5) && (le_combine (slice h 2 4) =? 1) then
    Some (le_combine (slice h 8 12) + 2 ^ 32 * le_combine (slice h 12 16), Z.testbit flags 6)
  else None.

(** Sectors of a 48-bit command: zero stands for 65536. *)
Definition ata_count (c : Z) : Z := if c =? 0 then 65536 else c.

(** The command of a table: a register FIS with a region that matches its count. *)
Definition fetch_command (t : bytes) (write : bool) : option Command :=
  let lba := le_combine (slice t 4 7 ++ slice t 8 11) in
  let count := ata_count (le_combine (slice t 12 14)) in
  let addr := le_combine (slice t 128 132) + 2 ^ 32 * le_combine (slice t 132 136) in
  let len := Z.land (le_combine (slice t 140 144)) 0x3fffff + 1 in
  if (nb t 0 =? 0x27) && (nb t 1 =? 0x80) && (nb t 7 =? 0x40) && (len =? count * 512) then
    if (nb t 2 =? 0x25) && negb write then Some (ReadDma addr lba count)
    else if (nb t 2 =? 0x35) && write then Some (WriteDma addr lba count)
    else None
  else None.

Section controller.
Context {D : Type} `{BlockDev D} (port : Z).

Definition hb_finish (d : D) (m : memory) (ok : bool) (h : Hba D) : Hba D :=
  mkHba d m (hb_clb h) (hb_busy h) (hb_latency h) (Some (hb_latency h)) (negb ok).

(** A write to PxCI: fetch and run the command in slot 0. *)
Definition hb_issue (h : Hba D) : Hba D :=
  match fetch_header (load (hb_clb h) 32 (hb_mem h)) with
  | None => hb_finish (hb_disk h) (hb_mem h) false h
  | Some (ctba, write) =>
      match fetch_command (load ctba 144 (hb_mem h)) write with
      | None => hb_finish (hb_disk h) (hb_mem h) false h
      | Some (ReadDma addr lba count) =>
          match bd_read (hb_disk h) lba count with
          | (d, Some b) => hb_finish d (store addr b (hb_mem h)) true h
          | (d, None) => hb_finish d (hb_mem h) false h
          end
      | Some (WriteDma addr lba count) =>
          let '(d, ok) := bd_write (hb_disk h) lba count (load addr (count * 512) (hb_mem h)) in
          hb_finish d (hb_mem h) ok h
      end
  end.

(** Reads of the registers the driver polls; a failed command stays outstanding. *)
Definition hb_read (off : Z) (h : Hba D) : Hba D * Z :=
  if off =? port + 4 * PxTFD then
    match hb_busy h with
    | O => (h, 0x50)
    | S n => (mkHba (hb_disk h) (hb_mem h) (hb_clb h) n (hb_latency h) (hb_pending h) (hb_error h), 0xd0)
    end
  else if off =? port + 4 * PxIS then (h, if hb_error h then bit 30 else 0)
  else if off =? port + 4 * PxCI then
    if hb_error h then (h, 1) else
    match hb_pending h with
    | None => (h, 0)
    | Some O => (mkHba (hb_disk h) (hb_mem h) (hb_clb h) (hb_busy h) (hb_latency h) None false, 0)
    | Some (S n) => (mkHba (hb_disk h) (hb_mem h) (hb_clb h) (hb_busy h) (hb_latency h) (Some n) false, 1)
    end
  else (h, 0).

Definition hb_write (off v : Z) (h : Hba D) : Hba D :=
  if (off =? port + 4 * PxCI) && Z.testbit v 0 then hb_issue h else h.

Definition hb_store (a : Z) (b : bytes) (h : Hba D) : Hba D :=
  mkHba (hb_disk h) (store a b (hb_mem h)) (hb_clb h) (hb_busy h) (hb_latency h) (hb_pending h) (hb_error h).

#[local] Instance Hba_io : HbaIo (Hba D) := {
  mmio_read := hb_read;
  mmio_write := hb_write;
  mem_load := fun a n h => load a n (hb_mem h);
  mem_store := hb_store;
}.
End controller.

(** ** What the driver builds is what the controller fetches *)

Lemma byte_of_mod v w : v mod 256 = w mod 256 -> byte_of v = byte_of w.
Proof. intros Hm. apply byte.unsigned_inj. unfold byte_of. by rewrite !byte.unsigned_of_Z. Qed.

Lemma byte_of_land v : byte_of (Z.land v 0xff) = byte_of v.
Proof.
  apply byte_of_mod. change 0xff with (Z.ones 8). rewrite Z.land_ones by lia. apply Z.mod_mod. lia.
Qed.

Lemma byte_of_u8 v : byte_of (as_u8 v) = byte_of v.
Proof. apply byte_of_mod. apply Z.mod_mod. lia. Qed.

Lemma le_combine_split_small n v : 0 <= v < 2 ^ (8 * Z.of_nat n) -> le_combine (le_split n v) = v.
Proof. intros Hv. rewrite le_combine_split. apply Z.mod_small. by rewrite Z.mul_comm. Qed.

(** A 64-bit address is stored as two 32-bit halves. *)
Lemma address_halves a :
  u64 a ->
  le_combine (to_le32 (as_u32 a)) + 2 ^ 32 * le_combine (to_le32 (as_u32 (Z.shiftr a 32))) = a.
Proof.
  intros Ha. unfold as_u32. rewrite Z.shiftr_div_pow2 by lia. change (2 ^ 32) with 4294967296.
  pose proof (Z.div_mod a 4294967296 ltac:(done)).
  assert (0 <= a / 4294967296 < 4294967296) by (split; [apply Z.div_pos|apply Z.div_lt_upper_bound]; ulia).
  rewrite !le_combine_to_le32 by (unfold u32, U32_MAX;
    match goal with |- _ <= ?x mod ?m <= _ => pose proof (Z.mod_pos_bound x m ltac:(done)); lia end).
  rewrite (Z.mod_small (a / _)) by lia. lia.
Qed.

Lemma fetch_header_command ct_phys w :
  u64 ct_phys -> fetch_header (header_bytes (command_header ct_phys w)) = Some (ct_phys, w).
Proof.
  intros Hc. unfold fetch_header.
  change (slice (header_bytes (command_header ct_phys w)) 8 12) with (to_le32 (as_u32 ct_phys)).
  change (slice (header_bytes (command_header ct_phys w)) 12 16)
    with (to_le32 (as_u32 (Z.shiftr ct_phys 32))).
  rewrite address_halves by done. by destruct w.
Qed.

(** The six LBA bytes of the FIS, split around the device byte. *)
Lemma cfis_lba lba count w :
  slice (transfer_cfis lba count w) 4 7 ++ slice (transfer_cfis lba count w) 8 11 = le_split 6 lba.
Proof.
  unfold transfer_cfis. rewrite !byte_of_land.
  transitivity [byte_of lba; byte_of (Z.shiftr lba 8); byte_of (Z.shiftr lba 16); byte_of (Z.shiftr lba 24);
    byte_of (Z.shiftr lba 32); byte_of (Z.shiftr lba 40)]; [reflexivity|]. unfold le_split.
  rewrite !Z.shiftr_shiftr by lia. reflexivity.
Qed.

Lemma cfis_count lba count w : slice (transfer_cfis lba count w) 12 14 = le_split 2 count.
Proof. unfold transfer_cfis. rewrite !byte_of_land, byte_of_u8. done. Qed.

(** One region entry covers at most 4 MiB. *)
Lemma prdt_length data_phys count :
  0 < count <= 8192 -> Z.land (pr_dbc_flags (transfer_prdt data_phys count)) 0x3fffff + 1 = count * 512.
Proof.
  intros Hc. cbn [pr_dbc_flags transfer_prdt]. change 0x3fffff with (Z.ones 22).
  rewrite !Z.land_ones by lia. unfold as_u32. change (2 ^ 22) with 4194304.
  rewrite (Z.mod_small (count * 512 - 1)) by lia. rewrite Z.mod_mod by lia. rewrite Z.mod_small; lia.
Qed.

Definition request (addr lba count : Z) (write : bool) : Command :=
  if write then WriteDma addr lba count else ReadDma addr lba count.

Lemma fetch_command_transfer data_phys lba count w :
  u64 data_phys -> 0 <= lba < 2 ^ 48 -> 0 < count <= 8192 ->
  fetch_command (table_bytes (transfer_table data_phys lba count w)) w
  = Some (request data_phys lba count w).
Proof.
  intros Hd Hl Hc. unfold fetch_command. set (t := table_bytes _).
  change (slice t 4 7 ++ slice t 8 11)
    with (slice (transfer_cfis lba count w) 4 7 ++ slice (transfer_cfis lba count w) 8 11).
  change (slice t 12 14) with (slice (transfer_cfis lba count w) 12 14).
  change (slice t 128 132) with (to_le32 (as_u32 data_phys)).
  change (slice t 132 136) with (to_le32 (as_u32 (Z.shiftr data_phys 32))).
  change (slice t 140 144) with (to_le32 (pr_dbc_flags (transfer_prdt data_phys count))).
  rewrite cfis_lba, cfis_count, address_halves, !le_combine_split_small by (done || lia).
  rewrite le_combine_to_le32.
  2: { cbn [pr_dbc_flags transfer_prdt]. change 0x3fffff with (Z.ones 22). rewrite Z.land_ones by lia.
       pose proof (Z.mod_pos_bound (as_u32 (count * 512 - 1)) (2 ^ 22) ltac:(done)). split; [lia|].
       unfold U32_MAX. change (2 ^ 22) with 4194304 in *. lia. }
  rewrite prdt_length by done. unfold ata_count. guard_false (count =? 0). rewrite (Z.eqb_refl (count * 512)).
  change (nb t 0) with 0x27. change (nb t 1) with 0x80. change (nb t 7) with 0x40.
  change (nb t 2) with (bz (byte_of (if w then 0x35 else 0x25))).
  destruct w; reflexivity.
Qed.

Lemma zlen_header_bytes h : zlen (header_bytes h) = 32.
Proof. done. Qed.

Lemma zlen_table_bytes data_phys lba count w : zlen (table_bytes (transfer_table data_phys lba count w)) = 144.
Proof. done. Qed.

(** ** Waiting *)

Section transfers.
Context {D : Type} `{BlockDev D} (port : Z).
Implicit Types (h : Hba D).
#[local] Instance io : HbaIo (Hba D) := Hba_io port.

Definition ready h : Hba D :=
  mkHba (hb_disk h) (hb_mem h) (hb_clb h) 0 (hb_latency h) (hb_pending h) (hb_error h).

Ltac port_reg := unfold rd, mmio_read, io, Hba_io, hb_read, PxTFD, PxIS, PxCI, PxSERR;
  repeat match goal with |- context [port + ?a =? port + ?b] =>
    first [replace (port + a =? port + b) with true by lia|replace (port + a =? port + b) with false by lia] end.

Lemma wait_ready n h :
  (hb_busy h <= n)%nat ->
  wait_clear port PxTFD (Z.lor (bit 7) (bit 3)) n h = (ready h, (n - hb_busy h)%nat).
Proof.
  revert h. induction n as [|n IH]; intros [d m clb b lat pend err] Hb; cbn [hb_busy] in *.
  - destruct b; [|lia]. cbn [wait_clear]. port_reg. done.
  - cbn [wait_clear]. port_reg. cbn [hb_busy]. destruct b as [|b]; [done|].
    change (has 0xd0 (Z.lor (bit 7) (bit 3))) with true. cbn iota.
    rewrite IH by (cbn; lia). done.
Qed.

Definition done_command h : Hba D :=
  mkHba (hb_disk h) (hb_mem h) (hb_clb h) (hb_busy h) (hb_latency h) None false.

Lemma wait_done n l h :
  hb_error h = false -> hb_pending h = Some l -> (l <= n)%nat ->
  wait_command port n h = (done_command h, Some (n - l)%nat).
Proof.
  revert l h. induction n as [|n IH]; intros l [d m clb b lat pend err] He Hp Hl; cbn in He, Hp; subst err pend.
  - destruct l; [|lia]. cbn [wait_command]. port_reg. done.
  - cbn [wait_command]. port_reg. cbn [hb_error hb_pending]. destruct l as [|l]; [done|].
    change (has 1 1) with true. cbn iota. port_reg. cbn [hb_error].
    change (has 0 (bit 30)) with false. cbn iota. rewrite (IH l) by (done || lia). done.
Qed.

Lemma wait_failed n h :
  hb_error h = true -> wait_command port (S n) h
    = (if Nat.eqb (hb_busy h) 0 then h
       else mkHba (hb_disk h) (hb_mem h) (hb_clb h) (pred (hb_busy h)) (hb_latency h) (hb_pending h) true, None).
Proof.
  destruct h as [d m clb b lat pend err]. cbn. intros ->. port_reg. cbn [hb_error].
  change (has 1 1) with true. cbn iota. port_reg. cbn [hb_error].
  change (has (bit 30) (bit 30)) with true. cbn iota. port_reg. cbn [hb_error hb_busy]. by destruct b.
Qed.

(** Memory areas that do not overlap. *)
Definition apart (a n b k : Z) : Prop := a + n <= b \/ b + k <= a.

(** The memory when the command is issued. *)
Definition staged cl_ptr ct_phys data_phys lba count w (m : memory) : memory :=
  store cl_ptr (header_bytes (command_header ct_phys w))
    (store ct_phys (table_bytes (transfer_table data_phys lba count w)) m).

Definition time_limit (w : bool) : nat := if w then Z.to_nat 50000 else Z.to_nat 1000.

(** The state right after the command was issued: what the disk did. *)
Definition moved (data_phys lba count : Z) (w : bool) (m : memory) h : Hba D * bool :=
  if w then
    let '(d, ok) := bd_write (hb_disk h) lba count (load data_phys (count * 512) (hb_mem h)) in
    (hb_finish d m ok h, ok)
  else
    match bd_read (hb_disk h) lba count with
    | (d, Some b) => (hb_finish d (store data_phys b m) true h, true)
    | (d, None) => (hb_finish d m false h, false)
    end.

Lemma issue_moves cl_ptr ct_phys data_phys lba count w h :
  hb_clb h = cl_ptr -> u64 ct_phys -> u64 data_phys -> 0 <= lba < 2 ^ 48 -> 0 < count <= 8192 ->
  apart cl_ptr 32 ct_phys 144 -> apart data_phys (count * 512) cl_ptr 32 ->
  apart data_phys (count * 512) ct_phys 144 ->
  let m := staged cl_ptr ct_phys data_phys lba count w (hb_mem h) in
  hb_issue (mkHba (hb_disk h) m (hb_clb h) (hb_busy h) (hb_latency h) (hb_pending h) (hb_error h))
  = fst (moved data_phys lba count w m h).
Proof.
  intros Hcl Hct Hdata Hlba Hcount Ha Hb Hc m. unfold hb_issue. cbn [hb_clb hb_mem hb_disk].
  rewrite Hcl. unfold m at 1, staged at 1. rewrite load_store by done.
  rewrite fetch_header_command by done.
  assert (load ct_phys 144 m = table_bytes (transfer_table data_phys lba count w)) as ->.
  { unfold m, staged. rewrite load_store_other; [by apply load_store|lia|].
    rewrite zlen_header_bytes. unfold apart in Ha. lia. }
  rewrite fetch_command_transfer by done. unfold moved, request. destruct w.
  - assert (load data_phys (count * 512) m = load data_phys (count * 512) (hb_mem h)) as ->.
    { unfold m, staged. rewrite !load_store_other; try done; try lia;
        rewrite ?zlen_header_bytes, ?zlen_table_bytes; done. }
    destruct (bd_write _ _ _ _) as [d ok]. unfold hb_finish. cbn. by rewrite Hcl.
  - destruct (bd_read _ _ _) as [d [b|]]; unfold hb_finish; cbn; by rewrite Hcl.
Qed.

Lemma transfer_runs cl_ptr ct_phys data_phys lba count w h :
  hb_clb h = cl_ptr -> u64 ct_phys -> u64 data_phys -> 0 <= lba < 2 ^ 48 -> 0 < count <= 8192 ->
  apart cl_ptr 32 ct_phys 144 -> apart data_phys (count * 512) cl_ptr 32 ->
  apart data_phys (count * 512) ct_phys 144 ->
  (hb_busy h < Z.to_nat 10000)%nat -> (hb_latency h < time_limit w)%nat ->
  let m := staged cl_ptr ct_phys data_phys lba count w (hb_mem h) in
  let '(h1, ok) := moved data_phys lba count w m (ready h) in
  transfer_sectors port (Some cl_ptr) ct_phys data_phys lba count w h
  = (if ok then done_command h1 else h1, ok).
Proof.
  intros Hcl Hct Hdata Hlba Hcount Ha Hb Hc Hbusy Hlat m.
  pose proof (issue_moves cl_ptr ct_phys data_phys lba count w (ready h) Hcl Hct Hdata Hlba Hcount Ha Hb Hc) as Hmv.
  cbn zeta in Hmv. fold m in Hmv. change (hb_mem (ready h)) with (hb_mem h) in Hmv. fold m in Hmv.
  unfold transfer_sectors. rewrite wait_ready by lia.
  replace (Nat.eqb _ 0) with false by (symmetry; apply Nat.eqb_neq; lia).
  set (h0 := wr port PxCI 1 _).
  assert (h0 = fst (moved data_phys lba count w m (ready h))) as ->.
  { rewrite <- Hmv. unfold h0, wr, mmio_write, mem_store, io, Hba_io, hb_write, PxIS, PxSERR, PxCI.
    replace (port + 4 * 14 =? port + 4 * 14) with true by lia.
    replace (port + 4 * 12 =? port + 4 * 14) with false by lia.
    replace (port + 4 * 4 =? port + 4 * 14) with false by lia. reflexivity. }
  change (if w then Z.to_nat 50000 else Z.to_nat 1000) with (time_limit w). clear Hmv.
  assert (forall h1 d m1 ok, h1 = hb_finish d m1 ok (ready h) ->
    match wait_command port (time_limit w) h1 with
    | (p, None) => (p, false)
    | (p, Some O) => let '(p, _) := rd port PxIS p in let '(p, _) := rd port PxTFD p in (p, false)
    | (p, Some _) => (p, true)
    end = (if ok then done_command h1 else h1, ok)) as Hwait.
  { intros h1 d m1 ok ->. destruct ok.
    - rewrite (wait_done _ (hb_latency h)) by (done || lia).
      destruct (time_limit w - hb_latency h)%nat eqn:E; [lia|done].
    - assert (exists n, time_limit w = S n) as [n ->].
      { destruct (time_limit w); [lia|eauto]. }
      rewrite wait_failed by done. done. }
  unfold moved. destruct w.
  - destruct (bd_write _ _ _ _) as [d ok]. cbn [fst]. by apply (Hwait _ d m).
  - destruct (bd_read _ _ _) as [d [b|]]; cbn [fst].
    + by apply (Hwait _ d (store data_phys b m) true).
    + by apply (Hwait _ d m false).
Qed.
End transfers.

(** C18: a transfer is exactly the disk's.  For an address below 2^48 and up to 8192
    sectors, with the command list, command table and data buffer apart in memory and
    a controller that answers within the driver's time limits, [transfer_sectors]
    performs the one disk operation asked for: a read fills the buffer with what the
    disk returned, a write hands it the buffer's bytes, and the result is [Ok] exactly
    when the disk's is. *)
Theorem transfer_sectors_exact {D} `{BlockDev D} port cl_ptr ct_phys data_phys lba count w (h : Hba D) :
  hb_clb h = cl_ptr -> u64 ct_phys -> u64 data_phys -> 0 <= lba < 2 ^ 48 -> 0 < count <= 8192 ->
  apart cl_ptr 32 ct_phys 144 -> apart data_phys (count * 512) cl_ptr 32 ->
  apart data_phys (count * 512) ct_phys 144 ->
  (hb_busy h < Z.to_nat 10000)%nat -> (hb_latency h < time_limit w)%nat ->
  let '(h', ok) := transfer_sectors (H := Hba_io port) port (Some cl_ptr) ct_phys data_phys lba count w h in
  if w then bd_write (hb_disk h) lba count (load data_phys (count * 512) (hb_mem h)) = (hb_disk h', ok)
  else match bd_read (hb_disk h) lba count with
       | (d, Some b) => ok = true /\ hb_disk h' = d /\ load data_phys (zlen b) (hb_mem h') = b
       | (d, None) => ok = false /\ hb_disk h' = d
       end.
Proof.
  intros Hcl Hct Hdata Hlba Hcount Ha Hb Hc Hbusy Hlat.
  pose proof (transfer_runs port cl_ptr ct_phys data_phys lba count w h Hcl Hct Hdata Hlba Hcount
    Ha Hb Hc Hbusy Hlat) as Hrun.
  cbn zeta in Hrun. unfold moved in Hrun. destruct w.
  - change (hb_disk (ready h)) with (hb_disk h) in Hrun. change (hb_mem (ready h)) with (hb_mem h) in Hrun.
    destruct (bd_write _ _ _ _) as [d ok]. unfold io in Hrun. rewrite Hrun. by destruct ok.
  - change (hb_disk (ready h)) with (hb_disk h) in Hrun.
    destruct (bd_read _ _ _) as [d [b|]]; unfold io in Hrun; rewrite Hrun; [|done].
    split_and!; [done|done|]. by apply load_store.
Qed.

(** ** IDENTIFY DEVICE *)

Lemma slice_slice {A} (l : list A) a b c :
  0 <= a <= b -> b <= c -> slice l a c = slice l a b ++ slice l b c.
Proof.
  intros Hab Hbc. unfold slice. rewrite <- (ztake_zdrop (b - a) (ztake (c - a) (zdrop a l))).
  rewrite ztake_ztake, zdrop_ztake, zdrop_zdrop by lia. f_equal; [f_equal; lia|]. f_equal; [lia|]. f_equal. lia.
Qed.

(** Two adjacent little-endian fields of [k] bytes, joined by shift and or. *)
Lemma le_combine_join (l : bytes) a k :
  0 <= a -> 0 <= k -> a + 2 * k <= zlen l ->
  Z.lor (le_combine (slice l a (a + k))) (Z.shiftl (le_combine (slice l (a + k) (a + 2 * k))) (8 * k))
  = le_combine (slice l a (a + 2 * k)).
Proof.
  intros Ha Hk Hl. rewrite (slice_slice l a (a + k) (a + 2 * k)) by lia. rewrite le_combine_app. do 2 f_equal.
  pose proof (zlen_slice l a (a + k) ltac:(lia) ltac:(lia)) as Hz. unfold zlen in Hz. lia.
Qed.

Lemma le_combine_slice_bound (l : bytes) a k :
  0 <= a -> 0 <= k -> a + k <= zlen l -> 0 <= le_combine (slice l a (a + k)) < 2 ^ (8 * k).
Proof.
  intros Ha Hk Hl. pose proof (le_combine_bound (slice l a (a + k))) as Hb.
  pose proof (zlen_slice l a (a + k) ltac:(lia) ltac:(lia)) as Hz. unfold zlen in Hz.
  by replace (Z.of_nat (length (slice l a (a + k)))) with k in Hb by lia.
Qed.

Lemma word_pair data i :
  0 <= i -> 2 * i + 4 <= zlen data ->
  Z.lor (word data i) (as_u32 (Z.shiftl (word data (i + 1)) 16)) = le_combine (slice data (2 * i) (2 * i + 4)).
Proof.
  intros Hi Hl. change 4 with (2 * 2). rewrite <- (le_combine_join data (2 * i) 2) by lia. unfold word. f_equal.
  replace (2 * (i + 1)) with (2 * i + 2) by lia. change (8 * 2) with 16.
  replace (2 * i + 2 * 2) with (2 * i + 2 + 2) by lia.
  pose proof (le_combine_slice_bound data (2 * i + 2) 2 ltac:(lia) ltac:(lia) ltac:(lia)) as Hb.
  change (2 ^ (8 * 2)) with 65536 in Hb. unfold as_u32. apply Z.mod_small.
  rewrite Z.shiftl_mul_pow2 by lia. change (2 ^ 16) with 65536. lia.
Qed.

(** The capacity is the one the disk reports: with 48-bit addressing the 64-bit
    little-endian count in words 100 to 103 of the identify data, otherwise the 32-bit
    count in words 60 and 61. *)
Theorem identify_capacity_exact data :
  zlen data = 512 ->
  identify_capacity data
  = if lba48_supported data then le_combine (slice data 200 208) else le_combine (slice data 120 124).
Proof.
  intros Hl. unfold identify_capacity. change 101 with (100 + 1). change 103 with (102 + 1). change 61 with (60 + 1).
  rewrite (word_pair data 100), (word_pair data 102), (word_pair data 60) by lia.
  destruct (lba48_supported data); [|done].
  change 208 with (200 + 2 * 4). rewrite <- (le_combine_join data 200 4) by lia. rewrite Z.lor_comm. f_equal.
  pose proof (le_combine_slice_bound data 204 4 ltac:(lia) ltac:(lia) ltac:(lia)) as Hb.
  change (2 ^ (8 * 4)) with 4294967296 in Hb. unfold as_u64. apply Z.mod_small.
  rewrite Z.shiftl_mul_pow2 by lia. change (2 ^ (8 * 4)) with 4294967296.
  change (slice data (200 + 4) (200 + 2 * 4)) with (slice data 204 (204 + 4)). lia.
Qed.

Lemma wait_clear_now {P} `{HbaIo P} port i mask n (g : P) v :
  rd port i g = (g, v) -> has v mask = false -> wait_clear port i mask n g = (g, n).
Proof. intros Hr Hv. by destruct n; cbn [wait_clear]; rewrite Hr, Hv. Qed.

Lemma wait_identify_error {P} `{HbaIo P} port n (g : P) ci px_is :
  rd port PxCI g = (g, ci) -> has ci 1 = true -> rd port PxIS g = (g, px_is) -> has px_is (bit 30) = true ->
  wait_identify port (S n) g = (g, S n).
Proof. intros Hr Hv Hi Hw. cbn [wait_identify]. by rewrite Hr, Hv, Hi, Hw. Qed.

(** A failed identification leaves the driver with a disk of no sectors.  When
    the controller answers IDENTIFY DEVICE with a task file error, [identify_device]
    only leaves its wait loop and goes on to decode the zeroed buffer: it reports a
    capacity of zero, which [attach_port] then stores for good. *)
Theorem identify_error_zero_capacity {D} `{BlockDev D} port ct_phys data_phys (h : Hba D) :
  u64 ct_phys -> apart (hb_clb h) 32 ct_phys 144 ->
  apart data_phys 512 (hb_clb h) 32 -> apart data_phys 512 ct_phys 144 ->
  exists h' id, identify_device (H := Hba_io port) port (hb_clb h) ct_phys data_phys h = (h', Some id) /\
    hb_error h' = true /\ id_capacity id = 0.
Proof.
  intros Hct Ha Hb Hc. unfold identify_device. set (io := Hba_io port).
  set (h0 := mem_store data_phys (zeros 512) h).
  assert (forall i g, i <> PxTFD -> i <> PxIS -> i <> PxCI -> rd port i g = (g, 0)) as Hrd.
  { intros i g ???. unfold rd, mmio_read, io, Hba_io, hb_read.
    by rewrite !(proj2 (Z.eqb_neq _ _)) by (unfold PxTFD, PxIS, PxCI in *; lia). }
  assert (forall i v g, i <> PxCI -> wr port i v g = g) as Hwr.
  { intros i v g ?. unfold wr, mmio_write, io, Hba_io, hb_write.
    by rewrite (proj2 (Z.eqb_neq _ _)) by (unfold PxCI in *; lia). }
  assert (start_port port h0 = h0) as ->.
  { unfold start_port. rewrite (wait_clear_now _ _ _ _ _ 0) by (done || by apply Hrd). by rewrite Hrd, !Hwr by done. }
  set (m := store (hb_clb h) (header_bytes (mkCommandHeader 5 1 0 (as_u32 ct_phys) (as_u32 (Z.shiftr ct_phys 32))))
    (store ct_phys (table_bytes (identify_table data_phys)) (hb_mem h0))).
  assert (wr port PxCI 1 (mem_store (hb_clb h)
      (header_bytes (mkCommandHeader 5 1 0 (as_u32 ct_phys) (as_u32 (Z.shiftr ct_phys 32))))
      (mem_store ct_phys (table_bytes (identify_table data_phys)) h0)) = hb_finish (hb_disk h) m false h) as ->.
  { unfold wr, mmio_write, io, Hba_io, hb_write. rewrite Z.eqb_refl. cbn [andb Z.testbit].
    unfold hb_issue. cbn [hb_clb hb_mem mem_store hb_store h0]. fold (hb_mem h0). fold m.
    unfold m at 1. rewrite load_store by done.
    change (fetch_header _) with (fetch_header (header_bytes (command_header ct_phys false))).
    rewrite fetch_header_command by done. unfold m at 1.
    rewrite load_store_other, load_store by (done || lia || (rewrite zlen_header_bytes; unfold apart in *; lia)).
    done. }
  set (h1 := hb_finish _ _ _ _). change 500%nat with (S 499).
  rewrite (wait_identify_error _ _ _ 1 (bit 30)).
  - eexists _, _. split; [reflexivity|]. split; [reflexivity|]. cbn [id_capacity].
    assert (mem_load data_phys 512 h1 = zeros 512) as ->; [|reflexivity].
    cbn [mem_load io Hba_io h1 hb_finish hb_mem]. unfold m.
    rewrite !load_store_other by (lia || done || (rewrite zlen_header_bytes; unfold apart in *; lia)).
    by apply load_store.
  - unfold rd, mmio_read, io, Hba_io, hb_read, PxTFD, PxIS, PxCI.
    by rewrite !(proj2 (Z.eqb_neq _ _)), Z.eqb_refl by lia.
  - done.
  - unfold rd, mmio_read, io, Hba_io, hb_read, PxTFD, PxIS, PxCI.
    by rewrite !(proj2 (Z.eqb_neq _ _)), Z.eqb_refl by lia.
  - done.
Qed.

(** ** Witnesses *)

Module PortDemo.
(** A disk of 1000 zeroed sectors behind a controller that is busy for two polls and
    needs three to complete a command. *)
Definition hba : Hba MemDisk :=
  mkHba (mkMemDisk 1000 ∅ None 0) (fun _ => Byte.x2a) 4096 2 3 None false.

(** Identify data of a disk with 48-bit addressing and 2^33 + 5 sectors. *)
Definition identify_data : bytes :=
  zeros 166 ++ [Byte.x00; Byte.x04] ++ zeros 32 ++ [Byte.x05; Byte.x00; Byte.x00; Byte.x00; Byte.x02] ++ zeros 307.
End PortDemo.

Lemma transfer_sectors_exact_witness :
  let '(h', ok) := transfer_sectors (H := Hba_io 0x200) 0x200 (Some 4096) 8192 65536 7 2 false PortDemo.hba in
  match bd_read (hb_disk PortDemo.hba) 7 2 with
  | (d, Some b) => ok = true /\ hb_disk h' = d /\ load 65536 (zlen b) (hb_mem h') = b
  | (d, None) => ok = false /\ hb_disk h' = d
  end.
Proof.
  apply (transfer_sectors_exact 0x200 4096 8192 65536 7 2 false PortDemo.hba);
    unfold apart, u64, U64_MAX; cbn [PortDemo.hba hb_clb hb_busy hb_latency]; try lia; try reflexivity.
  unfold time_limit. lia.
Defined.

Lemma identify_capacity_exact_witness :
  identify_capacity PortDemo.identify_data = 8589934597.
Proof.
  rewrite (identify_capacity_exact PortDemo.identify_data) by (vm_compute; reflexivity).
  vm_compute. reflexivity.
Defined.

Lemma identify_error_zero_capacity_witness :
  exists h' id, identify_device (H := Hba_io 0x200) 0x200 4096 8192 65536 PortDemo.hba = (h', Some id) /\
    hb_error h' = true /\ id_capacity id = 0.
Proof.
  apply (identify_error_zero_capacity 0x200 8192 65536 PortDemo.hba);
    unfold apart, u64, U64_MAX; cbn [PortDemo.hba hb_clb]; lia.
Defined.
