(* ===== verification/UsbRing.v ===== *)
(** * TRB rings of the xHCI driver: operations

    usb-oxide/src/ring.rs: transfer request blocks, the transfer and command ring the
    driver fills, the event ring it drains, and the DMA memory they live in.  The host
    (memory, registers, allocation) is behind [XhcIo], the [Dma] trait of
    usb-oxide/src/ram.rs together with the volatile accesses of the driver. *)

From S2P Require Import Prelude.

Inductive UsbError :=
  | Timeout (what : string)
  | OoRam
  | MapFail
  | InvSlot
  | InvPort
  | InvEndpoint
  | CmdFail (code : Z)
  | XferFail (code : Z)
  | DeviceNotFound
  | NotSupported
  | InvalidDescriptor
  | Stall
  | ParseError.

#[export] Instance UsbError_eq_dec : EqDecision UsbError.
Proof. solve_decision. Defined.

(** Memory is addressed by virtual addresses; a read may see what the hardware has
    written meanwhile, so it may move the state on.  Registers are 8, 32 or 64 bits wide
    at a mapped address. *)
Class XhcIo (W : Type) := {
  host_alloc : Z -> Z -> W -> W * option Z;
  host_free : Z -> Z -> Z -> W -> W;
  map_mmio : Z -> Z -> W -> W * option Z;
  unmap_mmio : Z -> Z -> W -> W;
  virt_to_phys : Z -> Z;
  mem_read : Z -> Z -> W -> W * bytes;
  mem_write : Z -> bytes -> W -> W;
  reg_read8 : Z -> W -> W * Z;
  reg_read32 : Z -> W -> W * Z;
  reg_write32 : Z -> Z -> W -> W;
  reg_write64 : Z -> Z -> W -> W;
}.

(** [Dma::page_size]. *)
Definition PAGE_SIZE : Z := 4096.

(** ** Transfer request blocks *)

Record Trb := mkTrb {
  param : Z;    (* u64 *)
  status : Z;   (* u32 *)
  control : Z;  (* u32 *)
}.

#[export] Instance Trb_eq_dec : EqDecision Trb.
Proof. solve_decision. Defined.

Definition trb_new : Trb := mkTrb 0 0 0.

Definition set_cycle (c : bool) (t : Trb) : Trb :=
  mkTrb (param t) (status t) (if c then Z.lor (control t) 1 else Z.ldiff (control t) 1).

Definition cycle (t : Trb) : bool := has (control t) 1.
Definition trb_type (t : Trb) : Z := Z.land (Z.shiftr (control t) 10) 0x3f.
Definition completion_code (t : Trb) : Z := Z.land (Z.shiftr (status t) 24) 0xff.
Definition trb_slot_id (t : Trb) : Z := Z.land (Z.shiftr (control t) 24) 0xff.
Definition endpoint_id (t : Trb) : Z := Z.land (Z.shiftr (control t) 16) 0x1f.
Definition transfer_length (t : Trb) : Z := Z.land (status t) 0x1ffff.

(** [repr(C, align(16))]: 16 bytes. *)
Definition trb_bytes (t : Trb) : bytes := to_le64 (param t) ++ to_le32 (status t) ++ to_le32 (control t).

Definition trb_of_bytes (b : bytes) : Trb :=
  mkTrb (le_combine (slice b 0 8)) (le_combine (slice b 8 12)) (le_combine (slice b 12 16)).

Module TrbType.
Definition NORMAL : Z := 1.
Definition SETUP : Z := 2.
Definition DATA : Z := 3.
Definition STATUS : Z := 4.
Definition LINK : Z := 6.
Definition ENABLE_SLOT : Z := 9.
Definition DISABLE_SLOT : Z := 10.
Definition ADDRESS_DEVICE : Z := 11.
Definition CONFIGURE_ENDPOINT : Z := 12.
Definition TRANSFER_EVENT : Z := 32.
Definition COMMAND_COMPLETION : Z := 33.
Definition PORT_STATUS_CHANGE : Z := 34.
End TrbType.

Module Completion.
Definition INVALID : Z := 0.
Definition SUCCESS : Z := 1.
Definition STALL_ERROR : Z := 6.
Definition SHORT_PACKET : Z := 13.
End Completion.

(** ** DMA memory and rings *)

Record PhysMem := mkPhysMem {
  pm_addr : Z;
  pm_size : Z;
  pm_align : Z;
}.

Record Ring := mkRing {
  ring_mem : PhysMem;
  ring_enqueue : Z;
  ring_cycle : bool;
  ring_size : Z;
}.

Record EventRing := mkEventRing {
  er_ring : PhysMem;
  er_erst : PhysMem;
  er_size : Z;
  er_dequeue : Z;
  er_cycle : bool;
}.

Section ring.
Context {W : Type} `{XhcIo W}.

(** Effects of the driver: the host, and a [UsbError]. *)
Abbreviation HM A := (ST W UsbError A).

Definition lift_w {A} (f : W -> W * A) : HM A := fun w => let '(w, a) := f w in (w, Ok a).

Definition phys_alloc (size align : Z) : HM PhysMem :=
  let! addr := lift_w (host_alloc size align) in
  let! addr := sopt OoRam addr in
  let! _ := smodify (mem_write addr (zeros size)) in
  sret (mkPhysMem addr size align).

Definition phys (m : PhysMem) : Z := virt_to_phys (pm_addr m).

Definition phys_free (m : PhysMem) : HM unit :=
  smodify (host_free (pm_addr m) (pm_size m) (pm_align m)).

Definition ring_new (trb_count : Z) : HM Ring :=
  let! mem := phys_alloc (trb_count * 16) 64 in
  sret (mkRing mem 0 true trb_count).

Definition ring_phys (r : Ring) : Z := phys (ring_mem r).

(** [self.trbs()[i] = trb], a checked index. *)
Definition put_trb (r : Ring) (i : Z) (t : Trb) : HM unit :=
  if i <? ring_size r then smodify (mem_write (pm_addr (ring_mem r) + i * 16) (trb_bytes t))
  else slift Panic.

Definition link_trb (r : Ring) : Trb :=
  set_cycle (ring_cycle r) (mkTrb (ring_phys r) 0 (Z.lor (Z.shiftl TrbType.LINK 10) 2)).

Definition enqueue (r : Ring) (t : Trb) : HM (Ring * Z) :=
  let t := set_cycle (ring_cycle r) t in
  let addr := add64 (ring_phys r) (ring_enqueue r * 16) in
  let! _ := put_trb r (ring_enqueue r) t in
  let next := ring_enqueue r + 1 in
  if sub64 (ring_size r) 1 <=? next then
    let! _ := put_trb r next (link_trb r) in
    sret (mkRing (ring_mem r) 0 (negb (ring_cycle r)) (ring_size r), addr)
  else sret (mkRing (ring_mem r) next (ring_cycle r) (ring_size r), addr).

Definition ring_free (r : Ring) : HM unit := phys_free (ring_mem r).

(** The segment table has one entry: base and size of the ring. *)
Definition event_ring_new (trb_count : Z) : HM EventRing :=
  let! ring := phys_alloc (trb_count * 16) 64 in
  let! erst := phys_alloc PAGE_SIZE 64 in
  let! _ := smodify (mem_write (pm_addr erst) (to_le64 (phys ring))) in
  let! _ := smodify (mem_write (pm_addr erst + 8) (le16 (as_u16 trb_count))) in
  sret (mkEventRing ring erst trb_count 0 true).

Definition event_ring_phys (e : EventRing) : Z := phys (er_ring e).
Definition erst_phys (e : EventRing) : Z := phys (er_erst e).

Definition try_dequeue (e : EventRing) : HM (EventRing * option Trb) :=
  let! b := lift_w (mem_read (pm_addr (er_ring e) + er_dequeue e * 16) 16) in
  let t := trb_of_bytes b in
  if Bool.eqb (cycle t) (er_cycle e) then
    let next := er_dequeue e + 1 in
    if er_size e <=? next
    then sret (mkEventRing (er_ring e) (er_erst e) (er_size e) 0 (negb (er_cycle e)), Some t)
    else sret (mkEventRing (er_ring e) (er_erst e) (er_size e) next (er_cycle e), Some t)
  else sret (e, None).

Definition dequeue_ptr (e : EventRing) : Z := add64 (event_ring_phys e) (er_dequeue e * 16).
End ring.

Abbreviation HM W A := (ST W UsbError A).
