(* ===== verification/UsbRingTheorems.v ===== *)
(** * TRB rings: theorems

    The controller's side of the rings, from the xHCI specification: it follows the cycle
    bits and the link TRB of a transfer ring ([consume]), and writes the event ring
    ([post]).  Whatever the interleaving, as long as the producer stays within the
    capacity, each ring is a queue: what goes in comes out, once and in order. *)

From S2P Require Import Prelude UsbRing.

(** DMA memory as the controller sees it, by physical address: the driver's writes land
    there, its reads see it, the mapping is linear, and allocations are aligned and lie
    below 2^64.  What the controller writes meanwhile is a step of its own; the 64-bit
    registers only hold addresses, so writing them does not touch memory, and neither does
    reading a register. *)
Class DmaSpec (W : Type) `{XhcIo W} := {
  phys_at : W -> Z -> byte;
  virt_linear a k : virt_to_phys (a + k) = virt_to_phys a + k;
  phys_write v b w p :
    phys_at (mem_write v b w) p =
      if (virt_to_phys v <=? p) && (p <? virt_to_phys v + zlen b)
      then default Byte.x00 (b !! Z.to_nat (p - virt_to_phys v)) else phys_at w p;
  phys_read v n w :
    mem_read v n w = (w, (fun i => phys_at w (virt_to_phys v + Z.of_nat i)) <$> seq 0 (Z.to_nat n));
  phys_reg64 a v w p : phys_at (reg_write64 a v w) p = phys_at w p;
  phys_reg_read a w p : phys_at (reg_read32 a w).1 p = phys_at w p;
  alloc_aligned size align w w' a :
    0 < size <= 2 ^ 48 -> is_power_of_two align = true -> align <= 2 ^ 48 ->
    host_alloc size align w = (w', Some a) -> virt_to_phys a mod align = 0 /\ 0 <= virt_to_phys a /\ virt_to_phys a + size <= 2 ^ 64;
}.

(** ** Bits *)

Lemma has_lor_1 x : has (Z.lor x 1) 1 = true.
Proof.
  unfold has. replace (Z.land (Z.lor x 1) 1) with 1; [done|]. rewrite Z.land_comm.
  apply Z.bits_inj'. intros n Hn. rewrite Z.land_spec, Z.lor_spec. destruct (Z.testbit 1 n); [|done].
  by rewrite orb_true_r.
Qed.

Lemma has_ldiff_1 x : has (Z.ldiff x 1) 1 = false.
Proof.
  unfold has. replace (Z.land (Z.ldiff x 1) 1) with 0; [done|].
  apply Z.bits_inj'. intros n Hn. rewrite Z.land_spec, Z.ldiff_spec, Z.bits_0. by destruct (Z.testbit 1 n), (Z.testbit x n).
Qed.

Lemma cycle_set_cycle c t : cycle (set_cycle c t) = c.
Proof. unfold cycle, set_cycle. cbn. destruct c; [apply has_lor_1|apply has_ldiff_1]. Qed.

(** A TRB up to its cycle bit. *)
Definition payload (t : Trb) : Trb := set_cycle false t.

Lemma ldiff_lor_1 x : Z.ldiff (Z.lor x 1) 1 = Z.ldiff x 1.
Proof.
  apply Z.bits_inj'. intros n Hn. rewrite !Z.ldiff_spec, Z.lor_spec. by destruct (Z.testbit x n), (Z.testbit 1 n).
Qed.

Lemma ldiff_ldiff_1 x : Z.ldiff (Z.ldiff x 1) 1 = Z.ldiff x 1.
Proof.
  apply Z.bits_inj'. intros n Hn. rewrite !Z.ldiff_spec. by destruct (Z.testbit x n), (Z.testbit 1 n).
Qed.

Lemma payload_set_cycle c t : payload (set_cycle c t) = payload t.
Proof. unfold payload, set_cycle. cbn. destruct c; by rewrite ?ldiff_lor_1, ?ldiff_ldiff_1. Qed.

Definition trb_ok (t : Trb) : Prop := u64 (param t) /\ u32 (status t) /\ u32 (control t).

Lemma ldiff_bound x m w : 0 <= w -> 0 <= x < 2 ^ w -> 0 <= Z.ldiff x m < 2 ^ w.
Proof.
  intros Hw Hx. assert (0 <= Z.ldiff x m) as Hp by (apply Z.ldiff_nonneg; lia). split; [done|].
  apply Z.bounded_iff_bits_nonneg; [done|done|]. intros l Hl. rewrite Z.ldiff_spec.
  by rewrite (proj1 (Z.bounded_iff_bits_nonneg w x Hw ltac:(lia)) ltac:(lia) l Hl).
Qed.

Lemma lor_bound x y w : 0 <= w -> 0 <= x < 2 ^ w -> 0 <= y < 2 ^ w -> 0 <= Z.lor x y < 2 ^ w.
Proof.
  intros Hw Hx Hy. assert (0 <= Z.lor x y) as Hp by (apply Z.lor_nonneg; lia). split; [done|].
  apply Z.bounded_iff_bits_nonneg; [done|done|]. intros l Hl. rewrite Z.lor_spec.
  rewrite (proj1 (Z.bounded_iff_bits_nonneg w x Hw ltac:(lia)) ltac:(lia) l Hl).
  by rewrite (proj1 (Z.bounded_iff_bits_nonneg w y Hw ltac:(lia)) ltac:(lia) l Hl).
Qed.

Lemma set_cycle_ok c t : trb_ok t -> trb_ok (set_cycle c t).
Proof.
  unfold trb_ok, u32, U32_MAX. cbn. intros (Hp & Hs & Hc). split; [done|split; [done|]].
  assert (0 <= (if c then Z.lor (control t) 1 else Z.ldiff (control t) 1) < 2 ^ 32) as Hb.
  { destruct c; [apply lor_bound|apply ldiff_bound]; lia. }
  cbn in Hb |- *. lia.
Qed.

Lemma zlen_trb_bytes t : zlen (trb_bytes t) = 16.
Proof. done. Qed.

Lemma trb_roundtrip t : trb_ok t -> trb_of_bytes (trb_bytes t) = t.
Proof.
  intros (Hp & Hs & Hc). unfold trb_of_bytes, trb_bytes, to_le64, to_le32.
  assert (forall (a b c : bytes), zlen a = 8 -> zlen b = 4 -> zlen c = 4 ->
            slice (a ++ b ++ c) 0 8 = a /\ slice (a ++ b ++ c) 8 12 = b /\ slice (a ++ b ++ c) 12 16 = c) as Hsl.
  { intros a b c Ha Hb Hcc. unfold slice. rewrite (zdrop_0 0) by lia.
    rewrite (zdrop_app_ge 8), (zdrop_app_ge 12) by lia. rewrite (zdrop_0 (8 - _)), (zdrop_app_ge (12 - _)) by lia.
    rewrite zdrop_0 by lia. rewrite !ztake_app_le by lia. rewrite !ztake_all by lia. done. }
  destruct (Hsl (le_split 8 (param t)) (le_split 4 (status t)) (le_split 4 (control t))) as (-> & -> & ->); [done..|].
  rewrite !le_combine_split. destruct t as [p s c]. cbn in *. unfold u64, u32, U64_MAX, U32_MAX in *.
  f_equal; apply Z.mod_small; cbn; lia.
Qed.

(** ** Memory *)
Section memory.
Context {W : Type} `{DmaSpec W}.
Implicit Types (w : W) (r : Ring).

Definition load w (p n : Z) : bytes := (fun i => phys_at w (p + Z.of_nat i)) <$> seq 0 (Z.to_nat n).

Lemma load_write_same w v b p n : p = virt_to_phys v -> n = zlen b -> load (mem_write v b w) p n = b.
Proof.
  intros -> ->. unfold load. apply list_eq. intros i. rewrite list_lookup_fmap.
  destruct (decide (i < length b)%nat) as [Hi|Hi].
  - rewrite lookup_seq_lt by (unfold zlen; lia). cbn. rewrite phys_write.
    replace (_ && _) with true by (symmetry; unfold zlen; lia).
    replace (Z.to_nat _) with i by lia. by destruct (lookup_lt_is_Some_2 b i Hi) as [x ->].
  - rewrite lookup_seq_ge by (unfold zlen; lia). symmetry. apply lookup_ge_None. lia.
Qed.

Lemma load_write_other w v b p n :
  p + n <= virt_to_phys v \/ virt_to_phys v + zlen b <= p -> load (mem_write v b w) p n = load w p n.
Proof.
  intros Hd. unfold load. apply list_fmap_ext. intros j i Hi. apply lookup_seq in Hi as [-> Hi].
  rewrite phys_write.
  destruct ((virt_to_phys v <=? p + Z.of_nat (0 + j)) && (p + Z.of_nat (0 + j) <? virt_to_phys v + zlen b)) eqn:E; [|done].
  bool_to_prop. lia.
Qed.

(** The TRB in slot [i] of a ring at a physical address. *)
Definition slot w (base : Z) (i : nat) : Trb := trb_of_bytes (load w (base + Z.of_nat i * 16) 16).

Lemma slot_ext w w' base i :
  (forall q, base + Z.of_nat i * 16 <= q < base + Z.of_nat i * 16 + 16 -> phys_at w' q = phys_at w q) ->
  slot w' base i = slot w base i.
Proof.
  intros He. unfold slot, load. f_equal. apply list_fmap_ext. intros j k Hj. apply lookup_seq in Hj as [-> Hj].
  apply He. lia.
Qed.

Lemma slot_write w v i j t :
  trb_ok t ->
  slot (mem_write (v + Z.of_nat i * 16) (trb_bytes t) w) (virt_to_phys v) j
  = if decide (i = j) then t else slot w (virt_to_phys v) j.
Proof.
  intros Ht. unfold slot. destruct (decide (i = j)) as [->|Hij].
  - rewrite load_write_same; [by apply trb_roundtrip|by rewrite virt_linear|done].
  - rewrite load_write_other; [done|]. rewrite virt_linear, zlen_trb_bytes. lia.
Qed.
End memory.

(** ** Cycle bits

    [h] is everything ever produced, oldest first, into [u] slots used in turn: the last
    [u] entries are in their slots, marked with the parity of their lap, and slots never
    written hold a clear cycle bit. *)
Definition laps (u : nat) (sl : nat -> Trb) (h : list Trb) : Prop :=
  (forall k t, h !! k = Some t -> (length h <= k + u)%nat -> sl (k `mod` u)%nat = set_cycle (Nat.even (k / u)) t) /\
  (forall i, (length h <= i < u)%nat -> cycle (sl i) = false).

Lemma laps_nil u sl : (forall i, (i < u)%nat -> cycle (sl i) = false) -> laps u sl [].
Proof. intros Hz. split; [by intros k t Hk|]. intros i Hi. apply Hz. lia. Qed.

Lemma laps_ext u sl sl' h : (0 < u)%nat -> (forall i, (i < u)%nat -> sl' i = sl i) -> laps u sl h -> laps u sl' h.
Proof.
  intros Hu He [H1 H2]. split.
  - intros k t Hk Hr. rewrite He; [by apply H1|]. apply Nat.mod_upper_bound. lia.
  - intros i Hi. rewrite He by lia. by apply H2.
Qed.

Lemma mod_window u k n : (0 < u -> k < n -> n < k + u -> k `mod` u <> n `mod` u)%nat.
Proof.
  intros Hu H1 H2 Heq. pose proof (Nat.div_mod_eq k u). pose proof (Nat.div_mod_eq n u).
  assert (n - k = u * (n / u - k / u))%nat by nia.
  destruct (n / u - k / u)%nat as [|q] eqn:Eq; nia.
Qed.

Lemma laps_push u sl h t :
  (0 < u)%nat -> laps u sl h ->
  laps u (fun i => if decide (length h `mod` u = i)%nat then set_cycle (Nat.even (length h / u)) t else sl i) (h ++ [t]).
Proof.
  intros Hu [H1 H2]. split.
  - intros k x Hk Hr. rewrite length_app in Hr. cbn in Hr.
    destruct (decide (k < length h)%nat) as [Hlt|Hge].
    + rewrite lookup_app_l in Hk by done. rewrite decide_False; [apply H1; [done|lia]|].
      apply not_eq_sym, mod_window; lia.
    + rewrite lookup_app_r in Hk by lia. destruct (k - length h)%nat as [|j] eqn:Ej; [|by destruct j].
      injection Hk as ->. replace k with (length h) by lia. by rewrite decide_True.
  - intros i Hi. rewrite length_app in Hi. cbn in Hi. rewrite decide_False; [apply H2; lia|].
    rewrite Nat.mod_small by lia. lia.
Qed.

Lemma even_pred n : (0 < n)%nat -> Nat.even (n - 1) = negb (Nat.even n).
Proof.
  destruct n as [|n]; [lia|]. intros _. rewrite Nat.even_succ, <- Nat.negb_even, negb_involutive. f_equal. lia.
Qed.

(** The next slot of a producer that stands at [n] is not marked with its lap. *)
Lemma laps_next u sl h :
  (0 < u)%nat -> laps u sl h -> cycle (sl (length h `mod` u)%nat) = negb (Nat.even (length h / u)).
Proof.
  intros Hu [H1 H2]. destruct (decide (length h < u)%nat) as [Hlt|Hge].
  - rewrite Nat.mod_small, Nat.div_small by done. apply H2. lia.
  - destruct (lookup_lt_is_Some_2 h (length h - u)) as [t Ht]; [lia|].
    specialize (H1 _ _ Ht ltac:(lia)).
    assert (length h = (length h - u) + 1 * u)%nat as El by lia.
    assert (((length h - u) `mod` u) = length h `mod` u)%nat as Em by (rewrite El at 2; by rewrite Nat.Div0.mod_add).
    assert (length h / u = (length h - u) / u + 1)%nat as Ed by (rewrite El at 1; by rewrite Nat.div_add by lia).
    rewrite Em in H1. rewrite H1, cycle_set_cycle, Ed, <- even_pred by lia. f_equal. lia.
Qed.

(** ** The transfer ring *)

(** The controller's position in a ring: the address of the next TRB and the cycle bit
    that marks valid ones. *)
Record Consumer := mkConsumer {
  cn_ptr : Z;
  cn_ccs : bool;
}.

Definition is_link (t : Trb) : bool := trb_type t =? TrbType.LINK.

Lemma shiftr_set_cycle c t n : 0 < n -> Z.shiftr (control (set_cycle c t)) n = Z.shiftr (control t) n.
Proof.
  intros Hn. apply Z.bits_inj'. intros k Hk. rewrite !Z.shiftr_spec by done.
  assert (Z.testbit 1 (k + n) = false) as H1.
  { rewrite <- (Z.pow_0_r 2). apply Z.pow2_bits_false. lia. }
  unfold set_cycle. cbn. destruct c; rewrite ?Z.lor_spec, ?Z.ldiff_spec, H1; by destruct (Z.testbit (control t) (k + n)).
Qed.

Lemma trb_type_set_cycle c t : trb_type (set_cycle c t) = trb_type t.
Proof. unfold trb_type. by rewrite shiftr_set_cycle by lia. Qed.

Definition payloads (l : list (option Trb)) : list (option Trb) := map (option_map payload) l.

Section transfer_ring.
Context {W : Type} `{DmaSpec W}.
Implicit Types (w : W) (r : Ring) (c : Consumer) (h : list Trb).

(** One fetch: a TRB of the other cycle means there is none; a link TRB is followed, with
    a new cycle state when its toggle bit is set. *)
Definition trb_at w (p : Z) : Trb := trb_of_bytes (load w p 16).

Definition follow_link w c : Consumer :=
  let t := trb_at w (cn_ptr c) in
  if Bool.eqb (cycle t) (cn_ccs c) && is_link t
  then mkConsumer (Z.ldiff (param t) 15) (if has (control t) 2 then negb (cn_ccs c) else cn_ccs c)
  else c.

Definition consume w c : Consumer * option Trb :=
  let c := follow_link w c in
  let t := trb_at w (cn_ptr c) in
  if Bool.eqb (cycle t) (cn_ccs c)
  then (mkConsumer (cn_ptr c + 16) (cn_ccs c), Some t) else (c, None).

(** A ring of [u] usable slots and a link, after producing [h]. *)
Definition ring_holds w r (u : nat) h : Prop :=
  (0 < u)%nat /\ ring_size r = Z.of_nat (S u) /\ ring_size r <= U32_MAX /\
  ring_enqueue r = Z.of_nat (length h `mod` u) /\ ring_cycle r = Nat.even (length h / u) /\
  u64 (ring_phys r) /\ ring_phys r mod 16 = 0 /\ Forall (fun t => is_link t = false) h /\
  laps u (slot w (ring_phys r)) h /\
  (if decide (length h < u)%nat then cycle (slot w (ring_phys r) u) = false
   else slot w (ring_phys r) u
        = set_cycle (Nat.even (length h / u - 1)) (mkTrb (ring_phys r) 0 (Z.lor (Z.shiftl TrbType.LINK 10) 2))).

(** The controller has taken [k] TRBs: it stands at the next slot, or still at the link. *)
Definition stands r (u k : nat) c : Prop :=
  c = mkConsumer (ring_phys r + Z.of_nat (k `mod` u) * 16) (Nat.even (k / u)) \/
  (0 < k)%nat /\ (k `mod` u = 0)%nat /\
  c = mkConsumer (ring_phys r + Z.of_nat u * 16) (negb (Nat.even (k / u))).

Lemma succ_div_mod u n :
  (0 < u)%nat ->
  (S n < u * (S (n / u)))%nat /\ (S n `mod` u = S (n `mod` u))%nat /\ (S n / u = n / u)%nat \/
  (S n = u * (S (n / u)))%nat /\ (S n `mod` u = 0)%nat /\ (S n / u = S (n / u))%nat.
Proof.
  intros Hu. pose proof (Nat.div_mod_eq n u) as Hd. pose proof (Nat.mod_upper_bound n u ltac:(lia)) as Hm.
  destruct (decide (S (n `mod` u) < u)%nat) as [Hlt|Hge].
  - left. split; [nia|]. assert (S n = S (n `mod` u) + (n / u) * u)%nat as -> by nia.
    rewrite Nat.Div0.mod_add, Nat.div_add, Nat.mod_small, Nat.div_small by lia. lia.
  - right. split; [nia|]. assert (S n = 0 + (S (n / u)) * u)%nat as -> by nia.
    rewrite Nat.Div0.mod_add, Nat.div_add by lia. rewrite Nat.Div0.mod_0_l, Nat.Div0.div_0_l. lia.
Qed.

Lemma wp_put_trb r i t w (Q : unit -> W -> Prop) X :
  (Z.of_nat i < ring_size r) -> trb_ok t ->
  (forall w', (forall j, slot w' (ring_phys r) j = if decide (i = j) then t else slot w (ring_phys r) j) -> Q tt w') ->
  wp (put_trb r (Z.of_nat i) t) Q X w.
Proof.
  intros Hi Ht HQ. unfold put_trb. guard_true (Z.of_nat i <? ring_size r). apply wp_modify, HQ.
  intros j. by apply slot_write.
Qed.

Lemma link_trb_ok r : u64 (ring_phys r) -> trb_ok (link_trb r).
Proof.
  intros Hp. apply set_cycle_ok. unfold trb_ok. cbn [param status control].
  split; [done|]. split; [ulia|]. by split; vm_compute.
Qed.

Lemma wp_enqueue r u h w t Q X :
  ring_holds w r u h -> trb_ok t -> is_link t = false ->
  (forall w' r', ring_holds w' r' u (h ++ [t]) -> ring_mem r' = ring_mem r ->
     Q (r', add64 (ring_phys r) (Z.of_nat (length h `mod` u) * 16)) w') ->
  wp (enqueue r t) Q X w.
Proof.
  intros (Hu & Hsz & Hmax & He & Hcy & Hp & Ha & Hnl & Hl & Hlink) Ht Hlk HQ.
  pose proof (Nat.mod_upper_bound (length h) u ltac:(lia)) as Hm.
  pose proof (Nat.div_mod_eq (length h) u) as Hd.
  unfold enqueue. rewrite He. apply wp_bind, wp_put_trb; [lia|by apply set_cycle_ok|].
  intros w1 Hw1. rewrite Hcy in Hw1.
  assert (laps u (slot w1 (ring_phys r)) (h ++ [t])) as Hl1.
  { eapply laps_ext; [done| |by apply laps_push]. intros i Hi. cbn. apply Hw1. }
  assert (slot w1 (ring_phys r) u = slot w (ring_phys r) u) as Hlu by (rewrite Hw1; rewrite decide_False; [done|lia]).
  assert (length (h ++ [t]) = S (length h)) as Hlen by (rewrite length_app; cbn; lia).
  assert (Forall (fun t => is_link t = false) (h ++ [t])) as Hnl1 by (apply Forall_app; split; [done|by constructor]).
  assert (sub64 (ring_size r) 1 = Z.of_nat u) as ->.
  { unfold sub64, as_u64. rewrite Hsz. rewrite Z.mod_small; ulia. }
  destruct (succ_div_mod u (length h) Hu) as [(Hlt & Em & Ed)|(Heq & Em & Ed)].
  - guard_false (Z.of_nat u <=? Z.of_nat (length h `mod` u) + 1).
    apply wp_ret, HQ; [|done]. unfold ring_holds. cbn [ring_size ring_enqueue ring_cycle ring_mem].
    change (ring_phys (mkRing (ring_mem r) (Z.of_nat (length h `mod` u) + 1) (ring_cycle r) (ring_size r))) with (ring_phys r).
    rewrite Hlen, Em, Ed, Hlu. split_and!; try done; try lia.
    destruct (decide (length h < u)%nat).
    + rewrite decide_True by (rewrite Nat.div_small in Hlt by lia; lia). done.
    + rewrite decide_False by lia. done.
  - guard_true (Z.of_nat u <=? Z.of_nat (length h `mod` u) + 1).
    replace (Z.of_nat (length h `mod` u) + 1) with (Z.of_nat u) by nia.
    apply wp_bind, wp_put_trb; [lia|by apply link_trb_ok|]. intros w2 Hw2. apply wp_ret, HQ; [|done].
    unfold ring_holds. cbn [ring_size ring_enqueue ring_cycle ring_mem].
    change (ring_phys (mkRing (ring_mem r) 0 (negb (ring_cycle r)) (ring_size r))) with (ring_phys r).
    rewrite Hlen, Em, Ed, Hcy. rewrite Nat.even_succ, <- Nat.negb_even. split_and!; try done; try lia.
    + eapply laps_ext; [done| |exact Hl1]. intros i Hi. rewrite Hw2. by rewrite decide_False by lia.
    + rewrite decide_False by nia. rewrite Hw2, decide_True by done. unfold link_trb. rewrite Hcy. do 2 f_equal. lia.
Qed.

Lemma ldiff_aligned x : x mod 16 = 0 -> Z.ldiff x 15 = x.
Proof.
  intros Hx. apply Z.div_exact in Hx; [|done]. rewrite Hx, Z.mul_comm. change 15 with (Z.ones 4).
  rewrite Z.ldiff_ones_r, Z.shiftl_mul_pow2, Z.shiftr_div_pow2 by lia. by rewrite Z.div_mul.
Qed.

Lemma trb_at_slot w r i : trb_at w (ring_phys r + Z.of_nat i * 16) = slot w (ring_phys r) i.
Proof. done. Qed.

Lemma slot_valid w r u h k t :
  ring_holds w r u h -> h !! k = Some t -> (length h <= k + u)%nat ->
  slot w (ring_phys r) (k `mod` u) = set_cycle (Nat.even (k / u)) t /\ is_link t = false.
Proof.
  intros (_ & _ & _ & _ & _ & _ & _ & Hnl & [Hl _] & _) Hk Hr. split; [by apply Hl|].
  rewrite Forall_lookup in Hnl. by eapply Hnl.
Qed.

Lemma follow_link_stands w r u h k c :
  ring_holds w r u h -> stands r u k c -> (k <= length h < k + u)%nat ->
  follow_link w c = mkConsumer (ring_phys r + Z.of_nat (k `mod` u) * 16) (Nat.even (k / u)).
Proof.
  intros Hh Hs Hk. pose proof Hh as (Hu & Hsz & _ & _ & _ & Hp & Ha & _ & Hl & Hlink).
  destruct Hs as [->|(Hk0 & Hkm & ->)]; unfold follow_link; cbn [cn_ptr cn_ccs]; rewrite trb_at_slot.
  - destruct (decide (k = length h)) as [->|].
    + rewrite (laps_next u _ h Hu Hl). destruct (Nat.even (length h / u)); cbn [eqb negb andb]; reflexivity.
    + destruct (lookup_lt_is_Some_2 h k) as [t Ht]; [lia|].
      destruct (slot_valid w r u h k t Hh Ht ltac:(lia)) as [-> Hnl].
      unfold is_link in *. by rewrite trb_type_set_cycle, Hnl, andb_false_r.
  - pose proof (Nat.div_mod_eq k u) as Hd. assert (0 < k / u)%nat by (destruct (k / u)%nat; lia).
    assert (length h / u = k / u)%nat as Eq.
    { symmetry. apply (Nat.div_unique _ u _ (length h - k)); lia. }
    rewrite decide_False in Hlink by nia. rewrite Eq in Hlink. rewrite Hlink.
    rewrite cycle_set_cycle, even_pred by lia. rewrite eqb_reflx. unfold is_link. rewrite trb_type_set_cycle.
    cbn [param control set_cycle]. rewrite ldiff_aligned, Hkm, Z.add_0_r by done. f_equal.
    replace (has _ 2) with true by (destruct (negb _); reflexivity). apply negb_involutive.
Qed.

Lemma consume_next w r u h k c t :
  ring_holds w r u h -> stands r u k c -> (length h < k + u)%nat -> h !! k = Some t ->
  exists c', consume w c = (c', Some (set_cycle (Nat.even (k / u)) t)) /\ stands r u (S k) c'.
Proof.
  intros Hh Hs Hk Ht. pose proof (lookup_lt_Some _ _ _ Ht). pose proof Hh as (Hu & _).
  unfold consume. rewrite (follow_link_stands w r u h k c) by (done || lia). cbn [cn_ptr cn_ccs].
  rewrite trb_at_slot. destruct (slot_valid w r u h k t Hh Ht ltac:(lia)) as [-> _].
  rewrite cycle_set_cycle, eqb_reflx. eexists. split; [done|].
  pose proof (Nat.mod_upper_bound k u ltac:(lia)). pose proof (Nat.div_mod_eq k u).
  destruct (succ_div_mod u k Hu) as [(Hlt & Em & Ed)|(Heq & Em & Ed)].
  - left. rewrite Em, Ed. f_equal. lia.
  - right. split; [lia|]. split; [done|]. rewrite Ed, Nat.even_succ, <- Nat.negb_even, negb_involutive. f_equal. nia.
Qed.

Lemma consume_none w r u h c :
  ring_holds w r u h -> stands r u (length h) c ->
  exists c', consume w c = (c', None) /\ stands r u (length h) c'.
Proof.
  intros Hh Hs. pose proof Hh as (Hu & _ & _ & _ & _ & _ & _ & _ & Hl & _).
  unfold consume. rewrite (follow_link_stands w r u h (length h) c) by (done || lia). cbn [cn_ptr cn_ccs].
  rewrite trb_at_slot, (laps_next u _ h Hu Hl). destruct (Nat.even _) eqn:E; cbn; eexists; (split; [done|left]); by rewrite E.
Qed.

(** Only the ring's own memory matters. *)
Lemma ring_holds_ext w w' r u h :
  (forall q, ring_phys r <= q < ring_phys r + ring_size r * 16 -> phys_at w' q = phys_at w q) ->
  ring_holds w r u h -> ring_holds w' r u h.
Proof.
  intros He (Hu & Hsz & Hmax & Hen & Hcy & Hp & Ha & Hnl & Hl & Hlink).
  assert (forall i, (i <= u)%nat -> slot w' (ring_phys r) i = slot w (ring_phys r) i) as Hs.
  { intros i Hi. apply slot_ext. intros q Hq. apply He. lia. }
  do 8 (split; [done|]). split; [|by rewrite Hs by done].
  eapply laps_ext; [done| |exact Hl]. intros i Hi. apply Hs. lia.
Qed.

(** ** The ring as a queue *)

Inductive ring_op :=
  | Produce (t : Trb)
  | Fetch.

(** The abstract queue, of at most [cap] TRBs. *)
Fixpoint queue_run (cap : nat) (q : list Trb) (ops : list ring_op) : option (list (option Trb)) :=
  match ops with
  | [] => Some []
  | Produce t :: ops => if decide (length q < cap)%nat then queue_run cap (q ++ [t]) ops else None
  | Fetch :: ops =>
      match q with
      | [] => (None ::.) <$> queue_run cap [] ops
      | t :: q => (Some t ::.) <$> queue_run cap q ops
      end
  end.

(** The driver enqueues, the controller fetches. *)
Fixpoint ring_run w r c (ops : list ring_op) : outcome UsbError (list (option Trb)) :=
  match ops with
  | [] => Ok []
  | Produce t :: ops =>
      match enqueue r t w with
      | (w, Ok (r, _)) => ring_run w r c ops
      | (_, Err e) => Err e
      | (_, Panic) => Panic
      | (_, OutOfFuel) => OutOfFuel
      end
  | Fetch :: ops =>
      let '(c, t) := consume w c in
      let? out := ring_run w r c ops in Ok (t :: out)
  end.

Definition op_ok (o : ring_op) : Prop :=
  match o with Produce t => trb_ok t /\ is_link t = false | Fetch => True end.

Lemma ring_run_refines ops : forall w r u h k c outs,
  ring_holds w r u h -> stands r u k c -> (k <= length h < k + u)%nat -> Forall op_ok ops ->
  queue_run (u - 1) (drop k h) ops = Some outs ->
  exists res, ring_run w r c ops = Ok res /\ payloads res = payloads outs.
Proof.
  induction ops as [|[t|] ops IH]; intros w r u h k c outs Hh Hs Hk Hok Hq; cbn [queue_run ring_run] in *.
  - injection Hq as <-. by exists [].
  - inversion Hok as [|? ? Hop Hok']; subst. cbn in Hop. destruct Hop as [Ht Hnl]. destruct (decide _) as [Hlt|]; [|done]. rewrite length_drop in Hlt.
    destruct (wp_run_ok (enqueue r t) (fun rr w' => ring_holds w' rr.1 u (h ++ [t]) /\ ring_mem rr.1 = ring_mem r) w)
      as (w' & [r' a] & -> & HQ).
    { eapply wp_enqueue; [done|done|done|]. by intros w' r' ? ?. }
    cbn in HQ. destruct HQ as [Hh' Hmem].
    apply (IH w' r' u (h ++ [t]) k); [done| |rewrite length_app; cbn; lia|done|].
    + unfold stands, ring_phys in *. by rewrite Hmem.
    + rewrite drop_app_le by lia. done.
  - inversion Hok as [|? ? _ Hok']; subst. destruct (drop k h) as [|t q] eqn:Ed.
    + assert (k = length h) as -> by (apply (f_equal length) in Ed; rewrite length_drop in Ed; cbn in Ed; lia).
      destruct (consume_none w r u h c Hh Hs) as (c' & -> & Hs').
      apply fmap_Some in Hq as (outs' & Hq & ->).
      destruct (IH w r u h (length h) c' outs') as (res & -> & Hres); [done|done|done|done|by rewrite Ed|].
      exists (None :: res). split; [done|]. unfold payloads in *. cbn. by rewrite Hres.
    + assert (h !! k = Some t) as Ht by (rewrite <- (Nat.add_0_r k), <- lookup_drop, Ed; done).
      destruct (consume_next w r u h k c t Hh Hs ltac:(lia) Ht) as (c' & -> & Hs').
      apply fmap_Some in Hq as (outs' & Hq & ->). pose proof (lookup_lt_Some _ _ _ Ht).
      destruct (IH w r u h (S k) c' outs') as (res & -> & Hres); [done|done|lia|done| |].
      { replace (S k) with (k + 1)%nat by lia. by rewrite <- drop_drop, Ed. }
      exists (Some (set_cycle (Nat.even (k / u)) t) :: res). split; [done|].
      unfold payloads in *. cbn. by rewrite Hres, payload_set_cycle.
Qed.
End transfer_ring.

(** A fresh allocation is zeroed, so no slot is marked. *)
Lemma fresh_slot {W} `{DmaSpec W} (w : W) a (n : nat) i :
  (i < n)%nat -> cycle (slot (mem_write a (zeros (Z.of_nat n * 16)) w) (virt_to_phys a) i) = false.
Proof.
  intros Hi. unfold slot.
  assert (load (mem_write a (zeros (Z.of_nat n * 16)) w) (virt_to_phys a + Z.of_nat i * 16) 16 = zeros 16) as ->; [|done].
  unfold load. apply list_eq. intros j. rewrite list_lookup_fmap. change (Z.to_nat 16) with 16%nat.
  destruct (decide (j < 16)%nat) as [Hj|Hj].
  - rewrite lookup_seq_lt by done. cbn [fmap option_fmap option_map]. rewrite phys_write, zlen_zeros by lia.
    destruct (_ && _) eqn:E; [|apply andb_false_iff in E as [E|E]; bool_to_prop; lia].
    unfold zeros. rewrite !lookup_replicate_2; [done|lia..].
  - rewrite lookup_seq_ge by lia. unfold zeros. symmetry. apply lookup_replicate_None. lia.
Qed.

Lemma phys_alloc_inv {W} `{XhcIo W} (w w' : W) size align m :
  phys_alloc size align w = (w', Ok m) ->
  exists w0 a, host_alloc size align w = (w0, Some a) /\ w' = mem_write a (zeros size) w0 /\ m = mkPhysMem a size align.
Proof.
  unfold phys_alloc, sbind, lift_w, sopt, sret, sfail, smodify.
  destruct (host_alloc size align w) as [w0 [a|]]; [|done]. intros [= <- <-]. eauto.
Qed.

Lemma ring_new_holds {W} `{DmaSpec W} (w w' : W) n r :
  2 <= n <= U32_MAX -> ring_new n w = (w', Ok r) -> ring_holds w' r (Z.to_nat (n - 1)) [].
Proof.
  intros Hn. unfold ring_new, sbind. destruct (phys_alloc (n * 16) 64 w) as [w1 [m| | |]] eqn:E; try done.
  intros [= <- <-]. apply phys_alloc_inv in E as (w0 & a & Ha & -> & ->).
  apply alloc_aligned in Ha as (Hal & Hpos & H64); [|ulia|done|done]. unfold ring_holds, ring_phys, phys. cbn [ring_mem pm_addr ring_size ring_enqueue ring_cycle length].
  assert (n * 16 = Z.of_nat (S (Z.to_nat (n - 1))) * 16) as En by lia. rewrite En.
  rewrite Nat.Div0.mod_0_l, Nat.Div0.div_0_l. split_and!; try done; try lia.
  - unfold u64, U64_MAX. lia.
  - apply Z.mod_divide in Hal; [|done]. apply Z.mod_divide; [done|]. destruct Hal as [q ->]. exists (q * 4). lia.
  - apply laps_nil. intros i Hi. apply fresh_slot. lia.
  - rewrite decide_True by lia. apply fresh_slot. lia.
Qed.

(** C23: a transfer or command ring is a queue.  From a fresh ring of [n] TRBs, whatever
    the driver enqueues and whenever the controller fetches, as long as fewer than [n - 1]
    TRBs are outstanding, the controller gets each TRB once and in order, across any
    number of laps and link TRBs, and finds the ring empty exactly when the queue is. *)
Theorem transfer_ring_fifo {W} `{DmaSpec W} (w w' : W) n r ops outs :
  2 <= n <= U32_MAX -> ring_new n w = (w', Ok r) -> Forall op_ok ops ->
  queue_run (Z.to_nat (n - 2)) [] ops = Some outs ->
  exists res, ring_run w' r (mkConsumer (ring_phys r) true) ops = Ok res /\ payloads res = payloads outs.
Proof.
  intros Hn Hr Hok Hq. apply ring_new_holds in Hr; [|done].
  apply (ring_run_refines ops w' r (Z.to_nat (n - 1)) [] 0); [done| |cbn; lia|done|].
  - left. rewrite Nat.Div0.mod_0_l, Nat.Div0.div_0_l. f_equal. lia.
  - by replace (Z.to_nat (n - 1) - 1)%nat with (Z.to_nat (n - 2)) by lia.
Qed.

(** ** The event ring *)

Section event_ring.
Context {W : Type} `{DmaSpec W}.
Implicit Types (w : W) (e : EventRing) (h : list Trb).

(** The controller's side: the slot it writes next and the cycle bit it marks it with. *)
Record Producer := mkProducer {
  pr_index : Z;
  pr_pcs : bool;
}.

Definition post e (p : Producer) (t : Trb) w : W * Producer :=
  (mem_write (pm_addr (er_ring e) + pr_index p * 16) (trb_bytes (set_cycle (pr_pcs p) t)) w,
   if pr_index p + 1 =? er_size e then mkProducer 0 (negb (pr_pcs p)) else mkProducer (pr_index p + 1) (pr_pcs p)).

(** The controller posts, the driver dequeues. *)
Fixpoint event_run w e p (ops : list ring_op) : outcome UsbError (list (option Trb)) :=
  match ops with
  | [] => Ok []
  | Produce t :: ops => let '(w, p) := post e p t w in event_run w e p ops
  | Fetch :: ops =>
      match try_dequeue e w with
      | (w, Ok (e, t)) => let? out := event_run w e p ops in Ok (t :: out)
      | (_, Err x) => Err x
      | (_, Panic) => Panic
      | (_, OutOfFuel) => OutOfFuel
      end
  end.

(** After [h] was posted to a ring of [u] slots, of which the driver has taken [k]. *)
Definition event_holds w e p (u : nat) h (k : nat) : Prop :=
  (0 < u)%nat /\ er_size e = Z.of_nat u /\
  p = mkProducer (Z.of_nat (length h `mod` u)) (Nat.even (length h / u)) /\
  er_dequeue e = Z.of_nat (k `mod` u) /\ er_cycle e = Nat.even (k / u) /\
  laps u (slot w (event_ring_phys e)) h.

Lemma event_holds_ext w w' e p u h k :
  (forall q, event_ring_phys e <= q < event_ring_phys e + er_size e * 16 -> phys_at w' q = phys_at w q) ->
  event_holds w e p u h k -> event_holds w' e p u h k.
Proof.
  intros He (Hu & Hsz & Hp & Hd & Hc & Hl). do 5 (split; [done|]).
  eapply laps_ext; [done| |exact Hl]. intros i Hi. apply slot_ext. intros q Hq. apply He. lia.
Qed.

Lemma post_holds w e p u h k t :
  event_holds w e p u h k -> trb_ok t ->
  event_holds (post e p t w).1 e (post e p t w).2 u (h ++ [t]) k.
Proof.
  intros (Hu & Hsz & -> & Hd & Hc & Hl) Ht. unfold post. cbn [fst snd pr_index pr_pcs].
  assert (length (h ++ [t]) = S (length h)) as Hlen by (rewrite length_app; cbn; lia).
  split; [done|]. split; [done|]. rewrite Hlen, Hsz. pose proof (Nat.mod_upper_bound (length h) u ltac:(lia)).
  pose proof (Nat.div_mod_eq (length h) u). split; [|split; [done|split; [done|]]].
  - destruct (succ_div_mod u (length h) Hu) as [(Hlt & -> & ->)|(Heq & -> & ->)].
    + guard_false (Z.of_nat (length h `mod` u) + 1 =? Z.of_nat u). f_equal. lia.
    + guard_true (Z.of_nat (length h `mod` u) + 1 =? Z.of_nat u). by rewrite Nat.even_succ, <- Nat.negb_even.
  - eapply laps_ext; [done| |by apply laps_push]. intros i Hi. cbn. by apply slot_write, set_cycle_ok.
Qed.

Lemma try_dequeue_read w e i :
  er_dequeue e = Z.of_nat i ->
  lift_w (mem_read (pm_addr (er_ring e) + er_dequeue e * 16) 16) w
  = (w, Ok (E := UsbError) (load w (event_ring_phys e + Z.of_nat i * 16) 16)).
Proof. intros Hd. unfold lift_w. rewrite phys_read, Hd, virt_linear. done. Qed.

Lemma try_dequeue_next w e p u h k t :
  event_holds w e p u h k -> (length h <= k + u)%nat -> h !! k = Some t ->
  exists e', try_dequeue e w = (w, Ok (e', Some (set_cycle (Nat.even (k / u)) t))) /\ event_holds w e' p u h (S k) /\ er_ring e' = er_ring e.
Proof.
  intros (Hu & Hsz & Hp & Hd & Hc & Hl) Hr Ht. unfold try_dequeue, sbind.
  rewrite (try_dequeue_read w e (k `mod` u)) by done. fold (slot w (event_ring_phys e) (k `mod` u)).
  destruct Hl as [Hl1 Hl2]. rewrite (Hl1 k t Ht Hr), cycle_set_cycle, Hc, eqb_reflx, Hd, Hsz.
  pose proof (Nat.mod_upper_bound k u ltac:(lia)). pose proof (Nat.div_mod_eq k u).
  destruct (succ_div_mod u k Hu) as [(Hlt & Em & Ed)|(Heq & Em & Ed)].
  - guard_false (Z.of_nat u <=? Z.of_nat (k `mod` u) + 1). eexists. split; [done|]. split; [|done].
    split_and!; try done; cbn; [rewrite Em; lia|by rewrite Ed].
  - guard_true (Z.of_nat u <=? Z.of_nat (k `mod` u) + 1). eexists. split; [done|]. split; [|done].
    split_and!; try done; cbn; [by rewrite Em|]. by rewrite Ed, Nat.even_succ, <- Nat.negb_even.
Qed.

Lemma try_dequeue_none w e p u h :
  event_holds w e p u h (length h) -> try_dequeue e w = (w, Ok (e, None)).
Proof.
  intros (Hu & Hsz & Hp & Hd & Hc & Hl). unfold try_dequeue, sbind.
  rewrite (try_dequeue_read w e (length h `mod` u)) by done. fold (slot w (event_ring_phys e) (length h `mod` u)).
  rewrite (laps_next u _ h Hu Hl), Hc. by destruct (Nat.even _).
Qed.

Lemma event_run_refines ops : forall w e p u h k outs,
  event_holds w e p u h k -> (k <= length h <= k + u)%nat ->
  Forall (fun o => match o with Produce t => trb_ok t | Fetch => True end) ops ->
  queue_run u (drop k h) ops = Some outs ->
  exists res, event_run w e p ops = Ok res /\ payloads res = payloads outs.
Proof.
  induction ops as [|[t|] ops IH]; intros w e p u h k outs Hh Hk Hok Hq; cbn [queue_run event_run] in *.
  - injection Hq as <-. by exists [].
  - inversion Hok as [|? ? Ht Hok']; subst. destruct (decide _) as [Hlt|]; [|done]. rewrite length_drop in Hlt.
    pose proof (post_holds w e p u h k t Hh Ht) as Hh'. destruct (post e p t w) as [w' p'].
    apply (IH w' e p' u (h ++ [t]) k); [done|rewrite length_app; cbn; lia|done|]. by rewrite drop_app_le by lia.
  - inversion Hok as [|? ? _ Hok']; subst. destruct (drop k h) as [|t q] eqn:Ed.
    + assert (k = length h) as -> by (apply (f_equal length) in Ed; rewrite length_drop in Ed; cbn in Ed; lia).
      rewrite (try_dequeue_none w e p u h Hh). apply fmap_Some in Hq as (outs' & Hq & ->).
      destruct (IH w e p u h (length h) outs') as (res & -> & Hres); [done|done|done|by rewrite Ed|].
      exists (None :: res). split; [done|]. unfold payloads in *. cbn. by rewrite Hres.
    + assert (h !! k = Some t) as Ht by (rewrite <- (Nat.add_0_r k), <- lookup_drop, Ed; done).
      destruct (try_dequeue_next w e p u h k t Hh ltac:(lia) Ht) as (e' & -> & Hh' & _).
      apply fmap_Some in Hq as (outs' & Hq & ->). pose proof (lookup_lt_Some _ _ _ Ht).
      destruct (IH w e' p u h (S k) outs') as (res & -> & Hres); [done|lia|done| |].
      { replace (S k) with (k + 1)%nat by lia. by rewrite <- drop_drop, Ed. }
      exists (Some (set_cycle (Nat.even (k / u)) t) :: res). split; [done|].
      unfold payloads in *. cbn. by rewrite Hres, payload_set_cycle.
Qed.
End event_ring.

(** C24: the event ring is a queue.  The controller posts events into a zeroed ring, with a
    cycle bit that flips on every lap; whenever the driver polls, it gets the oldest event
    it has not seen, once and in order, and nothing when there is none, as long as no more
    events are outstanding than the ring has slots. *)
Theorem event_ring_fifo {W} `{DmaSpec W} (w : W) e ops outs :
  0 < er_size e -> er_dequeue e = 0 -> er_cycle e = true ->
  (forall i, (i < Z.to_nat (er_size e))%nat -> cycle (slot w (event_ring_phys e) i) = false) ->
  Forall (fun o => match o with Produce t => trb_ok t | Fetch => True end) ops ->
  queue_run (Z.to_nat (er_size e)) [] ops = Some outs ->
  exists res, event_run w e (mkProducer 0 true) ops = Ok res /\ payloads res = payloads outs.
Proof.
  intros Hsz Hd Hc Hz Hok Hq.
  apply (event_run_refines ops w e _ (Z.to_nat (er_size e)) [] 0); [|cbn; lia|done|done].
  split; [lia|]. cbn [length]. rewrite Nat.Div0.mod_0_l, Nat.Div0.div_0_l. split; [lia|].
  split; [done|]. split; [done|]. split; [done|]. by apply laps_nil.
Qed.

(** ** A concrete host *)

Module HostDemo.

(** Byte-addressed memory, mapped 4096 above the physical addresses, and a bump
    allocator. *)
Record Host := mkHost {
  h_mem : Z -> byte;
  h_next : Z;
}.

Definition virt (v : Z) : Z := v - 4096.

Definition alloc (size align : Z) (w : Host) : Host * option Z :=
  let a := align_up_div (h_next w) align in
  if (virt a mod align =? 0) && (0 <=? virt a) && (virt a + size <=? 2 ^ 64)
  then (mkHost (h_mem w) (a + size), Some a) else (w, None).

Definition write (v : Z) (b : bytes) (w : Host) : Host :=
  mkHost (fun p => if (virt v <=? p) && (p <? virt v + zlen b)
                   then default Byte.x00 (b !! Z.to_nat (p - virt v)) else h_mem w p) (h_next w).

Definition read (v n : Z) (w : Host) : Host * bytes :=
  (w, (fun i => h_mem w (virt v + Z.of_nat i)) <$> seq 0 (Z.to_nat n)).

#[global] Instance host_io : XhcIo Host := {|
  host_alloc := alloc;
  host_free _ _ _ w := w;
  map_mmio p _ w := (w, Some p);
  unmap_mmio _ _ w := w;
  virt_to_phys := virt;
  mem_read := read;
  mem_write := write;
  reg_read8 _ w := (w, 0);
  reg_read32 _ w := (w, 0);
  reg_write32 _ _ w := w;
  reg_write64 _ _ w := w;
|}.

#[global] Program Instance host_spec : DmaSpec Host := {| phys_at := h_mem |}.
Next Obligation. intros a k. cbn. unfold virt. lia. Qed.
Next Obligation. done. Qed.
Next Obligation. done. Qed.
Next Obligation. done. Qed.
Next Obligation. done. Qed.
Next Obligation.
  intros size align w w' a _ _ _. cbn. unfold alloc. destruct (_ && _) eqn:E; [|done]. intros [= <- <-].
  bool_to_prop. done.
Qed.

Definition start : Host := mkHost (fun p => byte.of_Z p) 5000.

Definition word (n : Z) : Trb := mkTrb n 0 (Z.shiftl TrbType.NORMAL 10).

(** Eight TRBs through a ring with room for three, interleaved with fetches. *)
Definition traffic : list ring_op :=
  [Fetch; Produce (word 1); Produce (word 2); Fetch; Produce (word 3); Fetch; Fetch; Fetch;
   Produce (word 4); Produce (word 5); Fetch; Fetch; Produce (word 6); Fetch].

Definition ring4 : Ring := mkRing (mkPhysMem 5056 64 64) 0 true 4.
Definition events2 : EventRing := mkEventRing (mkPhysMem 5056 32 64) (mkPhysMem 8192 4096 64) 2 0 true.
Definition zeroed : Host := write 5056 (zeros 64) start.
End HostDemo.

Lemma transfer_ring_fifo_witness :
  exists res,
    ring_run (fst (ring_new 4 HostDemo.start)) HostDemo.ring4 (mkConsumer (ring_phys HostDemo.ring4) true)
      HostDemo.traffic = Ok res /\
    payloads res = payloads [None; Some (HostDemo.word 1); Some (HostDemo.word 2); Some (HostDemo.word 3); None;
                             Some (HostDemo.word 4); Some (HostDemo.word 5); Some (HostDemo.word 6)].
Proof.
  apply (transfer_ring_fifo HostDemo.start (fst (ring_new 4 HostDemo.start)) 4 HostDemo.ring4).
  - ulia.
  - reflexivity.
  - repeat constructor; vm_compute; intros; discriminate.
  - vm_compute. reflexivity.
Defined.

Lemma event_ring_fifo_witness :
  exists res,
    event_run HostDemo.zeroed HostDemo.events2 (mkProducer 0 true) HostDemo.traffic = Ok res /\
    payloads res = payloads [None; Some (HostDemo.word 1); Some (HostDemo.word 2); Some (HostDemo.word 3); None;
                             Some (HostDemo.word 4); Some (HostDemo.word 5); Some (HostDemo.word 6)].
Proof.
  apply (event_ring_fifo HostDemo.zeroed HostDemo.events2); [done|done|done| | |].
  - intros i Hi. change (Z.to_nat (er_size HostDemo.events2)) with 2%nat in Hi.
    destruct i as [|[|i]]; [by vm_compute..|lia].
  - repeat constructor; vm_compute; intros; discriminate.
  - vm_compute. reflexivity.
Defined.
