(* ===== verification/UsbDesc.v ===== *)
(** * USB descriptors and set-up packets

    usb-oxide/src/desc.rs, and the walks over a configuration descriptor of
    usb-oxide/src/msc.rs and usb-oxide/src/hid.rs: a list of length-prefixed
    descriptors, each interface followed by its endpoints. *)

From S2P Require Import Prelude UsbRing.

Module DescType.
Definition DEVICE : Z := 1.
Definition CONFIGURATION : Z := 2.
Definition STRING : Z := 3.
Definition INTERFACE : Z := 4.
Definition ENDPOINT : Z := 5.
Definition HUB : Z := 0x29.
End DescType.

Module UsbClass.
Definition HID : Z := 0x03.
Definition MASS_STORAGE : Z := 0x08.
End UsbClass.

Definition MSC_BBB : Z := 0x50.

Module EpType.
Definition CONTROL : Z := 0.
Definition ISOCHRONOUS : Z := 1.
Definition BULK : Z := 2.
Definition INTERRUPT : Z := 3.
End EpType.

(** ** Packed structures *)

(** The [u8] and little-endian [u16] at an offset of a packed structure. *)
Definition u8_at (b : bytes) (off : Z) : Z := le_combine (slice b off (off + 1)).
Definition u16_at (b : bytes) (off : Z) : Z := le_combine (slice b off (off + 2)).

Record DeviceDesc := mkDeviceDesc {
  dd_length : Z;
  dd_desc_type : Z;
  dd_bcd_usb : Z;
  dd_device_class : Z;
  dd_device_subclass : Z;
  dd_device_protocol : Z;
  dd_max_packet_size0 : Z;
  dd_vendor_id : Z;
  dd_product_id : Z;
  dd_bcd_device : Z;
  dd_manufacturer : Z;
  dd_product : Z;
  dd_serial_number : Z;
  dd_num_configurations : Z;
}.

Definition device_desc_of (b : bytes) : DeviceDesc :=
  mkDeviceDesc (u8_at b 0) (u8_at b 1) (u16_at b 2) (u8_at b 4) (u8_at b 5) (u8_at b 6) (u8_at b 7)
    (u16_at b 8) (u16_at b 10) (u16_at b 12) (u8_at b 14) (u8_at b 15) (u8_at b 16) (u8_at b 17).

Record InterfaceDesc := mkInterfaceDesc {
  id_length : Z;
  id_desc_type : Z;
  id_interface_number : Z;
  id_alternate_setting : Z;
  id_num_endpoints : Z;
  id_interface_class : Z;
  id_interface_subclass : Z;
  id_interface_protocol : Z;
  id_interface : Z;
}.

Definition interface_desc_of (b : bytes) : InterfaceDesc :=
  mkInterfaceDesc (u8_at b 0) (u8_at b 1) (u8_at b 2) (u8_at b 3) (u8_at b 4) (u8_at b 5) (u8_at b 6)
    (u8_at b 7) (u8_at b 8).

Definition interface_from_bytes (b : bytes) : option InterfaceDesc :=
  if zlen b <? 9 then None else Some (interface_desc_of b).

Record EndpointDesc := mkEndpointDesc {
  ed_length : Z;
  ed_desc_type : Z;
  ed_endpoint_address : Z;
  ed_attributes : Z;
  ed_max_packet_size : Z;
  ed_interval : Z;
}.

Definition endpoint_desc_of (b : bytes) : EndpointDesc :=
  mkEndpointDesc (u8_at b 0) (u8_at b 1) (u8_at b 2) (u8_at b 3) (u16_at b 4) (u8_at b 6).

Definition endpoint_from_bytes (b : bytes) : option EndpointDesc :=
  if zlen b <? 7 then None else Some (endpoint_desc_of b).

Definition number (e : EndpointDesc) : Z := Z.land (ed_endpoint_address e) 0x0f.
Definition is_in (e : EndpointDesc) : bool := has (ed_endpoint_address e) 0x80.
Definition is_out (e : EndpointDesc) : bool := Z.land (ed_endpoint_address e) 0x80 =? 0.
Definition transfer_type (e : EndpointDesc) : Z := Z.land (ed_attributes e) 0x03.
Definition sync_type (e : EndpointDesc) : Z := Z.land (Z.shiftr (ed_attributes e) 2) 0x03.
Definition usage_type (e : EndpointDesc) : Z := Z.land (Z.shiftr (ed_attributes e) 4) 0x03.
Definition packet_size (e : EndpointDesc) : Z := Z.land (ed_max_packet_size e) 0x07ff.
Definition additional_transactions (e : EndpointDesc) : Z := Z.land (Z.shiftr (ed_max_packet_size e) 11) 0x03.

(** ** Set-up packets *)

Record SetupPacket := mkSetupPacket {
  sp_request_type : Z;
  sp_request : Z;
  sp_value : Z;
  sp_index : Z;
  sp_length : Z;
}.

(** [*(setup as *const SetupPacket as *const u64)]: the packed structure as a word. *)
Definition setup_bytes (s : SetupPacket) : bytes :=
  le_split 1 (sp_request_type s) ++ le_split 1 (sp_request s) ++ le16 (sp_value s) ++ le16 (sp_index s) ++ le16 (sp_length s).
Definition setup_word (s : SetupPacket) : Z := le_combine (setup_bytes s).

Module Request.
Definition GET_STATUS : Z := 0.
Definition CLEAR_FEATURE : Z := 1.
Definition SET_FEATURE : Z := 3.
Definition GET_DESCRIPTOR : Z := 6.
Definition GET_CONFIGURATION : Z := 8.
Definition SET_CONFIGURATION : Z := 9.
Definition GET_INTERFACE : Z := 10.
Definition SET_INTERFACE : Z := 11.
Definition SYNCH_FRAME : Z := 12.
End Request.

(** [((hi as u16) << 8) | (lo as u16)] *)
Definition word16 (hi lo : Z) : Z := Z.lor (Z.shiftl hi 8) lo.

Definition get_device_status : SetupPacket := mkSetupPacket 0x80 Request.GET_STATUS 0 0 2.
Definition get_interface_status (interface : Z) : SetupPacket := mkSetupPacket 0x81 Request.GET_STATUS 0 interface 2.
Definition get_endpoint_status (endpoint : Z) : SetupPacket := mkSetupPacket 0x82 Request.GET_STATUS 0 endpoint 2.
Definition clear_device_feature (feature : Z) : SetupPacket := mkSetupPacket 0x00 Request.CLEAR_FEATURE feature 0 0.
Definition clear_interface_feature (feature interface : Z) : SetupPacket :=
  mkSetupPacket 0x01 Request.CLEAR_FEATURE feature interface 0.
Definition clear_endpoint_feature (feature endpoint : Z) : SetupPacket :=
  mkSetupPacket 0x02 Request.CLEAR_FEATURE feature endpoint 0.
Definition set_device_feature (feature : Z) : SetupPacket := mkSetupPacket 0x00 Request.SET_FEATURE feature 0 0.
Definition set_endpoint_feature (feature endpoint : Z) : SetupPacket :=
  mkSetupPacket 0x02 Request.SET_FEATURE feature endpoint 0.
Definition get_descriptor (desc_type index length : Z) : SetupPacket :=
  mkSetupPacket 0x80 Request.GET_DESCRIPTOR (word16 desc_type index) 0 length.
Definition get_string_descriptor (index lang_id length : Z) : SetupPacket :=
  mkSetupPacket 0x80 Request.GET_DESCRIPTOR (word16 DescType.STRING index) lang_id length.
Definition get_configuration : SetupPacket := mkSetupPacket 0x80 Request.GET_CONFIGURATION 0 0 1.
Definition setup_set_configuration (config : Z) : SetupPacket := mkSetupPacket 0x00 Request.SET_CONFIGURATION config 0 0.
Definition get_interface (interface : Z) : SetupPacket := mkSetupPacket 0x81 Request.GET_INTERFACE 0 interface 1.
Definition set_interface (interface alt_setting : Z) : SetupPacket :=
  mkSetupPacket 0x01 Request.SET_INTERFACE alt_setting interface 0.
Definition synch_frame (endpoint : Z) : SetupPacket := mkSetupPacket 0x82 Request.SYNCH_FRAME 0 endpoint 2.
Definition hid_get_report (interface report_type report_id length : Z) : SetupPacket :=
  mkSetupPacket 0xa1 0x01 (word16 report_type report_id) interface length.
Definition hid_get_idle (interface report_id : Z) : SetupPacket := mkSetupPacket 0xa1 0x02 report_id interface 1.
Definition hid_get_protocol (interface : Z) : SetupPacket := mkSetupPacket 0xa1 0x03 0 interface 1.
Definition hid_set_report (interface report_type report_id length : Z) : SetupPacket :=
  mkSetupPacket 0x21 0x09 (word16 report_type report_id) interface length.
Definition setup_set_idle (interface duration report_id : Z) : SetupPacket :=
  mkSetupPacket 0x21 0x0a (word16 duration report_id) interface 0.
Definition setup_set_protocol (interface protocol : Z) : SetupPacket := mkSetupPacket 0x21 0x0b protocol interface 0.
Definition hub_get_status : SetupPacket := mkSetupPacket 0xa0 Request.GET_STATUS 0 0 4.
Definition hub_get_port_status (port : Z) : SetupPacket := mkSetupPacket 0xa3 Request.GET_STATUS 0 port 4.
Definition hub_set_port_feature (feature port : Z) : SetupPacket := mkSetupPacket 0x23 Request.SET_FEATURE feature port 0.
Definition hub_clear_port_feature (feature port : Z) : SetupPacket := mkSetupPacket 0x23 Request.CLEAR_FEATURE feature port 0.
Definition hub_get_descriptor (length : Z) : SetupPacket :=
  mkSetupPacket 0xa0 Request.GET_DESCRIPTOR (Z.shiftl DescType.HUB 8) 0 length.
Definition msc_get_max_lun (interface : Z) : SetupPacket := mkSetupPacket 0xa1 0xfe 0 interface 1.
Definition msc_reset (interface : Z) : SetupPacket := mkSetupPacket 0x21 0xff 0 interface 0.

(** ** Walks over a configuration descriptor *)

(** [config[i]] *)
Definition at_byte {E} (b : bytes) (i : Z) : outcome E Z :=
  match b !! Z.to_nat i with Some x => Ok (bz x) | None => Panic end.

Definition MscInterface : Type := InterfaceDesc * EndpointDesc * EndpointDesc.

Record MscScan := mkMscScan {
  ms_iface : option InterfaceDesc;
  ms_in : option EndpointDesc;
  ms_out : option EndpointDesc;
}.

Definition complete (s : MscScan) : option MscInterface :=
  match ms_iface s, ms_in s, ms_out s with
  | Some iface, Some ein, Some eout => Some (iface, ein, eout)
  | _, _, _ => None
  end.

Definition push_complete (s : MscScan) (result : list MscInterface) : list MscInterface :=
  match complete s with Some m => result ++ [m] | None => result end.

Definition add_bulk (ep : EndpointDesc) (s : MscScan) : MscScan :=
  if transfer_type ep =? EpType.BULK then
    if is_in ep then mkMscScan (ms_iface s) (Some ep) (ms_out s)
    else mkMscScan (ms_iface s) (ms_in s) (Some ep)
  else s.

(** The loop of [find_msc_interfaces]; a descriptor is read through a raw pointer, so a
    read past the end is a panic here. *)
Fixpoint msc_loop (fuel : nat) (config : bytes) (offset : Z) (s : MscScan) (result : list MscInterface)
    : outcome UsbError (list MscInterface) :=
  if negb (offset + 2 <=? zlen config) then Ok (push_complete s result) else
  match fuel with
  | O => OutOfFuel
  | S fuel =>
      let? len := at_byte config offset in
      let? dtype := at_byte config (offset + 1) in
      if (len =? 0) || (zlen config <? offset + len) then Ok (push_complete s result) else
      if (dtype =? DescType.INTERFACE) && (9 <=? len) then
        let result := push_complete s result in
        let? b := get_slice config offset (offset + 9) in
        let iface := interface_desc_of b in
        let s :=
          if (id_interface_class iface =? UsbClass.MASS_STORAGE) && (id_interface_protocol iface =? MSC_BBB)
          then mkMscScan (Some iface) None None
          else mkMscScan None (ms_in s) (ms_out s) in
        msc_loop fuel config (offset + len) s result
      else if (dtype =? DescType.ENDPOINT) && (7 <=? len) then
        match ms_iface s with
        | Some _ =>
            let? b := get_slice config offset (offset + 7) in
            msc_loop fuel config (offset + len) (add_bulk (endpoint_desc_of b) s) result
        | None => msc_loop fuel config (offset + len) s result
        end
      else msc_loop fuel config (offset + len) s result
  end.

Definition find_msc_interfaces (config : bytes) : outcome UsbError (list MscInterface) :=
  msc_loop (length config) config 0 (mkMscScan None None None) [].

(** The scan of [MscDevice::new]: the interface and endpoints it settles on. *)
Fixpoint msc_new_loop (fuel : nat) (config : bytes) (offset : Z) (s : MscScan) : outcome UsbError MscScan :=
  if negb (offset + 2 <=? zlen config) then Ok s else
  match fuel with
  | O => OutOfFuel
  | S fuel =>
      let? len := at_byte config offset in
      let? ty := at_byte config (offset + 1) in
      if (len <? 2) || (zlen config <? offset + len) then Ok s else
      if ty =? DescType.INTERFACE then
        match complete s with
        | Some _ => Ok s
        | None =>
            let? b := get_slice config offset (offset + len) in
            match interface_from_bytes b with
            | None => Err ParseError
            | Some iface =>
                msc_new_loop fuel config (offset + len)
                  (if id_interface_class iface =? UsbClass.MASS_STORAGE
                   then mkMscScan (Some iface) None None
                   else mkMscScan None (ms_in s) (ms_out s))
            end
        end
      else if (ty =? DescType.ENDPOINT) && (match ms_iface s with Some _ => true | None => false end) then
        let? b := get_slice config offset (offset + len) in
        match endpoint_from_bytes b with
        | None => Err ParseError
        | Some ep => msc_new_loop fuel config (offset + len) (add_bulk ep s)
        end
      else msc_new_loop fuel config (offset + len) s
  end.

Definition msc_new_scan (config : bytes) : outcome UsbError (option MscInterface) :=
  let? s := msc_new_loop (length config) config 0 (mkMscScan None None None) in Ok (complete s).

(** The loop of [find_hid_interfaces]. *)
Fixpoint hid_loop (fuel : nat) (config : bytes) (offset : Z) (current : option InterfaceDesc)
    (result : list (InterfaceDesc * EndpointDesc)) : outcome UsbError (list (InterfaceDesc * EndpointDesc)) :=
  if negb (offset + 2 <=? zlen config) then Ok result else
  match fuel with
  | O => OutOfFuel
  | S fuel =>
      let? len := at_byte config offset in
      let? dtype := at_byte config (offset + 1) in
      if (len =? 0) || (zlen config <? offset + len) then Ok result else
      if (dtype =? DescType.INTERFACE) && (9 <=? len) then
        let? b := get_slice config offset (offset + 9) in
        let iface := interface_desc_of b in
        hid_loop fuel config (offset + len)
          (if id_interface_class iface =? UsbClass.HID then Some iface else None) result
      else if (dtype =? DescType.ENDPOINT) && (7 <=? len) then
        match current with
        | Some iface =>
            let? b := get_slice config offset (offset + 7) in
            let ep := endpoint_desc_of b in
            if is_in ep && (transfer_type ep =? EpType.INTERRUPT)
            then hid_loop fuel config (offset + len) None (result ++ [(iface, ep)])
            else hid_loop fuel config (offset + len) current result
        | None => hid_loop fuel config (offset + len) current result
        end
      else hid_loop fuel config (offset + len) current result
  end.

Definition find_hid_interfaces (config : bytes) : outcome UsbError (list (InterfaceDesc * EndpointDesc)) :=
  hid_loop (length config) config 0 None [].
