(* ===== verification/UsbDescTheorems.v ===== *)
(** * USB descriptors: theorems

    [descs] cuts a configuration descriptor into its length-prefixed parts and [interfaces]
    groups the endpoints under their interfaces.  The one-pass walks of the drivers find
    exactly the groups they look for, read nothing outside the descriptor, and end, on any
    bytes a device may send. *)

From S2P Require Import Prelude UsbRing UsbDesc.

(** ** The reference reading *)

(** The descriptors of at least [min] bytes, up to the first that does not fit. *)
Fixpoint descs (fuel : nat) (min : Z) (rest : bytes) : list bytes :=
  match fuel, rest with
  | S fuel, len :: _ :: _ =>
      if (bz len <? min) || (zlen rest <? bz len) then []
      else ztake (bz len) rest :: descs fuel min (zdrop (bz len) rest)
  | _, _ => []
  end.

Definition desc_type (d : bytes) : Z := match d with _ :: t :: _ => bz t | _ => 0 end.
Definition is_iface (d : bytes) : bool := (desc_type d =? DescType.INTERFACE) && (9 <=? zlen d).
Definition is_endpoint (d : bytes) : bool := (desc_type d =? DescType.ENDPOINT) && (7 <=? zlen d).

Definition group (d : bytes) (acc : list EndpointDesc * list (InterfaceDesc * list EndpointDesc)) :=
  if is_iface d then ([], (interface_desc_of d, acc.1) :: acc.2)
  else if is_endpoint d then (endpoint_desc_of d :: acc.1, acc.2)
  else acc.

Definition grouped (ds : list bytes) := foldr group ([], []) ds.
Definition interfaces (ds : list bytes) : list (InterfaceDesc * list EndpointDesc) := (grouped ds).2.

Definition bulk_in (e : EndpointDesc) : bool := (transfer_type e =? EpType.BULK) && is_in e.
Definition bulk_out (e : EndpointDesc) : bool := (transfer_type e =? EpType.BULK) && negb (is_in e).

(** An interface with a bulk endpoint in each direction (the last of each counts). *)
Definition bulk_pair (g : InterfaceDesc * list EndpointDesc) : option MscInterface :=
  match last (List.filter bulk_in g.2), last (List.filter bulk_out g.2) with
  | Some i, Some o => Some (g.1, i, o)
  | _, _ => None
  end.

Definition is_msc (g : InterfaceDesc * list EndpointDesc) : bool := id_interface_class g.1 =? UsbClass.MASS_STORAGE.
Definition is_bbb (g : InterfaceDesc * list EndpointDesc) : bool := is_msc g && (id_interface_protocol g.1 =? MSC_BBB).

Definition interrupt_in (e : EndpointDesc) : bool := is_in e && (transfer_type e =? EpType.INTERRUPT).

Definition hid_pair (g : InterfaceDesc * list EndpointDesc) : option (InterfaceDesc * EndpointDesc) :=
  match List.filter interrupt_in g.2 with e :: _ => Some (g.1, e) | [] => None end.

(** ** Cutting *)

Lemma zdrop_two (l : bytes) off :
  0 <= off -> off + 2 <= zlen l -> exists a b r, zdrop off l = a :: b :: r.
Proof.
  intros Ho Hl. pose proof (zlen_zdrop off l Ho) as Hz.
  destruct (zdrop off l) as [|a [|b r]]; unfold zlen in *; cbn in Hz; [lia|lia|eauto].
Qed.

Lemma at_byte_drop {E} (l : bytes) off i x :
  0 <= off -> zdrop off l !! i = Some x -> at_byte (E := E) l (off + Z.of_nat i) = Ok (bz x).
Proof.
  intros Ho Hx. unfold at_byte, zdrop in *. rewrite lookup_drop in Hx.
  replace (Z.to_nat (off + Z.of_nat i)) with (Z.to_nat off + i)%nat by lia. by rewrite Hx.
Qed.

Lemma bz_range b : 0 <= bz b < 256.
Proof. apply byte.unsigned_range. Qed.

Lemma at_byte_range {E} l i x : at_byte (E := E) l i = Ok x -> 0 <= x < 256.
Proof. unfold at_byte. case_match; [|done]. intros [= <-]. apply bz_range. Qed.

Lemma slice_ztake (b : bytes) n i j : 0 <= i -> j <= n -> slice (ztake n b) i j = slice b i j.
Proof.
  intros Hi Hj. unfold slice. rewrite zdrop_ztake by done. rewrite ztake_ztake. f_equal. lia.
Qed.

Lemma interface_ztake n b : 9 <= n -> interface_desc_of (ztake n b) = interface_desc_of b.
Proof. intros Hn. unfold interface_desc_of, u8_at. by rewrite !slice_ztake by lia. Qed.

Lemma endpoint_ztake n b : 7 <= n -> endpoint_desc_of (ztake n b) = endpoint_desc_of b.
Proof. intros Hn. unfold endpoint_desc_of, u8_at, u16_at. by rewrite !slice_ztake by lia. Qed.

(** One round of a walk: the length and type bytes it reads, and the part it cuts. *)
Inductive walk_view (fuel : nat) (min : Z) (config : bytes) (offset : Z) : list bytes -> Prop :=
  | walk_end : zlen config < offset + 2 -> walk_view fuel min config offset []
  | walk_stop fuel' len ty :
      fuel = S fuel' -> offset + 2 <= zlen config ->
      at_byte (E := UsbError) config offset = Ok len -> at_byte (E := UsbError) config (offset + 1) = Ok ty ->
      (len <? min) || (zlen config <? offset + len) = true -> walk_view fuel min config offset []
  | walk_part fuel' len ty d :
      fuel = S fuel' -> offset + 2 <= zlen config ->
      at_byte (E := UsbError) config offset = Ok len -> at_byte (E := UsbError) config (offset + 1) = Ok ty ->
      (2 <= len -> ty = desc_type d) ->
      (len <? min) || (zlen config <? offset + len) = false -> 1 <= len ->
      d = slice config offset (offset + len) -> zlen d = len ->
      zlen config - (offset + len) <= Z.of_nat fuel' ->
      walk_view fuel min config offset (d :: descs fuel' min (zdrop (offset + len) config)).

Lemma walk fuel min config offset :
  1 <= min <= 2 -> 0 <= offset -> zlen config - offset <= Z.of_nat fuel ->
  walk_view fuel min config offset (descs fuel min (zdrop offset config)).
Proof.
  intros Hmin Ho Hf. destruct (decide (offset + 2 <= zlen config)) as [Hl|Hl].
  2: { assert (descs fuel min (zdrop offset config) = []) as ->; [|apply walk_end; lia].
       pose proof (zlen_zdrop offset config Ho). destruct fuel; [done|].
       destruct (zdrop offset config) as [|a [|b r]]; [done..|]. unfold zlen in *. cbn in *. lia. }
  destruct fuel as [|fuel]; [lia|].
  destruct (zdrop_two config offset Ho Hl) as (a & b & r & Ez).
  assert (at_byte (E := UsbError) config offset = Ok (bz a)) as Ea.
  { rewrite <- (Z.add_0_r offset). by apply (at_byte_drop config offset 0); [|rewrite Ez]. }
  assert (at_byte (E := UsbError) config (offset + 1) = Ok (bz b)) as Eb.
  { by apply (at_byte_drop config offset 1); [|rewrite Ez]. }
  pose proof (zlen_zdrop offset config Ho) as Hz. pose proof (bz_range a).
  rewrite Ez. cbn [descs]. rewrite <- Ez, Hz.
  replace (Z.max 0 (zlen config - offset) <? bz a) with (zlen config <? offset + bz a) by lia.
  destruct ((bz a <? min) || (zlen config <? offset + bz a)) eqn:E; [by eapply walk_stop|].
  pose proof E as E'. bool_to_prop. rewrite zdrop_zdrop by lia.
  assert (zlen (ztake (bz a) (zdrop offset config)) = bz a) as Hd by (rewrite zlen_ztake, Hz; lia).
  eapply (walk_part _ _ _ _ fuel (bz a) (bz b)); try done; try lia.
  - intros Hlen. rewrite Ez. unfold ztake. by destruct (Z.to_nat (bz a)) as [|[|n]] eqn:En; [lia|lia|].
  - unfold slice. f_equal. lia.
Qed.

(** ** The walks *)

Definition add_all (eps : list EndpointDesc) (s : MscScan) : MscScan :=
  match ms_iface s with Some _ => fold_left (fun s e => add_bulk e s) eps s | None => s end.

Lemma add_bulk_iface e s : ms_iface (add_bulk e s) = ms_iface s.
Proof. unfold add_bulk. by repeat case_match. Qed.

Lemma add_all_cons e eps s : add_all (e :: eps) s = add_all eps (match ms_iface s with Some _ => add_bulk e s | None => s end).
Proof. unfold add_all. destruct (ms_iface s) eqn:E; [by rewrite add_bulk_iface, E|by rewrite E]. Qed.

Lemma add_all_fields eps iface i o :
  add_all eps (mkMscScan (Some iface) i o)
  = mkMscScan (Some iface)
      (match last (List.filter bulk_in eps) with Some e => Some e | None => i end)
      (match last (List.filter bulk_out eps) with Some e => Some e | None => o end).
Proof.
  unfold add_all. cbn [ms_iface]. revert i o. induction eps as [|e eps IH]; intros i o; [done|].
  cbn [fold_left List.filter]. unfold add_bulk, bulk_in, bulk_out in *.
  destruct (transfer_type e =? EpType.BULK); cbn [andb]; [|apply IH].
  destruct (is_in e); cbn [negb ms_iface ms_in ms_out]; rewrite IH; f_equal;
    rewrite ?last_cons; repeat case_match; by simplify_eq.
Qed.

Lemma complete_add_all eps iface :
  complete (add_all eps (mkMscScan (Some iface) None None)) = bulk_pair (iface, eps).
Proof. rewrite add_all_fields. unfold complete, bulk_pair. cbn [ms_iface ms_in ms_out fst snd].
  by destruct (last (List.filter bulk_in eps)), (last (List.filter bulk_out eps)). Qed.

Lemma complete_none s : ms_iface s = None -> complete s = None.
Proof. unfold complete. by intros ->. Qed.

Definition found (f : InterfaceDesc * list EndpointDesc -> bool) (gs : list (InterfaceDesc * list EndpointDesc)) :=
  omap bulk_pair (List.filter f gs).

Lemma push_complete_app s result :
  push_complete s result = result ++ match complete s with Some m => [m] | None => [] end.
Proof. unfold push_complete. destruct (complete s); [done|by rewrite app_nil_r]. Qed.

Lemma found_cons f iface eps gs :
  found f ((iface, eps) :: gs)
  = (if f (iface, eps) then match bulk_pair (iface, eps) with Some m => [m] | None => [] end else []) ++ found f gs.
Proof. unfold found. cbn [List.filter]. destruct (f (iface, eps)); [|done]. cbn [omap list_omap]. by destruct (bulk_pair _). Qed.

(** The part cut at [offset], seen through its first bytes. *)
Lemma part_type (ty len k T : Z) (d : bytes) :
  2 <= k -> zlen d = len -> (2 <= len -> ty = desc_type d) -> (ty =? T) && (k <=? len) = (desc_type d =? T) && (k <=? zlen d).
Proof.
  intros Hk <- Hty. destruct (Z.leb_spec k (zlen d)); [|by rewrite !andb_false_r]. by rewrite Hty by lia.
Qed.

Lemma part_interface config offset n :
  9 <= n -> interface_desc_of (slice config offset (offset + n)) = interface_desc_of (zdrop offset config).
Proof. intros Hn. unfold slice. apply interface_ztake. lia. Qed.

Lemma part_endpoint config offset n :
  7 <= n -> endpoint_desc_of (slice config offset (offset + n)) = endpoint_desc_of (zdrop offset config).
Proof. intros Hn. unfold slice. apply endpoint_ztake. lia. Qed.

Lemma msc_loop_exact config fuel : forall offset s result,
  0 <= offset -> zlen config - offset <= Z.of_nat fuel ->
  let g := grouped (descs fuel 1 (zdrop offset config)) in
  msc_loop fuel config offset s result = Ok (push_complete (add_all g.1 s) result ++ found is_bbb g.2).
Proof.
  assert (forall s result, push_complete (add_all [] s) result ++ found is_bbb [] = push_complete s result) as Hnil.
  { intros s result. rewrite app_nil_r. unfold add_all. cbn. by destruct (ms_iface s). }
  induction fuel as [|fuel IH]; intros offset s result Ho Hf; cbv zeta;
    destruct (walk _ 1 config offset ltac:(lia) Ho Hf) as [Hend|fuel' len ty Hfu Hin Ea Eb Estop|fuel' len ty d Hfu Hin Ea Eb Hty Estop Hlen Hd Hdl Hfuel];
    try done; cbn [msc_loop grouped foldr fst snd].
  1, 2: guard_true (negb (offset + 2 <=? zlen config)); by rewrite Hnil.
  - guard_false (negb (offset + 2 <=? zlen config)). rewrite Ea, Eb. cbn [obind].
    replace (len =? 0) with (len <? 1) by (apply at_byte_range in Ea; lia). by rewrite Estop, Hnil.
  - injection Hfu as <-. guard_false (negb (offset + 2 <=? zlen config)). rewrite Ea, Eb. cbn [obind].
    replace (len =? 0) with (len <? 1) by lia. rewrite Estop. bool_to_prop.
    fold (grouped (descs fuel 1 (zdrop (offset + len) config))).
    specialize (IH (offset + len)). cbv zeta in IH.
    set (g := grouped (descs fuel 1 (zdrop (offset + len) config))) in *.
    rewrite (part_type ty len 9 DescType.INTERFACE d), (part_type ty len 7 DescType.ENDPOINT d) by (done || lia).
    fold (is_iface d) (is_endpoint d). unfold group.
    destruct (is_iface d) eqn:Ei; [|destruct (is_endpoint d) eqn:Ee]; cbn [fst snd].
    + unfold is_iface in Ei. bool_to_prop. rewrite get_slice_ok by lia. cbn [obind].
      rewrite IH by lia. rewrite part_interface by lia. rewrite Hd at 1. rewrite (part_interface config offset len) by lia.
      set (iface := interface_desc_of (zdrop offset config)). rewrite found_cons, (push_complete_app _ (push_complete s result)), <- app_assoc.
      assert (add_all [] s = s) as -> by (unfold add_all; by destruct (ms_iface s)). do 3 f_equal.
      unfold is_bbb, is_msc. cbn [fst]. destruct (_ && _).
      * by rewrite complete_add_all.
      * by rewrite complete_none.
    + unfold is_endpoint in Ee. bool_to_prop. rewrite add_all_cons. destruct (ms_iface s) as [i|] eqn:Em; [|by apply IH; lia].
      rewrite get_slice_ok by lia. cbn [obind]. rewrite IH by lia. rewrite part_endpoint by lia. rewrite Hd.
      by rewrite (part_endpoint config offset len) by lia.
    + apply IH; lia.
Qed.

Definition is_hid (g : InterfaceDesc * list EndpointDesc) : bool := id_interface_class g.1 =? UsbClass.HID.

Definition hids (gs : list (InterfaceDesc * list EndpointDesc)) := omap hid_pair (List.filter is_hid gs).

Definition hid_first (current : option InterfaceDesc) (eps : list EndpointDesc) : list (InterfaceDesc * EndpointDesc) :=
  match current with
  | Some iface => match hid_pair (iface, eps) with Some p => [p] | None => [] end
  | None => []
  end.

Lemma hid_loop_exact config fuel : forall offset current result,
  0 <= offset -> zlen config - offset <= Z.of_nat fuel ->
  let g := grouped (descs fuel 1 (zdrop offset config)) in
  hid_loop fuel config offset current result = Ok (result ++ hid_first current g.1 ++ hids g.2).
Proof.
  assert (forall current, hid_first current [] ++ hids [] = []) as Hnil by by intros [].
  induction fuel as [|fuel IH]; intros offset current result Ho Hf; cbv zeta;
    destruct (walk _ 1 config offset ltac:(lia) Ho Hf) as [Hend|fuel' len ty Hfu Hin Ea Eb Estop|fuel' len ty d Hfu Hin Ea Eb Hty Estop Hlen Hd Hdl Hfuel];
    try done; cbn [hid_loop grouped foldr fst snd].
  1, 2: guard_true (negb (offset + 2 <=? zlen config)); by rewrite Hnil, app_nil_r.
  - guard_false (negb (offset + 2 <=? zlen config)). rewrite Ea, Eb. cbn [obind].
    replace (len =? 0) with (len <? 1) by (apply at_byte_range in Ea; lia). by rewrite Estop, Hnil, app_nil_r.
  - injection Hfu as <-. guard_false (negb (offset + 2 <=? zlen config)). rewrite Ea, Eb. cbn [obind].
    replace (len =? 0) with (len <? 1) by lia. rewrite Estop. bool_to_prop.
    fold (grouped (descs fuel 1 (zdrop (offset + len) config))).
    specialize (IH (offset + len)). cbv zeta in IH.
    set (g := grouped (descs fuel 1 (zdrop (offset + len) config))) in *.
    rewrite (part_type ty len 9 DescType.INTERFACE d), (part_type ty len 7 DescType.ENDPOINT d) by (done || lia).
    fold (is_iface d) (is_endpoint d). unfold group.
    destruct (is_iface d) eqn:Ei; [|destruct (is_endpoint d) eqn:Ee]; cbn [fst snd].
    + unfold is_iface in Ei. bool_to_prop. rewrite get_slice_ok by lia. cbn [obind].
      rewrite IH by lia. rewrite part_interface by lia. rewrite Hd at 1. rewrite (part_interface config offset len) by lia.
      set (iface := interface_desc_of (zdrop offset config)).
      assert (hid_first current [] = []) as -> by by destruct current. cbn [app]. do 2 f_equal.
      unfold hids. cbn [List.filter]. unfold is_hid at 2. cbn [fst]. destruct (_ =? UsbClass.HID); [|done].
      cbn [omap list_omap]. unfold hid_first. by destruct (hid_pair _).
    + unfold is_endpoint in Ee. bool_to_prop. destruct current as [iface|]; [|by apply IH; lia].
      rewrite get_slice_ok by lia. cbn [obind]. rewrite part_endpoint by lia. rewrite Hd.
      rewrite (part_endpoint config offset len) by lia. unfold hid_first, hid_pair. cbn [snd fst List.filter].
      set (ep := endpoint_desc_of (zdrop offset config)).
      fold (interrupt_in ep). destruct (interrupt_in ep); rewrite IH by lia; [|done].
      by rewrite <- app_assoc.
    + apply IH; lia.
Qed.

(** Interface and endpoint descriptors are not truncated. *)
Definition wf_desc (d : bytes) : Prop :=
  (desc_type d = DescType.INTERFACE -> 9 <= zlen d) /\ (desc_type d = DescType.ENDPOINT -> 7 <= zlen d).

Lemma msc_new_loop_exact config fuel : forall offset s,
  0 <= offset -> zlen config - offset <= Z.of_nat fuel ->
  Forall wf_desc (descs fuel 2 (zdrop offset config)) ->
  let g := grouped (descs fuel 2 (zdrop offset config)) in
  exists s', msc_new_loop fuel config offset s = Ok s' /\
    complete s' = match complete (add_all g.1 s) with Some m => Some m | None => head (found is_msc g.2) end.
Proof.
  assert (forall s, match complete (add_all [] s) with Some m => Some m | None => head (found is_msc []) end = complete s) as Hnil.
  { intros s. assert (add_all [] s = s) as -> by (unfold add_all; by destruct (ms_iface s)). by destruct (complete s). }
  induction fuel as [|fuel IH]; intros offset s Ho Hf; cbv zeta;
    destruct (walk _ 2 config offset ltac:(lia) Ho Hf) as [Hend|fuel' len ty Hfu Hin Ea Eb Estop|fuel' len ty d Hfu Hin Ea Eb Hty Estop Hlen Hd Hdl Hfuel];
    try done; cbn [msc_new_loop grouped foldr fst snd]; intros Hwf.
  1, 2: guard_true (negb (offset + 2 <=? zlen config)); exists s; by rewrite Hnil.
  - guard_false (negb (offset + 2 <=? zlen config)). rewrite Ea, Eb. cbn [obind].
    rewrite Estop. exists s. by rewrite Hnil.
  - injection Hfu as <-. guard_false (negb (offset + 2 <=? zlen config)). rewrite Ea, Eb. cbn [obind].
    rewrite Estop. bool_to_prop. rewrite Hty by lia. inversion Hwf as [|? ? [Hwi Hwe] Hwf']; subst x l.
    fold (grouped (descs fuel 2 (zdrop (offset + len) config))).
    specialize (IH (offset + len)). cbv zeta in IH.
    set (g := grouped (descs fuel 2 (zdrop (offset + len) config))) in *.
    unfold group, is_iface, is_endpoint. destruct (desc_type d =? DescType.INTERFACE) eqn:Ei; cbn [andb fst snd].
    + bool_to_prop. specialize (Hwi Ei). guard_true (9 <=? zlen d). cbn [fst snd].
      assert (add_all [] s = s) as -> by (unfold add_all; by destruct (ms_iface s)).
      destruct (complete s) as [m|] eqn:Ec; [by exists s|].
      rewrite get_slice_ok by lia. cbn [obind]. rewrite <- Hd. unfold interface_from_bytes. guard_false (zlen d <? 9).
      set (iface := interface_desc_of d).
      destruct (IH (if id_interface_class iface =? UsbClass.MASS_STORAGE then mkMscScan (Some iface) None None
                    else mkMscScan None (ms_in s) (ms_out s))) as (s' & Hs' & Hc); [lia|lia|done|].
      exists s'. split; [done|]. rewrite Hc, found_cons. unfold is_msc at 2. cbn [fst].
      destruct (_ =? UsbClass.MASS_STORAGE); [rewrite complete_add_all; by destruct (bulk_pair _)|].
      by rewrite (complete_none (add_all _ _)).
    + destruct (desc_type d =? DescType.ENDPOINT) eqn:Ee; cbn [andb fst snd].
      * bool_to_prop. specialize (Hwe Ee). guard_true (7 <=? zlen d). cbn [fst snd]. rewrite add_all_cons.
        destruct (ms_iface s) as [i|]; [|by apply IH; (lia || done)].
        rewrite get_slice_ok by lia. cbn [obind]. rewrite <- Hd. unfold endpoint_from_bytes. guard_false (zlen d <? 7).
        apply IH; (lia || done).
      * apply IH; (lia || done).
Qed.

(** The parts of a whole configuration descriptor. *)
Definition parts (min : Z) (config : bytes) : list bytes := descs (length config) min config.

(** C25: the walks of the mass-storage and HID drivers over a configuration descriptor end
    on any bytes, read nothing outside it, and find exactly the interfaces a grouped
    reading of the descriptor gives: those of the class with a bulk endpoint in each
    direction, or with an interrupt-in endpoint.  On descriptors that are not truncated,
    the scan that creates a mass-storage device settles on the first such interface. *)
Theorem descriptor_walks_exact (config : bytes) :
  find_msc_interfaces config = Ok (found is_bbb (interfaces (parts 1 config))) /\
  find_hid_interfaces config = Ok (hids (interfaces (parts 1 config))) /\
  (Forall wf_desc (parts 2 config) -> msc_new_scan config = Ok (head (found is_msc (interfaces (parts 2 config))))).
Proof.
  unfold parts, interfaces, find_msc_interfaces, find_hid_interfaces, msc_new_scan.
  assert (zlen config - 0 <= Z.of_nat (length config)) as Hf by (unfold zlen; lia).
  rewrite (msc_loop_exact config _ 0), (hid_loop_exact config _ 0) by (done || lia).
  change (zdrop 0 config) with config. split; [done|]. split; [done|]. intros Hwf.
  destruct (msc_new_loop_exact config (length config) 0 (mkMscScan None None None)) as (s & -> & Hc); [lia|done|done|].
  cbn [obind]. by rewrite Hc.
Qed.

(** A configuration with a keyboard interface and a mass-storage interface. *)
Definition demo_config : bytes :=
  byte.of_Z <$>
  [9; 2; 55; 0; 2; 1; 0; 128; 50;
   9; 4; 0; 0; 1; 3; 1; 1; 0;  9; 33; 17; 1; 0; 1; 34; 65; 0;  7; 5; 129; 3; 8; 0; 10;
   9; 4; 1; 0; 2; 8; 6; 80; 0;  7; 5; 130; 2; 0; 2; 0;  7; 5; 3; 2; 0; 2; 0].

Lemma descriptor_walks_exact_witness :
  find_msc_interfaces demo_config = Ok (found is_bbb (interfaces (parts 1 demo_config))) /\
  find_hid_interfaces demo_config = Ok (hids (interfaces (parts 1 demo_config))) /\
  msc_new_scan demo_config
    = Ok (Some (mkInterfaceDesc 9 4 1 0 2 8 6 80 0, mkEndpointDesc 7 5 130 2 512 0, mkEndpointDesc 7 5 3 2 512 0)).
Proof.
  destruct (descriptor_walks_exact demo_config) as (H1 & H2 & H3). split; [exact H1|]. split; [exact H2|].
  rewrite H3; [vm_compute; reflexivity|]. let ds := eval vm_compute in (parts 2 demo_config) in
    replace (parts 2 demo_config) with ds by (vm_compute; reflexivity).
  repeat constructor; vm_compute; congruence.
Defined.
