(* ===== verification/Xhci.v ===== *)
(** * The xHCI controller driver: operations

    usb-oxide/src/xhci.rs and the register offsets of usb-oxide/src/reg.rs: start of the
    controller, commands, the queue of pending events, slots and root ports.  The locks
    around the rings and the queue are left out; a call runs to completion. *)

From S2P Require Import Prelude UsbRing.

(** ** Registers *)

Module Reg.
Definition HCSPARAMS1 : Z := 0x04.
Definition HCSPARAMS2 : Z := 0x08.
Definition HCCPARAMS1 : Z := 0x10.
Definition DBOFF : Z := 0x14.
Definition RTSOFF : Z := 0x18.
Definition USBCMD : Z := 0x00.
Definition USBSTS : Z := 0x04.
Definition CRCR : Z := 0x18.
Definition DCBAAP : Z := 0x30.
Definition CONFIG : Z := 0x38.
Definition USBCMD_RUN : Z := bit 0.
Definition USBCMD_HCRST : Z := bit 1.
Definition USBCMD_INTE : Z := bit 2.
Definition USBSTS_HCH : Z := bit 0.
Definition USBSTS_HSE : Z := bit 2.
Definition USBSTS_CNR : Z := bit 11.
Definition PORTSC_CCS : Z := bit 0.
Definition PORTSC_PED : Z := bit 1.
Definition PORTSC_PR : Z := bit 4.
Definition PORTSC_PP : Z := bit 9.
Definition PORTSC_CSC : Z := bit 17.
Definition PORTSC_PEC : Z := bit 18.
Definition PORTSC_WRC : Z := bit 19.
Definition PORTSC_OCC : Z := bit 20.
Definition PORTSC_PRC : Z := bit 21.
Definition PORTSC_PLC : Z := bit 22.
Definition PORTSC_CEC : Z := bit 23.
Definition SPEED_FULL : Z := 1.
Definition SPEED_LOW : Z := 2.
Definition SPEED_HIGH : Z := 3.
Definition SPEED_SUPER : Z := 4.
Definition ERSTSZ : Z := 0x08.
Definition ERSTBA : Z := 0x10.
Definition ERDP : Z := 0x18.
Definition ECAP_USB_LEGACY : Z := 1.
Definition ECAP_SUPPORTED_PROTOCOL : Z := 2.
End Reg.

Definition port_reg_base (cap_length port : Z) : Z := cap_length + 0x400 + port * 0x10.
Definition doorbell (db_offset slot : Z) : Z := db_offset + slot * 4.
Definition interrupter_base (rts_offset interrupter : Z) : Z := rts_offset + 0x20 + interrupter * 0x20.

Definition MMIO_INIT_SIZE : Z := 0x1000.
Definition CMD_RING_SIZE : Z := 256.
Definition EVENT_RING_SIZE : Z := 256.
Definition MAX_ECAP_STEPS : nat := 64.

(** ** State *)

Record SupportedProtocol := mkSupportedProtocol {
  compatible_port_offset : Z;
  compatible_port_count : Z;
  slot_type : Z;
}.

(** What [XhciCtrl::new] fixes. *)
Record XhciCfg := mkXhciCfg {
  xc_mmio : Z;
  xc_mmio_size : Z;
  xc_cap_length : Z;
  xc_op_base : Z;
  xc_rt_base : Z;
  xc_db_offset : Z;
  xc_max_slots : Z;
  xc_max_ports : Z;
  xc_supported_protocols : list SupportedProtocol;
  xc_dcbaa : PhysMem;
  xc_scratchpad : option PhysMem;
}.

Record XhciCtrl (W : Type) := mkXhciCtrl {
  x_host : W;
  x_cfg : XhciCfg;
  x_cmd_ring : Ring;
  x_event_ring : EventRing;
  x_pending_events : list Trb;
}.
Arguments mkXhciCtrl {W}.
Arguments x_host {W}.
Arguments x_cfg {W}.
Arguments x_cmd_ring {W}.
Arguments x_event_ring {W}.
Arguments x_pending_events {W}.

Section xhci.
Context {W : Type} `{XhcIo W}.
Implicit Types (x : XhciCtrl W).

Definition set_host (w : W) x : XhciCtrl W :=
  mkXhciCtrl w (x_cfg x) (x_cmd_ring x) (x_event_ring x) (x_pending_events x).
Definition set_cmd_ring (r : Ring) x : XhciCtrl W :=
  mkXhciCtrl (x_host x) (x_cfg x) r (x_event_ring x) (x_pending_events x).
Definition set_event_ring (e : EventRing) x : XhciCtrl W :=
  mkXhciCtrl (x_host x) (x_cfg x) (x_cmd_ring x) e (x_pending_events x).
Definition set_pending (l : list Trb) x : XhciCtrl W :=
  mkXhciCtrl (x_host x) (x_cfg x) (x_cmd_ring x) (x_event_ring x) l.

Abbreviation XM A := (ST (XhciCtrl W) UsbError A).

(** Code of the host, run on the host of the controller. *)
Definition on_host {A} (m : HM W A) : XM A :=
  fun x => let '(w, r) := m (x_host x) in (set_host w x, r).

Definition read_reg (offset : Z) : XM Z :=
  fun x => on_host (lift_w (reg_read32 (xc_mmio (x_cfg x) + offset))) x.
Definition write_reg (offset v : Z) : XM unit :=
  fun x => on_host (smodify (reg_write32 (xc_mmio (x_cfg x) + offset) v)) x.
Definition write_reg64 (offset v : Z) : XM unit :=
  fun x => on_host (smodify (reg_write64 (xc_mmio (x_cfg x) + offset) v)) x.
(** A 64-bit read is two 32-bit ones, the low half first. *)
Definition read_reg64 (offset : Z) : XM Z :=
  let! low := read_reg offset in
  let! high := read_reg (offset + 4) in
  sret (Z.lor (Z.shiftl high 32) low).

Definition op_offset x (offset : Z) : Z := xc_op_base (x_cfg x) - xc_mmio (x_cfg x) + offset.
Definition read_op (offset : Z) : XM Z := fun x => read_reg (op_offset x offset) x.
Definition read_op64 (offset : Z) : XM Z := fun x => read_reg64 (op_offset x offset) x.
Definition write_op (offset v : Z) : XM unit := fun x => write_reg (op_offset x offset) v x.
Definition write_op64 (offset v : Z) : XM unit := fun x => write_reg64 (op_offset x offset) v x.

(** [while (read & mask != 0) == still { lc += 1; if lc > 250_000 { return Err(..) } }] *)
Definition wait_op (offset mask : Z) (still : bool) (what : string) : XM unit :=
  spin 250001
    (fun _ => let! v := read_op offset in sret (if Bool.eqb (has v mask) still then None else Some tt))
    (sfail (Timeout what)).

(** ** Start of the controller *)

(** [reg::interrupter_base(self.rt_base as u32 - self.mmio as u32, 0)] *)
Definition int_base x : Z := interrupter_base (as_u32 (xc_rt_base (x_cfg x) - xc_mmio (x_cfg x))) 0.

Definition init : XM unit :=
  let! usbcmd := read_op Reg.USBCMD in
  let! _ :=
    if has usbcmd Reg.USBCMD_RUN then
      let! _ := write_op Reg.USBCMD (Z.ldiff usbcmd Reg.USBCMD_RUN) in
      wait_op Reg.USBSTS Reg.USBSTS_HCH false "init_host wait for HCH == 0"
    else sret tt in
  let! _ := write_op Reg.USBCMD Reg.USBCMD_HCRST in
  let! _ := wait_op Reg.USBCMD Reg.USBCMD_HCRST true "init_host wait for HCRST to clear" in
  let! _ := wait_op Reg.USBSTS Reg.USBSTS_CNR true "init_host wait for CNR == 0" in
  let! cfg := sgets x_cfg in
  let! _ := write_op Reg.CONFIG (xc_max_slots cfg) in
  let! _ := write_op64 Reg.DCBAAP (phys (xc_dcbaa cfg)) in
  let! cmd_ring := sgets x_cmd_ring in
  let! _ := write_op64 Reg.CRCR (Z.lor (ring_phys cmd_ring) 1) in
  let! event_ring := sgets x_event_ring in
  let! base := sgets int_base in
  let! _ := write_reg (base + Reg.ERSTSZ) 1 in
  let! _ := write_reg64 (base + Reg.ERSTBA) (erst_phys event_ring) in
  let! _ := write_reg64 (base + Reg.ERDP) (event_ring_phys event_ring) in
  let! _ := write_op Reg.USBCMD (Z.lor Reg.USBCMD_RUN Reg.USBCMD_INTE) in
  wait_op Reg.USBSTS Reg.USBSTS_HCH true "init_host wait for final RUN HCH == 0".

(** The legacy-support capability at [addr]: claim the controller, wait for the firmware
    to let go (or give up), and clear its interrupts. *)
Definition claim_ownership (addr cap : Z) : HM W unit :=
  let! _ := smodify (reg_write32 addr (Z.lor cap (bit 24))) in
  let! _ :=
    spin 250001
      (fun _ => let! v := lift_w (reg_read32 addr) in sret (if has v (bit 16) then None else Some tt))
      (sret tt) in
  smodify (reg_write32 (addr + 4) 0xe0000000).

Definition protocol_of (ports slot : Z) : option SupportedProtocol :=
  let offset := Z.land ports 0xff in
  let count := Z.land (Z.shiftr ports 8) 0xff in
  if negb (offset =? 0) && negb (count =? 0)
  then Some (mkSupportedProtocol offset count (Z.land slot 0x1f)) else None.

Fixpoint ecap_walk (steps : nat) (init_mmio offset : Z) (protocols : list SupportedProtocol)
    : HM W (list SupportedProtocol) :=
  if negb ((0x40 <=? offset) && (offset + 4 <=? MMIO_INIT_SIZE)) then sret protocols else
  match steps with
  | O => sret protocols
  | S steps =>
      let! cap := lift_w (reg_read32 (init_mmio + offset)) in
      let cap_id := Z.land cap 0xff in
      let! protocols :=
        if cap_id =? Reg.ECAP_USB_LEGACY then
          let! _ := claim_ownership (init_mmio + offset) cap in sret protocols
        else if cap_id =? Reg.ECAP_SUPPORTED_PROTOCOL then
          let! _ := lift_w (reg_read32 (init_mmio + offset + 4)) in
          let! ports := lift_w (reg_read32 (init_mmio + offset + 8)) in
          let! slot := lift_w (reg_read32 (init_mmio + offset + 12)) in
          sret (protocols ++ match protocol_of ports slot with Some p => [p] | None => [] end)
        else sret protocols in
      let next := Z.land (Z.shiftr cap 8) 0xff * 4 in
      if next =? 0 then sret protocols else ecap_walk steps init_mmio (offset + next) protocols
  end.

(** The array of scratchpad buffer addresses. *)
Fixpoint fill_scratchpad (n : nat) (i array bufs : Z) : HM W unit :=
  match n with
  | O => sret tt
  | S n =>
      let! _ := smodify (mem_write (array + i * 8) (to_le64 (add64 bufs (i * PAGE_SIZE)))) in
      fill_scratchpad n (i + 1) array bufs
  end.

Definition alloc_scratchpad (max_scratchpad : Z) (dcbaa : PhysMem) : HM W (option PhysMem) :=
  if 0 <? max_scratchpad then
    let! sp_array := phys_alloc (max_scratchpad * 8) 64 in
    let! sp_bufs := phys_alloc (max_scratchpad * PAGE_SIZE) PAGE_SIZE in
    let! _ := fill_scratchpad (Z.to_nat max_scratchpad) 0 (pm_addr sp_array) (phys sp_bufs) in
    let! _ := smodify (mem_write (pm_addr dcbaa) (to_le64 (phys sp_array))) in
    sret (Some sp_bufs)
  else sret None.

(** The number of scratchpad buffers: low half in bits 31:27, high half in bits 25:21. *)
Definition max_scratchpad_of (hcs2 : Z) : Z :=
  Z.lor (Z.land (Z.shiftr hcs2 27) 0x1f) (Z.shiftl (Z.land (Z.shiftr hcs2 21) 0x1f) 5).

Definition xhci_new (mmio_phys : Z) (w : W) : W * outcome UsbError (XhciCtrl W) :=
  (let! mapped := lift_w (map_mmio mmio_phys MMIO_INIT_SIZE) in
   let! init_mmio := sopt MapFail mapped in
   let! cap_length := lift_w (reg_read8 init_mmio) in
   let! hcs1 := lift_w (reg_read32 (init_mmio + Reg.HCSPARAMS1)) in
   let! hcs2 := lift_w (reg_read32 (init_mmio + Reg.HCSPARAMS2)) in
   let! db_offset := lift_w (reg_read32 (init_mmio + Reg.DBOFF)) in
   let! rts_offset := lift_w (reg_read32 (init_mmio + Reg.RTSOFF)) in
   let! hcc1 := lift_w (reg_read32 (init_mmio + Reg.HCCPARAMS1)) in
   let xecp := Z.shiftr hcc1 16 * 4 in
   let max_slots := Z.land hcs1 0xff in
   let max_ports := Z.land (Z.shiftr hcs1 24) 0xff in
   let! protocols :=
     if negb (xecp =? 0) then ecap_walk MAX_ECAP_STEPS init_mmio xecp [] else sret [] in
   let mmio_size := Z.max (Z.max (rts_offset + 0x20 + 0x20) (db_offset + (max_slots + 1) * 4)) 0x10000 in
   let! _ := smodify (unmap_mmio init_mmio MMIO_INIT_SIZE) in
   let! mapped := lift_w (map_mmio mmio_phys mmio_size) in
   let! mmio := sopt MapFail mapped in
   let! dcbaa := phys_alloc ((max_slots + 1) * 8) 64 in
   let! scratchpad := alloc_scratchpad (max_scratchpad_of hcs2) dcbaa in
   let! cmd_ring := ring_new CMD_RING_SIZE in
   let! event_ring := event_ring_new EVENT_RING_SIZE in
   let cfg := mkXhciCfg mmio mmio_size cap_length (mmio + cap_length) (mmio + rts_offset) db_offset
                max_slots max_ports protocols dcbaa scratchpad in
   fun w =>
     match init (mkXhciCtrl w cfg cmd_ring event_ring []) with
     | (x, Ok _) => (x_host x, Ok x)
     | (x, Err e) => (x_host x, Err e)
     | (x, Panic) => (x_host x, Panic)
     | (x, OutOfFuel) => (x_host x, OutOfFuel)
     end) w.

(** ** Events and commands *)

Definition ring_cmd_doorbell : XM unit :=
  let! cfg := sgets x_cfg in write_reg (doorbell (xc_db_offset cfg) 0) 0.

Definition ring_doorbell (slot target : Z) : XM unit :=
  let! cfg := sgets x_cfg in write_reg (doorbell (xc_db_offset cfg) slot) target.

Definition update_erdp : XM unit :=
  let! e := sgets x_event_ring in
  let! base := sgets int_base in
  write_reg64 (base + Reg.ERDP) (Z.lor (dequeue_ptr e) 0x8).

Definition dequeue_event : XM (option Trb) :=
  let! e := sgets x_event_ring in
  let! (e, t) := on_host (try_dequeue e) in
  let! _ := smodify (set_event_ring e) in
  sret t.

(** One round of [wait_command]. *)
Definition wait_command_round (count : Z) : XM (option Trb) :=
  let! _ :=
    if count mod 100000 =? 0 then
      let! status := read_op Reg.USBSTS in
      if has status Reg.USBSTS_HSE then sfail (XferFail (as_u8 status)) else sret tt
    else sret tt in
  let! t := dequeue_event in
  match t with
  | None => sret None
  | Some t =>
      let! _ := update_erdp in
      if trb_type t =? TrbType.COMMAND_COMPLETION then
        if negb (completion_code t =? Completion.SUCCESS) then sfail (CmdFail (completion_code t))
        else sret (Some t)
      else sret None
  end.

Definition wait_command : XM Trb :=
  spin 250000 wait_command_round
    (let! _ := read_op Reg.USBSTS in
     let! _ := read_op64 Reg.CRCR in
     sfail (Timeout "wait_command waiting for xHC command completion")).

Definition poll_raw_event : XM (option Trb) :=
  let! t := dequeue_event in
  let! _ := match t with Some _ => update_erdp | None => sret tt end in
  sret t.

Definition poll_event : XM (option Trb) :=
  let! pending := sgets x_pending_events in
  match pending with
  | t :: pending => let! _ := smodify (set_pending pending) in sret (Some t)
  | [] => poll_raw_event
  end.

(** The first match in a queue, and the queue without it. *)
Fixpoint take_first (f : Trb -> bool) (l : list Trb) : option (Trb * list Trb) :=
  match l with
  | [] => None
  | t :: l =>
      if f t then Some (t, l)
      else match take_first f l with Some (m, l) => Some (m, t :: l) | None => None end
  end.

Definition push_pending_event (t : Trb) : XM unit := smodify (fun x => set_pending (x_pending_events x ++ [t]) x).

(** [while let Some(trb) = self.poll_raw_event()] *)
Fixpoint drain_matching (fuel : nat) (f : Trb -> bool) : XM (option Trb) :=
  match fuel with
  | O => sfuel
  | S fuel =>
      let! t := poll_raw_event in
      match t with
      | None => sret None
      | Some t =>
          if f t then sret (Some t)
          else let! _ := push_pending_event t in drain_matching fuel f
      end
  end.

(** A ring of [n] slots is empty after at most [n] events unless the controller posts
    meanwhile. *)
Definition drain_fuel x : nat := S (Z.to_nat (er_size (x_event_ring x))).

Definition poll_event_matching (f : Trb -> bool) : XM (option Trb) :=
  let! pending := sgets x_pending_events in
  match take_first f pending with
  | Some (t, pending) => let! _ := smodify (set_pending pending) in sret (Some t)
  | None => let! fuel := sgets drain_fuel in drain_matching fuel f
  end.

Definition submit_command (t : Trb) : XM Trb :=
  let! r := sgets x_cmd_ring in
  let! (r, _) := on_host (enqueue r t) in
  let! _ := smodify (set_cmd_ring r) in
  let! _ := ring_cmd_doorbell in
  wait_command.

(** ** Slots *)

Definition port_in (root_port : Z) (p : SupportedProtocol) : bool :=
  let first := compatible_port_offset p in
  let last := Z.min 255 (first + compatible_port_count p) in
  (first <=? root_port) && (root_port <? last).

Definition slot_type_for_port (protocols : list SupportedProtocol) (port : Z) : Z :=
  match find (port_in (as_u8 (port + 1))) protocols with Some p => slot_type p | None => 0 end.

Definition enable_slot_with_type (slot_type : Z) : XM Z :=
  let! evt := submit_command
    (mkTrb 0 0 (Z.lor (Z.shiftl TrbType.ENABLE_SLOT 10) (Z.shiftl (Z.land slot_type 0x1f) 16))) in
  sret (trb_slot_id evt).

Definition enable_slot : XM Z := enable_slot_with_type 0.

Definition enable_slot_for_port (port : Z) : XM Z :=
  let! cfg := sgets x_cfg in
  enable_slot_with_type (slot_type_for_port (xc_supported_protocols cfg) port).

Definition disable_slot (slot_id : Z) : XM unit :=
  let! _ := submit_command (mkTrb 0 0 (Z.lor (Z.shiftl TrbType.DISABLE_SLOT 10) (Z.shiftl slot_id 24))) in
  sret tt.

Definition set_device_context (slot phys : Z) : XM unit :=
  let! cfg := sgets x_cfg in
  on_host (smodify (mem_write (pm_addr (xc_dcbaa cfg) + slot * 8) (to_le64 phys))).

(** ** Root ports *)

Definition port_offset (port : Z) : XM Z :=
  let! cfg := sgets x_cfg in sret (port_reg_base (xc_cap_length cfg) port).

Definition port_status (port : Z) : XM Z := let! off := port_offset port in read_reg off.
Definition write_port_status (port v : Z) : XM unit := let! off := port_offset port in write_reg off v.

Definition PORTSC_CHANGE : Z :=
  Z.lor (Z.lor (Z.lor (Z.lor (Z.lor (Z.lor Reg.PORTSC_CSC Reg.PORTSC_PEC) Reg.PORTSC_WRC) Reg.PORTSC_OCC)
    Reg.PORTSC_PRC) Reg.PORTSC_PLC) Reg.PORTSC_CEC.

Definition clear_port_change_bits (port : Z) : XM unit :=
  let! portsc := port_status port in
  let change_bits := Z.land portsc PORTSC_CHANGE in
  if negb (change_bits =? 0)
  then write_port_status port (Z.lor (Z.land portsc Reg.PORTSC_PP) change_bits) else sret tt.

Definition power_on_port (port : Z) : XM unit :=
  let! portsc := port_status port in
  if has portsc Reg.PORTSC_PP then sret tt else
  write_port_status port (Z.lor Reg.PORTSC_PP (Z.land portsc PORTSC_CHANGE)).

Definition reset_port (port : Z) : XM unit :=
  let! off := port_offset port in
  let! portsc := read_reg off in
  let! _ := if negb (has portsc Reg.PORTSC_PP) then power_on_port port else sret tt in
  let! portsc := read_reg off in
  let! _ := write_reg off (Z.lor (Z.land portsc Reg.PORTSC_PP) Reg.PORTSC_PR) in
  let! _ :=
    spin 250000
      (fun _ =>
         let! portsc := read_reg off in
         if has portsc Reg.PORTSC_PRC then
           let! _ := write_reg off (Z.lor (Z.land portsc Reg.PORTSC_PP) Reg.PORTSC_PRC) in sret (Some tt)
         else sret None)
      (sfail (Timeout "reset_port waiting for xHC PORTSC_PRC")) in
  spin 250001
    (fun _ =>
       let! portsc := read_reg off in
       sret (if negb (has portsc Reg.PORTSC_CCS) || has portsc Reg.PORTSC_PED then Some tt else None))
    (sret tt).

Definition port_speed (port : Z) : XM Z :=
  let! portsc := port_status port in sret (Z.land (Z.shiftr portsc 10) 0xf).

Definition port_connected (port : Z) : XM bool :=
  let! portsc := port_status port in sret (has portsc Reg.PORTSC_CCS).

Definition usb_status : XM Z := read_op Reg.USBSTS.
Definition usb_command : XM Z := read_op Reg.USBCMD.
End xhci.

Abbreviation XM W A := (ST (XhciCtrl W) UsbError A).
