(* ===== verification/XhciTheorems.v ===== *)
(** * The xHCI controller driver: theorems

    The event queue of the driver is the events it set aside followed by those the
    controller has posted and it has not read.  Polling for an event takes the first match
    out of that queue and keeps the others in order; waiting for a command does not.  The
    port operations write only bits that are safe to write. *)

From S2P Require Import Prelude UsbRing UsbRingTheorems Xhci.

(** ** The event queue *)

Section events.
Context {W : Type} `{DmaSpec W}.
Implicit Types (x : XhciCtrl W).

(** [unread u h k]: what the ring still delivers after [k] of the posted events [h]. *)
Definition marked (u : nat) (h : list Trb) : list Trb := imap (fun i t => set_cycle (Nat.even (i / u)) t) h.
Definition unread (u : nat) (h : list Trb) (k : nat) : list Trb := drop k (marked u h).

(** The driver's view of the events: set aside, and unread in the ring. *)
Definition event_view x (pending ring : list Trb) : Prop :=
  exists u h k, event_holds (x_host x) (x_event_ring x) (mkProducer (Z.of_nat (length h `mod` u)) (Nat.even (length h / u))) u h k /\
    (k <= length h <= k + u)%nat /\ ring = unread u h k /\ x_pending_events x = pending.

Lemma lookup_marked u h k t : h !! k = Some t -> marked u h !! k = Some (set_cycle (Nat.even (k / u)) t).
Proof. intros Hk. unfold marked. by rewrite list_lookup_imap, Hk. Qed.

Lemma unread_cons u h k t : h !! k = Some t -> unread u h k = set_cycle (Nat.even (k / u)) t :: unread u h (S k).
Proof. intros Hk. unfold unread. by rewrite (drop_S _ _ _ (lookup_marked u h k t Hk)). Qed.

Lemma unread_nil u h : unread u h (length h) = [].
Proof. unfold unread. apply drop_ge. unfold marked. by rewrite length_imap. Qed.

Lemma view_length x pending ring : event_view x pending ring -> (length ring < drain_fuel x)%nat.
Proof.
  intros (u & h & k & (Hu & Hsz & _) & Hk & -> & _). unfold drain_fuel. rewrite Hsz, Nat2Z.id.
  unfold unread. rewrite length_drop. unfold marked. rewrite length_imap. lia.
Qed.

Definition same_rest x x' : Prop := x_cfg x' = x_cfg x /\ x_cmd_ring x' = x_cmd_ring x.

Lemma wp_on_host {A} (m : HM W A) w a (Q : A -> XhciCtrl W -> Prop) X x :
  m (x_host x) = (w, Ok a) -> Q a (set_host w x) -> wp (on_host m) Q X x.
Proof. Transparent wp. unfold wp, on_host. Opaque wp. by intros ->. Qed.

Lemma wp_write_reg64 offset v (Q : unit -> XhciCtrl W -> Prop) X x :
  Q tt (set_host (reg_write64 (xc_mmio (x_cfg x) + offset) v (x_host x)) x) -> wp (write_reg64 offset v) Q X x.
Proof. Transparent wp. unfold wp, write_reg64, on_host, smodify. Opaque wp. done. Qed.

Lemma wp_dequeue_event x pending ring Q X :
  event_view x pending ring ->
  (forall x', same_rest x x' -> event_view x' pending (tail ring) -> drain_fuel x' = drain_fuel x -> Q (head ring) x') ->
  wp dequeue_event Q X x.
Proof.
  intros (u & h & k & Hh & Hk & -> & Hp) HQ. unfold dequeue_event. apply wp_bind, wp_gets, wp_bind.
  destruct (decide (k = length h)) as [->|Hne].
  - eapply wp_on_host; [by apply (try_dequeue_none _ _ _ u h Hh)|]. apply wp_bind, wp_modify, wp_ret. rewrite unread_nil in HQ.
    apply HQ; [done| |done]. exists u, h, (length h). split; [done|]. split; [lia|]. by rewrite unread_nil.
  - destruct (lookup_lt_is_Some_2 h k) as [t Ht]; [lia|].
    destruct (try_dequeue_next _ _ _ u h k t Hh ltac:(lia) Ht) as (e' & E & Hh' & _).
    eapply wp_on_host; [exact E|]. apply wp_bind, wp_modify, wp_ret. rewrite (unread_cons u h k t Ht) in HQ. apply HQ; [done| |].
    + exists u, h, (S k). split; [done|]. split; [lia|done].
    + unfold drain_fuel. cbn. destruct Hh as (_ & -> & _), Hh' as (_ & -> & _). done.
Qed.

Lemma wp_update_erdp x pending ring Q X :
  event_view x pending ring ->
  (forall x', same_rest x x' -> event_view x' pending ring -> drain_fuel x' = drain_fuel x -> Q tt x') ->
  wp update_erdp Q X x.
Proof.
  intros (u & h & k & Hh & Hk & -> & Hp) HQ. unfold update_erdp. apply wp_bind, wp_gets, wp_bind, wp_gets.
  apply wp_write_reg64. apply HQ; [done| |done]. exists u, h, k. split; [|done].
  destruct Hh as (Hu & Hsz & Hpr & Hd & Hc & Hl). split_and!; try done.
  eapply laps_ext; [done| |exact Hl]. intros i Hi. unfold slot, load. f_equal.
  apply list_fmap_ext. intros j y _. apply phys_reg64.
Qed.

Lemma wp_poll_raw_event x pending ring Q X :
  event_view x pending ring ->
  (forall x', same_rest x x' -> event_view x' pending (tail ring) -> drain_fuel x' = drain_fuel x -> Q (head ring) x') ->
  wp poll_raw_event Q X x.
Proof.
  intros Hv HQ. unfold poll_raw_event. apply wp_bind. eapply wp_dequeue_event; [exact Hv|]. intros x1 Hs1 Hv1 Hf1.
  apply wp_bind. destruct (head ring) as [t|].
  - eapply wp_update_erdp; [exact Hv1|]. intros x2 Hs2 Hv2 Hf2. apply wp_ret, HQ; [|done|congruence].
    destruct Hs1, Hs2. split; congruence.
  - apply wp_ret, wp_ret. by apply HQ.
Qed.

(** The queue after a poll: everything before the match is set aside. *)
Lemma take_first_app f l1 l2 :
  take_first f (l1 ++ l2) =
  match take_first f l1 with
  | Some (t, l) => Some (t, l ++ l2)
  | None => match take_first f l2 with Some (t, l) => Some (t, l1 ++ l) | None => None end
  end.
Proof.
  induction l1 as [|t l1 IH]; cbn; [by destruct (take_first f l2) as [[??]|]|].
  destruct (f t); [done|]. rewrite IH. destruct (take_first f l1) as [[??]|]; [done|]. by destruct (take_first f l2) as [[??]|].
Qed.

Definition polled f x (q : list Trb) (r : option Trb) x' : Prop :=
  same_rest x x' /\
  exists pending' ring',
    event_view x' pending' ring' /\
    match take_first f q with
    | Some (t, rest) => r = Some t /\ pending' ++ ring' = rest
    | None => r = None /\ pending' = q /\ ring' = []
    end.

Lemma wp_drain_matching f fuel : forall x pending ring X,
  event_view x pending ring -> take_first f pending = None -> (length ring < fuel)%nat ->
  wp (drain_matching fuel f) (polled f x (pending ++ ring)) X x.
Proof.
  induction fuel as [|fuel IH]; intros x pending ring X Hv Hp Hlen; [lia|]. cbn [drain_matching].
  apply wp_bind. eapply wp_poll_raw_event; [exact Hv|]. intros x1 Hs1 Hv1 _.
  destruct ring as [|t ring]; cbn [head tail] in *.
  - apply wp_ret. split; [done|]. exists pending, []. split; [done|]. by rewrite app_nil_r, Hp.
  - destruct (f t) eqn:Ef.
    + apply wp_ret. split; [done|]. exists pending, ring. split; [done|].
      rewrite take_first_app, Hp. cbn. by rewrite Ef.
    + apply wp_bind, wp_modify. cbn in Hlen.
      assert (event_view (set_pending (x_pending_events x1 ++ [t]) x1) (pending ++ [t]) ring) as Hv2.
      { destruct Hv1 as (u & h & k & Hh & Hk & Hr & Hpe). exists u, h, k. cbn. by rewrite Hpe. }
      eapply wp_mono; [apply (IH _ (pending ++ [t]) ring X Hv2); [|lia]| |done].
      * rewrite take_first_app, Hp. cbn. by rewrite Ef.
      * intros r x2 (Hs2 & Hq). rewrite <- app_assoc in Hq. split; [|done].
        destruct Hs1, Hs2. cbn in *. split; congruence.
Qed.

Definition is_completion (t : Trb) : bool := trb_type t =? TrbType.COMMAND_COMPLETION.

Definition command_result (t : Trb) : outcome UsbError Trb :=
  if completion_code t =? Completion.SUCCESS then Ok t else Err (CmdFail (completion_code t)).

(** Rounds that find other events, then the completion; fewer than the rounds after which
    the controller status is looked at. *)
Lemma wp_wait_rounds timeout (n : nat) count x pending pre t rest :
  event_view x pending (pre ++ t :: rest) -> Forall (fun e => is_completion e = false) pre -> is_completion t = true ->
  0 < count -> count + Z.of_nat (length pre) < 100000 -> (length pre < n)%nat ->
  wp (spin_from n count wait_command_round timeout)
    (fun r x' => command_result t = Ok r /\ same_rest x x' /\ event_view x' pending rest)
    (fun e x' => command_result t = Err e /\ same_rest x x' /\ event_view x' pending rest) x.
Proof.
  revert n count x. induction pre as [|e pre IH]; intros n count x Hv Hpre Ht Hc Hlt Hn;
    (destruct n as [|n]; [cbn in Hn; lia|]); cbn [spin_from length app] in *; apply wp_bind; unfold wait_command_round at 1;
    rewrite Z.mod_small by lia; guard_false (count =? 0);
    apply wp_bind, wp_ret, wp_bind; (eapply wp_dequeue_event; [exact Hv|]); intros x1 Hs1 Hv1 _; cbn [head tail] in *;
    apply wp_bind; (eapply wp_update_erdp; [exact Hv1|]); intros x2 Hs2 Hv2 _; cbn beta iota;
    assert (same_rest x x2) as Hs by (destruct Hs1, Hs2; split; congruence).
  - unfold is_completion in Ht. rewrite Ht. unfold command_result. destruct (completion_code t =? Completion.SUCCESS); cbn [negb].
    + by apply wp_ret, wp_ret.
    + by apply wp_fail.
  - inversion Hpre as [|? ? He Hpre']; subst. unfold is_completion in He. rewrite He. apply wp_ret.
    eapply wp_mono; [apply (IH n (count + 1) x2); try done; lia| |].
    + cbv beta. intros r x3 (Hr & Hs3 & Hv3). destruct Hs, Hs3. split; [done|]. split; [split; congruence|done].
    + cbv beta. intros r x3 (Hr & Hs3 & Hv3). destruct Hs, Hs3. split; [done|]. split; [split; congruence|done].
Qed.
End events.

(** Waiting for a command takes the first command completion out of the event ring
    and reports its code; the events posted before it, transfer completions among them,
    are gone, neither set aside nor unread. *)
Theorem wait_command_drops {W} `{DmaSpec W} (x : XhciCtrl W) pending pre t rest :
  event_view x pending (pre ++ t :: rest) ->
  Forall (fun e => is_completion e = false) pre -> is_completion t = true -> Z.of_nat (length pre) < 99999 ->
  exists x', wait_command x = (x', command_result t) /\ event_view x' pending rest.
Proof.
  intros Hv Hpre Ht Hlt.
  destruct (wp_run wait_command
    (fun r x' => command_result t = Ok r /\ same_rest x x' /\ event_view x' pending rest)
    (fun e x' => command_result t = Err e /\ same_rest x x' /\ event_view x' pending rest) x)
    as [(x' & r & -> & -> & _ & Hv')|(x' & e & -> & -> & _ & Hv')]; [|by exists x'..].
  apply wp_spin_rounds, (wp_wait_rounds _ _ _ x pending pre); try done; lia.
Qed.

(** Polling for an event that satisfies [f] takes the first such event out of the
    driver's queue, set-aside events before unread ones, and keeps all other events in
    their order; when no event matches it returns nothing and loses nothing.  The drain of
    the ring ends. *)
Theorem poll_event_matching_exact {W} `{DmaSpec W} f (x : XhciCtrl W) pending ring :
  event_view x pending ring ->
  exists x' r pending' ring',
    poll_event_matching f x = (x', Ok r) /\ event_view x' pending' ring' /\
    match take_first f (pending ++ ring) with
    | Some (t, rest) => r = Some t /\ pending' ++ ring' = rest
    | None => r = None /\ pending' ++ ring' = pending ++ ring
    end.
Proof.
  intros Hv. destruct (wp_run_ok (poll_event_matching f) (polled f x (pending ++ ring)) x) as (x' & r & E & _ & p' & r' & Hv' & Hq).
  { unfold poll_event_matching. apply wp_bind, wp_gets. pose proof Hv as (u & h & k & Hh & Hk & Hr & ->).
    destruct (take_first f pending) as [[t rest]|] eqn:Et.
    - apply wp_bind, wp_modify, wp_ret. split; [done|]. exists rest, ring. split; [by exists u, h, k|].
      by rewrite take_first_app, Et.
    - apply wp_bind, wp_gets. apply wp_drain_matching; [done|done|]. by eapply view_length. }
  exists x', r, p', r'. split; [done|]. split; [done|]. destruct (take_first f _) as [[t rest]|]; [done|].
  destruct Hq as (-> & -> & ->). by rewrite app_nil_r.
Qed.

(** ** Root ports *)

(** Only port power, port reset and the change bits: in particular never the
    enabled bit (writing a one disables the port), the link state or its strobe. *)
Definition PORTSC_SAFE : Z := Z.lor (Z.lor Reg.PORTSC_PP Reg.PORTSC_PR) PORTSC_CHANGE.
Definition safe_portsc (v : Z) : Prop := Z.ldiff v PORTSC_SAFE = 0.

Lemma safe_land a m : safe_portsc m -> safe_portsc (Z.land a m).
Proof.
  unfold safe_portsc. intros Hm. apply Z.bits_inj'. intros n Hn.
  apply (f_equal (fun z => Z.testbit z n)) in Hm. rewrite Z.ldiff_spec, Z.bits_0 in *. rewrite Z.land_spec.
  by destruct (Z.testbit a n).
Qed.

Lemma safe_lor a b : safe_portsc a -> safe_portsc b -> safe_portsc (Z.lor a b).
Proof.
  unfold safe_portsc. intros Ha Hb. apply Z.bits_inj'. intros n Hn.
  apply (f_equal (fun z => Z.testbit z n)) in Ha, Hb. rewrite Z.ldiff_spec, Z.bits_0 in *. rewrite Z.lor_spec.
  by destruct (Z.testbit a n).
Qed.

Lemma safe_bits : safe_portsc Reg.PORTSC_PP /\ safe_portsc Reg.PORTSC_PR /\ safe_portsc Reg.PORTSC_PRC /\ safe_portsc PORTSC_CHANGE.
Proof. done. Qed.

#[export] Hint Resolve safe_land safe_lor : hermit.
#[export] Hint Extern 1 (safe_portsc _) => (apply safe_bits) : hermit.

Section ports.
Context {W : Type} `{XhcIo W}.
Implicit Types (x : XhciCtrl W).

(** [P] survives reads, and safe writes of the status register of [port]. *)
Definition port_steps (cfg : XhciCfg) (port : Z) (P : W -> Prop) : Prop :=
  (forall a w, P w -> P (reg_read32 a w).1) /\
  (forall v w, P w -> safe_portsc v -> P (reg_write32 (xc_mmio cfg + port_reg_base (xc_cap_length cfg) port) v w)).

Definition port_inv (cfg : XhciCfg) (P : W -> Prop) x : Prop := P (x_host x) /\ x_cfg x = cfg.

Lemma wp_read_reg offset x (Q : Z -> XhciCtrl W -> Prop) X :
  Q (reg_read32 (xc_mmio (x_cfg x) + offset) (x_host x)).2
    (set_host (reg_read32 (xc_mmio (x_cfg x) + offset) (x_host x)).1 x) ->
  wp (read_reg offset) Q X x.
Proof.
  Transparent wp. unfold wp, read_reg, on_host, lift_w. Opaque wp.
  by destruct (reg_read32 (xc_mmio (x_cfg x) + offset) (x_host x)).
Qed.

Lemma wp_write_reg offset v x (Q : unit -> XhciCtrl W -> Prop) X :
  Q tt (set_host (reg_write32 (xc_mmio (x_cfg x) + offset) v (x_host x)) x) -> wp (write_reg offset v) Q X x.
Proof. Transparent wp. unfold wp, write_reg, on_host, smodify. Opaque wp. done. Qed.

Context (cfg : XhciCfg) (port : Z) (P : W -> Prop) (Hsteps : port_steps cfg port P).

Let off := port_reg_base (xc_cap_length cfg) port.

Lemma wp_port_read x (Q : Z -> XhciCtrl W -> Prop) X :
  port_inv cfg P x -> (forall v x', port_inv cfg P x' -> Q v x') -> wp (read_reg off) Q X x.
Proof. intros [Hp Hc] HQ. apply wp_read_reg, HQ. split; [by apply Hsteps|done]. Qed.

Lemma wp_port_write v x (Q : unit -> XhciCtrl W -> Prop) X :
  port_inv cfg P x -> safe_portsc v -> (forall x', port_inv cfg P x' -> Q tt x') -> wp (write_reg off v) Q X x.
Proof. intros [Hp Hc] Hv HQ. apply wp_write_reg, HQ. split; [cbn; rewrite Hc; by apply Hsteps|done]. Qed.

Lemma wp_port_offset x (Q : Z -> XhciCtrl W -> Prop) X :
  port_inv cfg P x -> Q off x -> wp (port_offset port) Q X x.
Proof. intros [_ Hc] HQ. unfold port_offset. apply wp_bind, wp_gets, wp_ret. by rewrite Hc. Qed.

Definition keeps (m : XM W unit) : Prop :=
  forall x, port_inv cfg P x -> wp m (fun _ => port_inv cfg P) (fun _ => port_inv cfg P) x.

Ltac port_step :=
  first
    [ apply wp_bind, wp_port_offset; [done|]; cbn beta
    | apply wp_bind, wp_port_read; [done|]; intros ? ? ?; cbn beta
    | apply wp_bind, wp_port_write; [done|by eauto 6 with hermit|]; intros ? ?; cbn beta
    | apply wp_port_write; [done|by eauto 6 with hermit|]; intros ? ?; cbn beta
    | by apply wp_ret
    | case_match ].

Lemma clear_port_change_bits_keeps : keeps (clear_port_change_bits port).
Proof.
  intros x Hx. unfold clear_port_change_bits, port_status, write_port_status. apply wp_bind. repeat port_step.
  apply wp_port_read; [done|]. intros w1 x1 Hx1. repeat port_step; done.
Qed.

Lemma power_on_port_keeps : keeps (power_on_port port).
Proof.
  intros x Hx. unfold power_on_port, port_status, write_port_status. apply wp_bind. repeat port_step.
  apply wp_port_read; [done|]. intros w1 x1 Hx1. repeat port_step; done.
Qed.

Lemma reset_port_keeps : keeps (reset_port port).
Proof.
  intros x Hx. unfold reset_port. do 2 port_step. apply wp_bind.
  apply (wp_mono _ (fun _ => port_inv cfg P) _ (fun _ => port_inv cfg P));
    [destruct (negb _); [by apply power_on_port_keeps|by apply wp_ret]| |done].
  intros _ x2 Hx2. do 2 port_step. apply wp_bind.
  apply (wp_spin (port_inv cfg P)); [done| |intros; by apply wp_fail].
  - intros _ x3 Hx3. repeat port_step.
    apply wp_ret, (wp_spin (port_inv cfg P)); [done| |intros; by apply wp_ret].
    intros _ x4 Hx4. port_step. apply wp_ret. by case_match.
Qed.
End ports.

(** The operations on root ports return, and everything they do to the hardware is
    register reads and writes of the port's own status register that set no bit but port
    power, port reset and change bits they acknowledge.  Writing back what was read would
    disable an enabled port, since that bit is cleared by writing a one. *)
Theorem port_writes_safe {W} `{XhcIo W} (x : XhciCtrl W) port (P : W -> Prop) op :
  port_steps (x_cfg x) port P -> P (x_host x) ->
  op ∈ [clear_port_change_bits port; power_on_port port; reset_port port] ->
  (exists x', op x = (x', Ok tt) /\ port_inv (x_cfg x) P x') \/
  (exists x' e, op x = (x', Err e) /\ port_inv (x_cfg x) P x').
Proof.
  intros Hs Hp Hop. assert (keeps (x_cfg x) P op) as Hk.
  { rewrite !elem_of_cons in Hop. destruct Hop as [->|[->|[->|[]%elem_of_nil]]].
    - by apply clear_port_change_bits_keeps.
    - by apply power_on_port_keeps.
    - by apply reset_port_keeps. }
  destruct (wp_run _ _ _ _ (Hk x (conj Hp eq_refl))) as [(x' & [] & H1 & H2)|?]; [left; by exists x'|by right].
Qed.

(** A host that logs register writes; every register reads as an enabled, powered port
    with a finished reset. *)
Module PortLog.
Definition portsc : Z := Z.lor (Z.lor (Z.lor Reg.PORTSC_CCS Reg.PORTSC_PED) Reg.PORTSC_PP) Reg.PORTSC_PRC.

#[global] Instance log_io : XhcIo (list (Z * Z)) := {|
  host_alloc _ _ w := (w, None);
  host_free _ _ _ w := w;
  map_mmio p _ w := (w, Some p);
  unmap_mmio _ _ w := w;
  virt_to_phys v := v;
  mem_read _ _ w := (w, []);
  mem_write _ _ w := w;
  reg_read8 _ w := (w, 0);
  reg_read32 _ w := (w, portsc);
  reg_write32 a v w := w ++ [(a, v)];
  reg_write64 _ _ w := w;
|}.

Definition cfg : XhciCfg :=
  mkXhciCfg 4096 65536 32 4128 8192 12288 8 4 [] (mkPhysMem 0 72 64) None.
Definition ctrl : XhciCtrl (list (Z * Z)) :=
  mkXhciCtrl [] cfg (mkRing (mkPhysMem 0 64 64) 0 true 4)
    (mkEventRing (mkPhysMem 0 64 64) (mkPhysMem 0 4096 64) 4 0 true) [].

(** Only safe writes, to the status register of port 1. *)
Definition safe_log (w : list (Z * Z)) : Prop := Forall (fun av => av.1 = 4096 + 32 + 0x410 /\ safe_portsc av.2) w.
End PortLog.

Lemma port_writes_safe_witness :
  (exists x', reset_port 1 PortLog.ctrl = (x', Ok tt) /\ port_inv PortLog.cfg PortLog.safe_log x') \/
  (exists x' e, reset_port 1 PortLog.ctrl = (x', Err e) /\ port_inv PortLog.cfg PortLog.safe_log x').
Proof.
  apply (port_writes_safe PortLog.ctrl 1 PortLog.safe_log (reset_port 1)).
  - split; [done|]. intros v w Hw Hv. apply Forall_app. split; [exact Hw|]. by repeat constructor.
  - by constructor.
  - rewrite !elem_of_cons. auto.
Defined.

(** An event ring with a transfer event, a port change and a command completion. *)
Module EventDemo.
Definition event (ty n : Z) : Trb := mkTrb n (Z.shiftl Completion.SUCCESS 24) (Z.shiftl ty 10).
Definition posted : list Trb :=
  [event TrbType.TRANSFER_EVENT 1; event TrbType.PORT_STATUS_CHANGE 2; event TrbType.COMMAND_COMPLETION 3].
Definition ring : EventRing := mkEventRing (mkPhysMem 5056 64 64) (mkPhysMem 8192 4096 64) 4 0 true.
Definition host : HostDemo.Host :=
  foldl (fun w it => HostDemo.write (5056 + it.1 * 16) (trb_bytes (set_cycle true it.2)) w) HostDemo.zeroed
    (zip [0; 1; 2] posted).
Definition ctrl : XhciCtrl HostDemo.Host := mkXhciCtrl host PortLog.cfg HostDemo.ring4 ring [].

Lemma view : event_view ctrl [] (set_cycle true <$> posted).
Proof.
  exists 4%nat, posted, 0%nat. split; [|split; [cbn; lia|done]]. split; [lia|]. split; [done|]. split; [done|].
  split; [done|]. split; [done|]. split.
  - intros k t Hk _. destruct k as [|[|[|k]]]; cbn in Hk; simplify_eq; by vm_compute.
  - intros i Hi. cbn in Hi. assert (i = 3%nat) as -> by lia. by vm_compute.
Qed.
End EventDemo.

Lemma poll_event_matching_exact_witness :
  exists x' r pending' ring',
    poll_event_matching (fun t => trb_type t =? TrbType.PORT_STATUS_CHANGE) EventDemo.ctrl = (x', Ok r) /\
    event_view x' pending' ring' /\
    r = Some (set_cycle true (EventDemo.event TrbType.PORT_STATUS_CHANGE 2)) /\
    pending' ++ ring' = set_cycle true <$> [EventDemo.event TrbType.TRANSFER_EVENT 1; EventDemo.event TrbType.COMMAND_COMPLETION 3].
Proof.
  destruct (poll_event_matching_exact (fun t => trb_type t =? TrbType.PORT_STATUS_CHANGE) EventDemo.ctrl _ _ EventDemo.view)
    as (x' & r & p & q & E & Hv & Hq). exists x', r, p, q. split; [exact E|]. split; [exact Hv|]. exact Hq.
Defined.

Lemma wait_command_drops_witness :
  exists x', wait_command EventDemo.ctrl = (x', command_result (set_cycle true (EventDemo.event TrbType.COMMAND_COMPLETION 3))) /\
    event_view x' [] [].
Proof.
  apply (wait_command_drops EventDemo.ctrl []
           (set_cycle true <$> [EventDemo.event TrbType.TRANSFER_EVENT 1; EventDemo.event TrbType.PORT_STATUS_CHANGE 2])).
  - exact EventDemo.view.
  - by repeat constructor.
  - done.
  - done.
Defined.
