(* ===== verification/UsbDevice.v ===== *)
(** * USB devices on the xHCI controller: operations

    usb-oxide/src/dev.rs: the context structures shared with the controller, addressing a
    device, control transfers on endpoint 0, configuration descriptors, and bulk transfers
    on configured endpoints.  The state is the controller and the one device in use. *)

From S2P Require Import Prelude UsbRing UsbDesc Xhci.

(** ** Context structures *)

Record SlotContext := mkSlotContext {
  sc_dw0 : Z;
  sc_dw1 : Z;
  sc_dw2 : Z;
  sc_dw3 : Z;
}.

Definition slot_context_new (route speed context_entries root_port : Z) : SlotContext :=
  mkSlotContext
    (as_u32 (Z.lor (Z.lor (Z.land route 0xfffff) (Z.shiftl speed 20)) (Z.shiftl context_entries 27)))
    (Z.shiftl root_port 16) 0 0.

Definition slot_context_bytes (s : SlotContext) : bytes :=
  to_le32 (sc_dw0 s) ++ to_le32 (sc_dw1 s) ++ to_le32 (sc_dw2 s) ++ to_le32 (sc_dw3 s) ++ zeros 16.

Record EndpointContext := mkEndpointContext {
  ec_dw0 : Z;
  ec_dw1 : Z;
  ec_tr_dequeue_lo : Z;
  ec_tr_dequeue_hi : Z;
  ec_dw4 : Z;
}.

Definition endpoint_context_new (ep_type max_packet_size max_burst interval tr_ptr : Z) : EndpointContext :=
  mkEndpointContext (Z.shiftl interval 16)
    (Z.lor (Z.lor (Z.lor (Z.shiftl 3 1) (Z.shiftl ep_type 3)) (Z.shiftl max_burst 8)) (Z.shiftl max_packet_size 16))
    (Z.lor (as_u32 tr_ptr) 1) (Z.shiftr tr_ptr 32) 8.

Definition endpoint_context_bytes (e : EndpointContext) : bytes :=
  to_le32 (ec_dw0 e) ++ to_le32 (ec_dw1 e) ++ to_le32 (ec_tr_dequeue_lo e) ++ to_le32 (ec_tr_dequeue_hi e)
  ++ to_le32 (ec_dw4 e) ++ zeros 12.

(** Offsets and sizes of [InputContext] and [DeviceContext]: 32 bytes of control words,
    the slot context, and 31 endpoint contexts. *)
Definition CONTROL_OFF (i : Z) : Z := i * 4.
Definition SLOT_OFF : Z := 32.
Definition ENDPOINT_OFF (i : Z) : Z := 64 + i * 32.
Definition DEVICE_CONTEXT_SIZE : Z := 1024.
(** 1056, rounded up by [align(64)]. *)
Definition INPUT_CONTEXT_SIZE : Z := 1088.

(** ** State *)

Record UsbDevice := mkUsbDevice {
  ud_slot_id : Z;
  ud_port : Z;
  ud_speed : Z;
  ud_device_ctx : PhysMem;
  ud_input_ctx : PhysMem;
  ud_ep0_ring : Ring;
  ud_ep_rings : list (option Ring);
  ud_device_desc : option DeviceDesc;
}.

Record UsbSys (W : Type) := mkUsbSys {
  s_ctrl : XhciCtrl W;
  s_dev : UsbDevice;
}.
Arguments mkUsbSys {W}.
Arguments s_ctrl {W}.
Arguments s_dev {W}.

(** [for _ in 0..CONFIG_DESCRIPTOR_RETRIES] *)
Definition CONFIG_DESCRIPTOR_RETRIES : nat := 3.

Section device.
Context {W : Type} `{XhcIo W}.

Abbreviation UM A := (ST (UsbSys W) UsbError A).

Definition set_ctrl (x : XhciCtrl W) (s : UsbSys W) : UsbSys W := mkUsbSys x (s_dev s).
Definition set_dev (d : UsbDevice) (s : UsbSys W) : UsbSys W := mkUsbSys (s_ctrl s) d.
Definition set_ep0_ring (r : Ring) (d : UsbDevice) : UsbDevice :=
  mkUsbDevice (ud_slot_id d) (ud_port d) (ud_speed d) (ud_device_ctx d) (ud_input_ctx d) r (ud_ep_rings d) (ud_device_desc d).
Definition set_ep_rings (l : list (option Ring)) (d : UsbDevice) : UsbDevice :=
  mkUsbDevice (ud_slot_id d) (ud_port d) (ud_speed d) (ud_device_ctx d) (ud_input_ctx d) (ud_ep0_ring d) l (ud_device_desc d).
Definition set_device_desc (o : option DeviceDesc) (d : UsbDevice) : UsbDevice :=
  mkUsbDevice (ud_slot_id d) (ud_port d) (ud_speed d) (ud_device_ctx d) (ud_input_ctx d) (ud_ep0_ring d) (ud_ep_rings d) o.

Definition on_ctrl {A} (m : XM W A) : UM A := fun s => let '(x, r) := m (s_ctrl s) in (set_ctrl x s, r).
Definition on_mem {A} (m : HM W A) : UM A := on_ctrl (on_host m).
Definition modify_dev (f : UsbDevice -> UsbDevice) : UM unit := smodify (fun s => set_dev (f (s_dev s)) s).

(** ** Addressing a device *)

Definition ep0_max_packet (speed : Z) : Z :=
  if speed =? Reg.SPEED_LOW then 8
  else if speed =? Reg.SPEED_FULL then 8
  else if speed =? Reg.SPEED_HIGH then 64
  else if speed =? Reg.SPEED_SUPER then 512
  else 8.

Definition usb_device_new (port : Z) : XM W UsbDevice :=
  let! slot_id := enable_slot_for_port port in
  let! _ := port_status port in
  let! initial_speed := port_speed port in
  let! speed :=
    if initial_speed =? Reg.SPEED_SUPER then sret initial_speed else
    let! _ := reset_port port in port_speed port in
  let! _ := clear_port_change_bits port in
  let! device_ctx := on_host (phys_alloc DEVICE_CONTEXT_SIZE 64) in
  let! input_ctx := on_host (phys_alloc INPUT_CONTEXT_SIZE 64) in
  let! ep0_ring := on_host (ring_new 256) in
  let root_port := as_u8 (port + 1) in
  let input := pm_addr input_ctx in
  let! _ := on_host (smodify (mem_write (input + CONTROL_OFF 1) (to_le32 3))) in
  let! _ := on_host (smodify (mem_write (input + SLOT_OFF)
              (slot_context_bytes (slot_context_new 0 speed 1 root_port)))) in
  let! _ := on_host (smodify (mem_write (input + ENDPOINT_OFF 0)
              (endpoint_context_bytes (endpoint_context_new 4 (ep0_max_packet speed) 0 0 (ring_phys ep0_ring))))) in
  let! _ := set_device_context slot_id (phys device_ctx) in
  let! _ := port_status port in
  let! answer := scatch (submit_command (mkTrb (phys input_ctx) 0
              (Z.lor (Z.shiftl TrbType.ADDRESS_DEVICE 10) (Z.shiftl slot_id 24)))) in
  let! _ := port_status port in
  match answer with
  | inr e => sfail e
  | inl _ =>
      sret (mkUsbDevice slot_id port speed device_ctx input_ctx ep0_ring (replicate 31 None) None)
  end.

(** ** Control transfers *)

Definition enqueue_ep0 (t : Trb) : UM Z :=
  let! d := sgets s_dev in
  let! (r, addr) := on_mem (enqueue (ud_ep0_ring d) t) in
  let! _ := modify_dev (set_ep0_ring r) in
  sret addr.

Definition data_in (setup : SetupPacket) : bool := has (sp_request_type setup) 0x80.

Definition setup_trb (setup : SetupPacket) (data_len : Z) : Trb :=
  mkTrb (setup_word setup) 8
    (Z.lor (Z.lor (Z.shiftl TrbType.SETUP 10) (bit 6))
       (if (0 <? data_len) && (0 <? sp_length setup)
        then if data_in setup then Z.shiftl 3 16 else Z.shiftl 2 16 else 0)).

Definition data_trb (setup : SetupPacket) (buf : Z) : Trb :=
  mkTrb buf (sp_length setup)
    (Z.lor (Z.lor (Z.shiftl TrbType.DATA 10) (if data_in setup then bit 16 else 0)) (bit 5)).

Definition status_trb (setup : SetupPacket) (data_len : Z) : Trb :=
  mkTrb 0 0
    (Z.lor (Z.lor (Z.shiftl TrbType.STATUS 10)
       (if (0 <? data_len) && (0 <? sp_length setup) && data_in setup then 0 else bit 16)) (bit 5)).

(** A transfer event of an endpoint of a slot. *)
Definition transfer_event (slot endpoint : Z) (t : Trb) : bool :=
  (trb_type t =? TrbType.TRANSFER_EVENT) && (trb_slot_id t =? slot) && (endpoint_id t =? endpoint).

Definition is_done (code : Z) : bool := (code =? Completion.SUCCESS) || (code =? Completion.SHORT_PACKET).

Definition free_opt (buf : option PhysMem) : HM W unit :=
  match buf with Some b => phys_free b | None => sret tt end.

(** The state of the completion loop: the system, and [data_transferred]. *)
Abbreviation CM A := (ST (UsbSys W * option Z) UsbError A).

Definition lift_sys {A} (m : UM A) : CM A := fun '(s, d) => let '(s, r) := m s in ((s, d), r).

Definition control_round (setup : SetupPacket) (data : option bytes) (data_buf : option PhysMem)
    (data_trb_addr : option Z) (status_trb_addr slot : Z) : CM (option (Z * option bytes)) :=
  let! evt := lift_sys (on_ctrl (poll_event_matching (transfer_event slot 1))) in
  match evt with
  | None => sret None
  | Some evt =>
      let is_data_evt := bool_decide (data_trb_addr = Some (param evt)) in
      let is_status_evt := param evt =? status_trb_addr in
      if negb is_data_evt && negb is_status_evt then sret None else
      let code := completion_code evt in
      if is_done code then
        if is_data_evt then
          let! _ := smodify (fun '(s, _) => (s, Some (sat_sub (sp_length setup) (transfer_length evt)))) in
          sret None
        else
          let! transferred := sgets (fun sd : UsbSys W * option Z =>
            match data with Some (_ :: _) => default 0 sd.2 | _ => 0 end) in
          let! data :=
            match data_in setup, data_buf, data with
            | true, Some buf, Some d =>
                let n := Z.min transferred (zlen d) in
                let! b := lift_sys (on_mem (lift_w (mem_read (pm_addr buf) n))) in
                sret (Some (b ++ zdrop n d))
            | _, _, _ => sret data
            end in
          let! _ := lift_sys (on_mem (free_opt data_buf)) in
          sret (Some (transferred, data))
      else if code =? Completion.STALL_ERROR then
        let! _ := lift_sys (on_mem (free_opt data_buf)) in sfail Stall
      else if code =? Completion.INVALID then sret None
      else
        let! _ := lift_sys (on_mem (free_opt data_buf)) in sfail (XferFail code)
  end.

(** The bytes transferred and the caller's buffer afterwards. *)
Definition control_transfer (setup : SetupPacket) (data : option bytes) : UM (Z * option bytes) :=
  let data_len := match data with Some d => zlen d | None => 0 end in
  let! data_buf :=
    if 0 <? data_len then
      let! buf := on_mem (phys_alloc data_len 64) in
      let! _ :=
        match data with
        | Some d => if data_in setup then sret tt else on_mem (smodify (mem_write (pm_addr buf) d))
        | None => sret tt
        end in
      sret (Some buf)
    else sret None in
  let! _ := enqueue_ep0 (setup_trb setup data_len) in
  let! data_trb_addr :=
    match data_buf with
    | Some buf => let! a := enqueue_ep0 (data_trb setup (phys buf)) in sret (Some a)
    | None => sret None
    end in
  let! status_trb_addr := enqueue_ep0 (status_trb setup data_len) in
  let! d := sgets s_dev in
  let! _ := on_ctrl (ring_doorbell (ud_slot_id d) 1) in
  fun s =>
    match spin 250000
            (fun _ => control_round setup data data_buf data_trb_addr status_trb_addr (ud_slot_id d))
            (sfail (Timeout "control_transfer waiting for TRANSFER_EVENT")) (s, None) with
    | ((s, _), r) => (s, r)
    end.

Definition recover_ep0_stall : UM unit :=
  let! _ := scatch (control_transfer (clear_endpoint_feature 0 0x00) None) in
  let! _ := scatch (control_transfer (clear_endpoint_feature 0 0x80) None) in
  sret tt.

Definition get_device_descriptor : UM DeviceDesc :=
  let! (_, buf) := control_transfer (get_descriptor DescType.DEVICE 0 18) (Some (zeros 18)) in
  let desc := device_desc_of (default [] buf) in
  let! _ := modify_dev (set_device_desc (Some desc)) in
  sret desc.

(** [for attempt in 1..=CONFIG_DESCRIPTOR_RETRIES]: the bytes transferred and the buffer. *)
Fixpoint fetch_retry (n : nat) (setup : SetupPacket) (last : UsbError) (buf : bytes) : UM (Z * bytes) :=
  match n with
  | O => sfail last
  | S n =>
      let! r := scatch (control_transfer setup (Some buf)) in
      match r with
      | inl (transferred, b) => sret (transferred, default [] b)
      | inr Stall =>
          let! _ := recover_ep0_stall in
          fetch_retry n setup Stall buf
      | inr e => sfail e
      end
  end.

(** [for cycle in 1..=CONFIG_DESCRIPTOR_RETRIES] *)
Fixpoint config_cycles (n : nat) (index : Z) : UM bytes :=
  match n with
  | O => sfail InvalidDescriptor
  | S n =>
      let! (short_transferred, buf) :=
        fetch_retry CONFIG_DESCRIPTOR_RETRIES (get_descriptor DescType.CONFIGURATION index 9)
          (Timeout "config descriptor short fetch not attempted") (zeros 9) in
      if short_transferred <? 9 then config_cycles n index else
      let! length := slift (at_byte buf 0) in
      let! ty := slift (at_byte buf 1) in
      let total_len := u16_at buf 2 in
      if negb (length =? 9) || negb (ty =? DescType.CONFIGURATION) || (total_len <? 9)
      then config_cycles n index else
      let! (full_transferred, full_buf) :=
        fetch_retry CONFIG_DESCRIPTOR_RETRIES (get_descriptor DescType.CONFIGURATION index (as_u16 total_len))
          (Timeout "config descriptor full fetch not attempted") (zeros total_len) in
      if full_transferred <? total_len then config_cycles n index else sret full_buf
  end.

Definition get_config_descriptor (index : Z) : UM bytes := config_cycles CONFIG_DESCRIPTOR_RETRIES index.

Definition set_configuration (config : Z) : UM unit :=
  let! _ := control_transfer (setup_set_configuration config) None in sret tt.

(** ** Endpoints *)

Definition dci_of (ep_num : Z) (is_in : bool) : Z := ep_num * 2 + (if is_in then 1 else 0).

Definition xhci_ep_type (ep_type : Z) (is_in : bool) : Z :=
  if ep_type =? 0 then 4
  else if ep_type =? 1 then if is_in then 5 else 1
  else if ep_type =? 2 then if is_in then 6 else 2
  else if ep_type =? 3 then if is_in then 7 else 3
  else 4.

(** Ceiling of the binary logarithm, as the code computes it. *)
Definition log2_ceil (ms : Z) : Z := if is_power_of_two ms then Z.log2 ms else Z.log2 ms + 1.

Definition ep_interval (speed interval : Z) : Z :=
  if Reg.SPEED_HIGH <=? speed then sat_sub interval 1 else log2_ceil (Z.max interval 1) + 3.

(** [ep_rings[i]], and [ep_rings[i] = v]: checked. *)
Definition get_ring (i : Z) : UM (option Ring) :=
  let! d := sgets s_dev in
  slift (match ud_ep_rings d !! Z.to_nat i with Some r => Ok r | None => Panic end).
Definition put_ring (i : Z) (r : Ring) : UM unit :=
  let! d := sgets s_dev in
  if i <? zlen (ud_ep_rings d) then modify_dev (set_ep_rings (<[Z.to_nat i := Some r]> (ud_ep_rings d)))
  else slift Panic.

Definition configure_endpoint (ep : EndpointDesc) : UM unit :=
  let dci := dci_of (number ep) (is_in ep) in
  let ring_idx := sub64 dci 1 in
  let! ring := on_mem (ring_new 256) in
  let! d := sgets s_dev in
  let input := pm_addr (ud_input_ctx d) in
  let! _ := on_mem (smodify (mem_write (input + CONTROL_OFF 0) (to_le32 0))) in
  let! _ := on_mem (smodify (mem_write (input + CONTROL_OFF 1) (to_le32 (Z.lor (bit dci) 1)))) in
  let! b := on_mem (lift_w (mem_read (input + SLOT_OFF) 4)) in
  let dw0 := le_combine b in
  let! _ :=
    if Z.shiftr dw0 27 <? dci then
      on_mem (smodify (mem_write (input + SLOT_OFF)
        (to_le32 (Z.lor (Z.ldiff dw0 (Z.shiftl 0x1f 27)) (Z.shiftl dci 27)))))
    else sret tt in
  let! _ :=
    if ring_idx <? 31 then
      on_mem (smodify (mem_write (input + ENDPOINT_OFF ring_idx)
        (endpoint_context_bytes
           (endpoint_context_new (xhci_ep_type (transfer_type ep) (is_in ep)) (ed_max_packet_size ep) 0
              (ep_interval (ud_speed d) (ed_interval ep)) (ring_phys ring)))))
    else slift Panic in
  let! _ := put_ring ring_idx ring in
  let! _ := on_ctrl (submit_command (mkTrb (phys (ud_input_ctx d)) 0
    (Z.lor (Z.shiftl TrbType.CONFIGURE_ENDPOINT 10) (Z.shiftl (ud_slot_id d) 24)))) in
  sret tt.

(** One chunk of a transfer: up to 64 KiB and not across a 64 KiB boundary. *)
Definition chunk_len (phys_addr remaining : Z) : Z :=
  let next_64k_boundary := Z.ldiff (add64 phys_addr 65536) 65535 in
  Z.min (Z.min remaining 65536) (sub64 next_64k_boundary phys_addr).

Definition chunk_trb (phys_addr chunk remaining : Z) : Trb :=
  let td_size := Z.min ((remaining + 511) / 512) 31 in
  mkTrb phys_addr (Z.lor chunk (Z.shiftl td_size 17))
    (if remaining =? 0 then Z.lor (Z.shiftl TrbType.NORMAL 10) (bit 5)
     else Z.lor (Z.lor (Z.shiftl TrbType.NORMAL 10) (bit 4)) (bit 2)).

(** [while remaining > 0] *)
Fixpoint queue_chunks (fuel : nat) (ring : Ring) (base offset remaining : Z) : HM W Ring :=
  if 0 <? remaining then
    match fuel with
    | O => sfuel
    | S fuel =>
        let phys_addr := add64 base offset in
        let chunk := chunk_len phys_addr remaining in
        let remaining := remaining - chunk in
        let! (ring, _) := enqueue ring (chunk_trb phys_addr chunk remaining) in
        queue_chunks fuel ring base (offset + chunk) remaining
    end
  else sret ring.

(** A chunk ends at a boundary or has the full 64 KiB, so two more than the number of
    whole 64 KiB blocks are enough. *)
Definition chunk_fuel (len : Z) : nat := Z.to_nat (len / 65536 + 2).

Definition queue_transfer (ep_num : Z) (is_in : bool) (buf : PhysMem) (len : Z) : UM unit :=
  let dci := dci_of ep_num is_in in
  let ring_idx := sub64 dci 1 in
  let! ring := get_ring ring_idx in
  let! ring := sopt InvEndpoint ring in
  let! ring :=
    if len =? 0 then
      let! (ring, _) := on_mem (enqueue ring (mkTrb (phys buf) 0 (Z.lor (Z.shiftl TrbType.NORMAL 10) (bit 5)))) in
      sret ring
    else on_mem (queue_chunks (chunk_fuel len) ring (phys buf) 0 len) in
  let! _ := put_ring ring_idx ring in
  let! d := sgets s_dev in
  on_ctrl (ring_doorbell (ud_slot_id d) (as_u8 dci)).

Definition wait_transfer_event (endpoint requested_len : Z) : UM Z :=
  spin 250000
    (fun _ =>
       let! d := sgets s_dev in
       let! evt := on_ctrl (poll_event_matching (transfer_event (ud_slot_id d) endpoint)) in
       match evt with
       | None => sret None
       | Some evt =>
           let code := completion_code evt in
           if is_done code then sret (Some (sat_sub requested_len (transfer_length evt)))
           else if code =? Completion.INVALID then sret None
           else if code =? Completion.STALL_ERROR then sfail Stall
           else sfail (XferFail code)
       end)
    (sfail (Timeout "bulk transfer waiting for TRANSFER_EVENT")).

Definition bulk_transfer (ep_num : Z) (is_in : bool) (buf : PhysMem) (len : Z) : UM Z :=
  let! _ := queue_transfer ep_num is_in buf len in
  wait_transfer_event (as_u8 (dci_of ep_num is_in)) len.

(** ** Dropping a device *)

Fixpoint free_rings (l : list (option Ring)) : HM W unit :=
  match l with
  | [] => sret tt
  | Some r :: l => let! _ := ring_free r in free_rings l
  | None :: l => free_rings l
  end.

Definition usb_device_drop : UM unit :=
  let! d := sgets s_dev in
  let! _ := scatch (on_ctrl (disable_slot (ud_slot_id d))) in
  let! _ := on_mem (free_rings (ud_ep_rings d)) in
  let! _ := modify_dev (set_ep_rings (map (fun _ => None) (ud_ep_rings d))) in
  let! fresh := on_mem (scatch (ring_new 1)) in
  match fresh with
  | inr _ => slift Panic
  | inl fresh =>
      let! _ := modify_dev (set_ep0_ring fresh) in
      on_mem (ring_free (ud_ep0_ring d))
  end.
End device.

Abbreviation UDM W A := (ST (UsbSys W) UsbError A).
