(* ===== verification/UsbDeviceTheorems.v ===== *)
(** * USB devices: theorems

    Queueing a bulk transfer puts one transfer descriptor on the endpoint's ring: TRBs that
    cover the buffer from its first byte to its last without gaps, none across a 64 KiB
    boundary, chained up to the last. *)

From S2P Require Import Prelude UsbRing UsbRingTheorems UsbDesc Xhci XhciTheorems UsbDevice.

(** ** Transfer descriptors *)

Lemma chunk_len_spec p n :
  0 <= p -> 0 < n -> p + n <= 2 ^ 64 -> chunk_len p n = Z.min n (65536 - p mod 65536).
Proof.
  intros Hp Hn Hb. pose proof (Z.mod_pos_bound p 65536 eq_refl) as Hm. unfold chunk_len.
  assert (sub64 (Z.ldiff (add64 p 65536) 65535) p = 65536 - p mod 65536) as ->; [|lia].
  change 65535 with (Z.ones 16). rewrite Z.ldiff_ones_r, Z.shiftl_mul_pow2, Z.shiftr_div_pow2 by lia.
  change (2 ^ 16) with 65536. unfold sub64, add64, as_u64. change 18446744073709551616 with (2 ^ 64).
  pose proof (Z.div_mod p 65536 ltac:(lia)) as Hd. set (q := p / 65536) in *. set (m := p mod 65536) in *.
  assert (q < 2 ^ 48) by lia.
  assert (((p + 65536) mod 2 ^ 64) / 65536 = (q + 1) mod 2 ^ 48) as ->.
  { replace (p + 65536) with ((q + 1) * 65536 + m) by lia. change (2 ^ 64) with (65536 * 2 ^ 48).
    rewrite Z.rem_mul_r by lia. rewrite (Z.add_comm (_ * _) m), Z.mod_add by lia. rewrite (Z.mod_small m) by lia.
    rewrite (Z.div_add m) by lia. rewrite (Z.div_small m) by lia. rewrite (Z.mul_comm 65536), Z.div_add by lia.
    rewrite (Z.div_small m) by lia. done. }
  destruct (decide (q + 1 < 2 ^ 48)) as [Hlt|Hge].
  - rewrite (Z.mod_small (q + 1)) by lia. rewrite Z.mod_small; lia.
  - replace (q + 1) with (2 ^ 48) by lia. rewrite Z.mod_same by lia. symmetry. apply Z.mod_unique with (-1); lia.
Qed.

(** The TRBs of a transfer of [n] bytes at [p]. *)
Fixpoint td_trbs (fuel : nat) (p n : Z) : list Trb :=
  if 0 <? n then
    match fuel with
    | O => []
    | S fuel =>
        let chunk := Z.min n (65536 - p mod 65536) in
        chunk_trb p chunk (n - chunk) :: td_trbs fuel (p + chunk) (n - chunk)
    end
  else [].

(** [td] moves exactly the [n] bytes at [p], in order: every TRB has a part of them within
    one 64 KiB block, and all but the last are chained to the next. *)
Fixpoint td_covers (p n : Z) (td : list Trb) : Prop :=
  match td with
  | [] => n = 0
  | t :: rest =>
      param t = p /\ 0 < transfer_length t <= n /\ p / 65536 = (p + transfer_length t - 1) / 65536 /\
      has (control t) (bit 4) = (match rest with [] => false | _ :: _ => true end) /\
      has (control t) (bit 5) = (match rest with [] => true | _ :: _ => false end) /\
      td_covers (p + transfer_length t) (n - transfer_length t) rest
  end.

Lemma chunk_bounds p n :
  0 <= p -> 0 < n -> 0 < Z.min n (65536 - p mod 65536) <= n /\ Z.min n (65536 - p mod 65536) <= 65536.
Proof. intros Hp Hn. pose proof (Z.mod_pos_bound p 65536 eq_refl). lia. Qed.

Lemma chunk_td_size n : 0 <= n -> 0 <= Z.min ((n + 511) / 512) 31 <= 31.
Proof. intros Hn. pose proof (Z.div_pos (n + 511) 512). lia. Qed.

Lemma chunk_transfer_length p chunk rem :
  0 <= chunk <= 65536 -> 0 <= rem -> transfer_length (chunk_trb p chunk rem) = chunk.
Proof.
  intros Hc Hr. pose proof (chunk_td_size rem Hr) as Ht. unfold transfer_length, chunk_trb. cbn [status].
  set (k := Z.min _ 31) in *. change 0x1ffff with (Z.ones 17). rewrite Z.land_lor_distr_l.
  rewrite !Z.land_ones by lia. rewrite Z.shiftl_mul_pow2 by lia. rewrite Z.mod_mul by lia.
  rewrite Z.lor_0_r. apply Z.mod_small. lia.
Qed.

Lemma chunk_trb_ok p chunk rem :
  u64 p -> 0 <= chunk <= 65536 -> 0 <= rem -> trb_ok (chunk_trb p chunk rem) /\ is_link (chunk_trb p chunk rem) = false.
Proof.
  intros Hp Hc Hr. pose proof (chunk_td_size rem Hr) as Ht. unfold chunk_trb. split.
  - unfold trb_ok. cbn [param status control]. split; [done|]. split.
    + assert (0 <= Z.lor chunk (Z.shiftl (Z.min ((rem + 511) / 512) 31) 17) < 2 ^ 32) as Hb; [|ulia].
      apply lor_bound; [lia|lia|]. rewrite Z.shiftl_mul_pow2 by lia. lia.
    + destruct (rem =? 0); by split; vm_compute.
  - unfold is_link, trb_type. cbn [control]. by destruct (rem =? 0).
Qed.

Lemma td_trbs_covers fuel : forall p n,
  0 <= p -> 0 <= n -> (0 < n -> p mod 65536 + n <= 65536 * Z.of_nat fuel) -> td_covers p n (td_trbs fuel p n).
Proof.
  induction fuel as [|fuel IH]; intros p n Hp Hn Hf; cbn [td_trbs];
    pose proof (Z.mod_pos_bound p 65536 eq_refl) as Hm; (destruct (0 <? n) eqn:E; bool_to_prop; [|cbn; lia]); [lia|].
  destruct (chunk_bounds p n Hp E) as [Hc Hc']. cbn [td_covers].
  set (chunk := Z.min n (65536 - p mod 65536)) in *. rewrite chunk_transfer_length by lia.
  pose proof (Z.div_mod p 65536 ltac:(lia)) as Hd.
  assert (forall b, has (control (chunk_trb p chunk (n - chunk))) b
            = has (if n - chunk =? 0 then 1056 else 1044) b) as Hbits by (intros b; cbn; by destruct (_ =? 0)).
  assert (match td_trbs fuel (p + chunk) (n - chunk) with [] => true | _ :: _ => false end = (n - chunk =? 0)) as Hlast.
  { destruct fuel as [|fuel]; cbn [td_trbs].
    - replace (n - chunk =? 0) with true by lia. by destruct (0 <? _).
    - destruct (0 <? n - chunk) eqn:E2; bool_to_prop; lia. }
  split; [done|]. split; [lia|]. split.
  { apply Z.div_unique with (p mod 65536 + chunk - 1); lia. }
  rewrite !Hbits. split; [|split].
  - destruct (td_trbs _ _ _), (n - chunk =? 0); done.
  - destruct (td_trbs _ _ _), (n - chunk =? 0); done.
  - apply IH; [lia|lia|]. intros Hpos. replace (p + chunk) with ((p / 65536 + 1) * 65536) by lia.
    rewrite Z.mod_mul by lia. lia.
Qed.

Lemma length_td_trbs fuel : forall p n, (length (td_trbs fuel p n) <= fuel)%nat.
Proof. induction fuel as [|fuel IH]; intros p n; cbn; destruct (0 <? n); cbn; [lia..| |lia]. specialize (IH (p + Z.min n (65536 - p mod 65536)) (n - Z.min n (65536 - p mod 65536))). lia. Qed.

Lemma chunk_fuel_enough p n : 0 <= n -> p mod 65536 + n <= 65536 * Z.of_nat (chunk_fuel n).
Proof.
  intros Hn. pose proof (Z.mod_pos_bound p 65536 eq_refl). pose proof (Z.div_mod n 65536 ltac:(lia)).
  pose proof (Z.mod_pos_bound n 65536 eq_refl). pose proof (Z.div_pos n 65536). unfold chunk_fuel. rewrite Z2Nat.id; lia.
Qed.

(** The whole transfer, an empty one included. *)
Definition transfer_td (p n : Z) : list Trb :=
  if n =? 0 then [mkTrb p 0 (Z.lor (Z.shiftl TrbType.NORMAL 10) (bit 5))] else td_trbs (chunk_fuel n) p n.

(** ** Queueing *)

Section queue.
Context {W : Type} `{DmaSpec W}.
Implicit Types (w : W) (r : Ring) (P : W -> Prop).

(** [P] does not depend on the [n] bytes at [p]. *)
Definition mem_stable (p n : Z) P : Prop :=
  forall v b w, p <= virt_to_phys v -> virt_to_phys v + zlen b <= p + n -> P w -> P (mem_write v b w).

Lemma wp_put_trb_frame r i t P w X :
  mem_stable (ring_phys r) (ring_size r * 16) P -> 0 <= i < ring_size r -> P w -> wp (put_trb r i t) (fun _ => P) X w.
Proof.
  intros Hst Hi HP. unfold put_trb. guard_true (i <? ring_size r). apply wp_modify, Hst; [| |done];
    rewrite virt_linear; unfold ring_phys, phys; rewrite ?zlen_trb_bytes; lia.
Qed.

Lemma wp_enqueue_frame r u h t P w X :
  ring_holds w r u h -> trb_ok t -> is_link t = false -> mem_stable (ring_phys r) (ring_size r * 16) P -> P w ->
  wp (enqueue r t) (fun ra w' => ring_holds w' ra.1 u (h ++ [t]) /\ ring_mem ra.1 = ring_mem r /\ P w') X w.
Proof.
  intros Hh Ht Hl Hst HP.
  eapply (wp_mono _ (fun ra w' => (ring_holds w' ra.1 u (h ++ [t]) /\ ring_mem ra.1 = ring_mem r) /\ P w') _ (fun e w' => X e w' /\ X e w'));
    [|by intros ? ? [[] ]|by intros ? ? []].
  apply wp_conj; [by eapply wp_enqueue|]. destruct Hh as (Hu & Hsz & _ & He & _).
  pose proof (Nat.mod_upper_bound (length h) u ltac:(lia)).
  unfold enqueue. apply wp_bind.
  eapply wp_mono; [eapply (wp_put_trb_frame r _ _ P); [done|lia|done]| |done]. intros ? w1 HP1. cbn beta in *.
  destruct (sub64 (ring_size r) 1 <=? _); [|by apply wp_ret]. apply wp_bind.
  eapply wp_mono; [eapply (wp_put_trb_frame r _ _ P); [done|lia|done]| |done]. intros ? w2 HP2. by apply wp_ret.
Qed.

Lemma ring_holds_same_area w w' r r' u h h' :
  ring_holds w r u h -> ring_holds w' r' u h' -> ring_mem r' = ring_mem r ->
  ring_phys r' = ring_phys r /\ ring_size r' = ring_size r.
Proof. intros (_ & Hs & _) (_ & Hs' & _) Hm. unfold ring_phys. rewrite Hm. split; [done|congruence]. Qed.

Lemma wp_queue_chunks P X fuel : forall r u h base offset n w,
  ring_holds w r u h -> mem_stable (ring_phys r) (ring_size r * 16) P -> P w ->
  0 <= base -> 0 <= offset -> 0 <= n -> base + offset + n <= 2 ^ 64 ->
  (0 < n -> (base + offset) mod 65536 + n <= 65536 * Z.of_nat fuel) ->
  wp (queue_chunks fuel r base offset n)
    (fun r' w' => ring_holds w' r' u (h ++ td_trbs fuel (base + offset) n) /\ ring_mem r' = ring_mem r /\ P w') X w.
Proof.
  induction fuel as [|fuel IH]; intros r u h base offset n w Hh Hst HP Hb Ho Hn H64 Hf; cbn [queue_chunks td_trbs];
    pose proof (Z.mod_pos_bound (base + offset) 65536 eq_refl) as Hm;
    (destruct (0 <? n) eqn:E; bool_to_prop; [|apply wp_ret; by rewrite app_nil_r]); [lia|].
  assert (add64 base offset = base + offset) as -> by (unfold add64; apply as_u64_small; ulia).
  rewrite chunk_len_spec by lia. destruct (chunk_bounds (base + offset) n ltac:(lia) E) as [Hc Hc'].
  set (chunk := Z.min n (65536 - (base + offset) mod 65536)) in *.
  destruct (chunk_trb_ok (base + offset) chunk (n - chunk)) as [Ht Hl]; [ulia|lia|lia|].
  apply wp_bind. eapply wp_mono; [by apply (wp_enqueue_frame r u h _ P)| |done].
  intros [r1 a] w1 (Hh1 & Hm1 & HP1). cbn [fst] in *. destruct (ring_holds_same_area _ _ _ _ _ _ _ Hh Hh1 Hm1) as [Ep Es].
  eapply wp_mono; [apply (IH r1 u _ base (offset + chunk) (n - chunk) w1 Hh1)| |done]; try lia; try done.
  - by rewrite Ep, Es.
  - intros Hpos. pose proof (Z.div_mod (base + offset) 65536 ltac:(lia)).
    replace (base + (offset + chunk)) with (((base + offset) / 65536 + 1) * 65536) by lia. rewrite Z.mod_mul by lia. lia.
  - cbn beta. intros r2 w2 (Hh2 & Hm2 & HP2). rewrite <- app_assoc in Hh2. cbn [app] in Hh2.
    rewrite Z.add_assoc in Hh2. split; [done|]. split; [congruence|done].
Qed.

(** ** Lifting through the layers *)

Lemma wp_host {A} (c : HM W A) (Q : A -> XhciCtrl W -> Prop) X x :
  wp c (fun a w => Q a (set_host w x)) (fun e w => X e (set_host w x)) (x_host x) -> wp (on_host c) Q X x.
Proof. Transparent wp. unfold wp, on_host. Opaque wp. by destruct (c (x_host x)) as [w [a|e| |]]. Qed.

Lemma wp_on_ctrl {A} (c : XM W A) (Q : A -> UsbSys W -> Prop) X s :
  wp c (fun a x => Q a (set_ctrl x s)) (fun e x => X e (set_ctrl x s)) (s_ctrl s) -> wp (on_ctrl c) Q X s.
Proof. Transparent wp. unfold wp, on_ctrl. Opaque wp. by destruct (c (s_ctrl s)) as [x [a|e| |]]. Qed.

Definition set_sys_host (w : W) (s : UsbSys W) : UsbSys W := set_ctrl (set_host w (s_ctrl s)) s.
Definition sys_host (s : UsbSys W) : W := x_host (s_ctrl s).

Lemma wp_on_mem {A} (c : HM W A) (Q : A -> UsbSys W -> Prop) X s :
  wp c (fun a w => Q a (set_sys_host w s)) (fun e w => X e (set_sys_host w s)) (sys_host s) -> wp (on_mem c) Q X s.
Proof. intros Hc. by apply wp_on_ctrl, wp_host. Qed.

(** The system after a transfer was queued in memory [w] and its doorbell rung. *)
Definition doorbell_reg (s : UsbSys W) : Z :=
  xc_mmio (x_cfg (s_ctrl s)) + doorbell (xc_db_offset (x_cfg (s_ctrl s))) (ud_slot_id (s_dev s)).

Definition rung (dci : Z) (r : Ring) (w : W) (s : UsbSys W) : UsbSys W :=
  set_sys_host (reg_write32 (doorbell_reg s) dci w)
    (set_dev (set_ep_rings (<[Z.to_nat (dci - 1) := Some r]> (ud_ep_rings (s_dev s))) (s_dev s)) s).

Lemma empty_td_ok p : u64 p -> trb_ok (mkTrb p 0 1056) /\ is_link (mkTrb p 0 1056) = false.
Proof. intros Hp. split; [|done]. split; [done|]. split; by split; vm_compute. Qed.

Lemma wp_queue_transfer P ep_num dir buf n r u h (s : UsbSys W) (Q : unit -> UsbSys W -> Prop) X :
  1 <= ep_num <= 15 -> ud_ep_rings (s_dev s) !! Z.to_nat (dci_of ep_num dir - 1) = Some (Some r) ->
  ring_holds (sys_host s) r u h -> mem_stable (ring_phys r) (ring_size r * 16) P -> P (sys_host s) ->
  0 <= phys buf -> 0 <= n -> phys buf + n <= 2 ^ 64 -> phys buf < 2 ^ 64 ->
  (forall w r', ring_holds w r' u (h ++ transfer_td (phys buf) n) -> ring_mem r' = ring_mem r -> P w ->
     Q tt (rung (dci_of ep_num dir) r' w s)) ->
  wp (queue_transfer ep_num dir buf n) Q X s.
Proof.
  intros Hep Hr Hh Hst HP Hb Hn H64 Hb64 HQ. set (dci := dci_of ep_num dir) in *.
  assert (2 <= dci <= 31) as Hd by (unfold dci, dci_of; destruct dir; lia).
  unfold queue_transfer. fold dci.
  assert (sub64 dci 1 = dci - 1) as -> by (unfold sub64; apply as_u64_small; ulia).
  apply wp_bind. unfold get_ring. apply wp_bind, wp_gets. rewrite Hr. eapply wp_lift_ok; [done|].
  apply wp_bind. eapply wp_opt_some; [done|]. apply wp_bind.
  apply (wp_mono _ (fun r' s' => exists w, s' = set_sys_host w s /\ ring_holds w r' u (h ++ transfer_td (phys buf) n) /\
                      ring_mem r' = ring_mem r /\ P w) _ X); [| |done].
  - unfold transfer_td. destruct (n =? 0) eqn:E; bool_to_prop.
    + destruct (empty_td_ok (phys buf)) as [Ht Hl]; [ulia|]. apply wp_bind, wp_on_mem.
      eapply wp_mono; [by apply (wp_enqueue_frame r u h _ P)| |]; [|intros e w HX; exact HX].
      cbn beta. intros [r1 a] w1 (Hh1 & Hm1 & HP1). apply wp_ret. by exists w1.
    + apply wp_on_mem.
      eapply wp_mono; [apply (wp_queue_chunks P _ _ r u h (phys buf) 0 n _ Hh Hst HP); try lia; intros _; apply chunk_fuel_enough; lia| |];
        [|intros e w HX; exact HX].
      cbn beta. intros r1 w1 Hq. rewrite Z.add_0_r in Hq. by exists w1.
  - intros r1 s1 (w1 & -> & Hh1 & Hm1 & HP1). apply wp_bind. unfold put_ring. apply wp_bind, wp_gets.
    apply lookup_lt_Some in Hr. replace (dci - 1 <? _) with true by (symmetry; unfold zlen; cbn; lia).
    apply wp_modify, wp_bind, wp_gets, wp_on_ctrl. unfold ring_doorbell. apply wp_bind, wp_gets, wp_write_reg.
    replace (as_u8 dci) with dci by (unfold as_u8; symmetry; apply Z.mod_small; lia). by apply (HQ w1 r1).
Qed.
End queue.

(** Queueing a bulk transfer always succeeds and puts one transfer descriptor at the
    end of the endpoint's ring, then rings the doorbell of its endpoint once.  The
    descriptor covers exactly the bytes of the buffer in order, no TRB crosses a 64 KiB
    boundary, all TRBs but the last are chained and only the last interrupts on completion;
    it has at most two TRBs more than the buffer has whole 64 KiB blocks.  An empty
    transfer is one empty TRB.  Memory outside the ring is untouched, and so is every other
    ring. *)
Theorem queue_transfer_exact {W} `{DmaSpec W} ep_num dir buf n r u h (s : UsbSys W) :
  1 <= ep_num <= 15 -> ud_ep_rings (s_dev s) !! Z.to_nat (dci_of ep_num dir - 1) = Some (Some r) ->
  ring_holds (sys_host s) r u h -> 0 <= phys buf < 2 ^ 64 -> 0 <= n -> phys buf + n <= 2 ^ 64 ->
  exists w r' td,
    queue_transfer ep_num dir buf n s = (rung (dci_of ep_num dir) r' w s, Ok tt) /\
    ring_mem r' = ring_mem r /\ ring_holds w r' u (h ++ td) /\
    (0 < n -> td_covers (phys buf) n td) /\ (n = 0 -> td = transfer_td (phys buf) 0) /\
    Z.of_nat (length td) <= n / 65536 + 2 /\
    forall p, p < ring_phys r \/ ring_phys r + ring_size r * 16 <= p -> phys_at w p = phys_at (sys_host s) p.
Proof.
  intros Hep Hr Hh Hb Hn H64.
  set (P := fun w => forall p, p < ring_phys r \/ ring_phys r + ring_size r * 16 <= p -> phys_at w p = phys_at (sys_host s) p).
  destruct (wp_run_ok (queue_transfer ep_num dir buf n)
    (fun _ s' => exists w r', s' = rung (dci_of ep_num dir) r' w s /\ ring_mem r' = ring_mem r /\
       ring_holds w r' u (h ++ transfer_td (phys buf) n) /\ P w) s) as (s' & [] & E & w & r' & -> & Hm & Hh' & HP).
  { eapply (wp_queue_transfer P); try done; try lia.
    - intros v b w Hv1 Hv2 HP p Hp. rewrite phys_write. destruct (_ && _) eqn:E; [bool_to_prop; lia|by apply HP].
    - intros w r' Hh' Hm HP. eauto 10. }
  exists w, r', (transfer_td (phys buf) n). do 3 (split; [done|]). pose proof (Z.div_pos n 65536 Hn eq_refl).
  unfold transfer_td. split; [|split; [by intros ->|split; [|exact HP]]].
  - intros Hpos. guard_false (n =? 0). apply td_trbs_covers; [lia|lia|]. intros _. by apply chunk_fuel_enough.
  - destruct (n =? 0); [cbn; lia|]. pose proof (length_td_trbs (chunk_fuel n) (phys buf) n). unfold chunk_fuel in *. lia.
Qed.

(** An endpoint 1 OUT with a fresh ring of four TRBs. *)
Module QueueDemo.
Definition sys : UsbSys HostDemo.Host :=
  mkUsbSys (mkXhciCtrl (fst (ring_new 4 HostDemo.start)) PortLog.cfg HostDemo.ring4 HostDemo.events2 [])
    (mkUsbDevice 1 0 3 (mkPhysMem 0 0 64) (mkPhysMem 0 0 64) HostDemo.ring4
       (<[1%nat := Some HostDemo.ring4]> (replicate 31 None)) None).
Definition buf : PhysMem := mkPhysMem (4096 + 65000) 70000 64.
End QueueDemo.

Lemma queue_transfer_exact_witness :
  exists w r' td,
    queue_transfer 1 false QueueDemo.buf 70000 QueueDemo.sys = (rung 2 r' w QueueDemo.sys, Ok tt) /\
    ring_mem r' = ring_mem HostDemo.ring4 /\ ring_holds w r' 3 td /\
    (0 < 70000 -> td_covers 65000 70000 td) /\ (70000 = 0 -> td = transfer_td 65000 0) /\
    Z.of_nat (length td) <= 70000 / 65536 + 2 /\
    forall p, p < 960 \/ 960 + 4 * 16 <= p ->
      phys_at w p = phys_at (sys_host QueueDemo.sys) p.
Proof.
  assert (ring_holds (sys_host QueueDemo.sys) HostDemo.ring4 3 []) as Hh.
  { apply (ring_new_holds HostDemo.start _ 4); [ulia|reflexivity]. }
  exact (queue_transfer_exact 1 false QueueDemo.buf 70000 HostDemo.ring4 3 [] QueueDemo.sys
           ltac:(lia) eq_refl Hh ltac:(by vm_compute) ltac:(lia) ltac:(by vm_compute)).
Defined.
