(* ===== verification/UsbMsc.v ===== *)
(** * USB mass storage: operations

    usb-oxide/src/msc.rs: the bulk-only transport (command wrapper, data, status wrapper)
    and the SCSI commands of a mass-storage device.  A command returns the number of bytes
    the data stage moved and the caller's buffer afterwards. *)

From S2P Require Import Prelude UsbRing UsbDesc Xhci UsbDevice.

(** ** Wrappers *)

Record Cbw := mkCbw {
  cbw_signature : Z;
  cbw_tag : Z;
  cbw_data_transfer_length : Z;
  cbw_flags : Z;
  cbw_lun : Z;
  cbw_cb_length : Z;
  cbw_cb : bytes;
}.

Definition CBW_SIGNATURE : Z := 0x43425355.

Definition cbw_new (tag length : Z) (direction_in : bool) (lun : Z) (cdb : bytes) : Cbw :=
  let len := Z.min (zlen cdb) 16 in
  mkCbw CBW_SIGNATURE tag length (if direction_in then 0x80 else 0) (Z.land lun 0x0f) len
    (ztake len cdb ++ zeros (16 - len)).

(** [repr(C, packed)]: 31 bytes. *)
Definition cbw_bytes (c : Cbw) : bytes :=
  to_le32 (cbw_signature c) ++ to_le32 (cbw_tag c) ++ to_le32 (cbw_data_transfer_length c)
  ++ le_split 1 (cbw_flags c) ++ le_split 1 (cbw_lun c) ++ le_split 1 (cbw_cb_length c) ++ cbw_cb c.

Record Csw := mkCsw {
  csw_signature : Z;
  csw_tag : Z;
  csw_data_residue : Z;
  csw_status : Z;
}.

Definition CSW_SIGNATURE : Z := 0x53425355.

Definition u32_at (b : bytes) (off : Z) : Z := le_combine (slice b off (off + 4)).

Definition csw_of (b : bytes) : Csw := mkCsw (u32_at b 0) (u32_at b 4) (u32_at b 8) (u8_at b 12).

Definition csw_is_ok (c : Csw) : bool := (csw_signature c =? CSW_SIGNATURE) && (csw_status c =? 0).

(** ** Replies *)

(** [u32::from_be] of a field read in memory order. *)
Definition be32_at (b : bytes) (off : Z) : Z := le_combine (rev (slice b off (off + 4))).

Record ReadCapacity10Data := mkReadCapacity10Data {
  last_lba : Z;
  block_size : Z;
}.

Definition read_capacity_of (b : bytes) : ReadCapacity10Data :=
  mkReadCapacity10Data (be32_at b 0) (be32_at b 4).

Definition capacity_bytes (c : ReadCapacity10Data) : Z := (last_lba c + 1) * block_size c.

Record InquiryData := mkInquiryData {
  iq_peripheral : Z;
  iq_rmb : Z;
  iq_version : Z;
  iq_response_format : Z;
  iq_additional_length : Z;
  iq_flags : bytes;
  iq_vendor : bytes;
  iq_product : bytes;
  iq_revision : bytes;
}.

Definition inquiry_of (b : bytes) : InquiryData :=
  mkInquiryData (u8_at b 0) (u8_at b 1) (u8_at b 2) (u8_at b 3) (u8_at b 4)
    (slice b 5 8) (slice b 8 16) (slice b 16 32) (slice b 32 36).

Definition device_type (i : InquiryData) : Z := Z.land (iq_peripheral i) 0x1f.
Definition is_removable (i : InquiryData) : bool := has (iq_rmb i) 0x80.

(** The byte of the sense key; the rest of the reply is kept as it came. *)
Record RequestSenseData := mkRequestSenseData {
  rs_response_code : Z;
  rs_sense_key : Z;
  rs_asc : Z;
  rs_ascq : Z;
}.

Definition request_sense_of (b : bytes) : RequestSenseData :=
  mkRequestSenseData (u8_at b 0) (u8_at b 2) (u8_at b 12) (u8_at b 13).

Definition sense_key (r : RequestSenseData) : Z := Z.land (rs_sense_key r) 0x0f.

Module ScsiOp.
Definition TEST_UNIT_READY : Z := 0x00.
Definition REQUEST_SENSE : Z := 0x03.
Definition INQUIRY : Z := 0x12.
Definition READ_CAPACITY_10 : Z := 0x25.
Definition READ_10 : Z := 0x28.
Definition WRITE_10 : Z := 0x2a.
Definition SYNCHRONIZE_CACHE_10 : Z := 0x35.
End ScsiOp.

(** ** The device *)

Record MscDevice := mkMscDevice {
  md_interface : Z;
  md_ep_in : Z;
  md_ep_out : Z;
  md_ep_in_max_packet : Z;
  md_ep_out_max_packet : Z;
  md_max_lun : Z;
  md_tag : Z;
}.

Record MscSys (W : Type) := mkMscSys {
  m_sys : UsbSys W;
  m_dev : MscDevice;
}.
Arguments mkMscSys {W}.
Arguments m_sys {W}.
Arguments m_dev {W}.

Section msc.
Context {W : Type} `{XhcIo W}.

Abbreviation MM A := (ST (MscSys W) UsbError A).

Definition on_usb {A} (m : UDM W A) : MM A := fun s => let '(u, r) := m (m_sys s) in (mkMscSys u (m_dev s), r).
Definition on_dma {A} (m : HM W A) : MM A := on_usb (on_mem m).
Definition set_tag (t : Z) (s : MscSys W) : MscSys W :=
  mkMscSys (m_sys s) (mkMscDevice (md_interface (m_dev s)) (md_ep_in (m_dev s)) (md_ep_out (m_dev s))
    (md_ep_in_max_packet (m_dev s)) (md_ep_out_max_packet (m_dev s)) (md_max_lun (m_dev s)) t).

(** ** Creating a mass-storage device *)

Definition get_max_lun (interface : Z) : UDM W Z :=
  let! r := scatch (control_transfer (msc_get_max_lun interface) (Some (zeros 1))) in
  match r with
  | inl (_, buf) => slift (at_byte (default [] buf) 0)
  | inr Stall => sret 0
  | inr e => sfail e
  end.

Definition from_interface (config_value : Z) (m : MscInterface) : UDM W MscDevice :=
  let '(iface, ep_in, ep_out) := m in
  if negb (id_interface_class iface =? UsbClass.MASS_STORAGE) then sfail NotSupported else
  let! _ := set_configuration config_value in
  let! _ := configure_endpoint ep_in in
  let! _ := configure_endpoint ep_out in
  let! lun := scatch (get_max_lun (id_interface_number iface)) in
  sret (mkMscDevice (id_interface_number iface) (number ep_in) (number ep_out) (ed_max_packet_size ep_in)
          (ed_max_packet_size ep_out) (match lun with inl n => n | inr _ => 0 end) 1).

Definition msc_new : UDM W MscDevice :=
  let! config := get_config_descriptor 0 in
  let! config_value := sopt ParseError (config !! 5%nat) in
  let! found := slift (msc_new_scan config) in
  match found with
  | Some m => from_interface (bz config_value) m
  | None => sfail NotSupported
  end.

Definition msc_device_reset : MM unit :=
  fun s => (let! _ := on_usb (control_transfer (msc_reset (md_interface (m_dev s))) None) in sret tt) s.

(** ** The bulk-only transport *)

(** [wait_transfer]: polls up to 200 million times. *)
Definition wait_transfer (endpoint requested_len : Z) : MM Z :=
  spin 200000000
    (fun _ =>
       let! s := sgets m_sys in
       let! evt := on_usb (on_ctrl (poll_event_matching (transfer_event (ud_slot_id (s_dev s)) endpoint))) in
       match evt with
       | None => sret None
       | Some evt =>
           let code := completion_code evt in
           if (code =? 1) || (code =? 13) then sret (Some (sat_sub requested_len (transfer_length evt)))
           else sfail (XferFail code)
       end)
    (let! _ := on_usb (on_ctrl usb_status) in
     let! _ := on_usb (on_ctrl usb_command) in
     sfail (Timeout "wait_transfer timeout")).

(** One stage: queue a transfer of [len] bytes of [buf] and wait for it. *)
Definition bulk_out (ep_out : Z) (buf : PhysMem) (len : Z) : MM Z :=
  let! _ := on_usb (queue_transfer ep_out false buf len) in
  wait_transfer (as_u8 (ep_out * 2)) len.
Definition bulk_in (ep_in : Z) (buf : PhysMem) (len : Z) : MM Z :=
  let! _ := on_usb (queue_transfer ep_in true buf len) in
  wait_transfer (as_u8 (ep_in * 2 + 1)) len.

(** The data stage. *)
Definition data_stage (dev : MscDevice) (buf : PhysMem) (data : bytes) (direction_in : bool) : MM (Z * bytes) :=
  if direction_in then
    let! len := bulk_in (md_ep_in dev) buf (zlen data) in
    let actual_len := Z.min len (zlen data) in
    let! b := on_dma (lift_w (mem_read (pm_addr buf) actual_len)) in
    sret (len, b ++ zdrop actual_len data)
  else
    let! _ := on_dma (smodify (mem_write (pm_addr buf) data)) in
    let! len := bulk_out (md_ep_out dev) buf (zlen data) in
    sret (len, data).

(** An error in a stage returns at once; the DMA buffers are then not freed. *)
Definition scsi_command (lun : Z) (cdb : bytes) (data : option bytes) (direction_in : bool) : MM (Z * option bytes) :=
  let data_len := match data with Some d => zlen d | None => 0 end in
  let! cbw_buf := on_dma (phys_alloc 31 64) in
  let! csw_buf := on_dma (phys_alloc 13 64) in
  let! data_buf :=
    if 0 <? data_len then let! b := on_dma (phys_alloc data_len 64) in sret (Some b) else sret None in
  let! dev := sgets m_dev in
  let cbw := cbw_new (md_tag dev) (as_u32 data_len) direction_in lun cdb in
  let! _ := smodify (set_tag (as_u32 (md_tag dev + 1))) in
  let! _ := on_dma (smodify (mem_write (pm_addr cbw_buf) (cbw_bytes cbw))) in
  let! _ := bulk_out (md_ep_out dev) cbw_buf 31 in
  let! (transferred, data) :=
    match data_buf, data with
    | Some buf, Some d =>
        let! (len, d) := data_stage dev buf d direction_in in sret (len, Some d)
    | _, _ => sret (0, data)
    end in
  let! _ := bulk_in (md_ep_in dev) csw_buf 13 in
  let! b := on_dma (lift_w (mem_read (pm_addr csw_buf) 13)) in
  let csw := csw_of b in
  let! _ := on_dma (phys_free cbw_buf) in
  let! _ := on_dma (phys_free csw_buf) in
  let! _ := on_dma (free_opt data_buf) in
  if negb (csw_is_ok csw) then sfail (XferFail (csw_status csw)) else sret (transferred, data).

(** ** SCSI commands *)

Definition cdb_of (l : list Z) : bytes := map byte.of_Z l.

Definition test_unit_ready (lun : Z) : MM bool :=
  let! r := scatch (scsi_command lun (cdb_of [ScsiOp.TEST_UNIT_READY; 0; 0; 0; 0; 0]) None false) in
  match r with
  | inl _ => sret true
  | inr (XferFail 1) => sret false
  | inr e => sfail e
  end.

Definition inquiry (lun : Z) : MM InquiryData :=
  let! (_, data) := scsi_command lun (cdb_of [ScsiOp.INQUIRY; 0; 0; 0; 36; 0]) (Some (zeros 36)) true in
  sret (inquiry_of (default [] data)).

Definition read_capacity (lun : Z) : MM ReadCapacity10Data :=
  let! (_, data) := scsi_command lun (cdb_of [ScsiOp.READ_CAPACITY_10; 0; 0; 0; 0; 0; 0; 0; 0; 0]) (Some (zeros 8)) true in
  sret (read_capacity_of (default [] data)).

Definition request_sense (lun : Z) : MM RequestSenseData :=
  let! (_, data) := scsi_command lun (cdb_of [ScsiOp.REQUEST_SENSE; 0; 0; 0; 18; 0]) (Some (zeros 18)) true in
  sret (request_sense_of (default [] data)).

(** READ (10) and WRITE (10): the block address and count, most significant byte first. *)
Definition rw10_cdb (op lba count : Z) : bytes :=
  cdb_of [op; 0; as_u8 (Z.shiftr lba 24); as_u8 (Z.shiftr lba 16); as_u8 (Z.shiftr lba 8); as_u8 lba; 0;
          as_u8 (Z.shiftr count 8); as_u8 count; 0].

Definition read_blocks (lun lba count : Z) (buf : bytes) : MM (Z * bytes) :=
  let! (n, data) := scsi_command lun (rw10_cdb ScsiOp.READ_10 lba count) (Some buf) true in
  sret (n, default [] data).

Definition write_blocks (lun lba count : Z) (buf : bytes) : MM (Z * bytes) :=
  let! (n, data) := scsi_command lun (rw10_cdb ScsiOp.WRITE_10 lba count) (Some buf) false in
  sret (n, default [] data).

Definition sync_cache (lun : Z) : MM unit :=
  let! _ := scsi_command lun (cdb_of [ScsiOp.SYNCHRONIZE_CACHE_10; 0; 0; 0; 0; 0; 0; 0; 0; 0]) None false in
  sret tt.
End msc.

Abbreviation MSM W A := (ST (MscSys W) UsbError A).
