(* ===== verification/UsbDma.v ===== *)
(** * DMA memory of the kernel

    kernel/src/drivers/usb/xhci.rs, [HermitDma], and kernel/src/mm/device_alloc.rs: the
    allocations behind the [Dma] trait of the USB library.  Physical frames come from a
    free list of the external crate free_list, behind [FrameAlloc]; the rounding is
    [align_up] of the crate align_address. *)

From S2P Require Import Prelude.

(** [FrameAlloc::allocate] of a layout (size, alignment): the start of the range, [None]
    also for a layout that [PageLayout::from_size_align] refuses; [FrameAlloc::deallocate]
    of a range (start, end) that was handed out, which [PageRange::new] accepts. *)
Class FrameAlloc (F : Type) := {
  frame_allocate : Z -> Z -> F -> F * option Z;
  frame_deallocate : Z -> Z -> F -> F;
}.

(** Bytes [b] stored at [p] in a memory by physical addresses. *)
Definition put (p : Z) (b : bytes) (mem : Z -> byte) : Z -> byte :=
  fun q => if (p <=? q) && (q <? p + zlen b) then default Byte.x00 (b !! Z.to_nat (q - p)) else mem q.

Record DmaState (F : Type) := mkDmaState {
  ds_frames : F;
  ds_mem : Z -> byte;
}.
Arguments mkDmaState {F}.
Arguments ds_frames {F}.
Arguments ds_mem {F}.

Section dma.
Context {F : Type} `{FrameAlloc F} (align_up : Z -> Z -> Z) (phys_offset : Z).
Implicit Types (s : DmaState F).

(** [DeviceAlloc]: physical memory is mapped at [phys_offset]; physical addresses are small
    enough for the sum not to wrap. *)
Definition ptr_from (phys_addr : Z) : Z := phys_addr + phys_offset.
Definition phys_addr_from (ptr : Z) : Z := ptr - phys_offset.

(** ** [HermitDma]: more than a page is aligned to 64 KiB *)

Definition dma_layout (size align : Z) : Z * Z :=
  let align := if 4096 <? size then Z.max align 65536 else Z.max align 4096 in
  (align_up size align, align).

Definition dma_alloc (size align : Z) s : DmaState F * option Z :=
  let '(size, align) := dma_layout size align in
  match frame_allocate size align (ds_frames s) with
  | (f, Some start) => (mkDmaState f (put start (zeros size) (ds_mem s)), Some (ptr_from start))
  | (f, None) => (mkDmaState f (ds_mem s), None)
  end.

Definition dma_virt_to_phys (va : Z) : Z := phys_addr_from va.

Definition dma_free (addr size align : Z) s : DmaState F :=
  let '(size, _) := dma_layout size align in
  let p_start := dma_virt_to_phys addr in
  mkDmaState (frame_deallocate p_start (p_start + size) (ds_frames s)) (ds_mem s).
End dma.

(** ** The frame allocator

    What the free list promises, with the blocks (start, size) it has handed out: a new
    block is aligned and overlaps no other, and giving a block back removes it.  In
    [frame_room n f] there is room for [n] more blocks of up to 8 MiB. *)
Class FrameAllocSpec (F : Type) `{FrameAlloc F} := {
  frame_live : F -> list (Z * Z);
  frame_room : nat -> F -> Prop;
  frame_fresh size align f f' a :
    0 < size -> 0 < align -> frame_allocate size align f = (f', Some a) ->
    a mod align = 0 /\ 0 <= a /\ a + size <= 2 ^ 64 /\ frame_live f' ≡ₚ (a, size) :: frame_live f /\
    Forall (fun '(b, n) => a + size <= b \/ b + n <= a) (frame_live f);
  frame_none size align f f' : frame_allocate size align f = (f', None) -> frame_live f' ≡ₚ frame_live f;
  frame_back a size f :
    (a, size) ∈ frame_live f -> frame_live f ≡ₚ (a, size) :: frame_live (frame_deallocate a (a + size) f);
  room_allocate n size align f f' r :
    frame_room (S n) f -> 0 < size <= 2 ^ 23 -> 0 < align <= 65536 -> frame_allocate size align f = (f', r) ->
    r <> None /\ frame_room n f';
  room_deallocate n a size f :
    frame_room n f -> (a, size) ∈ frame_live f -> frame_room (S n) (frame_deallocate a (a + size) f);
}.

(** ** Memory *)

Lemma put_in p b mem q : p <= q < p + zlen b -> put p b mem q = default Byte.x00 (b !! Z.to_nat (q - p)).
Proof. intros Hq. unfold put. destruct (_ && _) eqn:E; [done|]. apply andb_false_iff in E as [E|E]; bool_to_prop; lia. Qed.

Lemma put_out p b mem q : q < p \/ p + zlen b <= q -> put p b mem q = mem q.
Proof. intros Hq. unfold put. destruct (_ && _) eqn:E; [|done]. bool_to_prop. lia. Qed.

(** ** Layouts *)

Section layouts.
Context (align_up : Z -> Z -> Z) (Halign : rounds_up align_up).

Lemma dma_layout_ok size align s a :
  0 < size <= 2 ^ 22 -> align = 64 -> dma_layout align_up size align = (s, a) ->
  0 < a <= 65536 /\ a mod 64 = 0 /\ size <= s <= 2 ^ 23 /\ (4096 < size -> a = 65536).
Proof.
  intros Hs -> [= <- <-]. destruct (4096 <? size) eqn:E; bool_to_prop.
  - destruct (Halign size 65536) as [[H1 H2] _]; [done|ulia|ulia|]. change (Z.max 64 65536) with 65536.
    split_and!; [lia|lia|done|lia|lia|done].
  - destruct (Halign size 4096) as [[H1 H2] _]; [done|ulia|ulia|]. change (Z.max 64 4096) with 4096.
    split_and!; [lia|lia|done|lia|lia|lia].
Qed.
End layouts.
