(* ===== verification/UsbMachine.v ===== *)
(** * A controller with a bulk-only device behind it

    The hardware side of the USB stack, from the xHCI and the bulk-only transport
    specifications: a doorbell makes the controller fetch transfer descriptors from the
    endpoint's ring, move their bytes between memory and the device, and post a transfer
    event.  Any transfer may fail instead, by an error event or by silence; the endpoint
    is then halted, since nothing in the driver resets it.

    A device may answer a command with fewer bytes than the host asked for: the transfer
    then ends with a short packet, its event carries the bytes that are missing, and the
    status wrapper the residue.

    Left out: an answer that comes after the driver's time limit (a transfer ends before the
    driver looks for its event or not at all), a short answer to a descriptor of several
    TRBs (more than 64 KiB; controllers differ in the events they post for it, and the
    endpoint goes silent here), and controllers that end a descriptor at a link TRB without
    the chain bit. *)

From S2P Require Import Prelude UsbRing UsbRingTheorems UsbDesc UsbMsc UsbDma.

(** ** Memory on its own as a host *)

Section memory_host.
Context (offset : Z).

Definition mem_load (mem : Z -> byte) (p n : Z) : bytes := (fun i => mem (p + Z.of_nat i)) <$> seq 0 (Z.to_nat n).

#[local] Instance mem_io : XhcIo (Z -> byte) := {|
  host_alloc _ _ mem := (mem, None);
  host_free _ _ _ mem := mem;
  map_mmio _ _ mem := (mem, None);
  unmap_mmio _ _ mem := mem;
  virt_to_phys v := v - offset;
  mem_read v n mem := (mem, mem_load mem (v - offset) n);
  mem_write v b mem := put (v - offset) b mem;
  reg_read8 _ mem := (mem, 0);
  reg_read32 _ mem := (mem, 0);
  reg_write32 _ _ mem := mem;
  reg_write64 _ _ mem := mem;
|}.

#[local] Program Instance mem_dma : DmaSpec (Z -> byte) := {| phys_at mem := mem |}.
Next Obligation. intros a k. cbn. lia. Qed.
Next Obligation. done. Qed.
Next Obligation. done. Qed.
Next Obligation. done. Qed.
Next Obligation. done. Qed.
Next Obligation. done. Qed.

(** The next TRB at a consumer, in a memory. *)
Definition fetch : (Z -> byte) -> Consumer -> Consumer * option Trb := consume.
End memory_host.

(** ** The bulk-only transport, device side *)

Definition csw_bytes (tag residue status : Z) : bytes :=
  to_le32 CSW_SIGNATURE ++ to_le32 tag ++ to_le32 residue ++ le_split 1 status.

Record Command := mkCommand {
  cm_tag : Z;
  cm_len : Z;
  cm_in : bool;
  cm_lun : Z;
  cm_cdb : bytes;
}.

Definition decode_cbw (b : bytes) : option Command :=
  if (zlen b =? 31) && (u32_at b 0 =? CBW_SIGNATURE)
  then Some (mkCommand (u32_at b 4) (u32_at b 8) (has (u8_at b 12) 0x80) (u8_at b 13) (ztake (u8_at b 14) (slice b 15 31)))
  else None.

(** What a target does with a command: the bytes of a read, at most as many as asked for,
    and a status, or the status of a command with the given data. *)
Class ScsiTarget (D : Type) := {
  exec_in : Z -> bytes -> Z -> D -> D * (bytes * Z);
  exec_out : Z -> bytes -> bytes -> D -> D * Z;
}.

Class ScsiTargetSpec (D : Type) `{ScsiTarget D} := {
  exec_in_len lun cdb n d d' b st : 0 <= n -> exec_in lun cdb n d = (d', (b, st)) -> zlen b <= n /\ 0 <= st < 256;
  exec_out_status lun cdb b d d' st : exec_out lun cdb b d = (d', st) -> 0 <= st < 256;
}.

Inductive Phase :=
  | Ready
  | SendData (data : bytes) (tag status : Z)
  | ReceiveData (c : Command)
  | SendStatus (tag residue status : Z).

Section device.
Context {D : Type} `{ScsiTarget D}.

(** A bulk transfer to the device; [None]: it does not take it. *)
Definition bot_out (b : bytes) (pd : Phase * D) : option (Phase * D) :=
  match pd with
  | (Ready, d) =>
      match decode_cbw b with
      | None => None
      | Some c =>
          if cm_len c =? 0 then
            let '(d, st) := exec_out (cm_lun c) (cm_cdb c) [] d in Some (SendStatus (cm_tag c) 0 st, d)
          else if cm_in c then
            let '(d, (data, st)) := exec_in (cm_lun c) (cm_cdb c) (cm_len c) d in Some (SendData data (cm_tag c) st, d)
          else Some (ReceiveData c, d)
      end
  | (ReceiveData c, d) =>
      if zlen b =? cm_len c then
        let '(d, st) := exec_out (cm_lun c) (cm_cdb c) b d in Some (SendStatus (cm_tag c) 0 st, d)
      else None
  | _ => None
  end.

(** A bulk transfer of [n] bytes from the device. *)
Definition bot_in (n : Z) (pd : Phase * D) : option (bytes * (Phase * D)) :=
  match pd with
  | (SendData data tag st, d) => if zlen data <=? n then Some (data, (SendStatus tag (n - zlen data) st, d)) else None
  | (SendStatus tag residue st, d) => if n =? 13 then Some (csw_bytes tag residue st, (Ready, d)) else None
  | _ => None
  end.
End device.

(** ** The controller *)

Inductive Fate :=
  | Served
  | Broken (stall : bool)
  | Mute.

(** Of the device's slot: the physical addresses the hardware was told, and the doorbell
    register. *)
Record HwCfg := mkHwCfg {
  hw_slot : Z;
  hw_doorbell : Z;
  hw_events : Z;
  hw_event_count : Z;
  hw_offset : Z;
}.

(** By endpoint (device context index): the controller's place in the ring, and whether
    the endpoint is halted.  [mc_fate] is what happens to the next transfers. *)
Record Machine (F D : Type) := mkMachine {
  mc_dma : DmaState F;
  mc_cons : Z -> Consumer;
  mc_halted : Z -> bool;
  mc_prod : Producer;
  mc_dev : Phase * D;
  mc_fate : list Fate;
}.
Arguments mkMachine {F D}.
Arguments mc_dma {F D}.
Arguments mc_cons {F D}.
Arguments mc_halted {F D}.
Arguments mc_prod {F D}.
Arguments mc_dev {F D}.
Arguments mc_fate {F D}.

Section machine.
Context {F D : Type} `{FrameAlloc F} `{ScsiTarget D} (align_up : Z -> Z -> Z) (hw : HwCfg).
Implicit Types (m : Machine F D) (td : list Trb).

Definition mc_mem m : Z -> byte := ds_mem (mc_dma m).
Definition set_mem (mem : Z -> byte) m : Machine F D :=
  mkMachine (mkDmaState (ds_frames (mc_dma m)) mem) (mc_cons m) (mc_halted m) (mc_prod m) (mc_dev m) (mc_fate m).
Definition set_dma (s : DmaState F) m : Machine F D :=
  mkMachine s (mc_cons m) (mc_halted m) (mc_prod m) (mc_dev m) (mc_fate m).
Definition upd {A} (f : Z -> A) (i : Z) (a : A) : Z -> A := fun j => if j =? i then a else f j.
Definition set_cons (dci : Z) (c : Consumer) m : Machine F D :=
  mkMachine (mc_dma m) (upd (mc_cons m) dci c) (mc_halted m) (mc_prod m) (mc_dev m) (mc_fate m).
Definition halt (dci : Z) m : Machine F D :=
  mkMachine (mc_dma m) (mc_cons m) (upd (mc_halted m) dci true) (mc_prod m) (mc_dev m) (mc_fate m).
Definition set_bot (pd : Phase * D) m : Machine F D :=
  mkMachine (mc_dma m) (mc_cons m) (mc_halted m) (mc_prod m) pd (mc_fate m).
Definition next_fate m : Machine F D :=
  mkMachine (mc_dma m) (mc_cons m) (mc_halted m) (mc_prod m) (mc_dev m) (tail (mc_fate m)).

(** A transfer descriptor: TRBs up to the first without the chain bit. *)
Fixpoint fetch_td (n : nat) (mem : Z -> byte) (c : Consumer) : option (Consumer * list Trb) :=
  match n with
  | O => None
  | S n =>
      match fetch (hw_offset hw) mem c with
      | (c, Some t) =>
          if has (control t) (bit 4) then
            match fetch_td n mem c with Some (c, td) => Some (c, t :: td) | None => None end
          else Some (c, [t])
      | (_, None) => None
      end
  end.

Definition td_len td : Z := foldr (fun t n => transfer_length t + n) 0 td.

(** The bytes the descriptor points to, and the same bytes stored there. *)
Fixpoint gather td (mem : Z -> byte) : bytes :=
  match td with
  | [] => []
  | t :: td => mem_load mem (param t) (transfer_length t) ++ gather td mem
  end.
Fixpoint scatter td (data : bytes) (mem : Z -> byte) : Z -> byte :=
  match td with
  | [] => mem
  | t :: td => scatter td (zdrop (transfer_length t) data) (put (param t) (ztake (transfer_length t) data) mem)
  end.

Definition transfer_event_trb (dci code residual : Z) : Trb :=
  mkTrb 0 (Z.lor residual (Z.shiftl code 24))
    (Z.lor (Z.lor (Z.shiftl TrbType.TRANSFER_EVENT 10) (Z.shiftl dci 16)) (Z.shiftl (hw_slot hw) 24)).

Definition post_event (t : Trb) m : Machine F D :=
  let p := mc_prod m in
  mkMachine
    (mkDmaState (ds_frames (mc_dma m))
       (put (hw_events hw + pr_index p * 16) (trb_bytes (set_cycle (pr_pcs p) t)) (mc_mem m)))
    (mc_cons m) (mc_halted m)
    (if pr_index p + 1 =? hw_event_count hw then mkProducer 0 (negb (pr_pcs p)) else mkProducer (pr_index p + 1) (pr_pcs p))
    (mc_dev m) (mc_fate m).

(** The transfer itself, with the number of bytes that are missing: an odd index is an IN
    endpoint. *)
Definition serve (dci : Z) td m : option (Machine F D * Z) :=
  if Z.odd dci then
    match bot_in (td_len td) (mc_dev m) with
    | Some (data, pd) =>
        if (zlen data =? td_len td) || (length td =? 1)%nat
        then Some (set_bot pd (set_mem (scatter td data (mc_mem m)) m), td_len td - zlen data)
        else None
    | None => None
    end
  else
    match bot_out (gather td (mc_mem m)) (mc_dev m) with
    | Some pd => Some (set_bot pd m, 0)
    | None => None
    end.

Definition done_code (residual : Z) : Z := if residual =? 0 then Completion.SUCCESS else Completion.SHORT_PACKET.

Definition run_td (dci : Z) (c : Consumer) td m : Machine F D :=
  let fate := default Served (head (mc_fate m)) in
  let m := next_fate m in
  match fate with
  | Served =>
      match serve dci td m with
      | Some (m, residual) => post_event (transfer_event_trb dci (done_code residual) residual) (set_cons dci c m)
      | None => halt dci m
      end
  | Broken stall => post_event (transfer_event_trb dci (if stall then Completion.STALL_ERROR else 4) 0) (halt dci m)
  | Mute => halt dci m
  end.

(** A doorbell: every descriptor there is. *)
Fixpoint run_endpoint (n : nat) (dci : Z) m : Machine F D :=
  match n with
  | O => m
  | S n =>
      if mc_halted m dci then m else
      match fetch_td 256 (mc_mem m) (mc_cons m dci) with
      | None => m
      | Some (c, td) => run_endpoint n dci (run_td dci c td m)
      end
  end.

#[local] Instance Machine_io : XhcIo (Machine F D) := {|
  host_alloc size align m :=
    let '(s, a) := dma_alloc align_up (hw_offset hw) size align (mc_dma m) in (set_dma s m, a);
  host_free a size align m := set_dma (dma_free align_up (hw_offset hw) a size align (mc_dma m)) m;
  map_mmio p _ m := (m, Some p);
  unmap_mmio _ _ m := m;
  virt_to_phys := dma_virt_to_phys (hw_offset hw);
  mem_read v n m := (m, mem_load (mc_mem m) (v - hw_offset hw) n);
  mem_write v b m := set_mem (put (v - hw_offset hw) b (mc_mem m)) m;
  reg_read8 _ m := (m, 0);
  reg_read32 _ m := (m, 0);
  reg_write32 a v m := if a =? hw_doorbell hw then run_endpoint 256 v m else m;
  reg_write64 _ _ m := m;
|}.
End machine.
