(* ===== verification/UsbMachineTheorems.v ===== *)
(** * The controller model: theorems

    What a doorbell does when the driver has queued one transfer descriptor: the controller
    fetches exactly that descriptor, the bytes move between the buffer and the device, and
    one event is posted; or the endpoint is halted.  And what a poll of the driver then
    finds. *)

From S2P Require Import Prelude UsbRing UsbRingTheorems UsbDesc Xhci XhciTheorems UsbDevice UsbDeviceTheorems UsbMsc UsbDma UsbMachine.

(** ** Buffers *)

Lemma mem_load_lookup mem p n i : (i < Z.to_nat n)%nat -> mem_load mem p n !! i = Some (mem (p + Z.of_nat i)).
Proof. intros Hi. unfold mem_load. rewrite list_lookup_fmap, lookup_seq_lt by done. done. Qed.

Lemma zlen_mem_load mem p n : 0 <= n -> zlen (mem_load mem p n) = n.
Proof. intros Hn. unfold zlen, mem_load. rewrite length_fmap, length_seq. lia. Qed.

Lemma mem_load_app mem p a b : 0 <= a -> 0 <= b -> mem_load mem p (a + b) = mem_load mem p a ++ mem_load mem (p + a) b.
Proof.
  intros Ha Hb. unfold mem_load. rewrite Z2Nat.inj_add, seq_app, fmap_app by lia. f_equal.
  rewrite Nat.add_0_l. apply list_eq. intros i. rewrite !list_lookup_fmap.
  destruct (decide (i < Z.to_nat b)%nat); [|by rewrite !lookup_seq_ge by lia].
  rewrite !lookup_seq_lt by lia. cbn. do 2 f_equal. lia.
Qed.

Lemma mem_load_ext mem mem' p n : (forall q, p <= q < p + n -> mem' q = mem q) -> mem_load mem' p n = mem_load mem p n.
Proof.
  intros He. unfold mem_load. apply list_fmap_ext. intros i j Hj. apply lookup_seq in Hj as [-> Hj]. apply He. lia.
Qed.

Lemma mem_load_put mem p b n : n = zlen b -> mem_load (put p b mem) p n = b.
Proof.
  intros ->. apply list_eq. intros i. destruct (decide (i < length b)%nat) as [Hi|Hi].
  - rewrite mem_load_lookup by (unfold zlen; lia). rewrite put_in by (unfold zlen; lia).
    replace (Z.to_nat _) with i by lia. by destruct (lookup_lt_is_Some_2 b i Hi) as [x ->].
  - pose proof (zlen_mem_load (put p b mem) p (zlen b) (zlen_nonneg b)) as Hl. unfold zlen in Hl.
    rewrite !lookup_ge_None_2 by (unfold zlen; lia). done.
Qed.

Lemma td_covers_nonneg td : forall p n, td_covers p n td -> 0 <= n.
Proof. induction td as [|t td IH]; cbn; intros p n; [lia|]. intros (_ & Hl & _). lia. Qed.

Lemma td_len_covers td : forall p n, td_covers p n td -> td_len td = n.
Proof.
  induction td as [|t td IH]; cbn; intros p n; [done|]. intros (_ & _ & _ & _ & _ & Hr). apply IH in Hr. unfold td_len in Hr. lia.
Qed.

Lemma gather_covers mem td : forall p n, td_covers p n td -> gather td mem = mem_load mem p n.
Proof.
  induction td as [|t td IH]; cbn; intros p n; [by intros ->|]. intros (-> & Hl & _ & _ & _ & Hr).
  rewrite (IH _ _ Hr). rewrite <- mem_load_app by lia. f_equal. lia.
Qed.

Lemma scatter_covers td : forall p n data mem q,
  td_covers p n td -> zlen data <= n -> scatter td data mem q = put p data mem q.
Proof.
  induction td as [|t td IH]; intros p n data mem q Hc Hd; cbn [td_covers scatter] in *; pose proof (zlen_nonneg data).
  - subst n. symmetry. apply put_out. lia.
  - destruct Hc as (-> & Hl & _ & _ & _ & Hr). set (l := transfer_length t) in *.
    rewrite (IH _ _ _ _ q Hr) by (rewrite zlen_zdrop; lia).
    destruct (decide (zlen data <= l)) as [Hs|Hs].
    { rewrite zdrop_all, ztake_all by lia. apply put_out. unfold zlen. cbn. lia. }
    assert (zlen (ztake l data) = l) as Ht by (rewrite zlen_ztake; lia).
    assert (zlen (zdrop l data) = zlen data - l) as Hz by (rewrite zlen_zdrop; lia).
    destruct (decide (p + l <= q < p + zlen data)) as [Hq|Hq].
    + rewrite !put_in by lia. unfold zdrop. rewrite lookup_drop. do 2 f_equal. lia.
    + rewrite put_out by lia. destruct (decide (p <= q < p + l)) as [Hq'|Hq'].
      * rewrite !put_in by lia. unfold ztake. rewrite lookup_take_lt by lia. done.
      * rewrite !put_out by lia. done.
Qed.

(** A descriptor of one TRB is within one 64 KiB block. *)
Lemma td_covers_one td p n : td_covers p n td -> length td = 1%nat -> n <= 65536.
Proof.
  destruct td as [|t [|]]; try done. cbn. intros (_ & Hl & Hb & _ & _ & Hn) _.
  assert (transfer_length t = n) as E by lia. rewrite E in Hb.
  pose proof (Z.div_mod p 65536 ltac:(lia)). pose proof (Z.div_mod (p + n - 1) 65536 ltac:(lia)).
  pose proof (Z.mod_pos_bound p 65536 eq_refl). pose proof (Z.mod_pos_bound (p + n - 1) 65536 eq_refl). lia.
Qed.

(** Descriptors as the controller sees them, with cycle bits. *)
Definition same_trb (t t' : Trb) : Prop :=
  param t' = param t /\ transfer_length t' = transfer_length t /\ (forall i, 0 < i -> has (control t') (bit i) = has (control t) (bit i)).

Lemma has_bit x i : 0 <= i -> has x (bit i) = Z.testbit x i.
Proof.
  intros Hi. unfold has, bit. rewrite Z.shiftl_1_l. destruct (Z.testbit x i) eqn:E.
  - apply negb_true_iff, Z.eqb_neq. intros Hz. apply (f_equal (fun z => Z.testbit z i)) in Hz.
    rewrite Z.land_spec, Z.pow2_bits_true, E, Z.bits_0 in Hz by done. done.
  - apply negb_false_iff, Z.eqb_eq. apply Z.bits_inj'. intros j Hj. rewrite Z.land_spec, Z.bits_0, Z.pow2_bits_eqb by done.
    destruct (i =? j) eqn:Ej; [|by rewrite andb_false_r]. bool_to_prop. subst. by rewrite E.
Qed.

Lemma same_trb_set_cycle c t : same_trb t (set_cycle c t).
Proof.
  split; [done|]. split; [done|]. intros i Hi. rewrite !has_bit by lia. unfold set_cycle. cbn.
  assert (Z.testbit 1 i = false) as H1 by (rewrite <- (Z.pow_0_r 2); apply Z.pow2_bits_false; lia).
  destruct c; rewrite ?Z.lor_spec, ?Z.ldiff_spec, H1; by destruct (Z.testbit (control t) i).
Qed.

Lemma td_covers_same td td' : Forall2 same_trb td td' -> forall p n, td_covers p n td -> td_covers p n td'.
Proof.
  induction 1 as [|t t' td td' (Hp & Hl & Hb) Hf IH]; intros p n; [done|]. cbn [td_covers].
  rewrite Hp, Hl, !Hb by lia. intros (H1 & H2 & H3 & H4 & H5 & H6).
  split_and!; try done; try lia; [| |by apply IH]; by inversion Hf; subst.
Qed.

(** ** Fetching a descriptor *)

Section fetching.
Context (hw : HwCfg).
#[local] Instance memory_io : XhcIo (Z -> byte) := mem_io (hw_offset hw).
#[local] Instance memory_dma : DmaSpec (Z -> byte) := mem_dma (hw_offset hw).

Lemma fetch_td_ring n : forall mem r u h td c p len,
  ring_holds mem r u (h ++ td) -> stands r u (length h) c -> (length td < u)%nat ->
  td_covers p len td -> 0 < len -> (length td <= n)%nat ->
  exists c' td', fetch_td hw n mem c = Some (c', td') /\ Forall2 same_trb td td' /\ stands r u (length (h ++ td)) c'.
Proof.
  induction n as [|n IH]; intros mem r u h td c p len Hh Hs Hu Hc Hl Hn;
    (destruct td as [|t td]; [cbn in Hc; lia|]); [cbn in Hn; lia|].
  cbn [length] in *. destruct (consume_next mem r u (h ++ t :: td) (length h) c t Hh Hs) as (c1 & E1 & Hs1).
  { rewrite length_app. cbn. lia. }
  { by rewrite list_lookup_middle. }
  cbn [fetch_td]. change (fetch (hw_offset hw) mem c) with (consume mem c). rewrite E1. cbn [td_covers] in Hc. destruct Hc as (_ & Hlen & _ & Hch & _ & Hc).
  destruct (same_trb_set_cycle (Nat.even (length h / u)) t) as (Hp & Ht & Hb). rewrite Hb, Hch by lia.
  destruct td as [|t' td].
  - exists c1, [set_cycle (Nat.even (length h / u)) t]. split; [done|]. split; [|rewrite length_app; cbn; by rewrite Nat.add_comm].
    by repeat constructor.
  - destruct (IH mem r u (h ++ [t]) (t' :: td) c1 (p + transfer_length t) (len - transfer_length t)) as (c2 & td2 & E2 & Hf & Hs2); try done.
    + by rewrite <- app_assoc.
    + by rewrite length_app, Nat.add_comm.
    + cbn in *. lia.
    + cbn [td_covers] in Hc. destruct Hc as (_ & ? & _). lia.
    + cbn in *. lia.
    + rewrite E2. exists c2, (set_cycle (Nat.even (length h / u)) t :: td2). split; [done|]. split; [by constructor|].
      by rewrite <- app_assoc in Hs2.
Qed.

Lemma fetch_td_empty n mem r u h c : ring_holds mem r u h -> stands r u (length h) c -> fetch_td hw n mem c = None.
Proof.
  intros Hh Hs. destruct n as [|n]; [done|]. cbn [fetch_td]. change (fetch (hw_offset hw) mem c) with (consume mem c).
  by destruct (consume_none mem r u h c Hh Hs) as (c' & -> & _).
Qed.
End fetching.

(** ** Transfer events *)

Lemma shift_field a i w k : 0 <= i -> 0 <= w -> 0 <= a < 2 ^ w -> 0 <= k ->
  Z.testbit (Z.shiftl a i) k = (i <=? k) && (k <? i + w) && Z.testbit a (k - i).
Proof.
  intros Hi Hw Ha Hk. rewrite Z.shiftl_spec by done. destruct (i <=? k) eqn:E1; bool_to_prop; cbn [andb].
  - destruct (k <? i + w) eqn:E2; bool_to_prop; [done|]. cbn.
    apply (proj1 (Z.bounded_iff_bits_nonneg w a Hw ltac:(lia)) ltac:(lia)). lia.
  - apply Z.testbit_neg_r. lia.
Qed.

Section events.
Context (hw : HwCfg) (Hslot : 0 <= hw_slot hw < 256).

Lemma event_control dci code res c : 0 <= dci < 32 ->
  transfer_event (hw_slot hw) dci (set_cycle c (transfer_event_trb hw dci code res)) = true.
Proof.
  intros Hd. set (t := transfer_event_trb hw dci code res).
  assert (forall i w v, 0 < i -> 0 <= w -> 0 <= v < 2 ^ w ->
    (forall k, 0 <= k < w -> Z.testbit (control t) (k + i) = Z.testbit v k) ->
    Z.land (Z.shiftr (control (set_cycle c t)) i) (Z.ones w) = v) as Hfield.
  { intros i w v Hi Hw Hv Hk. rewrite shiftr_set_cycle by done. apply Z.bits_inj'. intros k Hk0.
    rewrite Z.land_spec, Z.shiftr_spec by done. destruct (decide (k < w)) as [Hlt|Hge].
    - rewrite Z.ones_spec_low, andb_true_r by lia. apply Hk. lia.
    - rewrite Z.ones_spec_high, andb_false_r by lia. symmetry.
      apply (proj1 (Z.bounded_iff_bits_nonneg w v Hw ltac:(lia)) ltac:(lia)). lia. }
  assert (forall k, 0 <= k -> Z.testbit (control t) k =
    (10 <=? k) && (k <? 16) && Z.testbit 32 (k - 10) || (16 <=? k) && (k <? 21) && Z.testbit dci (k - 16)
    || (24 <=? k) && (k <? 32) && Z.testbit (hw_slot hw) (k - 24)) as Ht.
  { intros k Hk. unfold t, transfer_event_trb. cbn [control]. rewrite !Z.lor_spec.
    rewrite (shift_field _ 10 6), (shift_field _ 16 5), (shift_field _ 24 8) by (done || lia). done. }
  unfold transfer_event, trb_type, trb_slot_id, endpoint_id.
  change 0x3f with (Z.ones 6). change 0xff with (Z.ones 8). change 0x1f with (Z.ones 5).
  rewrite (Hfield 10 6 32), (Hfield 24 8 (hw_slot hw)), (Hfield 16 5 dci); try lia; [by rewrite !Z.eqb_refl|..];
    intros k Hk; rewrite Ht by lia.
  - replace (k + 16 - 16) with k by lia.
    replace (10 <=? k + 16) with true by lia. replace (k + 16 <? 16) with false by lia.
    replace (16 <=? k + 16) with true by lia. replace (k + 16 <? 21) with true by lia.
    replace (24 <=? k + 16) with false by lia. cbn. by rewrite orb_false_r.
  - replace (k + 24 - 24) with k by lia.
    replace (10 <=? k + 24) with true by lia. replace (k + 24 <? 16) with false by lia.
    replace (16 <=? k + 24) with true by lia. replace (k + 24 <? 21) with false by lia.
    replace (24 <=? k + 24) with true by lia. replace (k + 24 <? 32) with true by lia. done.
  - replace (k + 10 - 10) with k by lia.
    replace (10 <=? k + 10) with true by lia. replace (k + 10 <? 16) with true by lia.
    replace (16 <=? k + 10) with false by lia. replace (24 <=? k + 10) with false by lia. cbn. by rewrite !orb_false_r.
Qed.

Lemma event_word code res : 0 <= code -> 0 <= res < 2 ^ 17 -> Z.lor res (Z.shiftl code 24) = res + code * 2 ^ 24.
Proof.
  intros Hc Hr. assert (Z.land res (Z.shiftl code 24) = 0) as Hl.
  { apply Z.bits_inj'. intros k Hk. rewrite Z.land_spec, Z.bits_0. destruct (decide (k < 24)) as [Hlt|Hge].
    - rewrite Z.shiftl_spec_low by lia. apply andb_false_r.
    - assert (Z.testbit res k = false) as ->; [|done].
      apply (proj1 (Z.bounded_iff_bits_nonneg 17 res ltac:(lia) ltac:(lia)) ltac:(lia)). lia. }
  rewrite <- Z.lxor_lor, <- Z.add_nocarry_lxor, Z.shiftl_mul_pow2 by (done || lia). done.
Qed.

Lemma event_status dci code res c : 0 <= code < 256 -> 0 <= res < 2 ^ 17 ->
  completion_code (set_cycle c (transfer_event_trb hw dci code res)) = code /\
  transfer_length (set_cycle c (transfer_event_trb hw dci code res)) = res.
Proof.
  intros Hc Hr. unfold completion_code, transfer_length, transfer_event_trb. cbn [status set_cycle].
  rewrite event_word, Z.shiftr_div_pow2 by lia.
  change 0xff with (Z.ones 8). change 0x1ffff with (Z.ones 17). rewrite !Z.land_ones by lia. split.
  - rewrite Z.div_add, Z.div_small by lia. apply Z.mod_small. lia.
  - replace (code * 2 ^ 24) with (code * 2 ^ 7 * 2 ^ 17) by lia. rewrite Z.mod_add by lia. apply Z.mod_small. lia.
Qed.

Lemma event_ok dci code res : 0 <= dci < 32 -> 0 <= code < 256 -> 0 <= res < 2 ^ 17 -> trb_ok (transfer_event_trb hw dci code res).
Proof.
  intros Hd Hc Hres. unfold trb_ok, transfer_event_trb. cbn [param status control]. split; [ulia|]. split.
  - rewrite event_word by lia. ulia.
  - assert (forall a i w, 0 <= i -> 0 <= a < 2 ^ w -> 0 <= w -> i + w <= 32 -> 0 <= Z.shiftl a i < 2 ^ 32) as Hb.
    { intros a i w Hi Ha Hw Hiw. rewrite Z.shiftl_mul_pow2 by done. split; [nia|].
      apply Z.lt_le_trans with (2 ^ (w + i)); [|apply Z.pow_le_mono_r; lia]. rewrite Z.pow_add_r by lia. nia. }
    enough (0 <= Z.lor (Z.lor (Z.shiftl TrbType.TRANSFER_EVENT 10) (Z.shiftl dci 16)) (Z.shiftl (hw_slot hw) 24) < 2 ^ 32) by ulia.
    repeat apply lor_bound; try lia; [by apply (Hb _ _ 6)|apply (Hb _ _ 5); lia|apply (Hb _ _ 8); lia].
Qed.
End events.

(** ** A doorbell *)

Definition apart (p n q k : Z) : Prop := p + n <= q \/ q + k <= p.

Lemma bot_in_len {D} n (pd pd' : Phase * D) data : bot_in n pd = Some (data, pd') -> zlen data <= n.
Proof.
  destruct pd as [[|b t st|c|t r st] d]; cbn; try done; split_if; try done; intros; simplify_eq; done.
Qed.

Section machine.
Context {F D : Type} `{FrameAllocSpec F} `{ScsiTargetSpec D} (align_up : Z -> Z -> Z) (Halign : rounds_up align_up) (hw : HwCfg).
Implicit Types (m : Machine F D).

#[local] Instance io : XhcIo (Machine F D) := Machine_io align_up hw.

Lemma pow2_divides a k : is_power_of_two a = true -> 0 <= k -> a <= 2 ^ k -> (a | 2 ^ k).
Proof.
  intros Ha Hk Hle. apply andb_true_iff in Ha as [Hpos%Z.ltb_lt Ha%Z.eqb_eq].
  exists (2 ^ (k - Z.log2 a)). rewrite <- Ha at 2. assert (Z.log2 a <= k).
  { apply Z.pow_le_mono_r_iff with 2; lia. }
  rewrite <- Z.pow_add_r by (pose proof (Z.log2_nonneg a); lia). f_equal. lia.
Qed.

Lemma dma_align_ok a k : is_power_of_two a = true -> 0 <= k -> a <= 2 ^ 48 ->
  is_power_of_two (Z.max a (2 ^ k)) = true /\ (a | Z.max a (2 ^ k)) /\ 0 < Z.max a (2 ^ k).
Proof.
  intros Ha Hk Hle. pose proof (Z.pow_pos_nonneg 2 k ltac:(lia) Hk). destruct (decide (a <= 2 ^ k)).
  - rewrite Z.max_r by lia. split; [|split; [by apply pow2_divides|lia]].
    unfold is_power_of_two. rewrite Z.log2_pow2 by done. lia.
  - rewrite Z.max_l by lia. split; [done|]. split; [done|]. unfold is_power_of_two in Ha. bool_to_prop. lia.
Qed.

#[local] Program Instance dma : DmaSpec (Machine F D) := {| phys_at := mc_mem |}.
Next Obligation. intros a k. cbn. unfold dma_virt_to_phys, phys_addr_from. lia. Qed.
Next Obligation. done. Qed.
Next Obligation. done. Qed.
Next Obligation. done. Qed.
Next Obligation. done. Qed.
Next Obligation.
  intros size align m m' a Hs Ha Hle. cbn. unfold dma_alloc, dma_layout.
  set (al := if 4096 <? size then _ else _).
  assert (is_power_of_two al = true /\ (align | al) /\ 0 < al <= 2 ^ 48) as (Hp & Hd & Hal).
  { unfold al. destruct (4096 <? size);
      [destruct (dma_align_ok align 16) as (? & ? & ?)|destruct (dma_align_ok align 12) as (? & ? & ?)]; done || (split_and!; try done; lia). }
  destruct (Halign size al Hp) as [Hr _]; [lia|ulia|].
  destruct (frame_allocate (align_up size al) al (ds_frames (mc_dma m))) as [f' [p|]] eqn:E; [|done].
  intros [= <- <-]. apply frame_fresh in E as (Hmod & Hpos & Hend & _); [|lia..].
  unfold dma_virt_to_phys, phys_addr_from, ptr_from. rewrite Z.add_simpl_r. split_and!; try lia.
  apply Z.mod_divide; [unfold is_power_of_two in Ha; bool_to_prop; lia|]. apply Z.mod_divide in Hmod; [|lia]. by etrans.
Qed.

(** The device's answer to a request of [n] bytes, short only in a descriptor of one TRB. *)
Definition answers (n : Z) (one : bool) (pd : Phase * D) (data : bytes) (pd' : Phase * D) : Prop :=
  bot_in n pd = Some (data, pd') /\ (zlen data = n \/ one = true).

(** A transfer of up to [n] bytes at [p] between memory and the device; [k] bytes moved. *)
Definition served (dci p n : Z) (one : bool) m (mem : Z -> byte) (pd : Phase * D) (k : Z) : Prop :=
  if Z.odd dci then
    exists data, answers n one (mc_dev m) data pd /\ k = zlen data /\ forall q, mem q = put p data (mc_mem m) q
  else bot_out (mem_load (mc_mem m) p n) (mc_dev m) = Some pd /\ k = n /\ mem = mc_mem m.

(** The device takes part, and the transfer is not going to fail. *)
Definition willing (dci p n : Z) (one : bool) m : Prop :=
  default Served (head (mc_fate m)) = Served /\
  if Z.odd dci then exists data pd, answers n one (mc_dev m) data pd
  else bot_out (mem_load (mc_mem m) p n) (mc_dev m) <> None.

Definition success m (dci : Z) (c : Consumer) (mem : Z -> byte) (pd : Phase * D) (res : Z) : Machine F D :=
  post_event hw (transfer_event_trb hw dci (done_code res) res) (set_cons dci c (set_bot pd (set_mem mem (next_fate m)))).

Lemma run_endpoint_stop n dci m :
  mc_halted m dci = true \/ fetch_td hw 256 (mc_mem m) (mc_cons m dci) = None -> run_endpoint hw n dci m = m.
Proof.
  intros Hs. destruct n as [|n]; [done|]. cbn [run_endpoint].
  destruct (mc_halted m dci); [done|]. destruct Hs as [?|Hs]; [done|]. by rewrite Hs.
Qed.

Definition one_trb (td : list Trb) : bool := (length td =? 1)%nat.

Lemma serve_served dci p n td m :
  td_covers p n td ->
  (exists mem pd k, serve dci td m = Some (set_bot pd (set_mem mem m), n - k) /\ served dci p n (one_trb td) m mem pd k) \/
  serve dci td m = None /\
  ~ (if Z.odd dci then exists data pd, answers n (one_trb td) (mc_dev m) data pd
     else bot_out (mem_load (mc_mem m) p n) (mc_dev m) <> None).
Proof.
  intros Hc. unfold serve, served, answers, one_trb. destruct (Z.odd dci).
  - rewrite (td_len_covers _ _ _ Hc). destruct (bot_in n (mc_dev m)) as [[data pd]|] eqn:E.
    2: { right. split; [done|]. by intros (? & ? & ? & _). }
    destruct ((zlen data =? n) || _) eqn:Ef; [left|right].
    + eexists _, pd, (zlen data). split; [done|]. exists data. split_and!; [done| |done|].
      * bool_to_prop.
        destruct Ef as [?%Z.eqb_eq|?]; [by left|by right].
      * intros q. eapply scatter_covers; [done|]. by eapply bot_in_len.
    + split; [done|]. intros (d & pd' & [= <- <-] & Hor). apply orb_false_iff in Ef as [?%Z.eqb_neq ?]. destruct Hor; congruence.
  - rewrite (gather_covers _ _ _ _ Hc). destruct (bot_out _ (mc_dev m)) as [pd|]; [left|right; split; [done|tauto]].
    exists (mc_mem m), pd, n. split; [|done]. rewrite Z.sub_diag. do 2 f_equal. by destruct m as [[f0 mem0]].
Qed.

Lemma upd_same {A} (f : Z -> A) i a : upd f i a i = a.
Proof. unfold upd. by rewrite Z.eqb_refl. Qed.

Lemma upd_other {A} (f : Z -> A) i j a : i <> j -> upd f i a j = f j.
Proof. intros Hij. unfold upd. by destruct (j =? i) eqn:E; [bool_to_prop; congruence|]. Qed.

Lemma post_event_mem t m q :
  0 <= pr_index (mc_prod m) < hw_event_count hw -> q < hw_events hw \/ hw_events hw + hw_event_count hw * 16 <= q ->
  mc_mem (post_event hw t m) q = mc_mem m q.
Proof. intros Hi Hq. unfold mc_mem at 1, post_event. cbn [mc_dma ds_mem]. apply put_out. rewrite zlen_trb_bytes. lia. Qed.

Lemma served_mem dci p n one m mem pd k q :
  served dci p n one m mem pd k -> q < p \/ p + n <= q -> mem q = mc_mem m q.
Proof.
  unfold served. intros Hs Hq. destruct (Z.odd dci); [|by destruct Hs as (_ & _ & ->)].
  destruct Hs as (data & [Hd _] & _ & ->). apply bot_in_len in Hd. apply put_out. lia.
Qed.

Lemma served_moved dci p n one m mem pd k : 0 <= n -> served dci p n one m mem pd k -> 0 <= k.
Proof.
  unfold served. destruct (Z.odd dci); [|by intros ? (_ & -> & _)]. intros _ (data & _ & -> & _). apply zlen_nonneg.
Qed.

Lemma served_residual dci p n td m mem pd k :
  td_covers p n td -> served dci p n (one_trb td) m mem pd k -> 0 <= n - k < 2 ^ 17.
Proof.
  intros Hc. pose proof (td_covers_nonneg _ _ _ Hc). unfold served. destruct (Z.odd dci); [|intros (_ & -> & _); lia].
  intros (data & [Hd Hone] & -> & _). pose proof (bot_in_len _ _ _ _ Hd). pose proof (zlen_nonneg data).
  destruct Hone as [->|Hone]; [lia|]. unfold one_trb in Hone. apply Nat.eqb_eq in Hone. pose proof (td_covers_one _ _ _ Hc Hone). lia.
Qed.

Lemma run_endpoint_step k dci m c td :
  mc_halted m dci = false -> fetch_td hw 256 (mc_mem m) (mc_cons m dci) = Some (c, td) ->
  run_endpoint hw (S k) dci m = run_endpoint hw k dci (run_td hw dci c td m).
Proof. intros Hal E. cbn [run_endpoint]. by rewrite Hal, E. Qed.

(** One queued descriptor: it is fetched and runs, and nothing else does. *)
Lemma run_endpoint_one dci m r u h td p n :
  ring_holds m r u (h ++ td) -> mc_halted m dci = false -> stands r u (length h) (mc_cons m dci) ->
  (length td < u)%nat -> (length td <= 256)%nat -> td_covers p n td -> 0 < n ->
  apart p n (ring_phys r) (ring_size r * 16) ->
  apart (hw_events hw) (hw_event_count hw * 16) (ring_phys r) (ring_size r * 16) ->
  0 <= pr_index (mc_prod m) < hw_event_count hw ->
  (exists mem pd c k, served dci p n (one_trb td) m mem pd k /\ 0 <= n - k < 2 ^ 17 /\ stands r u (length (h ++ td)) c /\
     run_endpoint hw 256 dci m = success m dci c mem pd (n - k)) \/
  ~ willing dci p n (one_trb td) m /\
  (run_endpoint hw 256 dci m = halt dci (next_fate m) \/
   exists code, (code = 4 \/ code = 6) /\
     run_endpoint hw 256 dci m = post_event hw (transfer_event_trb hw dci code 0) (halt dci (next_fate m))).
Proof.
  intros Hh Hal Hs Hu Hn Hc Hpos Hbuf Hev Hi.
  destruct (fetch_td_ring hw 256 (mc_mem m) r u h td (mc_cons m dci) p n) as (c & td' & E & Hf & Hs'); try done.
  pose proof (td_covers_same _ _ Hf _ _ Hc) as Hc'. rewrite (run_endpoint_step 255 _ _ _ _ Hal E).
  assert (forall m', run_td hw dci c td' m = m' -> mc_halted m' dci = true -> run_endpoint hw 255 dci m' = m') as Hstop.
  { intros m' _ Hm'. apply run_endpoint_stop. by left. }
  assert (one_trb td' = one_trb td) as Hone by (unfold one_trb; by rewrite (Forall2_length _ _ _ Hf)).
  unfold run_td in *. destruct (default Served (head (mc_fate m))) eqn:Ef.
  - destruct (serve_served dci p n td' (next_fate m) Hc') as [(mem & pd & k & Es & Hsv)|[Es Hno]]; rewrite Es in *.
    + pose proof (served_residual _ _ _ _ _ _ _ _ Hc' Hsv) as Hres.
      left. exists mem, pd, c, k. split; [rewrite <- Hone; exact Hsv|]. split; [done|]. split; [done|].
      apply run_endpoint_stop. right.
      change (mc_cons (success m dci c mem pd (n - k)) dci) with (upd (mc_cons m) dci c dci). rewrite upd_same.
      apply (fetch_td_empty hw 256 _ r u (h ++ td)); [|done].
      eapply (ring_holds_ext (W := Z -> byte) (mc_mem m)); [|exact Hh]. intros q Hq.
      change (ring_phys (W := Z -> byte) r) with (ring_phys (W := Machine F D) r) in Hq. unfold apart in *.
      etransitivity; [apply post_event_mem; [done|lia]|]. apply (served_mem _ _ _ _ _ _ _ _ _ Hsv). lia.
    + right. rewrite Hstop by (done || apply upd_same). split; [|by left].
      intros [_ Hw]. rewrite <- Hone in Hw. by apply Hno.
  - right. rewrite Hstop by (done || apply upd_same). split; [intros [Hw _]; congruence|]. right.
    exists (if stall then 6 else 4). split; [destruct stall; auto|by destruct stall].
  - right. rewrite Hstop by (done || apply upd_same). split; [intros [Hw _]; congruence|]. by left.
Qed.

(** ** A poll *)

Lemma dequeue_none x p u h :
  event_holds (x_host x) (x_event_ring x) p u h (length h) -> dequeue_event (W := Machine F D) x = (x, Ok None).
Proof.
  intros Hh. unfold dequeue_event, sbind, sgets, on_host. rewrite (try_dequeue_none _ _ p u h Hh). by destruct x.
Qed.

Lemma update_erdp_id (x : XhciCtrl (Machine F D)) : update_erdp x = (x, Ok tt).
Proof. by destruct x. Qed.

Lemma poll_none f x p u h :
  event_holds (x_host x) (x_event_ring x) p u h (length h) -> take_first f (x_pending_events x) = None ->
  poll_event_matching (W := Machine F D) f x = (x, Ok None).
Proof.
  intros Hh Ht. unfold poll_event_matching, sbind, sgets. rewrite Ht. unfold drain_fuel. cbn [drain_matching].
  unfold sbind, poll_raw_event, sbind. by rewrite (dequeue_none x p u h Hh).
Qed.

Lemma poll_one f x p u h k t :
  event_holds (x_host x) (x_event_ring x) p u h k -> (length h <= k + u)%nat -> h !! k = Some t ->
  take_first f (x_pending_events x) = None -> f (set_cycle (Nat.even (k / u)) t) = true ->
  exists e, poll_event_matching (W := Machine F D) f x = (set_event_ring e x, Ok (Some (set_cycle (Nat.even (k / u)) t))) /\
    event_holds (x_host x) e p u h (S k) /\ er_ring e = er_ring (x_event_ring x).
Proof.
  intros Hh Hk Ht Hp Hf. destruct (try_dequeue_next _ _ p u h k t Hh Hk Ht) as (e & E & He & Hr).
  exists e. split; [|done]. unfold poll_event_matching, sbind, sgets. rewrite Hp. unfold drain_fuel. cbn [drain_matching].
  unfold sbind, poll_raw_event, dequeue_event, sbind, sgets, on_host. rewrite E. cbn beta iota. cbn [smodify fst snd].
  unfold sret at 1. rewrite update_erdp_id. unfold sret at 1. rewrite Hf. by destruct x.
Qed.
End machine.
