(* ===== verification/UsbMscTheorems.v ===== *)
(** * USB mass storage: theorems

    The driver against the controller and device of UsbMachine: a SCSI command sent through
    [scsi_command] is executed by the device exactly once and its answer comes back, or the
    driver reports an error; whatever transfers fail, the rings and the event queue stay in
    order and memory of the driver is only written where it should be. *)

From S2P Require Import Prelude UsbRing UsbRingTheorems UsbDesc Xhci XhciTheorems UsbDevice UsbDeviceTheorems UsbMsc UsbDma UsbMachine UsbMachineTheorems.

(** ** Wrappers *)

Lemma cbw_roundtrip tag len dir lun cdb :
  u32 tag -> u32 len -> 0 <= lun < 16 -> zlen cdb <= 16 ->
  zlen (cbw_bytes (cbw_new tag len dir lun cdb)) = 31 /\
  decode_cbw (cbw_bytes (cbw_new tag len dir lun cdb)) = Some (mkCommand tag len dir lun cdb).
Proof.
  intros Ht Hl Hlun Hc. pose proof (zlen_nonneg cdb). unfold cbw_new. rewrite (Z.min_l (zlen cdb)) by lia.
  rewrite (ztake_all (zlen cdb) cdb) by lia.
  assert (Z.land lun 15 = lun) as ->.
  { change 15 with (Z.ones 4). rewrite Z.land_ones by lia. apply Z.mod_small. lia. }
  unfold cbw_bytes. cbn [cbw_signature cbw_tag cbw_data_transfer_length cbw_flags cbw_lun cbw_cb_length cbw_cb].
  set (fl := if dir then 128 else 0). set (cb := cdb ++ zeros (16 - zlen cdb)).
  assert (zlen cb = 16) as Hcb by (unfold cb; rewrite zlen_app, zlen_zeros; lia).
  assert (zlen (to_le32 CBW_SIGNATURE ++ to_le32 tag ++ to_le32 len ++ le_split 1 fl ++ le_split 1 lun ++ le_split 1 (zlen cdb) ++ cb) = 31) as Hlen.
  { rewrite !zlen_app, !zlen_to_le32, Hcb. reflexivity. }
  split; [done|]. unfold decode_cbw. rewrite Hlen. unfold u32_at, u8_at.
  assert (forall (a b c d e f : bytes), zlen a = 4 -> zlen b = 4 -> zlen c = 4 -> zlen d = 1 -> zlen e = 1 -> zlen f = 1 ->
    let l := a ++ b ++ c ++ d ++ e ++ f ++ cb in
    slice l 0 (0 + 4) = a /\ slice l 4 (4 + 4) = b /\ slice l 8 (8 + 4) = c /\ slice l 12 (12 + 1) = d /\
    slice l 13 (13 + 1) = e /\ slice l 14 (14 + 1) = f /\
    slice l 15 31 = cb) as Hs.
  { intros a b c d e f Ha Hb Hcc Hd He Hf. cbn. unfold slice.
    repeat split; repeat (rewrite zdrop_app_ge by lia); rewrite zdrop_0 by lia;
      rewrite ?ztake_app_le by lia; apply ztake_all; lia. }
  destruct (Hs (to_le32 CBW_SIGNATURE) (to_le32 tag) (to_le32 len) (le_split 1 fl) (le_split 1 lun) (le_split 1 (zlen cdb)))
    as (-> & -> & -> & -> & -> & -> & ->); [done..|]. clear Hs.
  rewrite !le_combine_to_le32 by (done || (split; vm_compute; congruence)).
  change (CBW_SIGNATURE =? CBW_SIGNATURE) with true. change (31 =? 31) with true. cbn [andb].
  rewrite !le_combine_split. cbn [Z.of_nat]. do 2 f_equal.
  - by destruct dir.
  - apply Z.mod_small. cbn. lia.
  - rewrite Z.mod_small by (cbn; lia). unfold cb. rewrite ztake_app_le by lia. apply ztake_all. lia.
Qed.

Lemma csw_roundtrip tag res st : 0 <= st < 256 ->
  zlen (csw_bytes tag res st) = 13 /\ csw_signature (csw_of (csw_bytes tag res st)) = CSW_SIGNATURE /\
  csw_status (csw_of (csw_bytes tag res st)) = st.
Proof.
  intros Hst. split; [done|]. unfold csw_of, csw_bytes, u32_at, u8_at. cbn [csw_signature csw_status]. unfold slice. split.
  - rewrite (zdrop_0 0) by lia. rewrite ztake_app_le by done. rewrite ztake_all by done. by vm_compute.
  - repeat (rewrite zdrop_app_ge by (rewrite ?zlen_to_le32; lia)). rewrite !zlen_to_le32.
    rewrite zdrop_0 by lia. rewrite ztake_all by done. rewrite le_combine_split. apply Z.mod_small. cbn. lia.
Qed.

(** ** The driver's state next to the hardware's *)

Section transport.
Context {F D : Type} `{FrameAllocSpec F} `{ScsiTargetSpec D} (align_up : Z -> Z -> Z) (Halign : rounds_up align_up) (hw : HwCfg).

#[local] Instance msc_io : XhcIo (Machine F D) := Machine_io align_up hw.
#[local] Instance msc_dma : DmaSpec (Machine F D) := dma align_up Halign hw.

(** The bulk endpoints, and the memory of their rings. *)
Context (ein eout : Z) (mem_in mem_out : PhysMem).

Definition ep_of (dir : bool) : Z := if dir then ein else eout.
Definition dci (dir : bool) : Z := dci_of (ep_of dir) dir.
Definition mem_of (dir : bool) : PhysMem := if dir then mem_in else mem_out.

Definition areas : list (Z * Z) :=
  [(phys mem_in, 4096); (phys mem_out, 4096); (hw_events hw, hw_event_count hw * 16)].

(** Memory that belongs to none of the rings. *)
Definition clear (p n : Z) : Prop := Forall (fun '(q, k) => apart p n q k) areas.

Context (Hslot : 0 <= hw_slot hw < 256) (Hein : 1 <= ein <= 15) (Heout : 1 <= eout <= 15).
Context (Hareas : apart (phys mem_in) 4096 (phys mem_out) 4096 /\
                  apart (hw_events hw) (hw_event_count hw * 16) (phys mem_in) 4096 /\
                  apart (hw_events hw) (hw_event_count hw * 16) (phys mem_out) 4096).

Implicit Types (s : UsbSys (Machine F D)) (m : Machine F D).

Definition ep_inv (dir : bool) s : Prop :=
  let m := sys_host s in
  exists r h,
    ud_ep_rings (s_dev s) !! Z.to_nat (dci dir - 1) = Some (Some r) /\ ring_mem r = mem_of dir /\
    ring_holds m r 255 h /\ (mc_halted m (dci dir) = false -> stands r 255 (length h) (mc_cons m (dci dir))).

Definition event_count : nat := Z.to_nat (hw_event_count hw).

(** Every posted event has been read. *)
Definition events_inv s : Prop :=
  let m := sys_host s in
  let e := x_event_ring (s_ctrl s) in
  event_ring_phys e = hw_events hw /\ er_size e = hw_event_count hw /\
  exists h, event_holds m e (mc_prod m) event_count h (length h).

Definition quiet (t : Trb) : Prop := forall dir, transfer_event (hw_slot hw) (dci dir) t = false.

Record inv s : Prop := {
  inv_slot : ud_slot_id (s_dev s) = hw_slot hw;
  inv_doorbell : doorbell_reg s = hw_doorbell hw;
  inv_ep dir : ep_inv dir s;
  inv_events : events_inv s;
  inv_pending : Forall quiet (x_pending_events (s_ctrl s));
}.

Lemma dci_bounds dir : 2 <= dci dir < 32.
Proof. unfold dci, dci_of, ep_of. destruct dir; lia. Qed.

Lemma dci_odd dir : Z.odd (dci dir) = dir.
Proof. unfold dci, dci_of, ep_of. destruct dir; [rewrite Z.add_comm|rewrite Z.add_0_r]; rewrite Z.mul_comm; [apply Z.odd_add_mul_2|apply Z.odd_mul]. Qed.

Lemma dci_ne dir : dci dir <> dci (negb dir).
Proof. intros E. pose proof (dci_odd dir) as H1'. rewrite E, dci_odd in H1'. by destruct dir. Qed.

Lemma clear_apart p n dir : clear p n -> apart p n (phys (mem_of dir)) 4096.
Proof. unfold clear, areas. rewrite !Forall_cons. intros (Hi & Ho & _). by destruct dir. Qed.

Lemma clear_events p n : clear p n -> apart p n (hw_events hw) (hw_event_count hw * 16).
Proof. unfold clear, areas. rewrite !Forall_cons. by intros (_ & _ & He & _). Qed.

Lemma quiet_take_first dir l : Forall quiet l -> take_first (transfer_event (hw_slot hw) (dci dir)) l = None.
Proof. induction 1 as [|t l Ht _ IH]; [done|]. cbn. by rewrite (Ht dir), IH. Qed.

(** What a step that leaves the rings alone keeps. *)
Definition undisturbed m m' : Prop :=
  mc_cons m' = mc_cons m /\ mc_halted m' = mc_halted m /\ mc_prod m' = mc_prod m /\
  forall q k, (q, k) ∈ areas -> forall a, q <= a < q + k -> mc_mem m' a = mc_mem m a.

Lemma in_areas dir : (phys (mem_of dir), 4096) ∈ areas.
Proof. unfold areas. destruct dir; cbn; rewrite !elem_of_cons; auto. Qed.

Lemma events_area : (hw_events hw, hw_event_count hw * 16) ∈ areas.
Proof. unfold areas. rewrite !elem_of_cons. auto. Qed.

Lemma ring_area w r dir h : ring_holds w r 255 h -> ring_mem r = mem_of dir -> ring_phys r = phys (mem_of dir) /\ ring_size r * 16 = 4096.
Proof. intros (_ & Hsz & _) Hm. unfold ring_phys. rewrite Hm, Hsz. done. Qed.

Lemma inv_undisturbed s m' : inv s -> undisturbed (sys_host s) m' -> inv (set_sys_host m' s).
Proof.
  intros [Hs Hd He Hev Hp] (Hc & Hh & Hpr & Hm). split; [done|done| | |done].
  - intros dir. destruct (He dir) as (r & h & Hr & Hmem & Hring & Hst). exists r, h. split; [done|]. split; [done|].
    cbn. rewrite Hc, Hh. split; [|done]. eapply ring_holds_ext; [|exact Hring].
    destruct (ring_area _ _ _ _ Hring Hmem) as [-> ->]. apply (Hm _ _ (in_areas dir)).
  - destruct Hev as (He1 & He2 & h & Hh'). split; [done|]. split; [done|]. exists h. cbn. rewrite Hpr.
    eapply event_holds_ext; [|exact Hh']. rewrite He1, He2. apply (Hm _ _ events_area).
Qed.

(** ** Waiting for a transfer *)

Implicit Types (t : MscSys (Machine F D)).

Definition msc_host t : Machine F D := sys_host (m_sys t).
Definition with_sys s t : MscSys (Machine F D) := mkMscSys s (m_dev t).
Definition with_events (e : EventRing) s : UsbSys (Machine F D) := set_ctrl (set_event_ring e (s_ctrl s)) s.

Lemma wp_on_usb {A} (c : UDM (Machine F D) A) (Q : A -> MscSys (Machine F D) -> Prop) X t :
  wp c (fun a s => Q a (with_sys s t)) (fun e s => X e (with_sys s t)) (m_sys t) -> wp (on_usb c) Q X t.
Proof. Transparent wp. unfold wp, on_usb. Opaque wp. by destruct (c (m_sys t)) as [s [a|e| |]]. Qed.

Lemma wp_wait_event dir n t p u h ev code res Q X :
  let s := m_sys t in
  ud_slot_id (s_dev s) = hw_slot hw -> Forall quiet (x_pending_events (s_ctrl s)) -> (0 < u)%nat ->
  event_holds (sys_host s) (x_event_ring (s_ctrl s)) p u (h ++ [ev]) (length h) ->
  (forall c, transfer_event (hw_slot hw) (dci dir) (set_cycle c ev) = true /\
     completion_code (set_cycle c ev) = code /\ transfer_length (set_cycle c ev) = res) ->
  (forall e, event_holds (sys_host s) e p u (h ++ [ev]) (length (h ++ [ev])) -> er_ring e = er_ring (x_event_ring (s_ctrl s)) ->
     if (code =? 1) || (code =? 13) then Q (sat_sub n res) (with_sys (with_events e s) t)
     else X (XferFail code) (with_sys (with_events e s) t)) ->
  wp (wait_transfer (dci dir) n) Q X t.
Proof.
  intros s Hs Hp Hu Hh Hev HQ. unfold wait_transfer. apply wp_spin_first.
  apply wp_bind, wp_gets, wp_bind, wp_on_usb, wp_on_ctrl. fold s. rewrite Hs.
  destruct (poll_one align_up Halign hw (transfer_event (hw_slot hw) (dci dir)) (s_ctrl s) p u (h ++ [ev]) (length h) ev)
    as (e & E & He & Her).
  { done. }
  { rewrite length_app. cbn. lia. }
  { by rewrite list_lookup_middle. }
  { by apply quiet_take_first. }
  { apply Hev. }
  eapply wp_ok; [exact E|]. destruct (Hev (Nat.even (length h / u))) as (_ & Hcode & Hlen). rewrite Hcode, Hlen.
  replace (S (length h)) with (length (h ++ [ev])) in He by (rewrite length_app; cbn; lia).
  specialize (HQ e He Her). destruct ((code =? 1) || (code =? 13)); [by apply wp_ret|by apply wp_fail].
Qed.

Lemma wp_wait_silence dir n t p u h (Q : Z -> MscSys (Machine F D) -> Prop) X :
  let s := m_sys t in
  ud_slot_id (s_dev s) = hw_slot hw -> Forall quiet (x_pending_events (s_ctrl s)) ->
  event_holds (sys_host s) (x_event_ring (s_ctrl s)) p u h (length h) ->
  X (Timeout "wait_transfer timeout") t -> wp (wait_transfer (dci dir) n) Q X t.
Proof.
  intros s Hs Hp Hh HX. unfold wait_transfer. apply (wp_spin (fun t' => t' = t)); [done| |].
  - intros _ t' ->. apply wp_bind, wp_gets, wp_bind, wp_on_usb, wp_on_ctrl. fold s. rewrite Hs.
    eapply wp_ok; [eapply (poll_none align_up Halign hw); [exact Hh|by apply quiet_take_first]|].
    apply wp_ret. by destruct t as [[x d] md].
  - intros t' ->. destruct t as [[x d] md]. destruct x as [w cfg cr er pe]. done.
Qed.

(** ** One bulk transfer *)

Lemma events_posted m e u h k ev :
  event_holds m e (mc_prod m) u h k -> trb_ok ev -> event_ring_phys e = hw_events hw -> er_size e = hw_event_count hw ->
  event_holds (post_event hw ev m) e (mc_prod (post_event hw ev m)) u (h ++ [ev]) k.
Proof.
  intros Hh Hev Hp Hs. pose proof (post_holds m e (mc_prod m) u h k ev Hh Hev) as Hq.
  assert (mc_prod (post_event hw ev m) = (post e (mc_prod m) ev m).2) as -> by (unfold post, post_event; cbn; by rewrite Hs).
  eapply event_holds_ext; [|exact Hq]. intros q _. unfold post, post_event. cbn.
  unfold event_ring_phys, phys in Hp. cbn in Hp. unfold dma_virt_to_phys, phys_addr_from in Hp.
  unfold mc_mem. cbn. f_equal. lia.
Qed.

Lemma prod_index m e u h k :
  event_holds m e (mc_prod m) u h k -> er_size e = hw_event_count hw -> 0 <= pr_index (mc_prod m) < hw_event_count hw.
Proof.
  intros (Hu & Hs & -> & _) Hc. cbn. pose proof (Nat.mod_upper_bound (length h) u ltac:(lia)). lia.
Qed.

(** The system with the ring of one endpoint and the host replaced. *)
Definition with_ring dir (r : Ring) m s : UsbSys (Machine F D) :=
  set_sys_host m (set_dev (set_ep_rings (<[Z.to_nat (dci dir - 1) := Some r]> (ud_ep_rings (s_dev s))) (s_dev s)) s).

Lemma inv_with_ring dir r h s m e hev :
  inv s -> ring_mem r = mem_of dir -> ring_holds m r 255 h ->
  (mc_halted m (dci dir) = false -> stands r 255 (length h) (mc_cons m (dci dir))) ->
  mc_cons m (dci (negb dir)) = mc_cons (sys_host s) (dci (negb dir)) ->
  mc_halted m (dci (negb dir)) = mc_halted (sys_host s) (dci (negb dir)) ->
  (forall q, phys (mem_of (negb dir)) <= q < phys (mem_of (negb dir)) + 4096 -> mc_mem m q = mc_mem (sys_host s) q) ->
  er_ring e = er_ring (x_event_ring (s_ctrl s)) -> event_holds m e (mc_prod m) event_count hev (length hev) ->
  inv (with_events e (with_ring dir r m s)).
Proof.
  intros [Hs Hd He Hev Hp] Hmem Hring Hst Hc Hh Hm Her Heh. pose proof (dci_bounds dir). pose proof (dci_bounds (negb dir)).
  pose proof (dci_ne dir) as Hne. split; [done|done| | |done].
  - intros dir'. destruct (decide (dir' = dir)) as [->|Hdir].
    + exists r, h. split; [|done]. cbn. apply list_lookup_insert_eq.
      destruct (He dir) as (r0 & h0 & Hr0 & _). by apply lookup_lt_Some in Hr0.
    + assert (dir' = negb dir) as -> by (by destruct dir, dir'). destruct (He (negb dir)) as (r0 & h0 & Hr0 & Hm0 & Hh0 & Hs0).
      exists r0, h0. cbn. rewrite list_lookup_insert_ne by lia. split; [done|]. split; [done|]. rewrite Hc, Hh. split; [|done].
      eapply ring_holds_ext; [|exact Hh0]. by destruct (ring_area _ _ _ _ Hh0 Hm0) as [-> ->].
  - destruct Hev as (He1 & He2 & h0 & Hh0). split; [unfold event_ring_phys; cbn; by rewrite Her|]. split; [|by exists hev].
    cbn. destruct Heh as (_ & -> & _), Hh0 as (_ & <- & _). done.
Qed.

Definition outside (q : Z) : Prop := Forall (fun '(a, k) => q < a \/ a + k <= q) areas.

Lemma clear_outside p n q : clear p n -> p <= q < p + n -> outside q.
Proof. unfold clear, outside. intros Hc Hq. eapply Forall_impl; [exact Hc|]. intros [a k]. unfold apart. lia. Qed.

(** A transfer that fits one 64 KiB block is one TRB, and may come back short. *)
Definition single (p n : Z) : bool := one_trb (transfer_td p n).

(** What a transfer that came back has done, with [k] bytes, and one that did not. *)
Definition transferred dir (p n k : Z) s s' : Prop :=
  let m := sys_host s in
  let m' := sys_host s' in
  mc_halted m (dci dir) = false /\ mc_halted m' = mc_halted m /\ mc_fate m' = tail (mc_fate m) /\
  ds_frames (mc_dma m') = ds_frames (mc_dma m) /\
  exists mem, served (dci dir) p n (single p n) m mem (mc_dev m') k /\ forall q, outside q -> mc_mem m' q = mem q.

Definition failed dir (p n : Z) s s' : Prop :=
  let m := sys_host s in
  let m' := sys_host s' in
  mc_dev m' = mc_dev m /\ mc_halted m' (dci dir) = true /\ ds_frames (mc_dma m') = ds_frames (mc_dma m) /\
  (forall q, outside q -> mc_mem m' q = mc_mem m q) /\ ~ (mc_halted m (dci dir) = false /\ willing (dci dir) p n (single p n) m).

Definition bulk (dir : bool) (buf : PhysMem) (n : Z) : MSM (Machine F D) Z :=
  if dir then bulk_in ein buf n else bulk_out eout buf n.

Lemma served_frame (dir : bool) p n one m mem1 mem pd k :
  clear p n -> 0 <= n -> (forall q, outside q -> mem1 q = mc_mem m q) ->
  served (dci dir) p n one (set_mem mem1 m) mem pd k ->
  exists mem', served (dci dir) p n one m mem' pd k /\ forall q, outside q -> mem q = mem' q.
Proof.
  intros Hc Hn Hm. unfold served. rewrite dci_odd. destruct dir.
  - intros (data & Hd & Hk & Hq). exists (put p data (mc_mem m)). split; [by exists data|]. intros q Hout. rewrite Hq.
    destruct (decide (p <= q < p + zlen data)); [by rewrite !put_in by done|]. rewrite !put_out by lia. by apply Hm.
  - intros (Hb & Hk & ->). exists (mc_mem m). split; [|done]. split; [|done].
    rewrite <- Hb. cbn. f_equal. symmetry. apply mem_load_ext. intros q Hq. cbn. apply Hm. by eapply clear_outside.
Qed.

Lemma willing_frame (dir : bool) p n one m mem1 :
  clear p n -> (forall q, outside q -> mem1 q = mc_mem m q) ->
  ~ willing (dci dir) p n one (set_mem mem1 m) -> ~ willing (dci dir) p n one m.
Proof.
  intros Hc Hm Hw [Hf Hb]. apply Hw. split; [done|]. rewrite dci_odd in *. destruct dir; [done|]. cbn.
  erewrite mem_load_ext; [exact Hb|]. intros q Hq. apply Hm. by eapply clear_outside.
Qed.

Lemma transfer_td_ok p n : 0 <= p -> 0 < n <= 2 ^ 22 ->
  td_covers p n (transfer_td p n) /\ (length (transfer_td p n) <= 66)%nat.
Proof.
  intros Hp Hn. unfold transfer_td. guard_false (n =? 0). split.
  - apply td_trbs_covers; [lia|lia|]. intros _. apply chunk_fuel_enough. lia.
  - etrans; [apply length_td_trbs|]. unfold chunk_fuel.
    assert (n / 65536 <= 2 ^ 22 / 65536) by (apply Z.div_le_mono; lia). change (2 ^ 22 / 65536) with 64 in *. lia.
Qed.

(** The state of the controller right after the doorbell; the ring is known to hold the
    new descriptor. *)
Lemma bulk_rung dir p n s r h r' mem1 :
  inv s -> clear p n -> 0 <= p -> 0 < n <= 2 ^ 22 ->
  ring_mem r' = mem_of dir -> ring_mem r = mem_of dir ->
  ring_holds (sys_host s) r 255 h -> (mc_halted (sys_host s) (dci dir) = false -> stands r 255 (length h) (mc_cons (sys_host s) (dci dir))) ->
  ring_holds (set_mem mem1 (sys_host s)) r' 255 (h ++ transfer_td p n) ->
  (forall q, q < phys (mem_of dir) \/ phys (mem_of dir) + 4096 <= q -> mem1 q = mc_mem (sys_host s) q) ->
  let m2 := run_endpoint hw 256 (dci dir) (set_mem mem1 (sys_host s)) in
  (mc_halted (sys_host s) (dci dir) = true /\ m2 = set_mem mem1 (sys_host s)) \/
  mc_halted (sys_host s) (dci dir) = false /\
  ((exists mem pd c k, served (dci dir) p n (single p n) (set_mem mem1 (sys_host s)) mem pd k /\ 0 <= n - k < 2 ^ 17 /\
      stands r' 255 (length (h ++ transfer_td p n)) c /\ m2 = success hw (set_mem mem1 (sys_host s)) (dci dir) c mem pd (n - k)) \/
   ~ willing (dci dir) p n (single p n) (set_mem mem1 (sys_host s)) /\
   (m2 = halt (dci dir) (next_fate (set_mem mem1 (sys_host s))) \/
    exists code, (code = 4 \/ code = 6) /\
      m2 = post_event hw (transfer_event_trb hw (dci dir) code 0) (halt (dci dir) (next_fate (set_mem mem1 (sys_host s)))))).
Proof.
  intros Hinv Hc Hp Hn Hm' Hm Hh Hst Hh' Hmem m2.
  destruct (mc_halted (sys_host s) (dci dir)) eqn:Hal; [left|right]; (split; [done|]).
  - apply run_endpoint_stop. by left.
  - destruct (transfer_td_ok p n Hp Hn) as [Htd Hlen]. destruct (ring_area _ _ _ _ Hh' Hm') as [Ep Es].
    destruct (inv_events _ Hinv) as (_ & Hcount & hev & Hev).
    apply (run_endpoint_one align_up Halign hw (dci dir) (set_mem mem1 (sys_host s)) r' 255 h (transfer_td p n) p n);
      try done; try lia.
    + destruct (ring_area _ _ _ _ Hh Hm) as [Ep0 _]. specialize (Hst eq_refl). unfold stands in Hst.
      rewrite Ep0, <- Ep in Hst. exact Hst.
    + pose proof (clear_apart p n dir Hc) as Ha. rewrite <- Ep, <- Es in Ha. exact Ha.
    + assert (apart (hw_events hw) (hw_event_count hw * 16) (phys (mem_of dir)) 4096) as Ha
        by (destruct Hareas as (_ & H1' & H2'); by destruct dir).
      rewrite <- Ep, <- Es in Ha. exact Ha.
    + by apply (prod_index _ _ _ _ _ Hev).
Qed.

Lemma wp_bulk_queue dir buf n s X :
  inv s -> 0 <= phys buf -> phys buf + n <= 2 ^ 64 -> 0 < n ->
  wp (queue_transfer (ep_of dir) dir buf n)
    (fun _ s1 => exists r h r' mem1,
       ring_mem r = mem_of dir /\ ring_mem r' = mem_of dir /\ ring_holds (sys_host s) r 255 h /\
       (mc_halted (sys_host s) (dci dir) = false -> stands r 255 (length h) (mc_cons (sys_host s) (dci dir))) /\
       ring_holds (set_mem mem1 (sys_host s)) r' 255 (h ++ transfer_td (phys buf) n) /\
       (forall q, q < phys (mem_of dir) \/ phys (mem_of dir) + 4096 <= q -> mem1 q = mc_mem (sys_host s) q) /\
       s1 = with_ring dir r' (run_endpoint hw 256 (dci dir) (set_mem mem1 (sys_host s))) s) X s.
Proof.
  intros Hinv Hp H64 Hn. destruct (inv_ep _ Hinv dir) as (r & h & Hr & Hm & Hh & Hst).
  destruct (ring_area _ _ _ _ Hh Hm) as [Ep Es].
  eapply (wp_queue_transfer (fun w => exists mem, w = set_mem mem (sys_host s) /\
    forall q, q < phys (mem_of dir) \/ phys (mem_of dir) + 4096 <= q -> mem q = mc_mem (sys_host s) q));
    [|exact Hr|exact Hh| | |lia|lia|lia|lia|].
  - unfold ep_of. destruct dir; lia.
  - rewrite Ep, Es. intros v b w Hv1 Hv2 (mem & -> & Hmem). eexists. split; [reflexivity|]. intros q Hq.
    etransitivity; [apply put_out|by apply Hmem]. change (virt_to_phys v) with (v - hw_offset hw) in Hv1, Hv2. lia.
  - exists (mc_mem (sys_host s)). split; [|done]. by destruct (sys_host s) as [[]].
  - intros w r' Hh' Hm' (mem1 & -> & Hmem). exists r, h, r', mem1. split; [done|]. split; [congruence|].
    do 4 (split; [done|]). unfold rung, with_ring. rewrite (inv_doorbell _ Hinv). cbn [reg_write32 msc_io Machine_io].
    by rewrite Z.eqb_refl.
Qed.

Lemma other_area dir q :
  phys (mem_of (negb dir)) <= q < phys (mem_of (negb dir)) + 4096 ->
  (q < phys (mem_of dir) \/ phys (mem_of dir) + 4096 <= q) /\
  (q < hw_events hw \/ hw_events hw + hw_event_count hw * 16 <= q).
Proof. destruct Hareas as (Hio & Hei & Heo). unfold apart in *. destruct dir; cbn [negb mem_of]; lia. Qed.

Lemma ring_events dir q :
  phys (mem_of dir) <= q < phys (mem_of dir) + 4096 -> q < hw_events hw \/ hw_events hw + hw_event_count hw * 16 <= q.
Proof. destruct Hareas as (Hio & Hei & Heo). unfold apart in *. destruct dir; cbn [mem_of]; lia. Qed.

Lemma outside_ring dir q : outside q -> q < phys (mem_of dir) \/ phys (mem_of dir) + 4096 <= q.
Proof. unfold outside, areas. rewrite !Forall_cons. intros (Hi & Ho & _). by destruct dir. Qed.

Lemma outside_events q : outside q -> q < hw_events hw \/ hw_events hw + hw_event_count hw * 16 <= q.
Proof. unfold outside, areas. rewrite !Forall_cons. by intros (_ & _ & He & _). Qed.

Lemma ring_kept dir m m' r h :
  ring_mem r = mem_of dir -> ring_holds m r 255 h ->
  (forall q, phys (mem_of dir) <= q < phys (mem_of dir) + 4096 -> mc_mem m' q = mc_mem m q) -> ring_holds m' r 255 h.
Proof. intros Hm Hh He. eapply ring_holds_ext; [|exact Hh]. by destruct (ring_area _ _ _ _ Hh Hm) as [-> ->]. Qed.

(** Queued on [m], answered with an event: the driver finds it and the rings are in order
    again, with the endpoint halted or caught up. *)
Lemma wp_answered dir n t r h m1 ev code res Q X :
  inv (m_sys t) -> ring_mem r = mem_of dir ->
  ring_holds m1 r 255 h -> (mc_halted m1 (dci dir) = false -> stands r 255 (length h) (mc_cons m1 (dci dir))) ->
  mc_cons m1 (dci (negb dir)) = mc_cons (msc_host t) (dci (negb dir)) ->
  mc_halted m1 (dci (negb dir)) = mc_halted (msc_host t) (dci (negb dir)) -> mc_prod m1 = mc_prod (msc_host t) ->
  (forall q, phys (mem_of (negb dir)) <= q < phys (mem_of (negb dir)) + 4096 -> mc_mem m1 q = mc_mem (msc_host t) q) ->
  (forall q, hw_events hw <= q < hw_events hw + hw_event_count hw * 16 -> mc_mem m1 q = mc_mem (msc_host t) q) ->
  ev = transfer_event_trb hw (dci dir) code res -> 0 <= code < 256 -> 0 <= res < 2 ^ 17 -> res <= n ->
  (forall s', inv s' -> sys_host s' = post_event hw ev m1 ->
     if (code =? 1) || (code =? 13) then Q (n - res) (with_sys s' t) else X (XferFail code) (with_sys s' t)) ->
  wp (wait_transfer (dci dir) n) Q X (with_sys (with_ring dir r (post_event hw ev m1) (m_sys t)) t).
Proof.
  intros Hinv Hm Hh Hst Hc Hha Hpr Hother Hevm -> Hcode Hres Hn HQ. pose proof (dci_bounds dir) as Hd.
  set (ev := transfer_event_trb hw (dci dir) code res) in *.
  destruct (inv_events _ Hinv) as (Hep & Hes & hev & Hev).
  assert (trb_ok ev) as Hok by (apply event_ok; lia).
  assert (event_holds m1 (x_event_ring (s_ctrl (m_sys t))) (mc_prod m1) event_count hev (length hev)) as Hev1.
  { rewrite Hpr. eapply event_holds_ext; [|exact Hev]. by rewrite Hep, Hes. }
  pose proof (events_posted _ _ _ _ _ ev Hev1 Hok Hep Hes) as Hev2.
  pose proof (prod_index _ _ _ _ _ Hev1 Hes) as Hidx.
  eapply (wp_wait_event dir n _ (mc_prod (post_event hw ev m1)) event_count hev ev code res);
    [exact (inv_slot _ Hinv)|exact (inv_pending _ Hinv)|by destruct Hev as [? _]|exact Hev2| |].
  - intros c. split; [apply event_control; lia|]. by apply event_status.
  - intros e He Her. assert (inv (with_events e (with_ring dir r (post_event hw ev m1) (m_sys t)))) as Hinv'.
    { eapply (inv_with_ring dir r h (m_sys t) (post_event hw ev m1) e (hev ++ [ev])); try done.
      - eapply ring_kept; [done|exact Hh|]. intros q Hq. apply post_event_mem; [done|by eapply ring_events].
      - intros q Hq. etransitivity; [apply post_event_mem; [done|by apply (other_area dir)]|by apply Hother]. }
    specialize (HQ _ Hinv' eq_refl). by replace (sat_sub n res) with (n - res) by (unfold sat_sub; lia).
Qed.

Lemma with_sys_twice s s' t : with_sys s (with_sys s' t) = with_sys s t.
Proof. done. Qed.

Lemma ring_stands r r' dir k c w w' h h' :
  ring_holds w r 255 h -> ring_holds w' r' 255 h' -> ring_mem r = mem_of dir -> ring_mem r' = mem_of dir ->
  stands r 255 k c -> stands r' 255 k c.
Proof.
  intros Hh Hh' Hm Hm'. destruct (ring_area _ _ _ _ Hh Hm) as [E _], (ring_area _ _ _ _ Hh' Hm') as [E' _].
  unfold stands. by rewrite E, E'.
Qed.

Lemma wp_bulk_wait dir p n t r h r' mem1 Q X :
  inv (m_sys t) -> clear p n -> 0 <= p -> 0 < n <= 2 ^ 22 ->
  ring_mem r = mem_of dir -> ring_mem r' = mem_of dir -> ring_holds (msc_host t) r 255 h ->
  (mc_halted (msc_host t) (dci dir) = false -> stands r 255 (length h) (mc_cons (msc_host t) (dci dir))) ->
  ring_holds (set_mem mem1 (msc_host t)) r' 255 (h ++ transfer_td p n) ->
  (forall q, q < phys (mem_of dir) \/ phys (mem_of dir) + 4096 <= q -> mem1 q = mc_mem (msc_host t) q) ->
  (forall s' k, inv s' -> transferred dir p n k (m_sys t) s' -> Q k (with_sys s' t)) ->
  (forall e s', inv s' -> failed dir p n (m_sys t) s' -> X e (with_sys s' t)) ->
  wp (wait_transfer (dci dir) n) Q X
    (with_sys (with_ring dir r' (run_endpoint hw 256 (dci dir) (set_mem mem1 (msc_host t))) (m_sys t)) t).
Proof.
  intros Hinv Hc Hp Hn Hm Hm' Hh Hst Hh' Hmem HQ HX.
  pose proof (inv_events _ Hinv) as (Hep & Hes & hev & Hev). pose proof (prod_index _ _ _ _ _ Hev Hes) as Hidx.
  pose proof (clear_apart p n (negb dir) Hc) as Hbo. pose proof (clear_apart p n dir Hc) as Hbd.
  pose proof (clear_events p n Hc) as Hbe. unfold apart in Hbo, Hbd, Hbe.
  assert (forall q, outside q -> mem1 q = mc_mem (msc_host t) q) as Hout by (intros q Hq; by apply Hmem, outside_ring).
  assert (forall q, phys (mem_of (negb dir)) <= q < phys (mem_of (negb dir)) + 4096 -> mem1 q = mc_mem (msc_host t) q) as Hoth
    by (intros q Hq; apply Hmem; by apply (other_area dir)).
  assert (forall q, hw_events hw <= q < hw_events hw + hw_event_count hw * 16 -> mem1 q = mc_mem (msc_host t) q) as Hevm.
  { intros q Hq. apply Hmem. destruct Hareas as (_ & Hei & Heo). unfold apart in *. destruct dir; cbn [mem_of]; lia. }
  (* an endpoint that is halted, with [w] the state it was left in *)
  assert (forall w, mc_mem w = mem1 -> mc_cons w = mc_cons (msc_host t) -> mc_halted w (dci dir) = true ->
            mc_halted w (dci (negb dir)) = mc_halted (msc_host t) (dci (negb dir)) -> mc_prod w = mc_prod (msc_host t) ->
            mc_dev w = mc_dev (msc_host t) -> ds_frames (mc_dma w) = ds_frames (mc_dma (msc_host t)) ->
            ~ (mc_halted (msc_host t) (dci dir) = false /\ willing (dci dir) p n (single p n) (msc_host t)) ->
            wp (wait_transfer (dci dir) n) Q X (with_sys (with_ring dir r' w (m_sys t)) t)) as Hsilent.
  { intros w Hw1 Hw2 Hw3 Hw4 Hw5 Hw6 Hw7 Hw8.
    assert (event_holds w (x_event_ring (s_ctrl (m_sys t))) (mc_prod w) event_count hev (length hev)) as Hevw.
    { rewrite Hw5. eapply event_holds_ext; [|exact Hev]. rewrite Hep, Hes. cbn. by rewrite Hw1. }
    assert (inv (with_events (x_event_ring (s_ctrl (m_sys t))) (with_ring dir r' w (m_sys t)))) as Hinv'.
    { eapply (inv_with_ring dir r' (h ++ transfer_td p n) _ w _ hev); try done; try congruence.
      - eapply ring_kept; [done|exact Hh'|]. intros q Hq. by rewrite Hw1.
      - by rewrite Hw2.
      - by rewrite Hw1. }
    eapply wp_wait_silence; [exact (inv_slot _ Hinv)|exact (inv_pending _ Hinv)|exact Hevw|].
    assert (with_events (x_event_ring (s_ctrl (m_sys t))) (with_ring dir r' w (m_sys t)) = with_ring dir r' w (m_sys t)) as Ew
      by (by destruct t as [[[]]]).
    rewrite Ew in Hinv'. apply HX; [done|]. do 3 (split; [done|]). split; [|done].
    intros q Hq. cbn. rewrite Hw1. by apply Hout. }
  pose proof (bulk_rung dir p n (m_sys t) r h r' mem1 Hinv Hc Hp Hn Hm' Hm Hh Hst Hh' Hmem) as Hrung.
  cbv zeta in Hrung. change (sys_host (m_sys t)) with (msc_host t) in Hrung.
  destruct Hrung as [[Hal ->]|[Hal [(mem & pd & c & k & Hsv & Hres & Hs' & ->)|[Hno [->|(code & Hcode & ->)]]]]].
  - apply Hsilent; try done. intros [? _]. congruence.
  - set (m1 := set_cons (dci dir) c (set_bot pd (set_mem mem (next_fate (set_mem mem1 (msc_host t)))))).
    destruct (served_frame dir p n _ (msc_host t) mem1 mem pd k Hc ltac:(lia) Hout Hsv) as (mem' & Hsv' & Hmem').
    assert (forall q, q < p \/ p + n <= q -> mem q = mem1 q) as Hm1 by (intros q Hq; by apply (served_mem _ _ _ _ _ _ _ _ _ Hsv)).
    assert (k <= n) as Hk by lia.
    apply (wp_answered dir n t r' (h ++ transfer_td p n) m1 _ (done_code (n - k)) (n - k)); try done; try lia.
    + eapply ring_kept; [done|exact Hh'|]. intros q Hq. apply Hm1. lia.
    + intros _. change (mc_cons m1 (dci dir)) with (upd (mc_cons (msc_host t)) (dci dir) c (dci dir)). by rewrite upd_same.
    + apply upd_other, dci_ne.
    + intros q Hq. change (mc_mem m1 q) with (mem q). rewrite Hm1 by lia. by apply Hoth.
    + intros q Hq. change (mc_mem m1 q) with (mem q). rewrite Hm1 by lia. by apply Hevm.
    + unfold done_code, Completion.SUCCESS, Completion.SHORT_PACKET. destruct (n - k =? 0); lia.
    + pose proof (served_moved (dci dir) p n _ _ _ _ _ ltac:(lia) Hsv). lia.
    + replace ((done_code (n - k) =? 1) || (done_code (n - k) =? 13)) with true by (unfold done_code; by destruct (n - k =? 0)).
      replace (n - (n - k)) with k by lia. intros s' Hs'' Eh. apply HQ; [done|]. split; [done|]. rewrite Eh. split; [done|]. split; [done|].
      split; [done|]. exists mem'. split; [done|]. intros q Hq.
      etransitivity; [apply post_event_mem; [done|by apply outside_events]|]. by apply Hmem'.
  - apply Hsilent; try done.
    + apply upd_same.
    + apply upd_other, dci_ne.
    + intros [_ Hw]. by apply (willing_frame dir p n _ _ mem1 Hc Hout) in Hno.
  - set (m1 := halt (dci dir) (next_fate (set_mem mem1 (msc_host t)))).
    apply (wp_answered dir n t r' (h ++ transfer_td p n) m1 _ code 0); try done; try lia.
    + change (mc_halted m1 (dci dir)) with (upd (mc_halted (msc_host t)) (dci dir) true (dci dir)). by rewrite upd_same.
    + apply upd_other, dci_ne.
    + replace ((code =? 1) || (code =? 13)) with false by lia. intros s' Hs'' Eh. apply HX; [done|]. unfold failed. rewrite Eh. split; [done|].
      split; [apply upd_same|]. split; [done|]. split.
      * intros q Hq. etransitivity; [apply post_event_mem; [done|by apply outside_events]|]. by apply Hout.
      * intros [_ Hw]. by apply (willing_frame dir p n _ _ mem1 Hc Hout) in Hno.
Qed.

Lemma bulk_eq (dir : bool) buf n :
  bulk dir buf n = sbind (on_usb (queue_transfer (ep_of dir) dir buf n)) (fun _ => wait_transfer (dci dir) n).
Proof.
  unfold bulk, bulk_in, bulk_out, dci, dci_of, ep_of, as_u8. destruct dir; rewrite ?Z.add_0_r, Z.mod_small by lia; done.
Qed.

Lemma wp_bulk dir buf n t Q X :
  inv (m_sys t) -> clear (phys buf) n -> 0 <= phys buf -> phys buf + n <= 2 ^ 64 -> 0 < n <= 2 ^ 22 ->
  (forall s' k, inv s' -> transferred dir (phys buf) n k (m_sys t) s' -> Q k (with_sys s' t)) ->
  (forall e s', inv s' -> failed dir (phys buf) n (m_sys t) s' -> X e (with_sys s' t)) ->
  wp (bulk dir buf n) Q X t.
Proof.
  intros Hinv Hc Hp H64 Hn HQ HX. rewrite bulk_eq. apply wp_bind, wp_on_usb.
  eapply wp_mono; [apply (wp_bulk_queue dir buf n (m_sys t) (fun _ _ => False)); done || lia| |done].
  cbn beta. intros _ s1 (r & h & r' & mem1 & Hm & Hm' & Hh & Hst & Hh' & Hmem & ->).
  by apply (wp_bulk_wait dir (phys buf) n t r h r' mem1).
Qed.

(** ** Allocation *)

Definition live t : list (Z * Z) := frame_live (ds_frames (mc_dma (msc_host t))).

(** The rings lie in live blocks. *)
Definition backed (L : list (Z * Z)) : Prop :=
  Forall (fun '(q, k) => exists b n, (b, n) ∈ L /\ b <= q /\ q + k <= b + n) areas.

Lemma backed_mono L L' : L ⊆ L' -> backed L -> backed L'.
Proof.
  intros Hs Hb. unfold backed in *. eapply Forall_impl; [exact Hb|]. intros [q k] (b & n & Hin & Hi). exists b, n. split; [by apply Hs|done].
Qed.

(** The block of a DMA buffer. *)
Definition block (buf : PhysMem) : Z * Z := (phys buf, (dma_layout align_up (pm_size buf) (pm_align buf)).1).

Lemma fresh_clear L a size n :
  backed L -> Forall (fun '(b, k) => a + size <= b \/ b + k <= a) L -> n <= size -> clear a n.
Proof.
  intros Hb Hf Hn. unfold clear, backed in *. eapply Forall_impl; [exact Hb|]. intros [q k] (b & k' & Hin & Hle).
  rewrite Forall_forall in Hf. specialize (Hf _ Hin). cbn in Hf. unfold apart. lia.
Qed.

Definition frames t : F := ds_frames (mc_dma (msc_host t)).

(** Neither the device nor the endpoints nor the driver's records have moved. *)
Definition steady t t' : Prop :=
  mc_dev (msc_host t') = mc_dev (msc_host t) /\ mc_halted (msc_host t') = mc_halted (msc_host t) /\
  mc_fate (msc_host t') = mc_fate (msc_host t) /\ m_dev t' = m_dev t.

Definition buffer (size : Z) (buf : PhysMem) : Prop :=
  pm_size buf = size /\ pm_align buf = 64 /\ 0 <= phys buf /\ phys buf + size <= 2 ^ 64 /\ clear (phys buf) size /\
  (size <= 65536 -> phys buf mod 65536 + size <= 65536).

(** The alignment of [HermitDma]: up to 64 KiB never cross a 64 KiB boundary. *)
Lemma aligned_block a size n al :
  dma_layout align_up size 64 = (n, al) -> a mod al = 0 -> size <= 65536 -> a mod 65536 + size <= 65536.
Proof.
  intros [= _ <-] Ha Hs. destruct (4096 <? size) eqn:E; bool_to_prop.
  - change (Z.max 64 65536) with 65536 in Ha. lia.
  - change (Z.max 64 4096) with 4096 in Ha. pose proof (Z.div_mod a 4096 ltac:(lia)).
    pose proof (Z.div_mod a 65536 ltac:(lia)). pose proof (Z.mod_pos_bound a 65536 eq_refl). lia.
Qed.

Lemma single_block p n : 0 < n -> p mod 65536 + n <= 65536 -> single p n = true.
Proof.
  intros Hn Hb. unfold single, one_trb, transfer_td. guard_false (n =? 0). unfold chunk_fuel.
  assert (exists k, Z.to_nat (n / 65536 + 2) = S (S k)) as [k ->].
  { exists (Z.to_nat (n / 65536)). pose proof (Z.div_pos n 65536 ltac:(lia) eq_refl). lia. }
  cbn [td_trbs]. replace (0 <? n) with true by lia.
  rewrite (Z.min_l n) by lia. rewrite Z.sub_diag. done.
Qed.

Lemma wp_alloc size t Q X :
  inv (m_sys t) -> backed (live t) -> 0 < size <= 2 ^ 22 ->
  (forall buf t', inv (m_sys t') -> steady t t' -> buffer size buf -> live t' ≡ₚ block buf :: live t ->
     (forall n, frame_room (S n) (frames t) -> frame_room n (frames t')) -> Q buf t') ->
  (forall t', inv (m_sys t') -> steady t t' -> live t' ≡ₚ live t -> (forall n, ~ frame_room (S n) (frames t)) -> X OoRam t') ->
  wp (on_dma (phys_alloc size 64)) Q X t.
Proof.
  intros Hinv Hb Hs HQ HX. unfold on_dma. apply wp_on_usb, wp_on_mem.
  change (sys_host (m_sys t)) with (msc_host t).
  destruct (dma_layout align_up size 64) as [n al] eqn:El.
  destruct (dma_layout_ok align_up Halign size 64 n al Hs eq_refl El) as (Hal & _ & Hn & _).
  destruct (frame_allocate n al (frames t)) as [f' [a|]] eqn:Ea.
  - destruct (frame_fresh n al (frames t) f' a ltac:(lia) ltac:(lia) Ea) as (Hmod & Ha & Hend & Hperm & Hfresh).
    set (m' := mem_write (a + hw_offset hw) (zeros size)
                 (set_dma (mkDmaState f' (put a (zeros n) (mc_mem (msc_host t)))) (msc_host t))).
    assert (phys_alloc size 64 (msc_host t) = (m', Ok (mkPhysMem (a + hw_offset hw) size 64))) as E.
    { unfold phys_alloc, sbind, lift_w. cbn [host_alloc msc_io Machine_io]. unfold dma_alloc. rewrite El.
      unfold frames in Ea. by rewrite Ea. }
    eapply wp_ok; [exact E|].
    assert (phys (mkPhysMem (a + hw_offset hw) size 64) = a) as Ep
      by (unfold phys; cbn; unfold dma_virt_to_phys, phys_addr_from; lia).
    pose proof (fresh_clear _ _ _ _ Hb Hfresh (Z.le_refl n)) as Hclear.
    apply HQ; [|done| | |].
    + apply inv_undisturbed; [done|]. split; [done|]. split; [done|]. split; [done|]. intros q k Hqk p Hp.
      unfold clear in Hclear. rewrite Forall_forall in Hclear. specialize (Hclear _ Hqk). cbn in Hclear. unfold apart in Hclear.
      unfold m'. cbn [mem_write msc_io Machine_io]. unfold mc_mem at 1. cbn [set_mem mc_dma ds_mem].
      rewrite put_out by (rewrite zlen_zeros; lia). etransitivity; [apply put_out; rewrite zlen_zeros; lia|done].
    + unfold buffer. rewrite Ep. split; [done|]. split; [done|]. split; [done|]. split; [lia|].
      split; [apply (fresh_clear _ _ _ _ Hb Hfresh); lia|]. by eapply aligned_block.
    + unfold block. rewrite Ep. cbn [pm_size pm_align]. rewrite El. exact Hperm.
    + intros k Hr. eapply (room_allocate k n al (frames t)); [exact Hr|lia|lia|exact Ea].
  - assert (phys_alloc size 64 (msc_host t) = (set_dma (mkDmaState f' (mc_mem (msc_host t))) (msc_host t), Err OoRam)) as E.
    { unfold phys_alloc, sbind, lift_w. cbn [host_alloc msc_io Machine_io]. unfold dma_alloc. rewrite El.
      unfold frames in Ea. by rewrite Ea. }
    eapply wp_err; [exact E|]. apply HX; [by apply inv_undisturbed|done|by apply (frame_none n al)|].
    intros k Hr. destruct (room_allocate k n al (frames t) f' None Hr) as [? _]; done || lia.
Qed.

Lemma wp_free buf t Q X L :
  inv (m_sys t) -> live t ≡ₚ block buf :: L ->
  (forall t', inv (m_sys t') -> steady t t' -> live t' ≡ₚ L ->
     (forall n, frame_room n (frames t) -> frame_room (S n) (frames t')) -> Q tt t') ->
  wp (on_dma (phys_free buf)) Q X t.
Proof.
  intros Hinv HL HQ. unfold on_dma. apply wp_on_usb, wp_on_mem, wp_modify.
  assert (block buf ∈ live t) as Hin by (rewrite HL; by left).
  pose proof (frame_back _ _ _ Hin) as Hback. fold (live t) in Hback. rewrite HL in Hback.
  apply Permutation_cons_inv in Hback.
  assert (frames (with_sys (set_sys_host (host_free (pm_addr buf) (pm_size buf) (pm_align buf) (sys_host (m_sys t))) (m_sys t)) t)
          = frame_deallocate (block buf).1 ((block buf).1 + (block buf).2) (frames t)) as Ef.
  { unfold frames, msc_host, sys_host. cbn. unfold dma_free, block. by destruct (dma_layout align_up _ _). }
  apply HQ; [by apply inv_undisturbed|done| |].
  - unfold live. fold (frames (with_sys (set_sys_host (host_free (pm_addr buf) (pm_size buf) (pm_align buf) (sys_host (m_sys t))) (m_sys t)) t)).
    rewrite Ef. by symmetry.
  - intros n Hr. rewrite Ef. by apply room_deallocate.
Qed.

(** ** The stages of a command *)

(** No transfer is going to fail. *)
Definition sound t : Prop :=
  (forall dir, mc_halted (msc_host t) (dci dir) = false) /\ Forall (fun f => f = Served) (mc_fate (msc_host t)).

Definition advanced t t' : Prop :=
  inv (m_sys t') /\ mc_halted (msc_host t') = mc_halted (msc_host t) /\ frames t' = frames t /\ m_dev t' = m_dev t /\
  (sound t -> sound t').

Definition broken dir t t' : Prop :=
  inv (m_sys t') /\ mc_dev (msc_host t') = mc_dev (msc_host t) /\ mc_halted (msc_host t') (dci dir) = true /\
  frames t' = frames t /\ m_dev t' = m_dev t.

Lemma transferred_advanced dir p n k s' t :
  inv s' -> transferred dir p n k (m_sys t) s' -> advanced t (with_sys s' t).
Proof.
  intros Hi (_ & Hh & Hf & Hfr & _). split; [done|]. split; [done|]. split; [done|]. split; [done|].
  intros [Ha Hs]. split; [intros dir'; unfold msc_host in *; cbn; by rewrite Hh|]. unfold msc_host in *. cbn. rewrite Hf.
  by destruct Hs.
Qed.

Lemma sound_willing (dir : bool) p n t :
  sound t -> (if dir then exists data pd, answers n (single p n) (mc_dev (msc_host t)) data pd
              else bot_out (mem_load (mc_mem (msc_host t)) p n) (mc_dev (msc_host t)) <> None) ->
  mc_halted (msc_host t) (dci dir) = false /\ willing (dci dir) p n (single p n) (msc_host t).
Proof.
  intros [Ha Hs] Hb. split; [done|]. split; [by destruct Hs as [|f l ->]|]. by rewrite dci_odd; destruct dir.
Qed.

Lemma wp_send n buf b t Q X :
  inv (m_sys t) -> buffer n buf -> 0 < n <= 2 ^ 22 -> mem_load (mc_mem (msc_host t)) (phys buf) n = b ->
  (forall t', advanced t t' -> mc_halted (msc_host t) (dci false) = false ->
     bot_out b (mc_dev (msc_host t)) = Some (mc_dev (msc_host t')) -> Q n t') ->
  (forall e t', broken false t t' -> ~ (sound t /\ bot_out b (mc_dev (msc_host t)) <> None) -> X e t') ->
  wp (bulk false buf n) Q X t.
Proof.
  intros Hi (_ & _ & Hp & H64 & Hc & _) Hn Hb HQ HX. apply wp_bulk; try done.
  - intros s' k Hi' Ht. pose proof Ht as (Hal & _ & _ & _ & mem & Hs & _). unfold served in Hs. rewrite dci_odd in Hs.
    destruct Hs as (Hs & -> & _). apply HQ; [by eapply transferred_advanced|done|]. rewrite <- Hb. exact Hs.
  - intros e s' Hi' (Hd & Hh & Hf & Hm & Hw). apply HX; [done|]. intros [Hs Hne]. apply Hw.
    apply sound_willing; [done|]. by rewrite Hb.
Qed.

Lemma wp_receive n buf t Q X :
  inv (m_sys t) -> buffer n buf -> 0 < n <= 2 ^ 22 ->
  (forall t' data, advanced t t' -> mc_halted (msc_host t) (dci true) = false ->
     bot_in n (mc_dev (msc_host t)) = Some (data, mc_dev (msc_host t')) ->
     mem_load (mc_mem (msc_host t')) (phys buf) (zlen data) = data -> Q (zlen data) t') ->
  (forall e t', broken true t t' ->
     ~ (sound t /\ exists data pd, bot_in n (mc_dev (msc_host t)) = Some (data, pd) /\ (n <= 65536 \/ zlen data = n)) -> X e t') ->
  wp (bulk true buf n) Q X t.
Proof.
  intros Hi (_ & _ & Hp & H64 & Hc & H1blk) Hn HQ HX. apply wp_bulk; try done.
  - intros s' k Hi' Ht. pose proof Ht as (Hal & _ & _ & _ & mem & Hs & Hm). unfold served in Hs. rewrite dci_odd in Hs.
    destruct Hs as (data & [Hd _] & -> & Hq). apply (HQ _ data); [by eapply transferred_advanced|done|exact Hd|].
    pose proof (bot_in_len _ _ _ _ Hd) as Hl. rewrite <- (mem_load_put (mc_mem (msc_host t)) (phys buf) data (zlen data)) at 2 by done.
    apply mem_load_ext. intros q Hr. rewrite <- Hq. apply Hm. eapply clear_outside; [exact Hc|lia].
  - intros e s' Hi' (Hd & Hh & Hf & Hm & Hw). apply HX; [done|]. intros [Hs (data & pd & Hbot & Hor)]. apply Hw.
    apply sound_willing; [done|]. exists data, pd. split; [done|]. destruct Hor as [Hle|]; [right|by left].
    apply single_block; [lia|auto].
Qed.

(** Writing a buffer, and reading one. *)
Lemma wp_fill n buf b t Q X :
  inv (m_sys t) -> buffer n buf -> zlen b = n ->
  (forall t', inv (m_sys t') -> steady t t' -> frames t' = frames t ->
     mem_load (mc_mem (msc_host t')) (phys buf) n = b -> Q tt t') ->
  wp (on_dma (smodify (mem_write (pm_addr buf) b))) Q X t.
Proof.
  intros Hi (_ & _ & Hp & H64 & Hc & _) Hb HQ. unfold on_dma. apply wp_on_usb, wp_on_mem, wp_modify. apply HQ; [|done|done|].
  - apply inv_undisturbed; [done|]. do 3 (split; [done|]). intros q k Hqk a Ha. unfold clear in Hc.
    rewrite Forall_forall in Hc. specialize (Hc _ Hqk). cbn beta iota in Hc. unfold apart in Hc. unfold mc_mem at 1.
    cbn [mem_write msc_io Machine_io set_mem mc_dma ds_mem].
    apply put_out. change (pm_addr buf - hw_offset hw) with (phys buf). lia.
  - by apply (mem_load_put (mc_mem (msc_host t))).
Qed.

Lemma wp_read_back n buf t (Q : bytes -> MscSys (Machine F D) -> Prop) X :
  Q (mem_load (mc_mem (msc_host t)) (phys buf) n) t -> wp (on_dma (lift_w (mem_read (pm_addr buf) n))) Q X t.
Proof. intros HQ. unfold on_dma. apply wp_on_usb, wp_on_mem. eapply wp_ok; [done|]. by destruct t as [[[]]]. Qed.

(** ** A whole command *)

Definition sending (ph : Phase) : Prop := match ph with SendData _ _ _ | SendStatus _ _ _ => True | _ => False end.

(** Unless an endpoint is halted the device waits for a command; if only the IN endpoint
    is, it is stuck with something to send. *)
Definition synced (d : D) t : Prop :=
  exists ph, mc_dev (msc_host t) = (ph, d) /\
    (mc_halted (msc_host t) (dci false) = false -> if mc_halted (msc_host t) (dci true) then sending ph else ph = Ready).

(** The driver and the device between commands, with the blocks [L] allocated. *)
Record good (L : list (Z * Z)) (d : D) t : Prop := {
  good_inv : inv (m_sys t);
  good_backed : backed L;
  good_live : live t ≡ₚ L;
  good_synced : synced d t;
  good_in : md_ep_in (m_dev t) = ein;
  good_out : md_ep_out (m_dev t) = eout;
  good_tag : u32 (md_tag (m_dev t));
}.

(** Nothing is going to fail. *)
Definition works t : Prop := sound t /\ frame_room 3 (frames t).

(** What the device makes of a command: the bytes that move, the caller's buffer after it,
    where a short answer fills the front, and the status. *)
Definition exec (lun : Z) (cdb : bytes) (data : option bytes) (dir : bool) (d : D) : D * (Z * option bytes * Z) :=
  match data with
  | Some b =>
      if zlen b =? 0 then let '(d, st) := exec_out lun cdb [] d in (d, (0, data, st))
      else if dir then
        let '(d, (a, st)) := exec_in lun cdb (zlen b) d in (d, (zlen a, Some (a ++ zdrop (zlen a) b), st))
      else let '(d, st) := exec_out lun cdb b d in (d, (zlen b, data, st))
  | None => let '(d, st) := exec_out lun cdb [] d in (d, (0, None, st))
  end.

Definition opt_block (o : option PhysMem) : list (Z * Z) := match o with Some b => [block b] | None => [] end.

Lemma wp_free_opt o t Q X L :
  inv (m_sys t) -> live t ≡ₚ opt_block o ++ L ->
  (forall t', inv (m_sys t') -> steady t t' -> live t' ≡ₚ L ->
     (forall n, frame_room n (frames t) -> frame_room (length (opt_block o) + n) (frames t')) -> Q tt t') ->
  wp (on_dma (free_opt o)) Q X t.
Proof.
  intros Hi HL HQ. destruct o as [b|]; [by apply (wp_free b t Q X L)|].
  unfold on_dma, free_opt. apply wp_on_usb, wp_on_mem, wp_ret. apply HQ; [|by destruct t as [[[]]]..].
  by destruct t as [[[]]].
Qed.

Lemma steady_sound t t' : steady t t' -> sound t -> sound t'.
Proof. intros (_ & Hh & Hf & _) [Ha Hs]. split; [intros dir; by rewrite Hh|by rewrite Hf]. Qed.

Lemma steady_synced d t t' : steady t t' -> synced d t -> synced d t'.
Proof. intros (Hd & Hh & _ & _) (ph & Hp & Hs). exists ph. rewrite Hd, Hh. done. Qed.

(** The status stage and the release of the buffers. *)
Definition finish (cbw_buf csw_buf : PhysMem) (data_buf : option PhysMem) (result : Z * option bytes) : MSM (Machine F D) (Z * option bytes) :=
  let! _ := bulk_in ein csw_buf 13 in
  let! b := on_dma (lift_w (mem_read (pm_addr csw_buf) 13)) in
  let csw := csw_of b in
  let! _ := on_dma (phys_free cbw_buf) in
  let! _ := on_dma (phys_free csw_buf) in
  let! _ := on_dma (free_opt data_buf) in
  if negb (csw_is_ok csw) then sfail (XferFail (csw_status csw)) else sret result.

Lemma wp_finish cbw_buf csw_buf data_buf result t tag res st d L Q X :
  inv (m_sys t) -> buffer 13 csw_buf -> live t ≡ₚ block cbw_buf :: block csw_buf :: opt_block data_buf ++ L ->
  backed L -> mc_dev (msc_host t) = (SendStatus tag res st, d) -> 0 <= st < 256 ->
  md_ep_in (m_dev t) = ein -> md_ep_out (m_dev t) = eout -> u32 (md_tag (m_dev t)) ->
  (forall t', good L d t' -> (sound t -> sound t') ->
     (forall n, frame_room n (frames t) -> frame_room (length (opt_block data_buf) + S (S n)) (frames t')) ->
     if st =? 0 then Q result t' else X (XferFail st) t') ->
  (forall e t', good (block cbw_buf :: block csw_buf :: opt_block data_buf ++ L) d t' -> ~ sound t -> X e t') ->
  wp (finish cbw_buf csw_buf data_buf result) Q X t.
Proof.
  intros Hi Hb HL Hbk Hd Hst He1 He2 Htag HQ HX. unfold finish. apply wp_bind. change (bulk_in ein csw_buf 13) with (bulk true csw_buf 13).
  apply wp_receive; [done|done|lia| |].
  - intros t1 data (Hi1 & Hh1 & Hf1 & Hm1 & Hs1) Hal Hbot Hload. rewrite Hd in Hbot. cbn in Hbot. injection Hbot as <- Hdev.
    change (zlen (csw_bytes tag res st)) with 13 in Hload.
    apply wp_bind, wp_read_back. rewrite Hload. destruct (csw_roundtrip tag res st Hst) as (_ & Hsig & Hstat).
    apply wp_bind. assert (live t1 = live t) as El by (unfold live; fold (frames t1) (frames t); by rewrite Hf1).
    rewrite <- El in HL.
    apply (wp_free cbw_buf t1 _ _ (block csw_buf :: opt_block data_buf ++ L)); [done|done|].
    intros t2 Hi2 Hs2 HL2 Hr2. apply wp_bind. apply (wp_free csw_buf t2 _ _ (opt_block data_buf ++ L)); [done|done|].
    intros t3 Hi3 Hs3 HL3 Hr3. apply wp_bind. apply (wp_free_opt data_buf t3 _ _ L); [done|done|].
    intros t4 Hi4 Hs4 HL4 Hr4.
    assert (good L d t4) as Hg.
    { destruct Hs2 as (Hd2 & Hh2 & _ & Hm2), Hs3 as (Hd3 & Hh3 & _ & Hm3), Hs4 as (Hd4 & Hh4 & _ & Hm4).
      split; try done; try congruence.
      exists Ready. split; [congruence|]. intros _. by rewrite Hh4, Hh3, Hh2, Hh1, Hal. }
    assert (sound t -> sound t4) as Hs by (intros ?; by eapply steady_sound, steady_sound, steady_sound, Hs1).
    specialize (HQ t4 Hg Hs). assert (csw_is_ok (csw_of (csw_bytes tag res st)) = (st =? 0)) as ->
      by (unfold csw_is_ok; rewrite Hsig, Hstat, Z.eqb_refl; done).
    rewrite Hstat.
    assert (forall n, frame_room n (frames t) -> frame_room (length (opt_block data_buf) + S (S n)) (frames t4)) as Hroom.
    { intros n Hn. rewrite <- Hf1 in Hn. by apply Hr4, Hr3, Hr2. }
    specialize (HQ Hroom). destruct (st =? 0); [by apply wp_ret|by apply wp_fail].
  - intros e t1 (Hi1 & Hd1 & Hh1 & Hf1 & Hm1) Hno. apply HX.
    + split; try done; try congruence.
      * eapply backed_mono; [|exact Hbk]. intros x Hx. do 2 right. apply elem_of_app. by right.
      * unfold live. fold (frames t1). by rewrite Hf1.
      * exists (SendStatus tag res st). rewrite Hd1, Hd. split; [done|]. by rewrite Hh1.
    + intros Hs. apply Hno. split; [done|]. rewrite Hd. cbn. eexists _, _. split; [done|]. by right.
Qed.

(** The device right after it has taken the command. *)
Definition started (c : Command) (d : D) : Phase * D :=
  if cm_len c =? 0 then let '(d, st) := exec_out (cm_lun c) (cm_cdb c) [] d in (SendStatus (cm_tag c) 0 st, d)
  else if cm_in c then
    let '(d, (b, st)) := exec_in (cm_lun c) (cm_cdb c) (cm_len c) d in (SendData b (cm_tag c) st, d)
  else (ReceiveData c, d).

Lemma bot_out_started b c (d : D) : decode_cbw b = Some c -> bot_out b (Ready, d) = Some (started c d).
Proof.
  intros Hd. unfold bot_out, started. rewrite Hd. destruct (cm_len c =? 0); [by destruct (exec_out _ _ _ _)|].
  destruct (cm_in c); [by destruct (exec_in _ _ _ _) as [? []]|done].
Qed.

(** The command stage: the device takes the command, or the OUT endpoint is halted. *)
Lemma wp_command buf b c t d Q X :
  inv (m_sys t) -> buffer 31 buf -> mem_load (mc_mem (msc_host t)) (phys buf) 31 = b -> decode_cbw b = Some c -> synced d t ->
  (forall t', advanced t t' -> mc_dev (msc_host t') = started c d -> (forall dir, mc_halted (msc_host t') (dci dir) = false) -> Q 31 t') ->
  (forall e t', broken false t t' -> synced d t' -> ~ sound t -> X e t') ->
  wp (bulk false buf 31) Q X t.
Proof.
  intros Hi Hb Hl Hdec (ph & Hd & Hs) HQ HX. eapply wp_send; [done|done|lia|exact Hl| |].
  - intros t' Ha Hal Hbot. specialize (Hs Hal). rewrite Hd in Hbot.
    destruct (mc_halted (msc_host t) (dci true)) eqn:Hin; [by destruct ph|]. subst ph.
    rewrite (bot_out_started b c d Hdec) in Hbot. injection Hbot as Hbot. apply HQ; [done|done|].
    destruct Ha as (_ & -> & _). by intros [].
  - intros e t' Hbr Hno. apply HX; [done| |].
    + destruct Hbr as (_ & Hd' & Hh & _). exists ph. rewrite Hd'. split; [done|]. congruence.
    + intros Hs'. apply Hno. split; [done|]. destruct Hs' as [Hh _]. specialize (Hs (Hh false)). rewrite (Hh true) in Hs.
      rewrite Hd, Hs, (bot_out_started b c d Hdec). done.
Qed.

(** [scsi_command] after its allocations. *)
Definition run_stages (lun : Z) (cdb : bytes) (data : option bytes) (dir : bool) (cbw_buf csw_buf : PhysMem)
    (data_buf : option PhysMem) : MSM (Machine F D) (Z * option bytes) :=
  let data_len := match data with Some d => zlen d | None => 0 end in
  let! dev := sgets m_dev in
  let cbw := cbw_new (md_tag dev) (as_u32 data_len) dir lun cdb in
  let! _ := smodify (set_tag (as_u32 (md_tag dev + 1))) in
  let! _ := on_dma (smodify (mem_write (pm_addr cbw_buf) (cbw_bytes cbw))) in
  let! _ := bulk_out (md_ep_out dev) cbw_buf 31 in
  let! (transferred, data) :=
    match data_buf, data with
    | Some buf, Some d =>
        let! (len, d) := data_stage dev buf d dir in sret (len, Some d)
    | _, _ => sret (0, data)
    end in
  let! _ := bulk_in (md_ep_in dev) csw_buf 13 in
  let! b := on_dma (lift_w (mem_read (pm_addr csw_buf) 13)) in
  let csw := csw_of b in
  let! _ := on_dma (phys_free cbw_buf) in
  let! _ := on_dma (phys_free csw_buf) in
  let! _ := on_dma (free_opt data_buf) in
  if negb (csw_is_ok csw) then sfail (XferFail (csw_status csw)) else sret (transferred, data).

Lemma scsi_command_eq lun cdb data dir :
  scsi_command lun cdb data dir =
  (let! cbw_buf := on_dma (phys_alloc 31 64) in
   let! csw_buf := on_dma (phys_alloc 13 64) in
   let! data_buf :=
     if 0 <? (match data with Some d => zlen d | None => 0 end)
     then let! b := on_dma (phys_alloc (match data with Some d => zlen d | None => 0 end) 64) in sret (Some b) else sret None in
   run_stages lun cdb data dir cbw_buf csw_buf data_buf).
Proof. done. Qed.

(** Data in the buffer it was allocated for. *)
Definition data_buffer (data : option bytes) (o : option PhysMem) : Prop :=
  match data, o with
  | Some b, Some buf => 0 < zlen b <= 2 ^ 22 /\ buffer (zlen b) buf
  | Some b, None => zlen b = 0
  | None, None => True
  | None, Some _ => False
  end.

(** The result of a command, and an error of it: the device has executed it or not, the
    buffers may be lost; when nothing can fail, it has, they are not, and the error is the
    status the device reported. *)
Definition ok_post t0 L d' out st n (r : Z * option bytes) t : Prop :=
  st = 0 /\ r = (n, out) /\ good L d' t /\ (works t0 -> works t).
Definition err_post t0 L d d' st (e : UsbError) t : Prop :=
  exists d1 L', (d1 = d \/ d1 = d') /\ L ⊆ L' /\ good L' d1 t /\
    (works t0 -> st <> 0 /\ e = XferFail st /\ d1 = d' /\ L' = L /\ works t).

Lemma wp_data_stage dev buf b (dir : bool) c t d d' n out st Q X :
  inv (m_sys t) -> buffer (zlen b) buf -> 0 < zlen b <= 2 ^ 22 -> md_ep_in dev = ein -> md_ep_out dev = eout ->
  mc_dev (msc_host t) = started c d -> (forall dir, mc_halted (msc_host t) (dci dir) = false) ->
  cm_in c = dir -> cm_len c = zlen b -> exec (cm_lun c) (cm_cdb c) (Some b) dir d = (d', (n, out, st)) ->
  zlen b <= 65536 \/ n = zlen b ->
  (forall t' b' res, advanced t t' -> out = Some b' -> mc_dev (msc_host t') = (SendStatus (cm_tag c) res st, d') -> Q (n, b') t') ->
  (forall e t' d1, inv (m_sys t') -> frames t' = frames t -> m_dev t' = m_dev t -> d1 = d \/ d1 = d' -> synced d1 t' -> ~ sound t -> X e t') ->
  wp (data_stage dev buf b dir) Q X t.
Proof.
  intros Hi Hb Hn He1 He2 Hdev Hal Hdir Hlen Hex Hshort HQ HX. unfold data_stage, exec, started in *.
  rewrite Hlen, Hdir in Hdev. replace (zlen b =? 0) with false in * by lia. destruct dir.
  - destruct (exec_in (cm_lun c) (cm_cdb c) (zlen b) d) as [d2 [b2 st2]] eqn:E. injection Hex as <- <- <- <-.
    destruct (exec_in_len _ _ _ _ _ _ _ (zlen_nonneg b) E) as [Hl2 _].
    rewrite He1. apply wp_bind. change (bulk_in ein buf (zlen b)) with (bulk true buf (zlen b)). apply wp_receive; try done.
    + intros t' data Ha _ Hbot Hload. rewrite Hdev in Hbot. cbn in Hbot. replace (zlen b2 <=? zlen b) with true in Hbot by lia.
      injection Hbot as Hb2 Hd2. subst b2. rewrite Z.min_l by lia. apply wp_bind, wp_read_back, wp_ret. rewrite Hload.
      by eapply HQ.
    + intros e t' (Hi' & Hd' & Hh' & Hf' & Hm') Hno. apply (HX e t' d2); try done; [by right| |].
      * exists (SendData b2 (cm_tag c) st2). rewrite Hd'. split; [done|]. by rewrite Hh'.
      * intros Hs. apply Hno. split; [done|]. rewrite Hdev. cbn. replace (zlen b2 <=? zlen b) with true by lia. eauto.
  - destruct (exec_out (cm_lun c) (cm_cdb c) b d) as [d2 st2] eqn:E. injection Hex as <- <- <- <-.
    rewrite He2. apply wp_bind. apply (wp_fill (zlen b)); [done|done|done|]. intros t1 Hi1 (Hd1 & Hh1 & Hf1 & Hm1) Hfr1 Hload.
    assert (sound t <-> sound t1) as Hsnd.
    { unfold sound. rewrite Hh1, Hf1. done. }
    apply wp_bind. change (bulk_out eout buf (zlen b)) with (bulk false buf (zlen b)). eapply wp_send; [done|done|done|exact Hload| |].
    + intros t2 (Hi2 & Hh2 & Hfr2 & Hm2 & Hs2) _ Hbot. apply wp_ret. rewrite Hd1, Hdev in Hbot. cbn in Hbot.
      rewrite Hlen, Z.eqb_refl, E in Hbot. injection Hbot as Hbot. eapply HQ; [|done|done].
      split; [done|]. split; [congruence|]. split; [congruence|]. split; [congruence|]. tauto.
    + intros e t2 (Hi2 & Hd2 & Hh2 & Hfr2 & Hm2) Hno. apply (HX e t2 d); try congruence; [by left| |].
      * exists (ReceiveData c). split; [congruence|]. rewrite Hh2. done.
      * intros Hs. apply Hno. split; [tauto|]. rewrite Hd1, Hdev. cbn. by rewrite Hlen, Z.eqb_refl, E.
Qed.

Lemma exec_status lun cdb data dir d d' n out st : exec lun cdb data dir d = (d', (n, out, st)) -> 0 <= st < 256.
Proof.
  unfold exec. destruct data as [b|].
  - destruct (zlen b =? 0); [|destruct dir].
    + destruct (exec_out lun cdb [] d) as [d1 s1] eqn:E. intros [= <- <- <- <-]. by eapply exec_out_status.
    + destruct (exec_in lun cdb (zlen b) d) as [d1 [b1 s1]] eqn:E. intros [= <- <- <- <-].
      by apply (exec_in_len _ _ _ _ _ _ _ (zlen_nonneg b) E).
    + destruct (exec_out lun cdb b d) as [d1 s1] eqn:E. intros [= <- <- <- <-]. by eapply exec_out_status.
  - destruct (exec_out lun cdb [] d) as [d1 s1] eqn:E. intros [= <- <- <- <-]. by eapply exec_out_status.
Qed.

Definition data_len (data : option bytes) : Z := match data with Some b => zlen b | None => 0 end.

(** Without data the device goes on to the status at once. *)
Lemma started_no_data c data d d' n out st :
  cm_len c = 0 -> data_len data = 0 -> exec (cm_lun c) (cm_cdb c) data (cm_in c) d = (d', (n, out, st)) ->
  started c d = (SendStatus (cm_tag c) 0 st, d') /\ n = 0 /\ out = data.
Proof.
  intros Hc Hl. unfold exec, started. rewrite Hc. cbn [Z.eqb]. destruct data as [b|].
  - cbn in Hl. rewrite Hl. cbn [Z.eqb]. destruct (exec_out _ _ _ _) as [d1 s1]. by intros [= <- <- <- <-].
  - destruct (exec_out _ _ _ _) as [d1 s1]. by intros [= <- <- <- <-].
Qed.

Definition Lbufs (cbw_buf csw_buf : PhysMem) (data_buf : option PhysMem) (L : list (Z * Z)) : list (Z * Z) :=
  block cbw_buf :: block csw_buf :: opt_block data_buf ++ L.

Lemma Lbufs_sub cbw_buf csw_buf data_buf L : L ⊆ Lbufs cbw_buf csw_buf data_buf L.
Proof. intros x Hx. do 2 right. apply elem_of_app. by right. Qed.

Lemma good_leaked cbw_buf csw_buf data_buf L d t t' :
  inv (m_sys t') -> backed L -> live t ≡ₚ Lbufs cbw_buf csw_buf data_buf L -> frames t' = frames t -> synced d t' ->
  md_ep_in (m_dev t') = ein -> md_ep_out (m_dev t') = eout -> u32 (md_tag (m_dev t')) ->
  good (Lbufs cbw_buf csw_buf data_buf L) d t'.
Proof.
  intros Hi Hb HL Hf Hs H1' H2' H3'. split; try done; [by eapply backed_mono, Hb; apply Lbufs_sub|].
  unfold live. fold (frames t'). by rewrite Hf.
Qed.

Lemma wp_run_stages lun cdb data dir cbw_buf csw_buf data_buf t t0 L d d' n out st :
  inv (m_sys t) -> buffer 31 cbw_buf -> buffer 13 csw_buf -> data_buffer data data_buf ->
  live t ≡ₚ Lbufs cbw_buf csw_buf data_buf L -> backed L -> synced d t ->
  md_ep_in (m_dev t) = ein -> md_ep_out (m_dev t) = eout -> u32 (md_tag (m_dev t)) ->
  0 <= lun < 16 -> zlen cdb <= 16 -> exec lun cdb data dir d = (d', (n, out, st)) -> data_len data <= 65536 \/ n = data_len data ->
  (works t0 -> sound t /\ frame_room (1 - length (opt_block data_buf)) (frames t)) ->
  wp (run_stages lun cdb data dir cbw_buf csw_buf data_buf)
    (ok_post t0 L d' out st n) (err_post t0 L d d' st) t.
Proof.
  intros Hi Hcbw Hcsw Hdat HL Hbk Hsy He1 He2 Htag Hlun Hcdb Hex Hshort Hw.
  unfold run_stages. apply wp_bind, wp_gets, wp_bind, wp_modify.
  fold (data_len data). set (len := data_len data). set (t1 := set_tag _ t).
  assert (0 <= len <= 2 ^ 22) as Hlen.
  { unfold len, data_len. destruct data as [b|]; [|lia]. pose proof (zlen_nonneg b). destruct data_buf; cbn in Hdat; lia. }
  assert (as_u32 len = len) as -> by (apply Z.mod_small; lia).
  destruct (cbw_roundtrip (md_tag (m_dev t)) len dir lun cdb) as [Hcl Hdec]; [done|ulia|done|done|].
  set (c := mkCommand (md_tag (m_dev t)) len dir lun cdb) in *.
  assert (u32 (md_tag (m_dev t1))) as Htag1 by (cbn; unfold as_u32, u32, U32_MAX; pose proof (Z.mod_pos_bound (md_tag (m_dev t) + 1) 4294967296 eq_refl); lia).
  assert (md_ep_in (m_dev t1) = ein) as He11 by exact He1. assert (md_ep_out (m_dev t1) = eout) as He21 by exact He2.
  apply wp_bind. apply (wp_fill 31 _ _ t1); [exact Hi|done|done|]. intros t2 Hi2 Hs2 Hf2 Hl2.
  change (frames t1) with (frames t) in Hf2. rewrite He2. apply wp_bind. change (bulk_out eout cbw_buf 31) with (bulk false cbw_buf 31).
  assert (live t2 ≡ₚ Lbufs cbw_buf csw_buf data_buf L) as HL2 by (unfold live; fold (frames t2); rewrite Hf2; exact HL).
  pose proof Hs2 as (Hd2 & Hh2 & Hfa2 & Hm2).
  assert (sound t <-> sound t2) as Hsnd2 by (unfold sound; rewrite Hh2, Hfa2; done).
  eapply wp_command; [exact Hi2|done|exact Hl2|exact Hdec|by eapply steady_synced| |].
  2:{ intros e t3 (Hi3 & Hd3 & Hh3 & Hf3 & Hm3) Hsy3 Hno. exists d, (Lbufs cbw_buf csw_buf data_buf L).
      split; [by left|]. split; [apply Lbufs_sub|]. split; [|intros [Hs _]%Hw; tauto].
      apply (good_leaked _ _ _ _ _ t2); try done; congruence. }
  intros t3 (Hi3 & Hh3 & Hf3 & Hm3 & Hs3) Hdev3 Hal3.
  assert (live t3 ≡ₚ Lbufs cbw_buf csw_buf data_buf L) as HL3 by (unfold live; fold (frames t3); by rewrite Hf3).
  assert (m_dev t3 = m_dev t1) as Hm31 by congruence.
  apply wp_bind.
  apply (wp_mono _ (fun r t4 => r = (n, out) /\ inv (m_sys t4) /\ frames t4 = frames t /\ m_dev t4 = m_dev t1 /\
                      (sound t -> sound t4) /\ exists res, mc_dev (msc_host t4) = (SendStatus (cm_tag c) res st, d')) _ (err_post t0 L d d' st));
    [| |done].
  - destruct data_buf as [buf|], data as [b|]; cbn in Hdat; try done.
    + destruct Hdat as [Hn Hb]. apply wp_bind.
      apply (wp_data_stage (m_dev t) buf b dir c t3 d d' n out st); try done.
      * intros t4 b' res (Hi4 & _ & Hf4 & Hm4 & Hs4) -> Hdev4. apply wp_ret. split; [done|]. split; [done|]. split; [congruence|].
        split; [congruence|]. split; [tauto|by exists res].
      * intros e t4 d1 Hi4 Hf4 Hm4 Hd1 Hsy4 Hno. exists d1, (Lbufs cbw_buf csw_buf (Some buf) L).
        split; [done|]. split; [apply Lbufs_sub|]. split; [|intros [Hs _]%Hw; tauto].
        apply (good_leaked _ _ _ _ _ t3); try done; congruence.
    + apply wp_ret. destruct (started_no_data c (Some b) d d' n out st) as (Hst & -> & ->); [exact Hdat|exact Hdat|done|].
      split; [done|]. split; [done|]. split; [congruence|]. split; [done|]. split; [tauto|exists 0; congruence].
    + apply wp_ret. destruct (started_no_data c None d d' n out st) as (Hst & -> & ->); [done|done|done|].
      split; [done|]. split; [done|]. split; [congruence|]. split; [done|]. split; [tauto|exists 0; congruence].
  - intros r t4 (-> & Hi4 & Hf4 & Hm4 & Hs4 & res & Hdev4). cbn beta iota.
    rewrite He1. change (wp (finish cbw_buf csw_buf data_buf (n, out)) (ok_post t0 L d' out st n) (err_post t0 L d d' st) t4).
    apply (wp_finish cbw_buf csw_buf data_buf _ t4 (cm_tag c) res st d' L); try congruence; try done.
    + unfold live. fold (frames t4). rewrite Hf4. exact HL.
    + by eapply exec_status.
    + intros t5 Hg Hs5 Hr5. assert (works t0 -> works t5) as Hw5.
      { intros [Hs Hr]%Hw. split; [tauto|]. rewrite <- Hf4 in Hr. apply Hr5 in Hr. destruct data_buf; exact Hr. }
      destruct (st =? 0) eqn:Est; bool_to_prop; [by split|]. exists d', L. split; [by right|]. split; [done|]. split; [done|].
      intros Hw0. split_and!; try done. by apply Hw5.
    + intros e t5 Hg Hno. exists d', (Lbufs cbw_buf csw_buf data_buf L). split; [by right|]. split; [apply Lbufs_sub|].
      split; [done|]. intros [Hs _]%Hw. tauto.
Qed.

(** An allocation that fails leaves everything as it was but the blocks allocated before. *)
Lemma oom_post t0 t L0 L d d' st :
  good L0 d t0 -> L0 ⊆ L -> inv (m_sys t) -> steady t0 t -> live t ≡ₚ L -> ~ works t0 -> err_post t0 L0 d d' st OoRam t.
Proof.
  intros [Hi Hb HL Hs He1 He2 Ht] Hsub Hi' Hst HL' Hno. exists d, L. split; [by left|]. split; [done|].
  split; [|by intros ?%Hno]. pose proof Hst as (_ & _ & _ & Hm). split; try done; try congruence.
  - by eapply backed_mono.
  - by eapply steady_synced.
Qed.

Lemma steady_trans t1 t2 t3 : steady t1 t2 -> steady t2 t3 -> steady t1 t3.
Proof. intros (Ha & Hb & Hc & Hd) (Ha' & Hb' & Hc' & Hd'). repeat split; congruence. Qed.

Lemma wp_scsi_command lun cdb data dir t L d d' n out st :
  good L d t -> 0 <= lun < 16 -> zlen cdb <= 16 -> data_len data <= 2 ^ 22 ->
  exec lun cdb data dir d = (d', (n, out, st)) -> data_len data <= 65536 \/ n = data_len data ->
  wp (scsi_command lun cdb data dir) (ok_post t L d' out st n) (err_post t L d d' st) t.
Proof.
  intros Hg Hlun Hcdb Hlen Hex Hshort. pose proof Hg as [Hi Hb HL Hsy He1 He2 Ht]. rewrite scsi_command_eq. fold (data_len data).
  assert (backed (live t)) as Hbt.
  { eapply backed_mono, Hb. intros x Hx. by rewrite HL. }
  apply wp_bind, wp_alloc; [done|done|lia| |].
  2:{ intros t1 Hi1 Hs1 HL1 Hno. apply (oom_post t t1 L L); try done; [by rewrite HL1|]. intros [_ Hr]. by eapply Hno. }
  intros cbw t1 Hi1 Hs1 Hb1 HL1 Hr1. rewrite HL in HL1.
  assert (forall x, backed (x ++ L)) as Hbk.
  { intros x. eapply backed_mono, Hb. intros y Hy. apply elem_of_app. by right. }
  assert (forall t' l, live t' ≡ₚ l ++ L -> backed (live t')) as Hbl.
  { intros t' l Hl. eapply backed_mono, (Hbk l). intros x Hx. by rewrite Hl. }
  apply wp_bind, wp_alloc; [done|exact (Hbl _ [block cbw] HL1)|lia| |].
  2:{ intros t2 Hi2 Hs2 HL2 Hno. rewrite HL1 in HL2. apply (oom_post t t2 L (block cbw :: L)); try done.
      - intros x Hx. by right.
      - by eapply steady_trans.
      - intros [_ Hr]. by apply Hr1, Hno in Hr. }
  intros csw t2 Hi2 Hs2 Hb2 HL2 Hr2. rewrite HL1 in HL2. pose proof (steady_trans _ _ _ Hs1 Hs2) as Hs02.
  assert (live t2 ≡ₚ Lbufs cbw csw None L) as HL2' by (rewrite HL2; apply perm_swap).
  apply wp_bind. destruct (0 <? data_len data) eqn:E; bool_to_prop.
  - apply wp_bind, wp_alloc; [done|exact (Hbl _ [block csw; block cbw] HL2)|lia| |].
    + intros buf t3 Hi3 Hs3 Hb3 HL3 Hr3. apply wp_ret. pose proof (steady_trans _ _ _ Hs02 Hs3) as Hs.
      pose proof Hs as (_ & _ & _ & Hm). apply wp_run_stages; try done; try congruence.
      * destruct data as [b|]; cbn in *; [split; [lia|done]|lia].
      * rewrite HL3, HL2'. unfold Lbufs. cbn. rewrite perm_swap. f_equiv. apply perm_swap.
      * by eapply steady_synced.
      * intros [Hsd Hr]. split; [by eapply steady_sound|]. by apply Hr3, Hr2, Hr1.
    + intros t3 Hi3 Hs3 HL3 Hno. rewrite HL2 in HL3. apply (oom_post t t3 L (block csw :: block cbw :: L)); try done.
      * intros x Hx. by do 2 right.
      * by eapply steady_trans.
      * intros [_ Hr]. by apply Hr1, Hr2, Hno in Hr.
  - apply wp_ret. pose proof Hs02 as (_ & _ & _ & Hm). apply wp_run_stages; try done; try congruence.
    + destruct data as [b|]; cbn in *; [pose proof (zlen_nonneg b); lia|done].
    + by eapply steady_synced.
    + intros [Hsd Hr]. split; [by eapply steady_sound|]. by apply Hr2, Hr1.
Qed.

(** C21: a SCSI command with up to 64 KiB of data through the bulk-only transport, on the
    rings and the frame allocator of the kernel, with a controller and a device behind the
    doorbell.  Any transfer may stall, break or stay unanswered, and a device may answer a
    read with fewer bytes than asked for; the one thing asked of the hardware is that an
    answer comes within the driver's time limit or never.  The command always returns.  If
    it succeeds the device executed it exactly once, with the bytes of the caller; the
    number returned is the number of bytes that moved, the front of the caller's buffer is
    exactly the device's answer and the rest of it is what it was; and every DMA buffer is
    freed.  If it fails, by a stall, an error, silence, lack of memory or a bad status, the
    command was executed once or not at all and the driver is in order for the next command,
    with at most its buffers lost.  When no transfer fails and three buffers fit, it fails
    only with the status the device gave, and loses nothing. *)
Theorem scsi_command_exact lun cdb data dir t L d d' n out st :
  good L d t -> 0 <= lun < 16 -> zlen cdb <= 16 -> data_len data <= 65536 ->
  exec lun cdb data dir d = (d', (n, out, st)) ->
  exists t' r, scsi_command lun cdb data dir t = (t', r) /\
    match r with
    | Ok (k, o) => st = 0 /\ k = n /\ o = out /\ good L d' t' /\ (works t -> works t')
    | Err e => exists d1 L', (d1 = d \/ d1 = d') /\ L ⊆ L' /\ good L' d1 t' /\
        (works t -> st <> 0 /\ e = XferFail st /\ d1 = d' /\ L' = L /\ works t')
    | _ => False
    end.
Proof.
  intros Hg Hl Hc Hd Hex.
  destruct (wp_run _ _ _ _ (wp_scsi_command lun cdb data dir t L d d' n out st Hg Hl Hc ltac:(lia) Hex (or_introl Hd)))
    as [(t' & [k o] & E & -> & [= -> ->] & Hg' & Hw)|(t' & e & E & Hx)]; exists t'; eexists; (split; [exact E|]); [|exact Hx].
  by split_and!.
Qed.
End transport.
