(* ===== verification/UsbStorage.v ===== *)
(** * Blocks on a USB stick

    A SCSI disk as the target behind the bulk-only transport, and what READ (10) and
    WRITE (10) through the driver do to its blocks; a frame allocator for the concrete
    runs. *)

From S2P Require Import Prelude UsbRing UsbRingTheorems UsbDesc Xhci XhciTheorems UsbDevice UsbDeviceTheorems UsbMsc UsbDma UsbMachine UsbMachineTheorems UsbMscTheorems.

(** ** A frame allocator

    Slots of 16 MiB, each free or holding one block of up to 8 MiB aligned to up to
    64 KiB; a slot keeps the alignment and the size that were asked for. *)
Module Slab.
Abbreviation Slabs := (list (option (Z * Z))) (only parsing).

Definition ceil (x a : Z) : Z := (x + a - 1) / a * a.

Definition place (i : nat) (align : Z) : Z := ceil (Z.of_nat i * 2 ^ 24) (Z.max 1 (Z.min align 65536)).

Definition block (i : nat) (c : option (Z * Z)) : list (Z * Z) :=
  match c with Some (align, size) => [(place i align, Z.max 1 (Z.min size (2 ^ 23)))] | None => [] end.

Definition live (f : Slabs) : list (Z * Z) := concat (imap block f).

Fixpoint free_slot (f : Slabs) : option nat :=
  match f with
  | [] => None
  | None :: _ => Some O
  | Some _ :: f => S <$> free_slot f
  end.

Definition fits (i : nat) (size align : Z) : bool :=
  (0 <? align) && (align <=? 65536) && (0 <? size) && (size <=? 2 ^ 23) && (Z.of_nat i <? 2 ^ 16).

Definition allocate (size align : Z) (f : Slabs) : Slabs * option Z :=
  match free_slot f with
  | Some i => if fits i size align then (<[i := Some (align, size)]> f, Some (place i align)) else (f, None)
  | None => (f, None)
  end.

Definition deallocate (a _ : Z) (f : Slabs) : Slabs := <[Z.to_nat (a / 2 ^ 24) := None]> f.

Fixpoint vacant (f : Slabs) : nat :=
  match f with
  | [] => O
  | None :: f => S (vacant f)
  | Some _ :: f => vacant f
  end.

Definition room (n : nat) (f : Slabs) : Prop := (n <= vacant f)%nat /\ Z.of_nat (length f) <= 2 ^ 16.

#[export] Instance alloc : FrameAlloc Slabs := {| frame_allocate := allocate; frame_deallocate := deallocate |}.

Lemma ceil_bounds x a : 0 < a -> x <= ceil x a < x + a /\ ceil x a mod a = 0.
Proof.
  intros Ha. unfold ceil. pose proof (Z.div_mod (x + a - 1) a ltac:(lia)). pose proof (Z.mod_pos_bound (x + a - 1) a Ha).
  split; [lia|]. apply Z.mod_mul. lia.
Qed.

Lemma place_bounds i align : Z.of_nat i * 2 ^ 24 <= place i align < Z.of_nat i * 2 ^ 24 + 65536.
Proof. unfold place. pose proof (ceil_bounds (Z.of_nat i * 2 ^ 24) (Z.max 1 (Z.min align 65536)) ltac:(lia)). lia. Qed.

Lemma place_slot i align : Z.to_nat (place i align / 2 ^ 24) = i.
Proof.
  pose proof (place_bounds i align). assert (place i align / 2 ^ 24 = Z.of_nat i) as -> by (symmetry; apply (Z.div_unique _ _ _ (place i align - Z.of_nat i * 2 ^ 24)); lia).
  lia.
Qed.

Lemma block_bounds i c b n : (b, n) ∈ block i c -> Z.of_nat i * 2 ^ 24 <= b /\ b + n <= (Z.of_nat i + 1) * 2 ^ 24.
Proof.
  destruct c as [[al sz]|]; cbn; [|by intros ?%not_elem_of_nil]. rewrite list_elem_of_singleton. intros [= -> ->].
  pose proof (place_bounds i al). lia.
Qed.

(** The blocks of one slot next to those of the others. *)
Lemma live_at f i x :
  f !! i = Some x ->
  exists rest, (forall y, live (<[i := y]> f) ≡ₚ block i y ++ rest) /\
    forall b n, (b, n) ∈ rest -> exists j c, j <> i /\ (b, n) ∈ block j c.
Proof.
  intros Hx. pose proof (lookup_lt_Some _ _ _ Hx) as Hi.
  exists (concat (imap block (take i f)) ++ concat (imap (fun j => block (S i + j)) (drop (S i) f))). split.
  - intros y. rewrite insert_take_drop by done. unfold live. rewrite imap_app. cbn [imap]. rewrite concat_app. cbn [concat].
    rewrite length_take, Nat.min_l, Nat.add_0_r by lia. rewrite (Permutation_app_swap_app (block i y)). do 2 f_equiv.
    match goal with |- ?a ≡ₚ ?b => enough (a = b) as -> by done end. f_equal. apply imap_ext. intros j c _.
    cbn beta. unfold compose.
    by rewrite ?length_take, ?Nat.min_l, ?Nat.add_succ_r by lia.
  - intros b n [Hin|Hin]%elem_of_app; apply list_elem_of_In, in_concat in Hin as (l & Hl & Hb);
      apply list_elem_of_In in Hl, Hb; apply elem_of_lookup_imap in Hl as (j & c & -> & Hj).
    + exists j, c. split; [|done]. apply lookup_lt_Some in Hj. rewrite length_take in Hj. lia.
    + exists (S i + j)%nat, c. split; [lia|done].
Qed.

Lemma live_in f b n : (b, n) ∈ live f -> exists i c, f !! i = Some c /\ (b, n) ∈ block i c.
Proof.
  intros Hin. apply list_elem_of_In, in_concat in Hin as (l & Hl & Hb). apply list_elem_of_In in Hl, Hb.
  apply elem_of_lookup_imap in Hl as (j & c & -> & Hj). eauto.
Qed.

Lemma free_slot_None f i : free_slot f = Some i -> f !! i = Some None.
Proof.
  revert i. induction f as [|[c|] f IH]; intros i; cbn; [done| |by intros [= <-]].
  intros (j & Hj & ->)%fmap_Some. by apply IH.
Qed.

Lemma vacant_insert (f : Slabs) i (x y : option (Z * Z)) : f !! i = Some x ->
  (vacant (<[i := y]> f) + (if x is Some _ then 0 else 1) = vacant f + (if y is Some _ then 0 else 1))%nat.
Proof.
  revert i. induction f as [|c f IH]; intros [|i]; [done..| |].
  - cbn. intros [= ->]. destruct x, y; cbn; lia.
  - cbn [lookup list_lookup]. intros Hx%IH. change (<[S i := y]> (c :: f)) with (c :: <[i := y]> f). destruct c; cbn [vacant]; lia.
Qed.

Lemma vacant_free f : (0 < vacant f)%nat -> exists i, free_slot f = Some i.
Proof. induction f as [|[c|] f IH]; cbn; [lia| |eauto]. intros (i & ->)%IH. by exists (S i). Qed.

Lemma fits_spec i size align : fits i size align = true -> 0 < align <= 65536 /\ 0 < size <= 2 ^ 23 /\ Z.of_nat i < 2 ^ 16.
Proof. unfold fits. intros. bool_to_prop. lia. Qed.

#[export] Program Instance alloc_spec : FrameAllocSpec Slabs := {| frame_live := live; frame_room := room |}.
Next Obligation.
  intros size align f f' a Hs Ha. cbn. unfold allocate. destruct (free_slot f) as [i|] eqn:E; [|done].
  destruct (fits i size align) eqn:Ef; [|done]. intros [= <- <-]. apply fits_spec in Ef as (Hal & Hsz & Hi).
  apply free_slot_None in E. destruct (live_at f i None E) as (rest & Hl & Hr). pose proof (place_bounds i align) as Hp.
  assert (live f ≡ₚ rest) as Hf.
  { rewrite <- (list_insert_id f i None E). exact (Hl None). }
  split; [|split; [lia|split; [lia|split]]].
  - unfold place. rewrite Z.max_r, Z.min_l by lia. by apply ceil_bounds.
  - rewrite (Hl (Some (align, size))), Hf. cbn. by rewrite Z.max_r, Z.min_l by lia.
  - apply Forall_forall. intros [b n] Hin. rewrite Hf in Hin. destruct (Hr b n Hin) as (j & c & Hj & Hb).
    apply block_bounds in Hb. lia.
Qed.
Next Obligation.
  intros size align f f'. cbn. unfold allocate. destruct (free_slot f); [destruct (fits _ _ _)|]; by intros [= <-].
Qed.
Next Obligation.
  intros a size f Hin. cbn in *. unfold deallocate. destruct (live_in f a size Hin) as (i & c & Hi & Hb).
  destruct (live_at f i c Hi) as (rest & Hl & _). rewrite <- (list_insert_id f i c Hi) at 1. rewrite (Hl c).
  destruct c as [[al sz]|]; cbn in Hb; [|by apply not_elem_of_nil in Hb]. apply list_elem_of_singleton in Hb as [= -> ->].
  rewrite place_slot, (Hl None). done.
Qed.
Next Obligation.
  intros n size align f f' r [Hv Hlen] Hs Ha. cbn. unfold allocate. destruct (vacant_free f) as [i E]; [lia|]. rewrite E.
  apply free_slot_None in E. pose proof (lookup_lt_Some _ _ _ E) as Hlt.
  assert (fits i size align = true) as -> by (unfold fits; repeat (apply andb_true_intro; split); lia).
  intros [= <- <-]. split; [done|]. pose proof (vacant_insert f i None (Some (align, size)) E) as Hins. cbv iota in Hins.
  split; [lia|]. by rewrite length_insert.
Qed.
Next Obligation.
  intros n a size f [Hv Hlen] Hin. cbn in *. unfold deallocate. destruct (live_in f a size Hin) as (i & c & Hi & Hb).
  destruct c as [[al sz]|]; cbn in Hb; [|by apply not_elem_of_nil in Hb]. apply list_elem_of_singleton in Hb as [= -> ->].
  rewrite place_slot. pose proof (vacant_insert f i (Some (al, sz)) None Hi) as Hins.
  cbv iota in Hins. split; [lia|]. by rewrite length_insert.
Qed.
End Slab.

(** ** A SCSI disk *)

Section disk.
Context (bs : Z) (Hbs : 0 < bs).

(** Blocks of [bs] bytes, numbered below [sd_count]. *)
Record ScsiDisk := mkScsiDisk {
  sd_blocks : Z -> bytes;
  sd_count : Z;
}.
Implicit Types (d : ScsiDisk).

Definition fit (n : Z) (b : bytes) : bytes := ztake n (b ++ zeros n).

Definition sd_block d (l : Z) : bytes := fit bs (sd_blocks d l).

Definition span d (lba n : Z) : bytes := concat ((fun i => sd_block d (lba + Z.of_nat i)) <$> seq 0 (Z.to_nat n)).

Definition store d (lba n : Z) (b : bytes) : ScsiDisk :=
  mkScsiDisk (fun l => if (lba <=? l) && (l <? lba + n) then slice b ((l - lba) * bs) ((l - lba + 1) * bs) else sd_blocks d l)
    (sd_count d).

Definition be16_at (b : bytes) (off : Z) : Z := le_combine (rev (slice b off (off + 2))).
Definition to_be32 (v : Z) : bytes := rev (to_le32 v).

(** A transfer of whole blocks within the disk. *)
Definition in_range d (lba n len : Z) : bool := (lba + n <=? sd_count d) && (len =? n * bs).

Definition disk_in (lun : Z) (cdb : bytes) (n : Z) d : ScsiDisk * (bytes * Z) :=
  if lun =? 0 then
    if u8_at cdb 0 =? ScsiOp.READ_10 then
      if in_range d (be32_at cdb 2) (be16_at cdb 7) n then (d, (fit n (span d (be32_at cdb 2) (be16_at cdb 7)), 0))
      else (d, (zeros n, 1))
    else if u8_at cdb 0 =? ScsiOp.READ_CAPACITY_10 then (d, (ztake n (to_be32 (sd_count d - 1) ++ to_be32 bs), 0))
    else (d, (zeros n, 1))
  else (d, (zeros n, 1)).

Definition disk_out (lun : Z) (cdb b : bytes) d : ScsiDisk * Z :=
  if lun =? 0 then
    if u8_at cdb 0 =? ScsiOp.WRITE_10 then
      if in_range d (be32_at cdb 2) (be16_at cdb 7) (zlen b) then (store d (be32_at cdb 2) (be16_at cdb 7) b, 0)
      else (d, 1)
    else if (u8_at cdb 0 =? ScsiOp.TEST_UNIT_READY) || (u8_at cdb 0 =? ScsiOp.SYNCHRONIZE_CACHE_10) then (d, 0)
    else (d, 1)
  else (d, 1).

#[local] Instance disk_target : ScsiTarget ScsiDisk := {| exec_in := disk_in; exec_out := disk_out |}.

Lemma zlen_fit n b : 0 <= n -> zlen (fit n b) = n.
Proof. intros Hn. unfold fit. pose proof (zlen_nonneg b). rewrite zlen_ztake, zlen_app, zlen_zeros; lia. Qed.

Lemma fit_id n b : zlen b = n -> fit n b = b.
Proof. intros <-. unfold fit. rewrite ztake_app_le by lia. by apply ztake_all. Qed.

#[local] Program Instance disk_target_spec : ScsiTargetSpec ScsiDisk.
Next Obligation.
  intros lun cdb n d d' b st Hn. cbn. unfold disk_in.
  repeat split_if; intros [= <- <- <-]; rewrite ?zlen_fit, ?zlen_zeros, ?zlen_ztake by done; lia.
Qed.
Next Obligation.
  intros lun cdb b d d' st. cbn. unfold disk_out. repeat split_if; intros [= <- <-]; lia.
Qed.

(** *** Blocks *)

Lemma span_S d lba n : 0 <= n -> span d lba (n + 1) = span d lba n ++ sd_block d (lba + n).
Proof.
  intros Hn. unfold span. replace (Z.to_nat (n + 1)) with (S (Z.to_nat n)) by lia.
  rewrite seq_S, fmap_app, concat_app. cbn. by rewrite app_nil_r, Z2Nat.id.
Qed.

Lemma zlen_span d lba n : 0 <= n -> zlen (span d lba n) = n * bs.
Proof.
  intros Hn. pattern n. apply natlike_ind; [done|clear n Hn|done]. intros n Hn IH.
  unfold Z.succ. rewrite span_S, zlen_app, IH by done. unfold sd_block. rewrite zlen_fit; lia.
Qed.

Lemma store_in d lba n b l :
  zlen b = n * bs -> lba <= l < lba + n -> sd_block (store d lba n b) l = slice b ((l - lba) * bs) ((l - lba + 1) * bs).
Proof.
  intros Hb Hl. unfold sd_block, store. cbn. replace ((lba <=? l) && (l <? lba + n)) with true by lia.
  apply fit_id. rewrite zlen_slice; nia.
Qed.

Lemma store_out d lba n b l : l < lba \/ lba + n <= l -> sd_block (store d lba n b) l = sd_block d l.
Proof. intros Hl. unfold sd_block, store. cbn. by replace ((lba <=? l) && (l <? lba + n)) with false by lia. Qed.

Lemma span_store d lba n b : 0 <= n -> zlen b = n * bs -> span (store d lba n b) lba n = b.
Proof.
  intros Hn Hb. enough (forall k, 0 <= k -> k <= n -> span (store d lba n b) lba k = ztake (k * bs) b) as Hk.
  { rewrite Hk by lia. apply ztake_all. lia. }
  intros k Hk. pattern k. apply natlike_ind; [|clear k Hk|done].
  - intros _. cbn. by rewrite ztake_0 by lia.
  - intros k Hk IH Hle. unfold Z.succ in *. rewrite span_S, IH, store_in by lia. replace (lba + k - lba) with k by lia.
    unfold slice. replace ((k + 1) * bs - k * bs) with bs by lia. replace ((k + 1) * bs) with (k * bs + bs) by lia.
    symmetry. apply ztake_zdrop_split; nia.
Qed.

(** *** Commands *)

Lemma of_Z_as_u8 x : byte.of_Z (as_u8 x) = byte.of_Z x.
Proof. apply byte.unsigned_inj. rewrite !byte.unsigned_of_Z. unfold byte.wrap, as_u8. by apply Z.mod_mod. Qed.

Lemma rw10_decode op lba count :
  0 <= op < 256 -> u32 lba -> 0 <= count <= U16_MAX ->
  zlen (rw10_cdb op lba count) = 10 /\ u8_at (rw10_cdb op lba count) 0 = op /\
  be32_at (rw10_cdb op lba count) 2 = lba /\ be16_at (rw10_cdb op lba count) 7 = count.
Proof.
  intros Ho Hl Hc. split; [done|]. unfold u8_at, be32_at, be16_at, rw10_cdb, cdb_of. cbn [map].
  rewrite !of_Z_as_u8. split_and!.
  - change (le_combine (le_split 1 op) = op). rewrite le_combine_split. apply Z.mod_small. exact Ho.
  - change (le_combine [byte.of_Z lba; byte.of_Z (Z.shiftr lba 8); byte.of_Z (Z.shiftr lba 16); byte.of_Z (Z.shiftr lba 24)] = lba).
    rewrite <- (le_combine_to_le32 lba Hl) at 5. reflexivity.
  - change (le_combine (le_split 2 count) = count). rewrite le_combine_split. apply Z.mod_small. unfold U16_MAX in *. cbn. lia.
Qed.

Lemma exec_read d lba n buf :
  0 <= lba -> 0 < n <= U16_MAX -> lba + n <= sd_count d -> sd_count d <= 2 ^ 32 -> zlen buf = n * bs ->
  exec 0 (rw10_cdb ScsiOp.READ_10 lba n) (Some buf) true d = (d, (n * bs, Some (span d lba n), 0)).
Proof.
  intros Hl Hn Hr Hc Hb. destruct (rw10_decode ScsiOp.READ_10 lba n) as (_ & H1 & H2 & H3); [done|ulia|lia|].
  unfold exec. replace (zlen buf =? 0) with false by nia. cbn [exec_in disk_target]. unfold disk_in. rewrite H1, H2, H3.
  cbn [Z.eqb]. rewrite Z.eqb_refl. unfold in_range. replace ((lba + n <=? sd_count d) && (zlen buf =? n * bs)) with true by lia.
  pose proof (zlen_span d lba n ltac:(lia)) as Hz. rewrite fit_id, Hz, zdrop_all, app_nil_r by lia. done.
Qed.

Lemma exec_write d lba n buf :
  0 <= lba -> 0 < n <= U16_MAX -> lba + n <= sd_count d -> sd_count d <= 2 ^ 32 -> zlen buf = n * bs ->
  exec 0 (rw10_cdb ScsiOp.WRITE_10 lba n) (Some buf) false d = (store d lba n buf, (n * bs, Some buf, 0)).
Proof.
  intros Hl Hn Hr Hc Hb. destruct (rw10_decode ScsiOp.WRITE_10 lba n) as (_ & H1 & H2 & H3); [done|ulia|lia|].
  unfold exec. replace (zlen buf =? 0) with false by nia. cbn [exec_out disk_target]. unfold disk_out. rewrite H1, H2, H3.
  cbn [Z.eqb]. rewrite Z.eqb_refl. unfold in_range. replace ((lba + n <=? sd_count d) && (zlen buf =? n * bs)) with true by lia.
  by rewrite Hb.
Qed.
End disk.

(** ** Blocks through the driver *)

Section blocks.
Context {F : Type} `{FrameAllocSpec F} (bs : Z) (Hbs : 0 < bs).
Context (align_up : Z -> Z -> Z) (Halign : rounds_up align_up) (hw : HwCfg) (ein eout : Z) (mem_in mem_out : PhysMem).

#[local] Instance target : ScsiTarget ScsiDisk := disk_target bs.
#[local] Instance target_ok : ScsiTargetSpec ScsiDisk := disk_target_spec bs.
#[local] Instance storage_io : XhcIo (Machine F ScsiDisk) := Machine_io align_up hw.

Context (Hslot : 0 <= hw_slot hw < 256) (Hein : 1 <= ein <= 15) (Heout : 1 <= eout <= 15).
Context (Hareas : apart (phys mem_in) 4096 (phys mem_out) 4096 /\
                  apart (hw_events hw) (hw_event_count hw * 16) (phys mem_in) 4096 /\
                  apart (hw_events hw) (hw_event_count hw * 16) (phys mem_out) 4096).

Implicit Types (t : MscSys (Machine F ScsiDisk)) (d : ScsiDisk).

Abbreviation stick := (good align_up Halign hw ein eout mem_in mem_out).
Abbreviation healthy := (works ein eout).

(** Either result of a command that does not change the disk. *)
Lemma wp_read_blocks t L d lba n buf :
  stick L d t -> 0 <= lba -> 0 < n <= U16_MAX -> lba + n <= sd_count d -> sd_count d <= 2 ^ 32 ->
  zlen buf = n * bs -> n * bs <= 2 ^ 22 ->
  wp (read_blocks 0 lba n buf)
    (fun r t' => r = (n * bs, span bs d lba n) /\ stick L d t' /\ (healthy t -> healthy t'))
    (fun _ t' => (exists L', L ⊆ L' /\ stick L' d t') /\ ~ healthy t) t.
Proof.
  intros Hg Hl Hn Hr Hc Hb Hmax. pose proof (exec_read bs Hbs d lba n buf Hl Hn Hr Hc Hb) as Hex.
  unfold read_blocks. apply wp_bind.
  eapply wp_mono; [eapply (wp_scsi_command align_up Halign hw ein eout mem_in mem_out Hslot Hein Heout Hareas); [exact Hg|lia|vm_compute; discriminate|cbn; lia|exact Hex|right; cbn; lia]| |].
  - cbn beta. intros [k o] t' (_ & [= -> ->] & Hg' & Hw). by apply wp_ret.
  - cbn beta. intros e t' (d1 & L' & Hd1 & HL & Hg' & Hw). assert (d1 = d) as -> by (by destruct Hd1). split; [eauto|].
    intros [? _]%Hw. done.
Qed.

Lemma wp_write_blocks t L d lba n buf :
  stick L d t -> 0 <= lba -> 0 < n <= U16_MAX -> lba + n <= sd_count d -> sd_count d <= 2 ^ 32 ->
  zlen buf = n * bs -> n * bs <= 2 ^ 22 ->
  wp (write_blocks 0 lba n buf)
    (fun r t' => r = (n * bs, buf) /\ stick L (store bs d lba n buf) t' /\ (healthy t -> healthy t'))
    (fun _ t' => (exists L' d', L ⊆ L' /\ (d' = d \/ d' = store bs d lba n buf) /\ stick L' d' t') /\ ~ healthy t) t.
Proof.
  intros Hg Hl Hn Hr Hc Hb Hmax. pose proof (exec_write bs Hbs d lba n buf Hl Hn Hr Hc Hb) as Hex.
  unfold write_blocks. apply wp_bind.
  eapply wp_mono; [eapply (wp_scsi_command align_up Halign hw ein eout mem_in mem_out Hslot Hein Heout Hareas); [exact Hg|lia|vm_compute; discriminate|cbn; lia|exact Hex|right; cbn; lia]| |].
  - cbn beta. intros [k o] t' (_ & [= -> ->] & Hg' & Hw). by apply wp_ret.
  - cbn beta. intros e t' (d1 & L' & Hd1 & HL & Hg' & Hw). split; [eauto 10|]. intros [? _]%Hw. done.
Qed.

(** C22: blocks written to a working stick are read back: the write and the read succeed,
    the read returns the bytes that were written, the blocks around them are what they
    were, and no DMA memory is lost. *)
Theorem write_read_blocks t L d lba n buf scratch :
  stick L d t -> healthy t -> 0 <= lba -> 0 < n <= U16_MAX -> lba + n <= sd_count d -> sd_count d <= 2 ^ 32 ->
  zlen buf = n * bs -> zlen scratch = n * bs -> n * bs <= 2 ^ 22 ->
  exists t1 t2 d',
    write_blocks 0 lba n buf t = (t1, Ok (n * bs, buf)) /\
    read_blocks 0 lba n scratch t1 = (t2, Ok (n * bs, buf)) /\
    stick L d' t2 /\ healthy t2 /\
    forall l, l < lba \/ lba + n <= l -> sd_block bs d' l = sd_block bs d l.
Proof.
  intros Hg Hw Hl Hn Hr Hc Hb Hs Hmax. set (d' := store bs d lba n buf).
  destruct (wp_run _ _ _ _ (wp_write_blocks t L d lba n buf Hg Hl Hn Hr Hc Hb Hmax))
    as [(t1 & r1 & E1 & -> & Hg1 & Hw1)|(? & ? & _ & _ & [])]; [|done].
  destruct (wp_run _ _ _ _ (wp_read_blocks t1 L d' lba n scratch Hg1 Hl Hn Hr Hc Hs Hmax))
    as [(t2 & r2 & E2 & -> & Hg2 & Hw2)|(? & ? & _ & _ & [])]; [|by apply Hw1].
  exists t1, t2, d'. rewrite E1, E2. unfold d' at 1. rewrite span_store by (done || lia). split_and!; [done|done|done|by apply Hw2, Hw1|].
  intros l Ho. by apply store_out.
Qed.
End blocks.

(** ** A concrete stick

    Rings and event ring in the first three slots of the allocator, zeroed; slot 1, bulk
    endpoints 1 IN and 2 OUT, a disk of 2048 blocks of 512 bytes. *)
Module StickDemo.
Import Slab.

Definition hw : HwCfg := mkHwCfg 1 (0x1000 + 4) (2 ^ 25) 256 (2 ^ 40).
Definition mem_in : PhysMem := mkPhysMem (2 ^ 40) 4096 64.
Definition mem_out : PhysMem := mkPhysMem (2 ^ 40 + 2 ^ 24) 4096 64.
Definition mem_events : PhysMem := mkPhysMem (2 ^ 40 + 2 ^ 25) 4096 64.

Definition slabs : Slabs := Some (64, 4096) :: Some (64, 4096) :: Some (64, 4096) :: replicate 5 None.

Definition disk : ScsiDisk := mkScsiDisk (fun l => [byte.of_Z l]) 2048.

Definition machine (d : ScsiDisk) (fate : list Fate) : Machine Slabs ScsiDisk :=
  mkMachine (mkDmaState slabs (fun _ => Byte.x00))
    (fun dci => mkConsumer (if dci =? 3 then 0 else 2 ^ 24) true) (fun _ => false) (mkProducer 0 true) (Ready, d) fate.

Definition ring_in : Ring := mkRing mem_in 0 true 256.
Definition ring_out : Ring := mkRing mem_out 0 true 256.

Definition usb (d : ScsiDisk) (fate : list Fate) : UsbSys (Machine Slabs ScsiDisk) :=
  mkUsbSys
    (mkXhciCtrl (machine d fate) (mkXhciCfg 0x1000 0x1000 0 0 0 0 1 1 [] mem_events None) ring_out
       (mkEventRing mem_events mem_events 256 0 true) [])
    (mkUsbDevice 1 0 3 mem_events mem_events ring_out
       (<[2%nat := Some ring_in]> (<[3%nat := Some ring_out]> (replicate 31 None))) None).

Definition start (d : ScsiDisk) (fate : list Fate) : MscSys (Machine Slabs ScsiDisk) := mkMscSys (usb d fate) (mkMscDevice 0 1 2 512 512 0 1).

Definition L : list (Z * Z) := [(0, 4096); (2 ^ 24, 4096); (2 ^ 25, 4096)].

#[export] Instance target : ScsiTarget ScsiDisk := disk_target 512.
#[export] Instance target_ok : ScsiTargetSpec ScsiDisk := disk_target_spec 512.
#[export] Instance io : XhcIo (Machine Slabs ScsiDisk) := Machine_io align_up_div hw.
Definition dma_spec : DmaSpec (Machine Slabs ScsiDisk) := dma align_up_div align_up_div_rounds hw.

Lemma zero_slot d fate base i : cycle (slot (H0 := dma_spec) (machine d fate) base i) = false.
Proof. reflexivity. Qed.

Lemma areas_apart :
  apart (phys mem_in) 4096 (phys mem_out) 4096 /\ apart (hw_events hw) (hw_event_count hw * 16) (phys mem_in) 4096 /\
  apart (hw_events hw) (hw_event_count hw * 16) (phys mem_out) 4096.
Proof. by vm_compute; split_and!; (left; discriminate) || (right; discriminate). Qed.

Lemma fresh_ring d fate m p :
  phys m = p -> u64 p -> p mod 16 = 0 ->
  ring_holds (H0 := dma_spec) (machine d fate) (mkRing m 0 true 256) 255 [].
Proof.
  intros Hp H64 Hal. unfold ring_holds, ring_phys. cbn [ring_mem ring_size ring_enqueue ring_cycle length]. rewrite Hp.
  rewrite Nat.Div0.mod_0_l, Nat.Div0.div_0_l. split_and!; done || lia.
Qed.

Lemma ready d fate : good align_up_div align_up_div_rounds hw 1 2 mem_in mem_out L d (start d fate).
Proof.
  split; [split| | | | | |]; try done.
  - intros [].
    + exists ring_in, []. split; [done|]. split; [done|]. split; [by apply (fresh_ring d fate mem_in 0)|]. intros _. by left.
    + exists ring_out, []. split; [done|]. split; [done|]. split; [by apply (fresh_ring d fate mem_out (2 ^ 24))|]. intros _. by left.
  - split; [done|]. split; [done|]. exists []. split; [by vm_compute; lia|]. split_and!; try done; by vm_compute.
  - unfold backed, areas. repeat apply Forall_cons_2; try apply Forall_nil_2; cbn beta iota.
    + exists 0, 4096. split; [by left|]. by vm_compute.
    + exists (2 ^ 24), 4096. split; [right; by left|]. by vm_compute.
    + exists (2 ^ 25), 4096. split; [do 2 right; by left|]. by vm_compute.
  - by exists Ready.
Qed.

Lemma healthy d fate : Forall (fun f => f = Served) fate -> works 1 2 (start d fate).
Proof. intros Hf. split; [by split|]. split; [cbn; lia|done]. Qed.
End StickDemo.

Section witnesses.
Import Slab StickDemo.

(** READ CAPACITY into a buffer of 16 bytes: the disk answers with 8. *)
Lemma scsi_command_exact_witness :
  let t := start disk [] in
  let cdb := cdb_of [ScsiOp.READ_CAPACITY_10; 0; 0; 0; 0; 0; 0; 0; 0; 0] in
  let out := Some (to_be32 2047 ++ to_be32 512 ++ replicate 8 Byte.x41) in
  exists t' r, scsi_command 0 cdb (Some (replicate 16 Byte.x41)) true t = (t', r) /\
    match r with
    | Ok (k, o) => 0 = 0 /\ k = 8 /\ o = out /\
        good align_up_div align_up_div_rounds hw 1 2 mem_in mem_out L disk t' /\ (works 1 2 t -> works 1 2 t')
    | Err e => exists d1 L', (d1 = disk \/ d1 = disk) /\ L ⊆ L' /\
        good align_up_div align_up_div_rounds hw 1 2 mem_in mem_out L' d1 t' /\
        (works 1 2 t -> 0 <> 0 /\ e = XferFail 0 /\ d1 = disk /\ L' = L /\ works 1 2 t')
    | _ => False
    end.
Proof.
  refine (scsi_command_exact align_up_div align_up_div_rounds hw 1 2 mem_in mem_out _ _ _ areas_apart
            0 (cdb_of [ScsiOp.READ_CAPACITY_10; 0; 0; 0; 0; 0; 0; 0; 0; 0]) (Some (replicate 16 Byte.x41)) true (start disk []) L disk disk
            8 (Some (to_be32 2047 ++ to_be32 512 ++ replicate 8 Byte.x41)) 0 (ready _ _) _ _ _ _);
    (vm_compute; split; discriminate || reflexivity) || (vm_compute; discriminate) || (vm_compute; reflexivity).
Defined.

Lemma write_read_blocks_witness :
  exists t1 t2 d',
    write_blocks 0 7 2 (replicate 1024 Byte.x41) (start disk []) = (t1, Ok (1024, replicate 1024 Byte.x41)) /\
    read_blocks 0 7 2 (zeros 1024) t1 = (t2, Ok (1024, replicate 1024 Byte.x41)) /\
    good align_up_div align_up_div_rounds hw 1 2 mem_in mem_out L d' t2 /\ works 1 2 t2 /\
    forall l, l < 7 \/ 7 + 2 <= l -> sd_block 512 d' l = sd_block 512 disk l.
Proof.
  apply (write_read_blocks 512 eq_refl align_up_div align_up_div_rounds hw 1 2 mem_in mem_out
           ltac:(by vm_compute) ltac:(lia) ltac:(lia) areas_apart (start disk []) L disk 7 2 (replicate 1024 Byte.x41) (zeros 1024));
    [apply ready|by apply healthy|..]; done || (vm_compute; split; discriminate || reflexivity) || (vm_compute; discriminate).
Defined.
End witnesses.
