(* ===== verification/Fat32.v ===== *)
(** * Finding and reading the model on a USB stick: operations

    The FAT32 reader and the model ingestion of kernel/src/drivers/usb/xhci.rs.  The
    mass-storage device is behind [UsbDisk]; the two scratch buffers the code passes
    around (one sector, one cluster) are part of the state, since a failed or short
    transfer leaves old bytes in them. *)

From S2P Require Import Prelude.

Definition USB_DEFAULT_DEVICE_BLOCK_SIZE : Z := 512.
Definition MIB : Z := 1024 * 1024.
Definition USB_MAX_READ_BYTES : Z := 4 * MIB.
Definition RAW_GGUF_FALLBACK_SIZE : Z := 1187801280.

(** [read_blocks(0, lba, count, buf)] with [zlen buf = len]: whether it returned [Ok],
    and the bytes it placed at the start of [buf], also when it failed. *)
Class UsbDisk (U : Type) := {
  read_blocks : Z -> Z -> Z -> U -> U * (bool * bytes);
}.

Record Fat32Volume := mkFat32Volume {
  base_lba : Z;
  device_block_size : Z;
  bytes_per_sector : Z;
  device_blocks_per_fs_sector : Z;
  sectors_per_cluster : Z;
  reserved_sectors : Z;
  num_fats : Z;
  fat_size_sectors : Z;
  root_cluster : Z;
  data_start_lba : Z;
}.

Record Fat32File := mkFat32File {
  first_cluster : Z;
  file_size : Z;
}.

(** 32-bit arithmetic of the sources. *)
Definition add32 (a b : Z) : Z := as_u32 (a + b).
Definition sub32 (a b : Z) : Z := as_u32 (a - b).
Definition mul32 (a b : Z) : Z := as_u32 (a * b).

Definition device_lba_for_fs_sector (v : Fat32Volume) (fs_sector : Z) : Z :=
  add32 (base_lba v) (mul32 fs_sector (device_blocks_per_fs_sector v)).

Definition first_device_lba_of_cluster (v : Fat32Volume) (cluster : Z) : Z :=
  device_lba_for_fs_sector v
    (add32 (add32 (reserved_sectors v) (mul32 (num_fats v) (fat_size_sectors v)))
       (mul32 (sub32 cluster 2) (sectors_per_cluster v))).

Definition fat_lba_for_cluster (v : Fat32Volume) (cluster : Z) : Z * Z :=
  let fat_offset := mul32 cluster 4 in
  let sector := device_lba_for_fs_sector v
    (add32 (reserved_sectors v) (fat_offset / bytes_per_sector v)) in
  (sector, fat_offset mod bytes_per_sector v).

(** ** Directory entries, 32 bytes each *)

(** [buf[off]]. *)
Definition get_byte (buf : bytes) (off : Z) : outcome unit Z :=
  match buf !! Z.to_nat off with Some b => Ok (bz b) | None => Panic end.

Definition usb_le_u16 (buf : bytes) (off : Z) : outcome unit Z :=
  let? lo := get_byte buf off in
  let? hi := get_byte buf (off + 1) in
  Ok (lo + 256 * hi).

Definition usb_le_u32 (buf : bytes) (off : Z) : outcome unit Z :=
  let? lo := usb_le_u16 buf off in
  let? hi := usb_le_u16 buf (off + 2) in
  Ok (lo + 65536 * hi).

Definition ascii_lower_u16 (ch : Z) : Z := if (65 <=? ch) && (ch <=? 90) then ch + 32 else ch.
Definition ascii_upper_u8 (ch : Z) : Z := if (97 <=? ch) && (ch <=? 122) then ch - 32 else ch.

(** Neither end marker, deleted, long name, volume label nor directory. *)
Definition entry_is_file (first attr : Z) : bool :=
  negb ((first =? 0) || (first =? 0xe5) || (attr =? 0x0f)
        || negb (Z.land attr 0x08 =? 0) || negb (Z.land attr 0x10 =? 0)).

Definition fat32_entry_is_gguf (entry : bytes) : outcome unit bool :=
  let? first := get_byte entry 0 in
  let? attr := get_byte entry 11 in
  if negb (entry_is_file first attr) then Ok false else
  let? ext := get_slice entry 8 11 in
  Ok (bool_decide (ext = bstr "GGU") || bool_decide (ext = bstr "GGF")).

Definition fat32_entry_is_preferred_bitnet_gguf (entry : bytes) : outcome unit bool :=
  let? gguf := fat32_entry_is_gguf entry in
  if negb gguf then Ok false else
  let? name := get_slice entry 0 4 in
  Ok (bool_decide (map (fun b => ascii_upper_u8 (bz b)) name = map bz (bstr "GGML"))).

(** The last five characters of the name part so far. *)
Definition push_suffix (suffix : list Z) (ch : Z) : list Z :=
  if zlen suffix <? 5 then suffix ++ [ch] else zdrop 1 suffix ++ [ch].

Fixpoint lfn_suffix (entry : bytes) (offs : list Z) (suffix : list Z) : outcome unit (list Z) :=
  match offs with
  | [] => Ok suffix
  | off :: offs =>
      let? ch := usb_le_u16 entry off in
      if (ch =? 0) || (ch =? 0xffff) then Ok suffix
      else lfn_suffix entry offs (push_suffix suffix ch)
  end.

Definition LFN_OFFSETS : list Z := [1; 3; 5; 7; 9; 14; 16; 18; 20; 22; 24; 28; 30].

Definition fat32_lfn_entry_has_gguf_suffix (entry : bytes) : outcome unit bool :=
  let? attr := get_byte entry 11 in
  if negb (attr =? 0x0f) then Ok false else
  let? suffix := lfn_suffix entry LFN_OFFSETS [] in
  Ok (match suffix with
      | [c0; c1; c2; c3; c4] =>
          (c0 =? 46) && (ascii_lower_u16 c1 =? 103) && (ascii_lower_u16 c2 =? 103)
          && (ascii_lower_u16 c3 =? 117) && (ascii_lower_u16 c4 =? 102)
      | _ => false
      end).

Definition entry_cluster (entry : bytes) : outcome unit Z :=
  let? hi := usb_le_u16 entry 20 in
  let? lo := usb_le_u16 entry 26 in
  Ok (Z.lor (Z.shiftl hi 16) lo).

Definition fat32_file_from_entry (entry : bytes) : outcome unit (option Fat32File) :=
  let? attr := get_byte entry 11 in
  let? first := get_byte entry 0 in
  if negb (entry_is_file first attr) then Ok None else
  let? cluster := entry_cluster entry in
  let? size := usb_le_u32 entry 28 in
  Ok (if (2 <=? cluster) && (0 <? size) then Some (mkFat32File cluster size) else None).

Definition fat32_directory_from_entry (entry : bytes) : outcome unit (option Z) :=
  let? attr := get_byte entry 11 in
  let? first := get_byte entry 0 in
  if (first =? 0) || (first =? 0xe5) || (first =? 46) || (attr =? 0x0f) || (Z.land attr 0x10 =? 0)
  then Ok None else
  let? cluster := entry_cluster entry in
  Ok (if 2 <=? cluster then Some cluster else None).

Definition parse_fat32_volume (base device_block : Z) (boot_sector : bytes)
    : outcome unit (option Fat32Volume) :=
  if zlen boot_sector <? 512 then Ok None else
  let? s510 := get_byte boot_sector 510 in
  let? s511 := get_byte boot_sector 511 in
  if negb (s510 =? 0x55) || negb (s511 =? 0xaa) then Ok None else
  let? bps := usb_le_u16 boot_sector 11 in
  let? spc := get_byte boot_sector 13 in
  let? reserved := usb_le_u16 boot_sector 14 in
  let? fats := get_byte boot_sector 16 in
  let? fat_size := usb_le_u32 boot_sector 36 in
  let? root := usb_le_u32 boot_sector 44 in
  let? label := get_slice boot_sector 82 90 in
  if (bps =? 0) || (device_block =? 0) || negb (bps mod device_block =? 0) || (spc =? 0)
     || (reserved =? 0) || (fats =? 0) || (fat_size =? 0) || (root <? 2)
     || negb (bool_decide (label = bstr "FAT32   "))
  then Ok None
  else Ok (Some (mkFat32Volume base device_block bps (as_u32 (bps / device_block)) spc reserved fats
             fat_size root
             (add32 base (mul32 (add32 reserved (mul32 fats fat_size)) (as_u32 (bps / device_block)))))).

(** ** Reading the device *)

Record Usb (U : Type) := mkUsb {
  us_dev : U;
  us_sector_buf : bytes;   (* the 4 KiB bounce buffer *)
  us_cluster_buf : bytes;
}.
Arguments mkUsb {U}.
Arguments us_dev {U}.
Arguments us_sector_buf {U}.
Arguments us_cluster_buf {U}.

Definition set_us_dev {U} (u : U) (s : Usb U) : Usb U := mkUsb u (us_sector_buf s) (us_cluster_buf s).
Definition set_sector_buf {U} (b : bytes) (s : Usb U) : Usb U := mkUsb (us_dev s) b (us_cluster_buf s).
Definition set_cluster_buf {U} (b : bytes) (s : Usb U) : Usb U := mkUsb (us_dev s) (us_sector_buf s) b.

Abbreviation UM U A := (ST (Usb U) unit A).

(** A transfer of [b] into the buffer [buf]. *)
Definition fill (buf b : bytes) : bytes :=
  let b := ztake (zlen buf) b in b ++ zdrop (zlen b) buf.

Section device.
Context {U : Type} `{UsbDisk U}.

(** The result of a read, and the buffer afterwards. *)
Fixpoint read_attempts (n : nat) (lba device_blocks : Z) (buf : bytes) : UM U (bool * bytes) :=
  match n with
  | O => sret (false, buf)
  | S n => fun s =>
      match read_blocks lba device_blocks (zlen buf) (us_dev s) with
      | (u, (ok, b)) =>
          let buf := fill buf b in
          if ok : bool then sret (true, buf) (set_us_dev u s)
          else read_attempts n lba device_blocks buf (set_us_dev u s)
      end
  end.

Definition read_device_sectors_once (lba device_blocks : Z) (buf : bytes) : UM U (bool * bytes) :=
  read_attempts 3 lba device_blocks buf.

(** The recursion of [read_device_sectors]; a [u16] count is halved at most 16 times. *)
Fixpoint read_device_loop (fuel : nat) (lba device_blocks : Z) (buf : bytes) : UM U (bool * bytes) :=
  if 1 <? device_blocks then
    match fuel with
    | O => sfuel
    | S fuel =>
        let bytes_per_block := zlen buf / device_blocks in
        let split_blocks := device_blocks / 2 in
        let split_bytes := split_blocks * bytes_per_block in
        let! (ok, buf) := read_device_sectors_once lba device_blocks buf in
        if ok : bool then sret (true, buf) else
        let! (ok, lbuf) := read_device_loop fuel lba split_blocks (ztake split_bytes buf) in
        if ok : bool then
          let! (ok, rbuf) := read_device_loop fuel (add32 lba split_blocks) (device_blocks - split_blocks)
                                (zdrop split_bytes buf) in
          sret (ok, lbuf ++ rbuf)
        else sret (false, lbuf ++ zdrop split_bytes buf)
    end
  else read_device_sectors_once lba device_blocks buf.

Definition read_device_sectors (lba device_blocks : Z) (buf : bytes) : UM U (bool * bytes) :=
  read_device_loop 16 lba device_blocks buf.

(** A read of the first [n] bytes of the bounce buffer. *)
Definition read_bounce (lba device_blocks n : Z) : UM U bool :=
  let! buf := sgets us_sector_buf in
  let! part := slift (get_slice buf 0 n) in
  let! (ok, part) := read_device_sectors lba device_blocks part in
  let! _ := smodify (set_sector_buf (part ++ zdrop n buf)) in
  sret ok.

Definition fat32_file_has_gguf_magic (v : Fat32Volume) (file : Fat32File) : UM U bool :=
  let! ok := read_bounce (first_device_lba_of_cluster v (first_cluster file))
               (as_u16 (device_blocks_per_fs_sector v)) (bytes_per_sector v) in
  if ok : bool then
    let! buf := sgets us_sector_buf in
    let! magic := slift (get_slice buf 0 4) in
    sret (bool_decide (magic = bstr "GGUF"))
  else sret false.

Definition read_fat_entry (v : Fat32Volume) (cluster : Z) : UM U (option Z) :=
  let '(fat_lba, offset) := fat_lba_for_cluster v cluster in
  let! ok := read_bounce fat_lba (as_u16 (device_blocks_per_fs_sector v)) (bytes_per_sector v) in
  if ok : bool then
    let! buf := sgets us_sector_buf in
    let! e := slift (usb_le_u32 buf offset) in
    sret (Some (Z.land e 0x0fffffff))
  else sret None.

(** ** Searching the directory tree *)

Record Scan := mkScan {
  sc_pending : bool;                (* pending_lfn_is_gguf *)
  sc_first : option Fat32File;      (* first_gguf_file *)
  sc_largest : option Fat32File;    (* largest_file *)
  sc_subdirs : list Z;              (* subdirs[..subdir_count] *)
}.

Definition scan_start : Scan := mkScan false None None [].

Definition or_first (found : bool) (file : Fat32File) (cur : option Fat32File) : option Fat32File :=
  if found then match cur with None => Some file | some => some end else cur.

(** One file entry: [inl] is the preferred file. *)
Definition scan_file (v : Fat32Volume) (entry : bytes) (file : Fat32File) (sc : Scan)
    : UM U (Fat32File + Scan) :=
  let! preferred := slift (fat32_entry_is_preferred_bitnet_gguf entry) in
  if preferred : bool then sret (inl file) else
  let! gguf := slift (fat32_entry_is_gguf entry) in
  let first := or_first (gguf || sc_pending sc) file (sc_first sc) in
  let! magic := fat32_file_has_gguf_magic v file in
  let first := or_first magic file first in
  let largest :=
    if (1024 * 1024 * 1024 <? file_size file)
       && match sc_largest sc with None => true | Some cur => file_size cur <? file_size file end
    then Some file else sc_largest sc in
  sret (inr (mkScan false first largest (sc_subdirs sc))).

(** The entries of one cluster: the preferred file, or the scan so far and whether the
    directory ended. *)
Fixpoint scan_entries (v : Fat32Volume) (depth : nat) (entries : list bytes) (sc : Scan)
    : UM U (Fat32File + Scan * bool) :=
  match entries with
  | [] => sret (inr (sc, false))
  | entry :: entries =>
      let! first := slift (get_byte entry 0) in
      if first =? 0 then sret (inr (sc, true)) else
      let! attr := slift (get_byte entry 11) in
      if attr =? 0x0f then
        let! lfn := slift (fat32_lfn_entry_has_gguf_suffix entry) in
        scan_entries v depth entries
          (mkScan (sc_pending sc || lfn) (sc_first sc) (sc_largest sc) (sc_subdirs sc))
      else
        let! file := slift (fat32_file_from_entry entry) in
        match file with
        | Some file =>
            let! r := scan_file v entry file sc in
            match r with
            | inl found => sret (inl found)
            | inr sc => scan_entries v depth entries sc
            end
        | None =>
            let! dir :=
              if (Nat.ltb depth 4) && (zlen (sc_subdirs sc) <? 16)
              then slift (fat32_directory_from_entry entry) else sret None in
            scan_entries v depth entries
              (mkScan false (sc_first sc) (sc_largest sc)
                 (sc_subdirs sc ++ match dir with Some c => [c] | None => [] end))
        end
  end.

(** [chunks_exact(32)]. *)
Fixpoint chunks32 (n : nat) (b : bytes) : list bytes :=
  match n with
  | O => []
  | S n => ztake 32 b :: chunks32 n (zdrop 32 b)
  end.

Definition cluster_bytes (v : Fat32Volume) : Z := bytes_per_sector v * sectors_per_cluster v.
Definition cluster_device_blocks (v : Fat32Volume) : Z := as_u16 (cluster_bytes v / device_block_size v).

Definition is_data_cluster (cluster : Z) : bool := (2 <=? cluster) && (cluster <? 0x0ffffff8).

(** [cluster_buf[..cluster_bytes]] read from the device. *)
Definition read_cluster (v : Fat32Volume) (cluster : Z) : UM U (option bytes) :=
  let! buf := sgets us_cluster_buf in
  let! part := slift (get_slice buf 0 (cluster_bytes v)) in
  let! (ok, part) := read_device_sectors (first_device_lba_of_cluster v cluster)
                       (cluster_device_blocks v) part in
  let! _ := smodify (set_cluster_buf (part ++ zdrop (cluster_bytes v) buf)) in
  sret (if ok : bool then Some part else None).

(** The cluster loop of a directory, at most 4096 clusters: [None] is a return of
    [None], [Some (inl _)] the preferred file. *)
Fixpoint scan_clusters (n : nat) (v : Fat32Volume) (depth : nat) (cluster : Z) (sc : Scan)
    : UM U (option (Fat32File + Scan)) :=
  match n with
  | O => sret (Some (inr sc))
  | S n =>
      if negb (is_data_cluster cluster) then sret (Some (inr sc)) else
      let! data := read_cluster v cluster in
      match data with
      | None => sret None
      | Some data =>
          let! r := scan_entries v depth (chunks32 (Z.to_nat (cluster_bytes v / 32)) data) sc in
          match r with
          | inl found => sret (Some (inl found))
          | inr (sc, ended) =>
              if ended : bool then sret (Some (inr sc)) else
              let! next := read_fat_entry v cluster in
              match next with
              | None => sret None
              | Some next => scan_clusters n v depth next sc
              end
          end
      end
  end.

(** [find_gguf_file_in_fat32_dir] at [depth = 4 - more]. *)
Fixpoint find_gguf_file_in_fat32_dir (more : nat) (v : Fat32Volume) (start_cluster : Z)
    : UM U (option Fat32File) :=
  let! buf := sgets us_cluster_buf in
  if zlen buf <? cluster_bytes v then sret None else
  let! r := scan_clusters 4096 v (4 - more) start_cluster scan_start in
  match r with
  | None => sret None
  | Some (inl file) => sret (Some file)
  | Some (inr sc) =>
      let! sub :=
        match more with
        | O => sret None
        | S more =>
            (fix subdirs (dirs : list Z) : UM U (option Fat32File) :=
               match dirs with
               | [] => sret None
               | dir :: dirs =>
                   let! file := find_gguf_file_in_fat32_dir more v dir in
                   match file with
                   | Some file => sret (Some file)
                   | None => subdirs dirs
                   end
               end) (sc_subdirs sc)
        end in
      match sub with
      | Some file => sret (Some file)
      | None => sret (match sc_first sc with Some file => Some file | None => sc_largest sc end)
      end
  end.

Definition find_gguf_file_in_fat32 (v : Fat32Volume) : UM U (option Fat32File) :=
  find_gguf_file_in_fat32_dir 4 v (root_cluster v).

(** ** Ingestion *)

(** What the heap holds at an offset of the allocation before it is written. *)
Context (heap : Z -> Z -> bytes).

(** [while run_clusters * cluster_bytes < USB_MAX_READ_BYTES]: extends a run of adjacent
    clusters; its last cluster, its length, and the FAT entry of the last cluster. *)
Fixpoint extend_run (fuel : nat) (v : Fat32Volume) (size copied cluster run_clusters : Z)
    (next_cluster : option Z) : UM U (Z * Z * option Z) :=
  if negb (run_clusters * cluster_bytes v <? USB_MAX_READ_BYTES)
  then sret (cluster, run_clusters, next_cluster) else
  match next_cluster with
  | Some next =>
      if (next =? add32 cluster 1) && (copied + run_clusters * cluster_bytes v <? size) then
        match fuel with
        | O => sfuel
        | S fuel =>
            let! entry := read_fat_entry v next in
            extend_run fuel v size copied next (run_clusters + 1) entry
        end
      else sret (cluster, run_clusters, next_cluster)
  | None => sret (cluster, run_clusters, next_cluster)
  end.

(** The copy loop of a FAT32 file into the allocation of [alloc_size] bytes; [out] is
    what has been copied.  A run that does not fit the allocation is a panic here. *)
Fixpoint ingest_fat32 (fuel : nat) (v : Fat32Volume) (size alloc_size cluster : Z) (out : bytes)
    : UM U bytes :=
  if negb ((zlen out <? size) && is_data_cluster cluster) then sret out else
  match fuel with
  | O => sfuel
  | S fuel =>
      let! next := read_fat_entry v cluster in
      let! (last, run_clusters, next) :=
        extend_run (Z.to_nat (div_ceil USB_MAX_READ_BYTES (cluster_bytes v))) v size (zlen out) cluster 1 next in
      let run_bytes := run_clusters * cluster_bytes v in
      if alloc_size <? zlen out + run_bytes then slift Panic else
      let! (ok, run) :=
        read_device_sectors (first_device_lba_of_cluster v cluster)
          (as_u16 (cluster_device_blocks v * run_clusters)) (heap (zlen out) run_bytes) in
      if ok : bool then
        let out := ztake size (out ++ run) in
        if zlen out <? size then
          match next with
          | Some next => ingest_fat32 fuel v size alloc_size next out
          | None => sret out
          end
        else sret out
      else sret out
  end.

(** The copy loop of a raw image. *)
Fixpoint ingest_raw (fuel : nat) (block_size start_lba total_blocks burst_blocks alloc_size blocks_done : Z)
    (out : bytes) : UM U (bool * bytes) :=
  if negb (blocks_done <? total_blocks) then sret (true, out) else
  match fuel with
  | O => sfuel
  | S fuel =>
      let count := Z.min (total_blocks - blocks_done) burst_blocks in
      if alloc_size <? blocks_done * block_size + count * block_size then slift Panic else
      let! (ok, run) :=
        read_device_sectors (add32 start_lba (as_u32 blocks_done)) (as_u16 count)
          (heap (blocks_done * block_size) (count * block_size)) in
      if ok : bool then
        ingest_raw fuel block_size start_lba total_blocks burst_blocks alloc_size
          (blocks_done + count) (out ++ run)
      else sret (false, out)
  end.

(** What the probes found. *)
Inductive Probe :=
  | ProbeRaw (start_lba : Z)
  | ProbeFile (v : Fat32Volume) (file : Fat32File)
  | ProbeNothing.

(** [for base_lba in candidates]. *)
Fixpoint probe_candidates (block_size : Z) (candidates : list Z) : UM U Probe :=
  match candidates with
  | [] => sret ProbeNothing
  | base :: candidates =>
      let! ok := read_bounce base 1 block_size in
      if negb ok then probe_candidates block_size candidates else
      let! buf := sgets us_sector_buf in
      let! magic := slift (get_slice buf 0 4) in
      if bool_decide (magic = bstr "GGUF") then sret (ProbeRaw base) else
      let! sector := slift (get_slice buf 0 block_size) in
      let! vol := slift (parse_fat32_volume base block_size sector) in
      match vol with
      | None => probe_candidates block_size candidates
      | Some v =>
          let! _ := smodify (set_cluster_buf (zeros (cluster_bytes v))) in
          let! file := find_gguf_file_in_fat32 v in
          match file with
          | Some file => sret (ProbeFile v file)
          | None => probe_candidates block_size candidates
          end
      end
  end.

(** The partition candidates from the master boot record. *)
Definition partition_candidates (block_size : Z) : UM U (list Z) :=
  let! ok := read_bounce 0 1 block_size in
  let! (part_type, part_start) :=
    if ok : bool then
      let! buf := sgets us_sector_buf in
      let! t := slift (get_byte buf (446 + 4)) in
      let! st := slift (usb_le_u32 buf (446 + 8)) in
      sret (t, st)
    else sret (0, 0) in
  sret ((if ((part_type =? 0x0b) || (part_type =? 0x0c)) && (0 <? part_start) then [part_start] else [])
        ++ [2048]).

(** The heap allocator and the rounding of the align_address crate. *)
Context (alloc : Z -> Z -> option Z) (align_up : Z -> Z -> Z).

(** The model read from the device: its address, size, contents and source. *)
Record Ingested := mkIngested {
  in_address : Z;
  in_size : Z;
  in_bytes : bytes;
  in_source : bytes;
}.

(** The ingestion of [init_device_with_irq] from an active mass-storage device on, up to
    [set_model_info_with_source]; [None] when nothing was loaded. *)
Definition ingest_model (block_size : Z) : UM U (option Ingested) :=
  let! candidates := partition_candidates block_size in
  let! probe := probe_candidates block_size candidates in
  let model_size :=
    match probe with ProbeFile _ file => file_size file | _ => RAW_GGUF_FALLBACK_SIZE end in
  let model_alloc_size := align_up model_size USB_MAX_READ_BYTES in
  match layout_from_size_align model_alloc_size 4096 with
  | None => slift Panic
  | Some (size, align) =>
  match alloc size align with
  | None => sret None
  | Some target_base =>
      match probe with
      | ProbeFile v file =>
          let! out := ingest_fat32 (Z.to_nat (div_ceil model_size (cluster_bytes v))) v model_size model_alloc_size
                        (first_cluster file) [] in
          if model_size <=? zlen out
          then sret (Some (mkIngested target_base model_size out (bstr "usb-msc-fat32")))
          else sret None
      | ProbeRaw start_lba =>
          if block_size =? 0 then slift Panic else
          let burst_blocks := Z.min USB_MAX_READ_BYTES (U16_MAX * block_size) / block_size in
          let total_blocks := (model_size + block_size - 1) / block_size in
          let! (ok, out) := ingest_raw (Z.to_nat total_blocks) block_size start_lba total_blocks
                              burst_blocks model_alloc_size 0 [] in
          if ok : bool
          then sret (Some (mkIngested target_base model_size out (bstr "usb-msc-raw")))
          else sret None
      | ProbeNothing => sret None
      end
  end
  end.
End device.
