(* ===== verification/Fat32Theorems.v ===== *)
(** * Finding and reading the model on a USB stick: theorems

    [UsbDiskSpec] is the contract of a mass-storage device; [file_bytes] is the file a
    FAT chain stands for, read cluster by cluster.  The ingestion, which reads runs of
    adjacent clusters with retries and splitting, copies exactly that file. *)

From stdpp Require Import gmap.
From S2P Require Import Prelude Fat32.

(** A device of [ub_bs]-byte blocks: reads never change it, a successful one delivers
    its blocks, and a working one serves every request of up to 4 MiB below [ub_count]. *)
Class UsbDiskSpec (U : Type) `{UsbDisk U} := {
  ub_bs : Z;
  ub_bs_pos : 0 < ub_bs;
  ub_count : Z;
  ub_count_le : ub_count <= 2 ^ 32;
  ub_block : U -> Z -> bytes;
  ub_block_len u l : zlen (ub_block u l) = ub_bs;
  ub_ok : U -> Prop;
  ub_frame u lba n len u' r l : read_blocks lba n len u = (u', r) -> ub_block u' l = ub_block u l;
  ub_data u lba n u' b :
    0 <= lba -> 0 < n <= U16_MAX -> lba + n <= ub_count ->
    read_blocks lba n (n * ub_bs) u = (u', (true, b)) ->
    b = concat ((fun i => ub_block u (lba + Z.of_nat i)) <$> seq 0 (Z.to_nat n));
  ub_live u lba n u' r :
    ub_ok u -> 0 <= lba -> 0 < n <= U16_MAX -> lba + n <= ub_count -> n * ub_bs <= USB_MAX_READ_BYTES ->
    read_blocks lba n (n * ub_bs) u = (u', r) -> fst r = true /\ ub_ok u';
}.

Section reads.
Context {U : Type} `{UsbDiskSpec U}.
Implicit Types (u : U) (s : Usb U).

(** [n] blocks from [lba] on. *)
Definition blocks u (lba n : Z) : bytes :=
  concat ((fun i => ub_block u (lba + Z.of_nat i)) <$> seq 0 (Z.to_nat n)).

Definition same_disk u u' : Prop := forall l, ub_block u' l = ub_block u l.

#[export] Instance same_disk_equiv : Equivalence same_disk.
Proof. unfold same_disk. split; red; intros; try done; congruence. Qed.

Lemma blocks_same u u' lba n : same_disk u u' -> blocks u' lba n = blocks u lba n.
Proof. intros Hs. unfold blocks. f_equal. apply list_fmap_ext. intros. apply Hs. Qed.

Lemma blocks_S u lba n : 0 <= n -> blocks u lba (n + 1) = ub_block u lba ++ blocks u (lba + 1) n.
Proof.
  intros Hn. unfold blocks. replace (Z.to_nat (n + 1)) with (S (Z.to_nat n)) by lia.
  cbn [seq fmap list_fmap concat]. rewrite Z.add_0_r. f_equal.
  rewrite <- seq_shift, <- list_fmap_compose. f_equal. apply list_fmap_ext.
  intros j x _. unfold compose. f_equal. lia.
Qed.

Lemma blocks_app u lba n k :
  0 <= n -> 0 <= k -> blocks u lba (n + k) = blocks u lba n ++ blocks u (lba + n) k.
Proof.
  intros Hn Hk. revert lba. pattern n. apply natlike_ind; [|clear n Hn|done].
  - intros lba. by rewrite Z.add_0_l, Z.add_0_r.
  - intros n Hn IH lba. unfold Z.succ. replace (n + 1 + k) with (n + k + 1) by lia.
    rewrite !blocks_S, IH, <- app_assoc by lia. do 3 f_equal. lia.
Qed.

Lemma zlen_blocks u lba n : 0 <= n -> zlen (blocks u lba n) = n * ub_bs.
Proof.
  intros Hn. revert lba. pattern n. apply natlike_ind; [done|clear n Hn|done].
  intros n Hn IH lba. unfold Z.succ. rewrite blocks_S, zlen_app, IH, ub_block_len by lia. lia.
Qed.

Lemma zlen_fill (buf b : bytes) : zlen (fill buf b) = zlen buf.
Proof.
  unfold fill. pose proof (zlen_nonneg buf). pose proof (zlen_nonneg b).
  rewrite zlen_app, zlen_zdrop by apply zlen_nonneg. rewrite zlen_ztake. lia.
Qed.

Lemma fill_all (buf b : bytes) : zlen b = zlen buf -> fill buf b = b.
Proof.
  intros Hl. unfold fill. rewrite ztake_all by lia. rewrite zdrop_all by lia. apply app_nil_r.
Qed.

Section working.
Context (G : Prop).

(** The outcome of a read into [buf]: the blocks, or, on a device that may fail, any
    bytes of the same length. *)
Definition read_post s (lba n : Z) (buf : bytes) (Q : bool * bytes -> Usb U -> Prop) : Prop :=
  (forall u, same_disk (us_dev s) u -> (G -> ub_ok u) -> Q (true, blocks (us_dev s) lba n) (set_us_dev u s)) /\
  (forall u b, ~ G -> same_disk (us_dev s) u -> zlen b = zlen buf -> Q (false, b) (set_us_dev u s)).

Lemma wp_read_attempts k s lba n buf Q X :
  (G -> ub_ok (us_dev s) /\ k <> 0%nat) -> 0 <= lba -> 0 < n <= U16_MAX -> lba + n <= ub_count ->
  n * ub_bs <= USB_MAX_READ_BYTES ->
  zlen buf = n * ub_bs -> read_post s lba n buf Q -> wp (read_attempts k lba n buf) Q X s.
Proof.
  revert s buf. induction k as [|k IH]; intros s buf Hok Hl Hn Hfit Hmax Hbuf [HQ HF]; cbn [read_attempts].
  { apply wp_ret. destruct s as [d sb cb]. apply (HF d); [intros g; by destruct (Hok g)|done|done]. }
  Transparent wp. unfold wp. Opaque wp. rewrite Hbuf.
  destruct (read_blocks lba n (n * ub_bs) (us_dev s)) as [u [ok b]] eqn:E.
  assert (same_disk (us_dev s) u) as Hs by (intros l; by eapply ub_frame).
  destruct ok.
  - apply ub_data in E as Hb; [|done..]. fold (blocks (us_dev s) lba n) in Hb. subst b.
    rewrite fill_all by (rewrite zlen_blocks; lia). cbn. apply HQ; [done|].
    intros g. destruct (Hok g) as [Hg _]. by destruct (ub_live _ _ _ _ _ Hg Hl Hn Hfit Hmax E).
  - assert (~ G) as HG.
    { intros g. destruct (Hok g) as [Hg _]. by destruct (ub_live _ _ _ _ _ Hg Hl Hn Hfit Hmax E). }
    apply (IH (set_us_dev u s) (fill buf b)); rewrite ?zlen_fill; try done.
    split; cbn [us_dev set_us_dev us_sector_buf us_cluster_buf].
    + intros u2 Hs2 _. rewrite (blocks_same (us_dev s) u) by done. apply HQ; [by etrans|done].
    + intros u2 b2 _ Hs2 Hb2. rewrite zlen_fill in Hb2. apply HF; [done|by etrans|done].
Qed.

Lemma wp_read_device_loop fuel s lba n buf Q X :
  (G -> ub_ok (us_dev s)) -> 0 <= lba -> 0 < n <= U16_MAX -> n <= 2 ^ Z.of_nat fuel -> lba + n <= ub_count ->
  n * ub_bs <= USB_MAX_READ_BYTES ->
  zlen buf = n * ub_bs -> read_post s lba n buf Q -> wp (read_device_loop fuel lba n buf) Q X s.
Proof.
  pose proof ub_bs_pos as Hbs. pose proof ub_count_le as Hcount. revert s lba n buf Q.
  induction fuel as [|fuel IH]; intros s lba n buf Q Hok Hl Hn Hf Hfit Hmax Hbuf Hpost;
    cbn [read_device_loop]; destruct (1 <? n) eqn:E; bool_to_prop; try (by apply wp_read_attempts; auto).
  { cbn in Hf. lia. }
  rewrite Nat2Z.inj_succ, Z.pow_succ_r in Hf by lia.
  pose proof (Z.div_mod n 2 ltac:(done)). pose proof (Z.mod_pos_bound n 2 ltac:(done)).
  set (h := n / 2) in *. assert (0 < h < n /\ h <= 2 ^ Z.of_nat fuel /\ n - h <= 2 ^ Z.of_nat fuel) as (Hh & Hh1 & Hh2) by lia.
  rewrite Hbuf, (Z.mul_comm n ub_bs), Z.div_mul by lia. clearbody h. destruct Hpost as [HQ HF].
  apply wp_bind, wp_read_attempts; [auto|done|done|done|done|done|]. split.
  { intros u Hs Hu. apply wp_ret. by apply HQ. }
  intros u b HG Hs Hb. cbn beta iota. apply wp_bind, IH; [done|done|lia|done|lia|nia| |].
  { rewrite zlen_ztake. lia. }
  split; cbn [us_dev set_us_dev us_sector_buf us_cluster_buf].
  - intros u2 Hs2 _. cbn beta iota. unfold add32, as_u32. destruct (decide (lba + h < 2 ^ 32)) as [Hlt|]; [|lia].
    change (2 ^ 32) with 4294967296 in *. rewrite Z.mod_small by lia.
    apply wp_bind, IH; [done|lia|lia|done|lia|nia| |].
    { rewrite zlen_zdrop by lia. lia. }
    assert (same_disk (us_dev s) u2) as Hs3 by (by etrans).
    split; cbn [us_dev set_us_dev us_sector_buf us_cluster_buf].
    + intros u3 Hs4 _. apply wp_ret. rewrite (blocks_same (us_dev s) u), (blocks_same (us_dev s) u2) by done.
      rewrite <- blocks_app by lia. replace (h + (n - h)) with n by lia. apply HQ; [by etrans|done].
    + intros u3 b3 _ Hs4 Hb3. apply wp_ret. apply HF; [done|by etrans|].
      rewrite zlen_app, Hb3, zlen_zdrop, zlen_blocks by lia. lia.
  - intros u2 b2 _ Hs2 Hb2. apply wp_ret, HF; [done|by etrans|].
    rewrite zlen_app, Hb2, zlen_ztake, zlen_zdrop by lia. lia.
Qed.

Lemma wp_read_device_sectors s lba n buf Q X :
  (G -> ub_ok (us_dev s)) -> 0 <= lba -> 0 < n <= U16_MAX -> lba + n <= ub_count ->
  n * ub_bs <= USB_MAX_READ_BYTES ->
  zlen buf = n * ub_bs -> read_post s lba n buf Q -> wp (read_device_sectors lba n buf) Q X s.
Proof. intros. apply wp_read_device_loop; try done. unfold U16_MAX in *. cbn. lia. Qed.

(** ** Geometry *)

Definition cluster_blocks (v : Fat32Volume) : Z := sectors_per_cluster v * device_blocks_per_fs_sector v.

(** A volume whose sectors fit the 4 KiB bounce buffer and whose cluster size divides
    the read limit of 4 MiB, as the FAT specification demands. *)
Definition vol_ok (v : Fat32Volume) : Prop :=
  device_block_size v = ub_bs /\ USB_MAX_READ_BYTES <= U16_MAX * ub_bs /\
  0 < device_blocks_per_fs_sector v /\ bytes_per_sector v = device_blocks_per_fs_sector v * ub_bs /\
  bytes_per_sector v mod 4 = 0 /\ bytes_per_sector v <= 4096 /\
  0 < sectors_per_cluster v /\ (cluster_bytes v | USB_MAX_READ_BYTES) /\
  0 <= base_lba v /\ 0 <= reserved_sectors v /\ 0 <= num_fats v /\ 0 <= fat_size_sectors v.

(** Where a cluster and its FAT entry are, without overflow. *)
Definition cluster_lba (v : Fat32Volume) (c : Z) : Z :=
  base_lba v + (reserved_sectors v + num_fats v * fat_size_sectors v + (c - 2) * sectors_per_cluster v)
               * device_blocks_per_fs_sector v.
Definition fat_lba (v : Fat32Volume) (c : Z) : Z :=
  base_lba v + (reserved_sectors v + c * 4 / bytes_per_sector v) * device_blocks_per_fs_sector v.

Definition cluster_ok (v : Fat32Volume) (c : Z) : Prop :=
  2 <= c < 0x0ffffff8 /\ cluster_lba v c + cluster_blocks v <= ub_count /\
  fat_lba v c + device_blocks_per_fs_sector v <= ub_count.

Lemma as_u32_small x : 0 <= x < 2 ^ 32 -> as_u32 x = x.
Proof. apply Z.mod_small. Qed.

Lemma lba_for_sector v sector :
  0 <= base_lba v -> 0 <= sector -> 0 < device_blocks_per_fs_sector v ->
  base_lba v + sector * device_blocks_per_fs_sector v < 2 ^ 32 ->
  device_lba_for_fs_sector v sector = base_lba v + sector * device_blocks_per_fs_sector v.
Proof.
  intros. assert (0 <= sector * device_blocks_per_fs_sector v) by nia.
  unfold device_lba_for_fs_sector, add32, mul32. rewrite (as_u32_small (sector * _)) by lia.
  apply as_u32_small. lia.
Qed.

Lemma cluster_blocks_pos v : vol_ok v -> 0 < cluster_blocks v.
Proof. unfold vol_ok, cluster_blocks. intros. destruct_and!. nia. Qed.

Lemma cluster_bytes_blocks v : vol_ok v -> cluster_bytes v = cluster_blocks v * ub_bs.
Proof. unfold vol_ok, cluster_blocks, cluster_bytes. intros. destruct_and!. nia. Qed.

Lemma cluster_bytes_pos v : vol_ok v -> 0 < cluster_bytes v.
Proof.
  intros Hv. rewrite cluster_bytes_blocks by done. pose proof (cluster_blocks_pos v Hv).
  pose proof ub_bs_pos. pose proof ub_count_le. nia.
Qed.

Lemma cluster_device_blocks_exact v : vol_ok v -> cluster_device_blocks v = cluster_blocks v.
Proof.
  intros Hv. pose proof (cluster_blocks_pos v Hv). pose proof ub_bs_pos.
  pose proof (cluster_bytes_blocks v Hv) as Hcb. unfold cluster_device_blocks. rewrite Hcb.
  destruct Hv as (-> & Hm & _ & _ & _ & _ & _ & Hd & _). rewrite Z.div_mul by lia.
  unfold as_u16. apply Z.mod_small. apply Z.divide_pos_le in Hd; [|done]. unfold U16_MAX in *. nia.
Qed.

Lemma first_lba_exact v c :
  vol_ok v -> cluster_ok v c -> first_device_lba_of_cluster v c = cluster_lba v c /\ 0 <= cluster_lba v c.
Proof.
  intros Hv (Hc & Hl & _). pose proof (cluster_blocks_pos v Hv) as Hb. pose proof ub_count_le.
  unfold vol_ok in Hv. destruct_and! Hv.
  unfold first_device_lba_of_cluster, cluster_lba in *.
  set (nf := num_fats v * fat_size_sectors v) in *. assert (0 <= nf) by (unfold nf; nia).
  set (cs := (c - 2) * sectors_per_cluster v) in *. assert (0 <= cs) by (unfold cs; nia).
  assert (reserved_sectors v + nf + cs < 2 ^ 32) by nia.
  unfold add32, mul32, sub32. rewrite (as_u32_small (c - 2)) by lia. fold nf cs.
  rewrite (as_u32_small nf), (as_u32_small cs) by lia.
  rewrite (as_u32_small (reserved_sectors v + nf)) by lia.
  rewrite (as_u32_small (reserved_sectors v + nf + cs)) by lia.
  rewrite lba_for_sector; try done; try lia; nia.
Qed.

Lemma fat_lba_exact v c :
  vol_ok v -> cluster_ok v c ->
  fat_lba_for_cluster v c = (fat_lba v c, (c * 4) mod bytes_per_sector v) /\ 0 <= fat_lba v c /\
  0 <= (c * 4) mod bytes_per_sector v /\ (c * 4) mod bytes_per_sector v + 4 <= bytes_per_sector v.
Proof.
  intros Hv (Hc & _ & Hl). unfold vol_ok in Hv. destruct_and! Hv. pose proof ub_bs_pos. pose proof ub_count_le.
  assert (0 < bytes_per_sector v) as Hb by nia. unfold fat_lba_for_cluster, fat_lba in *.
  pose proof (Z.div_pos (c * 4) (bytes_per_sector v) ltac:(lia) Hb) as Hq.
  pose proof (Z.mod_pos_bound (c * 4) (bytes_per_sector v) Hb).
  assert (((c * 4) mod bytes_per_sector v) mod 4 = 0) as Hm4.
  { assert (bytes_per_sector v = 4 * (bytes_per_sector v / 4)) as Hd by (apply Z.div_exact; done).
    rewrite (Z.mul_comm c 4). rewrite Hd. rewrite Z.mul_mod_distr_l by lia.
    rewrite Z.mul_comm. apply Z.mod_mul. lia. }
  unfold mul32 at 1. rewrite (as_u32_small (c * 4)) by lia. unfold mul32. rewrite (as_u32_small (c * 4)) by lia.
  set (q := c * 4 / bytes_per_sector v) in *.
  assert (reserved_sectors v + q < 2 ^ 32) by nia.
  unfold add32. rewrite (as_u32_small (reserved_sectors v + q)) by lia.
  rewrite lba_for_sector by (done || lia). split; [done|]. split; [nia|]. split; [lia|].
  apply Z.div_exact in Hm4; [|done]. assert (bytes_per_sector v = 4 * (bytes_per_sector v / 4)) by (apply Z.div_exact; done).
  lia.
Qed.

(** ** The file a chain stands for *)

Context (u0 : U) (v : Fat32Volume) (Hv : vol_ok v).

Definition fat_entry (c : Z) : Z :=
  match usb_le_u32 (blocks u0 (fat_lba v c) (device_blocks_per_fs_sector v)) ((c * 4) mod bytes_per_sector v) with
  | Ok e => Z.land e 0x0fffffff
  | _ => 0
  end.

Definition cluster_data (c : Z) : bytes := blocks u0 (cluster_lba v c) (cluster_blocks v).

Fixpoint chain (k : nat) (c : Z) : list Z :=
  match k with O => [] | S k => c :: chain k (fat_entry c) end.

Definition chain_data (k : nat) (c : Z) : bytes := concat (cluster_data <$> chain k c).

Definition clusters_for (size : Z) : nat := Z.to_nat (div_ceil size (cluster_bytes v)).

Definition file_bytes (c size : Z) : bytes := ztake size (chain_data (clusters_for size) c).

Lemma zlen_cluster_data c : zlen (cluster_data c) = cluster_bytes v.
Proof.
  unfold cluster_data. rewrite zlen_blocks, <- cluster_bytes_blocks; [done|done|].
  pose proof (cluster_blocks_pos v Hv). lia.
Qed.

Lemma zlen_chain_data k c : zlen (chain_data k c) = Z.of_nat k * cluster_bytes v.
Proof.
  revert c. induction k as [|k IH]; intros c; [done|]. unfold chain_data in *. cbn [chain fmap list_fmap concat].
  rewrite zlen_app, IH, zlen_cluster_data. lia.
Qed.

(** [r] adjacent clusters, each linked to the next. *)
Definition linked (c r : Z) : Prop := forall i, 0 <= i < r - 1 -> fat_entry (c + i) = c + i + 1.

Lemma linked_chain k c r :
  linked c r -> 1 <= r <= Z.of_nat k ->
  chain k c = seqZ c r ++ chain (k - Z.to_nat r) (fat_entry (c + r - 1)).
Proof.
  revert c r. induction k as [|k IH]; intros c r Hl Hr; [lia|].
  rewrite seqZ_cons by lia. cbn [chain app]. f_equal. destruct (decide (r = 1)) as [->|].
  - rewrite Z.add_simpl_r. by replace (S k - Z.to_nat 1)%nat with k by lia.
  - assert (fat_entry c = c + 1) as ->.
    { specialize (Hl 0 ltac:(lia)). by rewrite Z.add_0_r in Hl. }
    rewrite (IH (c + 1) (r - 1)).
    + unfold Z.succ, Z.pred. f_equal. f_equal; [lia|]. f_equal. lia.
    + intros i Hi. specialize (Hl (i + 1) ltac:(lia)). replace (c + 1 + i) with (c + (i + 1)) by lia. lia.
    + lia.
Qed.

(** A run of adjacent clusters is one extent of the device. *)
Lemma run_data c r :
  0 <= r -> concat (cluster_data <$> seqZ c r) = blocks u0 (cluster_lba v c) (r * cluster_blocks v).
Proof.
  pose proof (cluster_blocks_pos v Hv) as Hb. intros Hr. revert c. pattern r.
  apply natlike_ind; [done|clear r Hr|done]. intros r Hr IH c.
  rewrite seqZ_cons by lia. cbn [fmap list_fmap concat]. replace (Z.pred (Z.succ r)) with r by lia.
  rewrite IH. replace (Z.succ r * cluster_blocks v) with (cluster_blocks v + r * cluster_blocks v) by lia.
  rewrite blocks_app by nia. unfold cluster_data. do 2 f_equal. unfold cluster_lba, cluster_blocks. lia.
Qed.

Lemma linked_chain_data k c r :
  linked c r -> 1 <= r <= Z.of_nat k ->
  chain_data k c = blocks u0 (cluster_lba v c) (r * cluster_blocks v)
                   ++ chain_data (k - Z.to_nat r) (fat_entry (c + r - 1)).
Proof.
  intros Hl Hr. unfold chain_data. rewrite (linked_chain k c r) by done.
  rewrite fmap_app, concat_app, run_data by lia. done.
Qed.

Lemma usb_le_u32_app (a b : bytes) off :
  0 <= off -> off + 4 <= zlen a ->
  usb_le_u32 (a ++ b) off = usb_le_u32 a off /\ exists e, usb_le_u32 a off = Ok e.
Proof.
  intros Ho Ha. assert (forall i, off <= i < off + 4 -> get_byte (a ++ b) i = get_byte a i /\ exists x, get_byte a i = Ok x) as Hb.
  { intros i Hi. unfold get_byte, zlen in *. rewrite lookup_app_l by lia.
    destruct (lookup_lt_is_Some_2 a (Z.to_nat i)) as [x ->]; [lia|]. eauto. }
  unfold usb_le_u32, usb_le_u16.
  destruct (Hb off) as [-> [x0 ->]]; [lia|]. destruct (Hb (off + 1)) as [-> [x1 ->]]; [lia|].
  destruct (Hb (off + 2)) as [-> [x2 ->]]; [lia|]. destruct (Hb (off + 2 + 1)) as [-> [x3 ->]]; [lia|].
  cbn. eauto.
Qed.

(** What holds between two reads of the ingestion. *)
Definition usb_inv s : Prop :=
  same_disk u0 (us_dev s) /\ (G -> ub_ok (us_dev s)) /\ zlen (us_sector_buf s) = 4096.

Lemma wp_read_bounce s lba n len Q X :
  usb_inv s -> 0 <= lba -> 0 < n <= U16_MAX -> lba + n <= ub_count -> len = n * ub_bs -> len <= 4096 ->
  (forall s', usb_inv s' -> (exists b, us_sector_buf s' = blocks u0 lba n ++ b) -> Q true s') ->
  (forall s', ~ G -> usb_inv s' -> Q false s') ->
  wp (read_bounce lba n len) Q X s.
Proof.
  intros (Hs & Hok & Hz) Hl Hn Hfit -> Hlen HQ HF. pose proof ub_bs_pos. pose proof ub_count_le. unfold read_bounce.
  apply wp_bind, wp_gets, wp_bind. eapply wp_lift_ok; [apply get_slice_ok; nia|].
  apply wp_bind, wp_read_device_sectors; try done.
  { unfold USB_MAX_READ_BYTES, MIB. lia. }
  { rewrite zlen_slice by nia. lia. }
  split; intros; apply wp_bind, wp_modify, wp_ret; [apply HQ|apply HF; [done|]].
  - split; [by etrans|]. split; [done|]. cbn. rewrite zlen_app, zlen_blocks, zlen_zdrop by nia. nia.
  - cbn. rewrite (blocks_same u0) by done. eauto.
  - split; [by etrans|]. split; [done|]. cbn. rewrite zlen_app, zlen_zdrop by nia.
    match goal with H : zlen _ = zlen (slice _ _ _) |- _ => rewrite H end.
    rewrite zlen_slice by nia. nia.
Qed.

Lemma wp_read_fat_entry s c Q X :
  usb_inv s -> cluster_ok v c ->
  (forall s', usb_inv s' -> Q (Some (fat_entry c)) s') ->
  (forall s', ~ G -> usb_inv s' -> Q None s') ->
  wp (read_fat_entry v c) Q X s.
Proof.
  intros Hs Hc HQ HF. pose proof ub_bs_pos. pose proof ub_count_le. destruct (fat_lba_exact v c Hv Hc) as (E & Hl & Ho & Ho4).
  unfold read_fat_entry. rewrite E. pose proof Hv as Hv'. unfold vol_ok in Hv'. destruct_and! Hv'.
  destruct Hc as (_ & _ & Hfit).
  assert (as_u16 (device_blocks_per_fs_sector v) = device_blocks_per_fs_sector v) as ->
    by (unfold as_u16; apply Z.mod_small; nia).
  apply wp_bind, wp_read_bounce; try done.
  - unfold U16_MAX. nia.
  - intros s' Hs' [b Hb]. cbn beta iota. apply wp_bind, wp_gets, wp_bind.
    destruct (usb_le_u32_app (blocks u0 (fat_lba v c) (device_blocks_per_fs_sector v)) b
                ((c * 4) mod bytes_per_sector v)) as [Ha [e He]]; [done|rewrite zlen_blocks; lia|].
    eapply wp_lift_ok; [by rewrite Hb, Ha|]. apply wp_ret.
    specialize (HQ s' Hs'). unfold fat_entry in HQ. by rewrite He in HQ.
Qed.

(** The end of a run: adjacent clusters of the chain, within the read limit. *)
Definition run_of (k : nat) (c : Z) (last r : Z) (next : option Z) : Prop :=
  1 <= r <= Z.of_nat k /\ last = c + r - 1 /\ linked c r /\ r * cluster_bytes v <= USB_MAX_READ_BYTES /\
  (next = Some (fat_entry last) \/ ~ G /\ next = None).

Lemma run_member k c r :
  Forall (cluster_ok v) (chain k c) -> linked c r -> 1 <= r <= Z.of_nat k -> cluster_ok v (c + r - 1).
Proof.
  intros Hf Hl Hr. rewrite (linked_chain k c r) in Hf by done. apply Forall_app in Hf as [Hf _].
  rewrite Forall_forall in Hf. apply Hf, elem_of_seqZ. lia.
Qed.

Lemma wp_extend_run fuel s (k : nat) (c last r size copied : Z) next Q X :
  usb_inv s -> Forall (cluster_ok v) (chain k c) -> run_of k c last r next ->
  USB_MAX_READ_BYTES / cluster_bytes v <= Z.of_nat fuel + r ->
  size - copied <= Z.of_nat k * cluster_bytes v ->
  (forall s' last r next, usb_inv s' -> run_of k c last r next -> Q (last, r, next) s') ->
  wp (extend_run fuel v size copied last r next) Q X s.
Proof.
  pose proof (cluster_bytes_pos v Hv) as Hcb.
  assert (cluster_bytes v | USB_MAX_READ_BYTES) as [q Hq] by (unfold vol_ok in Hv; tauto).
  intros Hs Hf. revert s last r next Hs. induction fuel as [|fuel IH];
    intros s last r next Hs Hrun Hfuel Hsize HQ; pose proof Hrun as (Hr & Hlast & Hl & Hm & Hn);
    cbn [extend_run]; (destruct (negb _) eqn:E; [by apply wp_ret, HQ|]; bool_to_prop);
    rewrite Hq, Z.div_mul in Hfuel by lia;
    (destruct next as [nx|]; [|by apply wp_ret, HQ]);
    (destruct (_ && _) eqn:E2; [|by apply wp_ret, HQ]; bool_to_prop); [nia|].
  destruct Hn as [[= ->]|[_ [=]]].
  pose proof (run_member k c r Hf Hl Hr) as Hc. rewrite <- Hlast in Hc.
  unfold add32 in *. destruct Hc as ((? & ?) & _ & _). rewrite as_u32_small in * by lia.
  assert (linked c (r + 1)) as Hl'.
  { intros i Hi. destruct (decide (i = r - 1)) as [->|]; [|apply Hl; lia].
    replace (c + (r - 1)) with last by lia. lia. }
  assert (1 <= r + 1 <= Z.of_nat k) as Hr' by nia.
  assert (c + (r + 1) - 1 = fat_entry last) as Hlast' by lia.
  pose proof (run_member k c (r + 1) Hf Hl' Hr') as Hc'. rewrite Hlast' in Hc'.
  assert ((r + 1) * cluster_bytes v <= USB_MAX_READ_BYTES) as Hm'.
  { rewrite Hq in *. apply Z.mul_le_mono_nonneg_r; [lia|].
    apply Z.mul_lt_mono_pos_r in E; lia. }
  apply wp_bind, wp_read_fat_entry; [done|done|..].
  - intros s' Hs'. apply IH; try done; [|rewrite Hq, Z.div_mul; lia]. split_and!; try lia; try done; by left.
  - intros s' HG Hs'. apply IH; try done; [|rewrite Hq, Z.div_mul; lia]. split_and!; try lia; try done; by right.
Qed.

Context (heap : Z -> Z -> bytes) (Hheap : forall off n, 0 <= n -> zlen (heap off n) = n).

Lemma clusters_for_bounds size :
  0 < size -> (Z.of_nat (clusters_for size) - 1) * cluster_bytes v < size <= Z.of_nat (clusters_for size) * cluster_bytes v.
Proof.
  pose proof (cluster_bytes_pos v Hv) as Hcb. intros Hs. unfold clusters_for, div_ceil.
  pose proof (Z.div_mod (size + cluster_bytes v - 1) (cluster_bytes v) ltac:(lia)).
  pose proof (Z.mod_pos_bound (size + cluster_bytes v - 1) (cluster_bytes v) Hcb).
  pose proof (Z.div_pos (size + cluster_bytes v - 1) (cluster_bytes v) ltac:(lia) Hcb).
  rewrite Z2Nat.id by done. nia.
Qed.

(** The invariant of the copy loop: [k] clusters from [c] on are left of the chain. *)
Definition copying (c0 size : Z) (k : nat) (c : Z) (out : bytes) : Prop :=
  out ++ chain_data k c = chain_data (clusters_for size) c0 /\ Forall (cluster_ok v) (chain k c) /\ (0 < k)%nat.

Definition ingest_post (c0 size : Z) (out : bytes) : Prop :=
  out `prefix_of` file_bytes c0 size /\ (G -> out = file_bytes c0 size).

Lemma copying_facts c0 size k c out :
  0 < size -> copying c0 size k c out ->
  zlen out + Z.of_nat k * cluster_bytes v = Z.of_nat (clusters_for size) * cluster_bytes v /\
  zlen out < size /\ out `prefix_of` file_bytes c0 size.
Proof.
  intros Hs (He & _ & Hk). pose proof (clusters_for_bounds size Hs). pose proof (cluster_bytes_pos v Hv).
  assert (zlen out + Z.of_nat k * cluster_bytes v = Z.of_nat (clusters_for size) * cluster_bytes v) as Hz.
  { rewrite <- (zlen_chain_data k c), <- zlen_app, He. apply zlen_chain_data. }
  assert (zlen out < size) by nia. split; [done|split; [done|]].
  unfold file_bytes. rewrite <- He, ztake_app_ge by lia. by apply prefix_app_r.
Qed.

(** One run: it fits the allocation and extends what was copied. *)
Lemma copying_run c0 size k c out r :
  0 < size -> copying c0 size k c out -> linked c r -> 1 <= r <= Z.of_nat k ->
  let out' := ztake size (out ++ blocks u0 (cluster_lba v c) (r * cluster_blocks v)) in
  (size <= zlen out' /\ out' = file_bytes c0 size) \/
  (zlen out' < size /\ copying c0 size (k - Z.to_nat r) (fat_entry (c + r - 1)) out').
Proof.
  intros Hs Hc Hl Hr out'. pose proof (copying_facts _ _ _ _ _ Hs Hc) as (Hz & Hlt & _).
  pose proof (clusters_for_bounds size Hs). pose proof (cluster_bytes_pos v Hv) as Hcb. pose proof (cluster_blocks_pos v Hv).
  destruct Hc as (He & Hf & Hk).
  set (run := blocks u0 (cluster_lba v c) (r * cluster_blocks v)) in *.
  assert (zlen run = r * cluster_bytes v) as Hrl.
  { unfold run. rewrite zlen_blocks, (cluster_bytes_blocks v Hv) by nia. lia. }
  rewrite (linked_chain_data k c r), app_assoc in He by done. fold run in He.
  destruct (decide (size <= zlen (out ++ run))) as [Hge|Hge].
  - left. unfold out', file_bytes. rewrite <- He. rewrite (ztake_app_le _ (out ++ run)) by done.
    rewrite zlen_ztake. split; [lia|done].
  - right. rewrite zlen_app, Hrl in Hge. unfold out'. rewrite ztake_all by (rewrite zlen_app; lia).
    rewrite zlen_app, Hrl. split; [lia|]. split; [done|]. split; [|].
    + rewrite (linked_chain k c r) in Hf by done. by apply Forall_app in Hf as [_ ?].
    + assert (r < Z.of_nat k) by nia. lia.
Qed.

Lemma run_fuel :
  USB_MAX_READ_BYTES / cluster_bytes v
    <= Z.of_nat (Z.to_nat (div_ceil USB_MAX_READ_BYTES (cluster_bytes v))) + 1.
Proof.
  pose proof (cluster_bytes_pos v Hv). unfold div_ceil.
  assert (USB_MAX_READ_BYTES / cluster_bytes v <= (USB_MAX_READ_BYTES + cluster_bytes v - 1) / cluster_bytes v)
    by (apply Z.div_le_mono; lia).
  pose proof (Z.div_pos USB_MAX_READ_BYTES (cluster_bytes v) ltac:(done) ltac:(done)). lia.
Qed.

(** The block count of a run fits the [u16] it is cast to. *)
Lemma run_blocks r :
  1 <= r -> r * cluster_bytes v <= USB_MAX_READ_BYTES ->
  as_u16 (cluster_blocks v * r) = r * cluster_blocks v /\ 0 < r * cluster_blocks v <= U16_MAX.
Proof.
  intros Hr Hm. pose proof (cluster_blocks_pos v Hv) as Hb. pose proof ub_bs_pos. pose proof ub_count_le.
  rewrite (cluster_bytes_blocks v Hv) in Hm. destruct Hv as (_ & Hmax & _).
  assert (r * cluster_blocks v <= U16_MAX) by nia. split; [|nia].
  unfold as_u16, U16_MAX in *. rewrite Z.mul_comm. apply Z.mod_small. nia.
Qed.

Lemma wp_ingest_fat32 fuel s c0 size alloc_size (k : nat) c out X :
  usb_inv s -> 0 < size <= alloc_size -> (cluster_bytes v | alloc_size) -> copying c0 size k c out ->
  (k <= fuel)%nat ->
  wp (ingest_fat32 heap fuel v size alloc_size c out) (fun out _ => ingest_post c0 size out) X s.
Proof.
  intros Hs Hsize Hal. pose proof (cluster_bytes_pos v Hv) as Hcb. pose proof (cluster_blocks_pos v Hv) as Hbl.
  revert s k c out Hs. induction fuel as [|fuel IH]; intros s k c out Hs Hc Hk.
  { destruct Hc as (_ & _ & ?). lia. }
  pose proof (copying_facts _ _ _ _ _ (proj1 Hsize) Hc) as (Hz & Hlt & Hpre).
  pose proof (clusters_for_bounds size (proj1 Hsize)) as Hcl. pose proof Hc as (_ & Hf & Hk0).
  assert (cluster_ok v c) as Hok by (destruct k; [lia|by inversion Hf]).
  cbn [ingest_fat32]. unfold is_data_cluster.
  assert (negb ((zlen out <? size) && ((2 <=? c) && (c <? 0x0ffffff8))) = false) as -> by (destruct Hok as (? & _); lia).
  apply wp_bind. eapply wp_mono.
  { apply (wp_read_fat_entry s c (fun next s' => usb_inv s' /\ (next = Some (fat_entry c) \/ ~ G /\ next = None)) X);
      [done|done|auto..]. }
  2: done.
  cbv beta. clear s Hs. intros next s [Hs Hnext]. apply wp_bind.
  eapply (wp_extend_run _ _ k c); [done|done|..].
  { split_and!; try lia; try done.
    - intros i Hi. lia.
    - destruct Hv as (_ & _ & _ & _ & _ & _ & _ & Hd & _). apply Z.divide_pos_le in Hd; [lia|done]. }
  { apply run_fuel. }
  { lia. }
  clear s Hs next Hnext. intros s last r next Hs (Hr & -> & Hl & Hm & Hnext). cbn beta iota.
  assert (zlen out + r * cluster_bytes v <= alloc_size) as Hroom.
  { destruct Hal as [q Hq]. assert (Z.of_nat (clusters_for size) <= q) by nia. nia. }
  guard_false (alloc_size <? zlen out + r * cluster_bytes v).
  pose proof (run_member k c r Hf Hl Hr) as (_ & Hlast & _).
  destruct (first_lba_exact v c Hv Hok) as [-> Hlba]. rewrite cluster_device_blocks_exact by done.
  destruct (run_blocks r ltac:(lia) Hm) as [-> Hu16].
  destruct Hs as (Hsd & Hsok & Hsz).
  apply wp_bind, wp_read_device_sectors; [done|done|done| | | |].
  { unfold cluster_lba, cluster_blocks in *. lia. }
  { rewrite (cluster_bytes_blocks v Hv) in *. nia. }
  { rewrite (cluster_bytes_blocks v Hv) in *. rewrite Hheap; nia. }
  pose proof (copying_run c0 size k c out r (proj1 Hsize) Hc Hl Hr) as Hnew. cbv zeta in Hnew.
  split; [|intros u b HG _ _; apply wp_ret; by split].
  intros u Hsu Huok. cbn beta iota. rewrite (blocks_same u0 (us_dev s)) by done.
  destruct Hnew as [[Hge Heq]|[Hlt' Hc']].
  - guard_false (zlen (ztake size (out ++ blocks u0 (cluster_lba v c) (r * cluster_blocks v))) <? size).
    apply wp_ret. rewrite Heq. by split.
  - guard_true (zlen (ztake size (out ++ blocks u0 (cluster_lba v c) (r * cluster_blocks v))) <? size).
    destruct Hnext as [->|[HG ->]].
    + apply (IH _ (k - Z.to_nat r)%nat); [|done|lia]. split; [by etrans|]. done.
    + apply wp_ret. apply copying_facts in Hc' as (_ & _ & ?); [|lia]. by split.
Qed.
End working.
End reads.

Lemma prefix_full (out b : bytes) : out `prefix_of` b -> zlen b <= zlen out -> out = b.
Proof.
  intros [k ->]. rewrite zlen_app. intros Hl. destruct k as [|x k]; [by rewrite app_nil_r|].
  rewrite zlen_cons in Hl. pose proof (zlen_nonneg k). lia.
Qed.

Lemma zlen_file_bytes {U} `{UsbDiskSpec U} (u : U) v (Hv : vol_ok v) c size :
  0 < size -> zlen (file_bytes u v c size) = size.
Proof.
  intros Hs. unfold file_bytes. rewrite zlen_ztake, (zlen_chain_data u v Hv).
  pose proof (clusters_for_bounds v Hv size Hs). lia.
Qed.

Lemma rounds_up_fits align_up size :
  rounds_up align_up -> 0 < size <= U32_MAX ->
  size <= align_up size USB_MAX_READ_BYTES /\ (USB_MAX_READ_BYTES | align_up size USB_MAX_READ_BYTES).
Proof.
  intros Ha Hs. destruct (Ha size USB_MAX_READ_BYTES eq_refl) as [Hb Hm]; [lia| |].
  { unfold USB_MAX_READ_BYTES, MIB in *. ulia. }
  split; [lia|]. by apply Z.mod_divide.
Qed.

(** However the device fails in between, a read of up to 65535 blocks or 4 MiB ends (three
    attempts, then halving down to single blocks), and a read reported as successful
    delivered exactly the blocks asked for, wherever the splits fell; on a device that
    works it succeeds. *)
Theorem read_device_sectors_exact {U} `{UsbDiskSpec U} (s : Usb U) lba n buf :
  0 <= lba -> 0 < n <= U16_MAX -> lba + n <= ub_count -> n * ub_bs <= USB_MAX_READ_BYTES -> zlen buf = n * ub_bs ->
  exists s' ok b,
    read_device_sectors lba n buf s = (s', Ok (ok, b)) /\ zlen b = zlen buf /\
    (ok = true -> b = blocks (us_dev s) lba n) /\ (ub_ok (us_dev s) -> ok = true) /\
    same_disk (us_dev s) (us_dev s').
Proof.
  intros Hl Hn Hfit Hmax Hbuf.
  destruct (wp_run_ok (read_device_sectors lba n buf)
              (fun r s' => zlen r.2 = zlen buf /\ (r.1 = true -> r.2 = blocks (us_dev s) lba n) /\
                 (ub_ok (us_dev s) -> r.1 = true) /\ same_disk (us_dev s) (us_dev s')) s)
    as (s' & [ok b] & E & HQ); [|eauto 10].
  apply (wp_read_device_sectors (ub_ok (us_dev s))); try done.
  split; cbn [fst snd us_dev set_us_dev].
  - intros u Hs Hu. split; [rewrite zlen_blocks; lia|done].
  - intros u b HG Hs Hb. split; [done|]. split; [done|]. split; [by intros ?%HG|done].
Qed.

(** The copy loop from the first cluster on. *)
Lemma ingest_fat32_run {U} `{UsbDiskSpec U} heap align_up (s : Usb U) v file :
  (forall off n, 0 <= n -> zlen (heap off n) = n) -> rounds_up align_up ->
  vol_ok v -> zlen (us_sector_buf s) = 4096 -> 0 < file_size file <= U32_MAX ->
  Forall (cluster_ok v) (chain (us_dev s) v (clusters_for v (file_size file)) (first_cluster file)) ->
  exists s' out,
    ingest_fat32 heap (clusters_for v (file_size file)) v (file_size file)
      (align_up (file_size file) USB_MAX_READ_BYTES) (first_cluster file) [] s = (s', Ok out) /\
    out `prefix_of` file_bytes (us_dev s) v (first_cluster file) (file_size file) /\
    (file_size file <= zlen out -> out = file_bytes (us_dev s) v (first_cluster file) (file_size file)) /\
    (ub_ok (us_dev s) -> out = file_bytes (us_dev s) v (first_cluster file) (file_size file)).
Proof.
  intros Hheap Ha Hv Hz Hsize Hf. destruct (rounds_up_fits _ _ Ha Hsize) as [Hle Hd].
  pose proof (clusters_for_bounds v Hv (file_size file) ltac:(lia)). pose proof (cluster_bytes_pos v Hv).
  destruct (wp_run_ok
              (ingest_fat32 heap (clusters_for v (file_size file)) v (file_size file)
                 (align_up (file_size file) USB_MAX_READ_BYTES) (first_cluster file) [])
              (fun out _ => ingest_post (ub_ok (us_dev s)) (us_dev s) v (first_cluster file) (file_size file) out) s)
    as (s' & out & E & [Hp HG]).
  { eapply (wp_ingest_fat32 (ub_ok (us_dev s)) (us_dev s) v Hv heap Hheap _ s
              (first_cluster file) (file_size file) _ (clusters_for v (file_size file))); [done|lia| | |done].
    - etrans; [|exact Hd]. destruct Hv as (_ & _ & _ & _ & _ & _ & _ & Hd' & _). exact Hd'.
    - split; [done|]. split; [done|]. nia. }
  exists s', out. split; [exact E|]. split; [done|]. split; [|done].
  intros Hfull. apply prefix_full; [done|]. rewrite zlen_file_bytes; [lia|done|lia].
Qed.

(** Copying a FAT32 file of a well-formed volume into an allocation rounded up to
    4 MiB ends, never writes past the allocation and follows the cluster chain: what it
    copied is a prefix of the chain's data cut at the directory size, and it is the whole
    file exactly when the full size was reached, as it is on a working device.  The
    grouping of adjacent clusters into runs and the splitting of failed reads make no
    difference. *)
Theorem ingest_fat32_exact {U} `{UsbDiskSpec U} heap align_up (s : Usb U) v file :
  (forall off n, 0 <= n -> zlen (heap off n) = n) -> rounds_up align_up ->
  vol_ok v -> zlen (us_sector_buf s) = 4096 -> 0 < file_size file <= U32_MAX ->
  Forall (cluster_ok v) (chain (us_dev s) v (clusters_for v (file_size file)) (first_cluster file)) ->
  exists s' out,
    ingest_fat32 heap (clusters_for v (file_size file)) v (file_size file)
      (align_up (file_size file) USB_MAX_READ_BYTES) (first_cluster file) [] s = (s', Ok out) /\
    out `prefix_of` file_bytes (us_dev s) v (first_cluster file) (file_size file) /\
    (file_size file <= zlen out -> out = file_bytes (us_dev s) v (first_cluster file) (file_size file)) /\
    (ub_ok (us_dev s) -> out = file_bytes (us_dev s) v (first_cluster file) (file_size file)).
Proof. apply ingest_fat32_run. Qed.

(** ** Concrete devices *)
Module UsbDemo.

(** A disk of 512-byte blocks whose next [ud_failures] transfers fail half-way. *)
Record Disk := mkDisk {
  ud_failures : nat;
  ud_fat : list Z;    (* the FAT entries in block 101 *)
}.

Definition fat_block (fat : list Z) : bytes := ztake 512 (concat (to_le32 <$> fat) ++ zeros 512).

Definition block (d : Disk) (l : Z) : bytes :=
  if l =? 101 then fat_block (ud_fat d) else replicate 512 (byte.of_Z l).

Definition disk_read (lba n len : Z) (d : Disk) : Disk * (bool * bytes) :=
  match ud_failures d with
  | O => (d, (true, concat ((fun i => block d (lba + Z.of_nat i)) <$> seq 0 (Z.to_nat n))))
  | S k => (mkDisk k (ud_fat d), (false, replicate (Z.to_nat (len / 2)) Byte.xff))
  end.

#[global] Instance disk_dev : UsbDisk Disk := {| read_blocks := disk_read |}.

Lemma zlen_block d l : zlen (block d l) = 512.
Proof.
  unfold block, fat_block. destruct (l =? 101).
  - rewrite zlen_ztake, zlen_app, zlen_zeros by lia. pose proof (zlen_nonneg (concat (to_le32 <$> ud_fat d))). lia.
  - unfold zlen. rewrite length_replicate. lia.
Qed.

#[global] Program Instance disk_spec : UsbDiskSpec Disk := {|
  ub_bs := 512;
  ub_count := 2 ^ 32;
  ub_block := block;
  ub_ok d := ud_failures d = O;
|}.
Next Obligation. lia. Qed.
Next Obligation. lia. Qed.
Next Obligation. apply zlen_block. Qed.
Next Obligation.
  intros u lba n len u' r l. cbn. unfold disk_read. destruct (ud_failures u); by intros [= <- <-].
Qed.
Next Obligation.
  intros u lba n u' b _ _ _. cbn. unfold disk_read. destruct (ud_failures u); by intros [= <- <-].
Qed.
Next Obligation.
  intros u lba n u' r Hok _ _ _ _. cbn. unfold disk_read. rewrite Hok. by intros [= <- <-].
Qed.

(** A volume at LBA 100: FAT in block 101, cluster 2 in block 102. *)
Definition volume : Fat32Volume := mkFat32Volume 100 512 512 1 1 1 1 1 2 102.

Definition start (failures : nat) (fat : list Z) : Usb Disk :=
  mkUsb (mkDisk failures fat) (replicate 4096 Byte.x00) [].

Lemma volume_ok : vol_ok volume.
Proof.
  unfold vol_ok, cluster_bytes, USB_MAX_READ_BYTES, MIB, U16_MAX. cbn. split_and!; try lia; try done.
  by exists 8192.
Qed.
End UsbDemo.

(** Five failures force one split of a two-block read. *)
Lemma read_device_sectors_exact_witness :
  exists s' ok b,
    read_device_sectors 102 2 (zeros 1024) (UsbDemo.start 5 []) = (s', Ok (ok, b)) /\ zlen b = zlen (zeros 1024) /\
    (ok = true -> b = blocks (UsbDemo.mkDisk 5 []) 102 2) /\ (ub_ok (UsbDemo.mkDisk 5 []) -> ok = true) /\
    same_disk (UsbDemo.mkDisk 5 []) (us_dev s').
Proof.
  apply (read_device_sectors_exact (UsbDemo.start 5 []) 102 2 (zeros 1024)); [lia| |done|done|done].
  unfold U16_MAX. lia.
Defined.

(** A 700-byte file in clusters 2 and 5, on a device that fails four times. *)
Lemma ingest_fat32_exact_witness :
  exists s' out,
    ingest_fat32 (fun _ n => zeros n) (clusters_for UsbDemo.volume 700) UsbDemo.volume 700
      (align_up_div 700 USB_MAX_READ_BYTES) 2 []
      (UsbDemo.start 4 [0; 0; 5; 0; 0; 0x0fffffff]) = (s', Ok out) /\
    out `prefix_of` file_bytes (UsbDemo.mkDisk 4 [0; 0; 5; 0; 0; 0x0fffffff]) UsbDemo.volume 2 700 /\
    (700 <= zlen out -> out = file_bytes (UsbDemo.mkDisk 4 [0; 0; 5; 0; 0; 0x0fffffff]) UsbDemo.volume 2 700) /\
    (ub_ok (UsbDemo.mkDisk 4 [0; 0; 5; 0; 0; 0x0fffffff]) -> out = file_bytes (UsbDemo.mkDisk 4 [0; 0; 5; 0; 0; 0x0fffffff]) UsbDemo.volume 2 700).
Proof.
  refine (ingest_fat32_exact (fun _ n => zeros n) align_up_div
            (UsbDemo.start 4 [0; 0; 5; 0; 0; 0x0fffffff]) UsbDemo.volume (mkFat32File 2 700) _ _ _ _ _ _).
  - intros _ n Hn. by apply zlen_zeros.
  - apply align_up_div_rounds.
  - apply UsbDemo.volume_ok.
  - done.
  - cbn. ulia.
  - assert (chain (us_dev (UsbDemo.start 4 [0; 0; 5; 0; 0; 0x0fffffff])) UsbDemo.volume
              (clusters_for UsbDemo.volume (file_size (mkFat32File 2 700)))
              (first_cluster (mkFat32File 2 700)) = [2; 5]) as -> by (vm_compute; reflexivity).
    repeat constructor; vm_compute; done.
Defined.

Module Overrun.
(** The boot sector of a volume with 4096-byte sectors and 255 of them per cluster. *)
Definition boot_sector : bytes :=
  splice_fields (zeros 512)
    [(11, [Byte.x00; Byte.x10]); (13, [Byte.xff]); (14, [Byte.x01; Byte.x00]); (16, [Byte.x01]);
     (36, to_le32 1); (44, to_le32 2); (82, bstr "FAT32   "); (510, [Byte.x55; Byte.xaa])].

Definition volume : Fat32Volume := mkFat32Volume 93 512 4096 8 255 1 1 1 2 109.

(** Clusters 2 to 6 in a row; block 101 holds the first part of the FAT. *)
Definition state : Usb UsbDemo.Disk := UsbDemo.start 0 [0; 0; 3; 4; 5; 6; 0x0fffffff].
End Overrun.

(** The boot sector is accepted whatever its cluster size, and the ingestion rounds the
    allocation up to 4 MiB only: for a volume of 255 sectors of 4096 bytes per cluster
    (1044480 bytes) and a file of 4 MiB in five adjacent clusters, the run of five clusters
    the loop forms is 5222400 bytes long and is written to an allocation of 4194304. *)
Theorem ingest_overruns_heap heap align_up :
  rounds_up align_up ->
  parse_fat32_volume 93 512 Overrun.boot_sector = Ok (Some Overrun.volume) /\
  align_up (4 * MIB) USB_MAX_READ_BYTES = 4 * MIB /\
  clusters_for Overrun.volume (4 * MIB) = 5%nat /\
  exists s',
    extend_run 5 Overrun.volume (4 * MIB) 0 2 1 (Some 3) Overrun.state = (s', Ok (6, 5, Some 0x0fffffff)) /\
    4 * MIB < 5 * cluster_bytes Overrun.volume /\
    ingest_fat32 heap 5 Overrun.volume (4 * MIB) (align_up (4 * MIB) USB_MAX_READ_BYTES) 2 [] Overrun.state
      = (s', Panic).
Proof.
  intros Ha. split; [by vm_compute|].
  assert (align_up (4 * MIB) USB_MAX_READ_BYTES = 4 * MIB) as ->.
  { destruct (Ha (4 * MIB) USB_MAX_READ_BYTES eq_refl) as [Hb Hm]; [done|done|].
    unfold USB_MAX_READ_BYTES, MIB in *. apply Z.div_exact in Hm; lia. }
  split; [done|]. split; [by vm_compute|]. eexists. split; [vm_compute; reflexivity|]. split; [done|].
  vm_compute. reflexivity.
Qed.

Lemma ingest_overruns_heap_witness :
  parse_fat32_volume 93 512 Overrun.boot_sector = Ok (Some Overrun.volume) /\
  align_up_div (4 * MIB) USB_MAX_READ_BYTES = 4 * MIB /\
  clusters_for Overrun.volume (4 * MIB) = 5%nat /\
  exists s',
    extend_run 5 Overrun.volume (4 * MIB) 0 2 1 (Some 3) Overrun.state = (s', Ok (6, 5, Some 0x0fffffff)) /\
    4 * MIB < 5 * cluster_bytes Overrun.volume /\
    ingest_fat32 (fun _ n => zeros n) 5 Overrun.volume (4 * MIB)
      (align_up_div (4 * MIB) USB_MAX_READ_BYTES) 2 [] Overrun.state = (s', Panic).
Proof. apply (ingest_overruns_heap (fun _ n => zeros n) align_up_div align_up_div_rounds). Defined.
