(* ===== verification/UsbModel.v ===== *)
(** * The model file through the whole USB stack

    The mass-storage driver of usb-oxide, on its rings and the kernel's DMA memory, as the
    device the FAT32 reader works on: the driver's theorems discharge [UsbDiskSpec], so the
    ingestion is exact down to the transfer ring. *)

From S2P Require Import Prelude UsbRing UsbRingTheorems UsbDesc Xhci XhciTheorems UsbDevice UsbDeviceTheorems UsbMsc UsbDma UsbMachine UsbMachineTheorems UsbMscTheorems UsbStorage Fat32 Fat32Theorems.

Section stick.
Context {F : Type} `{FrameAllocSpec F} (bs count : Z) (Hbs : 0 < bs) (Hcount : count <= 2 ^ 32).
Context (align_up : Z -> Z -> Z) (Halign : rounds_up align_up) (hw : HwCfg) (ein eout : Z) (mem_in mem_out : PhysMem).

#[local] Instance model_target : ScsiTarget ScsiDisk := disk_target bs.
#[local] Instance model_target_ok : ScsiTargetSpec ScsiDisk := disk_target_spec bs.
#[local] Instance model_io : XhcIo (Machine F ScsiDisk) := Machine_io align_up hw.

Context (Hslot : 0 <= hw_slot hw < 256) (Hein : 1 <= ein <= 15) (Heout : 1 <= eout <= 15).
Context (Hareas : apart (phys mem_in) 4096 (phys mem_out) 4096 /\
                  apart (hw_events hw) (hw_event_count hw * 16) (phys mem_in) 4096 /\
                  apart (hw_events hw) (hw_event_count hw * 16) (phys mem_out) 4096).

Implicit Types (t : MscSys (Machine F ScsiDisk)).

Definition disk_of t : ScsiDisk := (mc_dev (msc_host t)).2.

(** The driver in order, in front of a disk of [count] blocks. *)
Definition attached t : Prop :=
  sd_count (disk_of t) = count /\ exists L, good align_up Halign hw ein eout mem_in mem_out L (disk_of t) t.

Definition Stick : Type := { t : MscSys (Machine F ScsiDisk) | attached t }.

Lemma good_disk L d t : good align_up Halign hw ein eout mem_in mem_out L d t -> disk_of t = d.
Proof. intros Hg. destruct (good_synced _ _ _ _ _ _ _ _ _ _ Hg) as (ph & Hd & _). unfold disk_of. by rewrite Hd. Qed.

(** [dev.read_blocks(0, lba, n, buf)] of [len] bytes; after an error the caller does not
    look at the buffer. *)
Definition msc_read (lba n len : Z) t : MscSys (Machine F ScsiDisk) * (bool * bytes) :=
  let '(t, r) := UsbMsc.read_blocks 0 lba n (zeros len) t in
  (t, match r with Ok (_, b) => (true, b) | _ => (false, []) end).

Lemma read_opcode lba n : u8_at (rw10_cdb ScsiOp.READ_10 lba n) 0 = ScsiOp.READ_10.
Proof. by vm_compute. Qed.

(** The disk answers a READ in full, and is left as it was. *)
Lemma exec_read_same lba n b (d d' : ScsiDisk) k out st :
  exec 0 (rw10_cdb ScsiOp.READ_10 lba n) (Some b) true d = (d', (k, out, st)) -> d' = d /\ k = zlen b.
Proof.
  unfold exec. cbn [exec_in exec_out model_target disk_target]. pose proof (zlen_nonneg b). destruct (zlen b =? 0) eqn:E; bool_to_prop.
  - unfold disk_out. repeat split_if; intros; simplify_eq; done.
  - unfold disk_in. rewrite read_opcode. cbn [Z.eqb]. rewrite Z.eqb_refl.
    split_if; intros; simplify_eq; rewrite ?zlen_fit, ?zlen_zeros by done; done.
Qed.

Lemma wp_any_read lba n b t L :
  good align_up Halign hw ein eout mem_in mem_out L (disk_of t) t -> zlen b <= 2 ^ 22 ->
  wp (UsbMsc.read_blocks 0 lba n b)
    (fun _ t' => exists L', good align_up Halign hw ein eout mem_in mem_out L' (disk_of t) t')
    (fun _ t' => exists L', good align_up Halign hw ein eout mem_in mem_out L' (disk_of t) t') t.
Proof.
  intros Hg Hb. destruct (exec 0 (rw10_cdb ScsiOp.READ_10 lba n) (Some b) true (disk_of t)) as [d' [[k out] st]] eqn:E.
  destruct (exec_read_same _ _ _ _ _ _ _ _ E) as [-> Hk]. unfold UsbMsc.read_blocks. apply wp_bind.
  eapply wp_mono; [eapply (wp_scsi_command align_up Halign hw ein eout mem_in mem_out Hslot Hein Heout Hareas);
                    [exact Hg|lia|vm_compute; discriminate|exact Hb|exact E|by right]| |].
  - cbn beta. intros [k' o] t' (_ & _ & Hg' & _). apply wp_ret. eauto.
  - cbn beta. intros e t' (d1 & L' & Hd1 & _ & Hg' & _). assert (d1 = disk_of t) as -> by (by destruct Hd1). eauto.
Qed.

Lemma msc_read_keeps lba n len t :
  attached t -> len <= 2 ^ 22 -> attached (msc_read lba n len t).1 /\ disk_of (msc_read lba n len t).1 = disk_of t.
Proof.
  intros (Hc & L & Hg) Hlen. unfold msc_read.
  assert (zlen (zeros len) <= 2 ^ 22) as Hz by (unfold zlen, zeros; rewrite length_replicate; lia).
  assert (exists L', good align_up Halign hw ein eout mem_in mem_out L' (disk_of t) (UsbMsc.read_blocks 0 lba n (zeros len) t).1) as (L' & Hg').
  { destruct (wp_run _ _ _ _ (wp_any_read lba n (zeros len) t L Hg Hz)) as [(t' & a & -> & Hx)|(t' & a & -> & Hx)]; exact Hx. }
  destruct (UsbMsc.read_blocks 0 lba n (zeros len) t) as [t' r]. cbn [fst] in *. pose proof (good_disk _ _ _ Hg') as Hd.
  split; [|done]. unfold attached. rewrite Hd. eauto.
Qed.

(** The kernel never asks for more than 4 MiB; more is not modelled. *)
Definition stick_read (lba n len : Z) (u : Stick) : Stick * (bool * bytes) :=
  match decide (len <= 2 ^ 22) with
  | left Hlen =>
      (exist _ (msc_read lba n len (`u)).1 (proj1 (msc_read_keeps lba n len (`u) (proj2_sig u) Hlen)),
       (msc_read lba n len (`u)).2)
  | right _ => (u, (false, []))
  end.

#[local] Instance stick_disk : UsbDisk Stick := {| Fat32.read_blocks := stick_read |}.

Lemma msc_read_cases t lba n :
  attached t -> 0 <= lba -> 0 < n <= U16_MAX -> lba + n <= count -> n * bs <= 2 ^ 22 ->
  let '(t', (ok, b)) := msc_read lba n (n * bs) t in
  if ok then b = span bs (disk_of t) lba n /\ (works ein eout t -> works ein eout t') else ~ works ein eout t.
Proof.
  intros (Hc & L & Hg) Hl Hn Hr Hmax. unfold msc_read.
  assert (zlen (zeros (n * bs)) = n * bs) as Hz by (apply zlen_zeros; nia).
  destruct (wp_run _ _ _ _ (wp_read_blocks bs Hbs align_up Halign hw ein eout mem_in mem_out Hslot Hein Heout Hareas
              t L (disk_of t) lba n (zeros (n * bs)) Hg Hl Hn ltac:(lia) ltac:(lia) Hz Hmax))
    as [(t' & r & E & -> & _ & Hw)|(t' & e & E & _ & Hw)];
    change model_io with (storage_io (F := F) bs align_up hw); by rewrite E.
Qed.

#[local] Program Instance stick_spec : UsbDiskSpec Stick := {|
  ub_bs := bs;
  ub_count := count;
  ub_block u := sd_block bs (disk_of (`u));
  ub_ok u := works ein eout (`u);
|}.
Next Obligation. done. Qed.
Next Obligation. done. Qed.
Next Obligation. intros u l. apply zlen_fit. lia. Qed.
Next Obligation.
  intros u lba n len u' r l. cbn. unfold stick_read. destruct (decide (len <= 2 ^ 22)) as [Hlen|]; intros [= <- <-]; [|done].
  cbn [proj1_sig]. by rewrite (proj2 (msc_read_keeps lba n len (`u) (proj2_sig u) Hlen)).
Qed.
Next Obligation.
  intros u lba n u' b Hl Hn Hr. cbn. unfold stick_read. destruct (decide (n * bs <= 2 ^ 22)) as [Hlen|]; [|done].
  intros [= _ Hb]. pose proof (msc_read_cases (`u) lba n (proj2_sig u) Hl Hn Hr Hlen) as Hc.
  destruct (msc_read lba n (n * bs) (`u)) as [t' [ok b']]. cbn in Hb. injection Hb as -> ->. by destruct Hc as [-> _].
Qed.
Next Obligation.
  intros u lba n u' r Hok Hl Hn Hr Hmax. cbn. unfold stick_read.
  destruct (decide (n * bs <= 2 ^ 22)) as [Hlen|Hlen]; [|by destruct Hlen].
  intros [= <- <-]. pose proof (msc_read_cases (`u) lba n (proj2_sig u) Hl Hn Hr Hlen) as Hc. cbn [proj1_sig].
  destruct (msc_read lba n (n * bs) (`u)) as [t' [ok b']]. cbn in *. destruct ok; [by destruct Hc as [_ Hw]; auto|done].
Qed.

(** C20: the model file copied from a FAT32 volume on a USB stick, through the FAT32
    reader, the SCSI transport, the transfer rings and DMA memory of the kernel.  The volume
    is a standard one ([vol_ok]), the file's cluster chain stays inside it, and the stick
    is a SCSI disk that answers READ commands in full.  When the stick works, so that no
    transfer fails and the three DMA buffers of a command fit, the copy is exactly the
    file's cluster chain cut at its size.  When transfers stall, break or stay unanswered,
    the copy still ends, without a panic.  In either case the driver and the stick are in
    order for the next command. *)
Theorem stick_ingest_exact heap v file t (Ht : attached t) sector_buf cluster_buf :
  (forall off n, 0 <= n -> zlen (heap off n) = n) -> vol_ok v -> zlen sector_buf = 4096 -> 0 < file_size file <= U32_MAX ->
  let u : Stick := exist _ t Ht in
  Forall (cluster_ok v) (chain u v (clusters_for v (file_size file)) (first_cluster file)) ->
  exists s' out,
    ingest_fat32 heap (clusters_for v (file_size file)) v (file_size file)
      (align_up (file_size file) USB_MAX_READ_BYTES) (first_cluster file) [] (mkUsb u sector_buf cluster_buf) = (s', Ok out) /\
    attached (proj1_sig (us_dev s')) /\
    (works ein eout t -> out = file_bytes u v (first_cluster file) (file_size file)).
Proof.
  intros Hheap Hv Hz Hsize u Hf.
  destruct (ingest_fat32_run heap align_up (mkUsb u sector_buf cluster_buf) v file Hheap Halign Hv Hz Hsize Hf)
    as (s' & out & E & _ & _ & Hok).
  exists s', out. split; [exact E|]. split; [exact (proj2_sig (us_dev s'))|]. exact Hok.
Qed.
End stick.

(** A volume at block 100 of a stick: a file of 700 bytes in clusters 2 and 5. *)
Module ModelDemo.
Import Slab StickDemo.

Definition fat : bytes := concat (to_le32 <$> [0; 0; 5; 0; 0; 0x0fffffff]).
Definition disk : ScsiDisk := mkScsiDisk (fun l => if l =? 101 then fat else replicate 512 (byte.of_Z l)) 2048.
Definition start (fate : list Fate) : MscSys (Machine Slabs ScsiDisk) := StickDemo.start disk fate.

Lemma start_attached fate :
  attached 512 2048 align_up_div align_up_div_rounds hw 1 2 mem_in mem_out (start fate).
Proof. split; [done|]. exists L. apply ready. Qed.

Lemma slot_ok : 0 <= hw_slot hw < 256.
Proof. by vm_compute. Qed.

Lemma endpoint_ok n : 1 <= n <= 2 -> 1 <= n <= 15.
Proof. lia. Qed.

Definition Drive : Type := Stick 512 2048 align_up_div align_up_div_rounds hw 1 2 mem_in mem_out.

#[export] Instance drive_disk : UsbDisk Drive :=
  stick_disk 512 2048 align_up_div align_up_div_rounds hw 1 2 mem_in mem_out slot_ok
    (endpoint_ok 1 ltac:(lia)) (endpoint_ok 2 ltac:(lia)) areas_apart.
#[export] Instance drive_spec : UsbDiskSpec Drive :=
  stick_spec 512 2048 eq_refl ltac:(lia) align_up_div align_up_div_rounds hw 1 2 mem_in mem_out slot_ok
    (endpoint_ok 1 ltac:(lia)) (endpoint_ok 2 ltac:(lia)) areas_apart.

Definition drive (fate : list Fate) : Drive := exist _ (start fate) (start_attached fate).

Lemma drive_volume_ok : vol_ok (U := Drive) UsbDemo.volume.
Proof.
  unfold vol_ok, cluster_bytes, USB_MAX_READ_BYTES, MIB, U16_MAX. cbn. split_and!; try lia; try done.
  by exists 8192.
Qed.
End ModelDemo.

Section witness.
Import Slab StickDemo ModelDemo.

Lemma stick_ingest_exact_witness :
  let u := drive [] in
  exists s' out,
    ingest_fat32 (fun _ n => zeros n) (clusters_for UsbDemo.volume 700) UsbDemo.volume 700
      (align_up_div 700 USB_MAX_READ_BYTES) 2 [] (mkUsb u (zeros 4096) []) = (s', Ok out) /\
    attached 512 2048 align_up_div align_up_div_rounds hw 1 2 mem_in mem_out (proj1_sig (us_dev s')) /\
    (works 1 2 (proj1_sig u) -> out = file_bytes u UsbDemo.volume 2 700).
Proof.
  refine (stick_ingest_exact 512 2048 eq_refl _ align_up_div align_up_div_rounds hw 1 2 mem_in mem_out slot_ok
            _ _ areas_apart (fun _ n => zeros n) UsbDemo.volume (mkFat32File 2 700) (start _) (start_attached _)
            (zeros 4096) [] _ drive_volume_ok _ _ _).
  - intros _ n Hn. by apply zlen_zeros.
  - done.
  - cbn. ulia.
  - assert (chain (drive []) UsbDemo.volume (clusters_for UsbDemo.volume 700) 2 = [2; 5]) as E
      by (vm_compute; reflexivity).
    match goal with |- Forall _ ?l => change l with (chain (drive []) UsbDemo.volume (clusters_for UsbDemo.volume 700) 2) end.
    rewrite E. repeat constructor; vm_compute; done.
Defined.
End witness.
