(* ===== verification/Shell.v ===== *)
(** * The RAM shell

    bitapp/src/hermit_app.rs: the line editor and command interpreter on the
    machine's console, the log viewer, the model prompt, and the start-up and
    shut-down paths that tie the history to the SSD memory database.  The shell
    reaches the kernel only through the system calls of Syscalls.v.

    The BitNet decoder is C++ code outside this program: it is the parameter
    [decode], one answer per call.  Console output reaches the console log and
    the screen as the kernel's console [Write] passes it on; the line buffering
    of [io::stdout] is invisible to both, because every switch of the capture flag
    follows a line end or an explicit flush. *)

From S2P Require Import Prelude BlockDevice AhciIo MemoryDb MemoryDbSpec MemoryDbTheorems AppText History ConsoleLog Syscalls.

Definition BITNET_SHELL_N_PREDICT : Z := 64.
Definition BITNET_SHELL_N_CTX : Z := 512.
Definition BITNET_RUNTIME_WARMUP_PROMPT : bytes := bstr "runtime warmup" ++ [Byte.x00].
Definition BITNET_OUTPUT_BUF_LEN : Z := 16 * 1024.
Definition RAM_SHELL_LINE_LEN : Z := 256.
Definition RAM_SHELL_LOG_PAGE_BYTES : Z := 1024.
Definition RAM_SHELL_COMMAND_PROMPT : bytes := bstr "ram> ".
Definition RAM_SHELL_MODEL_PROMPT : bytes := bstr "model> ".
Definition RAM_SHELL_LOG_PROMPT : bytes := bstr "log> ".

Inductive RamShellMode := Command | Prompt | Log.

#[export] Instance RamShellMode_eq_dec : EqDecision RamShellMode.
Proof. solve_decision. Defined.

(** What one [stdin.read(&mut byte)] returns: [Ok(1)], [Ok(0)] or an error. *)
Inductive stdin_read :=
| ReadByte (b : byte)
| ReadNone
| ReadError.

(** [bitapp_generation_should_abort], called back by the decoder: the reads
    left, [BITAPP_GENERATION_ABORTED] and the returned value.  A list that is
    used up stands for no input pending. *)
Fixpoint bitapp_generation_should_abort (reads : list stdin_read) (aborted : bool)
    : list stdin_read * bool * Z :=
  match reads with
  | [] => ([], aborted, 0)
  | ReadNone :: reads => (reads, aborted, 0)
  | ReadByte b :: reads =>
      if bz b =? 3 then (reads, true, 1) else bitapp_generation_should_abort reads aborted
  | ReadError :: reads => (reads, aborted, 0)
  end.

(** The flag after the decoder polled once per element of [polls]. *)
Definition generation_aborted (polls : list (list stdin_read)) : bool :=
  foldl (fun aborted reads => snd (fst (bitapp_generation_should_abort reads aborted))) false polls.

(** One answer of the decoder: its return value, the output buffer afterwards,
    the input its abort polls found, and what it printed itself. *)
Record Decoded := mkDecoded {
  d_ret : Z;
  d_output : bytes;
  d_polls : list (list stdin_read);
  d_printed : bytes;
}.

(** ** Memory and threads for the decoder *)

(** The layout [bitapp_malloc] allocates; [None] returns a null pointer. *)
Definition bitapp_malloc (size align : Z) : option (Z * Z) :=
  layout_from_size_align (Z.max size 1) (next_power_of_two (Z.max align 8)).

(** The layout [bitapp_free] releases; [None] does nothing. *)
Definition bitapp_free (ptr_null : bool) (size align : Z) : option (Z * Z) :=
  if ptr_null then None
  else layout_from_size_align (Z.max size 1) (next_power_of_two (Z.max align 8)).

(** [value.parse::<i32>()] on the bytes of a [&str]. *)
Definition parse_i32 (s : bytes) : option Z :=
  let digits neg l :=
    match l with
    | [] => None
    | _ =>
        if forallb is_ascii_digit l then
          let v := foldl (fun v b => v * 10 + (bz b - 48)) 0 l in
          if neg : bool then (if v <=? I32_MAX + 1 then Some (- v) else None)
          else (if v <=? I32_MAX then Some v else None)
        else None
    end in
  match s with
  | b :: l => if bz b =? 43 then digits false l else if bz b =? 45 then digits true l else digits false s
  | [] => None
  end.

(** [bitapp_n_threads]: the two build-time variables are its inputs. *)
Definition bitapp_n_threads (enable_smp n_threads : option bytes) : Z :=
  if negb (bool_decide (enable_smp = Some (bstr "1"))) then 1
  else match n_threads ≫= parse_i32 with
       | Some value => if 0 <? value then value else 1
       | None => 1
       end.

(** ** Time *)

Definition bitapp_elapsed_ms (start end_ : Z) : Z := sat_sub end_ start / 1000.
Definition bitapp_boot_ms (now : Z) : Z := bitapp_elapsed_ms 0 now.
Definition bitapp_boot_seconds (now : Z) : Z := now / 1000000.
Definition bitapp_boot_milliseconds (now : Z) : Z := now mod 1000000 / 1000.

(** ** Formatting *)

(** [{}] of an unsigned and of a signed integer, [{:03}], and [{:?}] of a pointer. *)
Definition fmt_u (n : Z) : bytes := append_decimal [] n.
Definition fmt_i (n : Z) : bytes := if n <? 0 then bstr "-" ++ fmt_u (- n) else fmt_u n.
Definition fmt_03 (n : Z) : bytes :=
  let s := fmt_u n in replicate (3 - length s) Byte.x30 ++ s.
Fixpoint hex_digits (fuel : nat) (n : Z) : bytes :=
  match fuel with
  | O => []
  | S fuel =>
      let d := n mod 16 in
      (if n / 16 =? 0 then [] else hex_digits fuel (n / 16))
      ++ [byte.of_Z (if d <? 10 then 48 + d else 87 + d)]
  end.
Definition fmt_ptr (p : Z) : bytes := bstr "0x" ++ hex_digits 16 p.

(** [str::trim] on the shell's lines, which hold printable ASCII only. *)
Definition is_str_space (b : byte) : bool := ((9 <=? bz b) && (bz b <=? 13)) || (bz b =? 32).
Definition str_trim (s : bytes) : bytes :=
  rev (drop_while is_str_space (rev (drop_while is_str_space s))).

(** [str::strip_prefix] *)
Definition str_strip_prefix (prefix s : bytes) : option bytes :=
  if bool_decide (ztake (zlen prefix) s = prefix) then Some (zdrop (zlen prefix) s) else None.

(** ** State *)

Record Shell (D : Type) := mkShell {
  sh_ahci : Ahci D;              (* the kernel's storage driver *)
  sh_log : ConsoleLog;           (* the kernel's console log *)
  sh_screen : bytes;             (* every byte written to the console, in order *)
  sh_calls : Z;                  (* calls of the decoder so far *)
  sh_ticks : Z;                  (* reads of the timer so far *)
  sh_history : list QaRecord;
  sh_delta : bytes;              (* session_delta *)
  sh_line : bytes;               (* line[..line_len] *)
  sh_mode : RamShellMode;
  sh_log_offset : Z;
}.
Arguments mkShell {D}.
Arguments sh_ahci {D}.
Arguments sh_log {D}.
Arguments sh_screen {D}.
Arguments sh_calls {D}.
Arguments sh_ticks {D}.
Arguments sh_history {D}.
Arguments sh_delta {D}.
Arguments sh_line {D}.
Arguments sh_mode {D}.
Arguments sh_log_offset {D}.

Section setters.
Context {D : Type}.

Definition set_ahci a (s : Shell D) : Shell D := mkShell a (sh_log s) (sh_screen s) (sh_calls s) (sh_ticks s)
  (sh_history s) (sh_delta s) (sh_line s) (sh_mode s) (sh_log_offset s).
Definition set_log l (s : Shell D) : Shell D := mkShell (sh_ahci s) l (sh_screen s) (sh_calls s) (sh_ticks s)
  (sh_history s) (sh_delta s) (sh_line s) (sh_mode s) (sh_log_offset s).
Definition set_screen b (s : Shell D) : Shell D := mkShell (sh_ahci s) (sh_log s) b (sh_calls s) (sh_ticks s)
  (sh_history s) (sh_delta s) (sh_line s) (sh_mode s) (sh_log_offset s).
Definition set_calls n (s : Shell D) : Shell D := mkShell (sh_ahci s) (sh_log s) (sh_screen s) n (sh_ticks s)
  (sh_history s) (sh_delta s) (sh_line s) (sh_mode s) (sh_log_offset s).
Definition set_ticks n (s : Shell D) : Shell D := mkShell (sh_ahci s) (sh_log s) (sh_screen s) (sh_calls s) n
  (sh_history s) (sh_delta s) (sh_line s) (sh_mode s) (sh_log_offset s).
Definition set_memory h d (s : Shell D) : Shell D := mkShell (sh_ahci s) (sh_log s) (sh_screen s) (sh_calls s) (sh_ticks s)
  h d (sh_line s) (sh_mode s) (sh_log_offset s).
Definition set_line l (s : Shell D) : Shell D := mkShell (sh_ahci s) (sh_log s) (sh_screen s) (sh_calls s) (sh_ticks s)
  (sh_history s) (sh_delta s) l (sh_mode s) (sh_log_offset s).
Definition set_mode m (s : Shell D) : Shell D := mkShell (sh_ahci s) (sh_log s) (sh_screen s) (sh_calls s) (sh_ticks s)
  (sh_history s) (sh_delta s) (sh_line s) m (sh_log_offset s).
Definition set_log_offset n (s : Shell D) : Shell D := mkShell (sh_ahci s) (sh_log s) (sh_screen s) (sh_calls s) (sh_ticks s)
  (sh_history s) (sh_delta s) (sh_line s) (sh_mode s) n.
End setters.

(** The one way out of the shell: [sys_reboot() -> !]. *)
Inductive Rebooted := rebooted.

Abbreviation SM D A := (ST (Shell D) Rebooted A).

Section shell.
Context {D : Type} `{BlockDev D}.

(** The decoder: the number of earlier calls, the prompt buffer, [n_predict],
    [n_threads], [n_ctx] and [output_len] give its answer. *)
Context (decode : Z -> bytes -> Z -> Z -> Z -> Z -> Decoded).
(** [bitapp_n_threads()], a build-time constant. *)
Context (n_threads : Z).
(** [sys_get_timer_ticks()] by the number of earlier reads. *)
Context (clock : Z -> Z).

(** ** Console output *)

(** A write to the console as the kernel's [IoDevice] passes it on. *)
Definition console_write (buf : bytes) : SM D unit := fun s =>
  match append CONSOLE_LOG_CAPACITY (sh_log s) buf with
  | Ok log => (set_log log (set_screen (sh_screen s ++ buf) s), Ok tt)
  | _ => (s, Panic)
  end.

Definition println (text : bytes) : SM D unit := console_write (text ++ [NL]).

(** A system call into the storage driver; it answers with a code, never an [Err]. *)
Definition syscall {A} (c : AM D A) : SM D A := fun s =>
  match c (sh_ahci s) with
  | (a, Ok r) => (set_ahci a s, Ok r)
  | (a, Err _) => (set_ahci a s, Panic)
  | (a, Panic) => (set_ahci a s, Panic)
  | (a, OutOfFuel) => (set_ahci a s, OutOfFuel)
  end.

(** ** The memory database *)

Definition bitapp_flush_memory_db : SM D unit :=
  let! session_delta := sgets sh_delta in
  if zlen session_delta =? 0 then sret tt else
  let! ret := syscall (sys_append_memory_db (Some session_delta)) in
  if ret <? 0 then
    println (bstr "bitapp: RAM_SHELL failed to persist session delta to SSD memory DB: " ++ fmt_i ret)
  else smodify (fun s => set_memory (sh_history s) [] s).

Definition bitapp_erase_memory_db : SM D unit :=
  let! _ := smodify (set_memory [] []) in
  let! ret := syscall sys_erase_memory_db in
  if ret <? 0 then
    println (bstr "bitapp: RAM_SHELL failed to erase SSD memory DB: " ++ fmt_i ret)
  else sret tt.

Definition bitapp_reboot {A} : SM D A :=
  let! _ := bitapp_flush_memory_db in
  sfail rebooted.

Definition bitapp_load_memory_db_history : SM D unit :=
  let! (scratch, ret) := syscall (sys_read_memory_db false RAM_SHELL_HISTORY_CAP_BYTES) in
  if ret <? 0 then sret tt else
  let loaded := ret in
  if loaded =? 0 then sret tt else
  let! history := sgets sh_history in
  let! records := slift (get_slice (splice (zeros RAM_SHELL_HISTORY_CAP_BYTES) 0 scratch) 0
                           (Z.min loaded RAM_SHELL_HISTORY_CAP_BYTES)) in
  match parse_structured_qa_records records history with
  | Ok history => smodify (fun s => set_memory (shrink_records history 0) (sh_delta s) s)
  | _ => slift Panic
  end.

(** ** Boot-time messages *)

Definition bitapp_timer_us : SM D Z :=
  fun s => (set_ticks (sh_ticks s + 1) s, Ok (clock (sh_ticks s))).

Definition boot_stamp (now : Z) (event : bytes) : bytes :=
  bstr "[ " ++ fmt_u (bitapp_boot_seconds now) ++ bstr "." ++ fmt_03 (bitapp_boot_milliseconds now)
  ++ bstr " ] bitapp: boot_timer event=" ++ event ++ bstr " boot_ms=" ++ fmt_u (bitapp_boot_ms now).

Definition bitapp_log_boot_event (event : bytes) : SM D Z :=
  let! now := bitapp_timer_us in
  let! _ := println (boot_stamp now event) in
  sret now.

Definition bitapp_log_boot_delta (event : bytes) (since : Z) : SM D Z :=
  let! now := bitapp_timer_us in
  let! _ := println (boot_stamp now event ++ bstr " delta_ms=" ++ fmt_u (bitapp_elapsed_ms since now)) in
  sret now.

(** ** The log viewer *)

Definition bitapp_console_log_len : SM D Z := sgets (fun s => sys_console_log_len (sh_log s)).

Definition bitapp_console_log_set_capture (enabled : bool) : SM D unit :=
  smodify (fun s => set_log (fst (sys_set_console_log_capture (sh_log s) (if enabled then 1 else 0))) s).

(** The bytes placed at the start of [output] and their number. *)
Definition bitapp_read_console_log (offset output_len : Z) : SM D (bytes * Z) :=
  if output_len =? 0 then sret ([], 0) else
  let! log := sgets sh_log in
  match sys_read_console_log log offset false output_len with
  | Ok (b, ret) => if ret <=? 0 then sret ([], 0) else sret (b, ret)
  | _ => slift Panic
  end.

Definition bitapp_console_log_max_offset (log_len : Z) : Z :=
  sat_sub log_len RAM_SHELL_LOG_PAGE_BYTES.

Definition bitapp_console_log_clamp_offset (offset log_len : Z) : Z :=
  Z.min offset (bitapp_console_log_max_offset log_len).

Definition bitapp_console_log_bottom_offset : SM D Z :=
  let! log_len := bitapp_console_log_len in
  sret (bitapp_console_log_max_offset log_len).

Definition bitapp_write_console_log_help : SM D unit :=
  console_write
    (bstr "commands: pgup, pgdn, top, bottom, refresh, help, exit" ++ [NL] ++
     bstr "enter/pgdn: newer page; pgup: older page; exit: return to ram shell" ++ [NL]).

(** The byte shown for a captured byte. *)
Definition console_log_glyph (b : byte) : byte :=
  if (bz b =? 10) || (bz b =? 9) || ((32 <=? bz b) && (bz b <=? 126)) then b
  else if bz b =? 13 then NL
  else byte.of_Z 63.

Definition bitapp_write_console_log_bytes (l : bytes) : SM D unit :=
  console_write (map console_log_glyph l).

Definition bitapp_render_console_log_page (offset : Z) : SM D Z :=
  let! log_len := bitapp_console_log_len in
  let offset := bitapp_console_log_clamp_offset offset log_len in
  let! (b, read_len) := bitapp_read_console_log offset RAM_SHELL_LOG_PAGE_BYTES in
  let page := splice (zeros RAM_SHELL_LOG_PAGE_BYTES) 0 b in
  let end_ := sat_add64 offset read_len in
  let! _ := console_write [Byte.x0c] in
  let! _ :=
    if (log_len =? 0) || (read_len =? 0) then println (bstr "console log is empty")
    else
      let! _ := println (bstr "console log bytes " ++ fmt_u offset ++ bstr ".." ++ fmt_u end_
                         ++ bstr " of " ++ fmt_u log_len) in
      let! shown := slift (get_slice page 0 read_len) in
      let! _ := bitapp_write_console_log_bytes shown in
      let! last := slift (get_slice page (read_len - 1) read_len) in
      let! _ := if bool_decide (last = [NL]) then sret tt else console_write [NL] in
      println (bstr "-- pgup older | pgdn newer | top | bottom | refresh | exit --") in
  sret offset.

(** [command == "..."] for one of several literals. *)
Definition is_one_of (command : bytes) (names : list string) : bool :=
  existsb (fun n => bool_decide (command = bstr n)) names.

(** The new [log_offset] is in the state; [false] leaves the viewer. *)
Definition bitapp_run_console_log_command (command : bytes) : SM D bool :=
  let command := str_trim command in
  let render offset :=
    let! shown := bitapp_render_console_log_page offset in
    let! _ := smodify (set_log_offset shown) in
    sret true in
  let! log_offset := sgets sh_log_offset in
  if is_one_of command [""; "pgdn"; "next"; "down"]%string then
    let! log_len := bitapp_console_log_len in
    let max_offset := bitapp_console_log_max_offset log_len in
    render (Z.min (sat_add64 log_offset RAM_SHELL_LOG_PAGE_BYTES) max_offset)
  else if is_one_of command ["pgup"; "prev"; "up"]%string then
    render (sat_sub log_offset RAM_SHELL_LOG_PAGE_BYTES)
  else if is_one_of command ["top"]%string then render 0
  else if is_one_of command ["bottom"; "end"]%string then
    let! bottom := bitapp_console_log_bottom_offset in
    render bottom
  else if is_one_of command ["refresh"; "r"]%string then render log_offset
  else if is_one_of command ["help"; "?"]%string then
    let! _ := bitapp_write_console_log_help in sret true
  else if is_one_of command ["exit"; "quit"; "q"]%string then sret false
  else let! _ := bitapp_write_console_log_help in sret true.

(** ** The model prompt *)

(** The call through the C interface; what the decoder prints goes to the console. *)
Definition hermit_bitnet_prompt_decode_from_buffer (prompt_buf : bytes) (n_predict output_len : Z)
    : SM D Decoded :=
  let! calls := sgets sh_calls in
  let r := decode calls prompt_buf n_predict n_threads BITNET_SHELL_N_CTX output_len in
  let! _ := smodify (set_calls (calls + 1)) in
  let! _ := console_write (d_printed r) in
  sret r.

Definition bitapp_run_model_prompt (prompt : bytes) : SM D bytes :=
  let prompt := str_trim prompt in
  if zlen prompt =? 0 then
    let! _ := println (bstr "bitapp: prompt is empty") in sret []
  else
  let (prompt_buf, prompt_len) := build_raw_prompt (zeros (RAM_SHELL_LINE_LEN + 1)) prompt in
  if (prompt_len =? 0) || (zlen prompt_buf <=? prompt_len) then
    let! _ := println (bstr "bitapp: prompt buffer is full") in sret []
  else
  let! r := hermit_bitnet_prompt_decode_from_buffer prompt_buf BITNET_SHELL_N_PREDICT
              BITNET_OUTPUT_BUF_LEN in
  if generation_aborted (d_polls r) then
    let! _ := println (bstr "bitapp: RAM_SHELL prompt stopped by Ctrl-C") in sret []
  else if d_ret r =? 0 then
    let generated_len := c_string_len (d_output r) in
    let! generated := slift (get_slice (d_output r) 0 generated_len) in
    let answer := ram_shell_answer_bytes generated in
    let! _ := if zlen answer =? 0 then sret tt else console_write answer in
    let! _ := if bool_decide (last answer = Some NL) then sret tt else println [] in
    let! _ := smodify (fun s =>
                let (h, d) := append_to_history (sh_history s) (sh_delta s) prompt answer in
                set_memory h d s) in
    sret answer
  else sret [].

Definition bitapp_warm_bitnet_runtime : SM D Z :=
  let! r := hermit_bitnet_prompt_decode_from_buffer BITNET_RUNTIME_WARMUP_PROMPT (-1) 1 in
  sret (d_ret r).

(** ** The command interpreter *)

(** [for _ in 0..40 { println!() }] *)
Fixpoint blank_lines (n : nat) : SM D unit :=
  match n with
  | O => sret tt
  | S n => let! _ := println [] in blank_lines n
  end.

(** [strip_prefix("forget ").or_else(|| strip_prefix("erase "))] *)
Definition forget_phrase (s : bytes) : option bytes :=
  match str_strip_prefix (bstr "forget ") s with
  | Some p => Some p
  | None => str_strip_prefix (bstr "erase ") s
  end.

Definition run_forget (phrase : bytes) : SM D unit :=
  smodify (fun s =>
    let '(h, d, _) := append_forget_to_history (sh_history s) (sh_delta s) phrase in
    set_memory h d s).

(** The [RamShellMode::Command] arm. *)
Definition run_command (command : bytes) : SM D unit :=
  let trimmed := str_trim command in
  if zlen trimmed =? 0 then sret tt
  else if bool_decide (trimmed = bstr "help") then
    let! _ := println (bstr "commands: clear, reset, prompt, log, forget, erase, exit, reboot") in
    let! _ := println (bstr "prompt: enter prompt mode; prompt <text>: run immediately") in
    println (bstr "log: open captured console log; use pgup/pgdn/top/bottom/exit")
  else if bool_decide (trimmed = bstr "clear") then blank_lines 40
  else if bool_decide (trimmed = bstr "reset") then smodify (set_memory [] [])
  else if bool_decide (trimmed = bstr "erase memory") then bitapp_erase_memory_db
  else match forget_phrase trimmed with
  | Some phrase => run_forget phrase
  | None =>
  if bool_decide (trimmed = bstr "prompt") then smodify (set_mode Prompt)
  else match str_strip_prefix (bstr "prompt ") trimmed with
  | Some prompt =>
      let! _ := bitapp_run_model_prompt prompt in
      smodify (set_mode Prompt)
  | None =>
  if bool_decide (trimmed = bstr "log") then
    let! _ := bitapp_console_log_set_capture false in
    let! log_offset := bitapp_console_log_bottom_offset in
    let! log_offset := bitapp_render_console_log_page log_offset in
    let! _ := smodify (set_log_offset log_offset) in
    smodify (set_mode Log)
  else if bool_decide (trimmed = bstr "exit") then
    let! _ := bitapp_flush_memory_db in
    smodify (set_mode Command)
  else if bool_decide (trimmed = bstr "reboot") then bitapp_reboot
  else println (bstr "ram: " ++ trimmed)
  end end.

(** The [RamShellMode::Prompt] arm. *)
Definition run_prompt (command : bytes) : SM D unit :=
  let prompt := str_trim command in
  if bool_decide (prompt = bstr "cancel") then println (bstr "bitapp: prompt cancelled")
  else if bool_decide (prompt = bstr "exit") then
    let! _ := bitapp_flush_memory_db in
    smodify (set_mode Command)
  else if bool_decide (prompt = bstr "reboot") then bitapp_reboot
  else if bool_decide (prompt = bstr "erase memory") then bitapp_erase_memory_db
  else match forget_phrase prompt with
  | Some phrase => run_forget phrase
  | None =>
  if bool_decide (prompt = bstr "clear") then blank_lines 40
  else
    let! _ := bitapp_run_model_prompt prompt in
    sret tt
  end.

(** The [RamShellMode::Log] arm. *)
Definition run_log_command (command : bytes) : SM D unit :=
  let! stay := bitapp_run_console_log_command command in
  if stay : bool then sret tt
  else
    let! _ := bitapp_console_log_set_capture true in
    smodify (set_mode Command).

Definition mode_prompt (mode : RamShellMode) : bytes :=
  match mode with
  | Command => RAM_SHELL_COMMAND_PROMPT
  | Prompt => RAM_SHELL_MODEL_PROMPT
  | Log => RAM_SHELL_LOG_PROMPT
  end.

(** The arm of carriage return and line feed. *)
Definition run_line : SM D unit :=
  let! _ := console_write [NL] in
  let! command := sgets sh_line in
  let! mode := sgets sh_mode in
  let! _ :=
    match mode with
    | Command => run_command command
    | Prompt => run_prompt command
    | Log => run_log_command command
    end in
  let! _ := smodify (set_line []) in
  let! mode := sgets sh_mode in
  console_write (mode_prompt mode).

(** One turn of [bitapp_ram_shell]'s loop. *)
Definition shell_step (r : stdin_read) : SM D unit :=
  match r with
  | ReadNone | ReadError => sret tt
  | ReadByte b =>
      let ch := bz b in
      if ch =? 3 then
        let! _ := console_write (bstr "^C" ++ [NL]) in
        let! _ := smodify (set_line []) in
        let! mode := sgets sh_mode in
        let! _ := if bool_decide (mode = Log) then bitapp_console_log_set_capture true else sret tt in
        let! _ := smodify (set_mode Command) in
        console_write RAM_SHELL_COMMAND_PROMPT
      else if (ch =? 13) || (ch =? 10) then run_line
      else if (ch =? 8) || (ch =? 127) then
        let! line := sgets sh_line in
        if 0 <? zlen line then
          let! _ := smodify (set_line (ztake (zlen line - 1) line)) in
          console_write [byte.of_Z 8; byte.of_Z 32; byte.of_Z 8]
        else sret tt
      else if (32 <=? ch) && (ch <=? 126) then
        let! line := sgets sh_line in
        if zlen line + 1 <? RAM_SHELL_LINE_LEN then
          let! _ := smodify (set_line (line ++ [b])) in
          console_write [b]
        else sret tt
      else sret tt
  end.

Fixpoint shell_loop (reads : list stdin_read) : SM D unit :=
  match reads with
  | [] => sret tt
  | r :: reads => let! _ := shell_step r in shell_loop reads
  end.

(** [bitapp_ram_shell]: the loop never ends by itself; [reads] is the input so far. *)
Definition bitapp_ram_shell (reads : list stdin_read) : SM D unit :=
  let! _ := smodify (fun s => set_log_offset 0 (set_mode Command (set_line []
              (set_memory (sh_history s) [] s)))) in
  let! _ := console_write RAM_SHELL_COMMAND_PROMPT in
  shell_loop reads.

Definition run (model_ptr model_len : Z) (reads : list stdin_read) : SM D unit :=
  let! app_start := bitapp_log_boot_event (bstr "bitapp_main_start") in
  let! _ := println (bstr "bitapp: BitNet b1.58 Hermit linked app") in
  let! model_handoff := bitapp_log_boot_delta (bstr "model_handoff") app_start in
  let! _ := println (bstr "bitapp: kernel model pointer=" ++ fmt_ptr model_ptr ++ bstr ", len="
                     ++ fmt_u model_len) in
  let! _ := smodify (fun s => set_memory [] (sh_delta s) s) in
  let! _ := bitapp_load_memory_db_history in
  let! warmup_start := bitapp_log_boot_delta (bstr "runtime_warmup_start") model_handoff in
  let! warmup_ret := bitapp_warm_bitnet_runtime in
  let! _ := bitapp_log_boot_delta (bstr "runtime_warmup_done") warmup_start in
  let! _ := println (bstr "bitapp: runtime warmup returned " ++ fmt_i warmup_ret) in
  bitapp_ram_shell reads.
End shell.
