(* ===== verification/ShellSpec.v ===== *)
(** * The RAM shell: what each operation may change

    The state splits in two.  Console operations touch the console log, the
    screen and the counters only ([same]); the memory operations change the disk,
    the history and the session buffer by one [mem_step], the abstract steps
    of the shell's memory.  Every operation is shown to run without a panic
    and to stay within its half; ShellTheorems.v composes them. *)

From S2P Require Import Prelude BlockDevice AhciIo MemoryDb MemoryDbSpec MemoryDbTheorems AppText History HistorySpec HistoryTheorems ConsoleLog Syscalls MemoryDbSafety Shell.

(** ** Lengths of what is printed *)

Lemma zlen_bstr_app s l : zlen (bstr s ++ l) = zlen (bstr s) + zlen l.
Proof. apply zlen_app. Qed.

Lemma zlen_fmt_u n : zlen (fmt_u n) <= 20.
Proof. apply append_decimal_length. Qed.

Lemma zlen_fmt_i n : zlen (fmt_i n) <= 21.
Proof.
  unfold fmt_i. destruct (n <? 0); [|pose proof (zlen_fmt_u n); lia].
  rewrite zlen_app. change (zlen (bstr "-")) with 1. pose proof (zlen_fmt_u (- n)). lia.
Qed.

Lemma zlen_replicate {A} n (x : A) : zlen (replicate n x) = Z.of_nat n.
Proof. unfold zlen. by rewrite length_replicate. Qed.

Lemma zlen_fmt_03 n : zlen (fmt_03 n) <= 23.
Proof. unfold fmt_03. rewrite zlen_app, zlen_replicate. pose proof (zlen_fmt_u n). lia. Qed.

Lemma zlen_hex_digits fuel n : zlen (hex_digits fuel n) <= Z.of_nat fuel.
Proof.
  revert n. induction fuel as [|fuel IH]; intros n; [done|]. cbn [hex_digits].
  rewrite zlen_app. specialize (IH (n / 16)).
  change (zlen [_]) with 1. destruct (n / 16 =? 0); [change (zlen (@nil byte)) with 0|]; lia.
Qed.

Lemma zlen_fmt_ptr p : zlen (fmt_ptr p) <= 18.
Proof.
  unfold fmt_ptr. rewrite zlen_app. change (zlen (bstr "0x")) with 2.
  pose proof (zlen_hex_digits 16 p). lia.
Qed.

Lemma zlen_map {A B} (f : A -> B) l : zlen (map f l) = zlen l.
Proof. unfold zlen. by rewrite length_map. Qed.

Lemma zlen_rev {A} (l : list A) : zlen (rev l) = zlen l.
Proof. unfold zlen. by rewrite length_rev. Qed.

Lemma zlen_str_trim l : zlen (str_trim l) <= zlen l.
Proof.
  unfold str_trim. rewrite zlen_rev.
  pose proof (zlen_drop_while is_str_space (rev (drop_while is_str_space l))) as H.
  rewrite zlen_rev in H. pose proof (zlen_drop_while is_str_space l). lia.
Qed.

Lemma zlen_strip_prefix p s r : str_strip_prefix p s = Some r -> zlen r <= zlen s.
Proof.
  unfold str_strip_prefix. destruct (bool_decide _); [|done]. intros [= <-].
  rewrite zlen_zdrop by apply zlen_nonneg. pose proof (zlen_nonneg p). pose proof (zlen_nonneg s). lia.
Qed.

Lemma zlen_forget_phrase s r : forget_phrase s = Some r -> zlen r <= zlen s.
Proof.
  unfold forget_phrase. destruct (str_strip_prefix (bstr "forget ") s) eqn:E; intros; simplify_eq;
    eauto using zlen_strip_prefix.
Qed.

Lemma zlen_strip_prefix_once l p r : strip_prefix_once l p = Some r -> zlen r <= zlen l.
Proof.
  unfold strip_prefix_once. destruct (_ && _); [|done]. intros [= <-].
  etransitivity; [apply zlen_trim_ascii|]. pose proof (zlen_nonneg p).
  rewrite zlen_zdrop by done. pose proof (zlen_nonneg l). lia.
Qed.

Lemma zlen_trim_orphan l : zlen (trim_trailing_orphan_one l) <= zlen l.
Proof.
  pose proof (zlen_trim_ascii l) as Ht. unfold trim_trailing_orphan_one.
  assert (forall n, zlen (trim_ascii (ztake n (trim_ascii l))) <= zlen l) as Hp.
  { intros n. pose proof (zlen_trim_ascii (ztake n (trim_ascii l))) as H.
    rewrite zlen_ztake in H. pose proof (zlen_nonneg (trim_ascii l)). lia. }
  repeat case_match; auto.
Qed.

Lemma zlen_answer g : zlen (ram_shell_answer_bytes g) <= zlen g.
Proof.
  unfold ram_shell_answer_bytes. etransitivity; [apply zlen_trim_orphan|].
  pose proof (zlen_trim_ascii g). repeat case_match; simplify_eq; try done;
    (etransitivity; [by eapply zlen_strip_prefix_once|done]).
Qed.

Lemma c_string_len_bound buf : 0 <= c_string_len buf <= zlen buf.
Proof.
  unfold c_string_len. destruct (find_byte buf _) as [i|] eqn:E;
    [apply find_byte_bounds in E; lia|]. pose proof (zlen_nonneg buf). lia.
Qed.

(** Bound the length of printed text: literals are computed, numbers are short. *)
Ltac text_len :=
  unfold boot_stamp; rewrite ?zlen_app;
  repeat match goal with
    | |- context [zlen (bstr ?s)] =>
        let v := eval vm_compute in (zlen (bstr s)) in change (zlen (bstr s)) with v
    | |- context [zlen [?x]] => change (zlen [x]) with 1
    | |- context [zlen (@nil ?A)] => change (zlen (@nil A)) with 0
    | |- context [zlen (fmt_u ?n)] => pose proof (zlen_fmt_u n); generalize dependent (zlen (fmt_u n)); intros
    | |- context [zlen (fmt_i ?n)] => pose proof (zlen_fmt_i n); generalize dependent (zlen (fmt_i n)); intros
    | |- context [zlen (fmt_03 ?n)] => pose proof (zlen_fmt_03 n); generalize dependent (zlen (fmt_03 n)); intros
    | |- context [zlen (fmt_ptr ?n)] => pose proof (zlen_fmt_ptr n); generalize dependent (zlen (fmt_ptr n)); intros
    end; ulia.

(** ** The invariant and the two halves of the state *)

Section spec.
Context {D : Type} `{BlockDevSpec D}.
Implicit Types (s : Shell D).

(** What holds in every state: the console log is well formed, the session
    buffer within its cap, the memory keys unique. *)
Definition base_inv s : Prop :=
  log_wf CONSOLE_LOG_CAPACITY (sh_log s) /\
  zlen (sh_delta s) <= RAM_SHELL_HISTORY_CAP_BYTES /\
  NoDup (keys (sh_history s)) /\ 0 <= sh_log_offset s.

(** The shell's memory: the disk, the live history and the session buffer. *)
Definition memory : Type := Ahci D * list QaRecord * bytes.
Definition mem_of s : memory := (sh_ahci s, sh_history s, sh_delta s).

Definition capturing s : bool := cl_capture_enabled (sh_log s).

(** The interface half: mode, line and capture flag. *)
Definition ui_of s : RamShellMode * bytes * bool := (sh_mode s, sh_line s, capturing s).

(** Console output changes neither half. *)
Definition same s s' : Prop := mem_of s' = mem_of s /\ ui_of s' = ui_of s.

Definition console_only {A} (c : SM D A) (P : A -> Prop) : Prop :=
  forall s, base_inv s -> wp c (fun a s' => base_inv s' /\ same s s' /\ P a) (fun _ _ => False) s.

Lemma co_bind {A B} (c : SM D A) (k : A -> SM D B) P Q :
  console_only c P -> (forall a, P a -> console_only (k a) Q) -> console_only (sbind c k) Q.
Proof.
  intros Hc Hk s Hs. apply wp_bind. eapply wp_mono; [by apply Hc| |done].
  intros a s' (Hs' & Hsame & Ha). eapply wp_mono; [by apply Hk| |done].
  intros b s'' (? & [Hm Hu] & ?). destruct Hsame as [Hm' Hu']. split_and!; try done. split; congruence.
Qed.

Lemma co_ret {A} (a : A) (P : A -> Prop) : P a -> console_only (sret a) P.
Proof. intros Ha s Hs. by apply wp_ret. Qed.

Lemma co_weaken {A} (c : SM D A) (P Q : A -> Prop) :
  console_only c P -> (forall a, P a -> Q a) -> console_only c Q.
Proof. intros Hc HPQ s Hs. eapply wp_mono; [by apply Hc| |done]. intros a s' (? & ? & ?). auto. Qed.

Lemma co_gets {A} (f : Shell D -> A) (P : A -> Prop) :
  (forall s, base_inv s -> P (f s)) -> console_only (sgets f) P.
Proof. intros Hf s Hs. apply wp_gets. split_and!; auto. done. Qed.

Lemma co_lift_ok {A} (o : outcome Rebooted A) a (P : A -> Prop) :
  o = Ok a -> P a -> console_only (slift o) P.
Proof. intros -> Ha s Hs. by eapply wp_lift_ok. Qed.

Lemma co_modify (f : Shell D -> Shell D) :
  (forall s, base_inv s -> base_inv (f s) /\ same s (f s)) -> console_only (smodify f) (fun _ => True).
Proof. intros Hf s Hs. apply wp_modify. destruct (Hf s Hs). done. Qed.

Lemma co_write b : zlen b <= U64_MAX -> console_only (console_write b) (fun _ => True).
Proof.
  intros Hb s (Hl & Hd & Hk & Ho). destruct kernel_capacity as [Hc Hm].
  destruct (append_spec CONSOLE_LOG_CAPACITY Hc Hm (sh_log s) b Hl Hb) as (log & Ha & Hwf & He & _).
  Transparent wp. unfold wp, console_write. Opaque wp. rewrite Ha.
  split_and!; try done. split; [done|]. unfold ui_of, capturing. simpl. by rewrite He.
Qed.

Lemma co_println b : zlen b <= U64_MAX - 1 -> console_only (println b) (fun _ => True).
Proof. intros Hb. apply co_write. rewrite zlen_app. change (zlen [NL]) with 1. lia. Qed.

Lemma co_blank_lines n : console_only (blank_lines (D := D) n) (fun _ => True).
Proof.
  induction n as [|n IH]; cbn [blank_lines]; [by apply co_ret|].
  eapply co_bind; [by apply co_println|]. done.
Qed.

Lemma co_log_len : console_only bitapp_console_log_len (fun n => 0 <= n <= CONSOLE_LOG_CAPACITY).
Proof. apply co_gets. intros s ((_ & _ & Hl) & _). done. Qed.

(** A page of the log: at most a page long, and read at the requested offset. *)
Lemma co_read_log offset :
  0 <= offset ->
  console_only (bitapp_read_console_log offset RAM_SHELL_LOG_PAGE_BYTES)
    (fun r => snd r = zlen (fst r) /\ zlen (fst r) <= RAM_SHELL_LOG_PAGE_BYTES).
Proof.
  intros Ho s Hs. pose proof Hs as (Hwf & _). destruct kernel_capacity as [Hc Hm].
  unfold bitapp_read_console_log. change (RAM_SHELL_LOG_PAGE_BYTES =? 0) with false; cbv iota.
  apply wp_bind, wp_gets. unfold sys_read_console_log. change (RAM_SHELL_LOG_PAGE_BYTES =? 0) with false; cbv iota.
  rewrite (read_spec CONSOLE_LOG_CAPACITY Hc Hm (sh_log s) offset RAM_SHELL_LOG_PAGE_BYTES Hwf Ho) by done. cbn [obind].
  set (r := slice _ _ _). assert (zlen r <= 1024) as Hr.
  { unfold r, slice, RAM_SHELL_LOG_PAGE_BYTES. rewrite zlen_ztake. pose proof (zlen_nonneg (contents CONSOLE_LOG_CAPACITY (sh_log s))). lia. }
  clearbody r. pose proof (zlen_nonneg r). unfold to_i32, I32_MAX. guard_true (zlen r <=? 2147483647).
  destruct (zlen r <=? 0); apply wp_ret; split_and!; done.
Qed.

Lemma co_render offset :
  0 <= offset -> console_only (bitapp_render_console_log_page offset) (fun n => 0 <= n).
Proof.
  intros Ho. unfold bitapp_render_console_log_page. eapply co_bind; [apply co_log_len|]. intros n [Hn0 Hn].
  set (off := bitapp_console_log_clamp_offset offset n).
  assert (0 <= off) as Hoff.
  { unfold off, bitapp_console_log_clamp_offset, bitapp_console_log_max_offset, sat_sub. lia. }
  eapply co_bind; [by apply co_read_log|]. intros [b rl] [Hrl Hb]. cbn [fst snd] in *. subst rl.
  eapply co_bind; [by apply co_write|]. intros _ _.
  eapply co_bind; [|by intros; apply co_ret]. instantiate (1 := fun _ => True).
  destruct (_ || _) eqn:E; [by apply co_println|]. apply orb_false_iff in E as [_ E]. bool_to_prop.
  pose proof (zlen_nonneg b). unfold RAM_SHELL_LOG_PAGE_BYTES in *.
  assert (zlen (splice (zeros 1024) 0 b) = 1024) as Hp by (rewrite zlen_splice; rewrite ?zlen_zeros; lia).
  eapply co_bind; [apply co_println; text_len|]. intros _ _.
  eapply co_bind; [eapply co_lift_ok; [apply get_slice_ok; lia|]|].
  { instantiate (1 := fun r => zlen r = zlen b). cbn beta. rewrite zlen_slice; lia. }
  intros shown Hsh. cbn beta in Hsh.
  eapply co_bind; [apply co_write; rewrite zlen_map; ulia|]. intros _ _.
  eapply (co_bind _ _ (fun _ => True)); [eapply co_lift_ok; [apply get_slice_ok; lia|done]|]. intros l _.
  eapply co_bind; [|by intros; apply co_println]. instantiate (1 := fun _ => True).
  destruct (bool_decide _); [by apply co_ret|by apply co_write].
Qed.

Lemma co_bottom : console_only bitapp_console_log_bottom_offset (fun n => 0 <= n).
Proof.
  eapply co_bind; [apply co_log_len|]. intros n _. apply co_ret.
  unfold bitapp_console_log_max_offset, sat_sub. lia.
Qed.

Lemma co_set_log_offset n : 0 <= n -> console_only (smodify (set_log_offset n)) (fun _ => True).
Proof. intros Hn. apply co_modify. intros s (? & ? & ? & _). done. Qed.

Lemma co_log_command command : console_only (bitapp_run_console_log_command command) (fun _ => True).
Proof.
  unfold bitapp_run_console_log_command.
  assert (forall offset, 0 <= offset -> console_only
    (let! shown := bitapp_render_console_log_page offset in
     let! _ := smodify (set_log_offset shown) in sret true) (fun _ => True)) as Hrender.
  { intros offset Ho. eapply co_bind; [by apply co_render|]. intros n Hn. cbn beta in Hn.
    eapply co_bind; [by apply co_set_log_offset|]. intros _ _. by apply co_ret. }
  eapply (co_bind _ _ (fun n => 0 <= n)); [apply co_gets; by intros s (_ & _ & _ & ?)|].
  intros off Hoff. cbn beta in Hoff.
  assert (console_only bitapp_write_console_log_help (fun _ => True)) as Hhelp by (by apply co_write).
  destruct (is_one_of _ _).
  { eapply co_bind; [apply co_log_len|]. intros n _. apply Hrender.
    unfold bitapp_console_log_max_offset, sat_sub, sat_add64, RAM_SHELL_LOG_PAGE_BYTES. ulia. }
  destruct (is_one_of _ _); [apply Hrender; unfold sat_sub; lia|].
  destruct (is_one_of _ _); [by apply Hrender|].
  destruct (is_one_of _ _); [eapply co_bind; [apply co_bottom|]; intros n Hn; by apply Hrender|].
  destruct (is_one_of _ _); [by apply Hrender|].
  destruct (is_one_of _ _); [eapply co_bind; [exact Hhelp|by intros; apply co_ret]|].
  destruct (is_one_of _ _); [by apply co_ret|].
  eapply co_bind; [exact Hhelp|by intros; apply co_ret].
Qed.
End spec.

(** ** The decoder's contract

    It fills the buffer it was given without changing its length, prints a
    bounded amount, and generates at most [amax] bytes of text. *)
Record DecoderOk (decode : Z -> bytes -> Z -> Z -> Z -> Z -> Decoded) (amax : Z) : Prop := {
  dec_output : forall calls p np nt nx ol, 0 <= ol -> zlen (d_output (decode calls p np nt nx ol)) = ol;
  dec_printed : forall calls p np nt nx ol, zlen (d_printed (decode calls p np nt nx ol)) <= ISIZE_MAX;
  dec_text : forall calls p np nt nx ol, c_string_len (d_output (decode calls p np nt nx ol)) <= amax;
  dec_max : 0 <= amax <= BITNET_OUTPUT_BUF_LEN;
}.

(** What one line can add to the history or to the session buffer. *)
Definition line_cost (amax : Z) : Z := RAM_SHELL_LINE_LEN + amax + 96.

(** ** The abstract steps of the memory *)

Section memory.
Context {D : Type} `{BlockDevSpec D}.
Context (amax : Z).

(** A flush: nothing pending, or one append whose code decides. *)
Inductive mem_flush : memory (D := D) -> memory -> Prop :=
| MfEmpty a h d : zlen d = 0 -> mem_flush (a, h, d) (a, h, d)
| MfAppend a h d a' code :
    0 < zlen d -> sys_append_memory_db (Some d) a = (a', Ok code) ->
    mem_flush (a, h, d) (a', h, if code <? 0 then d else []).

(** [reset]: whether the line is the "reset" command. *)
Inductive mem_step (reset : bool) : memory (D := D) -> memory -> Prop :=
| MsIdle m : mem_step reset m m
| MsEvent a h d e :
    event_cost e <= line_cost amax ->
    mem_step reset (a, h, d) (a, fst (run_event (h, d) e), snd (run_event (h, d) e))
| MsFlush m m' : mem_flush m m' -> mem_step reset m m'
| MsErase a h d a' code :
    sys_erase_memory_db a = (a', Ok code) -> mem_step reset (a, h, d) (a', [], [])
| MsReset a h d : reset = true -> mem_step reset (a, h, d) (a, [], []).

Context (decode : Z -> bytes -> Z -> Z -> Z -> Z -> Decoded) (n_threads : Z) (clock : Z -> Z).
Context (Hdec : DecoderOk decode amax).

(** [c] makes one memory step and leaves the interface half alone, or flushes
    and reboots. *)
Definition one_step {A} (reset : bool) (c : SM D A) : Prop :=
  forall s, base_inv s ->
    wp c (fun _ s' => base_inv s' /\ ui_of s' = ui_of s /\ mem_step reset (mem_of s) (mem_of s'))
         (fun _ s' => base_inv s' /\ mem_flush (mem_of s) (mem_of s')) s.

Lemma one_step_console {A} reset (c : SM D A) P : console_only c P -> one_step reset c.
Proof.
  intros Hc s Hs. eapply wp_mono; [by apply Hc| |done]. intros a s' (? & [Hm ?] & _).
  split_and!; try done. rewrite Hm. constructor.
Qed.

(** Console output around a step. *)
Lemma one_step_after {A B} reset (c : SM D A) (k : A -> SM D B) P :
  console_only c P -> (forall a, P a -> one_step reset (k a)) -> one_step reset (sbind c k).
Proof.
  intros Hc Hk s Hs. apply wp_bind. eapply wp_mono; [by apply Hc| |done].
  intros a s' (Hs' & [Hm Hu] & Ha). eapply wp_mono; [by apply Hk|..].
  - intros b s'' (? & ? & ?). rewrite <- Hm, <- Hu. done.
  - intros b s'' (? & ?). rewrite <- Hm. done.
Qed.

Lemma one_step_before {A B} reset (c : SM D A) (k : A -> SM D B) P :
  one_step reset c -> (forall a, console_only (k a) P) -> one_step reset (sbind c k).
Proof.
  intros Hc Hk s Hs. apply wp_bind. eapply wp_mono; [by apply Hc| |done].
  intros a s' (Hs' & Hu & Hm). eapply wp_mono; [by apply Hk| |done].
  intros b s'' (? & [Hm' Hu'] & _). split_and!; [done|congruence|congruence].
Qed.

(** An event applied to the history and the session buffer. *)
Lemma one_step_event reset f e :
  event_cost e <= line_cost amax ->
  (forall s, f s = let (h, d) := run_event (sh_history s, sh_delta s) e in set_memory h d s) ->
  one_step reset (smodify f).
Proof.
  intros He Hf s (? & Hd & Hk & ?). apply wp_modify. rewrite Hf.
  assert (event_cost e < RAM_SHELL_HISTORY_CAP_BYTES) as Hc.
  { destruct (dec_max _ _ Hdec). unfold line_cost, RAM_SHELL_LINE_LEN, BITNET_OUTPUT_BUF_LEN in *.
    change RAM_SHELL_HISTORY_CAP_BYTES with 65536. lia. }
  pose proof (event_delta_bounded (sh_history s) (sh_delta s) e Hd Hc) as Hd'.
  pose proof (event_keys_nodup (sh_history s) (sh_delta s) e Hk) as Hk'.
  assert (mem_step reset (mem_of s)
    (sh_ahci s, fst (run_event (sh_history s, sh_delta s) e), snd (run_event (sh_history s, sh_delta s) e)))
    as Hstep by (by apply MsEvent).
  destruct (run_event _ _) as [h d]. cbn [fst snd] in *. split_and!; done.
Qed.

Lemma one_step_forget reset phrase :
  zlen phrase <= RAM_SHELL_LINE_LEN -> one_step reset (run_forget (D := D) phrase).
Proof.
  intros Hp. apply (one_step_event reset _ (Forget phrase)).
  - destruct (dec_max _ _ Hdec). unfold line_cost. cbn [event_cost]. lia.
  - intros s. cbn [run_event fst snd]. by destruct (append_forget_to_history _ _ _) as [[h d] n].
Qed.

(** The storage calls answer with a code, whatever the device does. *)
Lemma sys_append_answers d (a : Ahci D) :
  zlen d <= U64_MAX -> exists a' code, sys_append_memory_db (Some d) a = (a', Ok code).
Proof.
  intros Hd. unfold sys_append_memory_db. unfold sbind, scatch.
  pose proof (returns_append (D := D) (Some d)) as Hr.
  destruct (wp_run _ _ _ _ (Hr ltac:(split; [apply zlen_nonneg|done]) a))
    as [(a' & n & -> & _)|(a' & [] & -> & _)]; eauto.
Qed.

Lemma sys_erase_answers (a : Ahci D) : exists a' code, sys_erase_memory_db a = (a', Ok code).
Proof.
  unfold sys_erase_memory_db, sbind, scatch.
  destruct (wp_run _ _ _ _ (returns_erase (D := D) a)) as [(a' & n & -> & _)|(a' & [] & -> & _)]; eauto.
Qed.

Lemma wp_flush s :
  base_inv s ->
  wp bitapp_flush_memory_db
    (fun _ s' => base_inv s' /\ ui_of s' = ui_of s /\ mem_flush (mem_of s) (mem_of s'))
    (fun _ _ => False) s.
Proof.
  intros Hs. pose proof Hs as (Hl & Hd & Hk & Ho). apply wp_bind, wp_gets.
  destruct (zlen (sh_delta s) =? 0) eqn:E; bool_to_prop.
  { apply wp_ret. split_and!; [done|done|by apply MfEmpty]. }
  pose proof (zlen_nonneg (sh_delta s)).
  destruct (sys_append_answers (sh_delta s) (sh_ahci s)) as (a' & code & Ha);
    [change RAM_SHELL_HISTORY_CAP_BYTES with 65536 in Hd; ulia|].
  assert (mem_flush (mem_of s) (a', sh_history s, if code <? 0 then sh_delta s else [])) as Hstep
    by (by apply MfAppend; [lia|]).
  apply wp_bind. Transparent wp. unfold wp at 1, syscall. rewrite Ha. Opaque wp.
  destruct (code <? 0).
  - eapply wp_mono; [apply co_println; [text_len|]| |done].
    { done. }
    intros _ s' (? & [Hm Hu] & _). rewrite Hm. done.
  - apply wp_modify. split_and!; done.
Qed.

Lemma one_step_flush reset : one_step reset (bitapp_flush_memory_db (D := D)).
Proof.
  intros s Hs. eapply wp_mono; [by apply wp_flush| |done]. intros _ s' (? & ? & ?).
  split_and!; try done. by apply MsFlush.
Qed.

Lemma one_step_erase reset : one_step reset (bitapp_erase_memory_db (D := D)).
Proof.
  intros s (Hl & Hd & Hk & Ho). apply wp_bind, wp_modify.
  destruct (sys_erase_answers (sh_ahci s)) as (a' & code & Ha).
  assert (mem_step reset (mem_of s) (a', [], [])) as Hstep by (by eapply MsErase).
  apply wp_bind. Transparent wp. unfold wp at 1, syscall. cbn [set_memory sh_ahci]. rewrite Ha. Opaque wp.
  assert (base_inv (set_ahci a' (set_memory [] [] s))) as Hb by (split_and!; try done; constructor).
  destruct (code <? 0).
  - eapply wp_mono; [apply co_println; [text_len|done]| |done].
    intros _ s' (? & [Hm Hu] & _). rewrite Hm. done.
  - by apply wp_ret.
Qed.

Lemma one_step_reboot {A} reset : one_step reset (bitapp_reboot (D := D) (A := A)).
Proof.
  intros s Hs. apply wp_bind. eapply wp_mono; [by apply wp_flush| |done].
  intros _ s' (? & _ & ?). by apply wp_fail.
Qed.

Lemma one_step_prompt reset prompt :
  zlen prompt <= RAM_SHELL_LINE_LEN ->
  one_step reset (bitapp_run_model_prompt (D := D) decode n_threads prompt).
Proof.
  intros Hp. pose proof (zlen_str_trim prompt). unfold bitapp_run_model_prompt.
  destruct (_ =? 0).
  { eapply one_step_console, co_bind; [by apply co_println|]. intros. by apply (co_ret _ (fun _ => True)). }
  destruct (build_raw_prompt _ _) as [buf len].
  destruct (_ || _).
  { eapply one_step_console, co_bind; [by apply co_println|]. intros. by apply (co_ret _ (fun _ => True)). }
  eapply (one_step_after _ _ _ (fun r => zlen (d_output r) = BITNET_OUTPUT_BUF_LEN /\
    c_string_len (d_output r) <= amax)).
  { unfold hermit_bitnet_prompt_decode_from_buffer.
    eapply (co_bind _ _ (fun _ => True)); [by apply co_gets|]. intros calls _.
    eapply co_bind; [by apply co_modify|]. intros _ _.
    eapply co_bind; [apply co_write|].
    { pose proof (dec_printed _ _ Hdec calls buf BITNET_SHELL_N_PREDICT n_threads BITNET_SHELL_N_CTX
        BITNET_OUTPUT_BUF_LEN). unfold ISIZE_MAX in *. ulia. }
    intros _ _. apply co_ret. split; [by apply (dec_output _ _ Hdec)|apply (dec_text _ _ Hdec)]. }
  intros r [Hout Htext]. destruct (generation_aborted _).
  { eapply one_step_console, co_bind; [by apply co_println|]. intros. by apply (co_ret _ (fun _ => True)). }
  destruct (_ =? 0); [|by eapply one_step_console, (co_ret _ (fun _ => True))].
  destruct (c_string_len_bound (d_output r)) as [Hc0 Hc1].
  eapply (one_step_after _ _ _ (fun g => zlen g <= amax)).
  { eapply co_lift_ok; [apply get_slice_ok; lia|]. rewrite zlen_slice; lia. }
  intros g Hg. cbn beta in Hg. pose proof (zlen_answer g). destruct (dec_max _ _ Hdec) as [Hm0 Hm].
  unfold BITNET_OUTPUT_BUF_LEN in Hm.
  eapply (one_step_after _ _ _ (fun _ => True)).
  { destruct (_ =? 0); [by apply co_ret|]. apply co_write. ulia. }
  intros _ _. eapply (one_step_after _ _ _ (fun _ => True)).
  { destruct (bool_decide _); [by apply co_ret|by apply co_println]. }
  intros _ _. eapply one_step_before; [|intros; by apply (co_ret _ (fun _ => True))].
  apply (one_step_event reset _ (Ask (str_trim prompt) (ram_shell_answer_bytes g))); [|done].
  unfold line_cost. cbn [event_cost]. lia.
Qed.
End memory.
