(* ===== verification/ShellTheorems.v ===== *)
(** * The RAM shell: theorems

    Safety of the whole shell on any input, any device and any decoder answer,
    and the survival of the history across reboots, from typed bytes to the
    sectors of the SSD and back. *)

From S2P Require Import Prelude BlockDevice AhciIo MemoryDb MemoryDbSpec MemoryDbTheorems AppText History HistorySpec HistoryTheorems ConsoleLog Syscalls MemoryDbSafety Shell ShellSpec.

(** ** The interpreter, one line at a time *)

Definition printable (b : byte) : Prop := 32 <= bz b <= 126.

Section interpreter.
Context {D : Type} `{BlockDevSpec D}.
Context (amax : Z) (decode : Z -> bytes -> Z -> Z -> Z -> Z -> Decoded) (n_threads : Z).
Context (Hdec : DecoderOk decode amax).
Implicit Types s : Shell D.

(** Capture is off exactly while the log viewer is open. *)
Definition coherent s : Prop := capturing s = false <-> sh_mode s = Log.

(** The line buffer holds printable bytes and leaves room for one more. *)
Definition line_ok (l : bytes) : Prop := zlen l < RAM_SHELL_LINE_LEN /\ Forall printable l.

Definition shell_inv s : Prop := base_inv s /\ coherent s /\ line_ok (sh_line s).

(** After a line: the invariant but for the line, and one memory step. *)
Definition line_post reset s s' : Prop :=
  base_inv s' /\ coherent s' /\ mem_step amax reset (mem_of s) (mem_of s').

Definition reboot_post s s' : Prop := base_inv s' /\ mem_flush (mem_of s) (mem_of s').

Lemma coherent_ui s s' : coherent s -> ui_of s' = ui_of s -> coherent s'.
Proof. unfold coherent, ui_of. intros Hc [= -> ? ->]. done. Qed.

Lemma capturing_ui s s' : ui_of s' = ui_of s -> capturing s' = capturing s.
Proof. by intros [= _ _ ?]. Qed.

Lemma line_one_step {A} reset (c : SM D A) s :
  one_step amax reset c -> base_inv s -> coherent s ->
  wp c (fun _ s' => line_post reset s s') (fun _ s' => reboot_post s s') s.
Proof.
  intros Hc Hs Hco. eapply wp_mono; [by apply Hc| |done]. intros a s' (? & ? & ?).
  split_and!; try done. by eapply coherent_ui.
Qed.

(** ... followed by a change of mode to one that captures. *)
Lemma line_then_mode {A} reset (c : SM D A) m s :
  one_step amax reset c -> base_inv s -> capturing s = true -> m <> Log ->
  wp (let! _ := c in smodify (set_mode m))
    (fun _ s' => line_post reset s s') (fun _ s' => reboot_post s s') s.
Proof.
  intros Hc Hs Hcap Hm. apply wp_bind. eapply wp_mono; [by apply Hc| |done].
  intros a s' (? & Hu & ?). apply wp_modify. split_and!; try done.
  unfold coherent. change (capturing (set_mode m s')) with (capturing s'). cbn [set_mode sh_mode].
  assert (capturing s' = true) as -> by (unfold ui_of in Hu; congruence). split; congruence.
Qed.

Lemma co_capture b s :
  base_inv s -> wp (bitapp_console_log_set_capture b)
    (fun _ s' => base_inv s' /\ mem_of s' = mem_of s /\ capturing s' = b /\ sh_mode s' = sh_mode s)
    (fun _ _ => False) s.
Proof.
  intros (Hw & Hd & Hk & Ho). apply wp_modify. destruct b; split_and!; done.
Qed.

Lemma is_reset (c : bytes) : c = bstr "reset" -> bool_decide (c = bstr "reset") = true.
Proof. intros. by apply bool_decide_eq_true. Qed.

Lemma wp_run_command command s :
  base_inv s -> sh_mode s = Command -> capturing s = true -> zlen command <= RAM_SHELL_LINE_LEN ->
  let reset := bool_decide (str_trim command = bstr "reset") in
  wp (run_command decode n_threads command)
    (fun _ s' => line_post reset s s') (fun _ s' => reboot_post s s') s.
Proof.
  intros Hs Hmode Hcap Hlen reset. pose proof (zlen_str_trim command) as Ht.
  assert (coherent s) as Hco by (unfold coherent; rewrite Hmode, Hcap; done).
  assert (forall A (c : SM D A) P, console_only c P ->
    wp c (fun _ s' => line_post reset s s') (fun _ s' => reboot_post s s') s) as Hcon.
  { intros. apply line_one_step; [by eapply one_step_console|done..]. }
  unfold run_command. fold reset. destruct (_ =? 0); [by eapply Hcon, (co_ret tt (fun _ => True))|].
  destruct (bool_decide (_ = bstr "help")).
  { eapply Hcon, co_bind; [by apply co_println|]. intros _ _.
    eapply co_bind; [by apply co_println|]. intros _ _. by apply co_println. }
  destruct (bool_decide (_ = bstr "clear")); [eapply Hcon, co_blank_lines|].
  destruct reset eqn:Hreset.
  { apply wp_modify. destruct Hs as (? & ? & ? & ?). split_and!; try done; [|by apply MsReset].
    split_and!; try done. constructor. }
  destruct (bool_decide (_ = bstr "erase memory")); [apply line_one_step; [apply one_step_erase|done..]|].
  destruct (forget_phrase _) as [p|] eqn:Hf.
  { apply zlen_forget_phrase in Hf. apply line_one_step; [|done|done]. eapply one_step_forget; [done|lia]. }
  destruct (bool_decide (_ = bstr "prompt")).
  { apply wp_modify. destruct Hs as (? & ? & ? & ?). split_and!; try done; [|constructor].
    unfold coherent. change (capturing (set_mode Prompt s)) with (capturing s). rewrite Hcap. done. }
  destruct (str_strip_prefix _ _) as [p|] eqn:Hp.
  { apply zlen_strip_prefix in Hp. apply line_then_mode; try done. eapply one_step_prompt; [done|lia]. }
  destruct (bool_decide (_ = bstr "log")).
  { apply wp_bind. eapply wp_mono; [by apply co_capture| |done]. intros _ s1 (Hb1 & Hm1 & Hc1 & Hmd1).
    apply wp_bind. eapply wp_mono; [by apply co_bottom| |done]. intros n s2 (Hb2 & [Hm2 Hu2] & Hn).
    apply wp_bind. eapply wp_mono; [by apply co_render| |done]. intros n' s3 (Hb3 & [Hm3 Hu3] & Hn').
    apply wp_bind, wp_modify, wp_modify. destruct Hb3 as (? & ? & ? & ?).
    split_and!; try done.
    - assert (capturing s3 = false) as Hc3 by (unfold ui_of in *; congruence). by unfold coherent.
    - change (mem_step amax false (mem_of s) (mem_of s3)). rewrite Hm3, Hm2, Hm1. constructor. }
  destruct (bool_decide (_ = bstr "exit")); [apply line_then_mode; [apply one_step_flush|done..]|].
  destruct (bool_decide (_ = bstr "reboot")); [apply line_one_step; [apply one_step_reboot|done..]|].
  eapply Hcon, co_println. rewrite zlen_app. change (zlen (bstr "ram: ")) with 5.
  unfold RAM_SHELL_LINE_LEN in Hlen. ulia.
Qed.

Lemma wp_run_prompt command s :
  base_inv s -> sh_mode s = Prompt -> capturing s = true -> zlen command <= RAM_SHELL_LINE_LEN ->
  wp (run_prompt decode n_threads command)
    (fun _ s' => line_post false s s') (fun _ s' => reboot_post s s') s.
Proof.
  intros Hs Hmode Hcap Hlen. pose proof (zlen_str_trim command) as Ht.
  assert (coherent s) as Hco by (unfold coherent; rewrite Hmode, Hcap; done).
  unfold run_prompt.
  destruct (bool_decide (_ = bstr "cancel")); [apply line_one_step; [by eapply one_step_console, co_println|done..]|].
  destruct (bool_decide (_ = bstr "exit")); [apply line_then_mode; [apply one_step_flush|done..]|].
  destruct (bool_decide (_ = bstr "reboot")); [apply line_one_step; [apply one_step_reboot|done..]|].
  destruct (bool_decide (_ = bstr "erase memory")); [apply line_one_step; [apply one_step_erase|done..]|].
  destruct (forget_phrase _) as [p|] eqn:Hf.
  { apply zlen_forget_phrase in Hf. apply line_one_step; [|done|done]. eapply one_step_forget; [done|lia]. }
  destruct (bool_decide (_ = bstr "clear")); [apply line_one_step; [by eapply one_step_console, co_blank_lines|done..]|].
  apply line_one_step; [|done|done].
  eapply one_step_before; [eapply one_step_prompt; [done|lia]|intros; by apply (co_ret _ (fun _ => True))].
Qed.

Lemma wp_run_log_command command s :
  base_inv s -> sh_mode s = Log -> capturing s = false ->
  wp (run_log_command command) (fun _ s' => line_post false s s') (fun _ _ => False) s.
Proof.
  intros Hs Hmode Hcap. apply wp_bind. eapply wp_mono; [by apply co_log_command| |done].
  intros stay s1 (Hb & [Hm Hu] & _). destruct stay.
  - apply wp_ret. split_and!; [done| |rewrite Hm; constructor].
    eapply coherent_ui; [|done]. unfold coherent. by rewrite Hmode, Hcap.
  - apply wp_bind. eapply wp_mono; [by apply co_capture| |done]. intros _ s2 (Hb2 & Hm2 & Hc2 & _).
    apply wp_modify. split_and!; try done.
    + unfold coherent. change (capturing _) with (capturing s2). by rewrite Hc2.
    + change (mem_step amax false (mem_of s) (mem_of s2)). rewrite Hm2, Hm. constructor.
Qed.

(** Whether a read ends the line, and what it may do to the memory. *)
Definition ends_line (r : stdin_read) : bool :=
  match r with ReadByte b => (bz b =? 13) || (bz b =? 10) | _ => false end.

Definition read_effect (r : stdin_read) s (m' : memory (D := D)) : Prop :=
  if ends_line r then mem_step amax (bool_decide (str_trim (sh_line s) = bstr "reset")) (mem_of s) m'
  else m' = mem_of s.

(** The line editor alone: the line after a read, and the lines submitted. *)
Definition edit_line (l : bytes) (r : stdin_read) : bytes :=
  match r with
  | ReadByte b =>
      if (bz b =? 3) || (bz b =? 13) || (bz b =? 10) then []
      else if (bz b =? 8) || (bz b =? 127) then ztake (zlen l - 1) l
      else if (32 <=? bz b) && (bz b <=? 126) && (zlen l <? 255) then l ++ [b]
      else l
  | _ => l
  end.

Fixpoint submitted (l : bytes) (reads : list stdin_read) : list bytes :=
  match reads with
  | [] => []
  | r :: reads =>
      (if ends_line r then [l] else []) ++ submitted (edit_line l r) reads
  end.

Lemma mem_step_reset b m m' : mem_step (D := D) amax false m m' -> mem_step amax b m m'.
Proof.
  intros [m0|a h d e He|m0 m1 Hf|a h d a' code Ha|]; [..|done];
    eauto using MsIdle, MsEvent, MsFlush, MsErase.
Qed.

Lemma wp_run_line s :
  shell_inv s ->
  let reset := bool_decide (str_trim (sh_line s) = bstr "reset") in
  wp (run_line decode n_threads)
    (fun _ s' => shell_inv s' /\ mem_step amax reset (mem_of s) (mem_of s') /\ sh_line s' = [])
    (fun _ s' => reboot_post s s') s.
Proof.
  intros (Hb & Hco & Hl & Hpr) reset. apply wp_bind.
  eapply wp_mono; [by apply co_write| |done]. intros _ s1 (Hb1 & [Hm1 Hu1] & _).
  assert (sh_line s1 = sh_line s /\ sh_mode s1 = sh_mode s /\ capturing s1 = capturing s) as (El & Em & Ec)
    by (unfold ui_of in Hu1; split_and!; congruence).
  apply wp_bind, wp_gets, wp_bind, wp_gets, wp_bind.
  assert (wp match sh_mode s1 with
             | Command => run_command decode n_threads (sh_line s1)
             | Prompt => run_prompt decode n_threads (sh_line s1)
             | Log => run_log_command (sh_line s1)
             end (fun _ s' => line_post reset s1 s') (fun _ s' => reboot_post s1 s') s1) as Hrun.
  { unfold coherent in Hco. rewrite <- Em, <- Ec in Hco. unfold RAM_SHELL_LINE_LEN in *.
    destruct (sh_mode s1) eqn:Hm.
    - unfold reset. rewrite <- El. apply wp_run_command; try done.
      + destruct (capturing s1); [done|]. by destruct Hco as [Hx _]; specialize (Hx eq_refl).
      + rewrite El. unfold RAM_SHELL_LINE_LEN. lia.
    - eapply wp_mono; [apply wp_run_prompt; try done|..].
      + destruct (capturing s1); [done|]. by destruct Hco as [Hx _]; specialize (Hx eq_refl).
      + rewrite El. unfold RAM_SHELL_LINE_LEN. lia.
      + intros _ s' (? & ? & ?). split_and!; auto using mem_step_reset.
      + done.
    - eapply wp_mono; [apply wp_run_log_command; try done; by apply Hco| |done].
      intros _ s' (? & ? & ?). split_and!; auto using mem_step_reset. }
  unfold line_post, reboot_post in Hrun. rewrite Hm1 in Hrun.
  eapply wp_mono; [exact Hrun| |done]. intros _ s2 (Hb2 & Hco2 & Hm2).
  apply wp_bind, wp_modify, wp_bind, wp_gets.
  eapply wp_mono; [apply co_write| |done].
  { destruct (sh_mode (set_line [] s2)); by vm_compute. }
  { destruct Hb2 as (? & ? & ? & ?). done. }
  intros _ s3 (Hb3 & [Hm3 Hu3] & _).
  assert (sh_line s3 = []) as El3 by (unfold ui_of in Hu3; cbn in Hu3; congruence).
  split; [|by rewrite Hm3]. split_and!; [done|by eapply coherent_ui; [|exact Hu3]|].
  rewrite El3. split; [done|constructor].
Qed.

Lemma line_ok_take l n : line_ok l -> line_ok (ztake n l).
Proof.
  intros [Hl Hp]. split; [rewrite zlen_ztake; pose proof (zlen_nonneg l); lia|]. by apply Forall_take.
Qed.

(** One turn of the loop keeps the invariant and changes the memory only on a
    line end. *)
Lemma wp_shell_step r s :
  shell_inv s ->
  wp (shell_step decode n_threads r)
    (fun _ s' => shell_inv s' /\ read_effect r s (mem_of s') /\ sh_line s' = edit_line (sh_line s) r)
    (fun _ s' => base_inv s' /\ mem_flush (mem_of s) (mem_of s') /\ ends_line r = true) s.
Proof.
  intros Hs. pose proof Hs as (Hb & Hco & Hl).
  destruct r as [b| |]; cbn [shell_step]; [|by apply wp_ret..].
  unfold read_effect, ends_line. cbn [edit_line].
  destruct (bz b =? 3) eqn:E3; bool_to_prop.
  { rewrite E3. cbn [Z.eqb orb]. apply wp_bind. eapply wp_mono; [by apply co_write| |done].
    intros _ s1 (Hb1 & [Hm1 Hu1] & _).
    apply wp_bind, wp_modify, wp_bind, wp_gets, wp_bind.
    assert (base_inv (set_line [] s1)) as Hb1' by (destruct Hb1 as (? & ? & ? & ?); done).
    assert (coherent s1) as Hco1 by (by eapply coherent_ui).
    eapply (wp_mono _ (fun _ s2 => base_inv s2 /\ mem_of s2 = mem_of s1 /\ capturing s2 = true /\ sh_line s2 = [])
      _ (fun _ _ => False)); [| |done].
    { cbn [sh_mode set_line]. destruct (bool_decide (sh_mode s1 = Log)) eqn:Em; bool_to_prop.
      - apply wp_modify. destruct Hb1 as (? & ? & ? & ?). done.
      - apply wp_ret. split_and!; try done. change (capturing _) with (capturing s1).
        destruct (capturing s1) eqn:Ec; [done|]. by destruct Em; apply Hco1. }
    intros _ s2 (Hb2 & Hm2 & Hc2 & Hl2). apply wp_bind, wp_modify.
    eapply wp_mono; [apply co_write; [done|]| |done]. { destruct Hb2 as (? & ? & ? & ?). done. }
    intros _ s3 (Hb3 & [Hm3 Hu3] & _). change (mem_of (set_mode Command s2)) with (mem_of s2) in Hm3.
    assert (sh_line s3 = []) as El3 by (unfold ui_of in Hu3; cbn in Hu3; congruence).
    split; [|split; [congruence|done]]. split_and!; [done| |rewrite El3; split; [done|constructor]].
    eapply coherent_ui; [|exact Hu3]. unfold coherent. change (capturing _) with (capturing s2). by rewrite Hc2. }
  cbn [orb]. destruct ((bz b =? 13) || (bz b =? 10)) eqn:Ee.
  { eapply wp_mono; [by apply wp_run_line|done|]. by intros _ s' [? ?]. }
  assert (forall l out, line_ok l -> zlen out <= U64_MAX ->
    wp (let! _ := smodify (set_line l) in console_write out)
      (fun _ s' => shell_inv s' /\ mem_of s' = mem_of s /\ sh_line s' = l)
      (fun _ s' => base_inv s' /\ mem_flush (mem_of s) (mem_of s') /\ false = true) s) as Hset.
  { intros l out Hlo Hout. apply wp_bind, wp_modify. eapply wp_mono; [apply co_write; [done|]| |done].
    { destruct Hb as (? & ? & ? & ?). done. }
    intros _ s' (Hb' & [Hm' Hu'] & _).
    assert (sh_line s' = l) as El by (unfold ui_of in Hu'; cbn in Hu'; congruence).
    split; [|done]. split_and!; [done| |by rewrite El]. by eapply coherent_ui; [|exact Hu']. }
  destruct ((bz b =? 8) || (bz b =? 127)).
  { apply wp_bind, wp_gets. destruct (0 <? _) eqn:E0; bool_to_prop.
    - apply Hset; [by apply line_ok_take|done].
    - apply wp_ret. split_and!; try done. destruct (sh_line s); [done|]. rewrite zlen_cons in E0.
      match type of E0 with context [zlen ?l] => pose proof (zlen_nonneg l) end. lia. }
  destruct ((32 <=? bz b) && (bz b <=? 126)) eqn:Ep; [|by apply wp_ret]. cbn [andb]. bool_to_prop.
  apply wp_bind, wp_gets. unfold RAM_SHELL_LINE_LEN. replace (zlen (sh_line s) + 1 <? 256) with (zlen (sh_line s) <? 255) by lia.
  destruct (_ <? _) eqn:Er; [|by apply wp_ret]. bool_to_prop.
  apply Hset; [|done]. destruct Hl as [Hl Hp]. split.
  - rewrite zlen_app. change (zlen [b]) with 1. unfold RAM_SHELL_LINE_LEN. lia.
  - apply Forall_app. split; [done|]. by constructor.
Qed.

(** Any sequence of reads. *)
Lemma wp_shell_loop reads s :
  shell_inv s ->
  wp (shell_loop decode n_threads reads) (fun _ s' => shell_inv s') (fun _ s' => base_inv s') s.
Proof.
  revert s. induction reads as [|r reads IH]; intros s Hs; cbn [shell_loop]; [by apply wp_ret|].
  apply wp_bind. eapply wp_mono; [by apply wp_shell_step|..].
  - intros _ s' (? & _). by apply IH.
  - by intros _ s' (? & _).
Qed.

(** ** Start-up *)

Lemma sys_read_answers n (a : Ahci D) : exists a' r, sys_read_memory_db false n a = (a', Ok r).
Proof.
  unfold sys_read_memory_db. destruct (n =? 0); [by eexists _, _|]. unfold sbind, scatch.
  destruct (wp_run _ _ _ _ (returns_read_db (D := D) false n a)) as [(a' & [b m] & -> & _)|(a' & [] & -> & _)];
    by eexists _, _.
Qed.

(** Loading the history from whatever the disk holds. *)
Lemma wp_load s :
  base_inv s ->
  wp bitapp_load_memory_db_history (fun _ s' => base_inv s' /\ ui_of s' = ui_of s) (fun _ _ => False) s.
Proof.
  intros Hs. pose proof Hs as (Hl & Hd & Hk & Ho). unfold bitapp_load_memory_db_history.
  destruct (sys_read_answers RAM_SHELL_HISTORY_CAP_BYTES (sh_ahci s)) as (a' & [b ret] & Ha).
  apply wp_bind. Transparent wp. unfold wp at 1, syscall. rewrite Ha. Opaque wp.
  assert (base_inv (set_ahci a' s)) as Hs' by done.
  destruct (ret <? 0) eqn:E; [by apply wp_ret|]. destruct (ret =? 0); [by apply wp_ret|]. bool_to_prop.
  apply wp_bind, wp_gets, wp_bind.
  set (buf := splice _ 0 b). assert (RAM_SHELL_HISTORY_CAP_BYTES <= zlen buf) as Hbuf.
  { unfold buf, splice. rewrite !zlen_app, (ztake_0 0) by lia.
    rewrite zlen_zdrop, zlen_zeros; [|done|pose proof (zlen_nonneg b); lia].
    change (zlen (@nil byte)) with 0. pose proof (zlen_nonneg b). lia. }
  eapply wp_lift_ok; [apply get_slice_ok; [|lia]|].
  { change RAM_SHELL_HISTORY_CAP_BYTES with 65536. lia. }
  set (rec := slice _ _ _). assert (zlen rec < U64_MAX) as Hrec.
  { unfold rec, slice. change RAM_SHELL_HISTORY_CAP_BYTES with 65536 in *. rewrite zlen_ztake.
    pose proof (zlen_nonneg (zdrop 0 buf)). ulia. }
  destruct (structured_loop_total (length rec) rec 0 (sh_history (set_ahci a' s))) as [h Hp];
    [done|pose proof (zlen_nonneg rec); lia|unfold zlen; lia|].
  unfold parse_structured_qa_records. rewrite Hp. apply wp_modify. split; [|done]. split_and!; try done.
  destruct (shrink_records_suffix h 0) as [dr Hdr].
  assert (NoDup (keys h)) as Hkh.
  { eapply (parse_preserves (fun h => NoDup (keys h)) upsert_keys_nodup forget_keys_nodup rec); [exact Hk|exact Hp]. }
  cbn. rewrite Hdr in Hkh. by eapply sublist_suffix_keys.
Qed.
End interpreter.

Section boot.
Context {D : Type} `{BlockDevSpec D}.
Context (amax : Z) (decode : Z -> bytes -> Z -> Z -> Z -> Z -> Decoded) (n_threads : Z) (clock : Z -> Z).
Context (Hdec : DecoderOk decode amax).

Lemma co_timer : console_only (D := D) (bitapp_timer_us clock) (fun _ => True).
Proof. intros s Hs. Transparent wp. by unfold wp, bitapp_timer_us. Opaque wp. Qed.

Lemma co_boot_event e :
  zlen e <= 100 -> console_only (D := D) (bitapp_log_boot_event clock e) (fun _ => True).
Proof.
  intros He. eapply co_bind; [apply co_timer|]. intros now _.
  eapply co_bind; [apply co_println; text_len|]. intros _ _. by apply co_ret.
Qed.

Lemma co_boot_delta e t :
  zlen e <= 100 -> console_only (D := D) (bitapp_log_boot_delta clock e t) (fun _ => True).
Proof.
  intros He. eapply co_bind; [apply co_timer|]. intros now _.
  eapply co_bind; [apply co_println; text_len|]. intros _ _. by apply co_ret.
Qed.

Lemma co_warm : console_only (D := D) (bitapp_warm_bitnet_runtime decode n_threads) (fun _ => True).
Proof.
  unfold bitapp_warm_bitnet_runtime, hermit_bitnet_prompt_decode_from_buffer.
  eapply (co_bind _ _ (fun _ => True)); [|by intros; apply co_ret].
  eapply (co_bind _ _ (fun _ => True)); [by apply co_gets|]. intros calls _.
  eapply co_bind; [by apply co_modify|]. intros _ _.
  eapply co_bind; [apply co_write|by intros; apply co_ret].
  match goal with |- context [decode ?a ?b ?c ?d ?e ?f] => pose proof (dec_printed _ _ Hdec a b c d e f) end.
  unfold ISIZE_MAX in *. ulia.
Qed.

(** Console output before a computation. *)
Lemma wp_console {A B} (c : SM D A) (k : A -> SM D B) P (R : Shell D -> Prop) Q X s :
  console_only c P -> base_inv s -> R s -> (forall s', R s -> same s s' -> R s') ->
  (forall a s', base_inv s' -> R s' -> wp (k a) Q X s') -> wp (sbind c k) Q X s.
Proof.
  intros Hc Hs HR Hmono Hk. apply wp_bind. eapply wp_mono; [by apply Hc| |done].
  intros a s' (? & ? & _). eauto.
Qed.

Lemma wp_run_app model_ptr model_len reads (s : Shell D) :
  base_inv s -> capturing s = true ->
  wp (run decode n_threads clock model_ptr model_len reads)
    (fun _ s' => shell_inv s') (fun _ s' => base_inv s') s.
Proof.
  intros Hs Hcap. unfold run.
  assert (forall A B (c : SM D A) (k : A -> SM D B) P Q X s,
    console_only c P -> base_inv s -> capturing s = true ->
    (forall a s', base_inv s' -> capturing s' = true -> wp (k a) Q X s') -> wp (sbind c k) Q X s) as Hseq.
  { intros A B c k P Q X s0 Hc Hs0 Hcap0 Hk. eapply (wp_console c k P (fun s => capturing s = true)); try done.
    intros s' Hc' [_ Hu]. unfold ui_of in Hu. congruence. }
  eapply Hseq; [by apply co_boot_event|done|done|]. intros t1 s1 Hs1 Hc1.
  eapply Hseq; [by apply co_println|done|done|]. intros _ s2 Hs2 Hc2.
  eapply Hseq; [by apply co_boot_delta|done|done|]. intros t3 s3 Hs3 Hc3.
  eapply Hseq; [apply co_println; text_len|done|done|]. intros _ s4 Hs4 Hc4.
  apply wp_bind, wp_modify, wp_bind.
  eapply wp_mono; [apply wp_load| |done].
  { destruct Hs4 as (? & ? & ? & ?). split_and!; try done. constructor. }
  intros _ s5 (Hs5 & Hu5). assert (capturing s5 = true) as Hc5 by (rewrite (capturing_ui _ _ Hu5); exact Hc4).
  eapply Hseq; [by apply co_boot_delta|done|done|]. intros t6 s6 Hs6 Hc6.
  eapply Hseq; [apply co_warm|done|done|]. intros ret s7 Hs7 Hc7.
  eapply Hseq; [by apply co_boot_delta|done|done|]. intros t8 s8 Hs8 Hc8.
  eapply Hseq; [apply co_println; text_len|done|done|]. intros _ s9 Hs9 Hc9.
  apply wp_bind, wp_modify, wp_bind. set (s10 := set_log_offset 0 _).
  assert (base_inv s10) as Hs10 by (destruct Hs9 as (? & ? & ? & ?); by split_and!).
  eapply wp_mono; [by apply co_write| |done]. intros _ s11 (Hs11 & [_ Hu11] & _).
  eapply wp_shell_loop; [done|]. split_and!; [done| |].
  - eapply coherent_ui; [|exact Hu11]. unfold coherent. change (capturing s10) with (capturing s9). by rewrite Hc9.
  - assert (sh_line s11 = []) as -> by (unfold ui_of in Hu11; cbn in Hu11; congruence). split; [done|constructor].
Qed.
End boot.

(** C9: the application never panics.  Started on any disk contents, with any
    device failures, any decoder that respects its buffer and any console input,
    [run] loads the history and serves the input without an out-of-range index
    or a failed loop; it stops only by rebooting.  At every point in between the
    line buffer holds at most 255 printable bytes, the console captures output
    exactly when the log viewer is closed, the session buffer is within 64 KiB
    and no two records share a memory key. *)
Theorem run_safe {D} `{BlockDevSpec D} amax decode n_threads clock model_ptr model_len reads (s : Shell D) :
  DecoderOk decode amax -> base_inv s -> capturing s = true ->
  exists s', (run decode n_threads clock model_ptr model_len reads s = (s', Ok tt) /\ shell_inv s') \/
    (run decode n_threads clock model_ptr model_len reads s = (s', Err rebooted) /\ base_inv s').
Proof.
  intros Hdec Hs Hc.
  destruct (wp_run _ _ _ _ (wp_run_app amax decode n_threads clock Hdec model_ptr model_len reads s Hs Hc))
    as [(s' & [] & Hr & ?)|(s' & [] & Hr & ?)]; exists s'; [left|right]; done.
Qed.

(** A decoder that answers every prompt with the same short text. *)
Module ShellDemo.
Definition decode (calls : Z) (p : bytes) (np nt nx ol : Z) : Decoded :=
  mkDecoded 0 (ztake ol (bstr "Answer: ok" ++ zeros ol)) [] [].

Lemma decode_text_len ol : c_string_len (ztake ol (bstr "Answer: ok" ++ zeros ol)) <= 10.
Proof.
  destruct (decide (ol <= 10)) as [Hs|Hb].
  - etransitivity; [apply c_string_len_bound|]. rewrite zlen_ztake. lia.
  - unfold c_string_len. rewrite ztake_app_ge by (change (zlen (bstr "Answer: ok")) with 10; lia).
    change (zlen (bstr "Answer: ok")) with 10.
    assert (exists t, ztake (ol - 10) (zeros ol) = Byte.x00 :: t) as [t ->].
    { unfold zeros, ztake. destruct (Z.to_nat ol) eqn:E; [lia|].
      destruct (Z.to_nat (ol - 10)) eqn:E'; [lia|]. by eexists. }
    rewrite find_byte_first by (apply (bool_decide_unpack _); by vm_compute). done.
Qed.

Lemma decode_ok : DecoderOk decode 10.
Proof.
  split; [|done| |done].
  - intros calls p np nt nx ol Hol. cbn [decode d_output].
    rewrite zlen_ztake, zlen_app, zlen_zeros by done. change (zlen (bstr "Answer: ok")) with 10. lia.
  - intros. apply decode_text_len.
Qed.

Definition start : Shell MemDisk :=
  mkShell (Demo.state None 0) (new CONSOLE_LOG_CAPACITY) [] 0 0 [] [] [] Command 0.

Lemma start_inv : base_inv start.
Proof.
  split; [|by split_and!; [done|constructor|done]].
  unfold log_wf. cbn [start sh_log new cl_buffer cl_start cl_len].
  split; [apply zlen_zeros; unfold CONSOLE_LOG_CAPACITY; lia|unfold CONSOLE_LOG_CAPACITY; lia].
Qed.

(** What typing a text sends. *)
Definition typed (text : string) : list stdin_read := ReadByte <$> (bstr text ++ [NL]).
End ShellDemo.

Lemma run_safe_witness :
  exists s', (run ShellDemo.decode 1 (fun n => n) 4096 100 (ShellDemo.typed "prompt hi") ShellDemo.start
              = (s', Ok tt) /\ shell_inv s') \/
    (run ShellDemo.decode 1 (fun n => n) 4096 100 (ShellDemo.typed "prompt hi") ShellDemo.start
              = (s', Err rebooted) /\ base_inv s').
Proof. apply (run_safe 10); [apply ShellDemo.decode_ok|apply ShellDemo.start_inv|done]. Defined.
