(* ===== verification/ShellPersist.v ===== *)
(** * The RAM shell: the history survives a reboot

    The abstract picture of the shell's memory: the disk holds the serialized
    entries of earlier sessions, the session buffer those of this one, and the
    live history is their replay.  Every line keeps that picture ([in_step]); so a
    flush, a reboot and a reload bring back the live history. *)

From S2P Require Import Prelude BlockDevice AhciIo MemoryDb MemoryDbSpec MemoryDbTheorems AppText History HistorySpec HistoryTheorems ConsoleLog Syscalls MemoryDbSafety Shell ShellSpec ShellTheorems.

(** Sectors of the largest session buffer. *)
Definition FLUSH_SECTORS : Z := 128.

Section persist.
Context {D : Type} `{BlockDevSpec D}.
Context (amax : Z) (Hamax : 0 <= amax).

(** The disk holds the entries [ss], the buffer the entries [pend], the history
    is the replay of both, and there is room for [k] more lines and [f] more
    flushes. *)
Definition in_step (db k f : Z) (m : memory (D := D)) : Prop :=
  let '(a, h, d) := m in
  exists log ss pend,
    db_online a db /\ db_holds a db log /\ concat log = stream ss /\
    h = foldl replay [] ((snd <$> ss) ++ pend) /\ d = delta_of pend /\
    plen h + k * line_cost amax <= RAM_SHELL_HISTORY_CAP_BYTES /\
    zlen (concat log) + zlen d + k * line_cost amax <= RAM_SHELL_HISTORY_CAP_BYTES /\
    zlen log + f <= MEMORY_DB_MAP_MAX_ENTRIES /\
    1 + MEMORY_DB_MAP_SECTORS + log_sectors log + f * FLUSH_SECTORS <= MEMORY_DB_TOTAL_SECTORS.

(** The disk alone brings the history [h] back: the log is inside the region,
    short enough to be loaded at once, and parses to [h]. *)
Definition stored (db : Z) (a : Ahci D) (h : list QaRecord) : Prop :=
  exists log, db_online a db /\ db_holds a db log /\ log_inside log /\
    zlen (concat log) <= RAM_SHELL_HISTORY_CAP_BYTES /\ plen h <= RAM_SHELL_HISTORY_CAP_BYTES /\
    parse_structured_qa_records (concat log) [] = Ok h.

Lemma line_cost_pos : 0 <= line_cost amax.
Proof. unfold line_cost, RAM_SHELL_LINE_LEN. lia. Qed.

Lemma in_step_mono db k f k' f' m :
  in_step db k f m -> k' <= k -> f' <= f -> in_step db k' f' m.
Proof.
  destruct m as [[a h] d]. intros (log & ss & pend & ? & ? & ? & ? & ? & ? & ? & ? & ?) Hk Hf.
  pose proof line_cost_pos. exists log, ss, pend. unfold FLUSH_SECTORS in *. split_and!; try done; nia.
Qed.

Lemma delta_stream es : exists fs, delta_of es = stream fs /\ snd <$> fs = es.
Proof.
  destruct es as [|e es]; [by exists []|].
  exists ((false, e) :: ((fun e => (true, e)) <$> es)). split; [done|].
  cbn [fmap list_fmap snd]. f_equal. rewrite <- list_fmap_compose. by apply list_fmap_id.
Qed.

Lemma entry_sectors_cap p : zlen p <= RAM_SHELL_HISTORY_CAP_BYTES -> entry_sectors p <= FLUSH_SECTORS.
Proof.
  intros Hp. destruct (entry_sectors_spec p) as [Hs _]. change RAM_SHELL_HISTORY_CAP_BYTES with 65536 in Hp.
  unfold FLUSH_SECTORS. lia.
Qed.

Lemma sys_append_runs (a : Ahci D) db log p :
  db_online a db -> db_holds a db log -> fits log p ->
  exists a', sys_append_memory_db (Some p) a = (a', Ok (to_i32 (zlen p))) /\
    db_online a' db /\ db_holds a' db (log ++ [p]).
Proof.
  intros Hon Hh Hf. pose proof Hf as (_ & Hp & _).
  destruct (append_runs a db log p) as (a' & Hrun & ? & ? & _); [done|done|apply Hp|by apply (fits_room a db)|].
  exists a'. split; [|done]. unfold sys_append_memory_db.
  by rewrite (sbind_ok _ _ a a' (inl (zlen p))) by (by apply scatch_ok).
Qed.

Lemma to_i32_nonneg n : 0 <= n -> 0 <= to_i32 n.
Proof. unfold to_i32, I32_MAX. split_if; lia. Qed.

(** Flushing moves the pending entries to the disk. *)
Lemma flush_in_step db k f (a : Ahci D) h d :
  in_step db k f (a, h, d) -> 0 <= k -> 0 < f -> 0 < zlen d ->
  exists a' code, sys_append_memory_db (Some d) a = (a', Ok code) /\ 0 <= code /\
    in_step db k (f - 1) (a', h, []).
Proof.
  intros (log & ss & pend & Hon & Hh & Hc & Hhist & Hd & Hp & Hz & Hl & Hs) Hk Hf Hd0.
  pose proof line_cost_pos. pose proof (zlen_nonneg (concat log)).
  assert (entry_sectors d <= FLUSH_SECTORS) as Hes by (apply entry_sectors_cap; nia).
  assert (fits log d) as Hfit.
  { change RAM_SHELL_HISTORY_CAP_BYTES with 65536 in *. unfold fits, payload_ok, FLUSH_SECTORS in *.
    split_and!; [lia|done|unfold U32_MAX; nia|]. nia. }
  destruct (sys_append_runs a db log d Hon Hh Hfit) as (a' & Hrun & Hon' & Hh').
  destruct (delta_stream pend) as (fs & Hfs & Hsnd).
  exists a', (to_i32 (zlen d)). split_and!; [done|apply to_i32_nonneg; lia|].
  exists (log ++ [d]), (ss ++ fs), [].
  rewrite fmap_app, Hsnd, app_nil_r, concat_app, stream_app, zlen_app, log_sectors_app.
  cbn [concat]. rewrite app_nil_r, zlen_app. change (zlen [d]) with 1. cbn [log_sectors foldr].
  change (zlen (delta_of [])) with 0. change (zlen (@nil byte)) with 0.
  split_and!; try done; [by rewrite Hc, Hd, Hfs|lia|lia|unfold FLUSH_SECTORS in *; nia].
Qed.

Lemma delta_of_nil es : zlen (delta_of es) = 0 -> es = [].
Proof.
  destruct es as [|e es]; [done|]. cbn [delta_of stream sep_of app]. unfold entry_bytes.
  rewrite !zlen_app. pose proof (entry_core_pos e).
  pose proof (zlen_nonneg (stream ((fun e => (true, e)) <$> es))). change (zlen [NL]) with 1. lia.
Qed.

(** With nothing pending, the disk holds the whole history. *)
Lemma in_step_stored db k f (a : Ahci D) h d :
  in_step db k f (a, h, d) -> 0 <= k -> 0 <= f -> zlen d = 0 -> stored db a h.
Proof.
  intros (log & ss & pend & Hon & Hh & Hc & Hhist & Hd & Hp & Hz & Hl & Hs) Hk Hf Hd0.
  rewrite Hd in Hd0. apply delta_of_nil in Hd0 as ->. rewrite app_nil_r in Hhist.
  pose proof line_cost_pos. pose proof (zlen_nonneg d).
  exists log. split_and!; [done|done|unfold log_inside, FLUSH_SECTORS in *; lia|nia|nia|].
  rewrite Hc, Hhist. rewrite <- (ztake_all (zlen (stream ss)) (stream ss)) at 1 by done.
  unfold parse_structured_qa_records. rewrite (parse_stream_loop ss [] (zlen (stream ss)) []).
  - by rewrite whole_all by done.
  - rewrite Hc in Hz. cbn [app]. change RAM_SHELL_HISTORY_CAP_BYTES with 65536 in *. unfold U64_MAX. nia.
  - rewrite ztake_all by done. unfold zlen. lia.
Qed.

Lemma sys_erase_runs (a : Ahci D) db log :
  db_online a db -> db_holds a db log ->
  exists a', sys_erase_memory_db a = (a', Ok 0) /\ db_online a' db /\ db_holds a' db [].
Proof.
  intros Hon Hh. destruct (erase_runs a db log Hon Hh) as (a' & Hrun & ? & ? & _).
  exists a'. split; [|done]. unfold sys_erase_memory_db.
  by rewrite (sbind_ok _ _ a a' (inl tt)) by (by apply scatch_ok).
Qed.

Lemma mem_flush_in_step db k f m m' :
  in_step db k f m -> 0 <= k -> 1 <= f -> mem_flush m m' ->
  in_step db k (f - 1) m' /\ stored db (fst (fst m')) (snd (fst m')) /\ snd (fst m') = snd (fst m).
Proof.
  intros Hin Hk Hf Hfl. inversion Hfl as [a h d Hd|a h d a' code Hd Ha]; subst; cbn [fst snd].
  - split; [eapply in_step_mono; [done|lia|lia]|]. split; [|done].
    by eapply (in_step_stored db k f); [| |lia|].
  - destruct (flush_in_step db k f a h d) as (a1 & c1 & Ha1 & Hc1 & Hin1); [done|lia|lia|done|].
    rewrite Ha in Ha1. simplify_eq. guard_false (c1 <? 0). split; [done|]. split; [|done].
    eapply (in_step_stored db k (f - 1)); [done|lia|lia|done].
Qed.

(** Every line but "reset" keeps the picture. *)
Lemma mem_step_in_step db k f m m' :
  in_step db k f m -> 1 <= k -> 1 <= f -> mem_step amax false m m' -> in_step db (k - 1) (f - 1) m'.
Proof.
  intros Hin Hk Hf Hstep. pose proof line_cost_pos.
  inversion Hstep as [m0|a h d e He|m0 m1 Hfl|a h d a' code Ha|]; subst; [..|done].
  - eapply in_step_mono; [done|lia|lia].
  - destruct Hin as (log & ss & pend & Hon & Hh & Hc & Hhist & Hd & Hp & Hz & Hl & Hs).
    destruct (session_step h pend e) as (Hrun & Hp' & Hz').
    { nia. } { rewrite <- Hd. pose proof (zlen_nonneg (concat log)). nia. }
    rewrite Hd, Hrun. cbn [fst snd]. exists log, ss, (pend ++ event_entries e).
    split_and!; try done; [|rewrite <- Hd in Hz'; nia..|unfold FLUSH_SECTORS in *; lia].
    rewrite (app_assoc (snd <$> ss)), foldl_app. by rewrite <- Hhist.
  - destruct (mem_flush_in_step db k f m m' Hin) as (Hin' & _); [lia|lia|done|].
    eapply in_step_mono; [exact Hin'|lia|lia].
  - destruct Hin as (log & ss & pend & Hon & Hh & Hc & Hhist & Hd & Hp & Hz & Hl & Hs).
    destruct (sys_erase_runs a db log Hon Hh) as (a1 & Ha1 & Hon1 & Hh1).
    rewrite Ha in Ha1. simplify_eq. pose proof (plen_nonneg (foldl replay [] ((snd <$> ss) ++ pend))).
    pose proof (zlen_nonneg (delta_of pend)). pose proof (zlen_nonneg (concat log)).
    pose proof (zlen_nonneg log). pose proof (log_sectors_nonneg log).
    exists [], [], []. unfold FLUSH_SECTORS in *. change (plen []) with 0.
    change (zlen (concat (@nil bytes))) with 0. change (zlen (@nil bytes)) with 0.
    change (zlen (@nil byte)) with 0. change (log_sectors []) with 0.
    split_and!; try done; nia.
Qed.
End persist.

Section sessions.
Context {D : Type} `{BlockDevSpec D}.
Context (amax : Z) (decode : Z -> bytes -> Z -> Z -> Z -> Z -> Decoded) (n_threads : Z).
Context (Hdec : DecoderOk decode amax).

Let Hamax : 0 <= amax.
Proof. destruct (dec_max _ _ Hdec). lia. Qed.

(** Typing lines, none of them "reset", keeps the picture up to the next flush. *)
Lemma wp_loop_in_step db f reads (s : Shell D) :
  let lines := submitted (sh_line s) reads in
  shell_inv s -> in_step amax db (zlen lines) f (mem_of s) -> zlen lines + 1 <= f ->
  Forall (fun l => str_trim l <> bstr "reset") lines ->
  wp (shell_loop decode n_threads reads)
    (fun _ s' => shell_inv s' /\ in_step amax db 0 1 (mem_of s'))
    (fun _ s' => base_inv s' /\ stored db (sh_ahci s') (sh_history s')) s.
Proof.
  revert f s. induction reads as [|r reads IH]; intros f s lines Hs Hin Hf Hl; cbn [shell_loop].
  { apply wp_ret. split; [done|]. by eapply in_step_mono. }
  apply wp_bind. eapply wp_mono; [by eapply wp_shell_step|..].
  - intros _ s' (Hs' & Heff & Hline). unfold lines in *. cbn [submitted] in *. rewrite <- Hline in *.
    unfold read_effect in Heff. pose proof (zlen_nonneg (submitted (sh_line s') reads)).
    destruct (ends_line r).
    + rewrite zlen_app in *. change (zlen [sh_line s]) with 1 in *. apply Forall_app in Hl as [Hr Hl].
      apply Forall_inv in Hr. cbn beta in Hr.
      rewrite bool_decide_false in Heff by exact Hr.
      apply (IH (f - 1)); [done| |lia|done].
      eapply in_step_mono; [exact Hamax|eapply mem_step_in_step; [exact Hamax|exact Hin|lia|lia|exact Heff]|lia|lia].
    + cbn [app] in *. apply (IH f); [done|by rewrite Heff|lia|done].
  - intros _ s' (Hb & Hfl & Her). split; [done|].
    unfold lines in *. cbn [submitted] in *. rewrite Her in *. rewrite zlen_app in *.
    change (zlen [sh_line s]) with 1 in *. pose proof (zlen_nonneg (submitted (edit_line (sh_line s) r) reads)).
    destruct (mem_flush_in_step amax Hamax db _ f _ _ Hin ltac:(lia) ltac:(lia) Hfl) as (_ & Hst & _). done.
Qed.

(** Loading: the first 64 KiB of the stored payloads are parsed. *)
Lemma load_runs db log (a : Ahci D) h (s : Shell D) :
  db_online a db -> db_holds a db log -> log_inside log ->
  parse_structured_qa_records (ztake RAM_SHELL_HISTORY_CAP_BYTES (concat log)) (sh_history s) = Ok h ->
  (concat log = [] -> shrink_records h 0 = h) ->
  exists s', bitapp_load_memory_db_history (set_ahci a s) = (s', Ok tt) /\
    sh_history s' = shrink_records h 0.
Proof.
  intros Hon Hh Hins Hparse Hnil.
  destruct (read_runs a db log RAM_SHELL_HISTORY_CAP_BYTES) as (a2 & Hread & _); [done|done|done| |].
  { unfold log_inside in Hins. destruct Hon as [(_ & _ & ?) _]. dblia. }
  set (b := ztake RAM_SHELL_HISTORY_CAP_BYTES (concat log)) in *.
  assert (zlen b <= 65536) as Hb.
  { unfold b. rewrite zlen_ztake. change RAM_SHELL_HISTORY_CAP_BYTES with 65536. lia. }
  pose proof (zlen_nonneg b).
  assert (sys_read_memory_db false RAM_SHELL_HISTORY_CAP_BYTES a = (a2, Ok (b, zlen b))) as Hsys.
  { unfold sys_read_memory_db. change (RAM_SHELL_HISTORY_CAP_BYTES =? 0) with false. cbv iota.
    rewrite (sbind_ok _ _ a a2 (inl (b, zlen b))) by (by apply scatch_ok).
    unfold sret, to_i32, I32_MAX. by guard_true (zlen b <=? 2147483647). }
  unfold bitapp_load_memory_db_history.
  rewrite (sbind_ok _ _ _ (set_ahci a2 s) (b, zlen b))
    by (unfold syscall; cbn [set_ahci sh_ahci]; by rewrite Hsys).
  cbv beta iota. guard_false (zlen b <? 0).
  destruct (zlen b =? 0) eqn:E; bool_to_prop.
  - exists (set_ahci a2 s). split; [done|].
    assert (concat log = []) as Hc.
    { destruct (concat log) as [|x l]; [done|]. exfalso. revert E. unfold b.
      change RAM_SHELL_HISTORY_CAP_BYTES with 65536. rewrite zlen_ztake, zlen_cons.
      pose proof (zlen_nonneg l). lia. }
    rewrite Hnil by done. cbn [set_ahci sh_history]. unfold b in Hparse. rewrite Hc in Hparse. by injection Hparse.
  - rewrite (sbind_ok _ _ _ (set_ahci a2 s) (sh_history s)) by done.
    rewrite (sbind_ok _ _ _ (set_ahci a2 s) b).
    + rewrite Hparse. by eexists.
    + change RAM_SHELL_HISTORY_CAP_BYTES with 65536. rewrite Z.min_l by done. unfold slift.
      rewrite get_slice_ok; [|lia|].
      * do 2 f_equal. unfold slice, splice. rewrite zdrop_0, (ztake_0 0), app_nil_l by lia.
        rewrite Z.sub_0_r, ztake_app_le by lia. by apply ztake_all.
      * rewrite zlen_splice; rewrite ?zlen_zeros; lia.
Qed.

(** Booting again and loading: the history is back. *)
Lemma stored_reloads db ms ml (a : Ahci D) h (s : Shell D) :
  stored db a h -> u64 ms -> u64 ml -> sh_history s = [] ->
  exists a', ensure_memory_db db ms ml (power_cycle a) = (a', Ok tt) /\
    exists s', bitapp_load_memory_db_history (set_ahci a' s) = (s', Ok tt) /\ sh_history s' = h.
Proof.
  intros (log & Hon & Hh & Hins & Hc & Hp & Hparse) Hms Hml Hs0. pose proof Hh as (hd & Hr & Hsy & _).
  destruct (reboot_keeps a db hd log ms ml) as (a' & Hrun & Hon' & Hh' & _); [done|done| |done|done|].
  { rewrite Hsy. unfold log_inside in Hins. dblia. }
  exists a'. split; [done|].
  assert (shrink_records h 0 = h) as Hid.
  { apply shrink_records_id. unfold fits_cap. change RAM_SHELL_HISTORY_CAP_BYTES with 65536 in *.
    rewrite history_payload_plen; unfold sat_add64; ulia. }
  destruct (load_runs db log a' h s) as (s' & Hload & Hhist); try done.
  { by rewrite ztake_all, Hs0 by done. }
  exists s'. by rewrite Hhist, Hid.
Qed.
End sessions.

(** C10: the history survives a reboot.  Start from a shell in step with its disk, on a
    working device, where the log has room inside the region a boot accepts and old and new
    records stay within the 64 KiB a reload reads, even if every line typed takes the most
    it can ([in_step]).  Type anything, in any mode, with any
    answers of the decoder, except the command "reset": the loop ends at the prompt or
    in a reboot; flushing what is pending (as "exit" and "reboot" do) succeeds; and the
    next boot finds the database again and reloads exactly the live history, records,
    replacements and "forget"s included. *)
Theorem history_survives_reboot {D} `{BlockDevSpec D} amax decode n_threads db ms ml reads
    (s fresh : Shell D) :
  let lines := submitted (sh_line s) reads in
  DecoderOk decode amax -> shell_inv s ->
  in_step amax db (zlen lines) (zlen lines + 1) (mem_of s) ->
  Forall (fun l => str_trim l <> bstr "reset") lines ->
  u64 ms -> u64 ml -> sh_history fresh = [] ->
  exists s1 r s2 a3 s4,
    shell_loop decode n_threads reads s = (s1, r) /\
    ((r = Ok tt /\ bitapp_flush_memory_db s1 = (s2, Ok tt) /\ sh_history s2 = sh_history s1) \/
     (r = Err rebooted /\ s2 = s1)) /\
    ensure_memory_db db ms ml (power_cycle (sh_ahci s2)) = (a3, Ok tt) /\
    bitapp_load_memory_db_history (set_ahci a3 fresh) = (s4, Ok tt) /\
    sh_history s4 = sh_history s1.
Proof.
  intros lines Hdec Hs Hin Hl Hms Hml Hf0.
  pose proof (wp_loop_in_step amax decode n_threads Hdec db (zlen lines + 1) reads s Hs Hin (Z.le_refl _) Hl) as Hwp.
  apply wp_run in Hwp as [(s1 & [] & Hrun & (Hb & _) & Hin1)|(s1 & [] & Hrun & _ & Hst)].
  - destruct (wp_run_ok _ _ _ (wp_flush s1 Hb)) as (s2 & [] & Hfl & _ & _ & Hmf).
    assert (0 <= amax) as Ha by (destruct (dec_max _ _ Hdec); lia).
    destruct (mem_flush_in_step amax Ha db 0 1 _ _ Hin1 ltac:(lia) ltac:(lia) Hmf) as (_ & Hst & Hh).
    destruct (stored_reloads db ms ml _ _ fresh Hst Hms Hml Hf0) as (a3 & He & s4 & Hld & H4).
    exists s1, (Ok tt), s2, a3, s4. split_and!; try done; [by left|]. rewrite H4. exact Hh.
  - destruct (stored_reloads db ms ml _ _ fresh Hst Hms Hml Hf0) as (a3 & He & s4 & Hld & H4).
    exists s1, (Err rebooted), s1, a3, s4. split_and!; try done. by right.
Qed.

(** A long log hides new sessions.  The shell loads 64 KiB from the start of the
    log, the oldest payloads; once that much is stored, a further payload, though
    persisted, does not change what any later boot loads. *)
Theorem load_ignores_late_payloads {D} `{BlockDevSpec D} db log p (a a' : Ahci D) (s : Shell D) :
  RAM_SHELL_HISTORY_CAP_BYTES <= zlen (concat log) ->
  db_online a db -> db_holds a db log -> log_inside log ->
  db_online a' db -> db_holds a' db (log ++ [p]) -> log_inside (log ++ [p]) ->
  exists s1 s2, bitapp_load_memory_db_history (set_ahci a s) = (s1, Ok tt) /\
    bitapp_load_memory_db_history (set_ahci a' s) = (s2, Ok tt) /\
    sh_history s2 = sh_history s1.
Proof.
  intros Hlong Hon Hh Hi Hon' Hh' Hi'.
  assert (ztake RAM_SHELL_HISTORY_CAP_BYTES (concat (log ++ [p]))
    = ztake RAM_SHELL_HISTORY_CAP_BYTES (concat log)) as Heq by (rewrite concat_app; by apply ztake_app_le).
  set (b := ztake RAM_SHELL_HISTORY_CAP_BYTES (concat log)) in *.
  assert (zlen b = RAM_SHELL_HISTORY_CAP_BYTES) as Hb.
  { unfold b. rewrite zlen_ztake. change RAM_SHELL_HISTORY_CAP_BYTES with 65536 in *. lia. }
  destruct (structured_loop_total (length b) b 0 (sh_history s)) as [h Hp];
    [rewrite Hb; done|rewrite Hb; done|unfold zlen; lia|].
  destruct (load_runs db log a h s) as (s1 & H1 & E1); try done.
  { intros Hc. rewrite Hc in Hlong. by vm_compute in Hlong. }
  destruct (load_runs db (log ++ [p]) a' h s) as (s2 & H2 & E2); try done; [by rewrite Heq| |].
  { intros Hc. rewrite concat_app in Hc. apply app_nil in Hc as [Hc _]. rewrite Hc in Hlong.
    by vm_compute in Hlong. }
  exists s1, s2. by rewrite E1, E2.
Qed.

Module PersistDemo.
(** A session: one question from the command line, one "forget", then "exit". *)
Definition session : list stdin_read :=
  ShellDemo.typed "prompt the codename is falcon" ++ ShellDemo.typed "forget codename" ++ ShellDemo.typed "exit".

Lemma start_shell_inv : shell_inv ShellDemo.start.
Proof. split; [apply ShellDemo.start_inv|]. split; [done|]. split; [done|constructor]. Qed.

Lemma start_in_step : in_step 10 100 3 4 (mem_of ShellDemo.start).
Proof.
  exists [], [], []. split; [apply Demo.online|]. split; [apply Demo.holds|]. split_and!; done.
Qed.

(** Payloads of 64 KiB. *)
Definition big : bytes := zeros RAM_SHELL_HISTORY_CAP_BYTES.

Lemma zlen_big : zlen big = 65536.
Proof. by apply zlen_zeros. Qed.

Lemma big_sectors : entry_sectors big = 128.
Proof. unfold entry_sectors. by rewrite zlen_big. Qed.
End PersistDemo.

Lemma history_survives_reboot_witness :
  exists s1 r s2 a3 s4,
    shell_loop ShellDemo.decode 1 PersistDemo.session ShellDemo.start = (s1, r) /\
    ((r = Ok tt /\ bitapp_flush_memory_db s1 = (s2, Ok tt) /\ sh_history s2 = sh_history s1) \/
     (r = Err rebooted /\ s2 = s1)) /\
    ensure_memory_db 100 0 0 (power_cycle (sh_ahci s2)) = (a3, Ok tt) /\
    bitapp_load_memory_db_history (set_ahci a3 ShellDemo.start) = (s4, Ok tt) /\
    sh_history s4 = sh_history s1.
Proof.
  apply (history_survives_reboot 10);
    [apply ShellDemo.decode_ok|apply PersistDemo.start_shell_inv|exact PersistDemo.start_in_step
    |apply (bool_decide_unpack _); by vm_compute|done|done|done].
Defined.

Lemma load_ignores_late_payloads_witness :
  exists a a' : Ahci MemDisk, db_holds a 100 [PersistDemo.big] /\
  db_holds a' 100 ([PersistDemo.big] ++ [Demo.note]) /\
  exists s1 s2, bitapp_load_memory_db_history (set_ahci a ShellDemo.start) = (s1, Ok tt) /\
    bitapp_load_memory_db_history (set_ahci a' ShellDemo.start) = (s2, Ok tt) /\
    sh_history s2 = sh_history s1.
Proof.
  destruct (append_runs (Demo.state None 0) 100 [] PersistDemo.big) as (a & _ & Hon & Hh & _);
    [apply Demo.online|apply Demo.holds|by rewrite PersistDemo.zlen_big| |].
  { apply fits_room; [apply Demo.online|]. unfold fits, payload_ok.
    rewrite PersistDemo.zlen_big, PersistDemo.big_sectors. split_and!; done. }
  destruct (append_runs a 100 [PersistDemo.big] Demo.note) as (a' & _ & Hon' & Hh' & _); [done|done|done| |].
  { apply fits_room; [done|]. unfold fits, payload_ok. cbn [log_sectors foldr].
    rewrite PersistDemo.big_sectors. split_and!; done. }
  exists a, a'. split; [done|]. split; [done|].
  apply (load_ignores_late_payloads 100 [PersistDemo.big] Demo.note);
    [|exact Hon|exact Hh| |exact Hon'|exact Hh'|].
  - cbn [concat]. rewrite app_nil_r, PersistDemo.zlen_big. vm_compute. discriminate.
  - unfold log_inside. cbn [log_sectors foldr]. rewrite PersistDemo.big_sectors. vm_compute. discriminate.
  - unfold log_inside. cbn [app log_sectors foldr]. rewrite PersistDemo.big_sectors. vm_compute. discriminate.
Defined.
