(* ===== verification/Ps2Keyboard.v ===== *)
(** * The PS/2 keyboard

    kernel/src/arch/x86_64/kernel/ps2_keyboard.rs: the scan-code state machine
    (sets 1 and 2), its 128-byte ring, and the i8042 polling around it.  The
    controller's two ports are hardware: they are the parameter [PortIo]. *)

From S2P Require Import Prelude.

Definition DATA_PORT : Z := 0x60.
Definition STATUS_PORT : Z := 0x64.
Definition COMMAND_PORT : Z := 0x64.
Definition STATUS_OUTPUT_FULL : Z := Z.shiftl 1 0.
Definition STATUS_INPUT_FULL : Z := Z.shiftl 1 1.
Definition BUFFER_LEN : Z := 128.
Definition WAIT_LIMIT : nat := 100 * 1000.
Definition POLL_LIMIT : nat := 32.

Record Ps2Keyboard := mkPs2Keyboard {
  present : bool;
  left_shift : bool;
  right_shift : bool;
  ctrl : bool;
  caps_lock : bool;
  extended : bool;
  break_pending : bool;
  scan_set2 : bool;
  buffer : list Z;
  head : Z;
  tail : Z;
}.

Definition new_keyboard : Ps2Keyboard :=
  mkPs2Keyboard false false false false false false false false
    (replicate (Z.to_nat BUFFER_LEN) 0) 0 0.

(** ** Field updates *)

Definition set_present b k := mkPs2Keyboard b (left_shift k) (right_shift k) (ctrl k) (caps_lock k)
  (extended k) (break_pending k) (scan_set2 k) (buffer k) (head k) (tail k).
Definition set_left_shift b k := mkPs2Keyboard (present k) b (right_shift k) (ctrl k) (caps_lock k)
  (extended k) (break_pending k) (scan_set2 k) (buffer k) (head k) (tail k).
Definition set_right_shift b k := mkPs2Keyboard (present k) (left_shift k) b (ctrl k) (caps_lock k)
  (extended k) (break_pending k) (scan_set2 k) (buffer k) (head k) (tail k).
Definition set_ctrl b k := mkPs2Keyboard (present k) (left_shift k) (right_shift k) b (caps_lock k)
  (extended k) (break_pending k) (scan_set2 k) (buffer k) (head k) (tail k).
Definition set_caps_lock b k := mkPs2Keyboard (present k) (left_shift k) (right_shift k) (ctrl k) b
  (extended k) (break_pending k) (scan_set2 k) (buffer k) (head k) (tail k).
Definition set_extended b k := mkPs2Keyboard (present k) (left_shift k) (right_shift k) (ctrl k)
  (caps_lock k) b (break_pending k) (scan_set2 k) (buffer k) (head k) (tail k).
Definition set_break_pending b k := mkPs2Keyboard (present k) (left_shift k) (right_shift k) (ctrl k)
  (caps_lock k) (extended k) b (scan_set2 k) (buffer k) (head k) (tail k).
Definition set_scan_set2 b k := mkPs2Keyboard (present k) (left_shift k) (right_shift k) (ctrl k)
  (caps_lock k) (extended k) (break_pending k) b (buffer k) (head k) (tail k).
Definition set_ring l h t k := mkPs2Keyboard (present k) (left_shift k) (right_shift k) (ctrl k)
  (caps_lock k) (extended k) (break_pending k) (scan_set2 k) l h t.

(** ** The ring *)

Definition available (k : Ps2Keyboard) : bool := negb (head k =? tail k).

Definition push (byte : Z) (k : Ps2Keyboard) : Ps2Keyboard :=
  let next := (head k + 1) mod BUFFER_LEN in
  if negb (next =? tail k) then
    set_ring (<[Z.to_nat (head k) := byte]> (buffer k)) next (tail k) k
  else k.

Definition pop (k : Ps2Keyboard) : Ps2Keyboard * option Z :=
  if head k =? tail k then (k, None)
  else
    (set_ring (buffer k) (head k) ((tail k + 1) mod BUFFER_LEN) k,
     Some (nth (Z.to_nat (tail k)) (buffer k) 0)).

(** ** Scan codes *)

Definition shifted (normal shifted : Z) (active : bool) : Z := if active then shifted else normal.

Definition letter (lower : Z) (shift caps_lock : bool) : Z :=
  if xorb shift caps_lock then lower - 32 else lower.

Definition decode_set1 (code : Z) (shift ctrl caps_lock : bool) : option Z :=
  if ctrl && (code =? 0x2e) then Some 3 else
  match code with
  | 0x01 => Some (27)
  | 0x02 => Some (shifted 49 33 shift)
  | 0x03 => Some (shifted 50 64 shift)
  | 0x04 => Some (shifted 51 35 shift)
  | 0x05 => Some (shifted 52 36 shift)
  | 0x06 => Some (shifted 53 37 shift)
  | 0x07 => Some (shifted 54 94 shift)
  | 0x08 => Some (shifted 55 38 shift)
  | 0x09 => Some (shifted 56 42 shift)
  | 0x0a => Some (shifted 57 40 shift)
  | 0x0b => Some (shifted 48 41 shift)
  | 0x0c => Some (shifted 45 95 shift)
  | 0x0d => Some (shifted 61 43 shift)
  | 0x0e => Some (8)
  | 0x0f => Some (9)
  | 0x10 => Some (letter 113 shift caps_lock)
  | 0x11 => Some (letter 119 shift caps_lock)
  | 0x12 => Some (letter 101 shift caps_lock)
  | 0x13 => Some (letter 114 shift caps_lock)
  | 0x14 => Some (letter 116 shift caps_lock)
  | 0x15 => Some (letter 121 shift caps_lock)
  | 0x16 => Some (letter 117 shift caps_lock)
  | 0x17 => Some (letter 105 shift caps_lock)
  | 0x18 => Some (letter 111 shift caps_lock)
  | 0x19 => Some (letter 112 shift caps_lock)
  | 0x1a => Some (shifted 91 123 shift)
  | 0x1b => Some (shifted 93 125 shift)
  | 0x1c => Some (10)
  | 0x1e => Some (letter 97 shift caps_lock)
  | 0x1f => Some (letter 115 shift caps_lock)
  | 0x20 => Some (letter 100 shift caps_lock)
  | 0x21 => Some (letter 102 shift caps_lock)
  | 0x22 => Some (letter 103 shift caps_lock)
  | 0x23 => Some (letter 104 shift caps_lock)
  | 0x24 => Some (letter 106 shift caps_lock)
  | 0x25 => Some (letter 107 shift caps_lock)
  | 0x26 => Some (letter 108 shift caps_lock)
  | 0x27 => Some (shifted 59 58 shift)
  | 0x28 => Some (shifted 39 34 shift)
  | 0x29 => Some (shifted 96 126 shift)
  | 0x2b => Some (shifted 92 124 shift)
  | 0x2c => Some (letter 122 shift caps_lock)
  | 0x2d => Some (letter 120 shift caps_lock)
  | 0x2e => Some (letter 99 shift caps_lock)
  | 0x2f => Some (letter 118 shift caps_lock)
  | 0x30 => Some (letter 98 shift caps_lock)
  | 0x31 => Some (letter 110 shift caps_lock)
  | 0x32 => Some (letter 109 shift caps_lock)
  | 0x33 => Some (shifted 44 60 shift)
  | 0x34 => Some (shifted 46 62 shift)
  | 0x35 => Some (shifted 47 63 shift)
  | 0x39 => Some (32)
  | _ => None
  end.

Definition decode_set2 (code : Z) (shift ctrl caps_lock : bool) : option Z :=
  if ctrl && (code =? 0x21) then Some 3 else
  match code with
  | 0x76 => Some (27)
  | 0x16 => Some (shifted 49 33 shift)
  | 0x1e => Some (shifted 50 64 shift)
  | 0x26 => Some (shifted 51 35 shift)
  | 0x25 => Some (shifted 52 36 shift)
  | 0x2e => Some (shifted 53 37 shift)
  | 0x36 => Some (shifted 54 94 shift)
  | 0x3d => Some (shifted 55 38 shift)
  | 0x3e => Some (shifted 56 42 shift)
  | 0x46 => Some (shifted 57 40 shift)
  | 0x45 => Some (shifted 48 41 shift)
  | 0x4e => Some (shifted 45 95 shift)
  | 0x55 => Some (shifted 61 43 shift)
  | 0x66 => Some (8)
  | 0x0d => Some (9)
  | 0x15 => Some (letter 113 shift caps_lock)
  | 0x1d => Some (letter 119 shift caps_lock)
  | 0x24 => Some (letter 101 shift caps_lock)
  | 0x2d => Some (letter 114 shift caps_lock)
  | 0x2c => Some (letter 116 shift caps_lock)
  | 0x35 => Some (letter 121 shift caps_lock)
  | 0x3c => Some (letter 117 shift caps_lock)
  | 0x43 => Some (letter 105 shift caps_lock)
  | 0x44 => Some (letter 111 shift caps_lock)
  | 0x4d => Some (letter 112 shift caps_lock)
  | 0x54 => Some (shifted 91 123 shift)
  | 0x5b => Some (shifted 93 125 shift)
  | 0x5a => Some (10)
  | 0x1c => Some (letter 97 shift caps_lock)
  | 0x1b => Some (letter 115 shift caps_lock)
  | 0x23 => Some (letter 100 shift caps_lock)
  | 0x2b => Some (letter 102 shift caps_lock)
  | 0x34 => Some (letter 103 shift caps_lock)
  | 0x33 => Some (letter 104 shift caps_lock)
  | 0x3b => Some (letter 106 shift caps_lock)
  | 0x42 => Some (letter 107 shift caps_lock)
  | 0x4b => Some (letter 108 shift caps_lock)
  | 0x4c => Some (shifted 59 58 shift)
  | 0x52 => Some (shifted 39 34 shift)
  | 0x0e => Some (shifted 96 126 shift)
  | 0x5d => Some (shifted 92 124 shift)
  | 0x1a => Some (letter 122 shift caps_lock)
  | 0x22 => Some (letter 120 shift caps_lock)
  | 0x21 => Some (letter 99 shift caps_lock)
  | 0x2a => Some (letter 118 shift caps_lock)
  | 0x32 => Some (letter 98 shift caps_lock)
  | 0x31 => Some (letter 110 shift caps_lock)
  | 0x3a => Some (letter 109 shift caps_lock)
  | 0x41 => Some (shifted 44 60 shift)
  | 0x49 => Some (shifted 46 62 shift)
  | 0x4a => Some (shifted 47 63 shift)
  | 0x29 => Some (32)
  | _ => None
  end.

Definition shift_active (k : Ps2Keyboard) : bool := left_shift k || right_shift k.

Definition clear_momentary_modifiers (k : Ps2Keyboard) : Ps2Keyboard :=
  set_right_shift false (set_left_shift false k).

(** [Ps2Keyboard::decode_set2] *)
Definition kb_decode_set2 (scancode : Z) (k : Ps2Keyboard) : Ps2Keyboard * option Z :=
  let released := break_pending k in
  let k := set_break_pending false k in
  if extended k then
    let k := set_extended false k in
    if (scancode =? 0x5a) && negb released then (k, Some 10)
    else if scancode =? 0x12 then (set_left_shift (negb released) k, None)
    else if scancode =? 0x59 then (set_right_shift (negb released) k, None)
    else if scancode =? 0x14 then (set_ctrl (negb released) k, None)
    else (k, None)
  else if scancode =? 0x12 then (set_left_shift (negb released) k, None)
  else if scancode =? 0x59 then (set_right_shift (negb released) k, None)
  else if scancode =? 0x14 then (set_ctrl (negb released) k, None)
  else if (scancode =? 0x58) && negb released then
    (set_caps_lock false (clear_momentary_modifiers k), None)
  else if released then (k, None)
  else
    let byte := decode_set2 scancode (shift_active k) (ctrl k) (caps_lock k) in
    match byte with
    | Some b => (clear_momentary_modifiers k, Some b)
    | None => (k, None)
    end.

(** [Ps2Keyboard::decode] *)
Definition decode (scancode : Z) (k : Ps2Keyboard) : Ps2Keyboard * option Z :=
  if (scancode =? 0xfa) || (scancode =? 0xfe) || (scancode =? 0xaa) || (scancode =? 0xee) then (k, None)
  else if scancode =? 0xe0 then (set_extended true k, None)
  else if scancode =? 0xf0 then (set_scan_set2 true (set_break_pending true k), None)
  else if scan_set2 k then kb_decode_set2 scancode k
  else if extended k then
    let k := set_extended false k in
    if scancode =? 0x1c then (k, Some 10)
    else if scancode =? 0xaa then (set_left_shift false k, None)
    else if scancode =? 0xb6 then (set_right_shift false k, None)
    else (k, None)
  else
    let released := negb (Z.land scancode 0x80 =? 0) in
    let code := Z.land scancode 0x7f in
    if code =? 0x2a then (set_left_shift (negb released) k, None)
    else if code =? 0x36 then (set_right_shift (negb released) k, None)
    else if code =? 0x1d then (set_ctrl (negb released) k, None)
    else if (code =? 0x3a) && negb released then
      (set_caps_lock false (clear_momentary_modifiers k), None)
    else if released then (k, None)
    else
      let byte := decode_set1 code (shift_active k) (ctrl k) (caps_lock k) in
      match byte with
      | Some b => (clear_momentary_modifiers k, Some b)
      | None => (k, None)
      end.

(** ** The controller *)

(** Byte-wide port access; reading a port may change the device. *)
Class PortIo (P : Type) := {
  port_read : Z -> P -> P * Z;
  port_write : Z -> Z -> P -> P;
}.

Section controller.
Context {P : Type} `{PortIo P}.

Definition read_status (p : P) : P * Z := port_read STATUS_PORT p.
Definition read_data (p : P) : P * Z := port_read DATA_PORT p.

Fixpoint wait_input_clear_loop (n : nat) (p : P) : P * bool :=
  match n with
  | O => (p, false)
  | S n =>
      let (p, status) := read_status p in
      if Z.land status STATUS_INPUT_FULL =? 0 then (p, true) else wait_input_clear_loop n p
  end.
Definition wait_input_clear : P -> P * bool := wait_input_clear_loop WAIT_LIMIT.

Fixpoint wait_output_full_loop (n : nat) (p : P) : P * bool :=
  match n with
  | O => (p, false)
  | S n =>
      let (p, status) := read_status p in
      if negb (Z.land status STATUS_OUTPUT_FULL =? 0) then (p, true) else wait_output_full_loop n p
  end.
Definition wait_output_full : P -> P * bool := wait_output_full_loop WAIT_LIMIT.

Definition write_command (command : Z) (p : P) : P * bool :=
  let (p, clear) := wait_input_clear p in
  if negb clear then (p, false) else (port_write COMMAND_PORT command p, true).

Definition write_data (data : Z) (p : P) : P * bool :=
  let (p, clear) := wait_input_clear p in
  if negb clear then (p, false) else (port_write DATA_PORT data p, true).

Definition read_response (p : P) : P * option Z :=
  let (p, full) := wait_output_full p in
  if full : bool then let (p, b) := read_data p in (p, Some b) else (p, None).

Definition read_controller_config (p : P) : P * option Z :=
  let (p, sent) := write_command 0x20 p in
  if negb sent then (p, None) else read_response p.

Fixpoint flush_output_loop (n : nat) (p : P) : P :=
  match n with
  | O => p
  | S n =>
      let (p, status) := read_status p in
      if Z.land status STATUS_OUTPUT_FULL =? 0 then p
      else let (p, _) := read_data p in flush_output_loop n p
  end.
Definition flush_output : P -> P := flush_output_loop POLL_LIMIT.

Definition set_keyboard_scan_code_set1 (p : P) : P * bool :=
  let (p, sent) := write_data 0xf0 p in
  if negb sent then (p, false) else
  let (p, r) := read_response p in
  if negb (bool_decide (r = Some 0xfa)) then (p, false) else
  let (p, sent) := write_data 0x01 p in
  if negb sent then (p, false) else
  let (p, r) := read_response p in
  (p, bool_decide (r = Some 0xfa)).

(** [probe_and_enable]; [uhyve] is [env::is_uhyve()]. *)
Definition probe_and_enable (uhyve : bool) (k : Ps2Keyboard) (p : P) : Ps2Keyboard * P :=
  if uhyve then (k, p) else
  let (p, initial_status) := read_status p in
  let p := flush_output p in
  let (p, config) := read_controller_config p in
  let (p, sent) := write_command 0xae p in
  if negb sent then (k, p) else
  let (p, set1) := set_keyboard_scan_code_set1 p in
  let k := set_extended false (set_break_pending false (set_ctrl false (set_right_shift false
             (set_left_shift false (set_scan_set2 false k))))) in
  let (p, enabled) := write_data 0xf4 p in
  let (p, response) := if enabled : bool then read_response p else (p, None) in
  if bool_decide (response = Some 0xfa) then (set_present true k, p) else (k, p).

(** [for _ in 0..POLL_LIMIT] of [poll]. *)
Fixpoint poll_loop (n : nat) (k : Ps2Keyboard) (p : P) : Ps2Keyboard * P :=
  match n with
  | O => (k, p)
  | S n =>
      let (p, status) := read_status p in
      if Z.land status STATUS_OUTPUT_FULL =? 0 then (k, p) else
      let (p, scancode) := read_data p in
      let (k, byte) := decode scancode k in
      poll_loop n (match byte with Some b => push b k | None => k end) p
  end.

Definition poll (k : Ps2Keyboard) (p : P) : Ps2Keyboard * P :=
  if negb (present k) then (k, p) else poll_loop POLL_LIMIT k p.

Definition read_ready (k : Ps2Keyboard) (p : P) : Ps2Keyboard * P * bool :=
  let (k, p) := poll k p in (k, p, available k).

Definition polling_enabled (k : Ps2Keyboard) : bool := present k.

(** The [for slot in buf.iter_mut()] loop of [read]. *)
Fixpoint pop_loop (n : nat) (k : Ps2Keyboard) : Ps2Keyboard * list Z :=
  match n with
  | O => (k, [])
  | S n =>
      match pop k with
      | (k, Some b) => let (k, rest) := pop_loop n k in (k, b :: rest)
      | (k, None) => (k, [])
      end
  end.

(** [read(buf)]: the bytes placed in [buf]; their number is the result. *)
Definition kb_read (buf_len : nat) (k : Ps2Keyboard) (p : P) : Ps2Keyboard * P * list Z :=
  let (k, p) := poll k p in
  let (k, bytes) := pop_loop buf_len k in
  (k, p, bytes).
End controller.
