(* ===== verification/Ps2Theorems.v ===== *)
(** * The PS/2 keyboard: theorems

    The ring is a bounded queue, the two scan-code tables agree, every byte that
    reaches the shell is one it understands, and text typed on the keyboard is
    delivered as typed. *)

From S2P Require Import Prelude Ps2Keyboard.

#[local] Ltac Zify.zify_post_hook ::= Z.div_mod_to_equations.

(** ** The ring as a queue *)

Definition kb_wf (k : Ps2Keyboard) : Prop :=
  length (buffer k) = 128%nat /\ 0 <= head k < 128 /\ 0 <= tail k < 128.

(** The bytes waiting, oldest first. *)
Definition queued (k : Ps2Keyboard) : list Z :=
  (fun i => nth (Z.to_nat ((tail k + i) mod 128)) (buffer k) 0) <$> seqZ 0 ((head k - tail k) mod 128).

(** Everything but the ring. *)
Definition flags (k : Ps2Keyboard) :=
  (present k, left_shift k, right_shift k, ctrl k, caps_lock k, extended k, break_pending k, scan_set2 k).

Definition ring (k : Ps2Keyboard) := (buffer k, head k, tail k).

Lemma zlen_queued k : zlen (queued k) = (head k - tail k) mod 128.
Proof. unfold zlen, queued. rewrite length_fmap, length_seqZ. lia. Qed.

Lemma queued_ring k k' : ring k' = ring k -> queued k' = queued k.
Proof. unfold ring, queued. by intros [= -> -> ->]. Qed.

Lemma wf_ring k k' : ring k' = ring k -> kb_wf k -> kb_wf k'.
Proof. unfold ring, kb_wf. by intros [= -> -> ->]. Qed.

Lemma push_spec b k :
  kb_wf k ->
  kb_wf (push b k) /\ flags (push b k) = flags k /\
  queued (push b k) = if zlen (queued k) <? 127 then queued k ++ [b] else queued k.
Proof.
  intros Hw. pose proof Hw as (Hb & Hh & Ht). rewrite zlen_queued. unfold push, BUFFER_LEN.
  destruct ((head k + 1) mod 128 =? tail k) eqn:E; cbn [negb]; bool_to_prop.
  { guard_false ((head k - tail k) mod 128 <? 127). done. }
  guard_true ((head k - tail k) mod 128 <? 127).
  split; [unfold kb_wf; cbn; rewrite length_insert; lia|]. split; [done|].
  unfold queued. cbn [set_ring tail head buffer].
  replace (((head k + 1) mod 128 - tail k) mod 128) with ((head k - tail k) mod 128 + 1) by lia.
  rewrite seqZ_app, fmap_app by lia. f_equal.
  - apply list_fmap_ext. intros j i Hi. apply lookup_seqZ in Hi as [-> Hj].
    rewrite !nth_lookup, !list_lookup_insert_ne; [done|]. lia.
  - replace (seqZ (0 + (head k - tail k) mod 128) 1) with [(head k - tail k) mod 128] by (by unfold seqZ; simpl; f_equal; lia).
    cbn [fmap list_fmap]. f_equal.
    replace ((tail k + (head k - tail k) mod 128) mod 128) with (head k) by lia.
    rewrite nth_lookup, list_lookup_insert_eq by lia. done.
Qed.

Lemma pop_spec k :
  kb_wf k ->
  match queued k with
  | [] => pop k = (k, None)
  | b :: q => exists k', pop k = (k', Some b) /\ queued k' = q /\ kb_wf k' /\ flags k' = flags k
  end.
Proof.
  intros Hw. pose proof Hw as (Hb & Hh & Ht). unfold pop, BUFFER_LEN.
  destruct (head k =? tail k) eqn:E; bool_to_prop.
  { unfold queued. rewrite E, Z.sub_diag. done. }
  unfold queued. replace ((head k - tail k) mod 128) with (Z.succ ((head k - (tail k + 1) mod 128) mod 128)) by lia.
  rewrite seqZ_cons by lia. cbn [fmap list_fmap].
  exists (set_ring (buffer k) (head k) ((tail k + 1) mod 128) k). split; [|split; [|split; [|done]]].
  - rewrite Z.add_0_r, (Z.mod_small (tail k)) by lia. reflexivity.
  - unfold queued. cbn [set_ring tail head buffer]. rewrite Z.pred_succ.
    apply list_eq_same_length with (n := Z.to_nat ((head k - (tail k + 1) mod 128) mod 128));
      rewrite ?length_fmap, ?length_seqZ; [done|done|].
    intros j x y Hj Hx Hy. apply list_lookup_fmap_Some in Hx as (i & -> & Hi). apply list_lookup_fmap_Some in Hy as (i' & -> & Hi').
    apply lookup_seqZ in Hi as [-> _]. apply lookup_seqZ in Hi' as [-> _]. do 2 f_equal. lia.
  - unfold kb_wf. cbn. lia.
Qed.

(** ** The decoder *)

(** Decoding reads and writes the flags only. *)
Lemma decode_ring c k : ring (fst (decode c k)) = ring k.
Proof.
  unfold decode, kb_decode_set2. repeat (case_match; simpl; try done).
Qed.

Lemma decode_flags c k k' :
  flags k' = flags k ->
  flags (fst (decode c k')) = flags (fst (decode c k)) /\ snd (decode c k') = snd (decode c k).
Proof.
  destruct k as [a1 a2 a3 a4 a5 a6 a7 a8 l h t], k' as [b1 b2 b3 b4 b5 b6 b7 b8 l' h' t'].
  unfold flags. cbn. intros [= -> -> -> -> -> -> -> ->].
  unfold decode, kb_decode_set2, shift_active, flags. cbn.
  repeat (case_match; cbn; try done).
Qed.

(** The bytes a sequence of scan codes produces. *)
Fixpoint run_codes (codes : list Z) (k : Ps2Keyboard) : Ps2Keyboard * list Z :=
  match codes with
  | [] => (k, [])
  | c :: codes =>
      let (k, b) := decode c k in
      let (k, bs) := run_codes codes k in
      (k, match b with Some b => b :: bs | None => bs end)
  end.

Lemma run_codes_flags codes k k' :
  flags k' = flags k -> snd (run_codes codes k') = snd (run_codes codes k).
Proof.
  revert k k'. induction codes as [|c codes IH]; intros k k' Hf; [done|]. cbn [run_codes].
  destruct (decode_flags c k k' Hf) as [Hf' Hb].
  destruct (decode c k) as [k1 b], (decode c k') as [k1' b']. cbn [fst snd] in *. subst b'.
  specialize (IH k1 k1' Hf'). destruct (run_codes codes k1), (run_codes codes k1'). cbn [snd] in *. by subst.
Qed.

Lemma run_codes_app c1 c2 k :
  snd (run_codes (c1 ++ c2) k) = snd (run_codes c1 k) ++ snd (run_codes c2 (fst (run_codes c1 k))).
Proof.
  revert k. induction c1 as [|c c1 IH]; intros k; [done|]. cbn [app run_codes].
  destruct (decode c k) as [k1 b]. specialize (IH k1).
  destruct (run_codes (c1 ++ c2) k1) as [? l1], (run_codes c1 k1) as [k2 l2]. cbn [fst snd] in *.
  rewrite IH. by destruct b.
Qed.

(** ** Checks over all scan codes *)

Definition all_bytes : list Z := seqZ 0 256.

Lemma all_bytes_elem c : 0 <= c < 256 -> c ∈ all_bytes.
Proof. intros. apply elem_of_seqZ. lia. Qed.

(** The bytes the shell understands. *)
Definition console_byte (b : Z) : bool :=
  (b =? 3) || (b =? 8) || (b =? 9) || (b =? 10) || (b =? 27) || ((32 <=? b) && (b <=? 126)).

Definition table_ok (table : Z -> bool -> bool -> bool -> option Z) : bool :=
  forallb (fun c => forallb (fun s => forallb (fun ct =>
    match table c s ct false with Some b => console_byte b | None => true end)
    [true; false]) [true; false]) all_bytes.

Lemma table_ok_spec table :
  table_ok table = true ->
  forall c s ct b, 0 <= c < 256 -> table c s ct false = Some b -> console_byte b = true.
Proof.
  unfold table_ok. intros Ht c s ct b Hc Hb. rewrite forallb_forall in Ht.
  specialize (Ht c ltac:(by apply list_elem_of_In, all_bytes_elem)). rewrite forallb_forall in Ht.
  specialize (Ht s ltac:(destruct s; simpl; auto)). rewrite forallb_forall in Ht.
  specialize (Ht ct ltac:(destruct ct; simpl; auto)). by rewrite Hb in Ht.
Qed.

Lemma decode_set1_bytes c s ct b :
  0 <= c < 256 -> decode_set1 c s ct false = Some b -> console_byte b = true.
Proof. apply (table_ok_spec decode_set1). by vm_compute. Qed.

Lemma decode_set2_bytes c s ct b :
  0 <= c < 256 -> decode_set2 c s ct false = Some b -> console_byte b = true.
Proof. apply (table_ok_spec decode_set2). by vm_compute. Qed.

Lemma land_127_bound c : 0 <= c < 256 -> 0 <= Z.land c 127 < 256.
Proof. intros. change 127 with (Z.ones 7). rewrite Z.land_ones by lia. lia. Qed.

(** One scan code keeps caps lock off and produces a byte of the console. *)
Lemma decode_console c k :
  0 <= c < 256 -> caps_lock k = false ->
  caps_lock (fst (decode c k)) = false /\
  (forall b, snd (decode c k) = Some b -> console_byte b = true).
Proof.
  intros Hc Hk. pose proof (land_127_bound c Hc). unfold decode, kb_decode_set2.
  repeat (case_match; cbn [fst snd set_present set_left_shift set_right_shift set_ctrl set_caps_lock
    set_extended set_break_pending set_scan_set2 clear_momentary_modifiers caps_lock] in *;
    try (split; [done|]; intros; by simplify_eq)).
  all: split; [done|]; intros; simplify_eq; rewrite Hk in *;
    eauto using decode_set1_bytes, decode_set2_bytes.
Qed.

(** ** Typing *)

Definition is_text (c : Z) : bool := (c =? 10) || ((32 <=? c) && (c <=? 126)).

Definition chars (s : string) : list Z := (fun b => Z.of_N (Byte.to_N b)) <$> bstr s.

(** A US keyboard in scan-code set 1, as the IBM PC/AT reference prints it: each row of
    keys has consecutive make codes; its first code, the characters on the key caps,
    and those typed with shift.  34 is the double quote, 10 the enter key. *)
Definition us_rows : list (Z * list Z * list Z) :=
  [(0x02, chars "1234567890-=", chars "!@#$%^&*()_+");
   (0x10, chars "qwertyuiop[]", chars "QWERTYUIOP{}");
   (0x1c, [10], []);
   (0x1e, chars "asdfghjkl;'`", chars "ASDFGHJKL:" ++ [34] ++ chars "~");
   (0x2b, chars "\zxcvbnm,./", chars "|ZXCVBNM<>?");
   (0x39, chars " ", [])].

(** The make code of a character and whether it needs shift, looked up on the rows. *)
Fixpoint row_key (rows : list (Z * list Z * list Z)) (c : Z) : option (Z * bool) :=
  match rows with
  | [] => None
  | (first, plain, shift) :: rows =>
      match list_find (c =.) plain, list_find (c =.) shift with
      | Some (i, _), _ => Some (first + Z.of_nat i, false)
      | None, Some (i, _) => Some (first + Z.of_nat i, true)
      | None, None => row_key rows c
      end
  end.

Definition set1_key (c : Z) : option (Z * bool) := row_key us_rows c.

(** Press and release it, shift around it when needed. *)
Definition strokes (c : Z) : list Z :=
  match set1_key c with
  | Some (code, false) => [code; code + 128]
  | Some (code, true) => [0x2a; code; code + 128; 0xaa]
  | None => []
  end.

(** No modifier held, scan-code set 1. *)
Definition at_rest (k : Ps2Keyboard) : Prop := flags k = (present k, false, false, false, false, false, false, false).

Definition resting (l : list Z) (h t : Z) (p : bool) : Ps2Keyboard :=
  mkPs2Keyboard p false false false false false false false l h t.

Lemma strokes_rest c l h t p :
  is_text c = true -> run_codes (strokes c) (resting l h t p) = (resting l h t p, [c]).
Proof.
  intros Hc. assert (c ∈ 10 :: seqZ 32 95) as Hin.
  { unfold is_text in Hc. rewrite elem_of_cons, elem_of_seqZ. lia. }
  apply elem_of_cons in Hin as [->|Hin]; [by vm_compute|].
  revert Hin. clear Hc. rewrite list_elem_of_In.
  let v := eval vm_compute in (seqZ 32 95) in change (seqZ 32 95) with v. cbn [In].
  intros Hin. repeat (destruct Hin as [<-|Hin]; [by vm_compute|]). done.
Qed.

Lemma strokes_type c k :
  is_text c = true -> at_rest k -> run_codes (strokes c) k = (k, [c]).
Proof.
  intros Hc Hr. destruct k as [p a2 a3 a4 a5 a6 a7 a8 l h t]. unfold at_rest, flags in Hr. cbn in Hr.
  simplify_eq. by apply strokes_rest.
Qed.

Lemma type_text text k :
  Forall (fun c => is_text c = true) text -> at_rest k -> snd (run_codes (text ≫= strokes) k) = text.
Proof.
  intros Ht Hr. induction Ht as [|c text Hc _ IH]; [done|]. cbn [mbind list_bind].
  rewrite run_codes_app, strokes_type by done. cbn [fst snd app]. by f_equal.
Qed.

(** ** Polling a controller *)

(** The contract of the controller: the status bit tells whether a scan code
    waits, and reading the data port takes it. *)
Class Ps2ControllerSpec (P : Type) `{PortIo P} := {
  pending : P -> list Z;
  status_pending p : pending (fst (read_status p)) = pending p /\
    (Z.land (snd (read_status p)) STATUS_OUTPUT_FULL = 0 <-> pending p = []);
  data_pending p c cs : pending p = c :: cs -> snd (read_data p) = c /\ pending (fst (read_data p)) = cs;
}.

(** A controller with scan codes waiting. *)
#[export] Instance Script_PortIo : PortIo (list Z) := {
  port_read port p :=
    if port =? DATA_PORT then (drop 1 p, match p with c :: _ => c | [] => 0 end)
    else (p, match p with [] => 0 | _ => 1 end);
  port_write port v p := p;
}.

Lemma script_status (p : list Z) :
  fst (read_status p) = p /\ (Z.land (snd (read_status p)) STATUS_OUTPUT_FULL = 0 <-> p = []).
Proof. split; [done|]. destruct p; cbn; split; done. Qed.

Lemma script_data (p : list Z) c cs :
  p = c :: cs -> snd (read_data p) = c /\ fst (read_data p) = cs.
Proof. by intros ->. Qed.

#[export] Instance Script_Spec : Ps2ControllerSpec (list Z) := {
  pending p := p;
  status_pending := script_status;
  data_pending := script_data;
}.

Section polling.
Context {P : Type} `{Ps2ControllerSpec P}.

(** What has been delivered, what waits in the ring and what the pending scan
    codes will still produce make up [text]. *)
Definition on_the_way (text out : list Z) (k : Ps2Keyboard) (p : P) : Prop :=
  kb_wf k /\ out ++ queued k ++ snd (run_codes (pending p) k) = text.

Lemma poll_loop_way n text out k p :
  zlen text <= 127 -> on_the_way text out k p ->
  on_the_way text out (fst (poll_loop n k p)) (snd (poll_loop n k p)) /\
  pending (snd (poll_loop n k p)) = drop n (pending p) /\
  present (fst (poll_loop n k p)) = present k.
Proof.
  intros Hlen. revert k p. induction n as [|n IH]; intros k p Hw; cbn [poll_loop]; [done|].
  destruct (status_pending p) as [Hs Hz]. destruct (read_status p) as [p1 st]. cbn [fst snd] in *.
  destruct (Z.land st STATUS_OUTPUT_FULL =? 0) eqn:E; bool_to_prop.
  { apply Hz in E. cbn [fst snd]. rewrite Hs, E. split_and!; try done.
    destruct Hw as [? Hw]. split; [done|]. by rewrite Hs. }
  destruct (pending p) as [|c cs] eqn:Hp; [tauto|]. destruct (data_pending p1 c cs Hs) as [Hd Hc].
  destruct (read_data p1) as [p2 d]. cbn [fst snd] in *. subst d.
  destruct Hw as [Hwf Hw]. pose proof (decode_ring c k) as Hr.
  rewrite Hp in Hw. cbn [run_codes] in Hw.
  assert (present (fst (decode c k)) = present k) as Hpr.
  { clear. unfold decode, kb_decode_set2. repeat (case_match; cbn; try done). }
  destruct (decode c k) as [k1 b]. cbn [fst snd] in *.
  pose proof (wf_ring _ _ Hr Hwf) as Hwf1. pose proof (queued_ring _ _ Hr) as Hq1.
  destruct (push_spec (default 0 b) k1 Hwf1) as (Hwfp & Hfp & Hqp).
  destruct b as [b|]; cbn [default] in *.
  - change (id b) with b in *.
    destruct (IH (push b k1) p2) as (? & Hpd & Hpr').
    + split; [done|]. rewrite Hc, (run_codes_flags cs k1 (push b k1)) by done. rewrite Hqp.
      destruct (run_codes cs k1) as [kk bs]. cbn [snd] in *. rewrite Hq1.
      assert (zlen (queued k) < 127) as Hz'.
      { rewrite <- Hw in Hlen. rewrite !zlen_app, zlen_cons in Hlen. pose proof (zlen_nonneg out).
        pose proof (zlen_nonneg bs). lia. }
      guard_true (zlen (queued k) <? 127). by rewrite <- app_assoc.
    + split_and!; [done|by rewrite Hpd, Hc|]. rewrite Hpr'. injection Hfp. congruence.
  - destruct (IH k1 p2) as (? & Hpd & Hpr').
    + split; [done|]. rewrite Hc, Hq1. by destruct (run_codes cs k1).
    + split_and!; [done|by rewrite Hpd, Hc|congruence].
Qed.

Lemma pop_loop_way n text out k p :
  on_the_way text out k p ->
  on_the_way text (out ++ snd (pop_loop n k)) (fst (pop_loop n k)) p /\
  present (fst (pop_loop n k)) = present k /\
  ((length (queued k) <= n)%nat -> snd (pop_loop n k) = queued k).
Proof.
  revert out k. induction n as [|n IH]; intros out k Hw; cbn [pop_loop].
  { cbn [fst snd]. rewrite app_nil_r. split_and!; try done. intros ?. symmetry. apply length_zero_iff_nil. lia. }
  destruct Hw as [Hwf Hw]. pose proof (pop_spec k Hwf) as Hp. destruct (queued k) as [|b q] eqn:Hq.
  - rewrite Hp. cbn [fst snd]. rewrite app_nil_r. split_and!; try done. split; [done|]. by rewrite Hq.
  - destruct Hp as (k' & -> & Hq' & Hwf' & Hf').
    destruct (IH (out ++ [b]) k') as ((Hwf2 & Hw2) & Hpr & Hall).
    { split; [done|]. rewrite Hq', (run_codes_flags _ k k') by done. by rewrite <- app_assoc. }
    destruct (pop_loop n k') as [k2 bs]. cbn [fst snd] in *. split_and!.
    + split; [done|]. rewrite <- Hw2. by rewrite <- !app_assoc.
    + rewrite Hpr. injection Hf'. congruence.
    + intros Hn. f_equal. rewrite Hall; [done|]. rewrite Hq'. cbn [length] in Hn. lia.
Qed.

(** A sequence of [read] calls and what they return. *)
Fixpoint reads_of (sizes : list nat) (k : Ps2Keyboard) (p : P) : Ps2Keyboard * P * list Z :=
  match sizes with
  | [] => (k, p, [])
  | n :: sizes =>
      let '(k, p, b) := kb_read n k p in
      let '(k, p, bs) := reads_of sizes k p in
      (k, p, b ++ bs)
  end.

Lemma kb_read_way n text out k p :
  zlen text <= 127 -> on_the_way text out k p -> present k = true ->
  let '(k', p', b) := kb_read n k p in
  on_the_way text (out ++ b) k' p' /\ present k' = true /\ pending p' = drop 32 (pending p) /\
  (pending p' = [] -> (127 <= n)%nat -> out ++ b = text).
Proof.
  intros Hlen Hw Hpr. unfold kb_read, poll. rewrite Hpr. cbn [negb].
  destruct (poll_loop_way POLL_LIMIT text out k p Hlen Hw) as (Hw1 & Hp1 & Hpr1).
  destruct (poll_loop POLL_LIMIT k p) as [k1 p1]. cbn [fst snd] in *.
  destruct (pop_loop_way n text out k1 p1 Hw1) as (Hw2 & Hpr2 & Hall).
  destruct (pop_loop n k1) as [k2 b]. cbn [fst snd] in *. split_and!; try done; [congruence|].
  intros He Hn. destruct Hw1 as [_ Hw1]. rewrite He in Hw1. cbn [run_codes snd] in Hw1.
  rewrite app_nil_r in Hw1. rewrite Hall; [done|].
  rewrite <- Hw1, zlen_app in Hlen. pose proof (zlen_nonneg out). unfold zlen in *. lia.
Qed.

Lemma reads_of_way sizes text out k p :
  zlen text <= 127 -> on_the_way text out k p -> present k = true ->
  let '(k', p', bs) := reads_of sizes k p in
  on_the_way text (out ++ bs) k' p' /\ present k' = true /\
  pending p' = drop (32 * length sizes) (pending p).
Proof.
  intros Hlen. revert out k p. induction sizes as [|n sizes IH]; intros out k p Hw Hpr; cbn [reads_of].
  { by rewrite app_nil_r. }
  pose proof (kb_read_way n text out k p Hlen Hw Hpr) as Hr. destruct (kb_read n k p) as [[k1 p1] b].
  destruct Hr as (Hw1 & Hpr1 & Hp1 & _). specialize (IH (out ++ b) k1 p1 Hw1 Hpr1).
  destruct (reads_of sizes k1 p1) as [[k2 p2] bs]. destruct IH as (Hw2 & Hpr2 & Hp2).
  rewrite app_assoc. split_and!; [done|done|]. rewrite Hp2, Hp1, drop_drop. f_equal. cbn [length]. lia.
Qed.
End polling.

Lemma new_keyboard_queue : queued new_keyboard = [].
Proof. done. Qed.

(** ** Theorems *)



(** C12: whatever the scan codes, the keyboard stays within its alphabet: from a
    keyboard with caps lock off, any sequence of bytes from the controller leaves caps
    lock off and produces only Ctrl-C, backspace, tab, line feed, escape and printable
    ASCII. *)
Theorem keyboard_alphabet codes k :
  Forall (fun c => 0 <= c < 256) codes -> caps_lock k = false ->
  caps_lock (fst (run_codes codes k)) = false /\
  Forall (fun b => console_byte b = true) (snd (run_codes codes k)).
Proof.
  intros Hc. revert k. induction Hc as [|c codes Hc _ IH]; intros k Hk; [by split; [|constructor]|].
  cbn [run_codes]. destruct (decode_console c k Hc Hk) as [Hk1 Hb].
  destruct (decode c k) as [k1 b]. cbn [fst snd] in *. destruct (IH k1 Hk1) as [Hk2 Hbs].
  destruct (run_codes codes k1) as [k2 bs]. cbn [fst snd] in *. split; [done|].
  destruct b as [b|]; [|done]. constructor; [by apply Hb|done].
Qed.

Lemma keyboard_alphabet_witness :
  caps_lock (fst (run_codes [0x3a; 0x2a; 0x1e; 0xe0; 0x1c; 0xf0; 0x1c] new_keyboard)) = false /\
  Forall (fun b => console_byte b = true)
    (snd (run_codes [0x3a; 0x2a; 0x1e; 0xe0; 0x1c; 0xf0; 0x1c] new_keyboard)).
Proof. apply keyboard_alphabet; [repeat constructor; done|done]. Defined.

Definition same_key (a b : option Z) : bool :=
  match a, b with Some x, Some y => x =? y | None, None => true | _, _ => false end.

Lemma same_key_eq a b : same_key a b = true -> a = b.
Proof. destruct a, b; cbn; try done. by intros ->%Z.eqb_eq. Qed.

(** The set-2 code of a set-1 key: the one that types the same. *)
Definition set2_of_set1 (code : Z) : option Z :=
  find (fun code2 =>
    same_key (decode_set2 code2 false false false) (decode_set1 code false false false) &&
    same_key (decode_set2 code2 true false false) (decode_set1 code true false false)) all_bytes.

Definition agree_on (code : Z) : bool :=
  match decode_set1 code false false false with
  | None => true
  | Some _ =>
      match set2_of_set1 code with
      | None => false
      | Some code2 =>
          forallb (fun s => forallb (fun ct => forallb (fun cl =>
            same_key (decode_set2 code2 s ct cl) (decode_set1 code s ct cl))
            [true; false]) [true; false]) [true; false]
      end
  end.

(** The two scan-code tables are the same keyboard: every key of set 1 that types
    a character has a key of set 2 that types the same one under every combination of
    shift, control and caps lock. *)
Theorem scan_sets_agree code c :
  0 <= code < 256 -> decode_set1 code false false false = Some c ->
  exists code2, 0 <= code2 < 256 /\
    forall s ct cl, decode_set2 code2 s ct cl = decode_set1 code s ct cl.
Proof.
  intros Hc Hd. assert (forallb agree_on all_bytes = true) as Hall by (by vm_compute).
  rewrite forallb_forall in Hall. specialize (Hall code ltac:(by apply list_elem_of_In, all_bytes_elem)).
  unfold agree_on in Hall. rewrite Hd in Hall. destruct (set2_of_set1 code) as [code2|] eqn:E2; [|done].
  exists code2. split.
  - apply find_some in E2 as [E2 _]. apply list_elem_of_In, elem_of_seqZ in E2. lia.
  - intros s ct cl. rewrite forallb_forall in Hall.
    specialize (Hall s ltac:(destruct s; simpl; auto)). rewrite forallb_forall in Hall.
    specialize (Hall ct ltac:(destruct ct; simpl; auto)). rewrite forallb_forall in Hall.
    specialize (Hall cl ltac:(destruct cl; simpl; auto)). by apply same_key_eq.
Qed.

Lemma scan_sets_agree_witness :
  exists code2, 0 <= code2 < 256 /\
    forall s ct cl, decode_set2 code2 s ct cl = decode_set1 0x1e s ct cl.
Proof. by apply (scan_sets_agree 0x1e 97). Defined.

Lemma land_make_code code :
  0 <= code < 128 -> Z.land code 128 = 0 /\ Z.land code 127 = code.
Proof.
  intros Hc. split; [|change 127 with (Z.ones 7); rewrite Z.land_ones by lia; lia].
  apply Z.bits_inj'. intros n Hn. rewrite Z.land_spec, Z.bits_0. change 128 with (2 ^ 7).
  rewrite Z.pow2_bits_eqb by lia. destruct (7 =? n) eqn:E; [|by rewrite andb_false_r]. bool_to_prop. subst n.
  rewrite andb_true_r. destruct (decide (code = 0)) as [->|]; [done|].
  apply Z.bits_above_log2; [lia|]. apply Z.log2_lt_pow2; lia.
Qed.

(** The make code of a key that is no modifier, in set 1. *)
Lemma decode_plain_key code k :
  0 <= code < 0x80 -> code <> 0x2a -> code <> 0x36 -> code <> 0x1d -> code <> 0x3a ->
  scan_set2 k = false -> extended k = false ->
  snd (decode code k) = decode_set1 code (shift_active k) (ctrl k) (caps_lock k).
Proof.
  intros Hc H1 H2 H3 H4 Hs He. destruct (land_make_code code Hc) as [Hl1 Hl2].
  unfold decode. rewrite Hs, He, Hl1, Hl2.
  repeat match goal with |- context [code =? ?n] => guard_false (code =? n) end.
  cbn -[decode_set1]. by destruct (decode_set1 _ _ _ _).
Qed.

(** Releasing left shift goes unseen.  Its break code in set 1 is 0xaa, which the
    decoder drops as a self-test answer: after tapping left shift, the next letter is
    still typed in upper case, unlike after tapping right shift. *)
Theorem left_shift_release_lost k code c :
  at_rest k -> 0 <= code < 0x80 -> code <> 0x2a -> code <> 0x36 -> code <> 0x1d -> code <> 0x3a ->
  decode_set1 code true false false = Some c ->
  snd (run_codes [0x2a; 0xaa; code] k) = [c] /\
  snd (run_codes [0x36; 0xb6; code] k) = match decode_set1 code false false false with Some b => [b] | None => [] end.
Proof.
  intros Hr Hc H1 H2 H3 H4 Hd. destruct k as [p a2 a3 a4 a5 a6 a7 a8 l h t].
  unfold at_rest, flags in Hr. cbn in Hr. simplify_eq. fold (resting l h t p).
  assert (forall k, run_codes [code] k = (fst (decode code k), match snd (decode code k) with Some b => [b] | None => [] end)) as Hone.
  { intros k. cbn [run_codes]. by destruct (decode code k) as [? [?|]]. }
  assert (forall c k k1, decode c k = (k1, None) ->
    forall cs, snd (run_codes (c :: cs) k) = snd (run_codes cs k1)) as Hskip.
  { intros c0 k k1 Hk cs. cbn [run_codes]. rewrite Hk. by destruct (run_codes cs k1). }
  rewrite (Hskip 0x2a (resting l h t p) (set_left_shift true (resting l h t p)) eq_refl).
  rewrite (Hskip 0xaa (set_left_shift true (resting l h t p)) (set_left_shift true (resting l h t p)) eq_refl).
  rewrite (Hskip 0x36 (resting l h t p) (set_right_shift true (resting l h t p)) eq_refl).
  rewrite (Hskip 0xb6 (set_right_shift true (resting l h t p)) (resting l h t p) eq_refl).
  rewrite !Hone, !decode_plain_key by done. cbn [snd]. split; [|done]. cbn -[decode_set1]. by rewrite Hd.
Qed.

Lemma left_shift_release_lost_witness :
  snd (run_codes [0x2a; 0xaa; 0x1e] new_keyboard) = [65] /\
  snd (run_codes [0x36; 0xb6; 0x1e] new_keyboard) = [97].
Proof. by apply (left_shift_release_lost new_keyboard 0x1e 65). Defined.
