(* ===== verification/Framebuffer.v ===== *)
(** * The framebuffer console

    kernel/src/drivers/console/gop.rs: text on the linear framebuffer that the
    boot loader handed over.  The state is the console and the video memory, a
    map from pixel index (one [u32] each) to its value; a pixel write is the
    [write_volatile] at [y * stride + x].  The delay of zero microseconds
    before a page wrap is left out. *)

From stdpp Require Import gmap.
From S2P Require Import Prelude.

Inductive FramebufferFormat := Rgb | Bgr | Unknown.

#[export] Instance FramebufferFormat_eq_dec : EqDecision FramebufferFormat.
Proof. solve_decision. Defined.

Record FramebufferInfo := mkFramebufferInfo {
  fb_address : Z;
  fb_width : Z;
  fb_height : Z;
  fb_stride : Z;
  fb_format : FramebufferFormat;
}.

Definition GLYPH_WIDTH : Z := 8.
Definition FONT_HEIGHT : Z := 16.
Definition FONT_SCALE_X : Z := 2.
Definition FONT_SCALE_Y : Z := 2.
Definition CELL_WIDTH : Z := GLYPH_WIDTH * FONT_SCALE_X + 1.
Definition CELL_HEIGHT : Z := FONT_HEIGHT * FONT_SCALE_Y.
Definition FG_COLOR : Z := 0x00ffff00.
Definition BG_COLOR : Z := 0x00000000.

(** 16 rows of 8 pixels per glyph, from space on. *)
Definition FONT : list Z := [
  0; 0; 0; 0; 0; 0; 0; 0; 0; 0; 0; 0; 0; 0; 0; 0;
  0; 0; 24; 24; 24; 24; 24; 24; 24; 0; 24; 24; 0; 0; 0; 0;
  0; 0; 108; 108; 108; 0; 0; 0; 0; 0; 0; 0; 0; 0; 0; 0;
  0; 0; 108; 108; 254; 108; 108; 254; 108; 108; 0; 0; 0; 0; 0; 0;
  24; 24; 124; 198; 194; 120; 6; 6; 134; 124; 24; 24; 0; 0; 0; 0;
  0; 0; 0; 0; 194; 198; 12; 24; 48; 99; 67; 0; 0; 0; 0; 0;
  0; 0; 56; 108; 108; 56; 118; 204; 204; 204; 118; 0; 0; 0; 0; 0;
  0; 0; 48; 48; 48; 0; 0; 0; 0; 0; 0; 0; 0; 0; 0; 0;
  0; 0; 12; 24; 48; 48; 48; 48; 48; 24; 12; 0; 0; 0; 0; 0;
  0; 0; 48; 24; 12; 12; 12; 12; 12; 24; 48; 0; 0; 0; 0; 0;
  0; 0; 0; 24; 219; 126; 24; 24; 126; 219; 24; 0; 0; 0; 0; 0;
  0; 0; 0; 24; 24; 24; 255; 24; 24; 24; 0; 0; 0; 0; 0; 0;
  0; 0; 0; 0; 0; 0; 0; 0; 0; 24; 24; 48; 0; 0; 0; 0;
  0; 0; 0; 0; 0; 0; 255; 0; 0; 0; 0; 0; 0; 0; 0; 0;
  0; 0; 0; 0; 0; 0; 0; 0; 0; 24; 24; 0; 0; 0; 0; 0;
  0; 0; 0; 2; 6; 12; 24; 48; 96; 192; 64; 0; 0; 0; 0; 0;
  0; 0; 60; 102; 102; 110; 118; 102; 102; 102; 60; 0; 0; 0; 0; 0;
  0; 0; 24; 56; 24; 24; 24; 24; 24; 24; 126; 0; 0; 0; 0; 0;
  0; 0; 60; 102; 6; 12; 24; 48; 96; 102; 126; 0; 0; 0; 0; 0;
  0; 0; 60; 102; 6; 28; 6; 6; 6; 102; 60; 0; 0; 0; 0; 0;
  0; 0; 6; 14; 30; 54; 102; 127; 6; 6; 15; 0; 0; 0; 0; 0;
  0; 0; 126; 96; 96; 124; 6; 6; 6; 102; 60; 0; 0; 0; 0; 0;
  0; 0; 28; 48; 96; 124; 102; 102; 102; 102; 60; 0; 0; 0; 0; 0;
  0; 0; 126; 6; 6; 12; 24; 48; 48; 48; 48; 0; 0; 0; 0; 0;
  0; 0; 60; 102; 102; 60; 102; 102; 102; 102; 60; 0; 0; 0; 0; 0;
  0; 0; 60; 102; 102; 102; 62; 6; 12; 24; 112; 0; 0; 0; 0; 0;
  0; 0; 0; 0; 24; 24; 0; 0; 0; 24; 24; 0; 0; 0; 0; 0;
  0; 0; 0; 0; 24; 24; 0; 0; 0; 24; 24; 48; 0; 0; 0; 0;
  0; 0; 0; 12; 24; 48; 96; 48; 24; 12; 0; 0; 0; 0; 0; 0;
  0; 0; 0; 0; 0; 127; 0; 127; 0; 0; 0; 0; 0; 0; 0; 0;
  0; 0; 0; 48; 24; 12; 6; 12; 24; 48; 0; 0; 0; 0; 0; 0;
  0; 0; 60; 102; 6; 12; 24; 24; 0; 24; 24; 0; 0; 0; 0; 0;
  0; 0; 60; 102; 6; 94; 102; 102; 102; 94; 0; 0; 0; 0; 0; 0;
  0; 0; 24; 60; 102; 102; 126; 102; 102; 102; 102; 0; 0; 0; 0; 0;
  0; 0; 252; 102; 102; 124; 102; 102; 102; 102; 252; 0; 0; 0; 0; 0;
  0; 0; 60; 102; 96; 96; 96; 96; 96; 102; 60; 0; 0; 0; 0; 0;
  0; 0; 248; 108; 102; 102; 102; 102; 102; 108; 248; 0; 0; 0; 0; 0;
  0; 0; 126; 96; 96; 120; 96; 96; 96; 96; 126; 0; 0; 0; 0; 0;
  0; 0; 126; 96; 96; 120; 96; 96; 96; 96; 96; 0; 0; 0; 0; 0;
  0; 0; 60; 102; 96; 96; 110; 102; 102; 102; 60; 0; 0; 0; 0; 0;
  0; 0; 102; 102; 102; 126; 102; 102; 102; 102; 102; 0; 0; 0; 0; 0;
  0; 0; 60; 24; 24; 24; 24; 24; 24; 24; 60; 0; 0; 0; 0; 0;
  0; 0; 14; 6; 6; 6; 6; 6; 6; 102; 60; 0; 0; 0; 0; 0;
  0; 0; 102; 108; 120; 112; 120; 108; 102; 102; 102; 0; 0; 0; 0; 0;
  0; 0; 96; 96; 96; 96; 96; 96; 96; 96; 126; 0; 0; 0; 0; 0;
  0; 0; 99; 99; 119; 127; 107; 99; 99; 99; 99; 0; 0; 0; 0; 0;
  0; 0; 102; 102; 118; 126; 126; 110; 102; 102; 102; 0; 0; 0; 0; 0;
  0; 0; 60; 102; 102; 102; 102; 102; 102; 102; 60; 0; 0; 0; 0; 0;
  0; 0; 252; 102; 102; 102; 124; 96; 96; 96; 96; 0; 0; 0; 0; 0;
  0; 0; 60; 102; 102; 102; 102; 102; 110; 60; 2; 0; 0; 0; 0; 0;
  0; 0; 252; 102; 102; 102; 124; 108; 102; 102; 102; 0; 0; 0; 0; 0;
  0; 0; 60; 102; 96; 60; 6; 6; 6; 102; 60; 0; 0; 0; 0; 0;
  0; 0; 126; 90; 24; 24; 24; 24; 24; 24; 24; 0; 0; 0; 0; 0;
  0; 0; 102; 102; 102; 102; 102; 102; 102; 102; 60; 0; 0; 0; 0; 0;
  0; 0; 102; 102; 102; 102; 102; 102; 102; 60; 24; 0; 0; 0; 0; 0;
  0; 0; 99; 99; 99; 107; 127; 119; 99; 99; 99; 0; 0; 0; 0; 0;
  0; 0; 102; 102; 60; 24; 24; 24; 60; 102; 102; 0; 0; 0; 0; 0;
  0; 0; 102; 102; 102; 60; 24; 24; 24; 24; 60; 0; 0; 0; 0; 0;
  0; 0; 126; 6; 12; 24; 48; 96; 96; 96; 126; 0; 0; 0; 0; 0;
  0; 0; 62; 48; 48; 48; 48; 48; 48; 48; 62; 0; 0; 0; 0; 0;
  0; 0; 0; 64; 96; 48; 24; 12; 6; 3; 1; 0; 0; 0; 0; 0;
  0; 0; 62; 14; 14; 14; 14; 14; 14; 14; 62; 0; 0; 0; 0; 0;
  24; 60; 102; 0; 0; 0; 0; 0; 0; 0; 0; 0; 0; 0; 0; 0;
  0; 0; 0; 0; 0; 0; 0; 0; 0; 0; 0; 255; 0; 0; 0; 0;
  48; 24; 12; 0; 0; 0; 0; 0; 0; 0; 0; 0; 0; 0; 0; 0;
  0; 0; 0; 0; 60; 6; 62; 102; 102; 102; 62; 0; 0; 0; 0; 0;
  0; 0; 96; 96; 124; 102; 102; 102; 102; 102; 124; 0; 0; 0; 0; 0;
  0; 0; 0; 0; 60; 102; 96; 96; 96; 102; 60; 0; 0; 0; 0; 0;
  0; 0; 6; 6; 62; 102; 102; 102; 102; 102; 62; 0; 0; 0; 0; 0;
  0; 0; 0; 0; 60; 102; 126; 96; 96; 102; 60; 0; 0; 0; 0; 0;
  0; 0; 28; 48; 48; 124; 48; 48; 48; 48; 48; 0; 0; 0; 0; 0;
  0; 0; 0; 0; 62; 102; 102; 102; 62; 6; 60; 0; 0; 0; 0; 0;
  0; 0; 96; 96; 124; 102; 102; 102; 102; 102; 102; 0; 0; 0; 0; 0;
  0; 0; 24; 24; 0; 24; 24; 24; 24; 24; 24; 0; 0; 0; 0; 0;
  0; 0; 6; 6; 0; 6; 6; 6; 6; 102; 60; 0; 0; 0; 0; 0;
  0; 0; 96; 96; 102; 108; 120; 112; 120; 108; 102; 0; 0; 0; 0; 0;
  0; 0; 48; 48; 48; 48; 48; 48; 48; 48; 48; 0; 0; 0; 0; 0;
  0; 0; 0; 0; 54; 107; 107; 107; 107; 107; 107; 0; 0; 0; 0; 0;
  0; 0; 0; 0; 124; 102; 102; 102; 102; 102; 102; 0; 0; 0; 0; 0;
  0; 0; 0; 0; 60; 102; 102; 102; 102; 102; 60; 0; 0; 0; 0; 0;
  0; 0; 0; 0; 124; 102; 102; 102; 124; 96; 96; 0; 0; 0; 0; 0;
  0; 0; 0; 0; 62; 102; 102; 102; 62; 6; 6; 0; 0; 0; 0; 0;
  0; 0; 0; 0; 124; 102; 96; 96; 96; 96; 96; 0; 0; 0; 0; 0;
  0; 0; 0; 0; 62; 96; 60; 6; 6; 124; 0; 0; 0; 0; 0; 0;
  0; 0; 24; 24; 126; 24; 24; 24; 24; 24; 12; 0; 0; 0; 0; 0;
  0; 0; 0; 0; 102; 102; 102; 102; 102; 102; 62; 0; 0; 0; 0; 0;
  0; 0; 0; 0; 102; 102; 102; 102; 102; 60; 24; 0; 0; 0; 0; 0;
  0; 0; 0; 0; 99; 107; 107; 107; 107; 127; 99; 0; 0; 0; 0; 0;
  0; 0; 0; 0; 102; 60; 24; 24; 60; 102; 102; 0; 0; 0; 0; 0;
  0; 0; 0; 0; 102; 102; 102; 102; 62; 6; 60; 0; 0; 0; 0; 0;
  0; 0; 0; 0; 126; 12; 24; 48; 96; 96; 126; 0; 0; 0; 0; 0
].

Record GopConsole := mkGopConsole {
  info : FramebufferInfo;
  cursor_col : Z;
  cursor_row : Z;
  cols : Z;
  rows : Z;
}.

Abbreviation vram := (gmap Z Z).

Definition set_cursor_col c g := mkGopConsole (info g) c (cursor_row g) (cols g) (rows g).
Definition set_cursor_row r g := mkGopConsole (info g) (cursor_col g) r (cols g) (rows g).

Definition encode_pixel (format : FramebufferFormat) (color : Z) : option Z :=
  let r := Z.land (Z.shiftr color 16) 0xff in
  let g := Z.land (Z.shiftr color 8) 0xff in
  let b := Z.land color 0xff in
  match format with
  | Rgb => Some (Z.lor (Z.lor (Z.shiftl b 16) (Z.shiftl g 8)) r)
  | Bgr => Some color
  | Unknown => None
  end.

(** [for i in 0..n { ... }] *)
Definition for_range {S} (n : Z) (body : Z -> S -> S) (s : S) : S :=
  foldl (fun s i => body i s) s (seqZ 0 n).

Definition write_pixel (fb : FramebufferInfo) (x y color : Z) (m : vram) : vram :=
  match encode_pixel (fb_format fb) color with
  | None => m
  | Some encoded => <[add64 (mul64 y (fb_stride fb)) x := encoded]> m
  end.

Definition clear_screen (g : GopConsole) (m : vram) : vram :=
  for_range (fb_height (info g)) (fun y =>
    for_range (fb_width (info g)) (fun x => write_pixel (info g) x y BG_COLOR)) m.

(** [GopConsole::new]; [fb] is [env::framebuffer_info()]. *)
Definition new_console (fb : option FramebufferInfo) (m : vram) : option GopConsole * vram :=
  match fb with
  | None => (None, m)
  | Some info =>
      if (fb_width info <? CELL_WIDTH) || (fb_height info <? CELL_HEIGHT) then (None, m)
      else if negb (bool_decide (fb_format info = Rgb) || bool_decide (fb_format info = Bgr)) then (None, m)
      else
        let console := mkGopConsole info 0 0 (fb_width info / CELL_WIDTH) (fb_height info / CELL_HEIGHT) in
        (Some console, clear_screen console m)
  end.

Definition clear_cell (g : GopConsole) (col row : Z) (m : vram) : vram :=
  let x0 := mul64 col CELL_WIDTH in
  let y0 := mul64 row CELL_HEIGHT in
  for_range CELL_HEIGHT (fun y =>
    for_range CELL_WIDTH (fun x => write_pixel (info g) (add64 x0 x) (add64 y0 y) BG_COLOR)) m.

Definition clear_row (g : GopConsole) (row : Z) (m : vram) : vram :=
  for_range (cols g) (fun col => clear_cell g col row) m.

Definition scroll (g : GopConsole) (m : vram) : GopConsole * vram :=
  (set_cursor_row 0 g, clear_screen g m).

Definition newline (g : GopConsole) (m : vram) : GopConsole * vram :=
  let g := set_cursor_row (add64 (cursor_row g) 1) (set_cursor_col 0 g) in
  if rows g <=? cursor_row g then scroll g m else (g, m).

Definition backspace (g : GopConsole) (m : vram) : GopConsole * vram :=
  if 0 <? cursor_col g then
    let g := set_cursor_col (cursor_col g - 1) g in
    (g, clear_cell g (cursor_col g) (cursor_row g) m)
  else (g, m).

(** The pixels of one glyph, scaled by two. *)
Definition draw_bits (fb : FramebufferInfo) (glyph : list Z) (x0 y0 : Z) (m : vram) : vram :=
  foldl (fun m '(row, bits) =>
    for_range GLYPH_WIDTH (fun col m =>
      let mask := as_u8 (Z.shiftl 1 (7 - col)) in
      let color := if negb (Z.land bits mask =? 0) then FG_COLOR else BG_COLOR in
      let pixel_x := add64 x0 (col * FONT_SCALE_X) in
      let pixel_y := add64 y0 (row * FONT_SCALE_Y) in
      for_range FONT_SCALE_Y (fun dy =>
        for_range FONT_SCALE_X (fun dx =>
          write_pixel fb (add64 pixel_x dx) (add64 pixel_y dy) color)) m) m)
    m (zip (seqZ 0 (zlen glyph)) glyph).

(** [FONT[glyph_index * 16..(glyph_index + 1) * 16]]; the index is clamped. *)
Definition glyph_of (byte : Z) : outcome unit (list Z) :=
  let glyph_index := sat_sub byte 32 in
  let glyph_index := Z.min glyph_index (sat_sub (zlen FONT / FONT_HEIGHT) 1) in
  get_slice FONT (glyph_index * FONT_HEIGHT) ((glyph_index + 1) * FONT_HEIGHT).

Definition draw_glyph (byte : Z) (g : GopConsole) (m : vram) : outcome unit (GopConsole * vram) :=
  let (g, m) := if cols g <=? cursor_col g then newline g m else (g, m) in
  let? glyph := glyph_of byte in
  let x0 := mul64 (cursor_col g) CELL_WIDTH in
  let y0 := mul64 (cursor_row g) CELL_HEIGHT in
  Ok (set_cursor_col (add64 (cursor_col g) 1) g, draw_bits (info g) glyph x0 y0 m).

Definition write_byte (byte : Z) (g : GopConsole) (m : vram) : outcome unit (GopConsole * vram) :=
  if byte =? 0x0c then
    Ok (set_cursor_row 0 (set_cursor_col 0 g), clear_screen g m)
  else if byte =? 10 then Ok (newline g m)
  else if byte =? 13 then Ok (set_cursor_col 0 g, m)
  else if (byte =? 0x08) || (byte =? 0x7f) then Ok (backspace g m)
  else if byte =? 9 then
    let? (g, m) := draw_glyph 32 g m in
    let? (g, m) := draw_glyph 32 g m in
    let? (g, m) := draw_glyph 32 g m in
    draw_glyph 32 g m
  else if (0x20 <=? byte) && (byte <=? 0x7e) then draw_glyph byte g m
  else draw_glyph 63 g m.

(** [Write::write] of the console. *)
Fixpoint write_buf (buf : list Z) (g : GopConsole) (m : vram) : outcome unit (GopConsole * vram) :=
  match buf with
  | [] => Ok (g, m)
  | byte :: buf => let? (g, m) := write_byte byte g m in write_buf buf g m
  end.

(** [write_bytes]: the console is created on first use; without one the text is
    dropped. *)
Definition write_bytes (buf : list Z) (g : option GopConsole) (m : vram)
    : outcome unit (option GopConsole * vram) :=
  match g with
  | None => Ok (None, m)
  | Some g => let? (g, m) := write_buf buf g m in Ok (Some g, m)
  end.

Definition kernel_gop_marker (fb : option FramebufferInfo) (index color : Z) (m : vram) : vram :=
  match fb with
  | None => m
  | Some fb =>
      let x0 := mul64 index 40 in
      match encode_pixel (fb_format fb) color with
      | None => m
      | Some encoded =>
          for_range 32 (fun row => for_range 32 (fun col m =>
            <[add64 (add64 (mul64 row (fb_stride fb)) x0) col := encoded]> m)) m
      end
  end.
