(* ===== verification/FramebufferTheorems.v ===== *)
(** * The framebuffer console: theorems

    No byte sequence makes the console write outside the visible screen, and a
    character is drawn as its glyph in the cell under the cursor. *)

From stdpp Require Import gmap.
From S2P Require Import Prelude Framebuffer.

(** ** Loops *)

Lemma for_range_preserves {S} (P : S -> Prop) n body (s : S) :
  P s -> (forall i s, 0 <= i < n -> P s -> P (body i s)) -> P (for_range n body s).
Proof.
  intros Hs Hb. unfold for_range.
  assert (forall i, i ∈ seqZ 0 n -> 0 <= i < n) as Hin by (intros i Hi%elem_of_seqZ; lia).
  revert s Hs Hin. induction (seqZ 0 n) as [|i l IH]; intros s Hs Hin; [done|]. cbn [foldl]. apply IH.
  - apply Hb; [|done]. apply Hin, list_elem_of_here.
  - intros j Hj. apply Hin. by apply list_elem_of_further.
Qed.

Lemma foldl_bind {A B S} (f : S -> B -> S) (g : A -> list B) (l : list A) (s : S) :
  foldl f s (l ≫= g) = foldl (fun s i => foldl f s (g i)) s l.
Proof.
  revert s. induction l as [|a l IH]; intros s; [done|]. cbn [mbind list_bind foldl].
  by rewrite foldl_app, IH.
Qed.

Lemma foldl_ext_fun {A S} (f g : S -> A -> S) (l : list A) (s : S) :
  (forall s a, f s a = g s a) -> foldl f s l = foldl g s l.
Proof. intros H. revert s. induction l as [|a l IH]; intros s; [done|]. cbn. by rewrite H, IH. Qed.

(** ** Geometry *)

(** A mode the console accepts, small enough that pixel indices do not wrap. *)
Definition fb_ok (fb : FramebufferInfo) : Prop :=
  CELL_WIDTH <= fb_width fb <= fb_stride fb /\ CELL_HEIGHT <= fb_height fb /\
  fb_height fb * fb_stride fb <= U64_MAX /\ fb_format fb <> Unknown.

Definition gop_ok (g : GopConsole) : Prop :=
  fb_ok (info g) /\ cols g = fb_width (info g) / CELL_WIDTH /\ rows g = fb_height (info g) / CELL_HEIGHT /\
  0 <= cursor_col g <= cols g /\ 0 <= cursor_row g < rows g.

Definition pixel (fb : FramebufferInfo) (x y : Z) : Z := y * fb_stride fb + x.

Definition on_screen (fb : FramebufferInfo) (i : Z) : Prop :=
  exists x y, 0 <= x < fb_width fb /\ 0 <= y < fb_height fb /\ i = pixel fb x y.

Lemma pixel_inj fb x y x' y' :
  fb_ok fb -> 0 <= x < fb_width fb -> 0 <= x' < fb_width fb -> pixel fb x y = pixel fb x' y' ->
  x = x' /\ y = y'.
Proof.
  unfold fb_ok, pixel. intros (? & _) ?? Heq.
  assert (y = y') as -> by nia. lia.
Qed.

Lemma write_pixel_ok fb x y color m :
  fb_ok fb -> 0 <= x < fb_width fb -> 0 <= y < fb_height fb ->
  exists e, encode_pixel (fb_format fb) color = Some e /\
    write_pixel fb x y color m = <[pixel fb x y := e]> m.
Proof.
  intros (? & ? & ? & Hf) ??. unfold write_pixel, pixel, add64, mul64.
  rewrite (as_u64_small (y * _)) by (unfold u64; nia). rewrite as_u64_small by (unfold u64; nia).
  destruct (fb_format fb); [by eexists..|done].
Qed.

(** [m] and [m'] agree off the screen. *)
Definition frame (fb : FramebufferInfo) (m m' : vram) : Prop :=
  forall i, ~ on_screen fb i -> m' !! i = m !! i.

Lemma write_pixel_frame fb x y color m0 m :
  fb_ok fb -> 0 <= x < fb_width fb -> 0 <= y < fb_height fb ->
  frame fb m0 m -> frame fb m0 (write_pixel fb x y color m).
Proof.
  intros Hfb Hx Hy Hm i Hi. destruct (write_pixel_ok fb x y color m) as (e & _ & ->); [done..|].
  rewrite lookup_insert_ne; [by apply Hm|]. intros <-. apply Hi. by exists x, y.
Qed.

Lemma clear_screen_frame g m : fb_ok (info g) -> frame (info g) m (clear_screen g m).
Proof.
  intros Hfb. unfold clear_screen. apply for_range_preserves; [done|]. intros y m1 Hy Hm1.
  apply for_range_preserves; [done|]. intros x m2 Hx Hm2. by apply write_pixel_frame.
Qed.

(** The pixels of a cell are on the screen. *)
Lemma cell_on_screen g col row x y :
  gop_ok g -> 0 <= col < cols g -> 0 <= row < rows g -> 0 <= x < CELL_WIDTH -> 0 <= y < CELL_HEIGHT ->
  mul64 col CELL_WIDTH = col * CELL_WIDTH /\ mul64 row CELL_HEIGHT = row * CELL_HEIGHT /\
  add64 (col * CELL_WIDTH) x = col * CELL_WIDTH + x /\
  add64 (row * CELL_HEIGHT) y = row * CELL_HEIGHT + y /\
  0 <= col * CELL_WIDTH + x < fb_width (info g) /\ 0 <= row * CELL_HEIGHT + y < fb_height (info g).
Proof.
  intros ((Hw & Hh & Hm & _) & Hc & Hr & _) Hcol Hrow Hx Hy.
  change CELL_WIDTH with 17 in *. change CELL_HEIGHT with 32 in *.
  pose proof (Z.mul_div_le (fb_width (info g)) 17 ltac:(lia)).
  pose proof (Z.mul_div_le (fb_height (info g)) 32 ltac:(lia)).
  assert (fb_width (info g) <= U64_MAX /\ fb_height (info g) <= U64_MAX) as [??] by nia.
  unfold mul64, add64. rewrite !as_u64_small by ulia. lia.
Qed.

Lemma clear_cell_frame g col row m0 m :
  gop_ok g -> 0 <= col < cols g -> 0 <= row < rows g ->
  frame (info g) m0 m -> frame (info g) m0 (clear_cell g col row m).
Proof.
  intros Hg Hc Hr Hm. unfold clear_cell. apply for_range_preserves; [done|]. intros y m1 Hy Hm1.
  apply for_range_preserves; [done|]. intros x m2 Hx Hm2.
  destruct (cell_on_screen g col row x y Hg Hc Hr Hx Hy) as (-> & -> & -> & -> & ? & ?).
  apply write_pixel_frame; [apply Hg|done..].
Qed.

(** ** Drawing a glyph *)

(** The pixel writes of [draw_bits], in order. *)
Definition glyph_writes (glyph : list Z) (x0 y0 : Z) : list (Z * Z * Z) :=
  zip (seqZ 0 (zlen glyph)) glyph ≫= fun '(row, bits) =>
  seqZ 0 8 ≫= fun col =>
  seqZ 0 2 ≫= fun dy =>
  seqZ 0 2 ≫= fun dx =>
  [(add64 (add64 x0 (col * 2)) dx, add64 (add64 y0 (row * 2)) dy,
    if negb (Z.land bits (as_u8 (Z.shiftl 1 (7 - col))) =? 0) then FG_COLOR else BG_COLOR)].

Definition write_one (fb : FramebufferInfo) (m : vram) (w : Z * Z * Z) : vram :=
  let '(x, y, color) := w in write_pixel fb x y color m.

Lemma draw_bits_writes fb glyph x0 y0 m :
  draw_bits fb glyph x0 y0 m = foldl (write_one fb) m (glyph_writes glyph x0 y0).
Proof.
  unfold draw_bits, glyph_writes. rewrite foldl_bind. apply foldl_ext_fun. intros s [row bits].
  rewrite foldl_bind. apply foldl_ext_fun. intros s1 col.
  rewrite foldl_bind. apply foldl_ext_fun. intros s2 dy.
  rewrite foldl_bind. apply foldl_ext_fun. done.
Qed.

Lemma glyph_writes_elem glyph x0 y0 x y c :
  (x, y, c) ∈ glyph_writes glyph x0 y0 <->
  exists row bits col dy dx, glyph !! Z.to_nat row = Some bits /\ 0 <= row < zlen glyph /\
    0 <= col < 8 /\ 0 <= dy < 2 /\ 0 <= dx < 2 /\
    x = add64 (add64 x0 (col * 2)) dx /\ y = add64 (add64 y0 (row * 2)) dy /\
    c = if negb (Z.land bits (as_u8 (Z.shiftl 1 (7 - col))) =? 0) then FG_COLOR else BG_COLOR.
Proof.
  unfold glyph_writes. rewrite list_elem_of_bind. split.
  - intros ([row bits] & Hin & Hz). apply list_elem_of_bind in Hin as (col & Hin & Hcol).
    apply list_elem_of_bind in Hin as (dy & Hin & Hdy). apply list_elem_of_bind in Hin as (dx & Hin & Hdx).
    apply list_elem_of_singleton in Hin. simplify_eq.
    apply elem_of_seqZ in Hcol, Hdy, Hdx. apply list_elem_of_lookup in Hz as [i Hi].
    apply lookup_zip_Some in Hi as [Hrow Hbits]. apply lookup_seqZ in Hrow as [-> Hrow].
    exists (0 + Z.of_nat i), bits, col, dy, dx. split_and!; try done; try lia. by rewrite Z.add_0_l, Nat2Z.id.
  - intros (row & bits & col & dy & dx & Hb & Hrow & Hcol & Hdy & Hdx & -> & -> & ->).
    exists (row, bits). split.
    + apply list_elem_of_bind. exists col. split; [|apply elem_of_seqZ; lia].
      apply list_elem_of_bind. exists dy. split; [|apply elem_of_seqZ; lia].
      apply list_elem_of_bind. exists dx. split; [|apply elem_of_seqZ; lia]. by apply list_elem_of_singleton.
    + apply list_elem_of_lookup. exists (Z.to_nat row). apply lookup_zip_Some. split; [|done].
      apply lookup_seqZ. lia.
Qed.

(** A sequence of writes: what no write touches stays, and a pixel all of whose
    writes agree gets their colour. *)
Lemma writes_lookup fb ws m :
  fb_ok fb ->
  (forall x y c, (x, y, c) ∈ ws -> 0 <= x < fb_width fb /\ 0 <= y < fb_height fb) ->
  (forall i, (forall x y c, (x, y, c) ∈ ws -> pixel fb x y <> i) ->
     foldl (write_one fb) m ws !! i = m !! i) /\
  (forall x y c, (x, y, c) ∈ ws -> (forall c', (x, y, c') ∈ ws -> c' = c) ->
     foldl (write_one fb) m ws !! pixel fb x y = encode_pixel (fb_format fb) c).
Proof.
  intros Hfb. induction ws as [|[[x y] c] ws IH] using rev_ind; intros Hws.
  { split; [done|]. intros x y c Hin. by apply elem_of_nil in Hin. }
  destruct IH as [IH1 IH2]; [intros; eapply Hws, elem_of_app; eauto|].
  destruct (Hws x y c) as [Hx Hy]; [apply elem_of_app; right; by apply list_elem_of_singleton|].
  rewrite foldl_app. cbn [foldl write_one].
  destruct (write_pixel_ok fb x y c (foldl (write_one fb) m ws)) as (e & He & ->); [done..|]. split.
  - intros i Hi. rewrite lookup_insert_ne.
    + apply IH1. intros x' y' c' Hin. eapply Hi, elem_of_app. eauto.
    + apply (Hi x y c), elem_of_app. right. by apply list_elem_of_singleton.
  - intros x' y' c' Hin Huniq. destruct (decide (pixel fb x y = pixel fb x' y')) as [Heq|Hne].
    + rewrite Heq, lookup_insert_eq. destruct (Hws x' y' c' Hin) as [Hx' Hy'].
      apply pixel_inj in Heq as [-> ->]; [|done..].
      rewrite <- (Huniq c); [done|]. apply elem_of_app. right. by apply list_elem_of_singleton.
    + rewrite lookup_insert_ne by done. apply elem_of_app in Hin as [Hin|Hin%list_elem_of_singleton];
        [|by simplify_eq].
      apply IH2; [done|]. intros c1 Hc1. apply Huniq, elem_of_app. by left.
Qed.

Lemma zlen_font : zlen FONT = 1456.
Proof. by vm_compute. Qed.

#[local] Opaque FONT.

Lemma glyph_of_ok byte :
  exists glyph, glyph_of byte = Ok glyph /\ zlen glyph = 16 /\
    glyph = slice FONT (16 * Z.min (sat_sub byte 32) 90) (16 * Z.min (sat_sub byte 32) 90 + 16).
Proof.
  unfold glyph_of, FONT_HEIGHT. rewrite zlen_font. change (sat_sub (1456 / 16) 1) with 90.
  set (i := Z.min (sat_sub byte 32) 90). assert (0 <= i <= 90) as Hi by (unfold i, sat_sub; lia). clearbody i.
  rewrite get_slice_ok by (rewrite ?zlen_font; lia).
  replace (i * 16) with (16 * i) by lia. replace ((i + 1) * 16) with (16 * i + 16) by lia.
  eexists. split_and!; [done| |done]. rewrite zlen_slice; rewrite ?zlen_font; lia.
Qed.

(** The writes of a glyph stay in its cell. *)
Lemma glyph_writes_cell g col row glyph x y c :
  gop_ok g -> 0 <= col < cols g -> 0 <= row < rows g -> zlen glyph = 16 ->
  (x, y, c) ∈ glyph_writes glyph (mul64 col CELL_WIDTH) (mul64 row CELL_HEIGHT) ->
  exists r bits i dy dx, glyph !! Z.to_nat r = Some bits /\ 0 <= r < 16 /\ 0 <= i < 8 /\ 0 <= dy < 2 /\
    0 <= dx < 2 /\ x = col * CELL_WIDTH + (i * 2 + dx) /\ y = row * CELL_HEIGHT + (r * 2 + dy) /\
    0 <= x < fb_width (info g) /\ 0 <= y < fb_height (info g) /\
    c = if negb (Z.land bits (as_u8 (Z.shiftl 1 (7 - i))) =? 0) then FG_COLOR else BG_COLOR.
Proof.
  intros Hg Hc Hr Hz Hin. apply glyph_writes_elem in Hin as (r & bits & i & dy & dx & Hb & Hrow & Hi & Hdy & Hdx & -> & -> & ->).
  rewrite Hz in Hrow. exists r, bits, i, dy, dx.
  destruct (cell_on_screen g col row (i * 2 + dx) (r * 2 + dy) Hg Hc Hr) as (-> & -> & Hx & Hy & Hxb & Hyb);
    [unfold CELL_WIDTH, GLYPH_WIDTH, FONT_SCALE_X; lia|unfold CELL_HEIGHT, FONT_HEIGHT, FONT_SCALE_Y; lia|].
  pose proof Hg as ((Hw & Hh & Hm & _) & _).
  assert (fb_width (info g) <= U64_MAX /\ fb_height (info g) <= U64_MAX) as [??]
    by (change CELL_WIDTH with 17 in *; change CELL_HEIGHT with 32 in *; nia).
  unfold add64. rewrite !(as_u64_small (_ * CELL_WIDTH + _)), !(as_u64_small (_ * CELL_HEIGHT + _));
    [|unfold CELL_WIDTH, GLYPH_WIDTH, FONT_SCALE_X, CELL_HEIGHT, FONT_HEIGHT, FONT_SCALE_Y in *; ulia..].
  rewrite !as_u64_small by (unfold CELL_WIDTH, GLYPH_WIDTH, FONT_SCALE_X, CELL_HEIGHT, FONT_HEIGHT, FONT_SCALE_Y in *; ulia).
  split_and!; try done; lia.
Qed.

Lemma draw_glyph_frame g col row glyph m :
  gop_ok g -> 0 <= col < cols g -> 0 <= row < rows g -> zlen glyph = 16 ->
  frame (info g) m (draw_bits (info g) glyph (mul64 col CELL_WIDTH) (mul64 row CELL_HEIGHT) m).
Proof.
  intros Hg Hc Hr Hz i Hi. rewrite draw_bits_writes.
  apply writes_lookup; [apply Hg|..].
  - intros x y c Hin. by destruct (glyph_writes_cell g col row glyph x y c) as (?&?&?&?&?&?&?&?&?&?&?&?&?&?&?).
  - intros x y c Hin Heq. destruct (glyph_writes_cell g col row glyph x y c) as (?&?&?&?&?&?&?&?&?&?&?&?&?&?&?);
      [done..|]. apply Hi. exists x, y. done.
Qed.

(** ** Every byte keeps the console well formed and inside the screen *)

Lemma gop_sizes g : gop_ok g -> 0 < cols g <= U64_MAX - 1 /\ 0 < rows g <= U64_MAX - 1.
Proof.
  intros ((Hw & Hh & Hm & _) & -> & -> & _). change CELL_WIDTH with 17 in *. change CELL_HEIGHT with 32 in *.
  assert (fb_width (info g) <= U64_MAX /\ fb_height (info g) <= U64_MAX) as [??] by nia.
  Z.to_euclidean_division_equations. unfold U64_MAX in *. lia.
Qed.

(** The state after an operation: well formed, same mode, off-screen memory as before. *)
Definition steps_to (g : GopConsole) (m : vram) (r : GopConsole * vram) : Prop :=
  gop_ok (fst r) /\ info (fst r) = info g /\ frame (info g) m (snd r).

Lemma newline_ok g m :
  gop_ok g -> steps_to g m (newline g m) /\ cursor_col (fst (newline g m)) = 0.
Proof.
  intros Hg. pose proof (gop_sizes g Hg). pose proof Hg as (Hfb & Hc & Hr & Hcc & Hcr).
  unfold newline. cbn [set_cursor_row set_cursor_col rows cursor_row info].
  unfold add64. rewrite as_u64_small by ulia.
  destruct (rows g <=? cursor_row g + 1) eqn:E; bool_to_prop; cbn [fst snd].
  - split; [|done]. split_and!; [split_and!; try done; cbn; lia|done|].
    exact (clear_screen_frame (set_cursor_row (cursor_row g + 1) (set_cursor_col 0 g)) m Hfb).
  - split; [|done]. split_and!; [|done|done]. split_and!; try done; cbn; lia.
Qed.

Lemma draw_glyph_ok byte g m :
  gop_ok g -> exists g' m', draw_glyph byte g m = Ok (g', m') /\ steps_to g m (g', m').
Proof.
  intros Hg. unfold draw_glyph. destruct (glyph_of_ok byte) as (glyph & -> & Hz & _).
  set (r := if cols g <=? cursor_col g then newline g m else (g, m)).
  assert (steps_to g m r /\ cursor_col (fst r) < cols (fst r)) as [Hst Hlt].
  { unfold r. destruct (cols g <=? cursor_col g) eqn:E; bool_to_prop.
    - destruct (newline_ok g m Hg) as [Hst ->]. split; [done|]. destruct Hst as [Hok _].
      destruct (gop_sizes _ Hok). lia.
    - split; [by split_and!|]. cbn. lia. }
  destruct r as [g1 m1]. destruct Hst as (Hg1 & Hi1 & Hf1). cbn [fst snd obind] in *.
  pose proof Hg1 as (Hfb & Hc & Hr & Hcc & Hcr). pose proof (gop_sizes g1 Hg1).
  eexists _, _. split; [done|]. split_and!; cbn [fst snd set_cursor_col info].
  - unfold add64. rewrite as_u64_small by ulia. split_and!; try done; cbn; lia.
  - done.
  - intros i Hi. rewrite (draw_glyph_frame g1); [by apply Hf1|done|lia|lia|done|by rewrite Hi1].
Qed.

Lemma steps_to_trans g m g1 m1 r :
  steps_to g m (g1, m1) -> steps_to g1 m1 r -> steps_to g m r.
Proof.
  intros (_ & Hi & Hf) (Hok & Hi' & Hf'). cbn [fst snd] in *. split_and!; [done|congruence|].
  intros i Hoff. rewrite Hf'; [by apply Hf|]. by rewrite Hi.
Qed.

Lemma write_byte_ok byte g m :
  gop_ok g -> exists g' m', write_byte byte g m = Ok (g', m') /\ steps_to g m (g', m').
Proof.
  intros Hg. pose proof Hg as (Hfb & Hc & Hr & Hcc & Hcr). pose proof (gop_sizes g Hg). unfold write_byte.
  destruct (byte =? 0x0c).
  { eexists _, _. split; [done|]. split_and!; [split_and!; try done; cbn; lia|done|by apply clear_screen_frame]. }
  destruct (byte =? 10).
  { destruct (newline_ok g m Hg) as [Hst _]. destruct (newline g m) as [g' m']. by eexists _, _. }
  destruct (byte =? 13); [eexists _, _; split; [done|]; split_and!; [split_and!; try done; cbn; lia|done|done]|].
  destruct (_ || _).
  { unfold backspace. destruct (0 <? cursor_col g) eqn:E; bool_to_prop; [|by eexists _, _].
    eexists _, _. split; [done|].
    assert (gop_ok (set_cursor_col (cursor_col g - 1) g)) as Hg' by (split_and!; try done; cbn; lia).
    split_and!; [done|done|]. apply (clear_cell_frame _ _ _ m m Hg'); cbn; [lia|lia|done]. }
  destruct (byte =? 9); [|destruct (_ && _); by apply draw_glyph_ok].
  destruct (draw_glyph_ok 32 g m Hg) as (g1 & m1 & -> & H1). cbn [obind].
  destruct (draw_glyph_ok 32 g1 m1) as (g2 & m2 & -> & H2); [apply H1|]. cbn [obind].
  destruct (draw_glyph_ok 32 g2 m2) as (g3 & m3 & -> & H3); [apply H2|]. cbn [obind].
  destruct (draw_glyph_ok 32 g3 m3) as (g4 & m4 & -> & H4); [apply H3|].
  eauto 10 using steps_to_trans.
Qed.

(** ** Theorems *)

(** C13: the console never writes outside the screen.  Created on any mode whose
    framebuffer does not wrap the address space, it accepts any byte sequence without
    an out-of-range index; the cursor stays on the grid; and only pixels inside
    [width] x [height] change, whatever the stride. *)
Theorem console_stays_on_screen fb m0 g m1 buf :
  fb_ok fb -> new_console (Some fb) m0 = (Some g, m1) ->
  exists g' m', write_bytes buf (Some g) m1 = Ok (Some g', m') /\ gop_ok g' /\
    (forall i, ~ on_screen fb i -> m' !! i = m0 !! i).
Proof.
  intros Hfb Hnew. unfold new_console in Hnew. do 2 (case_match; [done|]). injection Hnew as <- <-.
  set (g := mkGopConsole fb 0 0 (fb_width fb / CELL_WIDTH) (fb_height fb / CELL_HEIGHT)).
  assert (gop_ok g) as Hg.
  { pose proof Hfb as ((Hw & _) & Hh & _). unfold g. split_and!; try done; cbn [cursor_col cursor_row cols rows];
      [change CELL_WIDTH with 17 in *; apply Z.div_pos; lia|].
    change CELL_HEIGHT with 32 in *. pose proof (Z.div_le_mono 32 (fb_height fb) 32 ltac:(lia) Hh). change (32 / 32) with 1 in *. lia. }
  pose proof (clear_screen_frame g m0 Hfb) as Hcs. change (info g) with fb in Hcs.
  assert (forall buf g m, gop_ok g -> exists g' m', write_buf buf g m = Ok (g', m') /\ steps_to g m (g', m')) as Hrun.
  { clear. induction buf as [|b buf IH]; intros g m Hg; cbn [write_buf]; [by eexists _, _|].
    destruct (write_byte_ok b g m Hg) as (g1 & m1 & -> & H1). cbn [obind].
    destruct (IH g1 m1) as (g2 & m2 & -> & H2); [apply H1|]. eauto using steps_to_trans. }
  destruct (Hrun buf g (clear_screen g m0) Hg) as (g' & m' & Hw & Hok & Hi & Hf). exists g', m'.
  unfold write_bytes. rewrite Hw. cbn [obind fst snd] in *. split_and!; [done|done|].
  intros i Hoff. rewrite Hf by done. by apply Hcs.
Qed.

Module FbDemo.
Definition mode : FramebufferInfo := mkFramebufferInfo 0 64 64 80 Bgr.
Definition console : GopConsole := mkGopConsole mode 0 0 3 2.
End FbDemo.

Lemma console_stays_on_screen_witness :
  exists g' m', write_bytes [72; 105; 10; 8; 9; 200] (Some FbDemo.console) (clear_screen FbDemo.console ∅)
    = Ok (Some g', m') /\ gop_ok g' /\
    (forall i, ~ on_screen FbDemo.mode i -> m' !! i = (∅ : vram) !! i).
Proof. apply (console_stays_on_screen FbDemo.mode ∅); [split_and!; done|done]. Defined.

(** The address of a glyph pixel, free of wrap-around. *)
Lemma glyph_pixel g r c dx dy :
  gop_ok g -> cursor_col g < cols g -> 0 <= r < 16 -> 0 <= c < 8 -> 0 <= dx < 2 -> 0 <= dy < 2 ->
  cursor_col g * CELL_WIDTH + (c * 2 + dx) = add64 (add64 (mul64 (cursor_col g) CELL_WIDTH) (c * 2)) dx /\
  cursor_row g * CELL_HEIGHT + (r * 2 + dy) = add64 (add64 (mul64 (cursor_row g) CELL_HEIGHT) (r * 2)) dy.
Proof.
  intros Hg Hcol Hr Hc Hdx Hdy. pose proof Hg as (Hfb & _ & _ & Hcc & Hcr).
  destruct (cell_on_screen g (cursor_col g) (cursor_row g) (c * 2 + dx) (r * 2 + dy) Hg) as (-> & -> & _ & _ & Hxb & Hyb);
    [lia|lia|change CELL_WIDTH with 17; lia|change CELL_HEIGHT with 32; lia|].
  destruct Hfb as ((Hw & Hws) & Hh & Hm & _). change CELL_WIDTH with 17 in *. change CELL_HEIGHT with 32 in *.
  assert (fb_width (info g) <= U64_MAX /\ fb_height (info g) <= U64_MAX) as [??] by nia.
  unfold add64. rewrite (as_u64_small (cursor_col g * 17 + c * 2)), (as_u64_small (cursor_row g * 32 + r * 2)) by ulia.
  rewrite !as_u64_small by ulia. lia.
Qed.

(** A character is drawn as its glyph.  Written at a cursor inside the grid, a
    character from space to 'z' sets every pixel of its cell's 16 x 32 glyph area to
    the foreground or background colour as its font row says, changes no pixel
    outside that area, and moves the cursor one column on. *)
Theorem glyph_is_drawn g m byte r c dx dy bits :
  gop_ok g -> cursor_col g < cols g -> 32 <= byte <= 122 ->
  0 <= r < 16 -> 0 <= c < 8 -> 0 <= dx < 2 -> 0 <= dy < 2 ->
  FONT !! Z.to_nat (16 * (byte - 32) + r) = Some bits ->
  exists g' m', write_byte byte g m = Ok (g', m') /\ g' = set_cursor_col (cursor_col g + 1) g /\
    m' !! pixel (info g) (cursor_col g * CELL_WIDTH + (c * 2 + dx)) (cursor_row g * CELL_HEIGHT + (r * 2 + dy))
      = encode_pixel (fb_format (info g))
          (if negb (Z.land bits (as_u8 (Z.shiftl 1 (7 - c))) =? 0) then FG_COLOR else BG_COLOR) /\
    (forall i, (forall x y, 0 <= x < 16 -> 0 <= y < 32 ->
       i <> pixel (info g) (cursor_col g * CELL_WIDTH + x) (cursor_row g * CELL_HEIGHT + y)) ->
     m' !! i = m !! i).
Proof.
  intros Hg Hcol Hb Hr Hc Hdx Hdy Hbits. pose proof Hg as (Hfb & _ & _ & Hcc & Hcr). pose proof (gop_sizes g Hg).
  assert (write_byte byte g m = draw_glyph byte g m) as ->.
  { unfold write_byte. guard_false (byte =? 0x0c). guard_false (byte =? 10). guard_false (byte =? 13).
    guard_false ((byte =? 0x08) || (byte =? 0x7f)). guard_false (byte =? 9).
    by guard_true ((0x20 <=? byte) && (byte <=? 0x7e)). }
  unfold draw_glyph. guard_false (cols g <=? cursor_col g).
  destruct (glyph_of_ok byte) as (glyph & -> & Hz & Hgl). cbn [obind].
  replace (Z.min (sat_sub byte 32) 90) with (byte - 32) in Hgl by (unfold sat_sub; lia).
  assert (glyph !! Z.to_nat r = Some bits) as Hrow.
  { rewrite Hgl. unfold slice, ztake, zdrop. rewrite lookup_take_lt by lia. rewrite lookup_drop, <- Hbits. f_equal. lia. }
  eexists _, _. split; [done|]. split; [unfold add64; by rewrite as_u64_small by ulia|].
  rewrite draw_bits_writes.
  destruct (writes_lookup (info g) (glyph_writes glyph (mul64 (cursor_col g) CELL_WIDTH) (mul64 (cursor_row g) CELL_HEIGHT)) m)
    as [Hout Hin]; [done| |].
  { intros x y c0 Hi. by destruct (glyph_writes_cell g (cursor_col g) (cursor_row g) glyph x y c0 Hg ltac:(lia) ltac:(lia) Hz Hi)
      as (?&?&?&?&?&?&?&?&?&?&?&?&?&?&?). }
  split.
  - apply Hin.
    + apply glyph_writes_elem. exists r, bits, c, dy, dx.
      destruct (glyph_pixel g r c dx dy Hg Hcol Hr Hc Hdx Hdy) as [Hx Hy].
      rewrite Hz. split_and!; try done; lia.
    + intros c' Hc'. destruct (glyph_writes_cell g (cursor_col g) (cursor_row g) glyph _ _ _ Hg ltac:(lia) ltac:(lia) Hz Hc')
        as (r' & bits' & i' & dy' & dx' & Hb' & ? & ? & ? & ? & Hx & Hy & _ & _ & ->).
      assert (i' = c /\ r' = r) as [-> ->] by lia. rewrite Hrow in Hb'. by simplify_eq.
  - intros i Hi. apply Hout. intros x y c0 Hw.
    destruct (glyph_writes_cell g (cursor_col g) (cursor_row g) glyph x y c0 Hg ltac:(lia) ltac:(lia) Hz Hw)
      as (r' & bits' & i' & dy' & dx' & Hb' & ? & ? & ? & ? & -> & -> & _). intros Heq. eapply Hi; [| |by symmetry]; lia.
Qed.

Lemma glyph_is_drawn_witness :
  exists g' m', write_byte 65 FbDemo.console ∅ = Ok (g', m') /\ g' = set_cursor_col 1 FbDemo.console /\
    m' !! 8 = encode_pixel Bgr BG_COLOR /\
    (forall i, (forall x y, 0 <= x < 16 -> 0 <= y < 32 -> i <> pixel FbDemo.mode (0 * CELL_WIDTH + x) (0 * CELL_HEIGHT + y)) ->
     m' !! i = (∅ : vram) !! i).
Proof.
  apply (glyph_is_drawn FbDemo.console ∅ 65 0 4 0 0 0); [split_and!; done|done..].
Defined.

(** The font stops at 'z': the four characters after it, braces, bar and tilde, are
    all drawn as 'z'. *)
Theorem font_lacks_braces byte g m :
  123 <= byte <= 126 -> write_byte byte g m = write_byte 122 g m.
Proof.
  intros Hb. unfold write_byte. guard_false (byte =? 0x0c). guard_false (byte =? 10). guard_false (byte =? 13).
  guard_false ((byte =? 0x08) || (byte =? 0x7f)). guard_false (byte =? 9).
  guard_true ((0x20 <=? byte) && (byte <=? 0x7e)). cbn [Z.eqb Pos.eqb Z.leb Z.compare Pos.compare Pos.compare_cont orb andb].
  unfold draw_glyph, glyph_of. rewrite zlen_font. change (sat_sub (1456 / FONT_HEIGHT) 1) with 90.
  replace (Z.min (sat_sub byte 32) 90) with 90 by (unfold sat_sub; lia). done.
Qed.

Lemma font_lacks_braces_witness : write_byte 123 FbDemo.console ∅ = write_byte 122 FbDemo.console ∅.
Proof. by apply font_lacks_braces. Defined.
