(* ===== verification/TaskQueue.v ===== *)
(** * Task queues of the scheduler: operations

    kernel/src/scheduler/task/mod.rs: task handles and task control blocks, the two
    priority queues (of handles, for tasks that wait for a lock, and of tasks that are
    ready) and the list of blocked tasks ordered by wake-up time.  A reference
    [Rc<RefCell<Task>>] is an index into a heap of tasks. *)

From S2P Require Import Prelude.

(** [NonZeroU64::new(n).map(|n| u64::BITS - 1 - n.leading_zeros())] *)
Definition msb (n : Z) : option Z := if n =? 0 then None else Some (Z.log2 n).

Inductive TaskStatus :=
  | Invalid
  | Ready
  | Running
  | Blocked
  | Finished
  | Idle.

#[export] Instance TaskStatus_eq_dec : EqDecision TaskStatus.
Proof. solve_decision. Defined.

Definition HIGH_PRIO : Z := 3.
Definition NORMAL_PRIO : Z := 2.
Definition LOW_PRIO : Z := 1.
Definition IDLE_PRIO : Z := 0.
Definition NO_PRIORITIES : Z := 31.

Record TaskHandle := mkTaskHandle {
  th_id : Z;
  th_priority : Z;
  th_core_id : Z;
}.

#[export] Instance TaskHandle_eq_dec : EqDecision TaskHandle.
Proof. solve_decision. Defined.

(** Of a task control block: what the scheduler looks at. *)
Record Task := mkTask {
  t_id : Z;
  t_status : TaskStatus;
  t_prio : Z;
  t_core_id : Z;
}.

Definition set_status (st : TaskStatus) (t : Task) : Task := mkTask (t_id t) st (t_prio t) (t_core_id t).
Definition set_prio (p : Z) (t : Task) : Task := mkTask (t_id t) (t_status t) p (t_core_id t).

Abbreviation TaskRef := nat.

(** [(1 << i) as u64]: the literal is an [i32], and a shift by more than 31 is masked. *)
Definition prio_bit (i : Z) : Z :=
  let v := Z.shiftl 1 (Z.land i 31) in as_u64 (if v <=? I32_MAX then v else v - 4294967296).

(** [bitmap & !(1 << i as u64)] *)
Definition clear_bit (bitmap i : Z) : Z := Z.ldiff bitmap (Z.shiftl 1 (Z.land i 63)).

(** ** Handles by priority *)

Record TaskHandlePriorityQueue := mkHandleQueue {
  hq_queues : list (option (list TaskHandle));
  hq_bitmap : Z;
}.

Definition hq_new : TaskHandlePriorityQueue := mkHandleQueue (replicate 31 None) 0.

Definition hq_is_empty (q : TaskHandlePriorityQueue) : bool := hq_bitmap q =? 0.

Definition hq_contains (q : TaskHandlePriorityQueue) (task : TaskHandle) : outcome unit bool :=
  match hq_queues q !! Z.to_nat (th_priority task) with
  | None => Panic
  | Some None => Ok false
  | Some (Some queue) => Ok (existsb (fun queued => th_id queued =? th_id task) queue)
  end.

Definition hq_push (q : TaskHandlePriorityQueue) (task : TaskHandle) : outcome unit TaskHandlePriorityQueue :=
  let i := Z.to_nat (th_priority task) in
  let bitmap := Z.lor (hq_bitmap q) (prio_bit (th_priority task)) in
  match hq_queues q !! i with
  | None => Panic
  | Some (Some queue) => Ok (mkHandleQueue (<[i := Some (queue ++ [task])]> (hq_queues q)) bitmap)
  | Some None => Ok (mkHandleQueue (<[i := Some [task]]> (hq_queues q)) bitmap)
  end.

Definition hq_pop_from_queue (q : TaskHandlePriorityQueue) (queue_index : Z)
    : outcome unit (TaskHandlePriorityQueue * option TaskHandle) :=
  let i := Z.to_nat queue_index in
  match hq_queues q !! i with
  | None => Panic
  | Some None => Ok (q, None)
  | Some (Some queue) =>
      let rest := tail queue in
      Ok (mkHandleQueue (<[i := Some rest]> (hq_queues q))
            (if bool_decide (rest = []) then clear_bit (hq_bitmap q) queue_index else hq_bitmap q),
          head queue)
  end.

Definition hq_pop (q : TaskHandlePriorityQueue) : outcome unit (TaskHandlePriorityQueue * option TaskHandle) :=
  match msb (hq_bitmap q) with
  | None => Ok (q, None)
  | Some i => hq_pop_from_queue q i
  end.

(** The loop over [queue] removes every entry with the id of [task]. *)
Definition hq_remove (q : TaskHandlePriorityQueue) (task : TaskHandle) : outcome unit (TaskHandlePriorityQueue * bool) :=
  let i := Z.to_nat (th_priority task) in
  match hq_queues q !! i with
  | None => Panic
  | Some None => Ok (q, false)
  | Some (Some queue) =>
      let rest := List.filter (fun queued => negb (th_id queued =? th_id task)) queue in
      Ok (mkHandleQueue (<[i := Some rest]> (hq_queues q))
            (if bool_decide (rest = []) then clear_bit (hq_bitmap q) (th_priority task) else hq_bitmap q),
          existsb (fun queued => th_id queued =? th_id task) queue)
  end.

(** ** Ready tasks by priority *)

Record PriorityTaskQueue := mkTaskQueue {
  pq_queues : list (list TaskRef);
  pq_bitmap : Z;
}.

Definition pq_new : PriorityTaskQueue := mkTaskQueue (replicate 31 []) 0.

(** [push] of a task whose control block holds priority [prio]. *)
Definition pq_push (prio : Z) (task : TaskRef) (q : PriorityTaskQueue) : outcome unit PriorityTaskQueue :=
  let i := Z.to_nat prio in
  match pq_queues q !! i with
  | None => Panic
  | Some queue => Ok (mkTaskQueue (<[i := queue ++ [task]]> (pq_queues q)) (Z.lor (pq_bitmap q) (prio_bit prio)))
  end.

Definition pq_pop_from_queue (queue_index : Z) (q : PriorityTaskQueue)
    : outcome unit (PriorityTaskQueue * option TaskRef) :=
  let i := Z.to_nat queue_index in
  match pq_queues q !! i with
  | None => Panic
  | Some queue =>
      let rest := tail queue in
      Ok (mkTaskQueue (<[i := rest]> (pq_queues q))
            (if bool_decide (rest = []) then clear_bit (pq_bitmap q) queue_index else pq_bitmap q),
          head queue)
  end.

(** [split_off], [pop_front], [append]. *)
Definition pq_remove_from_queue (task_index queue_index : Z) (q : PriorityTaskQueue)
    : outcome unit (PriorityTaskQueue * option TaskRef) :=
  let i := Z.to_nat queue_index in
  match pq_queues q !! i with
  | None => Panic
  | Some queue =>
      if zlen queue <? task_index then Ok (q, None) else
      let split_list := zdrop task_index queue in
      let queue := ztake task_index queue ++ tail split_list in
      Ok (mkTaskQueue (<[i := queue]> (pq_queues q))
            (if bool_decide (queue = []) then clear_bit (pq_bitmap q) queue_index else pq_bitmap q),
          head split_list)
  end.

Definition pq_is_empty (q : PriorityTaskQueue) : bool := pq_bitmap q =? 0.

Definition pq_pop (q : PriorityTaskQueue) : outcome unit (PriorityTaskQueue * option TaskRef) :=
  match msb (pq_bitmap q) with
  | None => Ok (q, None)
  | Some i => pq_pop_from_queue i q
  end.

Definition pq_pop_with_prio (prio : Z) (q : PriorityTaskQueue) : outcome unit (PriorityTaskQueue * option TaskRef) :=
  match msb (pq_bitmap q) with
  | None => Ok (q, None)
  | Some i => if i <? prio then Ok (q, None) else pq_pop_from_queue i q
  end.

Definition pq_get_highest_priority (q : PriorityTaskQueue) : Z := default IDLE_PRIO (msb (pq_bitmap q)).

(** ** Blocked tasks *)

Record BlockedTask := mkBlockedTask {
  bt_task : TaskRef;
  bt_wakeup_time : option Z;
}.

(** The cursor loop of [add]: in front of the first task that sleeps longer or for good. *)
Fixpoint insert_blocked (node : BlockedTask) (wt : Z) (l : list BlockedTask) : list BlockedTask :=
  match l with
  | [] => [node]
  | b :: l' =>
      if match bt_wakeup_time b with None => true | Some t => wt <? t end then node :: l
      else b :: insert_blocked node wt l'
  end.

Definition min_opt (a b : option Z) : option Z :=
  match a, b with
  | Some a, Some b => Some (Z.min a b)
  | Some a, None => Some a
  | None, b => b
  end.

(** The wake-up time of the first node. *)
Definition front_time (l : list BlockedTask) : option Z := match l with [] => None | b :: _ => bt_wakeup_time b end.

Definition elapsed (time : Z) (b : BlockedTask) : bool :=
  match bt_wakeup_time b with Some t => t <? time | None => false end.
