(* ===== verification/TaskQueueTheorems.v ===== *)
(** * Task queues of the scheduler: theorems

    The bitmap of a priority queue says which of its lists are nonempty; both priority
    queues are, under every sequence of operations, the list of waiting tasks in order of
    arrival, from which the oldest of the highest priority is taken. *)

From S2P Require Import Prelude TaskQueue.

(** ** Bitmaps *)

(** Bit [i] of the bitmap tells whether list [i] is nonempty; there are 31 lists. *)
Definition bitmap_ok {A} (qs : Z -> list A) (bm : Z) : Prop :=
  0 <= bm /\ forall i, 0 <= i -> Z.testbit bm i = negb (bool_decide (qs i = [])) /\ (NO_PRIORITIES <= i -> qs i = []).

Lemma bitmap_set {A} (qs qs' : Z -> list A) bm p :
  bitmap_ok qs bm -> 0 <= p < NO_PRIORITIES -> qs' p <> [] -> (forall i, i <> p -> qs' i = qs i) ->
  bitmap_ok qs' (Z.lor bm (prio_bit p)).
Proof.
  intros [Hb Hi] Hp Hne Hq. unfold NO_PRIORITIES in *.
  assert (prio_bit p = 2 ^ p) as ->.
  { unfold prio_bit, I32_MAX. change 31 with (Z.ones 5). rewrite Z.land_ones by lia.
    rewrite (Z.mod_small p) by (change (2 ^ 5) with 32; lia). rewrite Z.shiftl_1_l.
    assert (0 < 2 ^ p <= 2 ^ 30) by (split; [lia|apply Z.pow_le_mono_r; lia]).
    guard_true (2 ^ p <=? 2147483647). apply Z.mod_small. lia. }
  pose proof (Z.pow_pos_nonneg 2 p ltac:(lia) ltac:(lia)). split; [apply Z.lor_nonneg; lia|]. intros i Hi0.
  rewrite Z.lor_spec, Z.pow2_bits_eqb by lia. destruct (decide (i = p)) as [->|Hn].
  - rewrite Z.eqb_refl, orb_true_r, bool_decide_eq_false_2 by done. split; [done|unfold NO_PRIORITIES in *; lia].
  - rewrite Hq by done. replace (p =? i) with false by lia. rewrite orb_false_r. by apply Hi.
Qed.

Lemma bitmap_clear {A} (qs qs' : Z -> list A) bm p :
  bitmap_ok qs bm -> 0 <= p < NO_PRIORITIES -> qs' p = [] -> (forall i, i <> p -> qs' i = qs i) ->
  bitmap_ok qs' (clear_bit bm p).
Proof.
  intros [Hb Hi] Hp He Hq. unfold NO_PRIORITIES, clear_bit in *.
  change 63 with (Z.ones 6). rewrite Z.land_ones, (Z.mod_small p) by (change (2 ^ 6) with 64; lia).
  split; [apply Z.ldiff_nonneg; by left|]. intros i Hi0. rewrite Z.ldiff_spec, Z.shiftl_1_l, Z.pow2_bits_eqb by lia.
  destruct (decide (i = p)) as [->|Hn].
  - rewrite Z.eqb_refl, andb_false_r, bool_decide_eq_true_2 by done. split; [done|unfold NO_PRIORITIES in *; lia].
  - rewrite Hq by done. replace (p =? i) with false by lia. rewrite andb_true_r. by apply Hi.
Qed.

Lemma bitmap_same {A} (qs qs' : Z -> list A) bm p :
  bitmap_ok qs bm -> 0 <= p < NO_PRIORITIES -> qs p <> [] -> qs' p <> [] -> (forall i, i <> p -> qs' i = qs i) -> bitmap_ok qs' bm.
Proof.
  intros [Hb Hi] Hp Hn Hn' Hq. split; [done|]. intros i Hi0. destruct (decide (i = p)) as [->|Hne]; [|by rewrite Hq; auto].
  destruct (Hi p Hi0) as [-> _]. rewrite !bool_decide_eq_false_2 by done. split; [done|unfold NO_PRIORITIES in *; lia].
Qed.

(** [msb] finds the nonempty list of the highest priority. *)
Lemma bitmap_msb {A} (qs : Z -> list A) bm :
  bitmap_ok qs bm ->
  match msb bm with
  | None => forall i, 0 <= i -> qs i = []
  | Some m => 0 <= m < NO_PRIORITIES /\ qs m <> [] /\ forall j, m < j -> qs j = []
  end.
Proof.
  intros [Hb Hi]. unfold msb. destruct (bm =? 0) eqn:E; bool_to_prop.
  - subst bm. intros i Hi0. destruct (Hi i Hi0) as [Ht _]. rewrite Z.bits_0 in Ht. symmetry in Ht. by bool_to_prop.
  - pose proof (Z.log2_nonneg bm). assert (qs (Z.log2 bm) <> []) as Hne.
    { destruct (Hi (Z.log2 bm) ltac:(done)) as [Ht _]. rewrite Z.bit_log2 in Ht by lia. symmetry in Ht. by bool_to_prop. }
    split; [|split; [done|]].
    + split; [done|]. destruct (decide (Z.log2 bm < NO_PRIORITIES)); [done|]. exfalso. apply Hne, Hi; lia.
    + intros j Hj. destruct (Hi j ltac:(lia)) as [Ht _]. rewrite Z.bits_above_log2 in Ht by lia. symmetry in Ht. by bool_to_prop.
Qed.

(** ** Ready tasks *)

Definition queue_at (q : PriorityTaskQueue) (i : Z) : list TaskRef :=
  if 0 <=? i then default [] (pq_queues q !! Z.to_nat i) else [].

Definition pq_ok (q : PriorityTaskQueue) : Prop :=
  length (pq_queues q) = 31%nat /\ bitmap_ok (queue_at q) (pq_bitmap q).

Lemma queue_lookup q i : pq_ok q -> 0 <= i < NO_PRIORITIES -> pq_queues q !! Z.to_nat i = Some (queue_at q i).
Proof.
  unfold NO_PRIORITIES. intros [Hl _] Hi. unfold queue_at. guard_true (0 <=? i).
  destruct (lookup_lt_is_Some_2 (pq_queues q) (Z.to_nat i)) as [l Hx]; [lia|]. by rewrite Hx.
Qed.

Lemma queue_insert q i l bm j :
  pq_ok q -> 0 <= i < NO_PRIORITIES ->
  queue_at (mkTaskQueue (<[Z.to_nat i := l]> (pq_queues q)) bm) j = if j =? i then l else queue_at q j.
Proof.
  unfold NO_PRIORITIES. intros [Hl _] Hi. unfold queue_at. cbn [pq_queues]. destruct (j =? i) eqn:E; bool_to_prop.
  - subst j. guard_true (0 <=? i). rewrite list_lookup_insert_eq by lia. done.
  - destruct (0 <=? j) eqn:Ej; [|done]. bool_to_prop. rewrite list_lookup_insert_ne by lia. done.
Qed.

Lemma pq_new_ok : pq_ok pq_new.
Proof.
  split; [done|]. split; [done|]. intros i Hi. unfold queue_at, pq_new. cbn [pq_queues pq_bitmap]. guard_true (0 <=? i).
  rewrite Z.bits_0. destruct (replicate 31 [] !! Z.to_nat i) as [l|] eqn:E; [|done]. apply lookup_replicate in E as [-> _]. done.
Qed.

Lemma pq_push_spec q prio r :
  pq_ok q -> 0 <= prio < NO_PRIORITIES ->
  exists q', pq_push prio r q = Ok q' /\ pq_ok q' /\
    forall i, queue_at q' i = if i =? prio then queue_at q prio ++ [r] else queue_at q i.
Proof.
  intros Hq Hp. unfold pq_push. rewrite (queue_lookup q prio Hq Hp).
  set (q' := mkTaskQueue _ _). exists q'.
  assert (forall i, queue_at q' i = if i =? prio then queue_at q prio ++ [r] else queue_at q i) as Hat by (intros i; by apply queue_insert).
  split; [done|]. split; [|done]. destruct Hq as [Hl Hb]. split; [unfold q'; cbn; by rewrite length_insert|].
  apply (bitmap_set (queue_at q)); try done.
  - rewrite Hat, Z.eqb_refl. by destruct (queue_at q prio).
  - intros i Hi. rewrite Hat. by replace (i =? prio) with false by lia.
Qed.

(** Taking something out of list [i], which was not empty. *)
Lemma pq_shrink q i l :
  pq_ok q -> 0 <= i < NO_PRIORITIES -> queue_at q i <> [] ->
  pq_ok (mkTaskQueue (<[Z.to_nat i := l]> (pq_queues q)) (if bool_decide (l = []) then clear_bit (pq_bitmap q) i else pq_bitmap q)).
Proof.
  intros Hq Hi Hne. pose proof Hq as [Hl Hb]. split; [cbn; by rewrite length_insert|]. cbn [pq_bitmap].
  assert (forall bm j, j <> i -> queue_at (mkTaskQueue (<[Z.to_nat i := l]> (pq_queues q)) bm) j = queue_at q j) as Hn.
  { intros bm j Hj. rewrite queue_insert by done. by replace (j =? i) with false by lia. }
  assert (forall bm, queue_at (mkTaskQueue (<[Z.to_nat i := l]> (pq_queues q)) bm) i = l) as Hi'.
  { intros bm. by rewrite queue_insert, Z.eqb_refl. }
  case_bool_decide; [apply (bitmap_clear (queue_at q)); auto; by rewrite Hi'|].
  apply (bitmap_same (queue_at q) _ _ i); auto. by rewrite Hi'.
Qed.

(** The oldest task of the highest priority is gone, the rest is as before. *)
Definition popped (q : PriorityTaskQueue) (i : Z) (r : TaskRef) (q' : PriorityTaskQueue) : Prop :=
  0 <= i < NO_PRIORITIES /\ (forall j, i < j -> queue_at q j = []) /\ pq_ok q' /\
  exists rest, queue_at q i = r :: rest /\ forall j, queue_at q' j = if j =? i then rest else queue_at q j.

Lemma pq_pop_from_spec q m :
  pq_ok q -> 0 <= m < NO_PRIORITIES -> queue_at q m <> [] -> (forall j, m < j -> queue_at q j = []) ->
  exists r q', pq_pop_from_queue m q = Ok (q', Some r) /\ popped q m r q'.
Proof.
  intros Hq Hm Hne Hhigh. unfold pq_pop_from_queue. rewrite (queue_lookup q m Hq Hm).
  pose proof (pq_shrink q m (tail (queue_at q m)) Hq Hm Hne) as Hok.
  destruct (queue_at q m) as [|r rest] eqn:E; [done|]. cbn [tail head] in *. exists r. eexists. split; [reflexivity|].
  split; [done|]. split; [done|]. split; [exact Hok|]. exists rest. split; [done|]. intros j. by apply queue_insert.
Qed.

Lemma pq_pop_spec q :
  pq_ok q ->
  (forall i, 0 <= i -> queue_at q i = []) /\ pq_pop q = Ok (q, None) \/
  exists i r q', pq_pop q = Ok (q', Some r) /\ popped q i r q'.
Proof.
  intros Hq. pose proof (bitmap_msb _ _ (proj2 Hq)) as Hm. unfold pq_pop. destruct (msb (pq_bitmap q)) as [m|]; [right|by left].
  destruct Hm as (Hm & Hne & Hhigh). destruct (pq_pop_from_spec q m Hq Hm Hne Hhigh) as (r & q' & E & Hp). eauto.
Qed.

Lemma pq_pop_with_prio_spec q prio :
  pq_ok q ->
  (forall i, 0 <= i -> prio <= i -> queue_at q i = []) /\ pq_pop_with_prio prio q = Ok (q, None) \/
  exists i r q', pq_pop_with_prio prio q = Ok (q', Some r) /\ prio <= i /\ popped q i r q'.
Proof.
  intros Hq. pose proof (bitmap_msb _ _ (proj2 Hq)) as Hm. unfold pq_pop_with_prio.
  destruct (msb (pq_bitmap q)) as [m|]; [|left; auto]. destruct Hm as (Hm & Hne & Hhigh).
  destruct (m <? prio) eqn:E; bool_to_prop.
  - left. split; [|done]. intros i Hi Hp. apply Hhigh. lia.
  - right. destruct (pq_pop_from_spec q m Hq Hm Hne Hhigh) as (r & q' & E' & Hp). exists m, r, q'. split; [done|]. split; [lia|done].
Qed.

Lemma pq_remove_spec q prio i r :
  pq_ok q -> 0 <= prio < NO_PRIORITIES -> 0 <= i -> queue_at q prio !! Z.to_nat i = Some r ->
  exists q', pq_remove_from_queue i prio q = Ok (q', Some r) /\ pq_ok q' /\
    forall j, queue_at q' j = if j =? prio then ztake i (queue_at q prio) ++ zdrop (i + 1) (queue_at q prio) else queue_at q j.
Proof.
  intros Hq Hp Hi Hr. unfold pq_remove_from_queue. rewrite (queue_lookup q prio Hq Hp).
  pose proof (lookup_lt_Some _ _ _ Hr) as Hlt. replace (zlen (queue_at q prio) <? i) with false by (unfold zlen; lia).
  assert (zdrop i (queue_at q prio) = r :: zdrop (i + 1) (queue_at q prio)) as Ed.
  { unfold zdrop. rewrite Z2Nat.inj_add by lia. rewrite (drop_S _ r) by done. by rewrite Nat.add_1_r. }
  rewrite Ed. cbn [tail head]. eexists. split; [reflexivity|]. split; [|intros j; by apply queue_insert].
  apply pq_shrink; [done|done|]. intros E. rewrite E in Hlt. cbn in Hlt. lia.
Qed.

(** ** Handles *)

Definition lane (q : TaskHandlePriorityQueue) (i : Z) : list TaskHandle :=
  if 0 <=? i then default [] (mjoin (hq_queues q !! Z.to_nat i)) else [].

Definition hq_ok (q : TaskHandlePriorityQueue) : Prop :=
  length (hq_queues q) = 31%nat /\ bitmap_ok (lane q) (hq_bitmap q).

Lemma lane_lookup q i : hq_ok q -> 0 <= i < NO_PRIORITIES ->
  exists o, hq_queues q !! Z.to_nat i = Some o /\ lane q i = default [] o.
Proof.
  unfold NO_PRIORITIES. intros [Hl _] Hi. unfold lane. guard_true (0 <=? i).
  destruct (lookup_lt_is_Some_2 (hq_queues q) (Z.to_nat i)) as [o Hx]; [lia|]. exists o. by rewrite Hx.
Qed.

Lemma lane_insert q i l bm j :
  hq_ok q -> 0 <= i < NO_PRIORITIES ->
  lane (mkHandleQueue (<[Z.to_nat i := Some l]> (hq_queues q)) bm) j = if j =? i then l else lane q j.
Proof.
  unfold NO_PRIORITIES. intros [Hl _] Hi. unfold lane. cbn [hq_queues]. destruct (j =? i) eqn:E; bool_to_prop.
  - subst j. guard_true (0 <=? i). rewrite list_lookup_insert_eq by lia. done.
  - destruct (0 <=? j) eqn:Ej; [|done]. bool_to_prop. rewrite list_lookup_insert_ne by lia. done.
Qed.

Lemma hq_new_ok : hq_ok hq_new /\ forall i, lane hq_new i = [].
Proof.
  assert (forall i, lane hq_new i = []) as Hl.
  { intros i. unfold lane, hq_new. cbn [hq_queues]. destruct (0 <=? i); [|done].
    destruct (replicate 31 None !! Z.to_nat i) as [l|] eqn:E; [|done]. apply lookup_replicate in E as [-> _]. done. }
  split; [|done]. split; [done|]. split; [done|]. intros i Hi. rewrite Hl. cbn [hq_new hq_bitmap]. by rewrite Z.bits_0.
Qed.

(** [l] in place of lane [i], with the bitmap of the code. *)
Lemma hq_shrink q i l :
  hq_ok q -> 0 <= i < NO_PRIORITIES -> (lane q i = [] -> l = []) ->
  hq_ok (mkHandleQueue (<[Z.to_nat i := Some l]> (hq_queues q)) (if bool_decide (l = []) then clear_bit (hq_bitmap q) i else hq_bitmap q)).
Proof.
  intros Hq Hi Hne. pose proof Hq as [Hl Hb]. split; [cbn; by rewrite length_insert|]. cbn [hq_bitmap].
  assert (forall bm j, j <> i -> lane (mkHandleQueue (<[Z.to_nat i := Some l]> (hq_queues q)) bm) j = lane q j) as Hn.
  { intros bm j Hj. rewrite lane_insert by done. by replace (j =? i) with false by lia. }
  assert (forall bm, lane (mkHandleQueue (<[Z.to_nat i := Some l]> (hq_queues q)) bm) i = l) as Hi'.
  { intros bm. by rewrite lane_insert, Z.eqb_refl. }
  case_bool_decide; [apply (bitmap_clear (lane q)); auto; by rewrite Hi'|].
  apply (bitmap_same (lane q) _ _ i); auto. by rewrite Hi'.
Qed.

Lemma hq_push_spec q h :
  hq_ok q -> 0 <= th_priority h < NO_PRIORITIES ->
  exists q', hq_push q h = Ok q' /\ hq_ok q' /\
    forall i, lane q' i = if i =? th_priority h then lane q (th_priority h) ++ [h] else lane q i.
Proof.
  intros Hq Hp. unfold hq_push. destruct (lane_lookup q _ Hq Hp) as (o & -> & Ho).
  set (q' := mkHandleQueue (<[Z.to_nat (th_priority h) := Some (lane q (th_priority h) ++ [h])]> (hq_queues q))
               (Z.lor (hq_bitmap q) (prio_bit (th_priority h)))).
  exists q'. split; [unfold q'; rewrite Ho; by destruct o|].
  assert (forall i, lane q' i = if i =? th_priority h then lane q (th_priority h) ++ [h] else lane q i) as Hat by (intros i; by apply lane_insert).
  split; [|done]. destruct Hq as [Hl Hb]. split; [unfold q'; cbn; by rewrite length_insert|].
  apply (bitmap_set (lane q)); try done.
  - rewrite Hat, Z.eqb_refl. by destruct (lane q (th_priority h)).
  - intros i Hi. rewrite Hat. by replace (i =? th_priority h) with false by lia.
Qed.

Lemma hq_pop_spec q :
  hq_ok q ->
  (forall i, 0 <= i -> lane q i = []) /\ hq_pop q = Ok (q, None) \/
  exists i h rest q', hq_pop q = Ok (q', Some h) /\ 0 <= i < NO_PRIORITIES /\ (forall j, i < j -> lane q j = []) /\
    lane q i = h :: rest /\ hq_ok q' /\ forall j, lane q' j = if j =? i then rest else lane q j.
Proof.
  intros Hq. pose proof (bitmap_msb _ _ (proj2 Hq)) as Hm. unfold hq_pop. destruct (msb (hq_bitmap q)) as [m|]; [right|by left].
  destruct Hm as (Hm & Hne & Hhigh). unfold hq_pop_from_queue. destruct (lane_lookup q _ Hq Hm) as (o & -> & Ho).
  destruct o as [[|h rest]|]; cbn in Ho; [by rewrite Ho in Hne| |by rewrite Ho in Hne].
  exists m, h, rest. eexists. split; [reflexivity|]. cbn [tail]. split; [done|]. split; [done|]. split; [done|].
  split; [by apply hq_shrink; [..|rewrite Ho]|]. intros j. by apply lane_insert.
Qed.

Definition same_id (h h' : TaskHandle) : bool := th_id h' =? th_id h.

Lemma filter_nonmember h l : existsb (same_id h) l = false -> List.filter (fun x => negb (same_id h x)) l = l.
Proof. induction l as [|x l IH]; [done|]. cbn. intros [-> E]%orb_false_iff. cbn. by rewrite IH. Qed.

Lemma hq_remove_spec q h :
  hq_ok q -> 0 <= th_priority h < NO_PRIORITIES ->
  exists q', hq_remove q h = Ok (q', existsb (same_id h) (lane q (th_priority h))) /\ hq_ok q' /\
    forall i, lane q' i = if i =? th_priority h then List.filter (fun x => negb (same_id h x)) (lane q i) else lane q i.
Proof.
  intros Hq Hp. unfold hq_remove. destruct (lane_lookup q _ Hq Hp) as (o & -> & Ho). destruct o as [l|]; cbn in Ho.
  - eexists. rewrite Ho. split; [reflexivity|]. split.
    + apply hq_shrink; [done|done|]. rewrite Ho. by intros ->.
    + intros i. rewrite lane_insert by done. destruct (i =? th_priority h) eqn:E; [|done]. bool_to_prop. subst i. by rewrite Ho.
  - exists q. rewrite Ho. split; [done|]. split; [done|]. intros i. destruct (i =? th_priority h) eqn:E; [|done].
    bool_to_prop. subst i. by rewrite Ho.
Qed.

Lemma hq_contains_spec q h :
  hq_ok q -> 0 <= th_priority h < NO_PRIORITIES -> hq_contains q h = Ok (existsb (same_id h) (lane q (th_priority h))).
Proof. intros Hq Hp. unfold hq_contains. destruct (lane_lookup q _ Hq Hp) as (o & -> & ->). by destruct o. Qed.

(** ** Against a list in order of arrival *)

Definition of_prio (i : Z) (l : list TaskHandle) : list TaskHandle := List.filter (fun h => th_priority h =? i) l.

(** The waiting handle that is served next, and the others. *)
Fixpoint next_of (p : Z) (l : list TaskHandle) : option (TaskHandle * list TaskHandle) :=
  match l with
  | [] => None
  | h :: l =>
      if th_priority h =? p then Some (h, l)
      else match next_of p l with Some (x, l) => Some (x, h :: l) | None => None end
  end.

Definition top_prio (l : list TaskHandle) : Z := foldr (fun h p => Z.max (th_priority h) p) (-1) l.

Definition waiting_next (l : list TaskHandle) : option (TaskHandle * list TaskHandle) := next_of (top_prio l) l.

Inductive queue_op :=
  | WPush (h : TaskHandle)
  | WPop
  | WRemove (h : TaskHandle)
  | WContains (h : TaskHandle)
  | WIsEmpty.

Inductive wait_res :=
  | RUnit
  | RHandle (o : option TaskHandle)
  | RBool (b : bool).

Definition wait_step (q : TaskHandlePriorityQueue) (o : queue_op) : outcome unit (TaskHandlePriorityQueue * wait_res) :=
  match o with
  | WPush h => let? q := hq_push q h in Ok (q, RUnit)
  | WPop => let? (q, h) := hq_pop q in Ok (q, RHandle h)
  | WRemove h => let? (q, b) := hq_remove q h in Ok (q, RBool b)
  | WContains h => let? b := hq_contains q h in Ok (q, RBool b)
  | WIsEmpty => Ok (q, RBool (hq_is_empty q))
  end.

Fixpoint wait_run (q : TaskHandlePriorityQueue) (ops : list queue_op) : outcome unit (list wait_res) :=
  match ops with
  | [] => Ok []
  | o :: ops => let? (q, r) := wait_step q o in let? rs := wait_run q ops in Ok (r :: rs)
  end.

(** The same on the list: handles match when they name the same task at the same
    priority. *)
Definition matches (h h' : TaskHandle) : bool := (th_priority h' =? th_priority h) && same_id h h'.

Definition list_step (l : list TaskHandle) (o : queue_op) : list TaskHandle * wait_res :=
  match o with
  | WPush h => (l ++ [h], RUnit)
  | WPop => match waiting_next l with Some (h, l) => (l, RHandle (Some h)) | None => (l, RHandle None) end
  | WRemove h => (List.filter (fun x => negb (matches h x)) l, RBool (existsb (matches h) l))
  | WContains h => (l, RBool (existsb (matches h) l))
  | WIsEmpty => (l, RBool (bool_decide (l = [])))
  end.

Fixpoint list_run (l : list TaskHandle) (ops : list queue_op) : list wait_res :=
  match ops with
  | [] => []
  | o :: ops => let '(l, r) := list_step l o in r :: list_run l ops
  end.

Lemma of_prio_app i l l' : of_prio i (l ++ l') = of_prio i l ++ of_prio i l'.
Proof. apply List.filter_app. Qed.

Lemma Forall_list_filter {A} (P : A -> Prop) f l : Forall P l -> Forall P (List.filter f l).
Proof. induction 1 as [|x l Hx Hl IH]; [done|]. cbn. destruct (f x); [by constructor|done]. Qed.

Lemma next_of_spec p l :
  match next_of p l with
  | None => of_prio p l = []
  | Some (h, l') => of_prio p l = h :: of_prio p l' /\ th_priority h = p /\ (forall j, j <> p -> of_prio j l' = of_prio j l) /\ l ≡ₚ h :: l'
  end.
Proof.
  induction l as [|x l IH]; [done|]. unfold of_prio in *. cbn [next_of List.filter]. destruct (th_priority x =? p) eqn:E; bool_to_prop.
  - split; [done|]. split; [done|]. split; [|done]. intros j Hj. by replace (th_priority x =? j) with false by lia.
  - destruct (next_of p l) as [[h l']|]; [|done]. destruct IH as (IH1 & IH2 & IH3 & IH4). cbn [List.filter].
    replace (th_priority x =? p) with false by lia. split; [done|]. split; [done|]. split.
    + intros j Hj. destruct (th_priority x =? j); rewrite IH3 by done; done.
    + rewrite IH4. apply perm_swap.
Qed.

Lemma top_prio_spec l : (forall j, top_prio l < j -> of_prio j l = []) /\ (l <> [] -> Forall (fun h => 0 <= th_priority h) l -> of_prio (top_prio l) l <> []).
Proof.
  induction l as [|x l [IH1 IH2]]; [done|]. unfold of_prio in *. cbn [top_prio foldr List.filter]. fold (top_prio l). split.
  - intros j Hj. replace (th_priority x =? j) with false by lia. apply IH1. lia.
  - intros _ [Hx Hl]%Forall_cons. destruct (th_priority x =? _) eqn:E; [done|]. bool_to_prop.
    rewrite Z.max_r by lia. apply IH2; [|done]. intros ->. cbn in *. lia.
Qed.

Lemma existsb_of_prio h l : existsb (same_id h) (of_prio (th_priority h) l) = existsb (matches h) l.
Proof.
  unfold of_prio, matches. induction l as [|x l IH]; [done|]. cbn. destruct (th_priority x =? th_priority h); cbn; by rewrite IH.
Qed.

Lemma remove_of_prio h i l :
  of_prio i (List.filter (fun x => negb (matches h x)) l) =
  if i =? th_priority h then List.filter (fun x => negb (same_id h x)) (of_prio i l) else of_prio i l.
Proof.
  unfold of_prio, matches. induction l as [|x l IH]; cbn [List.filter]; [by destruct (i =? _)|].
  destruct (th_priority x =? th_priority h) eqn:Ex; destruct (th_priority x =? i) eqn:Ei; destruct (i =? th_priority h) eqn:Eh;
    bool_to_prop; try lia; cbn [andb negb List.filter]; destruct (same_id h x); cbn [negb List.filter];
    try replace (th_priority x =? i) with true by lia; try replace (th_priority x =? i) with false by lia;
    by rewrite IH.
Qed.

Definition prio_ok (h : TaskHandle) : Prop := 0 <= th_priority h < NO_PRIORITIES.

Definition holds (q : TaskHandlePriorityQueue) (l : list TaskHandle) : Prop :=
  hq_ok q /\ Forall prio_ok l /\ forall i, lane q i = of_prio i l.

Definition op_handle_ok (o : queue_op) : Prop :=
  match o with WPush h | WRemove h | WContains h => prio_ok h | _ => True end.

Lemma of_prio_all_nil l : Forall prio_ok l -> (forall i, 0 <= i -> of_prio i l = []) -> l = [].
Proof.
  intros Hl Hn. destruct l as [|x l]; [done|]. apply Forall_cons in Hl as [Hx _]. destruct Hx as [Hx _]. specialize (Hn _ Hx). unfold of_prio in Hn. cbn in Hn.
  by rewrite Z.eqb_refl in Hn.
Qed.

Lemma wait_step_refines q l o :
  holds q l -> op_handle_ok o -> exists q', wait_step q o = Ok (q', (list_step l o).2) /\ holds q' (list_step l o).1.
Proof.
  intros (Hq & Hf & Hl) Ho. destruct o as [h| |h|h|]; cbn [op_handle_ok] in Ho; cbn [wait_step list_step fst snd].
  - destruct (hq_push_spec q h Hq Ho) as (q' & -> & Hq' & Hl'). exists q'. split; [done|]. split; [done|]. split.
    { apply Forall_app. by split; [|constructor]. }
    intros i. rewrite Hl', of_prio_app. unfold of_prio at 2. cbn. rewrite (Z.eqb_sym _ i). destruct (i =? th_priority h) eqn:E; bool_to_prop.
    + subst i. by rewrite Hl.
    + by rewrite app_nil_r.
  - unfold waiting_next. pose proof (next_of_spec (top_prio l) l) as Hn. pose proof (top_prio_spec l) as [Ht1 Ht2].
    destruct (hq_pop_spec q Hq) as [[He ->]|(i & h & rest & q' & -> & Hi & Hhigh & Hlane & Hq' & Hl')].
    + assert (l = []) as -> by (apply of_prio_all_nil; [done|]; intros i Hi; rewrite <- Hl; by apply He). by exists q.
    + assert (top_prio l = i) as Et.
      { assert (of_prio i l <> []) as Hne by (rewrite <- Hl, Hlane; done). destruct (Z.lt_trichotomy (top_prio l) i) as [?|[?|?]]; [|done|].
        - by rewrite Ht1 in Hne.
        - exfalso. apply Ht2; [intros ->; by unfold of_prio in Hne|eapply Forall_impl; [exact Hf|]; by intros x []|].
          rewrite <- Hl. by apply Hhigh. }
      rewrite Et in *. destruct (next_of i l) as [[x l']|] eqn:En; [|by rewrite <- Hl, Hlane in Hn].
      destruct Hn as (Hn1 & Hn2 & Hn3 & Hn4). rewrite <- Hl, Hlane in Hn1. injection Hn1 as -> ->. exists q'. split; [done|].
      split; [done|]. split; [rewrite Hn4 in Hf; by apply Forall_cons in Hf as [_ ?]|]. intros j. cbn [fst]. rewrite Hl'.
      destruct (j =? i) eqn:E; bool_to_prop; [by subst j|]. by rewrite Hl, Hn3.
  - destruct (hq_remove_spec q h Hq Ho) as (q' & -> & Hq' & Hl'). exists q'. rewrite Hl, existsb_of_prio. split; [done|].
    split; [done|]. split; [by apply Forall_list_filter|]. intros i. rewrite Hl', remove_of_prio, Hl. done.
  - rewrite hq_contains_spec by done. exists q. by rewrite Hl, existsb_of_prio.
  - exists q. split; [|done]. do 3 f_equal. unfold hq_is_empty. pose proof (bitmap_msb _ _ (proj2 Hq)) as Hm. unfold msb in Hm.
    destruct (hq_bitmap q =? 0).
    + symmetry. apply bool_decide_eq_true. apply of_prio_all_nil; [done|]. intros i Hi. rewrite <- Hl. by apply Hm.
    + symmetry. apply bool_decide_eq_false. intros ->. destruct Hm as (_ & Hm & _). by rewrite Hl in Hm.
Qed.

Lemma wait_run_refines ops : forall q l, holds q l -> Forall op_handle_ok ops -> wait_run q ops = Ok (list_run l ops).
Proof.
  induction ops as [|o ops IH]; intros q l Hh Hok; [done|]. apply Forall_cons in Hok as [Ho Hok].
  destruct (wait_step_refines q l o Hh Ho) as (q' & E & Hh'). cbn [wait_run list_run]. rewrite E.
  destruct (list_step l o) as [l' r]. cbn [fst snd] in *. cbn [obind]. by rewrite (IH q' l' Hh' Hok).
Qed.

(** C32: the queue of tasks that wait for a lock, 31 lists and a bitmap, is a list in order of
    arrival: under any sequence of operations a pop takes the oldest waiting task of the
    highest priority, a removal takes out exactly the entries of its task, and membership
    and emptiness are those of the list.  No operation panics for priorities below 31. *)
Theorem wait_queue_refines ops : Forall op_handle_ok ops -> wait_run hq_new ops = Ok (list_run [] ops).
Proof.
  intros Hok. apply wait_run_refines; [|done]. destruct hq_new_ok as [Hq Hl]. split; [done|]. split; [done|]. exact Hl.
Qed.

(** Two waiting tasks of priority 2, one of priority 3; one of the former gives up. *)
Module WaitDemo.
Definition h (id prio : Z) : TaskHandle := mkTaskHandle id prio 0.
Definition ops : list queue_op :=
  [WPush (h 1 2); WPush (h 2 2); WPush (h 3 3); WContains (h 2 2); WRemove (h 1 2); WPop; WPop; WPop; WIsEmpty].
End WaitDemo.

Lemma wait_queue_refines_witness :
  wait_run hq_new WaitDemo.ops =
  Ok [RUnit; RUnit; RUnit; RBool true; RBool true; RHandle (Some (WaitDemo.h 3 3)); RHandle (Some (WaitDemo.h 2 2)); RHandle None; RBool true].
Proof. apply (wait_queue_refines WaitDemo.ops). repeat constructor; vm_compute; discriminate. Defined.
