(* ===== verification/Scheduler.v ===== *)
(** * The scheduler of one core: operations

    kernel/src/scheduler/mod.rs and the blocked-task queue of scheduler/task/mod.rs, with
    the features [smp] and [net] of the image.  Each core has its own tasks, queues and
    input; interrupts are off during every operation, so it runs to completion.  The time
    ([get_timer_ticks]) is an argument, and so is the outcome of polling the network
    interface; what the asynchronous executor does in between is not part of the model. *)

From stdpp Require Import gmap.
From S2P Require Import Prelude TaskQueue.

Record NewTask := mkNewTask {
  nt_tid : Z;
  nt_prio : Z;
  nt_core_id : Z;
}.

(** [PerCoreScheduler] with the core's input, one-shot timer and the tasks its references
    point to. *)
Record Core := mkCore {
  c_id : Z;
  c_heap : gmap TaskRef Task;
  c_next : TaskRef;
  c_current : TaskRef;
  c_idle : TaskRef;
  c_fpu_owner : TaskRef;
  c_ready : PriorityTaskQueue;
  c_finished : list TaskRef;
  c_blocked : list BlockedTask;
  c_network_wakeup : option Z;
  c_timer : option Z;
  c_new_tasks : list NewTask;
  c_wakeup_tasks : list TaskHandle;
}.

Definition set_heap h c := mkCore (c_id c) h (c_next c) (c_current c) (c_idle c) (c_fpu_owner c) (c_ready c) (c_finished c) (c_blocked c) (c_network_wakeup c) (c_timer c) (c_new_tasks c) (c_wakeup_tasks c).
Definition set_current r c := mkCore (c_id c) (c_heap c) (c_next c) r (c_idle c) (c_fpu_owner c) (c_ready c) (c_finished c) (c_blocked c) (c_network_wakeup c) (c_timer c) (c_new_tasks c) (c_wakeup_tasks c).
Definition set_fpu_owner r c := mkCore (c_id c) (c_heap c) (c_next c) (c_current c) (c_idle c) r (c_ready c) (c_finished c) (c_blocked c) (c_network_wakeup c) (c_timer c) (c_new_tasks c) (c_wakeup_tasks c).
Definition set_ready q c := mkCore (c_id c) (c_heap c) (c_next c) (c_current c) (c_idle c) (c_fpu_owner c) q (c_finished c) (c_blocked c) (c_network_wakeup c) (c_timer c) (c_new_tasks c) (c_wakeup_tasks c).
Definition set_finished l c := mkCore (c_id c) (c_heap c) (c_next c) (c_current c) (c_idle c) (c_fpu_owner c) (c_ready c) l (c_blocked c) (c_network_wakeup c) (c_timer c) (c_new_tasks c) (c_wakeup_tasks c).
Definition set_blocked l c := mkCore (c_id c) (c_heap c) (c_next c) (c_current c) (c_idle c) (c_fpu_owner c) (c_ready c) (c_finished c) l (c_network_wakeup c) (c_timer c) (c_new_tasks c) (c_wakeup_tasks c).
Definition set_network_wakeup t c := mkCore (c_id c) (c_heap c) (c_next c) (c_current c) (c_idle c) (c_fpu_owner c) (c_ready c) (c_finished c) (c_blocked c) t (c_timer c) (c_new_tasks c) (c_wakeup_tasks c).
Definition set_oneshot_timer t c := mkCore (c_id c) (c_heap c) (c_next c) (c_current c) (c_idle c) (c_fpu_owner c) (c_ready c) (c_finished c) (c_blocked c) (c_network_wakeup c) t (c_new_tasks c) (c_wakeup_tasks c).
Definition set_new_tasks l c := mkCore (c_id c) (c_heap c) (c_next c) (c_current c) (c_idle c) (c_fpu_owner c) (c_ready c) (c_finished c) (c_blocked c) (c_network_wakeup c) (c_timer c) l (c_wakeup_tasks c).
Definition set_wakeup_tasks l c := mkCore (c_id c) (c_heap c) (c_next c) (c_current c) (c_idle c) (c_fpu_owner c) (c_ready c) (c_finished c) (c_blocked c) (c_network_wakeup c) (c_timer c) (c_new_tasks c) l.

Abbreviation CM A := (ST Core unit A).

(** [task.borrow()], and a change through [task.borrow_mut()]. *)
Definition borrow (r : TaskRef) : CM Task :=
  let! h := sgets c_heap in
  match h !! r with Some t => sret t | None => slift Panic end.
Definition update (r : TaskRef) (f : Task -> Task) : CM unit :=
  let! t := borrow r in
  smodify (fun c => set_heap (<[r := f t]> (c_heap c)) c).

(** [Rc::new(RefCell::new(task))] *)
Definition new_ref (t : Task) : CM TaskRef :=
  fun c => (mkCore (c_id c) (<[c_next c := t]> (c_heap c)) (S (c_next c)) (c_current c) (c_idle c) (c_fpu_owner c)
              (c_ready c) (c_finished c) (c_blocked c) (c_network_wakeup c) (c_timer c) (c_new_tasks c) (c_wakeup_tasks c),
            Ok (c_next c)).

Definition assert (b : bool) : CM unit := if b then sret tt else slift Panic.

(** [self.ready_queue.push(task)] *)
Definition push_ready (r : TaskRef) : CM unit :=
  let! t := borrow r in
  let! q := sgets c_ready in
  let! q := slift (pq_push (t_prio t) r q) in
  smodify (set_ready q).

(** ** Blocked tasks *)

Definition mark_ready (r : TaskRef) : CM unit :=
  let! t := borrow r in
  let! id := sgets c_id in
  let! _ := assert (t_core_id t =? id) in
  let! _ := assert (bool_decide (t_status t = Blocked)) in
  update r (set_status Ready).

Definition add_network_timer (wakeup_time : option Z) : CM unit :=
  let! _ := smodify (set_network_wakeup wakeup_time) in
  let! l := sgets c_blocked in
  smodify (set_oneshot_timer (min_opt wakeup_time (front_time l))).

(** The timer after a task with wake-up time [wt] was added. *)
Definition arm (wt : Z) (network_wakeup : option Z) : option Z :=
  match network_wakeup with
  | Some time => if wt <? time then Some wt else network_wakeup
  | None => Some wt
  end.

Definition blocked_add (r : TaskRef) (wakeup_time : option Z) : CM unit :=
  let! t := borrow r in
  let! _ := assert (bool_decide (t_status t = Running)) in
  let! _ := update r (set_status Blocked) in
  let! l := sgets c_blocked in
  match wakeup_time with
  | None => smodify (set_blocked (l ++ [mkBlockedTask r None]))
  | Some wt =>
      let! network := sgets c_network_wakeup in
      let! _ := smodify (set_oneshot_timer (arm wt network)) in
      smodify (set_blocked (insert_blocked (mkBlockedTask r (Some wt)) wt l))
  end.

(** The cursor loop of [custom_wakeup]: the tasks before the first with this id, that
    task, and the tasks behind it. *)
Fixpoint find_blocked (id : Z) (h : gmap TaskRef Task) (l : list BlockedTask)
    : outcome unit (option (list BlockedTask * TaskRef * list BlockedTask)) :=
  match l with
  | [] => Ok None
  | b :: l =>
      match h !! bt_task b with
      | None => Panic
      | Some t =>
          if t_id t =? id then Ok (Some ([], bt_task b, l)) else
          let? found := find_blocked id h l in
          Ok (match found with Some (before, r, after) => Some (b :: before, r, after) | None => None end)
      end
  end.

(** The timer after the first task was removed. *)
Definition rearm (l : list BlockedTask) (network_wakeup : option Z) : option Z :=
  match l with
  | [] => network_wakeup
  | b :: _ =>
      match bt_wakeup_time b with
      | Some wt =>
          match network_wakeup with
          | Some timer => if wt <? timer then Some wt else Some timer
          | None => Some wt
          end
      | None => network_wakeup
      end
  end.

(** A task that is not blocked reaches [unreachable!()]. *)
Definition blocked_custom_wakeup (now : Z) (task : TaskHandle) : CM TaskRef :=
  let! network := sgets c_network_wakeup in
  let! _ :=
    match network with
    | Some t => if t <=? now then smodify (set_network_wakeup None) else sret tt
    | None => sret tt
    end in
  let! l := sgets c_blocked in
  let! h := sgets c_heap in
  let! found := slift (find_blocked (th_id task) h l) in
  match found with
  | None => slift Panic
  | Some (before, r, after) =>
      let! _ := smodify (set_blocked (before ++ after)) in
      let! _ :=
        match before with
        | [] => let! network := sgets c_network_wakeup in smodify (set_oneshot_timer (rearm after network))
        | _ => sret tt
        end in
      let! _ := mark_ready r in
      sret r
  end.

Fixpoint wake_all (l : list BlockedTask) : CM unit :=
  match l with
  | [] => sret tt
  | b :: l =>
      let! _ := mark_ready (bt_task b) in
      let! _ := push_ready (bt_task b) in
      wake_all l
  end.

(** [nic]: the new [poll_delay] in microseconds if the network interface is initialized
    and not in use. *)
Definition blocked_handle_waiting_tasks (now : Z) (nic : option (option Z)) : CM unit :=
  let! _ :=
    match nic with
    | Some delay => smodify (set_network_wakeup ((fun d => add64 d now) <$> delay))
    | None => sret tt
    end in
  let! l := sgets c_blocked in
  let! _ := smodify (set_blocked (List.filter (fun b => negb (elapsed now b)) l)) in
  let! _ := wake_all (List.filter (elapsed now) l) in
  let! l := sgets c_blocked in
  let! network := sgets c_network_wakeup in
  smodify (set_oneshot_timer (min_opt (front_time l) network)).

(** ** The per-core scheduler *)

Definition wake_local (now : Z) (task : TaskHandle) : CM unit :=
  let! r := blocked_custom_wakeup now task in
  push_ready r.

Definition block_current_task (wakeup_time : option Z) : CM unit :=
  let! r := sgets c_current in
  blocked_add r wakeup_time.

Definition get_current_task_handle : CM TaskHandle :=
  let! r := sgets c_current in
  let! t := borrow r in
  sret (mkTaskHandle (t_id t) (t_prio t) (t_core_id t)).

Definition get_current_task_id : CM Z :=
  let! r := sgets c_current in
  let! t := borrow r in
  sret (t_id t).

Definition get_current_task_prio : CM Z :=
  let! r := sgets c_current in
  let! t := borrow r in
  sret (t_prio t).

Definition set_current_task_priority (prio : Z) : CM unit :=
  let! r := sgets c_current in
  update r (set_prio prio).

Definition is_scheduling : CM bool :=
  let! prio := get_current_task_prio in
  let! q := sgets c_ready in
  sret (prio <? pq_get_highest_priority q).

Fixpoint position_id (id : Z) (h : gmap TaskRef Task) (l : list TaskRef) (i : Z) : option Z :=
  match l with
  | [] => None
  | r :: l => if bool_decide (t_id <$> h !! r = Some id) then Some i else position_id id h l (i + 1)
  end.

(** [PriorityTaskQueue::set_priority]. *)
Definition ready_set_priority (handle : TaskHandle) (prio : Z) : CM unit :=
  let! q := sgets c_ready in
  let! h := sgets c_heap in
  match pq_queues q !! Z.to_nat (th_priority handle) with
  | None => slift Panic
  | Some queue =>
      let! index := sopt tt (position_id (th_id handle) h queue 0) in
      let! (q, task) := slift (pq_remove_from_queue index (th_priority handle) q) in
      let! _ := smodify (set_ready q) in
      let! task := sopt tt task in
      let! _ := update task (set_prio prio) in
      push_ready task
  end.

(** Dropping the last reference frees the task. *)
Definition cleanup_tasks : CM unit := smodify (set_finished []).

Definition new_task (n : NewTask) : Task := mkTask (nt_tid n) Ready (nt_prio n) (nt_core_id n).

Definition start_task (n : NewTask) : CM unit :=
  let! r := new_ref (new_task n) in
  push_ready r.

Fixpoint check_wakeups (now : Z) (l : list TaskHandle) : CM unit :=
  match l with
  | [] => sret tt
  | task :: l => let! _ := wake_local now task in check_wakeups now l
  end.
Fixpoint check_new (l : list NewTask) : CM unit :=
  match l with
  | [] => sret tt
  | n :: l => let! _ := start_task n in check_new l
  end.

Definition check_input (now : Z) : CM unit :=
  let! l := sgets c_wakeup_tasks in
  let! _ := smodify (set_wakeup_tasks []) in
  let! _ := check_wakeups now l in
  let! n := sgets c_new_tasks in
  let! _ := smodify (set_new_tasks []) in
  check_new n.

(** [fpu_switch]: whose registers are saved and whose are restored. *)
Definition fpu_switch : CM (option (TaskRef * TaskRef)) :=
  let! cur := sgets c_current in
  let! owner := sgets c_fpu_owner in
  if bool_decide (cur = owner) then sret None
  else let! _ := smodify (set_fpu_owner cur) in sret (Some (owner, cur)).

(** The task to switch to, from the status and priority of the current one. *)
Definition choose_task (status : TaskStatus) (prio : Z) : CM (option TaskRef) :=
  let! q := sgets c_ready in
  if bool_decide (status = Running) then
    let! (q, task) := slift (pq_pop_with_prio prio q) in
    let! _ := smodify (set_ready q) in
    sret task
  else
    let! _ :=
      if bool_decide (status = Finished) then
        let! cur := sgets c_current in
        let! _ := update cur (set_status Invalid) in
        smodify (fun c => set_finished (c_finished c ++ [cur]) c)
      else sret tt in
    let! (q, task) := slift (pq_pop q) in
    let! _ := smodify (set_ready q) in
    match task with
    | Some task => sret (Some task)
    | None => if bool_decide (status = Idle) then sret None else let! idle := sgets c_idle in sret (Some idle)
    end.

(** [scheduler]: the task whose stack pointer the switch saves, if there is a switch. *)
Definition scheduler : CM (option TaskRef) :=
  let! _ := cleanup_tasks in
  let! cur := sgets c_current in
  let! t := borrow cur in
  let! new_task := choose_task (t_status t) (t_prio t) in
  match new_task with
  | None => sret None
  | Some task =>
      let! _ :=
        if bool_decide (t_status t = Running) then
          let! _ := update cur (set_status Ready) in push_ready cur
        else sret tt in
      let! n := borrow task in
      let! _ := if bool_decide (t_status n = Idle) then sret tt else update task (set_status Running) in
      if t_id t =? t_id n then sret None
      else let! _ := smodify (set_current task) in sret (Some cur)
  end.

(** [reschedule]: the switch, and whether the FPU state stays with its owner. *)
Definition reschedule : CM (option (TaskRef * bool)) :=
  let! old := scheduler in
  match old with
  | None => sret None
  | Some old =>
      let! cur := sgets c_current in
      let! t := borrow cur in
      let! owner := sgets c_fpu_owner in
      sret (Some (old, bool_decide (t_status t = Idle) || bool_decide (cur = owner)))
  end.

(** ** Interrupt handlers

    arch/x86_64/kernel/scheduler.rs and apic.rs. *)

Definition handle_waiting_tasks (now : Z) (nic : option (option Z)) : CM unit := blocked_handle_waiting_tasks now nic.

Definition timer_handler (now : Z) (nic : option (option Z)) : CM (option (TaskRef * bool)) :=
  let! _ := handle_waiting_tasks now nic in
  reschedule.

Definition wakeup_handler (now : Z) : CM (option (TaskRef * bool)) :=
  let! _ := check_input now in
  let! b := is_scheduling in
  if b : bool then reschedule else sret None.
