(* ===== verification/SchedulerSpec.v ===== *)
(** * The scheduler of one core: its invariant

    Where a task is tells its status and the other way round: ready tasks are in the list of
    their priority, blocked tasks in the list ordered by wake-up time, and the task that
    runs is the current one.  [core_inv A] allows the tasks [A] to be on the way from one
    place to the next; between two operations there are none ([core_ok]). *)

From Stdlib Require Import Sorted.
From stdpp Require Import gmap.
From S2P Require Import Prelude TaskQueue TaskQueueTheorems Scheduler.

Definition st (c : Core) (r : TaskRef) : option TaskStatus := t_status <$> c_heap c !! r.
Definition pr (c : Core) (r : TaskRef) : option Z := t_prio <$> c_heap c !! r.

Definition le_time (a b : BlockedTask) : Prop :=
  match bt_wakeup_time a, bt_wakeup_time b with
  | Some x, Some y => x <= y
  | None, Some _ => False
  | _, None => True
  end.

Definition active (s : TaskStatus) : Prop := s = Running \/ s = Finished.
Definition queued (s : TaskStatus) : Prop := s = Ready \/ s = Blocked.

Record core_inv (A : list TaskRef) (c : Core) : Prop := {
  ok_queue : pq_ok (c_ready c);
  ok_ready i r : r ∈ queue_at (c_ready c) i <-> st c r = Some Ready /\ pr c r = Some i /\ r ∉ A;
  ok_ready_nodup i : NoDup (queue_at (c_ready c) i);
  ok_blocked r : r ∈ bt_task <$> c_blocked c <-> st c r = Some Blocked /\ r ∉ A;
  ok_blocked_nodup : NoDup (bt_task <$> c_blocked c);
  ok_sorted : StronglySorted le_time (c_blocked c);
  ok_active r s : st c r = Some s -> active s -> r = c_current c \/ r ∈ A;
  ok_current : exists s, st c (c_current c) = Some s /\ (s = Invalid -> c_current c ∈ A);
  ok_idle r : st c r = Some Idle <-> r = c_idle c;
  ok_idle_out : c_idle c ∉ A;
  ok_task r t : c_heap c !! r = Some t -> 0 <= t_prio t < NO_PRIORITIES /\ t_core_id t = c_id c /\ (r < c_next c)%nat;
  ok_ids r r' t t' : c_heap c !! r = Some t -> c_heap c !! r' = Some t' -> t_id t = t_id t' -> r = r';
  ok_finished r : r ∈ c_finished c -> st c r = Some Invalid;
  ok_adrift r : r ∈ A -> is_Some (c_heap c !! r);
}.

Abbreviation core_ok := (core_inv []).

(** ** Blocked tasks in order *)

Lemma insert_blocked_perm n wt l : insert_blocked n wt l ≡ₚ n :: l.
Proof.
  induction l as [|b l IH]; [done|]. cbn. destruct (match bt_wakeup_time b with None => true | Some t => wt <? t end); [done|].
  rewrite IH. apply perm_swap.
Qed.

Lemma le_time_trans a b c : le_time a b -> le_time b c -> le_time a c.
Proof. unfold le_time. destruct (bt_wakeup_time a), (bt_wakeup_time b), (bt_wakeup_time c); try done; lia. Qed.

Lemma insert_blocked_sorted n wt l :
  bt_wakeup_time n = Some wt -> StronglySorted le_time l -> StronglySorted le_time (insert_blocked n wt l).
Proof.
  intros Hn. induction 1 as [|b l Hs IH Hb]; cbn; [repeat constructor|].
  destruct (match bt_wakeup_time b with None => true | Some t => wt <? t end) eqn:E.
  - assert (le_time n b) as Hnb by (unfold le_time; rewrite Hn; destruct (bt_wakeup_time b); [bool_to_prop; lia|done]).
    constructor; [by constructor|]. constructor; [done|]. eapply Forall_impl; [exact Hb|]. intros x Hx. by eapply le_time_trans.
  - constructor; [done|]. rewrite insert_blocked_perm. constructor; [|done]. unfold le_time. rewrite Hn.
    destruct (bt_wakeup_time b); [bool_to_prop; lia|done].
Qed.

Lemma sorted_app_forever l r : StronglySorted le_time l -> StronglySorted le_time (l ++ [mkBlockedTask r None]).
Proof.
  induction 1 as [|b l Hs IH Hb]; cbn; [repeat constructor|]. constructor; [done|]. apply Forall_app. split; [done|].
  constructor; [|done]. unfold le_time. cbn. by destruct (bt_wakeup_time b).
Qed.

Lemma sorted_filter f l : StronglySorted le_time l -> StronglySorted le_time (List.filter f l).
Proof.
  induction 1 as [|b l Hs IH Hb]; cbn; [constructor|]. destruct (f b); [|done]. constructor; [done|]. by apply Forall_list_filter.
Qed.

Lemma sorted_remove before b after : StronglySorted le_time (before ++ b :: after) -> StronglySorted le_time (before ++ after).
Proof.
  induction before as [|x before IH]; cbn; intros Hs; [by inversion Hs|]. inversion Hs as [|? ? Hs' Hf]. subst.
  constructor; [by apply IH|]. rewrite Forall_app, Forall_cons in Hf. rewrite Forall_app. tauto.
Qed.

(** ** Steps between the places *)

Section steps.
Implicit Types (c : Core) (r : TaskRef) (A : list TaskRef).

Lemma inv_equiv A A' c : (forall r, r ∈ A <-> r ∈ A') -> core_inv A c -> core_inv A' c.
Proof.
  intros He [Hq Hr Hrn Hb Hbn Hs Ha Hc Hi Hio Ht Hids Hf Had]. split; try done.
  - intros i r. by rewrite Hr, He.
  - intros r. by rewrite Hb, He.
  - intros r s Hst Hact. rewrite <- He. by eapply Ha.
  - destruct Hc as (s & Hst & Hinv). exists s. split; [done|]. intros ?. by apply He, Hinv.
  - by rewrite <- He.
  - intros r Hr'. apply Had. by apply He.
Qed.

(** A change of status of [r]; [A'] differs from [A] at most in [r]. *)
Lemma inv_update A A' c r t s' :
  core_inv A c -> c_heap c !! r = Some t -> (forall r', r' <> r -> r' ∈ A' <-> r' ∈ A) ->
  (queued (t_status t) -> r ∈ A) -> (queued s' -> r ∈ A') -> (active s' -> r = c_current c \/ r ∈ A') ->
  (r = c_current c -> s' = Invalid -> r ∈ A') -> t_status t <> Idle -> s' <> Idle -> (t_status t = Invalid -> s' = Invalid) ->
  core_inv A' (set_heap (<[r := set_status s' t]> (c_heap c)) c).
Proof.
  intros [Hq Hr Hrn Hb Hbn Hs Ha Hc Hi Hio Ht Hids Hf Had] Hrt HA Hq1 Hq2 Hact Hcur Hni Hni' Hinv.
  assert (forall r', st (set_heap (<[r := set_status s' t]> (c_heap c)) c) r' = if decide (r' = r) then Some s' else st c r') as Est.
  { intros r'. unfold st. cbn. destruct (decide (r' = r)) as [->|]; [by rewrite lookup_insert_eq|by rewrite lookup_insert_ne]. }
  assert (forall r', pr (set_heap (<[r := set_status s' t]> (c_heap c)) c) r' = pr c r') as Epr.
  { intros r'. unfold pr. cbn. destruct (decide (r' = r)) as [->|]; [by rewrite lookup_insert_eq, Hrt|by rewrite lookup_insert_ne]. }
  assert (st c r = Some (t_status t)) as Estr by (unfold st; by rewrite Hrt).
  assert (r <> c_idle c) as Hridle.
  { intros ->. destruct (Hi (c_idle c)) as [_ Hx]. specialize (Hx eq_refl). rewrite Estr in Hx. by injection Hx. }
  split; try done.
  - intros i r'. rewrite Est, Epr. cbn. rewrite Hr. destruct (decide (r' = r)) as [->|Hn]; [|by rewrite HA].
    rewrite Estr. split; intros (E & _ & Hx); injection E as E; destruct Hx; [apply Hq1|apply Hq2]; by left.
  - intros r'. rewrite Est. cbn. rewrite Hb. destruct (decide (r' = r)) as [->|Hn]; [|by rewrite HA].
    rewrite Estr. split; intros [E Hx]; injection E as E; destruct Hx; [apply Hq1|apply Hq2]; by right.
  - intros r' s0. rewrite Est. cbn. destruct (decide (r' = r)) as [->|Hn]; [by intros [= <-]|]. intros Hst' Hact'.
    rewrite HA by done. by eapply Ha.
  - cbn. rewrite Est. destruct (decide (c_current c = r)) as [<-|Hn]; [exists s'; split; [done|]; auto|].
    destruct Hc as (s0 & Hst & Hv). exists s0. split; [done|]. intros E. rewrite HA by done. auto.
  - intros r'. rewrite Est. cbn. destruct (decide (r' = r)) as [->|Hn]; [|apply Hi]. split; [by intros [= ->]|done].
  - cbn. by rewrite HA by done.
  - intros r' t'. cbn. destruct (decide (r' = r)) as [->|Hn]; [rewrite lookup_insert_eq|rewrite lookup_insert_ne by done; apply Ht].
    intros [= <-]. cbn. by apply (Ht r t).
  - intros r1 r2 t1 t2. cbn.
    assert (forall r' t', <[r := set_status s' t]> (c_heap c) !! r' = Some t' -> exists t0, c_heap c !! r' = Some t0 /\ t_id t0 = t_id t') as Hx.
    { intros r' t'. destruct (decide (r' = r)) as [->|Hn]; [rewrite lookup_insert_eq|rewrite lookup_insert_ne by done; eauto].
      intros [= <-]. eauto. }
    intros (t1' & H1 & E1)%Hx (t2' & H2 & E2)%Hx E. eapply Hids; [exact H1|exact H2|congruence].
  - intros r' Hr'. rewrite Est. cbn in Hr'. specialize (Hf r' Hr'). destruct (decide (r' = r)) as [->|Hn]; [|done].
    f_equal. apply Hinv. rewrite Estr in Hf. by injection Hf.
  - intros r' Hr'. cbn. destruct (decide (r' = r)) as [->|Hn]; [by rewrite lookup_insert_eq|]. rewrite lookup_insert_ne by done.
    apply Had. by apply HA.
Qed.

(** A task on the way arrives in the ready queue. *)
Lemma inv_push A c r t q' :
  core_inv (r :: A) c -> r ∉ A -> c_heap c !! r = Some t -> t_status t = Ready -> pq_ok q' ->
  (forall i, queue_at q' i = if i =? t_prio t then queue_at (c_ready c) (t_prio t) ++ [r] else queue_at (c_ready c) i) ->
  core_inv A (set_ready q' c).
Proof.
  intros [Hq Hr Hrn Hb Hbn Hs Ha Hc Hi Hio Ht Hids Hf Had] Hn Hrt Hst Hq' Hat.
  assert (st c r = Some Ready) as Est by (unfold st; rewrite Hrt; cbn; by rewrite Hst).
  assert (pr c r = Some (t_prio t)) as Epr by (unfold pr; by rewrite Hrt).
  assert (forall i, r ∉ queue_at (c_ready c) i) as Hout.
  { intros i Hx. apply Hr in Hx as (_ & _ & Hx). destruct Hx. by left. }
  split; try done.
  - intros i r'. change (st (set_ready q' c) r') with (st c r'). change (pr (set_ready q' c) r') with (pr c r'). cbn. rewrite Hat.
    assert ((r' ∈ queue_at (c_ready c) i) <-> st c r' = Some Ready /\ pr c r' = Some i /\ (r' ∉ A) /\ r' <> r) as Hr' by (rewrite Hr, not_elem_of_cons; tauto).
    destruct (decide (r' = r)) as [->|Hne].
    + destruct (i =? t_prio t) eqn:E; bool_to_prop.
      * subst i. rewrite elem_of_app, list_elem_of_singleton. tauto.
      * split; [by intros ?%Hout|]. intros (_ & E' & _). rewrite Epr in E'. by injection E'.
    + destruct (i =? t_prio t) eqn:E; bool_to_prop; [subst i; rewrite elem_of_app, list_elem_of_singleton|]; tauto.
  - intros i. cbn. rewrite Hat. destruct (i =? t_prio t); [|done]. apply NoDup_app. split; [done|]. split; [|apply NoDup_singleton].
    intros x Hx ->%list_elem_of_singleton. by eapply Hout.
  - intros r'. cbn. rewrite Hb, not_elem_of_cons. change (st (set_ready q' c) r') with (st c r').
    destruct (decide (r' = r)) as [->|Hne]; [rewrite Est; split; by intros [[=] _]|tauto].
  - intros r' s0 Hst' Hact. destruct (Ha r' s0 Hst' Hact) as [?|[->|?]%elem_of_cons]; [by left| |by right].
    change (st (set_ready q' c) r) with (st c r) in Hst'. rewrite Est in Hst'. injection Hst' as <-. by destruct Hact.
  - destruct Hc as (s0 & Hs0 & Hv). exists s0. split; [done|]. intros ->. specialize (Hv eq_refl). apply elem_of_cons in Hv as [Hx|?]; [|done].
    cbn in *. rewrite Hx, Est in Hs0. done.
  - cbn. intros Hx. apply Hio. by right.
  - intros r' Hr'. apply Had. by right.
Qed.

(** A task leaves ready list [i]. *)
Definition taken (q : PriorityTaskQueue) (i : Z) (r : TaskRef) (q' : PriorityTaskQueue) : Prop :=
  pq_ok q' /\ queue_at q i ≡ₚ r :: queue_at q' i /\ forall j, j <> i -> queue_at q' j = queue_at q j.

Lemma popped_taken q i r q' : popped q i r q' -> taken q i r q'.
Proof.
  intros (_ & _ & Hq' & rest & Hqi & Hat). split; [done|]. split; [by rewrite Hqi, Hat, Z.eqb_refl|].
  intros j Hj. rewrite Hat. by replace (j =? i) with false by lia.
Qed.

Lemma inv_take A c i r q' : core_inv A c -> taken (c_ready c) i r q' -> core_inv (r :: A) (set_ready q' c) /\ st c r = Some Ready /\ pr c r = Some i /\ r ∉ A.
Proof.
  intros [Hq Hr Hrn Hb Hbn Hs Ha Hc Hi Hio Ht Hids Hf Had] (Hq' & Hqi & Hat).
  assert (r ∈ queue_at (c_ready c) i) as Hin by (rewrite Hqi; by left). apply Hr in Hin as (Est & Epr & Hn).
  assert (NoDup (r :: queue_at q' i)) as [Hnr Hnd]%NoDup_cons by (rewrite <- Hqi; apply Hrn).
  split; [|done]. split; try done.
  - intros j r'. change (st (set_ready q' c) r') with (st c r'). change (pr (set_ready q' c) r') with (pr c r'). cbn. rewrite not_elem_of_cons.
    destruct (decide (j = i)) as [->|Hj].
    + pose proof (Hr i r') as Hx. rewrite Hqi, elem_of_cons in Hx. destruct (decide (r' = r)) as [->|]; [|tauto]. split; [done|]. by intros (_ & _ & [] & _).
    + rewrite Hat, Hr by done. destruct (decide (r' = r)) as [->|]; [rewrite Epr; split; [intros (_ & [= ->] & _); done|by intros (_ & _ & [] & _)]|tauto].
  - intros j. cbn. destruct (decide (j = i)) as [->|Hj]; [done|]. by rewrite Hat.
  - intros r'. cbn. rewrite Hb, not_elem_of_cons. change (st (set_ready q' c) r') with (st c r').
    destruct (decide (r' = r)) as [->|]; [rewrite Est; split; by intros [[=] _]|tauto].
  - intros r' s0 Hst Hact. rewrite elem_of_cons. destruct (Ha r' s0 Hst Hact); tauto.
  - destruct Hc as (s0 & Hs0 & Hv). exists s0. split; [done|]. intros ?. right. auto.
  - cbn. rewrite not_elem_of_cons. split; [|done]. intros <-. by rewrite (proj2 (Hi (c_idle c)) eq_refl) in Est.
  - intros r' [->|?]%elem_of_cons; [|by apply Had]. unfold st in Est. cbn. destruct (c_heap c !! r); [done|discriminate].
Qed.

Lemma inv_pop A c i r q' : core_inv A c -> popped (c_ready c) i r q' -> core_inv (r :: A) (set_ready q' c) /\ st c r = Some Ready /\ pr c r = Some i /\ r ∉ A.
Proof. intros Hi Hp%popped_taken. by apply inv_take. Qed.

(** A new priority for a task that is in no ready list. *)
Lemma inv_prio A c r t p :
  core_inv A c -> c_heap c !! r = Some t -> (t_status t = Ready -> r ∈ A) -> 0 <= p < NO_PRIORITIES ->
  core_inv A (set_heap (<[r := set_prio p t]> (c_heap c)) c).
Proof.
  intros [Hq Hr Hrn Hb Hbn Hs Ha Hc Hi Hio Ht Hids Hf Had] Hrt HA Hp. set (c' := set_heap _ c).
  assert (forall r', st c' r' = st c r') as Est.
  { intros r'. unfold st, c'. cbn. destruct (decide (r' = r)) as [->|]; [by rewrite lookup_insert_eq, Hrt|by rewrite lookup_insert_ne]. }
  assert (forall r', r' <> r -> pr c' r' = pr c r') as Epr by (intros r' Hn; unfold pr, c'; cbn; by rewrite lookup_insert_ne).
  assert (forall r' t', c_heap c' !! r' = Some t' -> exists t0, c_heap c !! r' = Some t0 /\ t_id t0 = t_id t' /\ t_core_id t0 = t_core_id t' /\ (t_prio t0 = t_prio t' \/ t_prio t' = p)) as Hx.
  { intros r' t'. unfold c'. cbn. destruct (decide (r' = r)) as [->|Hn]; [rewrite lookup_insert_eq|rewrite lookup_insert_ne by done; intros; exists t'; auto].
    intros [= <-]. exists t. auto. }
  split; try done; try (intros; rewrite ?Est in *; eauto; done).
  - intros i r'. rewrite Est. cbn. rewrite Hr. destruct (decide (r' = r)) as [->|Hn]; [|by rewrite Epr].
    split; intros (Hst & _ & Hout); destruct Hout; apply HA; unfold st in Hst; rewrite Hrt in Hst; by injection Hst.
  - intros r' t' (t0 & H0 & _ & E2 & E3)%Hx. destruct (Ht _ _ H0) as (H1 & H2 & H3). destruct E3 as [E3|E3]; rewrite <- E2; [rewrite <- E3|rewrite E3]; done.
  - intros r1 r2 t1 t2 (t1' & H1 & E1 & _)%Hx (t2' & H2 & E2 & _)%Hx E. eapply Hids; [exact H1|exact H2|congruence].
  - intros r' Hr'. cbn. destruct (decide (r' = r)) as [->|Hn]; [by rewrite lookup_insert_eq|]. rewrite lookup_insert_ne by done. by apply Had.
Qed.

(** A task with a new id, on its way to the ready queue. *)
Lemma inv_new c t :
  core_inv [] c -> t_status t = Ready -> 0 <= t_prio t < NO_PRIORITIES -> t_core_id t = c_id c ->
  (forall r t', c_heap c !! r = Some t' -> t_id t' <> t_id t) ->
  core_inv [c_next c] (fst (new_ref t c)) /\ c_heap c !! c_next c = None.
Proof.
  intros [Hq Hr Hrn Hb Hbn Hs Ha Hc Hi Hio Ht Hids Hf Had] Hst Hp Hcore Hfresh.
  assert (c_heap c !! c_next c = None) as Hnone.
  { destruct (c_heap c !! c_next c) as [t'|] eqn:E; [|done]. apply Ht in E. lia. }
  split; [|done]. set (c' := fst (new_ref t c)).
  assert (forall r', r' <> c_next c -> st c' r' = st c r') as Est by (intros r' Hn; unfold st, c'; cbn; by rewrite lookup_insert_ne).
  assert (forall r', r' <> c_next c -> pr c' r' = pr c r') as Epr by (intros r' Hn; unfold pr, c'; cbn; by rewrite lookup_insert_ne).
  assert (st c' (c_next c) = Some Ready) as Est' by (unfold st, c'; cbn; rewrite lookup_insert_eq; cbn; by rewrite Hst).
  assert (forall r' s', st c r' = Some s' -> r' <> c_next c) as Hold by (intros r' s' Hx ->; unfold st in Hx; by rewrite Hnone in Hx).
  split; try done.
  - intros i r'. cbn. rewrite Hr, list_elem_of_singleton. destruct (decide (r' = c_next c)) as [->|Hn].
    + split; [intros (Hx & _); by apply Hold in Hx|tauto].
    + rewrite Est, Epr by done. pose proof (not_elem_of_nil r'). tauto.
  - intros r'. cbn. rewrite Hb, list_elem_of_singleton. destruct (decide (r' = c_next c)) as [->|Hn].
    + split; [intros (Hx & _); by apply Hold in Hx|tauto].
    + rewrite Est by done. pose proof (not_elem_of_nil r'). tauto.
  - intros r' s0 Hs0 Hact. destruct (decide (r' = c_next c)) as [->|Hn]; [right; by left|]. rewrite Est in Hs0 by done. left.
    destruct (Ha _ _ Hs0 Hact) as [?|?%not_elem_of_nil]; done.
  - destruct Hc as (s0 & Hs0 & Hv). exists s0. cbn. rewrite Est by (by eapply Hold). split; [done|]. by intros ?%Hv%not_elem_of_nil.
  - intros r'. change (c_idle c') with (c_idle c). destruct (decide (r' = c_next c)) as [->|Hn]; [|by rewrite Est]. rewrite Est'. split; [done|]. intros E.
    pose proof (proj2 (Hi (c_idle c)) eq_refl) as Hx. rewrite <- E in Hx. by apply Hold in Hx.
  - cbn. intros E%list_elem_of_singleton. pose proof (proj2 (Hi (c_idle c)) eq_refl) as Hx. rewrite E in Hx. by apply Hold in Hx.
  - intros r' t'. cbn. destruct (decide (r' = c_next c)) as [->|Hn]; [rewrite lookup_insert_eq|rewrite lookup_insert_ne by done].
    + intros [= <-]. split; [done|]. split; [done|lia].
    + intros (H1 & H2 & H3)%Ht. split; [done|]. split; [done|lia].
  - intros r1 r2 t1 t2. cbn. destruct (decide (r1 = c_next c)) as [->|H1], (decide (r2 = c_next c)) as [->|H2];
      rewrite ?lookup_insert_eq, ?lookup_insert_ne by done; [done|..].
    + intros [= <-] H Hid. by destruct (Hfresh _ _ H).
    + intros H [= <-] Hid. by destruct (Hfresh _ _ H).
    + apply Hids.
  - intros r' Hr'. pose proof (Hf r' Hr') as Hx. by rewrite Est by (by eapply Hold).
  - intros r' ->%list_elem_of_singleton. cbn. by rewrite lookup_insert_eq.
Qed.

(** Blocked tasks leave the list. *)
Lemma inv_unblock A c l rest :
  core_inv A c -> c_blocked c ≡ₚ l ++ rest -> StronglySorted le_time l -> core_inv ((bt_task <$> rest) ++ A) (set_blocked l c).
Proof.
  intros [Hq Hr Hrn Hb Hbn Hs Ha Hc Hi Hio Ht Hids Hf Had] Hp Hsl.
  assert (forall r, r ∈ bt_task <$> rest -> st c r = Some Blocked) as Hst.
  { intros r Hin. apply Hb. rewrite Hp, fmap_app, elem_of_app. by right. }
  rewrite Hp, fmap_app in Hbn. apply NoDup_app in Hbn as (Hn1 & Hn2 & _).
  split; try done.
  - intros i r. change (st (set_blocked l c) r) with (st c r). change (pr (set_blocked l c) r) with (pr c r). cbn.
    rewrite Hr, not_elem_of_app. split; [|tauto]. intros (Est & Epr & Hn). split; [done|]. split; [done|]. split; [|done].
    intros Hin%Hst. by rewrite Est in Hin.
  - intros r. change (st (set_blocked l c) r) with (st c r). cbn. rewrite not_elem_of_app.
    pose proof (Hb r) as Hbr. rewrite Hp, fmap_app, elem_of_app in Hbr. pose proof (Hn2 r). tauto.
  - intros r s0 Hs0 Hact. rewrite elem_of_app. destruct (Ha r s0 Hs0 Hact); tauto.
  - destruct Hc as (s0 & Hs0 & Hv). exists s0. split; [done|]. intros ?. apply elem_of_app. right. auto.
  - cbn. rewrite not_elem_of_app. split; [|done]. intros Hin%Hst. by rewrite (proj2 (Hi (c_idle c)) eq_refl) in Hin.
  - intros r [Hin%Hst|?]%elem_of_app; [|by apply Had]. unfold st in Hin. cbn. destruct (c_heap c !! r); [done|discriminate].
Qed.

(** A task on the way arrives in the list of blocked tasks. *)
Lemma inv_block A c r w l :
  core_inv (r :: A) c -> r ∉ A -> st c r = Some Blocked -> l ≡ₚ mkBlockedTask r w :: c_blocked c -> StronglySorted le_time l ->
  core_inv A (set_blocked l c).
Proof.
  intros [Hq Hr Hrn Hb Hbn Hs Ha Hc Hi Hio Ht Hids Hf Had] Hn Est Hp Hsl.
  assert (r ∉ bt_task <$> c_blocked c) as Hout by (intros [_ Hx]%Hb; destruct Hx; by left).
  split; try done.
  - intros i r'. change (st (set_blocked l c) r') with (st c r'). change (pr (set_blocked l c) r') with (pr c r'). cbn.
    rewrite Hr, not_elem_of_cons. destruct (decide (r' = r)) as [->|]; [rewrite Est; split; by intros [[=] _]|tauto].
  - intros r'. change (st (set_blocked l c) r') with (st c r'). cbn. rewrite Hp. cbn. rewrite elem_of_cons, Hb, not_elem_of_cons.
    destruct (decide (r' = r)) as [->|]; [split; [done|by left]|tauto].
  - cbn. rewrite Hp. cbn. by apply NoDup_cons.
  - intros r' s0 Hs0 Hact. change (st (set_blocked l c) r') with (st c r') in Hs0. destruct (Ha r' s0 Hs0 Hact) as [?|[->|?]%elem_of_cons]; [by left| |by right].
    rewrite Est in Hs0. injection Hs0 as <-. by destruct Hact.
  - destruct Hc as (s0 & Hs0 & Hv). exists s0. split; [done|]. intros ->. specialize (Hv eq_refl). apply elem_of_cons in Hv as [Hx|?]; [|done].
    cbn in *. rewrite Hx, Est in Hs0. done.
  - cbn. intros Hx. apply Hio. by right.
  - intros r' Hr'. apply Had. by right.
Qed.

(** The current task is left for another one. *)
Lemma inv_switch A A' c r s :
  core_inv A c -> st c r = Some s -> ~ queued s -> s <> Invalid -> (forall r', r' ∈ A' -> r' ∈ A) ->
  (forall r', r' ∈ A -> r' ∈ A' \/ r' = r \/ st c r' = Some Invalid) ->
  (forall s', st c (c_current c) = Some s' -> active s' -> c_current c = r \/ c_current c ∈ A') ->
  core_inv A' (set_current r c).
Proof.
  intros [Hq Hr Hrn Hb Hbn Hs Ha Hc Hi Hio Ht Hids Hf Had] Hst Hnq Hni Hsub Hback Hcur.
  assert (forall r' s', st c r' = Some s' -> queued s' -> r' ∈ A' <-> r' ∈ A) as HA.
  { intros r' s' Hs' Hq'. split; [apply Hsub|]. intros [?|[->|Hx]]%Hback; [done| |].
    - rewrite Hst in Hs'. by injection Hs' as ->.
    - rewrite Hx in Hs'. injection Hs' as <-. by destruct Hq'. }
  split; try done.
  - intros i r'. change (st (set_current r c) r') with (st c r'). change (pr (set_current r c) r') with (pr c r'). cbn. rewrite Hr.
    split; intros (H1 & H2 & H3); (split; [done|]; split; [done|]); [rewrite HA|rewrite <- HA]; try done; by left.
  - intros r'. change (st (set_current r c) r') with (st c r'). cbn. rewrite Hb.
    split; intros [H1 H3]; (split; [done|]); [rewrite HA|rewrite <- HA]; try done; by right.
  - intros r' s' Hs' Hact. change (st (set_current r c) r') with (st c r') in Hs'. cbn.
    destruct (Ha r' s' Hs' Hact) as [->|[?|[->|Hx]]%Hback]; [by destruct (Hcur s' Hs' Hact) as [->|]; auto|by right|by left|].
    rewrite Hx in Hs'. injection Hs' as <-. by destruct Hact.
  - exists s. split; [done|]. by intros ->.
  - cbn. by intros ?%Hsub.
  - intros r' Hr'. by apply Had, Hsub.
Qed.
End steps.
