(* ===== verification/SchedulerTheorems.v ===== *)
(** * The scheduler of one core: theorems

    Every operation keeps the invariant of SchedulerSpec.v and does not panic when it is
    called the way the kernel calls it; the scheduler picks the oldest ready task of the
    highest priority, tasks of one priority take turns, and the timer wakes exactly the
    tasks whose time has come. *)

From Stdlib Require Import Sorted FunctionalExtensionality.
From stdpp Require Import gmap.
From S2P Require Import Prelude TaskQueue TaskQueueTheorems Scheduler SchedulerSpec.

Implicit Types (c : Core) (r : TaskRef) (A : list TaskRef).

(** ** Parts of the state no task depends on *)

Definition idle_part (f : Core -> Core) : Prop :=
  forall c, c_id (f c) = c_id c /\ c_heap (f c) = c_heap c /\ c_next (f c) = c_next c /\ c_current (f c) = c_current c /\
    c_idle (f c) = c_idle c /\ c_ready (f c) = c_ready c /\ c_blocked (f c) = c_blocked c /\ (forall r, r ∈ c_finished (f c) -> r ∈ c_finished c).

Lemma inv_idle_part f A c : idle_part f -> core_inv A c -> core_inv A (f c).
Proof.
  intros Hf [Hq Hr Hrn Hb Hbn Hs Ha Hc Hi Hio Ht Hids Hfin Had]. destruct (Hf c) as (E1 & E2 & E3 & E4 & E5 & E6 & E7 & E8).
  assert (forall r, st (f c) r = st c r) as Est by (intros r; unfold st; by rewrite E2).
  assert (forall r, pr (f c) r = pr c r) as Epr by (intros r; unfold pr; by rewrite E2).
  split; rewrite ?E1, ?E2, ?E3, ?E4, ?E5, ?E6, ?E7; try done; intros; rewrite ?Est, ?Epr in *; eauto.
Qed.

Lemma idle_timer t : idle_part (set_oneshot_timer t).
Proof. by intros c. Qed.
Lemma idle_network t : idle_part (set_network_wakeup t).
Proof. by intros c. Qed.
Lemma idle_new_tasks l : idle_part (set_new_tasks l).
Proof. by intros c. Qed.
Lemma idle_wakeup_tasks l : idle_part (set_wakeup_tasks l).
Proof. by intros c. Qed.
Lemma idle_fpu_owner r : idle_part (set_fpu_owner r).
Proof. by intros c. Qed.
Lemma idle_cleanup : idle_part (set_finished []).
Proof. intros c. repeat split; try done. by intros r ?%not_elem_of_nil. Qed.

#[export] Hint Resolve idle_timer idle_network idle_new_tasks idle_wakeup_tasks idle_fpu_owner idle_cleanup : hermit.

(** ** References *)

Section references.
Context {X : unit -> Core -> Prop}.

Lemma wp_borrow r t c (Q : Task -> Core -> Prop) : c_heap c !! r = Some t -> Q t c -> wp (borrow r) Q X c.
Proof. intros Hr HQ. unfold borrow. apply wp_bind, wp_gets. rewrite Hr. by apply wp_ret. Qed.

Lemma wp_update r f t c (Q : unit -> Core -> Prop) :
  c_heap c !! r = Some t -> Q tt (set_heap (<[r := f t]> (c_heap c)) c) -> wp (update r f) Q X c.
Proof. intros Hr HQ. unfold update. eapply wp_bind, wp_borrow; [done|]. by apply wp_modify. Qed.

Lemma wp_assert b c (Q : unit -> Core -> Prop) : b = true -> Q tt c -> wp (assert b) Q X c.
Proof. intros -> HQ. by apply wp_ret. Qed.

Lemma wp_push_ready A r t c (Q : unit -> Core -> Prop) :
  core_inv (r :: A) c -> r ∉ A -> c_heap c !! r = Some t -> t_status t = Ready ->
  (forall q, core_inv A (set_ready q c) ->
     (forall i, queue_at q i = if i =? t_prio t then queue_at (c_ready c) i ++ [r] else queue_at (c_ready c) i) -> Q tt (set_ready q c)) ->
  wp (push_ready r) Q X c.
Proof.
  intros Hi Hn Hr Hst HQ. unfold push_ready. eapply wp_bind, wp_borrow; [done|]. apply wp_bind, wp_gets.
  destruct (pq_push_spec (c_ready c) (t_prio t) r) as (q & E & Hq & Hat); [by eapply ok_queue|by eapply ok_task|].
  apply wp_bind. eapply wp_lift_ok; [exact E|]. apply wp_modify. apply HQ; [by eapply inv_push|].
  intros i. rewrite Hat. destruct (i =? t_prio t) eqn:Ei; [|done]. bool_to_prop. by subst i.
Qed.

Lemma wp_mark_ready A r t c (Q : unit -> Core -> Prop) :
  core_inv A c -> r ∈ A -> c_heap c !! r = Some t -> t_status t = Blocked ->
  (core_inv A (set_heap (<[r := set_status Ready t]> (c_heap c)) c) -> Q tt (set_heap (<[r := set_status Ready t]> (c_heap c)) c)) ->
  wp (mark_ready r) Q X c.
Proof.
  intros Hi Hin Hr Hst HQ. unfold mark_ready. eapply wp_bind, wp_borrow; [done|]. apply wp_bind, wp_gets.
  destruct (ok_task _ _ Hi r t Hr) as (_ & Hid & _). apply wp_bind, wp_assert; [rewrite Hid; apply Z.eqb_refl|].
  apply wp_bind, wp_assert; [by rewrite bool_decide_eq_true_2|]. eapply wp_update; [done|]. apply HQ.
  apply (inv_update A); auto; by rewrite ?Hst.
Qed.

(** ** Waking up *)

(** The tasks [rs] are ready, in the order they came, and nothing else has changed. *)
Definition woken (rs : list TaskRef) c c' : Prop :=
  exists h q, c' = set_ready q (set_heap h c) /\
    (forall r, h !! r = if bool_decide (r ∈ rs) then set_status Ready <$> c_heap c !! r else c_heap c !! r) /\
    (forall i, queue_at q i = queue_at (c_ready c) i ++ List.filter (fun r => bool_decide (pr c r = Some i)) rs).

Lemma woken_nil c : woken [] c c.
Proof.
  exists (c_heap c), (c_ready c). split; [by destruct c|]. split; [intros r; rewrite bool_decide_eq_false_2; [done|apply not_elem_of_nil]|].
  intros i. by rewrite app_nil_r.
Qed.

Lemma woken_st rs c c' r : woken rs c c' -> st c' r = if bool_decide (r ∈ rs) then (fun _ => Ready) <$> st c r else st c r.
Proof.
  intros (h & q & -> & Hh & _). unfold st. cbn. rewrite Hh. case_bool_decide; [|done]. by destruct (c_heap c !! r).
Qed.

Lemma woken_pr rs c c' r : woken rs c c' -> pr c' r = pr c r.
Proof. intros (h & q & -> & Hh & _). unfold pr. cbn. rewrite Hh. case_bool_decide; [|done]. by destruct (c_heap c !! r). Qed.

(** A task that was just marked is pushed. *)
Lemma wp_push_marked A r t c (Q : unit -> Core -> Prop) :
  let c1 := set_heap (<[r := set_status Ready t]> (c_heap c)) c in
  core_inv (r :: A) c1 -> r ∉ A -> c_heap c !! r = Some t ->
  (forall c', core_inv A c' -> woken [r] c c' -> Q tt c') -> wp (push_ready r) Q X c1.
Proof.
  intros c1 Hi Hn Hr HQ.
  eapply (wp_push_ready A r (set_status Ready t)); [exact Hi|done|cbn; by rewrite lookup_insert_eq|done|].
  intros q Hi2 Hat. apply HQ; [exact Hi2|]. exists (<[r := set_status Ready t]> (c_heap c)), q. split; [done|]. split.
  - intros r'. destruct (decide (r' = r)) as [->|Hne].
    + rewrite lookup_insert_eq, bool_decide_eq_true_2, Hr by (by left). done.
    + rewrite lookup_insert_ne, bool_decide_eq_false_2 by (rewrite ?list_elem_of_singleton; done). done.
  - intros i. rewrite Hat. cbn. unfold pr. rewrite Hr. cbn. rewrite (Z.eqb_sym i). destruct (t_prio t =? i) eqn:E; bool_to_prop.
    + subst i. by rewrite bool_decide_eq_true_2.
    + rewrite bool_decide_eq_false_2 by congruence. by rewrite app_nil_r.
Qed.

(** One task, blocked and off the list, becomes ready. *)
Lemma wp_wake_one A r c (Q : unit -> Core -> Prop) :
  core_inv (r :: A) c -> r ∉ A -> st c r = Some Blocked ->
  (forall c', core_inv A c' -> woken [r] c c' -> Q tt c') ->
  wp (let! _ := mark_ready r in push_ready r) Q X c.
Proof.
  intros Hi Hn Hst HQ. unfold st in Hst. destruct (c_heap c !! r) as [t|] eqn:Hr; [|done]. injection Hst as Hst.
  apply wp_bind. eapply wp_mark_ready; [exact Hi|by left|done|done|]. intros Hi1. by apply (wp_push_marked A).
Qed.

Lemma woken_cons r rs c c1 c2 : r ∉ rs -> woken [r] c c1 -> woken rs c1 c2 -> woken (r :: rs) c c2.
Proof.
  intros Hn (h1 & q1 & -> & Hh1 & Hq1) (h2 & q2 & -> & Hh2 & Hq2). exists h2, q2. split; [done|]. split.
  - intros r'. rewrite Hh2. cbn. rewrite Hh1. destruct (decide (r' = r)) as [->|Hne].
    + rewrite bool_decide_eq_false_2 by done. rewrite !bool_decide_eq_true_2 by (by left). done.
    + rewrite (bool_decide_eq_false_2 (r' ∈ [r])) by (by rewrite list_elem_of_singleton).
      by rewrite (bool_decide_ext (r' ∈ r :: rs) (r' ∈ rs)) by (rewrite elem_of_cons; tauto).
  - intros i. rewrite Hq2. cbn. rewrite Hq1. cbn. rewrite <- app_assoc. f_equal.
    assert (forall r', pr (set_ready q1 (set_heap h1 c)) r' = pr c r') as Epr.
    { intros r'. unfold pr. cbn. rewrite Hh1. case_bool_decide; [|done]. by destruct (c_heap c !! r'). }
    rewrite (List.filter_ext _ (fun r => bool_decide (pr c r = Some i))) by (intros x; by rewrite Epr).
    by destruct (bool_decide (pr c r = Some i)).
Qed.

Lemma wake_all_cons b l : wake_all (b :: l) = sbind (let! _ := mark_ready (bt_task b) in push_ready (bt_task b)) (fun _ => wake_all l).
Proof.
  cbn [wake_all]. unfold sbind. apply functional_extensionality. intros c. by destruct (mark_ready (bt_task b) c) as [? []].
Qed.

Lemma wp_wake_all l : forall c (Q : unit -> Core -> Prop),
  core_inv (bt_task <$> l) c -> NoDup (bt_task <$> l) -> (forall r, r ∈ bt_task <$> l -> st c r = Some Blocked) ->
  (forall c', core_ok c' -> woken (bt_task <$> l) c c' -> Q tt c') -> wp (wake_all l) Q X c.
Proof.
  induction l as [|b l IH]; intros c Q Hi Hn Hst HQ.
  { apply wp_ret. apply HQ; [done|apply woken_nil]. }
  rewrite wake_all_cons. cbn [fmap list_fmap] in *. apply NoDup_cons in Hn as [Hn1 Hn2].
  apply wp_bind, (wp_wake_one (bt_task <$> l)); [done|done|apply Hst; by left|]. intros c1 Hi1 Hw1. apply IH; [done|done| |].
  - intros r Hr. rewrite (woken_st _ _ _ _ Hw1), bool_decide_eq_false_2; [apply Hst; by right|].
    rewrite list_elem_of_singleton. by intros ->.
  - intros c2 Hi2 Hw2. apply HQ; [done|]. by eapply woken_cons.
Qed.

Lemma filter_split (f : BlockedTask -> bool) l : l ≡ₚ List.filter (fun b => negb (f b)) l ++ List.filter f l.
Proof. induction l as [|b l IH]; [done|]. cbn. destruct (f b); cbn; [rewrite <- Permutation_middle|]; by rewrite <- IH. Qed.

(** The state the timer interrupt leaves: the tasks whose time is over are ready, in
    order, and the timer is set for the next. *)
Definition timer_post (now : Z) (nic : option (option Z)) c c' : Prop :=
  let l := c_blocked c in
  let network := match nic with Some delay => (fun d => add64 d now) <$> delay | None => c_network_wakeup c end in
  let c1 := set_network_wakeup network (set_blocked (List.filter (fun b => negb (elapsed now b)) l) c) in
  exists c2, woken (bt_task <$> List.filter (elapsed now) l) c1 c2 /\
    c' = set_oneshot_timer (min_opt (front_time (c_blocked c2)) network) c2.

Lemma wp_handle_waiting now nic c (Q : unit -> Core -> Prop) :
  core_ok c -> (forall c', core_ok c' -> timer_post now nic c c' -> Q tt c') -> wp (handle_waiting_tasks now nic) Q X c.
Proof.
  intros Hi HQ. unfold handle_waiting_tasks, blocked_handle_waiting_tasks.
  set (network := match nic with Some delay => (fun d => add64 d now) <$> delay | None => c_network_wakeup c end).
  apply wp_bind, (wp_mono _ (fun _ c1 => c1 = set_network_wakeup network c) _ X); [| |done].
  { destruct nic as [delay|]; [by apply wp_modify|]. apply wp_ret. by destruct c. }
  intros _ c1 ->. apply wp_bind, wp_gets, wp_bind, wp_modify, wp_bind.
  set (l := c_blocked c). change (c_blocked (set_network_wakeup network c)) with l.
  assert (bt_task <$> l ≡ₚ (bt_task <$> List.filter (fun b => negb (elapsed now b)) l) ++ (bt_task <$> List.filter (elapsed now) l)) as Hp.
  { rewrite <- fmap_app. apply fmap_Permutation, filter_split. }
  pose proof (ok_blocked_nodup _ _ Hi) as Hnd. fold l in Hnd. rewrite Hp in Hnd. apply NoDup_app in Hnd as (_ & _ & Hnd).
  apply (wp_wake_all (List.filter (elapsed now) l)).
  - apply (inv_equiv ((bt_task <$> List.filter (elapsed now) l) ++ [])); [intros r; by rewrite app_nil_r|].
    apply inv_unblock; [by apply inv_idle_part; auto with hermit|apply filter_split|]. apply sorted_filter. by eapply ok_sorted.
  - done.
  - intros r Hr. change (st c r = Some Blocked). apply (ok_blocked _ _ Hi). fold l. rewrite Hp. apply elem_of_app. by right.
  - intros c2 Hi2 Hw. apply wp_bind, wp_gets, wp_bind, wp_gets, wp_modify. apply HQ; [apply inv_idle_part; auto with hermit|].
    exists c2. split; [exact Hw|]. destruct Hw as (h & q & -> & _). done.
Qed.

Lemma find_blocked_spec id h l :
  Forall (fun b => is_Some (h !! bt_task b)) l ->
  (exists before b after t, find_blocked id h l = Ok (Some (before, bt_task b, after)) /\ l = before ++ b :: after /\
     h !! bt_task b = Some t /\ t_id t = id) \/
  find_blocked id h l = Ok None /\ Forall (fun b => forall t, h !! bt_task b = Some t -> t_id t <> id) l.
Proof.
  induction l as [|b l IH]; intros Hl; [by right|]. apply Forall_cons in Hl as [[t Ht] Hl]. cbn. rewrite Ht.
  destruct (t_id t =? id) eqn:E; bool_to_prop.
  - left. exists [], b, l, t. done.
  - destruct (IH Hl) as [(before & b' & after & t' & -> & -> & Hb' & Hid)|[-> Hf]]; cbn.
    + left. exists (b :: before), b', after, t'. done.
    + right. split; [done|]. constructor; [|done]. intros t0 Ht0. rewrite Ht in Ht0. by injection Ht0 as <-.
Qed.

(** After waking [r]: it is off the list and ready; the wake-up times may have changed the
    timers. *)
Definition wake_post r c c' : Prop :=
  exists before b after network timer,
    c_blocked c = before ++ b :: after /\ bt_task b = r /\
    woken [r] (set_oneshot_timer timer (set_blocked (before ++ after) (set_network_wakeup network c))) c'.

Lemma wp_wake_local now task c r t (Q : unit -> Core -> Prop) :
  core_ok c -> c_heap c !! r = Some t -> t_id t = th_id task -> t_status t = Blocked ->
  (forall c', core_ok c' -> wake_post r c c' -> Q tt c') -> wp (wake_local now task) Q X c.
Proof.
  intros Hi Hr Hid Hst HQ. unfold wake_local, blocked_custom_wakeup. apply wp_bind, wp_bind, wp_gets, wp_bind.
  apply (wp_mono _ (fun _ c1 => exists n, c1 = set_network_wakeup n c) _ X); [| |done].
  { assert (exists n, c = set_network_wakeup n c) as Hsame by (exists (c_network_wakeup c); by destruct c).
    destruct (c_network_wakeup c) as [n|]; [destruct (n <=? now); [apply wp_modify; eauto|by apply wp_ret]|by apply wp_ret]. }
  intros _ c1 [n ->]. apply wp_bind, wp_gets, wp_bind, wp_gets, wp_bind.
  change (c_blocked (set_network_wakeup n c)) with (c_blocked c). change (c_heap (set_network_wakeup n c)) with (c_heap c).
  assert (Forall (fun b => is_Some (c_heap c !! bt_task b)) (c_blocked c)) as Hdef.
  { apply Forall_forall. intros b Hb. assert (bt_task b ∈ bt_task <$> c_blocked c) as Hin by (by apply list_elem_of_fmap_2).
    apply (ok_blocked _ _ Hi) in Hin as [Hin _]. unfold st in Hin. by destruct (c_heap c !! bt_task b). }
  assert (r ∈ bt_task <$> c_blocked c) as Hin.
  { apply (ok_blocked _ _ Hi). split; [|apply not_elem_of_nil]. unfold st. rewrite Hr. cbn. by rewrite Hst. }
  destruct (find_blocked_spec (th_id task) (c_heap c) (c_blocked c) Hdef) as [(before & b & after & t' & E & Hl & Ht' & Hid')|[E Hf]].
  2:{ exfalso. apply list_elem_of_fmap in Hin as (b & -> & Hb). rewrite Forall_forall in Hf. by apply (Hf b Hb t Hr). }
  assert (bt_task b = r) as Hb by (eapply (ok_ids _ _ Hi); [exact Ht'|exact Hr|congruence]).
  eapply wp_lift_ok; [exact E|]. cbn beta iota. apply wp_bind, wp_modify, wp_bind.
  set (c2 := set_blocked (before ++ after) (set_network_wakeup n c)).
  apply (wp_mono _ (fun _ c3 => exists tm, c3 = set_oneshot_timer tm c2) _ X); [| |done].
  { destruct before as [|x before].
    - apply wp_bind, wp_gets, wp_modify. eauto.
    - apply wp_ret. exists (c_timer c2). by destruct c. }
  intros _ c3 [tm ->]. rewrite Hb.
  assert (core_inv [r] (set_oneshot_timer tm c2)) as Hi3.
  { apply inv_idle_part; [auto with hermit|]. unfold c2. rewrite <- Hb. apply (inv_unblock [] _ _ [b]).
    - apply inv_idle_part; auto with hermit.
    - cbn. rewrite Hl. rewrite <- Permutation_cons_append. by rewrite <- Permutation_middle.
    - eapply sorted_remove. rewrite <- Hl. by eapply ok_sorted. }
  apply wp_bind. eapply wp_mark_ready; [exact Hi3|by left|exact Hr|done|]. intros Hi4. apply wp_ret.
  apply (wp_push_marked [] r t (set_oneshot_timer tm c2)); [exact Hi4|apply not_elem_of_nil|exact Hr|].
  intros c4 Hi5 Hw. apply HQ; [done|]. exists before, b, after, n, tm. done.
Qed.

(** ** Leaving the processor *)

Lemma current_task A c : core_inv A c -> exists t, c_heap c !! c_current c = Some t /\ (t_status t = Invalid -> c_current c ∈ A).
Proof.
  intros Hi. destruct (ok_current _ _ Hi) as (s & Hs & Hv). unfold st in Hs.
  destruct (c_heap c !! c_current c) as [t|] eqn:E; [|done]. injection Hs as <-. eauto.
Qed.

Lemma set_status_same t : set_status (t_status t) t = t.
Proof. by destruct t. Qed.

(** The current task goes to sleep; it stays current until the next switch. *)
Lemma wp_block_current wt c t (Q : unit -> Core -> Prop) :
  core_ok c -> c_heap c !! c_current c = Some t -> t_status t = Running ->
  (forall c' l timer, core_ok c' -> l ≡ₚ mkBlockedTask (c_current c) wt :: c_blocked c ->
     c' = set_blocked l (set_oneshot_timer timer (set_heap (<[c_current c := set_status Blocked t]> (c_heap c)) c)) -> Q tt c') ->
  wp (block_current_task wt) Q X c.
Proof.
  intros Hi Ht Hst HQ. unfold block_current_task, blocked_add. apply wp_bind, wp_gets. eapply wp_bind, wp_borrow; [done|].
  apply wp_bind, wp_assert; [by rewrite bool_decide_eq_true_2|]. apply wp_bind. eapply wp_update; [done|]. apply wp_bind, wp_gets.
  set (c1 := set_heap _ c).
  assert (core_inv [c_current c] c1) as Hi1.
  { apply (inv_update []); rewrite ?Hst; try done; try (by left); [|by intros []].
    intros r' Hne. rewrite list_elem_of_singleton. split; [done|by intros ?%not_elem_of_nil]. }
  assert (st c1 (c_current c) = Some Blocked) as Hst1 by (unfold st, c1; cbn; by rewrite lookup_insert_eq).
  destruct wt as [wt|].
  - apply wp_bind, wp_gets, wp_bind, wp_modify, wp_modify.
    eapply HQ; [|apply insert_blocked_perm|reflexivity].
    eapply inv_block; [by apply inv_idle_part; auto with hermit|apply not_elem_of_nil|exact Hst1|apply insert_blocked_perm|].
    apply insert_blocked_sorted; [done|]. by eapply ok_sorted.
  - apply wp_modify. eapply (HQ _ _ (c_timer c)); [| |reflexivity].
    + eapply inv_block; [by destruct c|apply not_elem_of_nil|exact Hst1|by rewrite <- Permutation_cons_append|].
      apply sorted_app_forever. by eapply ok_sorted.
    + by rewrite <- Permutation_cons_append.
Qed.

(** ** Switching *)

Lemma set_current_same c : set_current (c_current c) c = c.
Proof. by destruct c. Qed.

Lemma inv_finished A c r : core_inv A c -> st c r = Some Invalid -> core_inv A (set_finished (c_finished c ++ [r]) c).
Proof.
  intros [Hq Hr Hrn Hb Hbn Hs Ha Hc Hi Hio Ht Hids Hf Had] Hst. split; try done.
  intros r'. cbn. rewrite elem_of_app, list_elem_of_singleton. intros [?| ->]; [by apply Hf|done].
Qed.

(** The end of [scheduler]: [r], just taken from the queue or the idle task, takes over. *)
Definition run_task (n : Task) r c : Core :=
  set_current r (if bool_decide (t_status n = Idle) then c else set_heap (<[r := set_status Running n]> (c_heap c)) c).

Lemma wp_switch_to A c r n cur t (Q : option TaskRef -> Core -> Prop) :
  core_inv A c -> c_heap c !! r = Some n -> t_status n = Ready /\ r ∈ A \/ t_status n = Idle ->
  (forall r', r' ∈ A -> r' = r \/ st c r' = Some Invalid) -> c_current c = cur ->
  (exists t', c_heap c !! cur = Some t' /\ t_id t' = t_id t /\ ~ active (t_status t')) ->
  (core_ok (run_task n r c) -> Q (if bool_decide (r = cur) then None else Some cur) (run_task n r c)) ->
  wp (let! n := borrow r in
      let! _ := if bool_decide (t_status n = Idle) then sret tt else update r (set_status Running) in
      if t_id t =? t_id n then sret None else let! _ := smodify (set_current r) in sret (Some cur)) Q X c.
Proof.
  intros Hi Hr Hst HA Hcur (t' & Ht' & Hid & Hact) HQ. eapply wp_bind, wp_borrow; [done|]. apply wp_bind.
  set (c1 := if bool_decide (t_status n = Idle) then c else set_heap (<[r := set_status Running n]> (c_heap c)) c).
  assert (core_inv A c1 /\ c_current c1 = cur /\ exists s, st c1 r = Some s /\ s <> Invalid /\ ~ queued s) as (Hi1 & Hcur1 & s & Hs1 & Hninv & Hnq).
  { unfold c1. clear HQ. case_bool_decide as E.
    { split; [done|]. split; [done|]. exists Idle. unfold st. rewrite Hr. cbn. rewrite E. by split; [|split; [|intros []]]. }
    destruct Hst as [[Hst Hin]|Hst]; [|done]. split; [|split; [done|exists Running; unfold st; cbn; rewrite lookup_insert_eq; by split; [|split; [|intros []]]]].
    apply (inv_update A); rewrite ?Hst; auto; done. }
  assert (forall x, x <> r -> st c1 x = st c x) as Hother.
  { intros x Hx. unfold c1, st. clear HQ. case_bool_decide; [done|]. cbn. by rewrite lookup_insert_ne. }
  assert (core_ok (run_task n r c)) as Hok.
  { apply (inv_switch A []) with s; try done; fold c1.
    - by intros ? ?%not_elem_of_nil.
    - intros r' Hin. right. destruct (decide (r' = r)) as [|Hne]; [by left|]. right. rewrite Hother by done. by destruct (HA r' Hin).
    - intros s' Hs' Ha'. left. rewrite Hcur1 in *. destruct (decide (cur = r)) as [|Hne]; [done|]. rewrite Hother in Hs' by done.
      unfold st in Hs'. rewrite Ht' in Hs'. injection Hs' as <-. done. }
  apply (wp_mono _ (fun _ x => x = c1) _ X); [| |done].
  { unfold c1. clear HQ. case_bool_decide; [by apply wp_ret|]. by eapply wp_update. }
  intros _ c2 ->. rewrite <- Hid. destruct (t_id t' =? t_id n) eqn:E; bool_to_prop.
  - assert (cur = r) as -> by (by eapply (ok_ids _ _ Hi)). rewrite bool_decide_eq_true_2 in HQ by done.
    assert (run_task n r c = c1) as <-; [|by apply wp_ret, HQ]. unfold run_task. fold c1. rewrite <- Hcur1 at 1. apply set_current_same.
  - rewrite bool_decide_eq_false_2 in HQ by (intros ->; congruence). apply wp_bind, wp_modify, wp_ret, HQ. done.
Qed.

(** The oldest ready task of the highest priority, which is at least [low]; [q] is what it
    leaves behind. *)
Definition next_ready (low : Z) c r (q : Z -> list TaskRef) : Prop :=
  exists i rest, low <= i /\ 0 <= i < NO_PRIORITIES /\ queue_at (c_ready c) i = r :: rest /\ (forall j, i < j -> queue_at (c_ready c) j = []) /\
    forall j, q j = if j =? i then rest else queue_at (c_ready c) j.

Definition none_ready (low : Z) c : Prop := forall i, 0 <= i -> low <= i -> queue_at (c_ready c) i = [].

(** What a switch to [r] does to the status [s] of task [x], and where it leaves the task
    that ran. *)
Definition left_status (s : TaskStatus) : TaskStatus := match s with Running => Ready | Finished => Invalid | s => s end.

Definition status_after (cur r x : TaskRef) (s : TaskStatus) : TaskStatus :=
  if bool_decide (x = r) then (if bool_decide (s = Idle) then Idle else Running)
  else if bool_decide (x = cur) then left_status s
  else s.

Definition switched r (q : Z -> list TaskRef) (t : Task) c c' : Prop :=
  exists h ready, c' = set_current r (set_ready ready (set_heap h
      (set_finished (if bool_decide (t_status t = Finished) then [c_current c] else []) c))) /\
    (forall x, h !! x = (fun t => set_status (status_after (c_current c) r x (t_status t)) t) <$> c_heap c !! x) /\
    (forall j, queue_at ready j = q j ++ (if bool_decide (t_status t = Running) && (j =? t_prio t) then [c_current c] else [])).

(** [scheduler]: a running task is left for a ready one of at least its priority, any other
    for whatever is ready, else for the idle task. *)
Inductive sched_post c (t : Task) : option TaskRef -> Core -> Prop :=
  | sched_keep : t_status t = Running -> none_ready (t_prio t) c -> sched_post c t None (set_finished [] c)
  | sched_stay : t_status t = Idle -> none_ready 0 c -> sched_post c t None (set_finished [] c)
  | sched_idle c' : t_status t <> Running -> t_status t <> Idle -> none_ready 0 c ->
      switched (c_idle c) (fun _ => []) t c c' -> sched_post c t (Some (c_current c)) c'
  | sched_next r q c' : next_ready (if bool_decide (t_status t = Running) then t_prio t else 0) c r q ->
      switched r q t c c' -> sched_post c t (if bool_decide (r = c_current c) then None else Some (c_current c)) c'.

Lemma popped_next low c i r q' : low <= i -> popped (c_ready c) i r q' -> next_ready low c r (queue_at q').
Proof. intros Hl (Hi & Hhigh & _ & rest & E & Hat). exists i, rest. done. Qed.

Lemma queue_negative q i : i < 0 -> queue_at q i = [].
Proof. intros Hi. unfold queue_at. by guard_false (0 <=? i). Qed.

(** The tasks once the current one has been left. *)
Definition left_heap (t : Task) c (h : gmap TaskRef Task) : Prop :=
  forall x, h !! x = if bool_decide (x = c_current c) then Some (set_status (left_status (t_status t)) t) else c_heap c !! x.

Lemma left_heap_run t c h r n :
  c_heap c !! c_current c = Some t -> left_heap t c h -> h !! r = Some n -> t_status n = Ready \/ t_status n = Idle ->
  forall x, c_heap (run_task n r (set_heap h c)) !! x = (fun t => set_status (status_after (c_current c) r x (t_status t)) t) <$> c_heap c !! x.
Proof.
  intros Ht Hh Hr Hn x. unfold run_task, status_after. cbn. pose proof (Hh r) as Er. rewrite Hr in Er.
  destruct (decide (x = r)) as [->|Hx].
  - rewrite (bool_decide_eq_true_2 (r = r)) by done.
    assert (exists t0, c_heap c !! r = Some t0 /\ n = set_status (t_status n) t0 /\ (t_status n = Idle <-> t_status t0 = Idle)) as (t0 & -> & En & Hidle).
    { case_bool_decide; [subst r|exists n; by rewrite <- Er, set_status_same]. exists t. injection Er as ->. cbn. split; [done|]. split; [done|].
      by destruct (t_status t). }
    cbn. destruct (decide (t_status n = Idle)) as [Ei|Ei].
    + rewrite !bool_decide_eq_true_2 by tauto. cbn. rewrite Hr, En. by rewrite Ei.
    + rewrite !bool_decide_eq_false_2 by tauto. cbn. rewrite lookup_insert_eq, En. done.
  - rewrite (bool_decide_eq_false_2 (x = r)) by done.
    clear Er. transitivity (h !! x); [case_bool_decide; cbn; [done|]; by rewrite lookup_insert_ne|]. rewrite Hh. case_bool_decide; [subst x; by rewrite Ht|].
    destruct (c_heap c !! x) as [t0|]; [cbn|done]. by rewrite set_status_same.
Qed.

(** From a task that does not run any more. *)
Lemma wp_leave A c0 t h (Q : option TaskRef -> Core -> Prop) :
  let c := set_heap h (set_finished (if bool_decide (t_status t = Finished) then [c_current c0] else []) c0) in
  c_heap c0 !! c_current c0 = Some t -> t_status t <> Running -> left_heap t c0 h ->
  core_inv A c -> (forall r, r ∈ A -> r = c_current c0 /\ t_status t = Finished) ->
  (forall o c', core_ok c' -> sched_post c0 t o c' -> Q o c') ->
  wp (let! (q, task) := slift (pq_pop (c_ready c0)) in
      let! _ := smodify (set_ready q) in
      match task with
      | Some task => sret (Some task)
      | None => if bool_decide (t_status t = Idle) then sret None else let! idle := sgets c_idle in sret (Some idle)
      end)
   (fun new_task => wp match new_task with
      | None => sret None
      | Some task =>
          let! _ := sret tt in
          let! n := borrow task in
          let! _ := if bool_decide (t_status n = Idle) then sret tt else update task (set_status Running) in
          if t_id t =? t_id n then sret None
          else let! _ := smodify (set_current task) in sret (Some (c_current c0))
      end Q X) X c.
Proof.
  intros c Ht Hnr Hh Hi HA HQ. pose proof (Hh (c_current c0)) as Hcur. rewrite bool_decide_eq_true_2 in Hcur by done.
  assert (exists t', h !! c_current c0 = Some t' /\ t_id t' = t_id t /\ ~ active (t_status t')) as Hcur'.
  { eexists. split; [exact Hcur|]. split; [done|]. cbn. by destruct (t_status t); intros []. }
  destruct (pq_pop_spec (c_ready c0)) as [[He E]|(i & r & q' & E & Hp)]; [exact (ok_queue _ _ Hi)|..];
    apply wp_bind; (eapply wp_lift_ok; [exact E|]); cbn beta iota; apply wp_bind, wp_modify.
  - assert (none_ready 0 c0) as Hnone by (intros j Hj _; by apply He).
    replace (set_ready (c_ready c0) c) with c by (by destruct c0).
    case_bool_decide as Eidle.
    + assert (c = set_finished [] c0) as Ec.
      { unfold c. rewrite bool_decide_eq_false_2 by congruence. assert (h = c_heap c0) as ->; [|by destruct c0].
        apply map_eq. intros x. rewrite Hh. case_bool_decide; [subst x|done]. rewrite Ht, Eidle. cbn. by rewrite <- Eidle, set_status_same. }
      apply wp_ret, wp_ret. apply HQ; rewrite Ec; [|by constructor].
      apply (inv_equiv A); [|by rewrite <- Ec]. intros r. split; [|by intros ?%not_elem_of_nil]. intros [_ Hr]%HA. congruence.
    + apply wp_bind, wp_gets, wp_ret, wp_bind, wp_ret. change (c_idle c) with (c_idle c0).
      pose proof (proj2 (ok_idle _ _ Hi (c_idle c0)) eq_refl) as Hidle. unfold st in Hidle.
      destruct (c_heap c !! c_idle c0) as [n|] eqn:En; [|done]. injection Hidle as Hidle.
      assert (c_idle c0 <> c_current c0) as Hne.
      { intros E'. change (c_heap c) with h in En. rewrite E', Hcur in En. injection En as <-. cbn in Hidle. by destruct (t_status t). }
      apply (wp_switch_to A c (c_idle c0) n); auto.
      * intros r [-> Hf]%HA. right. unfold st. cbn. rewrite Hcur. cbn. by rewrite Hf.
      * intros Hok. rewrite bool_decide_eq_false_2 by done. apply HQ; [done|]. apply sched_idle; auto.
        exists h, (c_ready c0). split; [|split].
        -- unfold run_task. rewrite bool_decide_eq_true_2 by done. unfold c. by destruct c0.
        -- intros x. rewrite <- (left_heap_run t c0 h (c_idle c0) n) by auto. unfold run_task. by rewrite bool_decide_eq_true_2.
        -- intros j. rewrite (bool_decide_eq_false_2 (t_status t = Running)) by done. cbn.
           destruct (Z.lt_ge_cases j 0); [by apply queue_negative|by apply He].
  - apply wp_ret, wp_bind, wp_ret.
    destruct (inv_pop _ _ _ _ _ Hi Hp) as (Hi1 & Hst & _ & Hout). unfold st in Hst. change (c_heap c) with h in Hst.
    destruct (h !! r) as [n|] eqn:En; [|done]. injection Hst as Hst.
    apply (wp_switch_to (r :: A) (set_ready q' c) r n); auto.
    + left. split; [done|by left].
    + intros x [->|[-> Hf]%HA]%elem_of_cons; [by left|]. right. unfold st. cbn. rewrite Hcur. cbn. by rewrite Hf.
    + intros Hok. apply HQ; [done|]. eapply sched_next; [eapply popped_next; [|exact Hp]|].
      { rewrite bool_decide_eq_false_2 by done. apply Hp. }
      eexists _, q'. split; [|split].
      * unfold run_task. rewrite (bool_decide_eq_false_2 (t_status n = Idle)) by congruence. unfold c. reflexivity.
      * intros x. rewrite <- (left_heap_run t c0 h r n) by auto. unfold run_task.
        by rewrite (bool_decide_eq_false_2 (t_status n = Idle)) by congruence.
      * intros j. rewrite (bool_decide_eq_false_2 (t_status t = Running)) by done. cbn. by rewrite app_nil_r.
Qed.

(** A running task gives way to [r], which was just taken from the queue. *)
Lemma wp_preempt c0 t r i q' (Q : option TaskRef -> Core -> Prop) :
  let c := set_finished [] c0 in
  core_ok c -> c_heap c0 !! c_current c0 = Some t -> t_status t = Running -> t_prio t <= i -> popped (c_ready c0) i r q' ->
  (forall o c', core_ok c' -> sched_post c0 t o c' -> Q o c') ->
  wp (let! _ := let! _ := update (c_current c0) (set_status Ready) in push_ready (c_current c0) in
      let! n := borrow r in
      let! _ := if bool_decide (t_status n = Idle) then sret tt else update r (set_status Running) in
      if t_id t =? t_id n then sret None
      else let! _ := smodify (set_current r) in sret (Some (c_current c0))) Q X (set_ready q' c).
Proof.
  intros c Hi Ht Hst Hle Hp HQ. destruct (inv_pop _ _ _ _ _ Hi Hp) as (Hi1 & Hsr & _ & _).
  unfold st in Hsr. change (c_heap c) with (c_heap c0) in Hsr. destruct (c_heap c0 !! r) as [n|] eqn:En; [|done]. injection Hsr as Hsr.
  assert (r <> c_current c0) as Hne by (intros ->; rewrite Ht in En; congruence).
  apply wp_bind, wp_bind. eapply wp_update; [exact Ht|]. set (h := <[c_current c0 := set_status Ready t]> (c_heap c0)).
  change (set_heap _ (set_ready q' c)) with (set_heap h (set_ready q' c)).
  assert (core_inv [c_current c0; r] (set_heap h (set_ready q' c))) as Hi2.
  { apply (inv_update [r] _ (set_ready q' c)); rewrite ?Hst; auto; try done.
    - intros x Hx. rewrite elem_of_cons. tauto.
    - by intros [].
    - intros _. by left. }
  eapply (wp_push_ready [r] _ (set_status Ready t)); [exact Hi2|by rewrite list_elem_of_singleton; auto|cbn; unfold h; by rewrite lookup_insert_eq|done|].
  intros ready Hi3 Hat.
  assert (left_heap t c0 h) as Hh.
  { intros x. unfold h. rewrite Hst. cbn. case_bool_decide; [subst x; by rewrite lookup_insert_eq|by rewrite lookup_insert_ne]. }
  assert (h !! r = Some n) as En' by (unfold h; by rewrite lookup_insert_ne).
  apply (wp_switch_to [r] _ r n); auto.
  - left. split; [done|by left].
  - intros x ->%list_elem_of_singleton. by left.
  - exists (set_status Ready t). cbn. unfold h. rewrite lookup_insert_eq. split; [done|]. split; [done|]. by intros [].
  - intros Hok. rewrite bool_decide_eq_false_2 by done. apply HQ; [done|].
    replace (Some (c_current c0)) with (if bool_decide (r = c_current c0) then None else Some (c_current c0)) by (by rewrite bool_decide_eq_false_2).
    apply (sched_next c0 t r (queue_at q')); [rewrite bool_decide_eq_true_2 by done; by eapply popped_next|].
    exists (<[r := set_status Running n]> h), ready. split; [|split].
    + unfold run_task. rewrite !bool_decide_eq_false_2 by congruence. done.
    + intros x. rewrite <- (left_heap_run t c0 h r n) by auto. unfold run_task.
        by rewrite (bool_decide_eq_false_2 (t_status n = Idle)) by congruence.
    + intros j. rewrite Hat. cbn. rewrite (bool_decide_eq_true_2 (t_status t = Running)) by done. cbn.
      destruct (j =? t_prio t); [done|]. by rewrite app_nil_r.
Qed.

Lemma wp_scheduler c (Q : option TaskRef -> Core -> Prop) :
  core_ok c ->
  (forall t o c', c_heap c !! c_current c = Some t -> core_ok c' -> sched_post c t o c' -> Q o c') ->
  wp scheduler Q X c.
Proof.
  intros Hi HQ. destruct (current_task _ _ Hi) as (t & Ht & Hv). specialize (fun o c' => HQ t o c' Ht).
  unfold scheduler. apply wp_bind, wp_modify, wp_bind, wp_gets. eapply wp_bind, wp_borrow; [exact Ht|].
  assert (core_ok (set_finished [] c)) as Hi0 by (apply inv_idle_part; auto with hermit).
  unfold choose_task. apply wp_bind, wp_bind, wp_gets.
  change (c_ready (set_finished [] c)) with (c_ready c). change (c_current (set_finished [] c)) with (c_current c).
  destruct (decide (t_status t = Running)) as [Er|Er].
  - rewrite bool_decide_eq_true_2 by done.
    destruct (pq_pop_with_prio_spec (c_ready c) (t_prio t)) as [[He E]|(i & r & q' & E & Hle & Hp)]; [by eapply ok_queue|..];
      apply wp_bind; (eapply wp_lift_ok; [exact E|]); cbn beta iota; apply wp_bind, wp_modify, wp_ret.
    + apply wp_ret. replace (set_ready (c_ready c) (set_finished [] c)) with (set_finished [] c) by (by destruct c).
      apply HQ; [done|]. by constructor.
    + by eapply wp_preempt.
  - rewrite bool_decide_eq_false_2 by done. apply wp_bind.
    destruct (decide (t_status t = Finished)) as [Ef|Ef].
    + rewrite bool_decide_eq_true_2 by done. apply wp_bind, wp_gets, wp_bind. eapply wp_update; [exact Ht|]. apply wp_modify.
      set (h := <[c_current c := set_status Invalid t]> (c_heap c)).
      assert (core_inv [c_current c] (set_heap h (set_finished [] c))) as Hi1.
      { apply (inv_update [] _ (set_finished [] c)); rewrite ?Ef; auto; try done; try (by intros []).
        - intros x Hx. rewrite list_elem_of_singleton. split; [done|by intros ?%not_elem_of_nil].
        - intros _ _. by left. }
      pose proof (wp_leave [c_current c] c t h Q) as Hl. cbn zeta in Hl. rewrite bool_decide_eq_true_2 in Hl by done.
      apply Hl; auto; clear Hl.
      * intros x. unfold h. rewrite Ef. cbn. case_bool_decide; [subst x; by rewrite lookup_insert_eq|by rewrite lookup_insert_ne].
      * apply (inv_finished _ _ (c_current c)) in Hi1; [exact Hi1|]. unfold st, h. cbn. by rewrite lookup_insert_eq.
      * intros r ->%list_elem_of_singleton. done.
    + rewrite bool_decide_eq_false_2 by done. apply wp_ret.
      pose proof (wp_leave [] c t (c_heap c) Q) as Hl. cbn zeta in Hl. rewrite bool_decide_eq_false_2 in Hl by done.
      assert (set_heap (c_heap c) (set_finished [] c) = set_finished [] c) as Ec by (by destruct c). rewrite Ec in Hl.
      apply Hl; auto.
      * clear Hl. intros x. case_bool_decide; [subst x|done]. rewrite Ht. f_equal. destruct (t_status t) eqn:E'; try done; cbn; by rewrite <- E', set_status_same.
      * by intros r ?%not_elem_of_nil.
Qed.
End references.
