(* ===== verification/Tasks.v ===== *)
(** * Tasks on several cores: operations

    kernel/src/scheduler/mod.rs above the per-core scheduler, and the task system calls of
    kernel/src/syscalls/tasks.rs: the task table, spawning, joining, exiting, waking a task
    of another core.  One step is what a core does while it holds the lock or has
    interrupts off; a call that blocks and then switches is two steps, so interrupts and
    other cores come in between. *)

From stdpp Require Import gmap.
From S2P Require Import Prelude TaskQueue Scheduler.

Record Semaphore := mkSemaphore {
  sem_count : Z;
  sem_queue : TaskHandlePriorityQueue;
}.

Record RecursiveMutex := mkRecursiveMutex {
  rm_current_tid : option Z;
  rm_count : Z;
  rm_queue : TaskHandlePriorityQueue;
}.

(** The statics of the scheduler ([TASKS], [WAITING_TASKS], [TID_COUNTER], ...), of the
    task system calls ([BLOCKED_TASKS]) and of the futexes ([PARKING_LOT]), the cores, the
    semaphores and mutexes by address and the words of memory that futexes look at. *)
Record System := mkSystem {
  s_cores : gmap Z Core;
  s_tasks : gmap Z TaskHandle;
  s_waiting : gmap Z (list TaskHandle);
  s_tid_counter : Z;
  s_core_counter : Z;
  s_next_core_id : Z;
  s_no_tasks : Z;
  s_blocked_tasks : gmap Z TaskHandle;
  s_semaphores : gmap Z Semaphore;
  s_mutexes : gmap Z RecursiveMutex;
  s_parking_lot : gmap Z TaskHandlePriorityQueue;
  s_words : gmap Z Z;
}.

Definition set_cores x s := mkSystem x (s_tasks s) (s_waiting s) (s_tid_counter s) (s_core_counter s) (s_next_core_id s) (s_no_tasks s) (s_blocked_tasks s) (s_semaphores s) (s_mutexes s) (s_parking_lot s) (s_words s).
Definition set_tasks x s := mkSystem (s_cores s) x (s_waiting s) (s_tid_counter s) (s_core_counter s) (s_next_core_id s) (s_no_tasks s) (s_blocked_tasks s) (s_semaphores s) (s_mutexes s) (s_parking_lot s) (s_words s).
Definition set_waiting x s := mkSystem (s_cores s) (s_tasks s) x (s_tid_counter s) (s_core_counter s) (s_next_core_id s) (s_no_tasks s) (s_blocked_tasks s) (s_semaphores s) (s_mutexes s) (s_parking_lot s) (s_words s).
Definition set_tid_counter x s := mkSystem (s_cores s) (s_tasks s) (s_waiting s) x (s_core_counter s) (s_next_core_id s) (s_no_tasks s) (s_blocked_tasks s) (s_semaphores s) (s_mutexes s) (s_parking_lot s) (s_words s).
Definition set_core_counter x s := mkSystem (s_cores s) (s_tasks s) (s_waiting s) (s_tid_counter s) x (s_next_core_id s) (s_no_tasks s) (s_blocked_tasks s) (s_semaphores s) (s_mutexes s) (s_parking_lot s) (s_words s).
Definition set_next_core_id x s := mkSystem (s_cores s) (s_tasks s) (s_waiting s) (s_tid_counter s) (s_core_counter s) x (s_no_tasks s) (s_blocked_tasks s) (s_semaphores s) (s_mutexes s) (s_parking_lot s) (s_words s).
Definition set_no_tasks x s := mkSystem (s_cores s) (s_tasks s) (s_waiting s) (s_tid_counter s) (s_core_counter s) (s_next_core_id s) x (s_blocked_tasks s) (s_semaphores s) (s_mutexes s) (s_parking_lot s) (s_words s).
Definition set_blocked_tasks x s := mkSystem (s_cores s) (s_tasks s) (s_waiting s) (s_tid_counter s) (s_core_counter s) (s_next_core_id s) (s_no_tasks s) x (s_semaphores s) (s_mutexes s) (s_parking_lot s) (s_words s).
Definition set_semaphores x s := mkSystem (s_cores s) (s_tasks s) (s_waiting s) (s_tid_counter s) (s_core_counter s) (s_next_core_id s) (s_no_tasks s) (s_blocked_tasks s) x (s_mutexes s) (s_parking_lot s) (s_words s).
Definition set_mutexes x s := mkSystem (s_cores s) (s_tasks s) (s_waiting s) (s_tid_counter s) (s_core_counter s) (s_next_core_id s) (s_no_tasks s) (s_blocked_tasks s) (s_semaphores s) x (s_parking_lot s) (s_words s).
Definition set_parking_lot x s := mkSystem (s_cores s) (s_tasks s) (s_waiting s) (s_tid_counter s) (s_core_counter s) (s_next_core_id s) (s_no_tasks s) (s_blocked_tasks s) (s_semaphores s) (s_mutexes s) x (s_words s).
Definition set_words x s := mkSystem (s_cores s) (s_tasks s) (s_waiting s) (s_tid_counter s) (s_core_counter s) (s_next_core_id s) (s_no_tasks s) (s_blocked_tasks s) (s_semaphores s) (s_mutexes s) (s_parking_lot s) x.

Abbreviation SM A := (ST System unit A).

(** What core [k] does to its own scheduler, or a core to the input of core [k]
    ([get_scheduler_input], an index into a vector). *)
Definition on_core {A} (k : Z) (m : CM A) : SM A :=
  fun s => match s_cores s !! k with
           | None => (s, Panic)
           | Some c => let '(c, o) := m c in (set_cores (<[k := c]> (s_cores s)) s, o)
           end.

Definition get_processor_count (s : System) : Z := Z.of_nat (size (s_cores s)).

Definition wrap_i32 (x : Z) : Z := (x + 2147483648) mod 4294967296 - 2147483648.

(** ** Spawning *)

Fixpoint next_tid (fuel : nat) (tasks : gmap Z TaskHandle) (counter : Z) : option (Z * Z) :=
  match fuel with
  | O => None
  | S fuel =>
      match tasks !! counter with
      | Some _ => next_tid fuel tasks (wrap_i32 (counter + 1))
      | None => Some (counter, wrap_i32 (counter + 1))
      end
  end.

Definition get_tid : SM Z :=
  let! tasks := sgets s_tasks in
  let! counter := sgets s_tid_counter in
  match next_tid (S (size tasks)) tasks counter with
  | None => slift OutOfFuel
  | Some (tid, counter) => let! _ := smodify (set_tid_counter counter) in sret tid
  end.

(** The entries of a new task in the tables. *)
Definition register (h : TaskHandle) : SM unit :=
  let! _ := smodify (fun s => set_waiting (<[th_id h := []]> (s_waiting s)) s) in
  smodify (fun s => set_tasks (<[th_id h := h]> (s_tasks s)) s).

Definition push_new_task (n : NewTask) : CM unit := smodify (fun c => set_new_tasks (c_new_tasks c ++ [n]) c).

(** The part of [PerCoreScheduler::spawn] and [clone_impl] that adds the task [n]. *)
Definition add_new_task (k : Z) (n : NewTask) : SM unit :=
  let! _ := on_core (nt_core_id n) (sret tt) in
  let! _ := register (mkTaskHandle (nt_tid n) (nt_prio n) (nt_core_id n)) in
  let! _ := smodify (fun s => set_no_tasks (as_u32 (s_no_tasks s + 1)) s) in
  if nt_core_id n =? k then on_core k (start_task n) else on_core (nt_core_id n) (push_new_task n).

(** [PerCoreScheduler::spawn] *)
Definition spawn_on (k prio core_id : Z) : SM Z :=
  let! tid := get_tid in
  let! _ := add_new_task k (mkNewTask tid prio core_id) in
  sret tid.

Definition spawn (k prio selector : Z) : SM Z :=
  let! count := sgets get_processor_count in
  let! core_id :=
    if selector <? 0 then
      let! n := sgets s_core_counter in
      let! _ := smodify (set_core_counter (as_u32 (n + 1))) in
      sret (n mod count)
    else sret (as_u32 selector) in
  spawn_on k prio core_id.

Definition clone_impl (k : Z) : SM Z :=
  let! count := sgets get_processor_count in
  let! id := sgets s_next_core_id in
  let! _ := smodify (set_next_core_id (as_u32 (id + 1))) in
  let! core_id :=
    if id =? count then let! _ := smodify (set_next_core_id 0) in sret 0 else sret id in
  let! tid := get_tid in
  let! prio := on_core k get_current_task_prio in
  let! _ := add_new_task k (mkNewTask tid prio core_id) in
  sret tid.

(** [add_current_core]: the scheduler of core [k] with its idle task. *)
Definition boot_core (k tid : Z) : Core :=
  mkCore k {[O := mkTask tid Idle IDLE_PRIO k]} 1 O O O pq_new [] [] None None [] [].

Definition add_current_core (k : Z) : SM unit :=
  let! tid := get_tid in
  let! _ := register (mkTaskHandle tid IDLE_PRIO k) in
  smodify (fun s => set_cores (<[k := boot_core k tid]> (s_cores s)) s).

(** ** Waking, joining, exiting *)

Definition push_wakeup (h : TaskHandle) : CM unit := smodify (fun c => set_wakeup_tasks (c_wakeup_tasks c ++ [h]) c).

Definition custom_wakeup (k now : Z) (task : TaskHandle) : SM unit :=
  if th_core_id task =? k then on_core k (wake_local now task)
  else on_core (th_core_id task) (push_wakeup task).

Fixpoint wake_handles (k now : Z) (l : list TaskHandle) : SM unit :=
  match l with
  | [] => sret tt
  | h :: l => let! _ := custom_wakeup k now h in wake_handles k now l
  end.

(** One round of the loop in [join]; [false] if the task now waits. *)
Definition join (k id : Z) : SM bool :=
  let! waiting := sgets s_waiting in
  match waiting !! id with
  | None => sret true
  | Some queue =>
      let! h := on_core k get_current_task_handle in
      let! _ := smodify (fun s => set_waiting (<[id := queue ++ [h]]> (s_waiting s)) s) in
      let! _ := on_core k (block_current_task None) in
      sret false
  end.

(** [exit] up to the switch: the current task is finished. *)
Definition finish_current : CM Z :=
  let! r := sgets c_current in
  let! t := borrow r in
  let! _ := assert (negb (bool_decide (t_status t = Idle))) in
  let! _ := update r (set_status Finished) in
  sret (t_id t).

Definition exit (k now : Z) : SM unit :=
  let! id := on_core k finish_current in
  let! _ := smodify (fun s => set_no_tasks (as_u32 (s_no_tasks s - 1)) s) in
  let! waiting := sgets s_waiting in
  match waiting !! id with
  | None => sret tt
  | Some queue =>
      let! _ := smodify (set_waiting (delete id waiting)) in
      wake_handles k now queue
  end.

(** [set_priority]; the call panics where [expect] does. *)
Definition set_priority (k id prio : Z) : SM unit :=
  let! tasks := sgets s_tasks in
  let! task := sopt tt (tasks !! id) in
  if negb (th_core_id task =? k) then sret tt else
  let! cur := on_core k get_current_task_id in
  if cur =? th_id task then on_core k (set_current_task_priority prio)
  else
    let! r := scatch (on_core k (ready_set_priority task prio)) in
    match r with inl _ => sret tt | inr _ => slift Panic end.

(** One round of [run], the loop of the idle task; [true] if it goes on to switch. *)
Definition idle_round (now : Z) : CM bool :=
  let! _ := check_input now in
  let! _ := cleanup_tasks in
  let! q := sgets c_ready in
  sret (negb (pq_is_empty q)).

(** ** System calls *)

(** [usleep] for at least 10 ms; a shorter one spins and yields. *)
Definition usleep (k now usecs : Z) : SM bool :=
  if 10000 <=? usecs then
    let! _ := on_core k (block_current_task (Some (add64 now usecs))) in sret true
  else sret false.

Definition sys_block_current_task (k now : Z) (timeout : option Z) : SM unit :=
  let wakeup_time := (fun t => add64 now (as_u64 (t * 1000))) <$> timeout in
  let! h := on_core k get_current_task_handle in
  let! tid := on_core k get_current_task_id in
  let! _ := smodify (fun s => set_blocked_tasks (<[tid := h]> (s_blocked_tasks s)) s) in
  on_core k (block_current_task wakeup_time).

Definition sys_wakeup_task (k now id : Z) : SM unit :=
  let! blocked := sgets s_blocked_tasks in
  match blocked !! id with
  | None => sret tt
  | Some h =>
      let! _ := smodify (set_blocked_tasks (delete id blocked)) in
      custom_wakeup k now h
  end.

Definition sys_set_priority (k id prio : Z) : SM unit :=
  if 0 <? prio then
    let! r := scatch (set_priority k id prio) in
    match r with inl _ => sret tt | inr _ => slift Panic end
  else slift Panic.

Definition sys_set_current_task_priority (k prio : Z) : SM unit :=
  if 0 <? prio then on_core k (set_current_task_priority prio) else slift Panic.
