(* ===== verification/Synch.v ===== *)
(** * Semaphores, recursive mutexes and futexes: operations

    kernel/src/synch/{semaphore,recmutex,futex}.rs.  Each round of an acquire loop, between
    taking and releasing the lock of the object, is one step. *)

From stdpp Require Import gmap.
From S2P Require Import Prelude TaskQueue Scheduler Tasks.

Definition EAGAIN : Z := 11.
Definition EINVAL : Z := 22.
Definition ETIMEDOUT : Z := 110.

Definition wrap_i64 (x : Z) : Z := (x + 9223372036854775808) mod 18446744073709551616 - 9223372036854775808.

(** ** Semaphores *)

Definition semaphore_new (count : Z) : Semaphore := mkSemaphore count hq_new.

Definition get_semaphore (a : Z) : SM Semaphore :=
  let! m := sgets s_semaphores in
  match m !! a with Some x => sret x | None => slift Panic end.
Definition put_semaphore (a : Z) (x : Semaphore) : SM unit :=
  smodify (fun s => set_semaphores (<[a := x]> (s_semaphores s)) s).

(** A round of [acquire]: [Some] is the result, [None] goes round again, after a switch if
    [spun] ([backoff.is_completed()]). *)
Definition sem_acquire (k now a : Z) (wakeup_time : option Z) (spun : bool) : SM (option bool) :=
  let! x := get_semaphore a in
  if 0 <? sem_count x then
    let! _ := put_semaphore a (mkSemaphore (sem_count x - 1) (sem_queue x)) in
    sret (Some true)
  else if match wakeup_time with Some t => t <? now | None => false end then
    let! h := on_core k get_current_task_handle in
    let! (q, _) := slift (hq_remove (sem_queue x) h) in
    let! _ := put_semaphore a (mkSemaphore (sem_count x) q) in
    sret (Some false)
  else if spun then
    let! _ := on_core k (block_current_task wakeup_time) in
    let! h := on_core k get_current_task_handle in
    let! q := slift (hq_push (sem_queue x) h) in
    let! _ := put_semaphore a (mkSemaphore (sem_count x) q) in
    sret None
  else sret None.

Definition sem_try_acquire (a : Z) : SM bool :=
  let! x := get_semaphore a in
  if 0 <? sem_count x then
    let! _ := put_semaphore a (mkSemaphore (sem_count x - 1) (sem_queue x)) in
    sret true
  else sret false.

Definition sem_release (k now a : Z) : SM unit :=
  let! x := get_semaphore a in
  let! (q, task) := slift (hq_pop (sem_queue x)) in
  let! _ := put_semaphore a (mkSemaphore (wrap_i64 (sem_count x + 1)) q) in
  match task with
  | None => sret tt
  | Some task => custom_wakeup k now task
  end.

(** ** Recursive mutexes *)

Definition recmutex_new : RecursiveMutex := mkRecursiveMutex None 0 hq_new.

Definition get_mutex (a : Z) : SM RecursiveMutex :=
  let! m := sgets s_mutexes in
  match m !! a with Some x => sret x | None => slift Panic end.
Definition put_mutex (a : Z) (x : RecursiveMutex) : SM unit :=
  smodify (fun s => set_mutexes (<[a := x]> (s_mutexes s)) s).

(** A round of [acquire]: [true] when the mutex is held, [false] to switch and go round. *)
Definition mutex_acquire (k a : Z) : SM bool :=
  let! tid := on_core k get_current_task_id in
  let! x := get_mutex a in
  match rm_current_tid x with
  | None =>
      let! _ := put_mutex a (mkRecursiveMutex (Some tid) 1 (rm_queue x)) in
      sret true
  | Some current_tid =>
      if current_tid =? tid then
        let! _ := put_mutex a (mkRecursiveMutex (Some tid) (add64 (rm_count x) 1) (rm_queue x)) in
        sret true
      else
        let! _ := on_core k (block_current_task None) in
        let! h := on_core k get_current_task_handle in
        let! q := slift (hq_push (rm_queue x) h) in
        let! _ := put_mutex a (mkRecursiveMutex (Some current_tid) (rm_count x) q) in
        sret false
  end.

Definition mutex_release (k now a : Z) : SM unit :=
  let! x := get_mutex a in
  let count := if 0 <? rm_count x then rm_count x - 1 else rm_count x in
  if 0 <? count then put_mutex a (mkRecursiveMutex (rm_current_tid x) count (rm_queue x))
  else
    let! (q, task) := slift (hq_pop (rm_queue x)) in
    let! _ := put_mutex a (mkRecursiveMutex None count q) in
    match task with
    | None => sret tt
    | Some task => custom_wakeup k now task
    end.

(** ** Futexes *)

Definition atomic_load (a : Z) : SM Z :=
  let! m := sgets s_words in
  match m !! a with Some v => sret v | None => slift Panic end.
Definition atomic_store (a v : Z) : SM unit := smodify (fun s => set_words (<[a := v]> (s_words s)) s).

Definition put_queue (a : Z) (q : TaskHandlePriorityQueue) : SM unit :=
  smodify (fun s => set_parking_lot (<[a := q]> (s_parking_lot s)) s).
(** [if queue.get().is_empty() { queue.remove() }] *)
Definition put_or_remove (a : Z) (q : TaskHandlePriorityQueue) : SM unit :=
  if hq_is_empty q then smodify (fun s => set_parking_lot (delete a (s_parking_lot s)) s) else put_queue a q.

Definition futex_wakeup_time (now : Z) (timeout : option Z) (relative : bool) : option Z :=
  if relative then t ← timeout; checked_add64 now t else timeout.

(** [block_current_task], [parking_lot.entry(..).or_default().push(handle)] *)
Definition park (k a : Z) (wakeup_time : option Z) : SM TaskHandle :=
  let! _ := on_core k (block_current_task wakeup_time) in
  let! handle := on_core k get_current_task_handle in
  let! lot := sgets s_parking_lot in
  let! q := slift (hq_push (default hq_new (lot !! a)) handle) in
  let! _ := put_queue a q in
  sret handle.

(** Up to the first switch: an error, or the handle that was parked. *)
Definition futex_wait (k now a expected : Z) (timeout : option Z) (relative : bool) : SM (Z + TaskHandle) :=
  let! v := atomic_load a in
  if negb (v =? expected) then sret (inl (- EAGAIN)) else
  let! h := park k a (futex_wakeup_time now timeout relative) in
  sret (inr h).

Definition futex_wait_and_set (k now a expected : Z) (timeout : option Z) (relative : bool) (new_value : Z) : SM (Z + TaskHandle) :=
  let! v := atomic_load a in
  let! _ := atomic_store a new_value in
  if negb (v =? expected) then sret (inl (- EAGAIN)) else
  let! h := park k a (futex_wakeup_time now timeout relative) in
  sret (inr h).

(** A round of the loop, after a switch. *)
Definition futex_woken (k now a : Z) (handle : TaskHandle) (wakeup_time : option Z) : SM (option Z) :=
  let! lot := sgets s_parking_lot in
  if match wakeup_time with Some t => t <=? now | None => false end then
    match lot !! a with
    | None => sret (Some 0)
    | Some q =>
        let! (q, removed) := slift (hq_remove q handle) in
        let! _ := put_or_remove a q in
        sret (Some (if removed : bool then - ETIMEDOUT else 0))
    end
  else
    let! parked :=
      match lot !! a with
      | None => sret false
      | Some q => slift (hq_contains q handle)
      end in
    if parked : bool then
      let! _ := on_core k (block_current_task wakeup_time) in sret None
    else sret (Some 0).

(** The loop of [futex_wake]: how many were woken, and what is left of the queue. *)
Fixpoint wake_loop (fuel : nat) (k now count woken : Z) (q : TaskHandlePriorityQueue) : SM (Z * TaskHandlePriorityQueue) :=
  match fuel with
  | O => slift OutOfFuel
  | S fuel =>
      if negb (woken =? count) || (count =? I32_MAX) then
        let! (q, handle) := slift (hq_pop q) in
        match handle with
        | None => sret (woken, q)
        | Some handle =>
            let! _ := custom_wakeup k now handle in
            wake_loop fuel k now count (Z.min I32_MAX (woken + 1)) q
        end
      else sret (woken, q)
  end.

(** Every handle of a queue. *)
Definition hq_all (q : TaskHandlePriorityQueue) : list TaskHandle := mjoin (default [] <$> hq_queues q).

Definition futex_wake (k now a count : Z) : SM Z :=
  if count <? 0 then sret (- EINVAL) else
  let! lot := sgets s_parking_lot in
  match lot !! a with
  | None => sret 0
  | Some q =>
      let! (woken, q) := wake_loop (S (length (hq_all q))) k now count 0 q in
      let! _ := put_or_remove a q in
      sret woken
  end.

Definition futex_wake_or_set (k now a count new_value : Z) : SM Z :=
  if count <? 0 then sret (- EINVAL) else
  let! lot := sgets s_parking_lot in
  match lot !! a with
  | None => let! _ := atomic_store a new_value in sret 0
  | Some q =>
      let! (woken, q) := wake_loop (S (length (hq_all q))) k now count 0 q in
      let! _ := put_or_remove a q in
      let! _ := if woken =? 0 then atomic_store a new_value else sret tt in
      sret woken
  end.
