(* ===== verification/TasksSpec.v ===== *)
(** * Tasks on several cores: the invariant

    Besides the invariant of each core: a task is on the core the task table says; a
    handle that waits somewhere, in a join queue, at a lock, in a parking lot or in the
    input of a core, waits there only once and belongs to a task that sleeps without a
    time limit. *)

From Stdlib Require Import Sorted.
From stdpp Require Import gmap.
From S2P Require Import Prelude TaskQueue TaskQueueTheorems Scheduler SchedulerSpec SchedulerTheorems Tasks Synch.

Implicit Types (c : Core) (r : TaskRef) (h : TaskHandle) (s : System).

(** ** One core *)

(** The task of [h] sleeps until someone wakes it. *)
Definition asleep_on c h : Prop :=
  exists r t, mkBlockedTask r None ∈ c_blocked c /\ c_heap c !! r = Some t /\ t_id t = th_id h.

Record core_placed (tasks : gmap Z TaskHandle) (k : Z) c : Prop := {
  pl_ok : core_ok c;
  pl_id : c_id c = k;
  pl_tasks r t : c_heap c !! r = Some t -> th_core_id <$> tasks !! t_id t = Some k;
  pl_new_nodup : NoDup (nt_tid <$> c_new_tasks c);
  pl_new n : n ∈ c_new_tasks c ->
    th_core_id <$> tasks !! nt_tid n = Some k /\ nt_core_id n = k /\ 0 <= nt_prio n < NO_PRIORITIES /\
    forall r t, c_heap c !! r = Some t -> t_id t <> nt_tid n;
}.

Definition same_ids c c' : Prop :=
  c_id c' = c_id c /\ (forall r, t_id <$> c_heap c' !! r = t_id <$> c_heap c !! r).

Lemma same_ids_lookup c c' r t' : same_ids c c' -> c_heap c' !! r = Some t' -> exists t, c_heap c !! r = Some t /\ t_id t = t_id t'.
Proof. intros [_ Hs] Hr. specialize (Hs r). rewrite Hr in Hs. destruct (c_heap c !! r) as [t|]; [|done]. injection Hs as Hs. eauto. Qed.

Lemma same_ids_sym c c' : same_ids c c' -> same_ids c' c.
Proof. intros [H1 H2]. by split. Qed.

Lemma same_ids_trans c1 c2 c3 : same_ids c1 c2 -> same_ids c2 c3 -> same_ids c1 c3.
Proof. intros [H1 H2] [H3 H4]. split; [congruence|]. intros r. by rewrite H4. Qed.

Lemma placed_same tasks k c c' :
  core_placed tasks k c -> core_ok c' -> same_ids c c' -> c_new_tasks c' = c_new_tasks c -> core_placed tasks k c'.
Proof.
  intros [Hok Hid Ht Hn Hnew] Hok' Hs En. split; [done|by rewrite (proj1 Hs)| |by rewrite En|].
  - intros r t' Hr. destruct (same_ids_lookup _ _ _ _ Hs Hr) as (t & Hr' & <-). by eapply Ht.
  - intros n. rewrite En. intros (H1 & H2 & H3 & H4)%Hnew. split; [done|]. split; [done|]. split; [done|]. intros r t' Hr.
    destruct (same_ids_lookup _ _ _ _ Hs Hr) as (t & Hr' & <-). by eapply H4.
Qed.

(** A core step that wakes none but the tasks [D] of those that sleep without a limit. *)
Definition keeps_asleep (D : list Z) c c' : Prop := forall h, asleep_on c h -> th_id h ∉ D -> asleep_on c' h.

Lemma keeps_asleep_blocked D c c' :
  same_ids c c' -> (forall r, mkBlockedTask r None ∈ c_blocked c -> mkBlockedTask r None ∈ c_blocked c' \/ exists t, c_heap c !! r = Some t /\ t_id t ∈ D) ->
  keeps_asleep D c c'.
Proof.
  intros Hs Hb h (r & t & Hin & Hr & Hid) Hn. apply same_ids_sym in Hs. destruct (Hb r Hin) as [Hin'|(t' & Hr' & Hd)].
  - pose proof (proj2 Hs r) as E. rewrite Hr in E. destruct (c_heap c' !! r) as [t'|] eqn:Hr'; [|done]. injection E as E.
    exists r, t'. split; [done|]. split; [done|]. congruence.
  - exfalso. apply Hn. rewrite <- Hid. congruence.
Qed.

Lemma keeps_asleep_trans D1 D2 c1 c2 c3 : keeps_asleep D1 c1 c2 -> keeps_asleep D2 c2 c3 -> keeps_asleep (D1 ++ D2) c1 c3.
Proof. intros H1 H2 h Ha Hn. rewrite not_elem_of_app in Hn. apply H2; [|tauto]. apply H1; tauto. Qed.

Lemma asleep_blocked c h : core_ok c -> asleep_on c h -> exists r t, c_heap c !! r = Some t /\ t_id t = th_id h /\ t_status t = Blocked.
Proof.
  intros Hok (r & t & Hin & Hr & Hid). exists r, t. split; [done|]. split; [done|].
  assert (r ∈ bt_task <$> c_blocked c) as Hb by (by apply (list_elem_of_fmap_2 bt_task) in Hin).
  apply (ok_blocked _ _ Hok) in Hb as [Hst _]. unfold st in Hst. rewrite Hr in Hst. by injection Hst.
Qed.

Definition calm (D : list Z) c c' : Prop :=
  core_ok c' /\ same_ids c c' /\ c_new_tasks c' = c_new_tasks c /\ c_wakeup_tasks c' = c_wakeup_tasks c /\ keeps_asleep D c c'.

Lemma calm_refl c : core_ok c -> calm [] c c.
Proof. intros Hok. split; [done|]. split; [by split|]. split; [done|]. split; [done|]. by intros h. Qed.

Lemma calm_trans D1 D2 c1 c2 c3 : calm D1 c1 c2 -> calm D2 c2 c3 -> calm (D1 ++ D2) c1 c3.
Proof.
  intros (_ & H2 & H3 & H4 & H5) (K1 & K2 & K3 & K4 & K5). split; [done|]. split; [by eapply same_ids_trans|].
  split; [congruence|]. split; [congruence|]. by eapply keeps_asleep_trans.
Qed.

Lemma woken_same_ids rs c c' : woken rs c c' -> same_ids c c'.
Proof.
  intros (h & q & -> & Hh & _). split; [done|]. intros r. cbn. rewrite Hh. case_bool_decide; [|done]. by destruct (c_heap c !! r).
Qed.

Lemma timer_calm now nic c c' : core_ok c' -> timer_post now nic c c' -> calm [] c c'.
Proof.
  intros Hok (c2 & Hw & ->). pose proof (woken_same_ids _ _ _ Hw) as Hs. destruct Hw as (h & q & -> & _).
  split; [done|]. split; [done|]. split; [done|]. split; [done|]. apply keeps_asleep_blocked; [done|]. intros r Hin. left. cbn.
  apply list_elem_of_In, filter_In. split; [by apply list_elem_of_In|done].
Qed.

Lemma sched_calm c t o c' : core_ok c -> core_ok c' -> sched_post c t o c' -> calm [] c c'.
Proof.
  intros Hok0 Hok Hp. split; [done|].
  assert (forall r q, switched r q t c c' -> same_ids c c' /\ c_new_tasks c' = c_new_tasks c /\ c_wakeup_tasks c' = c_wakeup_tasks c /\ c_blocked c' = c_blocked c) as Hsw.
  { intros r q (h & ready & -> & Hh & _). split; [|done]. split; [done|]. intros x. cbn. rewrite Hh. by destruct (c_heap c !! x). }
  assert (same_ids c c' /\ c_new_tasks c' = c_new_tasks c /\ c_wakeup_tasks c' = c_wakeup_tasks c /\ c_blocked c' = c_blocked c) as (H1 & H2 & H3 & H4).
  { destruct Hp; try (by eapply Hsw); by repeat split. }
  split; [done|]. split; [done|]. split; [done|]. apply keeps_asleep_blocked; [done|]. intros r. rewrite H4. by left.
Qed.

Lemma wake_calm c r t c' : core_ok c' -> c_heap c !! r = Some t -> wake_post r c c' -> calm [t_id t] c c'.
Proof.
  intros Hok Hr (before & b & after & n & tm & Hl & Hb & Hw). pose proof (woken_same_ids _ _ _ Hw) as Hs. destruct Hw as (h & q & -> & _).
  split; [done|]. split; [done|]. split; [done|]. split; [done|]. apply keeps_asleep_blocked; [done|]. intros x. cbn. rewrite Hl, !elem_of_app, elem_of_cons.
  intros [?|[E|?]]; [by left; left| |by left; right]. right. exists t. subst b. cbn in Hb. subst x. split; [done|]. by left.
Qed.

(** A change of the current task, which runs, that leaves its id. *)
Lemma current_change_calm c f t :
  core_ok (set_heap (<[c_current c := f t]> (c_heap c)) c) -> c_heap c !! c_current c = Some t -> t_id (f t) = t_id t ->
  calm [] c (set_heap (<[c_current c := f t]> (c_heap c)) c).
Proof.
  intros Hok Ht Hf. assert (same_ids c (set_heap (<[c_current c := f t]> (c_heap c)) c)) as Hs.
  { split; [done|]. intros r. cbn. destruct (decide (r = c_current c)) as [->|]; [|by rewrite lookup_insert_ne].
    rewrite lookup_insert_eq, Ht. cbn. by rewrite Hf. }
  split; [done|]. split; [done|]. split; [done|]. split; [done|]. apply keeps_asleep_blocked; [done|]. by left.
Qed.

Lemma block_calm c t wt l timer :
  let c' := set_blocked l (set_oneshot_timer timer (set_heap (<[c_current c := set_status Blocked t]> (c_heap c)) c)) in
  core_ok c' -> c_heap c !! c_current c = Some t -> l ≡ₚ mkBlockedTask (c_current c) wt :: c_blocked c -> calm [] c c'.
Proof.
  intros c' Hok Ht Hl. assert (same_ids c c') as Hs.
  { split; [done|]. intros r. cbn. destruct (decide (r = c_current c)) as [->|]; [|by rewrite lookup_insert_ne].
    by rewrite lookup_insert_eq, Ht. }
  split; [done|]. split; [done|]. split; [done|]. split; [done|]. apply keeps_asleep_blocked; [done|]. intros r Hr. left. cbn. rewrite Hl. by right.
Qed.

(** ** Operations of one core *)

Section operations.
Context {X : unit -> Core -> Prop}.

Lemma wp_reschedule c (Q : option (TaskRef * bool) -> Core -> Prop) :
  core_ok c -> (forall o c', calm [] c c' -> Q o c') -> wp reschedule Q X c.
Proof.
  intros Hi HQ. unfold reschedule. apply wp_bind, wp_scheduler; [done|]. intros t o c' Ht Hok Hp.
  pose proof (sched_calm _ _ _ _ Hi Hok Hp) as Hc. destruct o as [old|]; [|by apply wp_ret, HQ].
  apply wp_bind, wp_gets. destruct (current_task _ _ Hok) as (t' & Ht' & _). eapply wp_bind, wp_borrow; [done|]. by apply wp_bind, wp_gets, wp_ret, HQ.
Qed.

Lemma wp_timer_handler now nic c (Q : option (TaskRef * bool) -> Core -> Prop) :
  core_ok c -> (forall o c', calm [] c c' -> Q o c') -> wp (timer_handler now nic) Q X c.
Proof.
  intros Hi HQ. unfold timer_handler. apply wp_bind, wp_handle_waiting; [done|]. intros c1 Hok1 Hp1.
  pose proof (timer_calm _ _ _ _ Hok1 Hp1) as Hc1. apply wp_reschedule; [done|]. intros o c2 Hc2. apply HQ. apply (calm_trans _ _ _ _ _ Hc1 Hc2).
Qed.

Lemma wp_current_handle c t (Q : TaskHandle -> Core -> Prop) :
  c_heap c !! c_current c = Some t -> Q (mkTaskHandle (t_id t) (t_prio t) (t_core_id t)) c -> wp get_current_task_handle Q X c.
Proof. intros Ht HQ. unfold get_current_task_handle. apply wp_bind, wp_gets. eapply wp_bind, wp_borrow; [done|]. by apply wp_ret. Qed.

Lemma wp_current_id c t (Q : Z -> Core -> Prop) : c_heap c !! c_current c = Some t -> Q (t_id t) c -> wp get_current_task_id Q X c.
Proof. intros Ht HQ. unfold get_current_task_id. apply wp_bind, wp_gets. eapply wp_bind, wp_borrow; [done|]. by apply wp_ret. Qed.

Lemma wp_current_prio c t (Q : Z -> Core -> Prop) : c_heap c !! c_current c = Some t -> Q (t_prio t) c -> wp get_current_task_prio Q X c.
Proof. intros Ht HQ. unfold get_current_task_prio. apply wp_bind, wp_gets. eapply wp_bind, wp_borrow; [done|]. by apply wp_ret. Qed.

Lemma wp_set_current_prio c t p (Q : unit -> Core -> Prop) :
  core_ok c -> c_heap c !! c_current c = Some t -> t_status t = Running -> 0 <= p < NO_PRIORITIES ->
  (forall c', calm [] c c' -> Q tt c') -> wp (set_current_task_priority p) Q X c.
Proof.
  intros Hi Ht Hst Hp HQ. unfold set_current_task_priority. apply wp_bind, wp_gets. eapply wp_update; [done|]. apply HQ.
  apply current_change_calm; [|done|done]. apply inv_prio; [done|done|congruence|done].
Qed.

Lemma wp_finish_current c t (Q : Z -> Core -> Prop) :
  core_ok c -> c_heap c !! c_current c = Some t -> t_status t = Running ->
  (forall c', calm [] c c' -> Q (t_id t) c') -> wp finish_current Q X c.
Proof.
  intros Hi Ht Hst HQ. unfold finish_current. apply wp_bind, wp_gets. eapply wp_bind, wp_borrow; [done|].
  apply wp_bind, wp_assert; [by rewrite Hst|]. apply wp_bind. eapply wp_update; [done|]. apply wp_ret, HQ.
  apply current_change_calm; [|done|done]. apply (inv_update []); rewrite ?Hst; try done; try (by intros []). by left.
Qed.

(** The current task sleeps; without a time limit, until it is woken. *)
Lemma wp_block c t wt (Q : unit -> Core -> Prop) :
  core_ok c -> c_heap c !! c_current c = Some t -> t_status t = Running ->
  (forall c', calm [] c c' -> c_current c' = c_current c -> c_heap c' !! c_current c = Some (set_status Blocked t) ->
     mkBlockedTask (c_current c) wt ∈ c_blocked c' -> Q tt c') ->
  wp (block_current_task wt) Q X c.
Proof.
  intros Hi Ht Hst HQ. eapply wp_block_current; [done|done|done|]. intros c' l timer Hok Hl ->.
  apply HQ; [by eapply block_calm|done|cbn; by rewrite lookup_insert_eq|]. cbn. rewrite Hl. by left.
Qed.

Lemma position_id_spec id (m : gmap TaskRef Task) l n :
  (exists r, r ∈ l /\ t_id <$> m !! r = Some id) ->
  exists j r, position_id id m l n = Some (n + Z.of_nat j) /\ l !! j = Some r /\ t_id <$> m !! r = Some id.
Proof.
  revert n. induction l as [|x l IH]; intros n (r & Hin & Hr); [by apply not_elem_of_nil in Hin|]. cbn [position_id]. case_bool_decide as E.
  - exists O, x. split; [f_equal; lia|done].
  - apply elem_of_cons in Hin as [->|Hin]; [done|]. destruct (IH (n + 1)) as (j & r' & -> & Hj & Hr'); [eauto|].
    exists (S j), r'. split; [f_equal; lia|done].
Qed.

Lemma wp_ready_set_priority c r t h p (Q : unit -> Core -> Prop) :
  core_ok c -> c_heap c !! r = Some t -> t_id t = th_id h -> t_status t = Ready -> t_prio t = th_priority h -> 0 <= p < NO_PRIORITIES ->
  (forall c', calm [] c c' -> Q tt c') -> wp (ready_set_priority h p) Q X c.
Proof.
  intros Hi Hr Hid Hst Hpr Hp HQ. unfold ready_set_priority. apply wp_bind, wp_gets, wp_bind, wp_gets.
  destruct (ok_task _ _ Hi _ _ Hr) as (Hb & _ & _). rewrite Hpr in Hb. pose proof (ok_queue _ _ Hi) as Hq. rewrite (queue_lookup _ _ Hq Hb).
  assert (r ∈ queue_at (c_ready c) (th_priority h)) as Hin.
  { apply (ok_ready _ _ Hi). unfold st, pr. rewrite Hr. cbn. rewrite Hst, Hpr. split; [done|]. split; [done|apply not_elem_of_nil]. }
  destruct (position_id_spec (th_id h) (c_heap c) (queue_at (c_ready c) (th_priority h)) 0) as (j & r' & E & Hj & Hr').
  { exists r. rewrite Hr. cbn. by rewrite Hid. }
  assert (r' = r) as ->.
  { destruct (c_heap c !! r') as [t'|] eqn:E'; [|done]. injection Hr' as Hr'. by eapply (ok_ids _ _ Hi); [exact E'|exact Hr|congruence]. }
  apply wp_bind. eapply wp_opt_some; [exact E|]. rewrite Z.add_0_l.
  destruct (pq_remove_spec (c_ready c) (th_priority h) (Z.of_nat j) r) as (q' & E' & Hq' & Hat); [done|done|lia|by rewrite Nat2Z.id|].
  apply wp_bind. eapply wp_lift_ok; [exact E'|]. cbn beta iota. apply wp_bind, wp_modify, wp_bind, wp_ret.
  destruct (inv_take [] c (th_priority h) r q') as (Hi1 & _); [done| |].
  { split; [done|]. split; [|intros i Hne; rewrite Hat; by replace (i =? th_priority h) with false by lia].
    rewrite Hat, Z.eqb_refl. unfold ztake, zdrop. rewrite Nat2Z.id. replace (Z.to_nat (Z.of_nat j + 1)) with (S j) by lia.
    rewrite <- (take_drop_middle _ _ _ Hj) at 1. by rewrite Permutation_middle. }
  apply wp_bind. eapply wp_update; [exact Hr|].
  assert (core_inv [r] (set_heap (<[r := set_prio p t]> (c_heap c)) (set_ready q' c))) as Hi2 by (apply (inv_prio [r] (set_ready q' c)); auto; intros; by left).
  eapply (wp_push_ready [] r (set_prio p t)); [exact Hi2|apply not_elem_of_nil|cbn; by rewrite lookup_insert_eq|done|].
  intros q2 Hi3 _. apply HQ.
  assert (same_ids c (set_ready q2 (set_heap (<[r := set_prio p t]> (c_heap c)) (set_ready q' c)))) as Hs.
  { split; [done|]. intros x. cbn. destruct (decide (x = r)) as [->|]; [by rewrite lookup_insert_eq, Hr|by rewrite lookup_insert_ne]. }
  split; [done|]. split; [done|]. split; [done|]. split; [done|]. apply keeps_asleep_blocked; [done|]. by left.
Qed.

(** ** New tasks *)

Definition fresh_in c (n : NewTask) : Prop := forall r t, c_heap c !! r = Some t -> t_id t <> nt_tid n.

Definition started (n : NewTask) c c' : Prop :=
  core_ok c' /\ c_heap c' = <[c_next c := new_task n]> (c_heap c) /\ c_heap c !! c_next c = None /\ c_id c' = c_id c /\
  c_blocked c' = c_blocked c /\ c_new_tasks c' = c_new_tasks c /\ c_wakeup_tasks c' = c_wakeup_tasks c.

Lemma wp_start_task n c (Q : unit -> Core -> Prop) :
  core_ok c -> nt_core_id n = c_id c -> 0 <= nt_prio n < NO_PRIORITIES -> fresh_in c n ->
  (forall c', started n c c' -> Q tt c') -> wp (start_task n) Q X c.
Proof.
  intros Hi Hid Hp Hf HQ. destruct (inv_new c (new_task n)) as [Hi1 Hnone]; [done..|]. unfold start_task. apply wp_bind.
  eapply wp_ok; [reflexivity|]. eapply (wp_push_ready [] _ (new_task n)); [exact Hi1|apply not_elem_of_nil|cbn; by rewrite lookup_insert_eq|done|].
  intros q Hi2 _. by apply HQ.
Qed.

Lemma started_asleep n c c' : started n c c' -> keeps_asleep [] c c'.
Proof.
  intros (_ & Hh & Hn & _ & Hb & _) h (r & t & Hin & Hr & Hid) _. exists r, t. rewrite Hb, Hh. split; [done|]. split; [|done].
  rewrite lookup_insert_ne; [done|]. intros <-. by rewrite Hn in Hr.
Qed.

(** The task [n] of the core's input becomes one of its tasks. *)
Lemma started_placed tasks k n c c' l :
  core_placed tasks k (set_new_tasks (n :: l) c) -> started n c c' -> core_placed tasks k (set_new_tasks l c').
Proof.
  intros [Hok Hid Ht Hnd Hnew] (Hok' & Hh & Hnone & Hid' & _). cbn in *. apply NoDup_cons in Hnd as [Hn1 Hn2]. split; cbn.
  - by apply inv_idle_part; auto with hermit.
  - congruence.
  - intros r t. rewrite Hh. destruct (decide (r = c_next c)) as [->|Hne]; [rewrite lookup_insert_eq|rewrite lookup_insert_ne by done; apply Ht].
    intros [= <-]. cbn. apply (Hnew n). by left.
  - done.
  - intros m Hm. destruct (Hnew m) as (H1 & H2 & H3 & H4); [by right|]. split; [done|]. split; [done|]. split; [done|].
    intros r t. rewrite Hh. destruct (decide (r = c_next c)) as [->|Hne]; [rewrite lookup_insert_eq|rewrite lookup_insert_ne by done; apply H4].
    intros [= <-]. cbn. intros E. apply Hn1. rewrite E. by apply (list_elem_of_fmap_2 nt_tid).
Qed.

(** ** The input of a core *)

Lemma wp_check_new tasks k l : forall c (Q : unit -> Core -> Prop),
  core_placed tasks k (set_new_tasks l c) ->
  (forall c', core_placed tasks k (set_new_tasks [] c') -> c_new_tasks c' = c_new_tasks c -> c_wakeup_tasks c' = c_wakeup_tasks c -> keeps_asleep [] c c' -> Q tt c') ->
  wp (check_new l) Q X c.
Proof.
  induction l as [|n l IH]; intros c Q Hp HQ; cbn [check_new].
  { apply wp_ret. apply HQ; try done. by intros h. }
  pose proof Hp as [Hok Hid Ht Hnd Hnew]. cbn in *. destruct (Hnew n) as (H1 & H2 & H3 & H4); [by left|].
  apply wp_bind, wp_start_task; [|congruence|done|exact H4|].
  { apply (inv_idle_part (set_new_tasks (c_new_tasks c))) in Hok; [|auto with hermit]. by destruct c. }
  intros c1 Hs. pose proof (started_asleep _ _ _ Hs) as Ha. pose proof Hs as (_ & _ & _ & _ & _ & En & Ew).
  apply IH; [by eapply started_placed|]. intros c2 Hp2 En2 Ew2 Ha2. apply HQ; [done|congruence|congruence|].
  apply (keeps_asleep_trans [] [] _ _ _ Ha Ha2).
Qed.

(** The task of [h] is ready to run. *)
Definition ready_on c h : Prop := exists r t, c_heap c !! r = Some t /\ t_id t = th_id h /\ t_status t = Ready.

Lemma wake_ready c r t h c' :
  c_heap c !! r = Some t -> t_id t = th_id h -> wake_post r c c' -> ready_on c' h /\ forall h', ready_on c h' -> ready_on c' h'.
Proof.
  intros Hr Hid (before & b & after & n & tm & _ & _ & Hw). destruct Hw as (m & q & -> & Hm & _). cbn in Hm. split.
  - exists r, (set_status Ready t). cbn. rewrite Hm, bool_decide_eq_true_2, Hr by (by left). done.
  - intros h' (r' & t' & Hr' & Hid' & Hst). exists r', t'. cbn. rewrite Hm, Hr'. case_bool_decide; [|done]. cbn. split; [|done].
    f_equal. rewrite <- Hst. apply set_status_same.
Qed.

Lemma wp_wake_asleep now h c (Q : unit -> Core -> Prop) :
  core_ok c -> asleep_on c h -> (forall c', calm [th_id h] c c' -> ready_on c' h /\ (forall h', ready_on c h' -> ready_on c' h') -> Q tt c') ->
  wp (wake_local now h) Q X c.
Proof.
  intros Hi Ha HQ. destruct (asleep_blocked _ _ Hi Ha) as (r & t & Hr & Hid & Hst).
  eapply wp_wake_local; [done|exact Hr|done|done|]. intros c' Hok Hp. apply HQ; [|by eapply wake_ready]. rewrite <- Hid. by eapply wake_calm.
Qed.

Lemma wp_check_wakeups now l : forall c (Q : unit -> Core -> Prop),
  core_ok c -> NoDup (th_id <$> l) -> Forall (asleep_on c) l -> (forall c', calm (th_id <$> l) c c' -> Q tt c') -> wp (check_wakeups now l) Q X c.
Proof.
  induction l as [|h l IH]; intros c Q Hi Hn Hf HQ; cbn [check_wakeups].
  { by apply wp_ret, HQ, calm_refl. }
  apply NoDup_cons in Hn as [Hn1 Hn2]. apply Forall_cons in Hf as [Ha Hf]. apply wp_bind, wp_wake_asleep; [done|done|].
  intros c1 Hc1 _. apply IH; [by apply Hc1|done| |].
  - apply Forall_forall. intros h' Hin. apply Hc1; [rewrite Forall_forall in Hf; by apply Hf|]. rewrite list_elem_of_singleton.
    intros E. apply Hn1. rewrite <- E. by apply (list_elem_of_fmap_2 th_id).
  - intros c2 Hc2. apply HQ. apply (calm_trans _ _ _ _ _ Hc1 Hc2).
Qed.

Lemma wp_check_input tasks k now c (Q : unit -> Core -> Prop) :
  core_placed tasks k c -> NoDup (th_id <$> c_wakeup_tasks c) -> Forall (asleep_on c) (c_wakeup_tasks c) ->
  (forall c', core_placed tasks k c' -> c_wakeup_tasks c' = [] -> keeps_asleep (th_id <$> c_wakeup_tasks c) c c' -> Q tt c') ->
  wp (check_input now) Q X c.
Proof.
  intros Hp Hn Hf HQ. unfold check_input. apply wp_bind, wp_gets, wp_bind, wp_modify, wp_bind.
  assert (core_ok (set_wakeup_tasks [] c)) as Hi by (apply inv_idle_part; [auto with hermit|apply Hp]).
  apply wp_check_wakeups; [done|done|exact Hf|]. intros c1 (Hok1 & Hs1 & En1 & Ew1 & Ha1).
  apply wp_bind, wp_gets, wp_bind, wp_modify.
  assert (core_placed tasks k c1) as Hp1 by (by eapply placed_same).
  apply (wp_check_new tasks k); [by destruct c1|]. intros c2 Hp2 En2 Ew2 Ha2. cbn in *.
  apply HQ; [replace c2 with (set_new_tasks [] c2); [done|]; destruct c2; cbn in *; by subst|congruence|].
  intros h Hh Hd. apply Ha2; [|apply not_elem_of_nil]. change (asleep_on c1 h). apply Ha1; done.
Qed.
End operations.
