(* ===== verification/TasksTheorems.v ===== *)
(** * Tasks on several cores: theorems

    Every step of every core keeps the invariant of TasksSpec.v and does not panic, however
    the steps of the cores and their interrupts interleave. *)

From Stdlib Require Import FunctionalExtensionality.
From stdpp Require Import gmap.
From S2P Require Import Prelude TaskQueue TaskQueueTheorems Scheduler SchedulerSpec SchedulerTheorems Tasks Synch TasksSpec.

Implicit Types (c : Core) (r : TaskRef) (h : TaskHandle) (s : System).

(** ** Where handles wait *)

Inductive place :=
  | PJoin (id : Z)
  | PTable (id : Z)
  | PSem (a : Z)
  | PMutex (a : Z)
  | PFutex (a : Z)
  | PInput (k : Z)
  | PHand.

#[export] Instance place_eq_dec : EqDecision place.
Proof. solve_decision. Defined.

Definition is_input (p : place) : bool := match p with PInput _ => true | _ => false end.

(** In the hand of the step under way there is nothing between two steps. *)
Definition at_place s (p : place) : list TaskHandle :=
  match p with
  | PJoin id => default [] (s_waiting s !! id)
  | PTable id => option_list (s_blocked_tasks s !! id)
  | PSem a => from_option (hq_all ∘ sem_queue) [] (s_semaphores s !! a)
  | PMutex a => from_option (hq_all ∘ rm_queue) [] (s_mutexes s !! a)
  | PFutex a => from_option hq_all [] (s_parking_lot s !! a)
  | PInput k => from_option c_wakeup_tasks [] (s_cores s !! k)
  | PHand => []
  end.

Definition asleep s h : Prop := exists c, s_cores s !! th_core_id h = Some c /\ asleep_on c h.

Record pending_ok (f : place -> list TaskHandle) s : Prop := {
  pend_asleep p h : h ∈ f p -> asleep s h;
  pend_nodup p : NoDup (th_id <$> f p);
  pend_once p p' h h' : h ∈ f p -> h' ∈ f p' -> th_id h = th_id h' -> p = p';
  pend_input k : f (PInput k) = at_place s (PInput k);
  pend_input_core k h : h ∈ f (PInput k) -> th_core_id h = k;
}.

Record sys_inv (f : place -> list TaskHandle) s : Prop := {
  si_core k c : s_cores s !! k = Some c -> core_placed (s_tasks s) k c;
  si_pending : pending_ok f s;
  si_cores k : is_Some (s_cores s !! k) <-> 0 <= k < get_processor_count s;
  si_few : get_processor_count s <= U32_MAX;
  si_next : 0 <= s_next_core_id s <= get_processor_count s;
  si_counter : 0 <= s_core_counter s;
  si_tid : -2147483648 <= s_tid_counter s < 2147483648;
  si_waiting id : is_Some (s_waiting s !! id) -> is_Some (s_tasks s !! id);
  si_table id h : s_blocked_tasks s !! id = Some h -> th_id h = id;
  si_sem a x : s_semaphores s !! a = Some x -> hq_ok (sem_queue x);
  si_mutex a x : s_mutexes s !! a = Some x -> hq_ok (rm_queue x);
  si_parking a q : s_parking_lot s !! a = Some q -> hq_ok q;
}.

Definition sys_ok s : Prop := sys_inv (at_place s) s.

Lemma sys_ext f g s : (forall p, f p = g p) -> sys_inv f s -> sys_inv g s.
Proof.
  intros He [Hc [P1 P2 P3 P4 P5] Hk Hf Hn Hct Htid Hw Ht Hs Hm Hp]. split; try done. split; intros *; rewrite <- ?He; eauto.
Qed.

(** ** Steps of one core *)

Definition put_core (k : Z) c s : System := set_cores (<[k := c]> (s_cores s)) s.

Lemma count_insert k c s : is_Some (s_cores s !! k) -> get_processor_count (put_core k c s) = get_processor_count s.
Proof. intros [c0 Hk]. unfold get_processor_count, put_core. cbn. rewrite map_size_insert_Some by (by rewrite Hk). done. Qed.

Lemma wp_on_core {A} {X : unit -> System -> Prop} k c (m : CM A) s (Q : A -> System -> Prop) :
  s_cores s !! k = Some c -> wp m (fun a c' => Q a (put_core k c' s)) (fun _ _ => False) c -> wp (on_core k m) Q X s.
Proof.
  intros Hk (c' & a & E & HQ)%wp_run_ok. eapply wp_ok; [|exact HQ]. unfold on_core. by rewrite Hk, E.
Qed.

(** Core [k] becomes [c']: the tasks [D] do not wait for a wake-up any more. *)
Lemma sys_core f f' s k c c' D :
  sys_inv f s -> s_cores s !! k = Some c -> core_placed (s_tasks s) k c' -> keeps_asleep D c c' ->
  (forall p, f' p `sublist_of` f p) -> (forall p h, h ∈ f' p -> th_core_id h = k -> th_id h ∉ D) ->
  f' (PInput k) = c_wakeup_tasks c' -> (forall j, j <> k -> f' (PInput j) = f (PInput j)) ->
  sys_inv f' (put_core k c' s).
Proof.
  intros [Hc [P1 P2 P3 P4 P5] Hks Hf Hn Hct Htid Hw Ht Hs Hm Hpk] Hk Hpl Hkeep Hsub HD Hin Hother.
  assert (forall p h, h ∈ f' p -> h ∈ f p) as Hmem by (intros p h Hh; by eapply elem_of_sublist).
  split; try done; rewrite ?count_insert by eauto; try done.
  - intros j c0. cbn. destruct (decide (j = k)) as [->|Hj]; [rewrite lookup_insert_eq|rewrite lookup_insert_ne by done; apply Hc]. by intros [= <-].
  - split.
    + intros p h Hh. destruct (P1 p h (Hmem _ _ Hh)) as (c0 & Hc0 & Ha). unfold asleep. cbn. destruct (decide (th_core_id h = k)) as [E|E].
      * rewrite E in *. rewrite lookup_insert_eq. exists c'. split; [done|]. rewrite Hk in Hc0. injection Hc0 as <-. apply Hkeep; [done|]. by eapply HD.
      * rewrite lookup_insert_ne by done. eauto.
    + intros p. eapply sublist_NoDup; [apply (P2 p)|]. by apply fmap_sublist.
    + eauto.
    + intros j. cbn. destruct (decide (j = k)) as [->|Hj]; [by rewrite lookup_insert_eq|]. rewrite lookup_insert_ne, Hother, P4 by done. done.
    + eauto.
  - intros j. cbn. rewrite lookup_insert_is_Some'. rewrite Hks. split; [|by right]. intros [<-|?]; [|done]. apply Hks. eauto.
Qed.

Lemma sys_calm f s k c c' : sys_inv f s -> s_cores s !! k = Some c -> calm [] c c' -> sys_inv f (put_core k c' s).
Proof.
  intros Hs Hk (Hok & Hids & En & Ew & Ha). apply (sys_core f f s k c c' []); try done.
  - eapply placed_same; [by eapply si_core|done..].
  - intros. apply not_elem_of_nil.
  - rewrite (pend_input _ _ (si_pending _ _ Hs)). cbn. by rewrite Hk, Ew.
Qed.

(** ** Handles *)

(** The task that runs on core [k] makes the call. *)
Definition running s (k : Z) c (t : Task) : Prop :=
  s_cores s !! k = Some c /\ c_heap c !! c_current c = Some t /\ t_status t = Running.

Lemma core_unique f s k k' c c' r r' t t' :
  sys_inv f s -> s_cores s !! k = Some c -> s_cores s !! k' = Some c' -> c_heap c !! r = Some t -> c_heap c' !! r' = Some t' ->
  t_id t = t_id t' -> k = k' /\ r = r'.
Proof.
  intros Hs Hk Hk' Hr Hr' Hid. pose proof (si_core _ _ Hs _ _ Hk) as Hp. pose proof (si_core _ _ Hs _ _ Hk') as Hp'.
  pose proof (pl_tasks _ _ _ Hp _ _ Hr) as H1. pose proof (pl_tasks _ _ _ Hp' _ _ Hr') as H2. rewrite Hid, H2 in H1. injection H1 as <-.
  split; [done|]. rewrite Hk in Hk'. injection Hk' as <-. by eapply (ok_ids _ _ (pl_ok _ _ _ Hp)).
Qed.

Lemma running_awake f s k c t p h : sys_inv f s -> running s k c t -> h ∈ f p -> th_id h <> t_id t.
Proof.
  intros Hs (Hk & Hc & Hst) Hin E. destruct (pend_asleep _ _ (si_pending _ _ Hs) _ _ Hin) as (c' & Hk' & Ha).
  destruct (asleep_blocked c' h) as (r & t' & Hr & Hid & Hb); [by eapply pl_ok, si_core|done|].
  destruct (core_unique f s k _ c c' _ r t t' Hs Hk Hk' Hc Hr) as [E1 E2]; [congruence|]. rewrite <- E1, Hk in Hk'. injection Hk' as <-.
  rewrite <- E2, Hc in Hr. congruence.
Qed.

(** Another handle waits at [p]. *)
Lemma pend_add f f' s p h :
  sys_inv f s -> asleep s h -> (forall q h', h' ∈ f q -> th_id h' <> th_id h) -> is_input p = false ->
  f' p ≡ₚ h :: f p -> (forall q, q <> p -> f' q = f q) -> sys_inv f' s.
Proof.
  intros [Hc [P1 P2 P3 P4 P5] Hks Hf Hn Hct Htid Hw Ht Hs Hm Hpk] Ha Hne Hp Hadd Hsame.
  assert (forall q h', h' ∈ f' q -> h' ∈ f q \/ q = p /\ h' = h) as Hmem.
  { intros q h'. destruct (decide (q = p)) as [->|Hq]; [rewrite Hadd, elem_of_cons; tauto|rewrite Hsame by done; by left]. }
  split; try done. split.
  - intros q h' [Hin|[_ ->]]%Hmem; [by eapply P1|done].
  - intros q. destruct (decide (q = p)) as [->|Hq]; [|by rewrite Hsame]. rewrite Hadd. cbn. apply NoDup_cons. split; [|done].
    intros (h' & E & Hin)%list_elem_of_fmap. by eapply Hne.
  - intros q q' h1 h2 [Hin1|[-> ->]]%Hmem [Hin2|[-> ->]]%Hmem E; [by eapply P3|by destruct (Hne _ _ Hin1)|by destruct (Hne _ _ Hin2)|done].
  - intros k. rewrite Hsame; [apply P4|]. by intros <-.
  - intros k h'. rewrite Hsame; [apply P5|]. by intros <-.
Qed.

(** Handles move from [p] to the hand of the step, or back. *)
Lemma pend_move f f' s p :
  sys_inv f s -> p <> PHand -> is_input p = false -> f PHand ++ f p ≡ₚ f' PHand ++ f' p -> (forall q, q <> p -> q <> PHand -> f' q = f q) -> sys_inv f' s.
Proof.
  intros [Hc [P1 P2 P3 P4 P5] Hks Hf Hn Hct Htid Hw Ht Hs Hm Hpk] Hp Hpi Hperm Hsame.
  assert (forall h, h ∈ f' PHand ++ f' p <-> h ∈ f PHand \/ h ∈ f p) as Hmem by (intros h; by rewrite <- Hperm, elem_of_app).
  assert (forall q h, h ∈ f' q -> exists q', h ∈ f q' /\ (q' = q \/ (q = p \/ q = PHand) /\ (q' = p \/ q' = PHand))) as Hold.
  { intros q h Hin. destruct (decide (q = p \/ q = PHand)) as [Hq|Hq].
    - assert (h ∈ f' PHand ++ f' p) as [H|H]%Hmem by (rewrite elem_of_app; destruct Hq as [->| ->]; auto); eexists; split; [exact H|auto|exact H|auto].
    - exists q. rewrite Hsame in Hin by tauto. auto. }
  assert (NoDup (th_id <$> f' PHand ++ f' p)) as Hnd.
  { rewrite <- Hperm, fmap_app. apply NoDup_app. split; [done|]. split; [|done]. intros x (h1 & -> & H1)%list_elem_of_fmap (h2 & E & H2)%list_elem_of_fmap.
    apply Hp. by eapply P3. }
  rewrite fmap_app, NoDup_app in Hnd. destruct Hnd as (Hnd1 & Hnd12 & Hnd2).
  split; try done. split.
  - intros q h (q' & Hq' & _)%Hold. by eapply P1.
  - intros q. destruct (decide (q = PHand)) as [->|]; [done|]. destruct (decide (q = p)) as [->|]; [done|]. by rewrite Hsame.
  - intros q1 q2 h1 h2 Hin1 Hin2 E. destruct (Hold _ _ Hin1) as (p1 & Hp1 & H1). destruct (Hold _ _ Hin2) as (p2 & Hp2 & H2).
    pose proof (P3 _ _ _ _ Hp1 Hp2 E) as <-. destruct (decide (q1 = q2)) as [|Hne]; [done|]. exfalso.
    assert ((q1 = p \/ q1 = PHand) /\ (q2 = p \/ q2 = PHand)) as [K1 K2] by (destruct H1 as [->|[? ?]], H2 as [->|[? ?]]; tauto).
    destruct K1 as [-> | ->], K2 as [-> | ->]; try done.
    + apply (Hnd12 (th_id h2)); [|rewrite <- E]; by apply (list_elem_of_fmap_2 th_id).
    + apply (Hnd12 (th_id h1)); [|rewrite E]; by apply (list_elem_of_fmap_2 th_id).
  - intros k. rewrite Hsame; [apply P4| |done]. by intros <-.
  - intros k h. rewrite Hsame; [apply P5| |done]. by intros <-.
Qed.

(** A handle is put into the input of its core. *)
Lemma pend_push f f' s c h :
  sys_inv f s -> s_cores s !! th_core_id h = Some c -> asleep_on c h -> (forall q h', h' ∈ f q -> th_id h' <> th_id h) ->
  f' (PInput (th_core_id h)) = f (PInput (th_core_id h)) ++ [h] -> (forall q, q <> PInput (th_core_id h) -> f' q = f q) ->
  sys_inv f' (put_core (th_core_id h) (set_wakeup_tasks (c_wakeup_tasks c ++ [h]) c) s).
Proof.
  intros [Hc [P1 P2 P3 P4 P5] Hks Hf Hn Hct Htid Hw Ht Hs Hm Hpk] Hk Ha Hne Hadd Hsame. set (p := PInput (th_core_id h)).
  assert (forall q h', h' ∈ f' q -> h' ∈ f q \/ q = p /\ h' = h) as Hmem.
  { intros q h'. destruct (decide (q = p)) as [->|Hq]; [unfold p; rewrite Hadd, elem_of_app, list_elem_of_singleton; tauto|rewrite Hsame by done; by left]. }
  assert (forall h', asleep s h' -> asleep (put_core (th_core_id h) (set_wakeup_tasks (c_wakeup_tasks c ++ [h]) c) s) h') as Has.
  { intros h' (c0 & Hc0 & Ha0). unfold asleep. cbn. destruct (decide (th_core_id h' = th_core_id h)) as [E|E].
    - rewrite E in *. rewrite lookup_insert_eq. eexists. split; [done|]. rewrite Hk in Hc0. injection Hc0 as <-. exact Ha0.
    - rewrite lookup_insert_ne by done. eauto. }
  split; try done; rewrite ?count_insert by eauto; try done.
  - intros j c0. cbn. destruct (decide (j = th_core_id h)) as [->|Hj]; [rewrite lookup_insert_eq|rewrite lookup_insert_ne by done; apply Hc].
    intros [= <-]. eapply placed_same; [by apply Hc| |done|done]. apply inv_idle_part; [auto with hermit|]. by eapply pl_ok, Hc.
  - split.
    + intros q h' [Hin|[_ ->]]%Hmem; apply Has; [by eapply P1|exists c; done].
    + intros q. destruct (decide (q = p)) as [->|Hq]; [|by rewrite Hsame]. unfold p. rewrite Hadd, fmap_app. apply NoDup_app.
      split; [done|]. split; [|apply NoDup_singleton]. intros x (h' & -> & Hin)%list_elem_of_fmap. cbn. rewrite list_elem_of_singleton. by eapply Hne.
    + intros q q' h1 h2 [Hin1|[-> ->]]%Hmem [Hin2|[-> ->]]%Hmem E; [by eapply P3|by destruct (Hne _ _ Hin1)|by destruct (Hne _ _ Hin2)|done].
    + intros j. cbn. destruct (decide (j = th_core_id h)) as [->|Hj].
      * rewrite lookup_insert_eq, Hadd, P4. cbn. by rewrite Hk.
      * rewrite lookup_insert_ne, Hsame, P4 by congruence. done.
    + intros j h' [Hin|[[= ->] ->]]%Hmem; [by eapply P5|done].
  - intros j. cbn. rewrite lookup_insert_is_Some'. rewrite Hks. split; [|by right]. intros [<-|?]; [|done]. apply Hks. eauto.
Qed.

(** Woken from core [k]: ready, or in the input of its own core. *)
Definition delivered s (k : Z) h : Prop :=
  exists c, s_cores s !! th_core_id h = Some c /\ if th_core_id h =? k then ready_on c h else h ∈ c_wakeup_tasks c.

Lemma delivered_local s k c c' h' :
  s_cores s !! k = Some c -> (forall h', ready_on c h' -> ready_on c' h') -> delivered s k h' -> delivered (put_core k c' s) k h'.
Proof.
  intros Hk Hr (c0 & Hc0 & Hd). unfold delivered. cbn. destruct (th_core_id h' =? k) eqn:E; bool_to_prop.
  - rewrite E in *. rewrite lookup_insert_eq. exists c'. split; [done|]. apply Hr. congruence.
  - rewrite lookup_insert_ne by done. eauto.
Qed.

Lemma delivered_remote s k j c h h' :
  s_cores s !! j = Some c -> j <> k -> delivered s k h' -> delivered (put_core j (set_wakeup_tasks (c_wakeup_tasks c ++ [h]) c) s) k h'.
Proof.
  intros Hj Hne (c0 & Hc0 & Hd). unfold delivered. cbn. destruct (decide (th_core_id h' = j)) as [E|E].
  - rewrite E in *. rewrite lookup_insert_eq. eexists. split; [done|]. rewrite Hj in Hc0. injection Hc0 as <-.
    destruct (j =? k); [exact Hd|]. cbn. apply elem_of_app. by left.
  - rewrite lookup_insert_ne by done. eauto.
Qed.

(** The next handle in the hand is woken, on this core or through the input of its own. *)
Lemma wp_custom_wakeup {X : unit -> System -> Prop} f s k c now h l (Q : unit -> System -> Prop) :
  sys_inv f s -> s_cores s !! k = Some c -> f PHand = h :: l ->
  (forall f' cs, sys_inv f' (set_cores cs s) -> is_Some (cs !! k) -> f' PHand = l ->
     (forall p, p <> PHand -> is_input p = false -> f' p = f p) ->
     delivered (set_cores cs s) k h /\ (forall h', delivered s k h' -> delivered (set_cores cs s) k h') -> Q tt (set_cores cs s)) ->
  wp (custom_wakeup k now h) Q X s.
Proof.
  intros Hs Hk Hh HQ. pose proof (si_pending _ _ Hs) as [P1 P2 P3 P4 P5].
  assert (h ∈ f PHand) as Hin by (rewrite Hh; by left). destruct (P1 _ _ Hin) as (c' & Hk' & Ha).
  assert (forall q h', h' ∈ (if decide (q = PHand) then l else f q) -> th_id h' <> th_id h) as Hne.
  { intros q h' Hq E. destruct (decide (q = PHand)) as [->|Hx].
    - pose proof (P2 PHand) as Hnd. rewrite Hh in Hnd. apply NoDup_cons in Hnd as [Hnd _]. apply Hnd. rewrite <- E. by apply (list_elem_of_fmap_2 th_id).
    - by destruct (P3 _ _ _ _ Hq Hin E). }
  set (f1 := fun q => if decide (q = PHand) then l else f q).
  assert (forall q, f1 q `sublist_of` f q) as Hsub.
  { intros q. unfold f1. destruct (decide (q = PHand)) as [->|]; [rewrite Hh; by apply sublist_cons|done]. }
  unfold custom_wakeup. destruct (th_core_id h =? k) eqn:E; bool_to_prop.
  - subst k. rewrite Hk in Hk'. injection Hk' as <-. eapply wp_on_core; [done|]. pose proof (si_core _ _ Hs _ _ Hk) as Hpl.
    apply wp_wake_asleep; [apply Hpl|done|]. intros c2 (Hok2 & Hs2 & En2 & Ew2 & Ha2) [Hready Hkeep].
    apply (HQ f1); [|rewrite lookup_insert_eq; eauto|by unfold f1; rewrite decide_True| |].
    + eapply (sys_core f f1 s _ c c2 [th_id h]); try done.
      * by eapply placed_same.
      * intros p h' Hp _. rewrite list_elem_of_singleton. by eapply Hne.
      * unfold f1. rewrite decide_False, P4 by done. cbn. by rewrite Hk, Ew2.
    + intros p Hp _. unfold f1. by rewrite decide_False.
    + split; [|intros h'; by apply (delivered_local _ _ c)]. exists c2. cbn. by rewrite lookup_insert_eq, Z.eqb_refl.
  - eapply wp_on_core; [done|]. apply wp_modify. set (c2 := set_wakeup_tasks _ c').
    set (f2 := fun q => if decide (q = PInput (th_core_id h)) then f q ++ [h] else f1 q).
    apply (HQ f2); [|rewrite lookup_insert_ne by done; eauto|done| |].
    3:{ split; [|intros h'; by apply delivered_remote]. exists c2. cbn. rewrite lookup_insert_eq. replace (th_core_id h =? k) with false by lia.
      split; [done|]. apply elem_of_app. right. by left. }
    2:{ intros p Hp Hi. unfold f2, f1. rewrite !decide_False; try done. by intros ->. }
    assert (sys_inv f1 s) as Hs1.
    { assert (put_core (th_core_id h) c' s = s) as <- by (destruct s; unfold put_core, set_cores; cbn in *; by rewrite insert_id).
      eapply (sys_core f f1 s _ c' c' []); try done; [by eapply si_core|by intros ?|intros; apply not_elem_of_nil|].
      unfold f1. rewrite decide_False, P4 by done. cbn. by rewrite Hk'. }
    apply (pend_push f1); try done.
    + unfold f2. rewrite decide_True by done. unfold f1. by rewrite decide_False.
    + intros q Hq. unfold f2. by rewrite decide_False.
Qed.

Lemma wp_wake_handles {X : unit -> System -> Prop} k now l : forall f s (Q : unit -> System -> Prop),
  sys_inv f s -> is_Some (s_cores s !! k) -> f PHand = l ->
  (forall f' cs, sys_inv f' (set_cores cs s) -> f' PHand = [] -> (forall p, p <> PHand -> is_input p = false -> f' p = f p) ->
     Forall (delivered (set_cores cs s) k) l -> (forall h', delivered s k h' -> delivered (set_cores cs s) k h') -> Q tt (set_cores cs s)) ->
  wp (wake_handles k now l) Q X s.
Proof.
  induction l as [|h l IH]; intros f s Q Hs [c Hk] Hh HQ; cbn [wake_handles].
  { apply wp_ret. pose proof (HQ f (s_cores s)) as H. assert (set_cores (s_cores s) s = s) as E by (by destruct s). rewrite E in H. by apply H. }
  apply wp_bind. eapply wp_custom_wakeup; [done|done|done|]. intros f1 cs1 Hs1 Hk1 Hh1 Hsame1 [Hd1 Hkeep1].
  apply (IH f1); [done|done|done|]. intros f2 cs2 Hs2 Hh2 Hsame2 Hd2 Hkeep2. apply (HQ f2 cs2); [done|done| | |].
  - intros p Hp Hi. rewrite Hsame2, Hsame1; done.
  - constructor; [by apply Hkeep2|done].
  - intros h' Hh'. by apply Hkeep2, Hkeep1.
Qed.

(** Between two steps, from what a step did with the handles. *)
Lemma sys_settled f s : sys_inv f s -> f PHand = [] -> (forall p, p <> PHand -> is_input p = false -> f p = at_place s p) -> sys_ok s.
Proof.
  intros Hs Hh Hp. eapply sys_ext; [|exact Hs]. intros p. destruct (decide (p = PHand)) as [->|]; [done|].
  destruct (is_input p) eqn:E; [|by apply Hp]. destruct p; try done. by rewrite (pend_input _ _ (si_pending _ _ Hs)).
Qed.


Lemma pending_same f s s' : s_cores s' = s_cores s -> pending_ok f s -> pending_ok f s'.
Proof. intros E [P1 P2 P3 P4 P5]. split; try done; unfold asleep in *; cbn in *; by rewrite E. Qed.

(** A change that leaves the cores and the task table. *)
Ltac sys_frame H := let Hs := fresh in pose proof H as Hs; destruct Hs as [F1 F2 F3 F4 F5 F6 F7 F8 F9 F10 F11 F12]; split; try done; try (eapply pending_same; [|eassumption]; reflexivity).

Lemma put_core_same k c s : s_cores s !! k = Some c -> put_core k c s = s.
Proof. intros Hk. destruct s. unfold put_core, set_cores. cbn in *. by rewrite insert_id. Qed.

Definition upd (p : place) (l : list TaskHandle) (f : place -> list TaskHandle) (q : place) : list TaskHandle :=
  if decide (q = p) then l else f q.

Lemma upd_eq p l f : upd p l f p = l.
Proof. unfold upd. by rewrite decide_True. Qed.
Lemma upd_ne p l f q : q <> p -> upd p l f q = f q.
Proof. intros Hq. unfold upd. by rewrite decide_False. Qed.

(** After a step that changed place [p] alone. *)
Lemma settled_at p l s s' :
  sys_inv (upd p l (at_place s)) s' -> is_input p = false -> p <> PHand -> at_place s' p = l ->
  (forall q, q <> p -> is_input q = false -> at_place s' q = at_place s q) -> sys_ok s'.
Proof.
  intros Hs Hi Hp Hl Hq. eapply sys_settled; [exact Hs|by rewrite upd_ne|]. intros q Hh Hiq.
  destruct (decide (q = p)) as [->|Hne]; [by rewrite upd_eq|]. rewrite upd_ne by done. symmetry. by apply Hq.
Qed.

(** After a step that changed a core alone. *)
Lemma settled_core k c s : sys_inv (at_place s) (put_core k c s) -> is_Some (s_cores s !! k) -> sys_ok (put_core k c s).
Proof. intros Hs Hk. eapply sys_settled; [exact Hs|done|]. intros p Hp Hi. by destruct p. Qed.

Section task_steps.
Context {X : unit -> System -> Prop}.

(** A read of the core's state. *)
Lemma wp_core_handle s k c t (Q : TaskHandle -> System -> Prop) :
  s_cores s !! k = Some c -> c_heap c !! c_current c = Some t -> Q (mkTaskHandle (t_id t) (t_prio t) (t_core_id t)) s ->
  wp (on_core k get_current_task_handle) Q X s.
Proof. intros Hk Hc HQ. eapply wp_on_core; [done|]. eapply wp_current_handle; [done|]. by rewrite put_core_same. Qed.

Lemma wp_core_id s k c t (Q : Z -> System -> Prop) :
  s_cores s !! k = Some c -> c_heap c !! c_current c = Some t -> Q (t_id t) s -> wp (on_core k get_current_task_id) Q X s.
Proof. intros Hk Hc HQ. eapply wp_on_core; [done|]. eapply wp_current_id; [done|]. by rewrite put_core_same. Qed.

(** The running task goes to sleep and its handle may wait at a place [p]. *)
Lemma wp_sleep_at f s k c t (Q : unit -> System -> Prop) :
  sys_inv f s -> running s k c t ->
  (forall c', sys_inv f (put_core k c' s) -> c_heap c' !! c_current c' = Some (set_status Blocked t) ->
     (forall p l, is_input p = false -> l ≡ₚ mkTaskHandle (t_id t) (t_prio t) (t_core_id t) :: f p -> sys_inv (upd p l f) (put_core k c' s)) ->
     Q tt (put_core k c' s)) ->
  wp (on_core k (block_current_task None)) Q X s.
Proof.
  intros Hs Hrun HQ. pose proof Hrun as (Hk & Hc & Hst). pose proof (si_core _ _ Hs _ _ Hk) as Hpl. eapply wp_on_core; [done|].
  eapply wp_block; [apply Hpl|done|done|]. intros c' Hcalm Hcur Hheap Hin.
  assert (sys_inv f (put_core k c' s)) as Hs' by (by eapply sys_calm). apply HQ; [done|by rewrite Hcur|].
  intros p l Hp Hadd. apply (pend_add f _ _ p (mkTaskHandle (t_id t) (t_prio t) (t_core_id t))); try done.
  - exists c'. cbn. destruct (ok_task _ _ (pl_ok _ _ _ Hpl) _ _ Hc) as (_ & -> & _). rewrite (pl_id _ _ _ Hpl), lookup_insert_eq. split; [done|].
    exists (c_current c), (set_status Blocked t). done.
  - intros q h' Hq. exact (running_awake f s k c t q h' Hs Hrun Hq).
  - by rewrite upd_eq.
  - intros q Hq. by apply upd_ne.
Qed.

(** Going to sleep with a time limit, on the list of no one. *)
Lemma wp_sleep s k c t wt (Q : unit -> System -> Prop) :
  sys_ok s -> running s k c t -> (forall s', sys_ok s' -> Q tt s') -> wp (on_core k (block_current_task wt)) Q X s.
Proof.
  intros Hs (Hk & Hc & Hst) HQ. eapply wp_on_core; [done|]. eapply wp_block; [by eapply pl_ok, si_core|done|done|].
  intros c' Hcalm _ _ _. apply HQ. eapply settled_core; [by eapply sys_calm|done].
Qed.

Lemma wp_join s k c t id (Q : bool -> System -> Prop) :
  sys_ok s -> running s k c t -> (forall b s', sys_ok s' -> Q b s') -> wp (join k id) Q X s.
Proof.
  intros Hs Hrun HQ. unfold join. apply wp_bind, wp_gets. destruct (s_waiting s !! id) as [queue|] eqn:Hw; [|by apply wp_ret, HQ].
  pose proof Hrun as (Hk & Hc & Hst). apply wp_bind. eapply wp_core_handle; [done|done|].
  set (h := mkTaskHandle _ _ _). apply wp_bind, wp_modify, wp_bind. set (s1 := set_waiting _ _).
  assert (sys_inv (at_place s) s1) as Hs1.
  { sys_frame Hs. intros id'. cbn. intros [<-|?]%lookup_insert_is_Some'; apply (si_waiting _ _ Hs); [rewrite Hw; eauto|done]. }
  eapply (wp_sleep_at (at_place s) s1); [done|done|]. intros c' _ _ Hadd. apply wp_ret, HQ.
  eapply (settled_at (PJoin id) (queue ++ [h])); [apply Hadd; [done|]|done|done|..].
  - cbn. rewrite Hw. by rewrite <- Permutation_cons_append.
  - cbn. by rewrite lookup_insert_eq.
  - intros q Hq Hi. destruct q; try done. cbn. rewrite lookup_insert_ne by congruence. done.
Qed.

(** A step that is calm on its core. *)
Lemma wp_calm {A} s k c (m : CM A) (Q : A -> System -> Prop) :
  sys_ok s -> s_cores s !! k = Some c ->
  (forall R : A -> Core -> Prop, (forall a c', calm [] c c' -> R a c') -> wp m R (fun _ _ => False) c) ->
  (forall a s', sys_ok s' -> Q a s') -> wp (on_core k m) Q X s.
Proof.
  intros Hs Hk Hm HQ. eapply wp_on_core; [done|]. apply Hm. intros a c' Hc. apply HQ. eapply settled_core; [by eapply sys_calm|eauto].
Qed.

Lemma wp_exit_wakes s k c t now (Q : unit -> System -> Prop) :
  sys_ok s -> running s k c t ->
  (forall s', sys_ok s' -> s_waiting s' !! t_id t = None -> (forall queue, s_waiting s !! t_id t = Some queue -> Forall (delivered s' k) queue) -> Q tt s') ->
  wp (exit k now) Q X s.
Proof.
  intros Hs (Hk & Hc & Hst) HQ. unfold exit. apply wp_bind. eapply wp_on_core; [done|].
  eapply wp_finish_current; [by eapply pl_ok, si_core|done|done|]. intros c' Hcalm.
  assert (sys_ok (put_core k c' s)) as Hs1 by (eapply settled_core; [by eapply sys_calm|eauto]).
  apply wp_bind, wp_modify. set (s2 := set_no_tasks _ _). assert (sys_ok s2) as Hs2 by (sys_frame Hs1).
  apply wp_bind, wp_gets. destruct (s_waiting s2 !! t_id t) as [queue|] eqn:Hw.
  2:{ apply wp_ret, HQ; [done|done|]. change (s_waiting s2) with (s_waiting s) in Hw. by rewrite Hw. }
  apply wp_bind, wp_modify. set (s3 := set_waiting _ _).
  set (f := upd PHand queue (upd (PJoin (t_id t)) [] (at_place s2))).
  assert (sys_inv f s2) as Hf.
  { apply (pend_move (at_place s2) f s2 (PJoin (t_id t))); try done.
    - unfold f. rewrite upd_eq, upd_ne, upd_eq by done. cbn -[s2]. rewrite Hw. cbn. by rewrite app_nil_r.
    - intros q H1 H2. unfold f. by rewrite !upd_ne. }
  assert (sys_inv f s3) as Hf3.
  { sys_frame Hf. intros id. cbn. intros [_ Hx]%lookup_delete_is_Some. by apply (si_waiting _ _ Hs2). }
  apply (wp_wake_handles k now queue f s3); [done|cbn; rewrite lookup_insert_eq; eauto|done|].
  intros f' cs Hs' Hh Hsame Hd _. apply HQ.
  2:{ cbn. by rewrite lookup_delete_eq. }
  2:{ intros l E. change (s_waiting s2) with (s_waiting s) in Hw. rewrite E in Hw. by injection Hw as ->. }
  eapply sys_settled; [exact Hs'|done|]. intros p Hp Hi. rewrite Hsame by done. unfold f.
  rewrite upd_ne by done. destruct (decide (p = PJoin (t_id t))) as [->|Hne].
  - rewrite upd_eq. cbn. by rewrite lookup_delete_eq.
  - rewrite upd_ne by done. destruct p; try done. cbn. rewrite lookup_delete_ne by congruence. done.
Qed.

Lemma wp_exit s k c t now (Q : unit -> System -> Prop) :
  sys_ok s -> running s k c t -> (forall s', sys_ok s' -> Q tt s') -> wp (exit k now) Q X s.
Proof. intros Hs Hrun HQ. eapply wp_exit_wakes; eauto. Qed.

Lemma wp_sys_block s k c t now timeout (Q : unit -> System -> Prop) :
  sys_ok s -> running s k c t -> timeout = None -> (forall s', sys_ok s' -> Q tt s') -> wp (sys_block_current_task k now timeout) Q X s.
Proof.
  intros Hs Hrun -> HQ. pose proof Hrun as (Hk & Hc & Hst). unfold sys_block_current_task. cbn [fmap option_fmap option_map].
  apply wp_bind. eapply wp_core_handle; [done|done|]. apply wp_bind. eapply wp_core_id; [done|done|].
  set (h := mkTaskHandle _ _ _). apply wp_bind, wp_modify. set (s1 := set_blocked_tasks _ _).
  assert (s_blocked_tasks s !! t_id t = None) as Hnone.
  { destruct (s_blocked_tasks s !! t_id t) as [h'|] eqn:E; [|done]. exfalso.
    apply (running_awake (at_place s) s k c t (PTable (t_id t)) h'); [done|done|cbn; rewrite E; by left|]. by eapply si_table. }
  assert (sys_inv (at_place s) s1) as Hs1.
  { sys_frame Hs. intros id h'. cbn. destruct (decide (id = t_id t)) as [->|]; [rewrite lookup_insert_eq|rewrite lookup_insert_ne by done; apply (si_table _ _ Hs)].
    by intros [= <-]. }
  eapply (wp_sleep_at (at_place s) s1); [done|done|]. intros c' _ _ Hadd. apply HQ.
  eapply (settled_at (PTable (t_id t)) [h]); [apply Hadd; [done|]|done|done|..].
  - cbn. by rewrite Hnone.
  - cbn. by rewrite lookup_insert_eq.
  - intros q Hq Hi. destruct q; try done. cbn. rewrite lookup_insert_ne by congruence. done.
Qed.

Lemma wp_sys_wakeup s k c now id (Q : unit -> System -> Prop) :
  sys_ok s -> s_cores s !! k = Some c -> (forall s', sys_ok s' -> Q tt s') -> wp (sys_wakeup_task k now id) Q X s.
Proof.
  intros Hs Hk HQ. unfold sys_wakeup_task. apply wp_bind, wp_gets. destruct (s_blocked_tasks s !! id) as [h|] eqn:Hw; [|by apply wp_ret, HQ].
  apply wp_bind, wp_modify. set (s1 := set_blocked_tasks _ _).
  set (f := upd PHand [h] (upd (PTable id) [] (at_place s))).
  assert (sys_inv f s) as Hf.
  { apply (pend_move (at_place s) f s (PTable id)); try done.
    - unfold f. rewrite upd_eq, upd_ne, upd_eq by done. cbn. by rewrite Hw.
    - intros q H1 H2. unfold f. by rewrite !upd_ne. }
  assert (sys_inv f s1) as Hf1.
  { sys_frame Hf. intros id' h'. cbn. intros [_ E]%lookup_delete_Some. by eapply si_table. }
  eapply (wp_custom_wakeup f s1); [done|done|done|]. intros f' cs Hs' _ Hh Hsame _. apply HQ.
  eapply sys_settled; [exact Hs'|done|]. intros p Hp Hi. rewrite Hsame by done. unfold f.
  rewrite upd_ne by done. destruct (decide (p = PTable id)) as [->|Hne].
  - rewrite upd_eq. cbn. by rewrite lookup_delete_eq.
  - rewrite upd_ne by done. destruct p; try done. cbn. rewrite lookup_delete_ne by congruence. done.
Qed.

(** ** The input of a core *)

Lemma wp_input s k c now (Q : unit -> System -> Prop) :
  sys_ok s -> s_cores s !! k = Some c ->
  (forall c', sys_ok (put_core k c' s) -> Q tt (put_core k c' s)) -> wp (on_core k (check_input now)) Q X s.
Proof.
  intros Hs Hk HQ. eapply wp_on_core; [done|]. pose proof (si_pending _ _ Hs) as [P1 P2 P3 P4 P5].
  assert (at_place s (PInput k) = c_wakeup_tasks c) as Ein by (cbn; by rewrite Hk).
  apply (wp_check_input (s_tasks s) k); [by eapply si_core|rewrite <- Ein; apply P2| |].
  - apply Forall_forall. intros h Hh. rewrite <- Ein in Hh. destruct (P1 _ _ Hh) as (c' & Hk' & Ha). rewrite (P5 _ _ Hh), Hk in Hk'. by injection Hk' as <-.
  - intros c' Hp Hw Ha. apply HQ. set (f := upd (PInput k) [] (at_place s)). eapply (sys_settled f); [|done|].
    + eapply (sys_core (at_place s) f s k c c'); [done|done|done|exact Ha|..].
      * intros p. unfold f, upd. destruct (decide (p = PInput k)); [apply sublist_nil_l|done].
      * intros p h Hh Hcore. unfold f, upd in Hh. destruct (decide (p = PInput k)) as [|Hne]; [by apply not_elem_of_nil in Hh|].
        intros (h' & E & Hh')%list_elem_of_fmap. rewrite <- Ein in Hh'. by destruct (P3 _ _ _ _ Hh Hh' E).
      * unfold f. by rewrite upd_eq, Hw.
      * intros j Hj. unfold f. rewrite upd_ne by congruence. done.
    + intros p Hp' Hi. unfold f. rewrite upd_ne by (by intros ->). by destruct p.
Qed.

Lemma wp_on_core_bind {A B} k (m : CM A) (n : A -> CM B) s (Q : B -> System -> Prop) :
  wp (on_core k m) (fun a => wp (on_core k (n a)) Q X) X s -> wp (on_core k (sbind m n)) Q X s.
Proof.
  intros Hw. assert (on_core k (sbind m n) = sbind (on_core k m) (fun a => on_core k (n a))) as ->; [|by apply wp_bind].
  apply functional_extensionality. clear s Hw. intros s.
  unfold on_core, sbind. destruct (s_cores s !! k) as [c|]; [|done]. destruct (m c) as [c' [a|e| |]]; try done. cbn. rewrite lookup_insert_eq.
  destruct (n a c') as [c2 o]. unfold set_cores. cbn. rewrite insert_insert_eq. by destruct o.
Qed.

Lemma wp_ipi s k c now (Q : option (TaskRef * bool) -> System -> Prop) :
  sys_ok s -> s_cores s !! k = Some c -> (forall o s', sys_ok s' -> Q o s') -> wp (on_core k (wakeup_handler now)) Q X s.
Proof.
  intros Hs Hk HQ. unfold wakeup_handler. apply wp_on_core_bind. eapply wp_input; [done|done|]. intros c' Hs'.
  assert (s_cores (put_core k c' s) !! k = Some c') as Hk' by (cbn; by rewrite lookup_insert_eq).
  pose proof (pl_ok _ _ _ (si_core _ _ Hs' _ _ Hk')) as Hok. apply (wp_calm _ k c'); [done|done| |done]. intros R HR.
  destruct (current_task _ _ Hok) as (t & Ht & _). apply wp_bind. unfold is_scheduling. eapply wp_bind, wp_current_prio; [done|].
  apply wp_bind, wp_gets, wp_ret. destruct (t_prio t <? _); [by apply wp_reschedule|]. apply wp_ret, HR. by apply calm_refl.
Qed.

Lemma wp_idle_round s k c now (Q : bool -> System -> Prop) :
  sys_ok s -> s_cores s !! k = Some c -> (forall b s', sys_ok s' -> Q b s') -> wp (on_core k (idle_round now)) Q X s.
Proof.
  intros Hs Hk HQ. unfold idle_round. apply wp_on_core_bind. eapply wp_input; [done|done|]. intros c' Hs'.
  assert (s_cores (put_core k c' s) !! k = Some c') as Hk' by (cbn; by rewrite lookup_insert_eq).
  pose proof (pl_ok _ _ _ (si_core _ _ Hs' _ _ Hk')) as Hok. apply (wp_calm _ k c'); [done|done| |done]. intros R HR.
  apply wp_bind, wp_modify, wp_bind, wp_gets, wp_ret, HR. split; [apply inv_idle_part; auto with hermit|]. by repeat split; try done; intros h.
Qed.

(** ** New tasks *)

Lemma wrap_i32_range x : -2147483648 <= wrap_i32 x < 2147483648.
Proof. unfold wrap_i32. pose proof (Z.mod_pos_bound (x + 2147483648) 4294967296). lia. Qed.

Lemma wrap_i32_id x : -2147483648 <= x < 2147483648 -> wrap_i32 x = x.
Proof. intros Hx. unfold wrap_i32. rewrite Z.mod_small; lia. Qed.

Lemma wrap_i32_add x y : wrap_i32 (wrap_i32 x + y) = wrap_i32 (x + y).
Proof.
  unfold wrap_i32. rewrite Z.sub_add_distr || idtac.
  replace ((x + 2147483648) mod 4294967296 - 2147483648 + y + 2147483648) with ((x + 2147483648) mod 4294967296 + y) by lia.
  rewrite Zplus_mod_idemp_l. do 2 f_equal. lia.
Qed.

Lemma wrap_i32_inj a i j : 0 <= i < 4294967296 -> 0 <= j < 4294967296 -> wrap_i32 (a + i) = wrap_i32 (a + j) -> i = j.
Proof.
  unfold wrap_i32. intros Hi Hj E. pose proof (Z.div_mod (a + i + 2147483648) 4294967296 ltac:(lia)).
  pose proof (Z.div_mod (a + j + 2147483648) 4294967296 ltac:(lia)). lia.
Qed.

(** Ids that the loop has passed over. *)
Lemma next_tid_none fuel : forall tasks counter,
  -2147483648 <= counter < 2147483648 -> next_tid fuel tasks counter = None ->
  forall j, 0 <= j < Z.of_nat fuel -> is_Some (tasks !! wrap_i32 (counter + j)).
Proof.
  induction fuel as [|fuel IH]; intros tasks counter Hr; cbn [next_tid]; [lia|].
  destruct (tasks !! counter) as [h|] eqn:E; [|done]. intros Hn j Hj. destruct (decide (j = 0)) as [->|].
  - rewrite Z.add_0_r, wrap_i32_id by done. rewrite E. eauto.
  - destruct (IH _ _ (wrap_i32_range _) Hn (j - 1)) as [h' Hh']; [lia|]. rewrite wrap_i32_add in Hh'.
    replace (counter + 1 + (j - 1)) with (counter + j) in Hh' by lia. eauto.
Qed.

Lemma next_tid_some fuel : forall tasks counter tid counter',
  next_tid fuel tasks counter = Some (tid, counter') -> tasks !! tid = None /\ -2147483648 <= counter' < 2147483648.
Proof.
  induction fuel as [|fuel IH]; intros tasks counter tid counter'; cbn [next_tid]; [done|].
  destruct (tasks !! counter) eqn:E; [apply IH|]. intros [= <- <-]. split; [done|apply wrap_i32_range].
Qed.

(** With fewer tasks than ids the loop finds one. *)
Lemma next_tid_found tasks counter :
  -2147483648 <= counter < 2147483648 -> Z.of_nat (size tasks) < 4294967296 -> next_tid (S (size tasks)) tasks counter <> None.
Proof.
  intros Hr Hsz Hn. pose proof (next_tid_none _ _ _ Hr Hn) as Hall.
  set (ids := (fun j => wrap_i32 (counter + Z.of_nat j)) <$> seq 0 (S (size tasks))).
  assert (NoDup ids) as Hnd.
  { unfold ids. apply NoDup_fmap_2_strong; [|apply NoDup_seq]. intros i j Hi Hj E. apply elem_of_seq in Hi, Hj.
    apply wrap_i32_inj in E; lia. }
  assert (list_to_set ids ⊆@{gset Z} dom tasks) as Hsub.
  { intros x. rewrite elem_of_list_to_set, elem_of_dom. unfold ids. intros (j & -> & Hj)%list_elem_of_fmap. apply elem_of_seq in Hj. apply Hall. lia. }
  apply subseteq_size in Hsub. rewrite size_list_to_set, size_dom in Hsub by done. unfold ids in Hsub. rewrite length_fmap, length_seq in Hsub. lia.
Qed.

Lemma wp_get_tid s (Q : Z -> System -> Prop) :
  sys_ok s -> Z.of_nat (size (s_tasks s)) < 4294967296 ->
  (forall tid counter, s_tasks s !! tid = None -> sys_ok (set_tid_counter counter s) -> Q tid (set_tid_counter counter s)) -> wp get_tid Q X s.
Proof.
  intros Hs Hsz HQ. unfold get_tid. apply wp_bind, wp_gets, wp_bind, wp_gets.
  pose proof (next_tid_found _ _ (si_tid _ _ Hs) Hsz) as Hf. destruct (next_tid _ _ _) as [[tid counter]|] eqn:E; [|done].
  apply next_tid_some in E as [Hn Hr]. apply wp_bind, wp_modify, wp_ret, HQ; [done|]. sys_frame Hs.
Qed.

Lemma placed_new tasks k c n h l :
  core_placed tasks k c -> tasks !! nt_tid n = None -> th_core_id h = nt_core_id n -> (nt_core_id n = k -> 0 <= nt_prio n < NO_PRIORITIES) ->
  l = c_new_tasks c \/ nt_core_id n = k /\ l ≡ₚ n :: c_new_tasks c -> core_placed (<[nt_tid n := h]> tasks) k (set_new_tasks l c).
Proof.
  intros [Hok Hid Ht Hnd Hnew] Hnone Hh Hp Hl.
  assert (forall id k', th_core_id <$> tasks !! id = Some k' -> id <> nt_tid n /\ th_core_id <$> <[nt_tid n := h]> tasks !! id = Some k') as Hold.
  { intros id k' H. assert (id <> nt_tid n) by (intros ->; by rewrite Hnone in H). split; [done|]. by rewrite lookup_insert_ne. }
  split; cbn.
  - by apply inv_idle_part; auto with hermit.
  - done.
  - intros r t Hr. by apply Hold, (Ht r).
  - destruct Hl as [->|[_ ->]]; [done|]. cbn. apply NoDup_cons. split; [|done]. intros (m & E & Hm)%list_elem_of_fmap.
    destruct (Hnew m Hm) as [H _]. rewrite <- E, Hnone in H. done.
  - intros m Hm. assert (m ∈ c_new_tasks c \/ m = n /\ nt_core_id n = k) as [Hin|[-> <-]].
    { destruct Hl as [->|[E Hl]]; [by left|]. rewrite Hl in Hm. apply elem_of_cons in Hm as [->|]; auto. }
    + destruct (Hnew m Hin) as (H1 & H2). split; [by apply Hold|done].
    + rewrite lookup_insert_eq. cbn. split; [by rewrite Hh|]. split; [done|]. split; [auto|]. intros r t Hr E. apply Ht in Hr. rewrite E, Hnone in Hr. done.
Qed.

Lemma wp_add_new_task s k c n (Q : unit -> System -> Prop) :
  sys_ok s -> s_cores s !! k = Some c -> is_Some (s_cores s !! nt_core_id n) -> s_tasks s !! nt_tid n = None ->
  0 <= nt_prio n < NO_PRIORITIES -> (forall s', sys_ok s' -> Q tt s') -> wp (add_new_task k n) Q X s.
Proof.
  intros Hs Hk [c1 Hk1] Hnone Hp HQ. unfold add_new_task. apply wp_bind. eapply wp_on_core; [done|]. apply wp_ret. rewrite put_core_same by done.
  set (h := mkTaskHandle (nt_tid n) (nt_prio n) (nt_core_id n)). apply wp_bind. unfold register. apply wp_bind, wp_modify, wp_modify, wp_bind, wp_modify.
  set (s1 := set_no_tasks _ _).
  assert (forall j c0 l, s_cores s !! j = Some c0 -> l = c_new_tasks c0 \/ nt_core_id n = j /\ l ≡ₚ n :: c_new_tasks c0 ->
    core_placed (s_tasks s1) j (set_new_tasks l c0)) as Hpl.
  { intros j c0 l Hj Hl. cbn. apply placed_new; auto. by eapply si_core. }
  assert (sys_inv (at_place s) s1) as Hs1.
  { sys_frame Hs.
    - intros j c0 Hj. specialize (Hpl j c0 _ Hj (or_introl eq_refl)). by destruct c0.
    - intros id. cbn. intros [<-|Hx]%lookup_insert_is_Some'; rewrite lookup_insert_is_Some'; [by left|]. right. by apply (si_waiting _ _ Hs). }
  assert (forall p, p <> PHand -> is_input p = false -> at_place s p = at_place s1 p) as Hsame.
  { intros p Hx Hi. destruct p; try done. cbn. destruct (decide (id = nt_tid n)) as [->|]; [rewrite lookup_insert_eq|by rewrite lookup_insert_ne].
    destruct (s_waiting s !! nt_tid n) eqn:E; [|done]. destruct (si_waiting _ _ Hs (nt_tid n)) as [? Hx']; [rewrite E; eauto|congruence]. }
  assert (forall j c0 c2, s_cores s !! j = Some c0 -> core_placed (s_tasks s1) j c2 -> keeps_asleep [] c0 c2 -> c_wakeup_tasks c2 = c_wakeup_tasks c0 ->
    sys_ok (put_core j c2 s1)) as Hput.
  { intros j c0 c2 Hj Hp2 Ha Hw. eapply (sys_settled (at_place s)); [|done|intros p Hx Hi; rewrite Hsame by done; by destruct p].
    eapply (sys_core (at_place s) (at_place s) s1 j c0 c2 []); try done; [intros; apply not_elem_of_nil|]. cbn. by rewrite Hj, Hw. }
  destruct (nt_core_id n =? k) eqn:E; bool_to_prop.
  - rewrite E, Hk in Hk1. injection Hk1 as <-. eapply wp_on_core; [exact Hk|].
    assert (core_placed (s_tasks s1) k (set_new_tasks (n :: c_new_tasks c) c)) as Hpn by (apply Hpl; auto).
    destruct (pl_new _ _ _ Hpn n) as (_ & _ & _ & Hf); [by left|].
    pose proof (si_core _ _ Hs _ _ Hk) as Hp0. apply wp_start_task; [apply Hp0|by rewrite (pl_id _ _ _ Hp0)|done|exact Hf|].
    intros c2 Hst. apply HQ, (Hput _ c); [done| |by eapply started_asleep|apply Hst].
    pose proof (started_placed _ _ _ _ _ _ Hpn Hst) as Hp2. destruct Hst as (_ & _ & _ & _ & _ & En & _). rewrite <- En in Hp2. by destruct c2.
  - eapply wp_on_core; [exact Hk1|]. apply wp_modify. apply HQ, (Hput _ c1); [done| |by intros ?|done]. apply Hpl; [done|]. right.
    by rewrite <- Permutation_cons_append.
Qed.

Lemma wp_spawn s k c prio selector (Q : Z -> System -> Prop) :
  sys_ok s -> s_cores s !! k = Some c -> Z.of_nat (size (s_tasks s)) < 4294967296 -> 0 <= prio < NO_PRIORITIES ->
  selector < get_processor_count s -> (forall id s', sys_ok s' -> Q id s') -> wp (spawn k prio selector) Q X s.
Proof.
  intros Hs Hk Hsz Hp Hsel HQ. unfold spawn. apply wp_bind, wp_gets, wp_bind.
  assert (0 <= k < get_processor_count s) as Hcount by (apply (si_cores _ _ Hs); eauto). pose proof (si_few _ _ Hs) as Hfew.
  apply (wp_mono _ (fun core_id s' => sys_ok s' /\ 0 <= core_id < get_processor_count s' /\ s_cores s' = s_cores s /\ s_tasks s' = s_tasks s) _ X); [| |done].
  - destruct (selector <? 0) eqn:E; bool_to_prop.
    + apply wp_bind, wp_gets, wp_bind, wp_modify, wp_ret. split; [sys_frame Hs; cbn; unfold as_u32; apply Z.mod_pos_bound; lia|].
      split; [|done]. change (0 <= s_core_counter s mod get_processor_count s < get_processor_count s). apply Z.mod_pos_bound. lia.
    + apply wp_ret. split; [done|]. split; [|done]. unfold as_u32, U32_MAX in *. rewrite Z.mod_small; lia.
  - intros core_id s' (Hs' & Hcore & Ec & Et). unfold spawn_on. apply wp_bind, wp_get_tid; [done|by rewrite Et|].
    intros tid counter Hnone Hs2. apply wp_bind. eapply wp_add_new_task; [done|cbn; rewrite Ec; done|cbn; by apply (si_cores _ _ Hs')|done|done|].
    intros s3 Hs3. by apply wp_ret, HQ.
Qed.

Lemma wp_clone s k c t (Q : Z -> System -> Prop) :
  sys_ok s -> running s k c t -> Z.of_nat (size (s_tasks s)) < 4294967296 -> (forall id s', sys_ok s' -> Q id s') -> wp (clone_impl k) Q X s.
Proof.
  intros Hs (Hk & Hc & Hst) Hsz HQ. unfold clone_impl. apply wp_bind, wp_gets, wp_bind, wp_gets, wp_bind, wp_modify, wp_bind.
  assert (0 <= k < get_processor_count s) as Hcount by (apply (si_cores _ _ Hs); eauto). pose proof (si_few _ _ Hs) as Hfew.
  pose proof (si_next _ _ Hs) as Hnext.
  apply (wp_mono _ (fun core_id s' => sys_ok s' /\ 0 <= core_id < get_processor_count s' /\ s_cores s' = s_cores s /\ s_tasks s' = s_tasks s) _ X); [| |done].
  - destruct (s_next_core_id s =? get_processor_count s) eqn:E; bool_to_prop.
    + apply wp_bind, wp_modify, wp_ret. split; [sys_frame Hs; change (0 <= 0 <= get_processor_count s); lia|]. split; [|done]. change (0 <= 0 < get_processor_count s). lia.
    + apply wp_ret. split; [sys_frame Hs; change (0 <= as_u32 (s_next_core_id s + 1) <= get_processor_count s); unfold as_u32, U32_MAX in *; rewrite Z.mod_small; lia|].
      split; [|done]. change (0 <= s_next_core_id s < get_processor_count s). lia.
  - intros core_id s' (Hs' & Hcore & Ec & Et). apply wp_bind, wp_get_tid; [done|by rewrite Et|].
    intros tid counter Hnone Hs2. apply wp_bind. eapply wp_on_core; [cbn; rewrite Ec; done|]. eapply wp_current_prio; [done|].
    rewrite put_core_same by (cbn; by rewrite Ec). apply wp_bind.
    eapply wp_add_new_task; [done|cbn; rewrite Ec; done|cbn; by apply (si_cores _ _ Hs')|done| |].
    + cbn. by apply (ok_task _ _ (pl_ok _ _ _ (si_core _ _ Hs _ _ Hk)) _ _ Hc).
    + intros s3 Hs3. by apply wp_ret, HQ.
Qed.
End task_steps.

(** ** Priorities *)

Section priorities.
Context {X : unit -> System -> Prop}.

Lemma wp_set_own_priority s k c t prio (Q : unit -> System -> Prop) :
  sys_ok s -> running s k c t -> 0 < prio < NO_PRIORITIES -> (forall s', sys_ok s' -> Q tt s') -> wp (sys_set_current_task_priority k prio) Q X s.
Proof.
  intros Hs (Hk & Hc & Hst) Hp HQ. unfold sys_set_current_task_priority. guard_true (0 <? prio).
  eapply wp_calm; [done|done| |by intros []]. intros R HR. eapply wp_set_current_prio; [by eapply pl_ok, si_core|done|done|lia|auto].
Qed.

(** [set_priority] finds a task of this core, unless it is the running one, among the ready
    tasks of the priority the table has for it. *)
Definition prio_known s (k id : Z) : Prop :=
  match s_tasks s !! id with
  | None => False
  | Some h =>
      th_core_id h = k ->
      match s_cores s !! k with
      | None => False
      | Some c =>
          t_id <$> c_heap c !! c_current c <> Some (th_id h) ->
          Exists (fun '(_, t) => t_id t = th_id h /\ t_status t = Ready /\ t_prio t = th_priority h) (map_to_list (c_heap c))
      end
  end.

#[export] Instance prio_known_dec s k id : Decision (prio_known s k id).
Proof.
  unfold prio_known. destruct (s_tasks s !! id) as [h|]; [|apply _]. apply impl_dec; [apply _|].
  destruct (s_cores s !! k) as [c|]; [|apply _]. apply impl_dec; [apply _|]. apply Exists_dec. intros [r t]. apply _.
Defined.

Lemma wp_sys_set_priority s k c t id prio (Q : unit -> System -> Prop) :
  sys_ok s -> running s k c t -> 0 < prio < NO_PRIORITIES -> prio_known s k id -> (forall s', sys_ok s' -> Q tt s') ->
  wp (sys_set_priority k id prio) Q X s.
Proof.
  intros Hs Hrun Hp Hknown HQ. pose proof Hrun as (Hk & Hc & Hst). unfold sys_set_priority. guard_true (0 <? prio).
  unfold prio_known in Hknown. rewrite Hk, Hc in Hknown. destruct (s_tasks s !! id) as [h|] eqn:Hh; [|done].
  apply wp_bind, wp_catch. unfold set_priority. apply wp_bind, wp_gets, wp_bind. eapply wp_opt_some; [done|].
  destruct (th_core_id h =? k) eqn:Ek; cbn [negb]; [|by apply wp_ret, wp_ret, HQ]. bool_to_prop.
  apply wp_bind. eapply wp_core_id; [done|done|]. destruct (t_id t =? th_id h) eqn:E; bool_to_prop.
  - eapply wp_calm; [done|done| |intros [] s' Hs'; by apply wp_ret, HQ]. intros R HR. eapply wp_set_current_prio; [by eapply pl_ok, si_core|done|done|lia|auto].
  - specialize (Hknown Ek). cbn in Hknown. apply Exists_exists in Hknown as ([r t'] & Hr & Hid' & Hst' & Hp'); [|congruence].
    apply elem_of_map_to_list in Hr. apply wp_bind, wp_catch.
    eapply wp_calm; [done|done| |intros [] s' Hs'; by apply wp_ret, wp_ret, HQ]. intros R HR.
    eapply wp_ready_set_priority; [by eapply pl_ok, si_core|exact Hr|congruence|done|done|lia|auto].
Qed.

(** Otherwise the kernel panics. *)
Lemma position_id_in id (m : gmap TaskRef Task) l n j : position_id id m l n = Some j -> exists r, r ∈ l /\ t_id <$> m !! r = Some id.
Proof.
  revert n. induction l as [|r l IH]; intros n; cbn [position_id]; [done|]. case_bool_decide as E.
  - intros _. exists r. split; [by left|done].
  - intros (r' & Hin & Hr')%IH. exists r'. split; [by right|done].
Qed.

Lemma ready_set_priority_stale c h p :
  core_ok c -> 0 <= th_priority h ->
  ~ Exists (fun '(_, t) => t_id t = th_id h /\ t_status t = Ready /\ t_prio t = th_priority h) (map_to_list (c_heap c)) ->
  exists o, ready_set_priority h p c = (c, o) /\ (o = Panic \/ o = Err tt).
Proof.
  intros Hok Hp Hno. unfold ready_set_priority, sbind, sgets.
  destruct (pq_queues (c_ready c) !! Z.to_nat (th_priority h)) as [l|] eqn:El; [|eexists; split; [done|by left]].
  destruct (position_id (th_id h) (c_heap c) l 0) as [j|] eqn:Ej; [|eexists; split; [done|by right]].
  destruct Hno. apply position_id_in in Ej as (r & Hin & Hr).
  assert (r ∈ queue_at (c_ready c) (th_priority h)) as Hq by (unfold queue_at; replace (0 <=? th_priority h) with true by lia; by rewrite El).
  apply (ok_ready _ _ Hok) in Hq as (Hst & Hpr & _). unfold st, pr in Hst, Hpr.
  destruct (c_heap c !! r) as [t|] eqn:Et; [|done]. apply Exists_exists. exists (r, t). cbn in *.
  split; [by apply elem_of_map_to_list|]. split_and!; congruence.
Qed.

Lemma sys_set_priority_stale s k c t id prio :
  sys_ok s -> running s k c t -> (forall h, s_tasks s !! id = Some h -> 0 <= th_priority h) -> ~ prio_known s k id ->
  snd (sys_set_priority k id prio s) = Panic.
Proof.
  intros Hs (Hk & Hc & Hst) Hpos Hno. unfold sys_set_priority. destruct (0 <? prio); [|done].
  unfold prio_known in Hno. rewrite Hk, Hc in Hno. unfold set_priority, sbind, sgets, scatch.
  destruct (s_tasks s !! id) as [h|] eqn:Hh; [|done]. cbn [sopt sret].
  destruct (th_core_id h =? k) eqn:Ek; bool_to_prop; [|by destruct Hno]. cbn [negb].
  unfold on_core at 1, get_current_task_id, borrow, sbind, sgets. rewrite Hk, Hc. cbn [sret fst snd].
  destruct (t_id t =? th_id h) eqn:E; bool_to_prop; [destruct Hno; intros _ []; cbn; congruence|].
  destruct (ready_set_priority_stale c h prio) as (o & Eo & Ho); [by eapply pl_ok, si_core|by apply Hpos| |].
  { intros He. by apply Hno. }
  unfold on_core. cbn [s_cores set_cores]. rewrite lookup_insert_eq, Eo. by destruct Ho as [-> | ->].
Qed.
End priorities.
