(* ===== verification/SynchTheorems.v ===== *)
(** * Semaphores, recursive mutexes and futexes: theorems

    Each step of a lock keeps the invariant of the system: whoever waits sleeps, whoever
    is taken from the queue is woken. *)

From stdpp Require Import gmap.
From S2P Require Import Prelude TaskQueue TaskQueueTheorems Scheduler SchedulerSpec SchedulerTheorems Tasks Synch TasksSpec TasksTheorems.

Implicit Types (c : Core) (r : TaskRef) (h : TaskHandle) (s : System) (q : TaskHandlePriorityQueue).

(** ** The handles of a queue *)

Lemma mjoin_extra {B} (f g : Z -> list B) l i x :
  NoDup l -> i ∈ l -> g i ≡ₚ x :: f i -> (forall j, j <> i -> g j = f j) -> mjoin (g <$> l) ≡ₚ x :: mjoin (f <$> l).
Proof.
  intros Hn Hi Hx Hs. induction l as [|j l IH]; [by apply not_elem_of_nil in Hi|]. apply NoDup_cons in Hn as [Hj Hn].
  cbn. destruct (decide (i = j)) as [->|Hne].
  - rewrite Hx. cbn. constructor. f_equiv.
    assert (g <$> l = f <$> l) as ->; [|done]. apply list_fmap_ext. intros n y Hy. apply Hs. intros ->. apply Hj. by eapply list_elem_of_lookup_2.
  - apply elem_of_cons in Hi as [->|Hi]; [done|]. rewrite (IH Hn Hi), Hs by done. symmetry. apply Permutation_middle.
Qed.

Definition lanes : list Z := seqZ 0 31.

Lemma hq_all_lanes q : hq_ok q -> hq_all q = mjoin (lane q <$> lanes).
Proof.
  intros Hq. unfold hq_all. f_equal. apply list_eq. intros i. rewrite !list_lookup_fmap. pose proof (proj1 Hq) as Hl.
  destruct (decide (i < 31)%nat) as [Hi|Hi].
  - unfold lanes. rewrite lookup_seqZ_lt, Z.add_0_l by lia. cbn [fmap option_fmap option_map]. destruct (lane_lookup q (Z.of_nat i) Hq) as (o & Ho & ->); [unfold NO_PRIORITIES; lia|].
    rewrite Nat2Z.id in Ho. by rewrite Ho.
  - unfold lanes. rewrite lookup_seqZ_ge by lia. rewrite lookup_ge_None_2 by lia. done.
Qed.

Lemma hq_all_extra q q' i h :
  hq_ok q -> hq_ok q' -> 0 <= i < NO_PRIORITIES -> lane q' i ≡ₚ h :: lane q i -> (forall j, j <> i -> lane q' j = lane q j) -> hq_all q' ≡ₚ h :: hq_all q.
Proof.
  intros Hq Hq' Hi Hx Hs. rewrite !hq_all_lanes by done. unfold NO_PRIORITIES in Hi.
  apply mjoin_extra with i; [apply NoDup_seqZ|apply elem_of_seqZ; lia|done|done].
Qed.

Lemma hq_all_push q h q' :
  hq_ok q -> 0 <= th_priority h < NO_PRIORITIES -> hq_push q h = Ok q' -> hq_ok q' /\ hq_all q' ≡ₚ h :: hq_all q.
Proof.
  intros Hq Hp E. destruct (hq_push_spec q h Hq Hp) as (q2 & E2 & Hq2 & Hl). rewrite E in E2. injection E2 as <-. split; [done|].
  apply (hq_all_extra q q' (th_priority h)); try done.
  - rewrite Hl, Z.eqb_refl. by rewrite <- Permutation_cons_append.
  - intros j Hj. rewrite Hl. by replace (j =? th_priority h) with false by lia.
Qed.

Lemma hq_all_pop q :
  hq_ok q -> hq_all q = [] /\ hq_pop q = Ok (q, None) \/ exists h q', hq_pop q = Ok (q', Some h) /\ hq_ok q' /\ hq_all q ≡ₚ h :: hq_all q'.
Proof.
  intros Hq. destruct (hq_pop_spec q Hq) as [[He E]|(i & h & rest & q' & E & Hi & Hhigh & Hl & Hq' & Hat)].
  - left. split; [|done]. rewrite hq_all_lanes by done. assert (lane q <$> lanes = (fun _ => []) <$> lanes) as ->; [|done].
    apply list_fmap_ext. intros n x Hx. apply lookup_seqZ in Hx. apply He. lia.
  - right. exists h, q'. split; [done|]. split; [done|]. apply (hq_all_extra q' q i); try done.
    + by rewrite Hat, Z.eqb_refl, Hl.
    + intros j Hj. rewrite Hat. by replace (j =? i) with false by lia.
Qed.

Lemma hq_all_new : hq_all hq_new = [].
Proof. done. Qed.

Lemma hq_empty_all q : hq_ok q -> hq_is_empty q = true -> hq_all q = [].
Proof.
  intros Hq E. destruct (hq_all_pop q Hq) as [[? _]|(h & q' & E' & _)]; [done|]. unfold hq_pop, msb in E'. unfold hq_is_empty in E. by rewrite E in E'.
Qed.

(** ** Steps of a lock *)

Section lock_steps.
Context {X : unit -> System -> Prop}.

(** A lock keeps its waiting handles at place [p]; [put] writes its state. *)
Lemma put_frame p s s' l :
  sys_inv (upd p l (at_place s)) s' -> is_input p = false -> p <> PHand -> at_place s' p = l ->
  (forall a, p <> PSem a -> s_semaphores s' !! a = s_semaphores s !! a) -> (forall a, p <> PMutex a -> s_mutexes s' !! a = s_mutexes s !! a) ->
  (forall a, p <> PFutex a -> s_parking_lot s' !! a = s_parking_lot s !! a) -> s_waiting s' = s_waiting s -> s_blocked_tasks s' = s_blocked_tasks s ->
  sys_ok s'.
Proof.
  intros Hs Hi Hp Hl H1 H2 H3 H4 H5. eapply settled_at; [exact Hs|done|done|done|]. intros q Hq Hiq.
  destruct q; try done; cbn; rewrite ?H1, ?H2, ?H3, ?H4, ?H5 by done; done.
Qed.

Lemma wp_get_semaphore s a x (Q : Semaphore -> System -> Prop) : s_semaphores s !! a = Some x -> Q x s -> wp (get_semaphore a) Q X s.
Proof. intros Ha HQ. unfold get_semaphore. apply wp_bind, wp_gets. rewrite Ha. by apply wp_ret. Qed.

Lemma wp_get_mutex s a x (Q : RecursiveMutex -> System -> Prop) : s_mutexes s !! a = Some x -> Q x s -> wp (get_mutex a) Q X s.
Proof. intros Ha HQ. unfold get_mutex. apply wp_bind, wp_gets. rewrite Ha. by apply wp_ret. Qed.

(** A new count, the same waiting handles. *)
Lemma sem_count_ok s a x n : sys_ok s -> s_semaphores s !! a = Some x -> sys_ok (set_semaphores (<[a := mkSemaphore n (sem_queue x)]> (s_semaphores s)) s).
Proof.
  intros Hs Ha. eapply (sys_settled (at_place s)); [|done|].
  - sys_frame Hs. intros b y. cbn. destruct (decide (b = a)) as [->|]; [rewrite lookup_insert_eq|rewrite lookup_insert_ne by done; apply (si_sem _ _ Hs)].
    intros [= <-]. exact (si_sem _ _ Hs a x Ha).
  - intros p _ _. destruct p as [| |b| | | |]; try done. cbn. destruct (decide (b = a)) as [->|]; [by rewrite lookup_insert_eq, Ha|by rewrite lookup_insert_ne].
Qed.

Lemma mutex_state_ok s a x o n : sys_ok s -> s_mutexes s !! a = Some x -> sys_ok (set_mutexes (<[a := mkRecursiveMutex o n (rm_queue x)]> (s_mutexes s)) s).
Proof.
  intros Hs Ha. eapply (sys_settled (at_place s)); [|done|].
  - sys_frame Hs. intros b y. cbn. destruct (decide (b = a)) as [->|]; [rewrite lookup_insert_eq|rewrite lookup_insert_ne by done; apply (si_mutex _ _ Hs)].
    intros [= <-]. exact (si_mutex _ _ Hs a x Ha).
  - intros p _ _. destruct p as [| | |b| | |]; try done. cbn. destruct (decide (b = a)) as [->|]; [by rewrite lookup_insert_eq, Ha|by rewrite lookup_insert_ne].
Qed.

Lemma own_prio s k c t : sys_ok s -> running s k c t -> 0 <= t_prio t < NO_PRIORITIES.
Proof. intros Hs (Hk & Hc & _). by apply (ok_task _ _ (pl_ok _ _ _ (si_core _ _ Hs _ _ Hk)) _ _ Hc). Qed.

Lemma wp_sem_acquire s k c t now a x spun (Q : option bool -> System -> Prop) :
  sys_ok s -> running s k c t -> s_semaphores s !! a = Some x -> (forall o s', sys_ok s' -> Q o s') -> wp (sem_acquire k now a None spun) Q X s.
Proof.
  intros Hs Hrun Ha HQ. unfold sem_acquire. apply wp_bind. eapply wp_get_semaphore; [done|]. destruct (0 <? sem_count x).
  { apply wp_bind, wp_modify, wp_ret, HQ. by apply sem_count_ok. }
  destruct spun; [|by apply wp_ret, HQ]. apply wp_bind. eapply wp_sleep_at; [exact Hs|done|]. intros c' Hs1 Hc1 Hadd.
  apply wp_bind. eapply (wp_core_handle _ k c'); [cbn; by rewrite lookup_insert_eq|done|]. cbn [set_status t_id t_prio t_core_id].
  set (h := mkTaskHandle _ _ _) in *. pose proof (own_prio _ _ _ _ Hs Hrun) as Hp. pose proof (si_sem _ _ Hs _ _ Ha) as Hq.
  destruct (hq_push_spec (sem_queue x) h Hq Hp) as (q' & E & _). destruct (hq_all_push _ h _ Hq Hp E) as [Hq' Hall].
  apply wp_bind. eapply wp_lift_ok; [exact E|]. apply wp_bind, wp_modify, wp_ret, HQ.
  apply (put_frame (PSem a) s _ (hq_all q')); try done.
  - assert (sys_inv (upd (PSem a) (hq_all q') (at_place s)) (put_core k c' s)) as Hs2 by (apply Hadd; [done|]; cbn; by rewrite Ha).
    sys_frame Hs2. intros b y. cbn. destruct (decide (b = a)) as [->|]; [rewrite lookup_insert_eq|rewrite lookup_insert_ne by done; apply (si_sem _ _ Hs)].
    by intros [= <-].
  - cbn. by rewrite lookup_insert_eq.
  - intros b Hb. cbn. rewrite lookup_insert_ne by congruence. done.
Qed.

(** The oldest waiting handle of the highest priority is woken; [put] is what is written
    before. *)
Lemma wp_hand_over f s k c now h (Q : unit -> System -> Prop) p l :
  sys_inv f s -> s_cores s !! k = Some c -> f p ≡ₚ h :: l -> f PHand = [] -> p <> PHand -> is_input p = false ->
  at_place s p = l -> (forall p', p' <> p -> p' <> PHand -> is_input p' = false -> at_place s p' = f p') ->
  (forall s', sys_ok s' -> Q tt s') -> wp (custom_wakeup k now h) Q X s.
Proof.
  intros Hs Hk Hp Hh Hne Hi Hl Hsame HQ. set (f1 := upd PHand [h] (upd p l f)).
  assert (sys_inv f1 s) as Hf.
  { apply (pend_move f f1 s p); try done.
    - unfold f1. rewrite upd_eq, upd_ne, upd_eq, Hh by done. by rewrite Hp.
    - intros q H1 H2. unfold f1. by rewrite !upd_ne. }
  eapply (wp_custom_wakeup f1 s); [done|done|done|]. intros f' cs Hs' _ Hh' Hsame' _. apply HQ.
  eapply sys_settled; [exact Hs'|done|]. intros q Hq Hiq. rewrite Hsame' by done. unfold f1. rewrite upd_ne by done.
  assert (at_place (set_cores cs s) q = at_place s q) as -> by (by destruct q).
  destruct (decide (q = p)) as [->|Hn]; [by rewrite upd_eq|]. rewrite upd_ne by done. symmetry. by apply Hsame.
Qed.

Lemma wp_sem_release s k c now a x (Q : unit -> System -> Prop) :
  sys_ok s -> s_cores s !! k = Some c -> s_semaphores s !! a = Some x -> (forall s', sys_ok s' -> Q tt s') -> wp (sem_release k now a) Q X s.
Proof.
  intros Hs Hk Ha HQ. unfold sem_release. apply wp_bind. eapply wp_get_semaphore; [done|]. pose proof (si_sem _ _ Hs _ _ Ha) as Hq.
  destruct (hq_all_pop _ Hq) as [[Hall E]|(h & q' & E & Hq' & Hall)]; apply wp_bind; (eapply wp_lift_ok; [exact E|]); cbn beta iota; apply wp_bind, wp_modify.
  - apply wp_ret, HQ. by apply sem_count_ok.
  - set (s1 := set_semaphores _ _). eapply (wp_hand_over (at_place s) s1 k c now h _ (PSem a) (hq_all q')); try done.
    + sys_frame Hs. intros b y. cbn. destruct (decide (b = a)) as [->|]; [rewrite lookup_insert_eq|rewrite lookup_insert_ne by done; apply (si_sem _ _ Hs)].
      by intros [= <-].
    + cbn. by rewrite Ha.
    + cbn. by rewrite lookup_insert_eq.
    + intros p Hp _ _. destruct p; try done. cbn. rewrite lookup_insert_ne by congruence. done.
Qed.

Lemma wp_sem_try s a x (Q : bool -> System -> Prop) :
  sys_ok s -> s_semaphores s !! a = Some x -> (forall b s', sys_ok s' -> Q b s') -> wp (sem_try_acquire a) Q X s.
Proof.
  intros Hs Ha HQ. unfold sem_try_acquire. apply wp_bind. eapply wp_get_semaphore; [done|]. destruct (0 <? sem_count x); [|by apply wp_ret, HQ].
  apply wp_bind, wp_modify, wp_ret, HQ. by apply sem_count_ok.
Qed.

Lemma wp_mutex_acquire s k c t a x (Q : bool -> System -> Prop) :
  sys_ok s -> running s k c t -> s_mutexes s !! a = Some x -> (forall b s', sys_ok s' -> Q b s') -> wp (mutex_acquire k a) Q X s.
Proof.
  intros Hs Hrun Ha HQ. unfold mutex_acquire. pose proof Hrun as (Hk & Hc & Hst). apply wp_bind. eapply wp_core_id; [done|done|].
  apply wp_bind. eapply wp_get_mutex; [done|]. destruct (rm_current_tid x) as [tid|].
  2:{ apply wp_bind, wp_modify, wp_ret, HQ. by apply mutex_state_ok. }
  destruct (tid =? t_id t); [apply wp_bind, wp_modify, wp_ret, HQ; by apply mutex_state_ok|].
  apply wp_bind. eapply wp_sleep_at; [exact Hs|done|]. intros c' Hs1 Hc1 Hadd.
  apply wp_bind. eapply (wp_core_handle _ k c'); [cbn; by rewrite lookup_insert_eq|done|]. cbn [set_status t_id t_prio t_core_id].
  set (h := mkTaskHandle _ _ _) in *. pose proof (own_prio _ _ _ _ Hs Hrun) as Hp. pose proof (si_mutex _ _ Hs _ _ Ha) as Hq.
  destruct (hq_push_spec (rm_queue x) h Hq Hp) as (q' & E & _). destruct (hq_all_push _ h _ Hq Hp E) as [Hq' Hall].
  apply wp_bind. eapply wp_lift_ok; [exact E|]. apply wp_bind, wp_modify, wp_ret, HQ.
  apply (put_frame (PMutex a) s _ (hq_all q')); try done.
  - assert (sys_inv (upd (PMutex a) (hq_all q') (at_place s)) (put_core k c' s)) as Hs2 by (apply Hadd; [done|]; cbn; by rewrite Ha).
    sys_frame Hs2. intros b y. cbn. destruct (decide (b = a)) as [->|]; [rewrite lookup_insert_eq|rewrite lookup_insert_ne by done; apply (si_mutex _ _ Hs)].
    by intros [= <-].
  - cbn. by rewrite lookup_insert_eq.
  - intros b Hb. cbn. rewrite lookup_insert_ne by congruence. done.
Qed.

Lemma wp_mutex_release s k c now a x (Q : unit -> System -> Prop) :
  sys_ok s -> s_cores s !! k = Some c -> s_mutexes s !! a = Some x -> (forall s', sys_ok s' -> Q tt s') -> wp (mutex_release k now a) Q X s.
Proof.
  intros Hs Hk Ha HQ. unfold mutex_release. apply wp_bind. eapply wp_get_mutex; [done|].
  set (count := if 0 <? rm_count x then rm_count x - 1 else rm_count x). destruct (0 <? count); [by apply wp_modify, HQ, mutex_state_ok|].
  pose proof (si_mutex _ _ Hs _ _ Ha) as Hq.
  destruct (hq_all_pop _ Hq) as [[Hall E]|(h & q' & E & Hq' & Hall)]; apply wp_bind; (eapply wp_lift_ok; [exact E|]); cbn beta iota; apply wp_bind, wp_modify.
  - apply wp_ret, HQ. by apply mutex_state_ok.
  - set (s1 := set_mutexes _ _). eapply (wp_hand_over (at_place s) s1 k c now h _ (PMutex a) (hq_all q')); try done.
    + sys_frame Hs. intros b y. cbn. destruct (decide (b = a)) as [->|]; [rewrite lookup_insert_eq|rewrite lookup_insert_ne by done; apply (si_mutex _ _ Hs)].
      by intros [= <-].
    + cbn. by rewrite Ha.
    + cbn. by rewrite lookup_insert_eq.
    + intros p Hp _ _. destruct p; try done. cbn. rewrite lookup_insert_ne by congruence. done.
Qed.

(** ** Futexes *)

Lemma store_ok s a v : sys_ok s -> sys_ok (set_words (<[a := v]> (s_words s)) s).
Proof. intros Hs. eapply (sys_settled (at_place s)); [sys_frame Hs|done|]. intros p _ _. by destruct p. Qed.

Lemma wp_park s k c t a (Q : TaskHandle -> System -> Prop) :
  sys_ok s -> running s k c t -> (forall h s', sys_ok s' -> Q h s') -> wp (park k a None) Q X s.
Proof.
  intros Hs Hrun HQ. unfold park. apply wp_bind. eapply wp_sleep_at; [exact Hs|done|]. intros c' Hs1 Hc1 Hadd.
  apply wp_bind. eapply (wp_core_handle _ k c'); [cbn; by rewrite lookup_insert_eq|done|]. cbn [set_status t_id t_prio t_core_id].
  set (h := mkTaskHandle _ _ _) in *. pose proof (own_prio _ _ _ _ Hs Hrun) as Hp. apply wp_bind, wp_gets.
  change (s_parking_lot (put_core k c' s)) with (s_parking_lot s). set (q := default hq_new (s_parking_lot s !! a)).
  assert (hq_ok q) as Hq by (unfold q; destruct (s_parking_lot s !! a) eqn:E; [by eapply si_parking|apply hq_new_ok]).
  assert (hq_all q = at_place s (PFutex a)) as Eq by (unfold q; cbn; by destruct (s_parking_lot s !! a)).
  destruct (hq_push_spec q h Hq Hp) as (q' & E & _). destruct (hq_all_push _ h _ Hq Hp E) as [Hq' Hall].
  apply wp_bind. eapply wp_lift_ok; [exact E|]. apply wp_bind, wp_modify, wp_ret, HQ.
  apply (put_frame (PFutex a) s _ (hq_all q')); try done.
  - assert (sys_inv (upd (PFutex a) (hq_all q') (at_place s)) (put_core k c' s)) as Hs2 by (apply Hadd; [done|]; by rewrite <- Eq).
    sys_frame Hs2. intros b y. cbn. destruct (decide (b = a)) as [->|]; [rewrite lookup_insert_eq|rewrite lookup_insert_ne by done; apply (si_parking _ _ Hs)].
    by intros [= <-].
  - cbn. by rewrite lookup_insert_eq.
  - intros b Hb. cbn. rewrite lookup_insert_ne by congruence. done.
Qed.

Lemma wp_load_word s a v (Q : Z -> System -> Prop) : s_words s !! a = Some v -> Q v s -> wp (atomic_load a) Q X s.
Proof. intros Ha HQ. unfold atomic_load. apply wp_bind, wp_gets. rewrite Ha. by apply wp_ret. Qed.

Lemma wp_futex_wait s k c t now a v expected relative (Q : Z + TaskHandle -> System -> Prop) :
  sys_ok s -> running s k c t -> s_words s !! a = Some v -> (forall o s', sys_ok s' -> Q o s') -> wp (futex_wait k now a expected None relative) Q X s.
Proof.
  intros Hs Hrun Ha HQ. unfold futex_wait. apply wp_bind. eapply wp_load_word; [done|]. destruct (v =? expected); cbn [negb]; [|by apply wp_ret, HQ].
  apply wp_bind. replace (futex_wakeup_time now None relative) with (@None Z) by (by destruct relative).
  eapply wp_park; [done|done|]. intros h s' Hs'. by apply wp_ret, HQ.
Qed.

Lemma wp_futex_wait_and_set s k c t now a v expected relative new_value (Q : Z + TaskHandle -> System -> Prop) :
  sys_ok s -> running s k c t -> s_words s !! a = Some v -> (forall o s', sys_ok s' -> Q o s') ->
  wp (futex_wait_and_set k now a expected None relative new_value) Q X s.
Proof.
  intros Hs Hrun Ha HQ. unfold futex_wait_and_set. apply wp_bind. eapply wp_load_word; [done|]. apply wp_bind, wp_modify.
  pose proof (store_ok s a new_value Hs) as Hs1. destruct (v =? expected); cbn [negb]; [|by apply wp_ret, HQ].
  apply wp_bind. replace (futex_wakeup_time now None relative) with (@None Z) by (by destruct relative).
  eapply wp_park; [done|done|]. intros h s' Hs'. by apply wp_ret, HQ.
Qed.

Lemma wp_futex_woken s k c t now a h (Q : option Z -> System -> Prop) :
  sys_ok s -> running s k c t -> 0 <= th_priority h < NO_PRIORITIES -> (forall o s', sys_ok s' -> Q o s') -> wp (futex_woken k now a h None) Q X s.
Proof.
  intros Hs Hrun Hp HQ. unfold futex_woken. apply wp_bind, wp_gets, wp_bind.
  apply (wp_mono _ (fun _ s' => s' = s) _ X); [| |done].
  { destruct (s_parking_lot s !! a) as [q|] eqn:E; [|by apply wp_ret]. eapply wp_lift_ok; [by apply hq_contains_spec; [eapply si_parking|]|done]. }
  intros b s' ->. destruct b; [|by apply wp_ret, HQ]. apply wp_bind. eapply wp_sleep; [done|done|]. intros s' Hs'. by apply wp_ret, HQ.
Qed.

(** The handles that are left wait in the queue [q]. *)
Lemma wp_wake_loop fuel k now count a : forall woken q f s (Q : Z * TaskHandlePriorityQueue -> System -> Prop),
  (length (hq_all q) < fuel)%nat -> sys_inv f s -> is_Some (s_cores s !! k) -> f PHand = [] -> f (PFutex a) = hq_all q -> hq_ok q ->
  (forall w q' f' cs, sys_inv f' (set_cores cs s) -> f' PHand = [] -> f' (PFutex a) = hq_all q' -> hq_ok q' ->
     (forall p, p <> PHand -> p <> PFutex a -> is_input p = false -> f' p = f p) -> Q (w, q') (set_cores cs s)) ->
  wp (wake_loop fuel k now count woken q) Q X s.
Proof.
  induction fuel as [|fuel IH]; intros woken q f s Q Hlen Hs [c Hk] Hh Hf Hq HQ; [lia|]. cbn [wake_loop].
  assert (Q (woken, q) s) as Hdone.
  { pose proof (HQ woken q f (s_cores s)) as H. assert (set_cores (s_cores s) s = s) as E by (by destruct s). rewrite E in H. by apply H. }
  destruct (negb (woken =? count) || (count =? I32_MAX)); [|by apply wp_ret].
  destruct (hq_all_pop _ Hq) as [[Hall E]|(h & q' & E & Hq' & Hall)]; apply wp_bind; (eapply wp_lift_ok; [exact E|]); cbn beta iota; [by apply wp_ret|].
  set (f1 := upd PHand [h] (upd (PFutex a) (hq_all q') f)).
  assert (sys_inv f1 s) as Hf1.
  { apply (pend_move f f1 s (PFutex a)); try done.
    - unfold f1. rewrite upd_eq, upd_ne, upd_eq, Hh, Hf by done. by rewrite Hall.
    - intros p H1 H2. unfold f1. by rewrite !upd_ne. }
  apply wp_bind. eapply (wp_custom_wakeup f1 s); [done|done|done|]. intros f2 cs Hs2 Hk2 Hh2 Hsame2 _.
  apply (IH _ q' f2); [rewrite Hall in Hlen; cbn in Hlen; lia|done|done|done| |done|].
  - rewrite Hsame2 by done. unfold f1. by rewrite upd_ne, upd_eq.
  - intros w q2 f3 cs3 Hs3 Hh3 Hf3 Hq3 Hsame3. apply (HQ w q2 f3 cs3); [done|done|done|done|]. intros p H1 H2 H3.
    rewrite Hsame3, Hsame2 by done. unfold f1. by rewrite !upd_ne.
Qed.

Lemma wp_put_or_remove f s a q (Q : unit -> System -> Prop) :
  sys_inv f s -> f PHand = [] -> f (PFutex a) = hq_all q -> hq_ok q ->
  (forall p, p <> PHand -> p <> PFutex a -> is_input p = false -> f p = at_place s p) -> (forall s', sys_ok s' -> Q tt s') -> wp (put_or_remove a q) Q X s.
Proof.
  intros Hs Hh Hf Hq Hsame HQ. unfold put_or_remove. destruct (hq_is_empty q) eqn:E; apply wp_modify, HQ; eapply (sys_settled f).
  - sys_frame Hs. intros b y. cbn. intros [_ Hx]%lookup_delete_Some. by eapply si_parking.
  - done.
  - intros p Hp Hi. destruct (decide (p = PFutex a)) as [->|Hne].
    + rewrite Hf. cbn. rewrite lookup_delete_eq. by apply hq_empty_all.
    + rewrite Hsame by done. destruct p; try done. cbn. rewrite lookup_delete_ne by congruence. done.
  - sys_frame Hs. intros b y. cbn. destruct (decide (b = a)) as [->|]; [rewrite lookup_insert_eq|rewrite lookup_insert_ne by done; apply (si_parking _ _ Hs)].
    by intros [= <-].
  - done.
  - intros p Hp Hi. destruct (decide (p = PFutex a)) as [->|Hne].
    + rewrite Hf. cbn. by rewrite lookup_insert_eq.
    + rewrite Hsame by done. destruct p; try done. cbn. rewrite lookup_insert_ne by congruence. done.
Qed.

(** The part that [futex_wake] and [futex_wake_or_set] share. *)
Lemma wp_wake_queue s k c now a count q (Q : Z -> System -> Prop) (g : Z -> SM Z) :
  sys_ok s -> s_cores s !! k = Some c -> s_parking_lot s !! a = Some q -> (forall w s', sys_ok s' -> wp (g w) Q X s') ->
  wp (let! (woken, q) := wake_loop (S (length (hq_all q))) k now count 0 q in
      let! _ := put_or_remove a q in g woken) Q X s.
Proof.
  intros Hs Hk Ha Hg. apply wp_bind. apply (wp_wake_loop _ k now count a 0 q (at_place s)); [lia|done|eauto|done|cbn; by rewrite Ha|by eapply si_parking|].
  intros w q' f cs Hs' Hh Hf Hq Hsame. cbn beta iota. apply wp_bind. eapply (wp_put_or_remove f); [done|done|done|done| |auto].
  intros p H1 H2 H3. rewrite Hsame by done. by destruct p.
Qed.

Lemma wp_futex_wake s k c now a count (Q : Z -> System -> Prop) :
  sys_ok s -> s_cores s !! k = Some c -> (forall w s', sys_ok s' -> Q w s') -> wp (futex_wake k now a count) Q X s.
Proof.
  intros Hs Hk HQ. unfold futex_wake. destruct (count <? 0); [by apply wp_ret, HQ|]. apply wp_bind, wp_gets.
  destruct (s_parking_lot s !! a) as [q|] eqn:Ha; [|by apply wp_ret, HQ]. eapply (wp_wake_queue _ _ _ _ _ _ _ _ sret); [done|done|done|].
  intros w s' Hs'. by apply wp_ret, HQ.
Qed.

Lemma wp_futex_wake_or_set s k c now a count new_value (Q : Z -> System -> Prop) :
  sys_ok s -> s_cores s !! k = Some c -> (forall w s', sys_ok s' -> Q w s') -> wp (futex_wake_or_set k now a count new_value) Q X s.
Proof.
  intros Hs Hk HQ. unfold futex_wake_or_set. destruct (count <? 0); [by apply wp_ret, HQ|]. apply wp_bind, wp_gets.
  destruct (s_parking_lot s !! a) as [q|] eqn:Ha; [|by apply wp_bind, wp_modify, wp_ret, HQ, store_ok].
  eapply (wp_wake_queue _ _ _ _ _ _ _ _ (fun woken => let! _ := if woken =? 0 then atomic_store a new_value else sret tt in sret woken)); [done|done|done|].
  intros w s' Hs'. apply wp_bind. destruct (w =? 0); [by apply wp_modify, wp_ret, HQ, store_ok|by apply wp_ret, wp_ret, HQ].
Qed.
End lock_steps.
