(* ===== verification/TaskMachine.v ===== *)
(** * The task system as a machine

    The steps of a system of cores, in any order: kernel entries of running tasks,
    interrupts, rounds of the idle loop.  [tasks_safe] is the safety of the scheduler and of
    the locks as a whole. *)

From stdpp Require Import gmap.
From S2P Require Import Prelude TaskQueue TaskQueueTheorems Scheduler SchedulerSpec SchedulerTheorems Tasks Synch TasksSpec TasksTheorems SynchTheorems.

Implicit Types (c : Core) (r : TaskRef) (h : TaskHandle) (s : System).

Inductive call :=
  | CYield
  | CTimer (now : Z) (nic : option (option Z))
  | CIpi (now : Z)
  | CIdle (now : Z)
  | CNetworkTimer (wakeup_time : option Z)
  | CFpu
  | CSpawn (prio selector : Z)
  | CClone
  | CJoin (id : Z)
  | CExit (now : Z)
  | CSleep (now usecs : Z)
  | CBlock (now : Z)
  | CWake (now id : Z)
  | CSetPrio (prio : Z)
  | CSetPriority (id prio : Z)
  | CSemNew (a count : Z)
  | CSemAcquire (now a : Z) (spun : bool)
  | CSemTry (a : Z)
  | CSemRelease (now a : Z)
  | CMutexNew (a : Z)
  | CLock (a : Z)
  | CUnlock (now a : Z)
  | CStore (a v : Z)
  | CFutexWait (now a expected : Z) (relative : bool)
  | CFutexWaitSet (now a expected : Z) (relative : bool) (new_value : Z)
  | CFutexWoken (now a : Z) (handle : TaskHandle)
  | CFutexWake (now a count : Z)
  | CFutexWakeSet (now a count new_value : Z).

Definition ignore {A} (m : SM A) : SM unit := let! _ := m in sret tt.

Definition exec (k : Z) (x : call) : SM unit :=
  match x with
  | CYield => ignore (on_core k reschedule)
  | CTimer now nic => ignore (on_core k (timer_handler now nic))
  | CIpi now => ignore (on_core k (wakeup_handler now))
  | CIdle now => ignore (on_core k (idle_round now))
  | CNetworkTimer t => on_core k (add_network_timer t)
  | CFpu => ignore (on_core k fpu_switch)
  | CSpawn prio selector => ignore (spawn k prio selector)
  | CClone => ignore (clone_impl k)
  | CJoin id => ignore (join k id)
  | CExit now => exit k now
  | CSleep now usecs => ignore (usleep k now usecs)
  | CBlock now => sys_block_current_task k now None
  | CWake now id => sys_wakeup_task k now id
  | CSetPrio prio => sys_set_current_task_priority k prio
  | CSetPriority id prio => sys_set_priority k id prio
  | CSemNew a count => put_semaphore a (semaphore_new count)
  | CSemAcquire now a spun => ignore (sem_acquire k now a None spun)
  | CSemTry a => ignore (sem_try_acquire a)
  | CSemRelease now a => sem_release k now a
  | CMutexNew a => put_mutex a recmutex_new
  | CLock a => ignore (mutex_acquire k a)
  | CUnlock now a => mutex_release k now a
  | CStore a v => atomic_store a v
  | CFutexWait now a expected relative => ignore (futex_wait k now a expected None relative)
  | CFutexWaitSet now a expected relative v => ignore (futex_wait_and_set k now a expected None relative v)
  | CFutexWoken now a h => ignore (futex_woken k now a h None)
  | CFutexWake now a count => ignore (futex_wake k now a count)
  | CFutexWakeSet now a count v => ignore (futex_wake_or_set k now a count v)
  end.

Definition runs s (k : Z) : Prop := exists c t, running s k c t.
Definition tids_left s : Prop := Z.of_nat (size (s_tasks s)) < 4294967296.

(** Who may call what: the calls that put the caller to sleep, change or end it are made
    by a running task; locks and futex words exist; priorities are in range (the one in the
    task table is unsigned); there are task ids left. *)
Definition allowed s (k : Z) (x : call) : Prop :=
  is_Some (s_cores s !! k) /\
  match x with
  | CYield | CTimer _ _ | CIpi _ | CIdle _ | CNetworkTimer _ | CFpu | CWake _ _ | CStore _ _ | CFutexWake _ _ _ | CFutexWakeSet _ _ _ _ => True
  | CSpawn prio selector => tids_left s /\ 0 <= prio < NO_PRIORITIES /\ selector < get_processor_count s
  | CClone => runs s k /\ tids_left s
  | CJoin _ | CExit _ | CSleep _ _ | CBlock _ => runs s k
  | CSetPrio prio => runs s k /\ 0 < prio < NO_PRIORITIES
  | CSetPriority id prio => runs s k /\ 0 < prio < NO_PRIORITIES /\ forall h, s_tasks s !! id = Some h -> 0 <= th_priority h
  | CSemNew a _ => s_semaphores s !! a = None
  | CSemAcquire _ a _ => runs s k /\ is_Some (s_semaphores s !! a)
  | CSemTry a | CSemRelease _ a => is_Some (s_semaphores s !! a)
  | CMutexNew a => s_mutexes s !! a = None
  | CLock a => runs s k /\ is_Some (s_mutexes s !! a)
  | CUnlock _ a => is_Some (s_mutexes s !! a)
  | CFutexWait _ a _ _ | CFutexWaitSet _ a _ _ _ => runs s k /\ is_Some (s_words s !! a)
  | CFutexWoken _ _ h => runs s k /\ 0 <= th_priority h < NO_PRIORITIES
  end.

(** The one allowed call that panics: the priority of another task of this core whose
    priority is not the one in the task table, or which is not ready. *)
Definition stale_priority s (k : Z) (x : call) : bool :=
  match x with
  | CSetPriority id _ => negb (bool_decide (prio_known s k id))
  | _ => false
  end.

(** ** Booting *)

Definition power_on : System := mkSystem ∅ ∅ ∅ 0 1 1 0 ∅ ∅ ∅ ∅ ∅.

Fixpoint boot_cores (l : list Z) : SM unit :=
  match l with
  | [] => sret tt
  | k :: l => let! _ := add_current_core k in boot_cores l
  end.

Inductive reachable (n : Z) : System -> Prop :=
  | reach_boot s : boot_cores (seqZ 0 n) power_on = (s, Ok tt) -> reachable n s
  | reach_step s k x s' : reachable n s -> allowed s k x -> exec k x s = (s', Ok tt) -> reachable n s'.

(** ** Every step *)

Lemma calm_network t c : core_ok c -> calm [] c (set_oneshot_timer (min_opt t (front_time (c_blocked c))) (set_network_wakeup t c)).
Proof.
  intros Hok. split; [by apply inv_idle_part; [auto with hermit|]; apply inv_idle_part; auto with hermit|]. split; [done|]. split; [done|]. split; [done|]. by intros h.
Qed.

Section steps.
Context {X : unit -> System -> Prop}.

Lemma wp_ignore {A} (m : SM A) s (Q : unit -> System -> Prop) : wp m (fun _ => Q tt) X s -> wp (ignore m) Q X s.
Proof. intros Hm. apply wp_bind. eapply wp_mono; [exact Hm| |done]. intros a s' H. by apply wp_ret. Qed.

Lemma new_semaphore_ok s a count : sys_ok s -> s_semaphores s !! a = None -> sys_ok (set_semaphores (<[a := semaphore_new count]> (s_semaphores s)) s).
Proof.
  intros Hs Ha. eapply (sys_settled (at_place s)); [|done|].
  - sys_frame Hs. intros b y. cbn. destruct (decide (b = a)) as [->|]; [rewrite lookup_insert_eq|rewrite lookup_insert_ne by done; apply (si_sem _ _ Hs)].
    intros [= <-]. apply hq_new_ok.
  - intros p _ _. destruct p as [| |b| | | |]; try done. cbn. destruct (decide (b = a)) as [->|]; [by rewrite lookup_insert_eq, Ha|by rewrite lookup_insert_ne].
Qed.

Lemma new_mutex_ok s a : sys_ok s -> s_mutexes s !! a = None -> sys_ok (set_mutexes (<[a := recmutex_new]> (s_mutexes s)) s).
Proof.
  intros Hs Ha. eapply (sys_settled (at_place s)); [|done|].
  - sys_frame Hs. intros b y. cbn. destruct (decide (b = a)) as [->|]; [rewrite lookup_insert_eq|rewrite lookup_insert_ne by done; apply (si_mutex _ _ Hs)].
    intros [= <-]. apply hq_new_ok.
  - intros p _ _. destruct p as [| | |b| | |]; try done. cbn. destruct (decide (b = a)) as [->|]; [by rewrite lookup_insert_eq, Ha|by rewrite lookup_insert_ne].
Qed.

Lemma wp_usleep s k c t now usecs (Q : bool -> System -> Prop) :
  sys_ok s -> running s k c t -> (forall b s', sys_ok s' -> Q b s') -> wp (usleep k now usecs) Q X s.
Proof.
  intros Hs Hrun HQ. unfold usleep. destruct (10000 <=? usecs); [|by apply wp_ret, HQ]. apply wp_bind. eapply wp_sleep; [done|done|].
  intros s' Hs'. by apply wp_ret, HQ.
Qed.

Lemma exec_ok s k x (Q : unit -> System -> Prop) :
  sys_ok s -> allowed s k x -> stale_priority s k x = false -> (forall s', sys_ok s' -> Q tt s') -> wp (exec k x) Q X s.
Proof.
  intros Hs [[c Hk] Hal] Hstale HQ. pose proof (pl_ok _ _ _ (si_core _ _ Hs _ _ Hk)) as Hok.
  assert (forall A (a : A) s', sys_ok s' -> Q tt s') as HQ' by auto.
  destruct x; cbn [exec]; try apply wp_ignore.
  - apply (wp_calm _ k c); auto. intros R HR. by apply wp_reschedule.
  - apply (wp_calm _ k c); auto. intros R HR. by apply wp_timer_handler.
  - by eapply wp_ipi; auto.
  - by eapply wp_idle_round; auto.
  - apply (wp_calm _ k c); [done|done| |by intros []]. intros R HR. apply wp_bind, wp_modify, wp_bind, wp_gets, wp_modify, HR. exact (calm_network wakeup_time c Hok).
  - apply (wp_calm _ k c); auto. intros R HR. unfold fpu_switch. apply wp_bind, wp_gets, wp_bind, wp_gets.
    case_bool_decide; [by apply wp_ret, HR, calm_refl|]. apply wp_bind, wp_modify, wp_ret, HR.
    split; [by apply inv_idle_part; auto with hermit|]. split; [done|]. split; [done|]. split; [done|]. by intros h.
  - destruct Hal as (H1 & H2 & H3). by eapply wp_spawn; auto.
  - destruct Hal as ((c' & t & H1) & H2). by eapply wp_clone; eauto.
  - destruct Hal as (c' & t & H1). by eapply wp_join; eauto.
  - destruct Hal as (c' & t & H1). by eapply wp_exit; eauto.
  - destruct Hal as (c' & t & H1). by eapply wp_usleep; eauto.
  - destruct Hal as (c' & t & H1). by eapply wp_sys_block; eauto.
  - by eapply wp_sys_wakeup; eauto.
  - destruct Hal as ((c' & t & H1) & H2). by eapply wp_set_own_priority; eauto.
  - destruct Hal as ((c' & t & H1) & H2 & H3). apply negb_false_iff, bool_decide_eq_true in Hstale.
    by eapply wp_sys_set_priority; eauto.
  - by apply wp_modify, HQ, new_semaphore_ok.
  - destruct Hal as ((c' & t & H1) & y & H2). by eapply wp_sem_acquire; eauto.
  - destruct Hal as (y & H2). by eapply wp_sem_try; eauto.
  - destruct Hal as (y & H2). by eapply wp_sem_release; eauto.
  - by apply wp_modify, HQ, new_mutex_ok.
  - destruct Hal as ((c' & t & H1) & y & H2). by eapply wp_mutex_acquire; eauto.
  - destruct Hal as (y & H2). by eapply wp_mutex_release; eauto.
  - by apply wp_modify, HQ, store_ok.
  - destruct Hal as ((c' & t & H1) & y & H2). by eapply wp_futex_wait; eauto.
  - destruct Hal as ((c' & t & H1) & y & H2). by eapply wp_futex_wait_and_set; eauto.
  - destruct Hal as ((c' & t & H1) & H2). by eapply wp_futex_woken; eauto.
  - by eapply wp_futex_wake; eauto.
  - by eapply wp_futex_wake_or_set; eauto.
Qed.

End steps.

Lemma exec_stale s k x : sys_ok s -> allowed s k x -> stale_priority s k x = true -> snd (exec k x s) = Panic.
Proof.
  intros Hs [_ Hal] Hst. destruct x; try done. destruct Hal as ((c & t & H1) & _ & H3).
  apply negb_true_iff, bool_decide_eq_false in Hst. by eapply sys_set_priority_stale.
Qed.

(** An allowed call that returned has kept the invariant. *)
Lemma exec_returned s k x s' : sys_ok s -> allowed s k x -> exec k x s = (s', Ok tt) -> sys_ok s'.
Proof.
  intros Hs Hal E. destruct (stale_priority s k x) eqn:Est.
  - pose proof (exec_stale s k x Hs Hal Est) as Hp. by rewrite E in Hp.
  - destruct (wp_run_ok _ _ _ (exec_ok s k x (fun _ => sys_ok) Hs Hal Est (fun s' Hs' => Hs'))) as (s2 & [] & E2 & Hs2).
    rewrite E in E2. by injection E2 as <-.
Qed.

(** ** Booting *)

(** Before the first core is up the counter for [clone] is out of range. *)
Definition booting s (n : Z) : Prop :=
  sys_ok (set_next_core_id 0 s) /\ get_processor_count s = n /\ s_next_core_id s = 1 /\ Z.of_nat (size (s_tasks s)) = n.

Lemma power_on_booting : booting power_on 0.
Proof.
  split; [|done]. split; try done.
  - split; try done; try (by intros p; destruct p; constructor).
    + intros p h. by destruct p; intros ?%not_elem_of_nil.
    + intros p p' h h'. by destruct p; intros ?%not_elem_of_nil.
    + by intros k h ?%not_elem_of_nil.
  - intros k. cbn. rewrite lookup_empty. split; [by intros []|]. change (0 <= k < 0 -> is_Some (@None Core)). lia.
  - intros id. by intros [].
Qed.

Lemma queue_at_new i : queue_at pq_new i = [].
Proof.
  unfold queue_at, pq_new. cbn [pq_queues]. destruct (0 <=? i); [|done].
  destruct (replicate 31 [] !! Z.to_nat i) as [l|] eqn:E; [|done]. apply lookup_replicate in E as [-> _]. done.
Qed.

Lemma boot_core_ok k tid : core_ok (boot_core k tid).
Proof.
  assert (forall r t, c_heap (boot_core k tid) !! r = Some t -> r = O /\ t = mkTask tid Idle IDLE_PRIO k) as Hh.
  { intros r t. cbn. intros [<- <-]%lookup_singleton_Some. done. }
  assert (forall r u, st (boot_core k tid) r = Some u -> r = O /\ u = Idle) as Hst.
  { intros r u. unfold st. destruct (c_heap (boot_core k tid) !! r) as [t|] eqn:E; [|done]. apply Hh in E as [-> ->]. by intros [= <-]. }
  split; cbn.
  - apply pq_new_ok.
  - intros i r. rewrite queue_at_new. split; [by intros ?%not_elem_of_nil|]. by intros ([_ [=]]%Hst & _).
  - intros i. rewrite queue_at_new. constructor.
  - intros r. split; [by intros ?%not_elem_of_nil|]. by intros ([_ [=]]%Hst & _).
  - constructor.
  - constructor.
  - intros r u [-> ->]%Hst. by intros [].
  - exists Idle. split; [done|]. done.
  - intros r. split; [by intros [-> _]%Hst|]. by intros ->.
  - apply not_elem_of_nil.
  - intros r t [-> ->]%Hh. cbn. unfold IDLE_PRIO, NO_PRIORITIES. lia.
  - intros r r' t t' [-> ->]%Hh [-> ->]%Hh. done.
  - by intros r ?%not_elem_of_nil.
  - by intros r ?%not_elem_of_nil.
Qed.

Lemma boot_core_placed tasks k tid h : th_core_id h = k -> core_placed (<[tid := h]> tasks) k (boot_core k tid).
Proof.
  intros Hh. split; [apply boot_core_ok|done| |constructor|by intros n ?%not_elem_of_nil].
  intros r t. cbn. intros [<- <-]%lookup_singleton_Some. cbn. by rewrite lookup_insert_eq, <- Hh.
Qed.

(** One more core, with its idle task in the tables. *)
Lemma boot_one s n tid counter h :
  sys_ok s -> get_processor_count s = n -> n < U32_MAX -> s_tasks s !! tid = None -> -2147483648 <= counter < 2147483648 -> th_core_id h = n ->
  sys_ok (set_cores (<[n := boot_core n tid]> (s_cores s)) (set_tasks (<[tid := h]> (s_tasks s)) (set_waiting (<[tid := []]> (s_waiting s)) (set_tid_counter counter s)))).
Proof.
  intros Hs Hn Hmax Hnone Hr Hh. set (s' := set_cores _ _).
  assert (s_cores s !! n = None) as Hfresh.
  { destruct (s_cores s !! n) eqn:E; [|done]. assert (0 <= n < get_processor_count s) by (apply (si_cores _ _ Hs); rewrite E; eauto). lia. }
  assert (get_processor_count s' = n + 1) as Hcount by (unfold get_processor_count, s' in *; cbn; rewrite map_size_insert_None by done; lia).
  assert (forall p, at_place s p = at_place s' p) as Hplace.
  { intros p. destruct p as [id| | | | |k|]; try done; cbn.
    - destruct (decide (id = tid)) as [->|]; [rewrite lookup_insert_eq|by rewrite lookup_insert_ne].
      destruct (s_waiting s !! tid) eqn:E; [|done]. destruct (si_waiting _ _ Hs tid) as [? Hx]; [rewrite E; eauto|congruence].
    - destruct (decide (k = n)) as [->|]; [by rewrite lookup_insert_eq, Hfresh|by rewrite lookup_insert_ne]. }
  pose proof Hs as [F1 [P1 P2 P3 P4 P5] F3 F4 F5 F6 F7 F8 F9 F10 F11 F12]. apply (sys_ext (at_place s)); [done|].
  split; try done; rewrite ?Hcount; try lia.
  - intros k c. cbn. destruct (decide (k = n)) as [->|Hk]; [rewrite lookup_insert_eq|rewrite lookup_insert_ne by done].
    + intros [= <-]. by apply boot_core_placed.
    + intros Hc. pose proof (placed_new (s_tasks s) k c (mkNewTask tid 0 n) h (c_new_tasks c)) as Hp. cbn in Hp.
      assert (set_new_tasks (c_new_tasks c) c = c) as E by (by destruct c). rewrite E in Hp. apply Hp; auto. unfold NO_PRIORITIES. lia.
  - split; try done.
    intros p h' Hh'. destruct (P1 p h' Hh') as (c & Hc & Ha). exists c. split; [|done]. cbn. rewrite lookup_insert_ne; [done|]. intros E. rewrite <- E in Hc. congruence.
  - intros k. cbn. rewrite lookup_insert_is_Some', F3, Hn. lia.
  - change (0 <= s_next_core_id s <= n + 1). lia.
  - intros id. cbn. rewrite !lookup_insert_is_Some'. intros [?|?]; [by left|]. right. auto.
Qed.

Section booting.
Context {X : unit -> System -> Prop}.

Lemma wp_add_current_core s n (Q : unit -> System -> Prop) :
  booting s n -> 0 <= n < U32_MAX -> (forall s', booting s' (n + 1) -> Q tt s') -> wp (add_current_core n) Q X s.
Proof.
  intros (Hs & Hn & Hnext & Hsz) Hb HQ. unfold add_current_core, get_tid. apply wp_bind, wp_bind, wp_gets, wp_bind, wp_gets.
  pose proof (next_tid_found (s_tasks s) _ (si_tid _ _ Hs)) as Hf. cbn [set_next_core_id s_tid_counter] in Hf.
  destruct (next_tid (S (size (s_tasks s))) (s_tasks s) (s_tid_counter s)) as [[tid counter]|] eqn:E; [|destruct Hf; [unfold U32_MAX in *; lia|done]].
  apply next_tid_some in E as [Hnone Hr]. apply wp_bind, wp_modify, wp_ret. set (h := mkTaskHandle tid IDLE_PRIO n).
  apply wp_bind. unfold register. apply wp_bind, wp_modify, wp_modify, wp_modify. apply HQ.
  split; [apply (boot_one (set_next_core_id 0 s) n tid counter h); auto; lia|]. cbn. split; [|split; [done|rewrite map_size_insert_None by done; lia]].
  assert (s_cores s !! n = None) as Hfresh.
  { destruct (s_cores s !! n) eqn:E; [|done]. assert (0 <= n < get_processor_count s) by (apply (si_cores _ _ Hs); cbn; rewrite E; eauto). lia. }
  unfold get_processor_count in *. cbn. rewrite map_size_insert_None by done. lia.
Qed.

Lemma wp_boot_cores m : forall s n (Q : unit -> System -> Prop),
  booting s n -> 0 <= n -> n + Z.of_nat m <= U32_MAX -> (forall s', booting s' (n + Z.of_nat m) -> Q tt s') -> wp (boot_cores (seqZ n (Z.of_nat m))) Q X s.
Proof.
  induction m as [|m IH]; intros s n Q Hs Hn Hmax HQ.
  { apply wp_ret, HQ. by rewrite Z.add_0_r. }
  rewrite seqZ_cons by lia. cbn [boot_cores]. apply wp_bind, wp_add_current_core; [done|lia|]. intros s' Hs'.
  replace (Z.pred (Z.of_nat (S m))) with (Z.of_nat m) by lia. replace (Z.succ n) with (n + 1) by lia. apply IH; [done|lia|lia|].
  intros s2 Hs2. apply HQ. by replace (n + Z.of_nat (S m)) with (n + 1 + Z.of_nat m) by lia.
Qed.
End booting.

Lemma boot_ok n : 1 <= n <= U32_MAX -> exists s, boot_cores (seqZ 0 n) power_on = (s, Ok tt) /\ sys_ok s.
Proof.
  intros Hn. assert (wp (boot_cores (seqZ 0 (Z.of_nat (Z.to_nat n)))) (fun _ s => sys_ok s) (fun _ _ => False) power_on) as Hw.
  { apply wp_boot_cores; [apply power_on_booting|lia|lia|]. intros s (Hs & Hc & Hx & _).
    assert (set_next_core_id 1 (set_next_core_id 0 s) = s) as E by (destruct s; cbn in *; by rewrite <- Hx).
    rewrite <- E. eapply (sys_settled (at_place (set_next_core_id 0 s))); [|done|intros p _ _; by destruct p].
    sys_frame Hs. cbn. rewrite Hc || change (0 <= 1 <= get_processor_count s); rewrite ?Hc; lia. }
  rewrite Z2Nat.id in Hw by lia. apply wp_run_ok in Hw as (s & [] & E & Hs). eauto.
Qed.

Lemma reachable_ok n s : 1 <= n <= U32_MAX -> reachable n s -> sys_ok s.
Proof.
  intros Hn. induction 1 as [s E|s k x s' Hr IH Hal E].
  - destruct (boot_ok n Hn) as (s' & E' & Hs). rewrite E in E'. by injection E' as <-.
  - by eapply exec_returned.
Qed.

(** C26: the task system is safe.  From the boot of up to 2^32 - 1 cores, whatever the cores
    do in whatever order (spawn, clone, join, exit, sleep, block and wake, change
    priorities, use semaphores, recursive mutexes and futexes without time limits, take
    timer and wake-up interrupts, poll in the idle loop), the invariant holds: every task is
    in exactly the place its status says, on the core the task table says; whoever waits in
    a queue or in a core's input sleeps, and waits there once.  And every call that its
    caller may make returns (no assertion fails, no index is out of range, no
    [unreachable!] is reached), but for one: [sys_set_priority] panics exactly when the
    task is another one of the same core that is not ready or whose priority is not the one
    in the task table, or when there is no such task.  Waits with a time limit are not among
    the calls: a wait for a semaphore that timed out leaves an entry behind that makes a
    later release panic ([timed_release_panics]). *)
Theorem tasks_safe n s :
  1 <= n <= U32_MAX -> reachable n s ->
  sys_ok s /\ forall k x, allowed s k x ->
    if stale_priority s k x then snd (exec k x s) = Panic
    else exists s', exec k x s = (s', Ok tt) /\ reachable n s'.
Proof.
  intros Hn Hr. pose proof (reachable_ok n s Hn Hr) as Hs. split; [done|]. intros k x Hal.
  destruct (stale_priority s k x) eqn:Est; [by apply exec_stale|].
  destruct (wp_run_ok _ _ _ (exec_ok s k x (fun _ _ => True) Hs Hal Est (fun _ _ => I))) as (s' & [] & E & _). exists s'. split; [done|]. by econstructor.
Qed.
