(* ===== verification/TaskProperties.v ===== *)
(** * Properties of the scheduler

    What the scheduler promises, for the cores of a reachable system: which task runs
    next, that tasks of one priority take turns, what the timer wakes, what an exit does
    for those who joined; and two ways to a panic. *)

From Stdlib Require Import Sorted.
From stdpp Require Import gmap.
From S2P Require Import Prelude TaskQueue TaskQueueTheorems Scheduler SchedulerSpec SchedulerTheorems Tasks Synch TasksSpec TasksTheorems SynchTheorems TaskMachine.

Implicit Types (c : Core) (r : TaskRef) (h : TaskHandle) (s : System).

(** ** A run of two cores

    Core 0 starts three tasks (ids 2, 3 and 4), core 1 none; task 2 joins task 3. *)
Module TwoCores.
Definition after (l : list (Z * call)) s : System := fold_left (fun s kx => fst (exec kx.1 kx.2 s)) l s.
Definition booted : System := fst (boot_cores (seqZ 0 2) power_on).
Definition started : System := after [(0, CSpawn 2 0); (0, CSpawn 2 0); (0, CSpawn 2 0); (0, CYield)] booted.
Definition joined : System := after [(0, CJoin 3); (0, CYield)] started.
Definition core0 s : Core := default (boot_core 0 0) (s_cores s !! 0).
End TwoCores.

(** Each call of the run is allowed and returns. *)
Fixpoint run_ok (l : list (Z * call)) s : Prop :=
  match l with
  | [] => True
  | (k, x) :: l => allowed s k x /\ snd (exec k x s) = Ok tt /\ run_ok l (fst (exec k x s))
  end.

Lemma reach_run n l : forall s, reachable n s -> run_ok l s -> reachable n (TwoCores.after l s).
Proof.
  induction l as [|[k x] l IH]; intros s Hr Hl; [exact Hr|]. destruct Hl as (Ha & E & Hl). apply IH; [|exact Hl].
  eapply reach_step; [exact Hr|exact Ha|]. rewrite <- E. apply surjective_pairing.
Qed.

Ltac show_running := do 2 eexists; split; [vm_compute; reflexivity|split; vm_compute; reflexivity].
Ltac show_spawn := split; [vm_compute; reflexivity|split; [split; [discriminate|reflexivity]|vm_compute; reflexivity]].
Ltac take_step tac := split; [split; [eexists; vm_compute; reflexivity|tac]|split; [vm_compute; reflexivity|]].

Lemma two_cores_booted : reachable 2 TwoCores.booted.
Proof. apply reach_boot. vm_compute. reflexivity. Qed.

Lemma two_cores_started : reachable 2 TwoCores.started.
Proof.
  apply reach_run; [apply two_cores_booted|]. take_step show_spawn. take_step show_spawn. take_step show_spawn. take_step ltac:(exact I). exact I.
Qed.

Lemma two_cores_joined : reachable 2 TwoCores.joined.
Proof. apply reach_run; [apply two_cores_started|]. take_step show_running. take_step ltac:(exact I). exact I. Qed.

Lemma reachable_core n s k c : 1 <= n <= U32_MAX -> reachable n s -> s_cores s !! k = Some c -> core_ok c.
Proof. intros Hn Hr Hk. by eapply pl_ok, si_core; [apply (reachable_ok n)|]. Qed.

Lemma started_ok : core_ok (TwoCores.core0 TwoCores.started).
Proof. eapply (reachable_core 2 _ 0); [unfold U32_MAX; lia|apply two_cores_started|]. vm_compute. reflexivity. Qed.

(** The witness of the safety of the task system: after task 2 has joined task 3, which
    runs now, task 3 may exit. *)
Lemma tasks_safe_witness :
  sys_ok TwoCores.joined /\ exists s', exec 0 (CExit 7) TwoCores.joined = (s', Ok tt) /\ reachable 2 s'.
Proof.
  destruct (tasks_safe 2 TwoCores.joined) as [Hs Hall]; [unfold U32_MAX; lia|apply two_cores_joined|]. split; [exact Hs|].
  refine (Hall 0 (CExit 7) _). split; [eexists; vm_compute; reflexivity|]. cbn. show_running.
Defined.

(** ** The next task *)

(** C27: [scheduler] returns, keeps the invariant of the core and picks the right task
    ([sched_post]): a running task gives way to the oldest ready task of the highest
    priority, if that is at least its own, and goes to the end of its own list; a task that
    sleeps or is finished gives way to the oldest ready task of the highest priority and,
    when none is ready, to the idle task; a finished task is left for the clean-up; no other
    task changes its status or place. *)
Theorem scheduler_picks c :
  core_ok c -> exists t o c', c_heap c !! c_current c = Some t /\ scheduler c = (c', Ok o) /\ core_ok c' /\ sched_post c t o c'.
Proof.
  intros Hok. assert (wp scheduler (fun o c' => exists t, c_heap c !! c_current c = Some t /\ core_ok c' /\ sched_post c t o c') (fun _ _ => False) c) as Hw
    by (apply wp_scheduler; eauto).
  apply wp_run_ok in Hw as (c' & o & E & t & Ht & Hok' & Hp). exists t, o, c'. done.
Qed.

Lemma scheduler_picks_witness :
  exists t o c', c_heap (TwoCores.core0 TwoCores.started) !! c_current (TwoCores.core0 TwoCores.started) = Some t /\
    scheduler (TwoCores.core0 TwoCores.started) = (c', Ok o) /\ core_ok c' /\ sched_post (TwoCores.core0 TwoCores.started) t o c'.
Proof. apply (scheduler_picks (TwoCores.core0 TwoCores.started)). apply started_ok. Defined.

(** ** Turns *)

Fixpoint yields (n : nat) : CM unit :=
  match n with
  | O => sret tt
  | S n => let! _ := scheduler in yields n
  end.

(** The first of a line goes to its end. *)
Definition rot {A} (l : list A) : list A := match l with [] => [] | x :: l => l ++ [x] end.

Lemma iter_rot {A} n : forall l : list A, (n <= length l)%nat -> Nat.iter n rot l = drop n l ++ take n l.
Proof.
  induction n as [|n IH]; intros l Hn; [by rewrite app_nil_r|].
  change (Nat.iter (S n) rot l) with (rot (Nat.iter n rot l)). rewrite IH by lia.
  destruct (lookup_lt_is_Some_2 l n) as [x Hx]; [lia|]. rewrite (drop_S _ _ _ Hx), (take_S_r _ _ _ Hx). cbn. by rewrite app_assoc.
Qed.

(** The current task runs at priority [p], and no ready task has a higher one. *)
Definition runs_at c (p : Z) : Prop :=
  st c (c_current c) = Some Running /\ pr c (c_current c) = Some p /\ forall j, p < j -> queue_at (c_ready c) j = [].

Definition line c (p : Z) : list TaskRef := c_current c :: queue_at (c_ready c) p.

Lemma turn c p t o c' :
  core_ok c -> core_ok c' -> runs_at c p -> c_heap c !! c_current c = Some t -> sched_post c t o c' -> runs_at c' p /\ line c' p = rot (line c p).
Proof.
  intros Hok Hok' (Hst & Hpr & Hhigh) Ht Hp. unfold st, pr in Hst, Hpr. rewrite Ht in Hst, Hpr. injection Hst as Hst. injection Hpr as Hpr.
  destruct Hp as [_ Hnone|Hi _|c' Hn _ _ _|r q c' Hnext Hsw]; [|congruence|congruence|].
  - split; [unfold runs_at, st, pr; cbn; rewrite Ht; cbn; by rewrite Hst, Hpr|]. unfold line. cbn.
    destruct (ok_task _ _ Hok _ _ Ht) as (Hb & _). rewrite (Hnone p) by lia. done.
  - rewrite bool_decide_eq_true_2 in Hnext by done. destruct Hnext as (i & rest & Hle & Hi & Hq & Hj & Hat).
    assert (i = p) as -> by (destruct (Z.lt_trichotomy p i) as [?|[?|?]]; [by rewrite Hhigh in Hq|done|lia]).
    destruct Hsw as (m & ready & -> & Hm & Hready). rewrite bool_decide_eq_true_2 in Hready by done. cbn [andb] in Hready.
    assert (r ∈ queue_at (c_ready c) p) as Hin by (rewrite Hq; by left). apply (ok_ready _ _ Hok) in Hin as (Hsr & Hpr' & _).
    unfold st, pr in Hsr, Hpr'. destruct (c_heap c !! r) as [tr|] eqn:Er; [|done]. cbn in Hsr, Hpr'. injection Hsr as Hsr. injection Hpr' as Hpr'.
    split.
    + unfold runs_at, st, pr. cbn. rewrite Hm, Er. cbn. unfold status_after. rewrite bool_decide_eq_true_2, Hsr by done. cbn. split; [done|].
      split; [by rewrite Hpr'|]. intros j Hlt. rewrite Hready, Hat. replace (j =? p) with false by lia. replace (j =? t_prio t) with false by lia. by rewrite Hhigh.
    + unfold line. cbn. rewrite Hready, Hat, Z.eqb_refl, Hpr, Z.eqb_refl, Hq. done.
Qed.

Lemma wp_yields n : forall c p (Q : unit -> Core -> Prop),
  core_ok c -> runs_at c p -> (forall c', core_ok c' -> runs_at c' p -> line c' p = Nat.iter n rot (line c p) -> Q tt c') -> wp (yields n) Q (fun _ _ => False) c.
Proof.
  induction n as [|n IH]; intros c p Q Hok Hr HQ; cbn [yields]; [by apply wp_ret, HQ|].
  apply wp_bind, wp_scheduler; [done|]. intros t o c' Ht Hok' Hp. destruct (turn _ _ _ _ _ Hok Hok' Hr Ht Hp) as [Hr' Hl].
  apply (IH c' p); [done|done|]. intros c2 Hok2 Hr2 Hl2. apply HQ; [done|done|]. rewrite Hl2, Hl. apply (Nat.iter_swap n _ rot (line c p)).
Qed.

(** C28: tasks of one priority take turns.  While no task of a higher priority is ready, the
    current task and the ready ones of its priority form a line: after [n] switches, for any
    [n] up to its length, the [n]-th of the line runs, and those behind it and then those
    before it wait in this order.  So nobody of the line waits for more than its length. *)
Theorem round_robin c p n r :
  core_ok c -> runs_at c p -> line c p !! n = Some r ->
  exists c', yields n c = (c', Ok tt) /\ c_current c' = r /\ line c' p = drop n (line c p) ++ take n (line c p).
Proof.
  intros Hok Hr Hn. pose proof (lookup_lt_Some _ _ _ Hn) as Hlt.
  assert (wp (yields n) (fun _ c' => line c' p = Nat.iter n rot (line c p)) (fun _ _ => False) c) as Hw by (apply (wp_yields n c p); auto).
  apply wp_run_ok in Hw as (c' & [] & E & Hl). exists c'. split; [done|]. rewrite iter_rot in Hl by lia. split; [|done].
  rewrite (drop_S _ _ _ Hn) in Hl. unfold line at 1 in Hl. by injection Hl.
Qed.

Lemma highest_ready c p : core_ok c -> msb (pq_bitmap (c_ready c)) = Some p -> forall j, p < j -> queue_at (c_ready c) j = [].
Proof. intros Hok Hm. pose proof (bitmap_msb _ _ (proj2 (ok_queue _ _ Hok))) as Hx. rewrite Hm in Hx. apply Hx. Qed.

Lemma round_robin_witness :
  exists c', yields 2 (TwoCores.core0 TwoCores.started) = (c', Ok tt) /\ c_current c' = 3%nat /\
    line c' 2 = drop 2 (line (TwoCores.core0 TwoCores.started) 2) ++ take 2 (line (TwoCores.core0 TwoCores.started) 2).
Proof.
  apply (round_robin (TwoCores.core0 TwoCores.started) 2 2 3); [apply started_ok| |vm_compute; reflexivity].
  split; [vm_compute; reflexivity|split; [vm_compute; reflexivity|]]. apply (highest_ready _ _ started_ok). vm_compute. reflexivity.
Defined.

(** ** The timer *)

Lemma sorted_front l b x : StronglySorted le_time l -> b ∈ l -> bt_wakeup_time b = Some x -> exists y, front_time l = Some y /\ y <= x.
Proof.
  intros Hs Hin Hb. destruct Hs as [|a l Hs Ha]; [by apply not_elem_of_nil in Hin|]. cbn. apply elem_of_cons in Hin as [->|Hin]; [eauto with lia|].
  rewrite Forall_forall in Ha. specialize (Ha b Hin). unfold le_time in Ha. rewrite Hb in Ha. destruct (bt_wakeup_time a) as [y|]; [eauto|done].
Qed.

(** C29: the timer interrupt wakes whom it should.  Of the sleeping tasks exactly those whose
    time is over become ready ([timer_post]), in the order of their times at the ends of
    their lists; the others stay, and the timer is set so that no sleeper and no network
    deadline that is left is missed. *)
Theorem timer_wakes_the_elapsed now nic c :
  core_ok c ->
  exists c', handle_waiting_tasks now nic c = (c', Ok tt) /\ core_ok c' /\ timer_post now nic c c' /\
    (forall b, b ∈ c_blocked c' <-> b ∈ c_blocked c /\ elapsed now b = false) /\
    (forall r, st c' r = Some Ready <-> st c r = Some Ready \/ exists b, b ∈ c_blocked c /\ bt_task b = r /\ elapsed now b = true) /\
    (forall x, (exists b, b ∈ c_blocked c' /\ bt_wakeup_time b = Some x) \/ c_network_wakeup c' = Some x -> exists y, c_timer c' = Some y /\ y <= x).
Proof.
  intros Hok.
  assert (wp (handle_waiting_tasks now nic) (fun _ c' => core_ok c' /\ timer_post now nic c c') (fun _ _ => False) c) as Hw by (apply wp_handle_waiting; auto).
  apply wp_run_ok in Hw as (c' & [] & E & Hok' & Hp). exists c'. split; [done|]. split; [done|]. split; [done|].
  pose proof (ok_sorted _ _ Hok') as Hsorted. destruct Hp as (c2 & Hwk & ->). pose proof Hwk as (m & q & -> & _). cbn in *. split; [|split].
  - intros b. rewrite !list_elem_of_In, filter_In, negb_true_iff. done.
  - intros r. set (rs := bt_task <$> List.filter (elapsed now) (c_blocked c)) in *.
    pose proof (woken_st _ _ _ r Hwk) as Est. unfold st in Est |- *. cbn in Est |- *. rewrite Est.
    assert (r ∈ rs <-> exists b, b ∈ c_blocked c /\ bt_task b = r /\ elapsed now b = true) as Hrs.
    { unfold rs. rewrite list_elem_of_fmap. split.
      - intros (b & -> & Hb). rewrite list_elem_of_In, filter_In, <- list_elem_of_In in Hb. destruct Hb. eauto.
      - intros (b & Hb & <- & He). exists b. split; [done|]. by rewrite list_elem_of_In, filter_In, <- list_elem_of_In. }
    rewrite <- Hrs. case_bool_decide as Hin; [|tauto]. split; [by right|]. intros _.
    assert (r ∈ bt_task <$> c_blocked c) as Hb by (apply Hrs in Hin as (b & Hb & <- & _); by apply list_elem_of_fmap_2).
    apply (ok_blocked _ _ Hok) in Hb as [Hst _]. unfold st in Hst. by destruct (c_heap c !! r).
  - intros x Hx. set (l := List.filter _ _) in *. set (network := match nic with Some delay => _ | None => _ end) in *.
    destruct Hx as [(b & Hb & Hbx)|Hx].
    + destruct (sorted_front l b x Hsorted Hb Hbx) as (y & -> & Hy). destruct network as [z|]; cbn; eexists; (split; [reflexivity|lia]).
    + rewrite Hx. destruct (front_time l) as [y|]; cbn; eexists; (split; [reflexivity|lia]).
Qed.

(** Two tasks of the run sleep, for 20 and for 50 ms. *)
Module Sleepers.
Definition sleeping : System := TwoCores.after [(0, CSleep 100 20000); (0, CYield); (0, CSleep 200 50000); (0, CYield)] TwoCores.started.
Definition core : Core := TwoCores.core0 sleeping.
End Sleepers.

Lemma sleepers_ok : core_ok Sleepers.core.
Proof.
  eapply (reachable_core 2 Sleepers.sleeping 0); [unfold U32_MAX; lia| |vm_compute; reflexivity]. apply reach_run; [apply two_cores_started|].
  take_step show_running. take_step ltac:(exact I). take_step show_running. take_step ltac:(exact I). exact I.
Qed.

Lemma timer_wakes_the_elapsed_witness :
  exists c', handle_waiting_tasks 30000 None Sleepers.core = (c', Ok tt) /\ core_ok c' /\ timer_post 30000 None Sleepers.core c' /\
    (forall b, b ∈ c_blocked c' <-> b ∈ c_blocked Sleepers.core /\ elapsed 30000 b = false) /\
    (forall r, st c' r = Some Ready <-> st Sleepers.core r = Some Ready \/ exists b, b ∈ c_blocked Sleepers.core /\ bt_task b = r /\ elapsed 30000 b = true) /\
    (forall x, (exists b, b ∈ c_blocked c' /\ bt_wakeup_time b = Some x) \/ c_network_wakeup c' = Some x -> exists y, c_timer c' = Some y /\ y <= x).
Proof. apply (timer_wakes_the_elapsed 30000 None Sleepers.core). apply sleepers_ok. Defined.

(** ** Joining *)

(** C30: an exit wakes everyone who joined.  When a running task exits, its join queue is
    gone from the table, so later calls of [join] return at once, and every task that
    waited in it is ready to run if it belongs to the same core, and else in the input of
    its core, which the wake-up interrupt and the idle loop empty. *)
Theorem exit_wakes_joiners n s k c t now queue :
  1 <= n <= U32_MAX -> reachable n s -> running s k c t -> s_waiting s !! t_id t = Some queue ->
  exists s', exit k now s = (s', Ok tt) /\ sys_ok s' /\ Forall (delivered s' k) queue /\ forall j, join j (t_id t) s' = (s', Ok true).
Proof.
  intros Hn Hr Hrun Hw. pose proof (reachable_ok n s Hn Hr) as Hs.
  assert (wp (exit k now) (fun _ s' => sys_ok s' /\ s_waiting s' !! t_id t = None /\ Forall (delivered s' k) queue) (fun _ _ => False) s) as Hwp
    by (eapply wp_exit_wakes; [done|done|]; auto).
  apply wp_run_ok in Hwp as (s' & [] & E & Hs' & Hnone & Hd). exists s'. split; [done|]. split; [done|]. split; [done|]. intros j.
  unfold join, sbind, sgets. by rewrite Hnone.
Qed.

(** Task 3 exits while task 2 waits for it. *)
Lemma exit_wakes_joiners_witness :
  exists s', exit 0 7 TwoCores.joined = (s', Ok tt) /\ sys_ok s' /\ Forall (delivered s' 0) [mkTaskHandle 2 2 0] /\ forall j, join j 3 s' = (s', Ok true).
Proof.
  refine (exit_wakes_joiners 2 TwoCores.joined 0 (TwoCores.core0 TwoCores.joined) (mkTask 3 Running 2 0) 7 [mkTaskHandle 2 2 0] _ _ _ _).
  - unfold U32_MAX. lia.
  - apply two_cores_joined.
  - split; [vm_compute; reflexivity|split; vm_compute; reflexivity].
  - vm_compute. reflexivity.
Defined.

(** ** Panics *)

(** C31: waking a task that does not sleep is fatal.  On a core in order, waking the task of
    a handle ([custom_wakeup] on the task's own core) panics, in [unreachable!], exactly when
    no blocked task has the handle's id; otherwise it returns.  A timed wait leaves such a
    handle behind when its time is over before the release. *)
Theorem wakeup_panics_iff_not_blocked now h c :
  core_ok c ->
  ((exists c', wake_local now h c = (c', Panic)) <-> ~ exists r t, c_heap c !! r = Some t /\ t_id t = th_id h /\ t_status t = Blocked) /\
  ((exists c', wake_local now h c = (c', Ok tt)) <-> exists r t, c_heap c !! r = Some t /\ t_id t = th_id h /\ t_status t = Blocked).
Proof.
  intros Hok. assert ((exists r t, c_heap c !! r = Some t /\ t_id t = th_id h /\ t_status t = Blocked) -> exists c', wake_local now h c = (c', Ok tt)) as Hyes.
  { intros (r & t & Hr & Hid & Hst). assert (wp (wake_local now h) (fun _ _ => True) (fun _ _ => False) c) as Hw by (by eapply wp_wake_local).
    apply wp_run_ok in Hw as (c' & [] & E & _). eauto. }
  assert (~ (exists r t, c_heap c !! r = Some t /\ t_id t = th_id h /\ t_status t = Blocked) -> exists c', wake_local now h c = (c', Panic)) as Hno.
  { intros Hn. assert (find_blocked (th_id h) (c_heap c) (c_blocked c) = Ok None) as E.
    { assert (forall b, b ∈ c_blocked c -> exists t, c_heap c !! bt_task b = Some t /\ t_status t = Blocked) as Hb.
      { intros b Hb. assert (bt_task b ∈ bt_task <$> c_blocked c) as Hin by (by apply list_elem_of_fmap_2). apply (ok_blocked _ _ Hok) in Hin as [Hin _].
        unfold st in Hin. destruct (c_heap c !! bt_task b) as [t|]; [|done]. injection Hin as Hin. eauto. }
      destruct (find_blocked_spec (th_id h) (c_heap c) (c_blocked c)) as [(before & b & after & t & _ & Hl & Ht & Hid)|[E _]]; [|exfalso|exact E].
      - apply Forall_forall. intros b Hin. destruct (Hb b Hin) as (t & -> & _). eauto.
      - apply Hn. destruct (Hb b) as (t' & Ht' & Hst); [rewrite Hl; apply elem_of_app; right; by left|]. exists (bt_task b), t'. split; [done|]. split; [congruence|done]. }
    unfold wake_local, blocked_custom_wakeup, sbind, sgets, smodify, slift, sret.
    destruct (c_network_wakeup c) as [tm|]; [destruct (tm <=? now)|]; cbn; rewrite E; eauto. }
  destruct (decide (map_Exists (fun _ t => t_id t = th_id h /\ t_status t = Blocked) (c_heap c))) as [Hy|Hn].
  - pose proof (Hyes Hy) as (c' & E). split; split; try done; eauto. intros (c2 & E2). congruence.
  - pose proof (Hno Hn) as (c' & E). split; split; try done; eauto. intros (c2 & E2). congruence.
Qed.

Lemma wakeup_panics_iff_not_blocked_witness : exists c', wake_local 0 (mkTaskHandle 3 2 0) (TwoCores.core0 TwoCores.started) = (c', Panic).
Proof.
  apply (wakeup_panics_iff_not_blocked 0 (mkTaskHandle 3 2 0) (TwoCores.core0 TwoCores.started) started_ok).
  intros (r & t & Hr & Hid & Hst). destruct (decide (r = 2%nat)) as [->|Hne].
  - vm_compute in Hr. injection Hr as <-. discriminate.
  - apply Hne. eapply (ok_ids _ _ started_ok); [exact Hr|vm_compute; reflexivity|exact Hid].
Defined.

(** A semaphore released after its timed waiter has given up. *)
Module TimedWait.
Definition waiting : System :=
  fst (sem_acquire 0 0 64 (Some 1000) true (fst (exec 0 (CSemNew 64 0) TwoCores.started))).
Definition timed_out : System := TwoCores.after [(0, CYield); (0, CTimer 2000 None)] waiting.
End TimedWait.

Example timed_release_panics : snd (sem_release 0 3000 64 TimedWait.timed_out) = Panic.
Proof. vm_compute. reflexivity. Qed.

(** The second sleeper sets the timer past the first one's time. *)
Example second_sleeper_delays_first : c_timer Sleepers.core = Some 50200 /\ front_time (c_blocked Sleepers.core) = Some 20100.
Proof. vm_compute. done. Qed.

(** A priority of 31 is not refused but out of range. *)
Example spawn_priority_31_panics : snd (exec 0 (CSpawn 31 0) TwoCores.booted) = Panic.
Proof. vm_compute. reflexivity. Qed.

(** The table keeps the priority a task was spawned with. *)
Example second_set_priority_panics : snd (exec 0 (CSetPriority 3 4) (fst (exec 0 (CSetPriority 3 3) TwoCores.started))) = Panic.
Proof. vm_compute. reflexivity. Qed.
