(* ===== verification/Vfs.v ===== *)
(** * The in-memory file system: nodes and open objects

    kernel/src/fs/mem.rs and the [Filesystem] of kernel/src/fs/mod.rs, with the flags and
    attributes of kernel/src/fd/mod.rs.  Everything the code shares through an [Arc] (the
    contents of a file, the entries of a directory, an open object) lives in a map of the
    state under the address of its [Arc], so two descriptors of one file see each other's
    writes.  An address that is in no map is a dangling reference, which is a panic of the
    model.  The locks are not modelled: a call is one step. *)

From stdpp Require Import gmap sorting.
From S2P Require Import Prelude.

#[export] Instance byte_countable : Countable byte :=
  inj_countable Byte.to_N Byte.of_N Byte.of_to_N.

(** ** kernel/src/errno.rs: the errors of the file system *)

Inductive Errno :=
| Noent | Badf | Again | Acces | Notdir | Isdir | Inval | Mfile | Range | Nosys | Time | Overflow.

#[export] Instance Errno_eq_dec : EqDecision Errno.
Proof. solve_decision. Defined.

Definition errno_i32 (e : Errno) : Z :=
  match e with
  | Noent => 2 | Badf => 9 | Again => 11 | Acces => 13 | Notdir => 20 | Isdir => 21 | Inval => 22
  | Mfile => 24 | Range => 34 | Nosys => 38 | Time => 62 | Overflow => 75
  end.

(** ** Flags: [OpenOption], [AccessPermission], [PollEvent] *)

Definition O_WRONLY : Z := 0x1.
Definition O_RDWR : Z := 0x2.
Definition O_CREAT : Z := 0x40.
Definition O_EXCL : Z := 0x80.
Definition O_TRUNC : Z := 0x200.
Definition O_APPEND : Z := 0x400.
Definition O_NONBLOCK : Z := 0x800.
Definition O_DIRECT : Z := 0x4000.
Definition O_DIRECTORY : Z := 0x10000.
Definition O_CLOEXEC : Z := 0x80000.

Definition S_IFREG : Z := 0x8000.
Definition S_IFDIR : Z := 0x4000.
Definition S_IFCHR : Z := 0x2000.
Definition S_IRUSR : Z := 0x100.
Definition S_IWUSR : Z := 0x80.
Definition S_IXUSR : Z := 0x40.
Definition S_IRWXU : Z := 0x1c0.
Definition S_IRGRP : Z := 0x20.
Definition S_IWGRP : Z := 0x10.
Definition S_IXGRP : Z := 0x8.
Definition S_IROTH : Z := 0x4.
Definition S_IWOTH : Z := 0x2.
Definition S_IXOTH : Z := 0x1.

Definition POLL_READ : Z := Z.lor 0x1 (Z.lor 0x40 0x80).      (* POLLIN | POLLRDNORM | POLLRDBAND *)
Definition POLL_WRITE : Z := Z.lor 0x4 (Z.lor 0x100 0x200).   (* POLLOUT | POLLWRNORM | POLLWRBAND *)

(** [Flags::contains] *)
Definition flags_contain (flags f : Z) : bool := Z.land flags f =? f.

(** ** Times and attributes *)

Definition as_i64 (x : Z) : Z := (x + 9223372036854775808) mod 18446744073709551616 - 9223372036854775808.

Record timespec := mkTimespec { tv_sec : Z; tv_nsec : Z }.

Definition from_usec (microseconds : Z) : timespec :=
  mkTimespec (Z.quot microseconds 1000000) (Z.rem microseconds 1000000 * 1000).

Record FileAttr := mkFileAttr {
  st_dev : Z; st_ino : Z; st_nlink : Z;
  st_mode : Z;
  st_uid : Z; st_gid : Z; st_rdev : Z;
  st_size : Z; st_blksize : Z; st_blocks : Z;
  st_atim : timespec; st_mtim : timespec; st_ctim : timespec;
}.

(** [FileAttr::default()] with [AccessPermission::default()]. *)
Definition default_attr : FileAttr :=
  mkFileAttr 0 0 0 0x1b6 0 0 0 0 0 0 (mkTimespec 0 0) (mkTimespec 0 0) (mkTimespec 0 0).

Definition set_mode m a := mkFileAttr (st_dev a) (st_ino a) (st_nlink a) m (st_uid a) (st_gid a) (st_rdev a) (st_size a) (st_blksize a) (st_blocks a) (st_atim a) (st_mtim a) (st_ctim a).
Definition set_size n a := mkFileAttr (st_dev a) (st_ino a) (st_nlink a) (st_mode a) (st_uid a) (st_gid a) (st_rdev a) n (st_blksize a) (st_blocks a) (st_atim a) (st_mtim a) (st_ctim a).
Definition set_atim t a := mkFileAttr (st_dev a) (st_ino a) (st_nlink a) (st_mode a) (st_uid a) (st_gid a) (st_rdev a) (st_size a) (st_blksize a) (st_blocks a) t (st_mtim a) (st_ctim a).
Definition set_times t a := mkFileAttr (st_dev a) (st_ino a) (st_nlink a) (st_mode a) (st_uid a) (st_gid a) (st_rdev a) (st_size a) (st_blksize a) (st_blocks a) t t t.

Inductive SeekWhence := SeekSet | SeekCur | SeekEnd | SeekData | SeekHole.

#[export] Instance SeekWhence_eq_dec : EqDecision SeekWhence.
Proof. solve_decision. Defined.

(** ** Nodes and objects *)

Record RomFileInner := mkRomFileInner { rom_data : bytes; rom_attr : FileAttr }.
Record RamFileInner := mkRamFileInner { ram_data : bytes; ram_attr : FileAttr }.

Inductive NodeKind := KFile | KDirectory.

#[export] Instance NodeKind_eq_dec : EqDecision NodeKind.
Proof. solve_decision. Defined.

(** The implementors of [VfsNode] in mem.rs, with the address of their [Arc]. *)
Inductive VfsNode :=
| RomFile (data : Z)
| RamFile (data : Z)
| MemDirectory (inner : Z) (attr : FileAttr).

Definition get_kind (n : VfsNode) : NodeKind :=
  match n with RomFile _ | RamFile _ => KFile | MemDirectory _ _ => KDirectory end.

(** The implementors of [ObjectInterface] in mem.rs, mod.rs and stdio.rs. *)
Inductive Object :=
| RomFileInterface (pos inner : Z)
| RamFileInterface (pos inner : Z)
| MemDirectoryInterface (inner read_idx : Z)
| DirectoryReader (entries : list bytes)
| GenericStdin
| GenericStdout
| GenericStderr.

(** ** The devices behind the standard streams

    What stdio.rs and console.rs use of the keyboard ([ps2_keyboard]) and of the console
    device ([IoDevice]). *)
Class Devices := {
  dev : Type;
  keyboard_read : Z -> dev -> dev * bytes;
  keyboard_read_ready : dev -> dev * bool;
  keyboard_polling_enabled : dev -> bool;
  device_read : Z -> dev -> dev * outcome Errno bytes;
  device_read_ready : dev -> dev * outcome Errno bool;
  device_write_all : bytes -> dev -> dev * outcome Errno unit;
}.

Section fs.
Context {W : Devices}.

(** ** State

    The statics [FILESYSTEM], [WORKING_DIRECTORY], [UMASK], [OBJECT_MAP] and [CONSOLE] with
    everything they reach, and the clock. *)
Record Fs := mkFs {
  fs_dirs : gmap Z (gmap bytes VfsNode);
  fs_roms : gmap Z RomFileInner;
  fs_rams : gmap Z RamFileInner;
  fs_objects : gmap Z Object;
  fs_next : Z;                       (* the address of the next [Arc] *)
  fs_root : option (Z * FileAttr);   (* FILESYSTEM: its root, a [MemDirectory] *)
  fs_cwd : option bytes;
  fs_umask : Z;
  fs_objmap : gmap Z Z;              (* the address of the object of each descriptor *)
  fs_now : Z;                        (* now_micros() *)
  fs_buffer : bytes;                 (* CONSOLE.buffer *)
  fs_dev : dev;
}.

Definition set_dirs x s := mkFs x (fs_roms s) (fs_rams s) (fs_objects s) (fs_next s) (fs_root s) (fs_cwd s) (fs_umask s) (fs_objmap s) (fs_now s) (fs_buffer s) (fs_dev s).
Definition set_roms x s := mkFs (fs_dirs s) x (fs_rams s) (fs_objects s) (fs_next s) (fs_root s) (fs_cwd s) (fs_umask s) (fs_objmap s) (fs_now s) (fs_buffer s) (fs_dev s).
Definition set_rams x s := mkFs (fs_dirs s) (fs_roms s) x (fs_objects s) (fs_next s) (fs_root s) (fs_cwd s) (fs_umask s) (fs_objmap s) (fs_now s) (fs_buffer s) (fs_dev s).
Definition set_objects x s := mkFs (fs_dirs s) (fs_roms s) (fs_rams s) x (fs_next s) (fs_root s) (fs_cwd s) (fs_umask s) (fs_objmap s) (fs_now s) (fs_buffer s) (fs_dev s).
Definition set_next x s := mkFs (fs_dirs s) (fs_roms s) (fs_rams s) (fs_objects s) x (fs_root s) (fs_cwd s) (fs_umask s) (fs_objmap s) (fs_now s) (fs_buffer s) (fs_dev s).
Definition set_root x s := mkFs (fs_dirs s) (fs_roms s) (fs_rams s) (fs_objects s) (fs_next s) x (fs_cwd s) (fs_umask s) (fs_objmap s) (fs_now s) (fs_buffer s) (fs_dev s).
Definition set_cwd_cell x s := mkFs (fs_dirs s) (fs_roms s) (fs_rams s) (fs_objects s) (fs_next s) (fs_root s) x (fs_umask s) (fs_objmap s) (fs_now s) (fs_buffer s) (fs_dev s).
Definition set_umask_cell x s := mkFs (fs_dirs s) (fs_roms s) (fs_rams s) (fs_objects s) (fs_next s) (fs_root s) (fs_cwd s) x (fs_objmap s) (fs_now s) (fs_buffer s) (fs_dev s).
Definition set_objmap x s := mkFs (fs_dirs s) (fs_roms s) (fs_rams s) (fs_objects s) (fs_next s) (fs_root s) (fs_cwd s) (fs_umask s) x (fs_now s) (fs_buffer s) (fs_dev s).
Definition set_now x s := mkFs (fs_dirs s) (fs_roms s) (fs_rams s) (fs_objects s) (fs_next s) (fs_root s) (fs_cwd s) (fs_umask s) (fs_objmap s) x (fs_buffer s) (fs_dev s).
Definition set_buffer x s := mkFs (fs_dirs s) (fs_roms s) (fs_rams s) (fs_objects s) (fs_next s) (fs_root s) (fs_cwd s) (fs_umask s) (fs_objmap s) (fs_now s) x (fs_dev s).
Definition set_fs_dev x s := mkFs (fs_dirs s) (fs_roms s) (fs_rams s) (fs_objects s) (fs_next s) (fs_root s) (fs_cwd s) (fs_umask s) (fs_objmap s) (fs_now s) (fs_buffer s) x.

Abbreviation FM A := (ST Fs Errno A).

(** [Arc::new]: a fresh address; reading and writing what is behind one. *)
Definition fresh_arc : FM Z :=
  let! a := sgets fs_next in let! _ := smodify (set_next (a + 1)) in sret a.

Definition deref {A} (f : Fs -> gmap Z A) (a : Z) : FM A :=
  fun s => match f s !! a with Some v => (s, Ok v) | None => (s, Panic) end.

Definition put_dir a d : FM unit := smodify (fun s => set_dirs (<[a := d]> (fs_dirs s)) s).
Definition put_rom a r : FM unit := smodify (fun s => set_roms (<[a := r]> (fs_roms s)) s).
Definition put_ram a r : FM unit := smodify (fun s => set_rams (<[a := r]> (fs_rams s)) s).
Definition put_object a o : FM unit := smodify (fun s => set_objects (<[a := o]> (fs_objects s)) s).

Definition with_dev {A} (f : dev -> dev * outcome Errno A) : FM A :=
  fun s => let '(d, o) := f (fs_dev s) in (set_fs_dev d s, o).

(** [timespec::from_usec(now_micros() as i64)] *)
Definition now : FM timespec := sgets (fun s => from_usec (as_i64 (fs_now s))).

(** ** The vectors of the code *)

(** [Vec::resize(n, 0)]; a capacity above [isize::MAX] panics. *)
Definition resize (data : bytes) (n : Z) : bytes := ztake n data ++ zeros (n - zlen data).
Definition vec_resize (data : bytes) (n : Z) : FM bytes :=
  if ISIZE_MAX <? n then slift Panic else sret (resize data n).

(** [usize::try_into::<i64>().unwrap()] *)
Definition i64_unwrap (n : Z) : FM Z := if ISIZE_MAX <? n then slift Panic else sret n.

(** [isize::checked_add(..).ok_or(Errno::Overflow)] *)
Definition isize_checked_add (a b : Z) : FM Z :=
  if (a + b <? - ISIZE_MAX - 1) || (ISIZE_MAX <? a + b) then sfail Overflow else sret (a + b).

(** ** [RomFileInterface] *)

Definition rom_poll (pos inner event : Z) : FM Z :=
  let! r := deref fs_roms inner in
  sret (if pos <? zlen (rom_data r) then Z.land event POLL_READ else 0).

(** The new object and the bytes put at the start of a buffer of [len] bytes. *)
Definition rom_read (pos inner len : Z) : FM (Object * bytes) :=
  let! t := now in
  let! r := deref fs_roms inner in
  let! _ := put_rom inner (mkRomFileInner (rom_data r) (set_atim t (rom_attr r))) in
  if zlen (rom_data r) <=? pos then sret (RomFileInterface pos inner, [])
  else
    let n := Z.min (zlen (rom_data r) - pos) len in
    let! b := slift (get_slice (rom_data r) pos (pos + n)) in
    sret (RomFileInterface (pos + n) inner, b).

Definition rom_lseek (pos inner offset : Z) (whence : SeekWhence) : FM (Object * Z) :=
  let! r := deref fs_roms inner in
  let data_len := as_i64 (zlen (rom_data r)) in
  let! new_pos :=
    match whence with
    | SeekSet => sret offset
    | SeekCur => isize_checked_add (as_i64 pos) offset
    | SeekEnd => isize_checked_add data_len offset
    | _ => sfail Inval
    end in
  if negb ((0 <=? new_pos) && (new_pos <=? data_len)) then sfail Inval
  else sret (RomFileInterface (as_u64 new_pos) inner, new_pos).

Definition rom_fstat (inner : Z) : FM FileAttr := let! r := deref fs_roms inner in sret (rom_attr r).

(** ** [RamFileInterface] *)

Definition ram_poll (pos inner event : Z) : FM Z :=
  let! r := deref fs_rams inner in
  let available := if pos <? zlen (ram_data r) then Z.lor POLL_WRITE POLL_READ else POLL_WRITE in
  sret (Z.land event available).

Definition ram_read (pos inner len : Z) : FM (Object * bytes) :=
  let! t := now in
  let! r := deref fs_rams inner in
  let! _ := put_ram inner (mkRamFileInner (ram_data r) (set_atim t (ram_attr r))) in
  if zlen (ram_data r) <=? pos then sret (RamFileInterface pos inner, [])
  else
    let n := if zlen (ram_data r) - pos <? len then zlen (ram_data r) - pos else len in
    let! b := slift (get_slice (ram_data r) pos (pos + n)) in
    sret (RamFileInterface (pos + n) inner, b).

Definition ram_write (pos inner : Z) (buf : bytes) : FM (Object * Z) :=
  let! t := now in
  let! r := deref fs_rams inner in
  let! r :=
    if zlen (ram_data r) <? add64 pos (zlen buf) then
      let! data := vec_resize (ram_data r) (add64 pos (zlen buf)) in
      let! size := i64_unwrap (zlen data) in
      sret (mkRamFileInner data (set_size size (ram_attr r)))
    else sret r in
  let! data := slift (put_slice (ram_data r) pos buf) in
  let! _ := put_ram inner (mkRamFileInner data (set_times t (ram_attr r))) in
  sret (RamFileInterface (add64 pos (zlen buf)) inner, zlen buf).

Definition ram_lseek (pos inner offset : Z) (whence : SeekWhence) : FM (Object * Z) :=
  let! r := deref fs_rams inner in
  let data_len := as_i64 (zlen (ram_data r)) in
  let! new_pos :=
    match whence with
    | SeekSet => sret offset
    | SeekCur => isize_checked_add (as_i64 pos) offset
    | SeekEnd => isize_checked_add data_len offset
    | _ => sfail Inval
    end in
  if new_pos <? 0 then sfail Inval
  else
    let! _ :=
      if data_len <? new_pos then
        let! data := vec_resize (ram_data r) new_pos in
        let! size := i64_unwrap (zlen data) in
        put_ram inner (mkRamFileInner data (set_size size (ram_attr r)))
      else sret tt in
    sret (RamFileInterface (as_u64 new_pos) inner, new_pos).

Definition ram_fstat (inner : Z) : FM FileAttr := let! r := deref fs_rams inner in sret (ram_attr r).

Definition ram_truncate (inner size : Z) : FM unit :=
  let! r := deref fs_rams inner in
  let! data := vec_resize (ram_data r) size in
  put_ram inner (mkRamFileInner data (set_size (as_i64 size) (ram_attr r))).

Definition ram_chmod (inner access_permission : Z) : FM unit :=
  let! r := deref fs_rams inner in
  put_ram inner (mkRamFileInner (ram_data r) (set_mode access_permission (ram_attr r))).

(** ** Directories *)

(** The order of the keys of a [BTreeMap<String, _>]: bytes, lexicographically. *)
Fixpoint bytes_le (a b : bytes) : bool :=
  match a, b with
  | [], _ => true
  | _ :: _, [] => false
  | x :: a, y :: b => if bz x =? bz y then bytes_le a b else bz x <? bz y
  end.

Definition dir_keys (d : gmap bytes VfsNode) : list bytes := merge_sort bytes_le (map_to_list d).*1.

(** [Dirent64]: a header of 19 bytes, the name with its zero, aligned to 8. *)
Definition DIRENT_NAME : Z := 19.
Definition align8 (n : Z) : Z := (n + 7) / 8 * 8.

Definition dirent (name : bytes) (reclen : Z) : bytes :=
  to_le64 1 ++ to_le64 0 ++ le16 reclen ++ [Byte.x00] ++ name ++ [Byte.x00].

(** The loop of [getdents]; [pad] has the bytes between records, which no one defines.
    Its answer is the number of names passed, the bytes written and the offset reached. *)
Fixpoint getdents_loop (names : list bytes) (len : Z) (pad : Z -> byte) (offset : Z) : outcome Errno (Z * bytes * Z) :=
  match names with
  | [] => Ok (0, [], offset)
  | name :: names =>
      let dirent_len := DIRENT_NAME + zlen name + 1 in
      let next_dirent := align8 (offset + dirent_len) in
      if len <? next_dirent then Ok (0, [], offset)
      else if U16_MAX <? align8 dirent_len then Panic
      else
        let record := dirent name (align8 dirent_len) in
        let? (n, rest, ret) := getdents_loop names len pad next_dirent in
        Ok (n + 1, record ++ (pad <$> seqZ (offset + zlen record) (next_dirent - offset - zlen record)) ++ rest, ret)
  end.

Definition dir_getdents (inner read_idx len : Z) (pad : Z -> byte) : FM (Object * (bytes * Z)) :=
  let! d := deref fs_dirs inner in
  let! (n, b, ret) := slift (getdents_loop (zdrop read_idx (dir_keys d)) len pad 0) in
  sret (MemDirectoryInterface inner (add64 read_idx n), (b, ret)).

Definition dir_lseek (inner read_idx offset : Z) (whence : SeekWhence) : FM (Object * Z) :=
  if negb (bool_decide (whence = SeekSet)) && negb (offset =? 0) then sfail Inval
  else sret (MemDirectoryInterface inner (as_u64 offset), offset).

(** ** The constructors [new] of the nodes and the opening of a node *)

Definition RomFile_new (data : bytes) (mode : Z) : FM VfsNode :=
  let! t := now in
  let! size := i64_unwrap (zlen data) in
  let! a := fresh_arc in
  let! _ := put_rom a (mkRomFileInner data (set_times t (set_mode (Z.lor mode S_IFREG) (set_size size default_attr)))) in
  sret (RomFile a).

Definition RamFile_new (mode : Z) : FM VfsNode :=
  let! t := now in
  let! a := fresh_arc in
  let! _ := put_ram a (mkRamFileInner [] (set_times t (set_mode (Z.lor mode S_IFREG) default_attr))) in
  sret (RamFile a).

Definition MemDirectory_new (mode : Z) : FM VfsNode :=
  let! t := now in
  let! a := fresh_arc in
  let! _ := put_dir a ∅ in
  sret (MemDirectory a (set_times t (set_mode (Z.lor mode S_IFDIR) default_attr))).

Definition node_object (n : VfsNode) : Object :=
  match n with
  | RomFile a => RomFileInterface 0 a
  | RamFile a => RamFileInterface 0 a
  | MemDirectory a _ => MemDirectoryInterface a 0
  end.

Definition new_object (o : Object) : FM Z := let! a := fresh_arc in let! _ := put_object a o in sret a.

Definition get_node_object (n : VfsNode) : FM Z := new_object (node_object n).

Definition get_file_attributes (n : VfsNode) : FM FileAttr :=
  match n with
  | RomFile a => let! r := deref fs_roms a in sret (rom_attr r)
  | RamFile a => let! r := deref fs_rams a in sret (ram_attr r)
  | MemDirectory _ attr => sret attr
  end.

(** ** Walking down the directories

    [components] is the vector the code pops, written with its top first.  A file takes the
    methods the trait [VfsNode] gives by default, except for [traverse_lstat] and
    [traverse_stat]. *)

Fixpoint traverse_open (n : VfsNode) (components : list bytes) (opt mode : Z) : FM Z :=
  match n with
  | RomFile _ | RamFile _ => sfail Nosys
  | MemDirectory inner _ =>
      match components with
      | [] => sfail Noent
      | component :: [] =>
          let! d := deref fs_dirs inner in
          match d !! component with
          | None =>
              if flags_contain opt O_CREAT then
                let! file := RamFile_new mode in
                let! _ := put_dir inner (<[component := file]> d) in
                get_node_object file
              else sfail Noent
          | Some file =>
              if flags_contain opt O_DIRECTORY && negb (bool_decide (get_kind file = KDirectory)) then sfail Notdir
              else if negb (bool_decide (get_kind file = KFile)) && negb (bool_decide (get_kind file = KDirectory)) then sfail Noent
              else get_node_object file
          end
      | component :: components =>
          let! d := deref fs_dirs inner in
          let! directory := sopt Noent (d !! component) in
          traverse_open directory components opt mode
      end
  end.

Fixpoint traverse_mkdir (n : VfsNode) (components : list bytes) (mode : Z) : FM unit :=
  match n with
  | RomFile _ | RamFile _ => sfail Nosys
  | MemDirectory inner _ =>
      match components with
      | [] => sfail Badf
      | component :: components =>
          let! d := deref fs_dirs inner in
          match d !! component with
          | Some directory => traverse_mkdir directory components mode
          | None =>
              match components with
              | _ :: _ => sfail Badf
              | [] => let! node := MemDirectory_new mode in put_dir inner (<[component := node]> d)
              end
          end
      end
  end.

(** [traverse_rmdir] and [traverse_unlink] differ in the kind they remove and in the error
    for the other one. *)
Fixpoint traverse_remove (kind : NodeKind) (wrong : Errno) (n : VfsNode) (components : list bytes) : FM unit :=
  match n with
  | RomFile _ | RamFile _ => sfail Nosys
  | MemDirectory inner _ =>
      match components with
      | [] => sfail Badf
      | component :: [] =>
          let! d := deref fs_dirs inner in
          let! obj := sopt Noent (d !! component) in
          let! _ := put_dir inner (delete component d) in
          if negb (bool_decide (get_kind obj = kind)) then
            let! d := deref fs_dirs inner in
            let! _ := put_dir inner (<[component := obj]> d) in sfail wrong
          else sret tt
      | component :: components =>
          let! d := deref fs_dirs inner in
          let! directory := sopt Badf (d !! component) in
          traverse_remove kind wrong directory components
      end
  end.

Definition traverse_rmdir : VfsNode -> list bytes -> FM unit := traverse_remove KDirectory Notdir.
Definition traverse_unlink : VfsNode -> list bytes -> FM unit := traverse_remove KFile Isdir.

Fixpoint traverse_readdir (n : VfsNode) (components : list bytes) : FM (list bytes) :=
  match n with
  | RomFile _ | RamFile _ => sfail Nosys
  | MemDirectory inner _ =>
      let! d := deref fs_dirs inner in
      match components with
      | component :: components =>
          let! directory := sopt Badf (d !! component) in traverse_readdir directory components
      | [] => sret (dir_keys d)
      end
  end.

(** [traverse_lstat] and [traverse_stat] have the same code. *)
Fixpoint traverse_stat (n : VfsNode) (components : list bytes) : FM FileAttr :=
  match n with
  | RomFile _ | RamFile _ =>
      match components with _ :: _ => sfail Badf | [] => get_file_attributes n end
  | MemDirectory inner _ =>
      match components with
      | [] => sfail Nosys
      | component :: [] =>
          let! d := deref fs_dirs inner in
          let! node := sopt Badf (d !! component) in get_file_attributes node
      | component :: components =>
          let! d := deref fs_dirs inner in
          let! directory := sopt Badf (d !! component) in traverse_stat directory components
      end
  end.

Fixpoint traverse_create_file (n : VfsNode) (components : list bytes) (data : bytes) (mode : Z) : FM unit :=
  match n with
  | RomFile _ | RamFile _ => sfail Nosys
  | MemDirectory inner _ =>
      match components with
      | [] => sfail Noent
      | component :: [] =>
          let! file := RomFile_new data mode in
          let! d := deref fs_dirs inner in
          put_dir inner (<[component := file]> d)
      | component :: components =>
          let! d := deref fs_dirs inner in
          let! directory := sopt Noent (d !! component) in
          traverse_create_file directory components data mode
      end
  end.

(** ** [Filesystem] *)

(** [str::split]; there is always a first piece. *)
Fixpoint split_at (sep : byte) (s : bytes) : list bytes :=
  match s with
  | [] => [[]]
  | b :: s =>
      if Byte.eqb b sep then [] :: split_at sep s
      else match split_at sep s with w :: ws => (b :: w) :: ws | [] => [[b]] end
  end.

Definition SLASH : byte := Byte.x2f.

(** [path.split('/')], reversed and popped once. *)
Definition components (path : bytes) : list bytes := tail (split_at SLASH path).

(** [FILESYSTEM.get().ok_or(Errno::Inval)?.root] *)
Definition root_node : FM VfsNode :=
  let! r := sgets fs_root in let! (a, attr) := sopt Inval r in sret (MemDirectory a attr).

Definition fs_open (path : bytes) (opt mode : Z) : FM Z :=
  let! r := root_node in traverse_open r (components path) opt mode.
Definition fs_unlink (path : bytes) : FM unit := let! r := root_node in traverse_unlink r (components path).
Definition fs_rmdir (path : bytes) : FM unit := let! r := root_node in traverse_rmdir r (components path).
Definition fs_mkdir (path : bytes) (mode : Z) : FM unit := let! r := root_node in traverse_mkdir r (components path) mode.
Definition fs_stat (path : bytes) : FM FileAttr := let! r := root_node in traverse_stat r (components path).
Definition fs_create_file (path data : bytes) (mode : Z) : FM unit :=
  let! r := root_node in traverse_create_file r (components path) data mode.

(** [str::trim]: the UTF-8 encodings of [White_Space], at both ends. *)
Definition white_space : list bytes :=
  map (map byte.of_Z)
    ([[9]; [10]; [11]; [12]; [13]; [32]; [194; 133]; [194; 160]; [225; 154; 128]; [226; 128; 168];
      [226; 128; 169]; [226; 128; 175]; [226; 129; 159]; [227; 128; 128]]
     ++ map (fun z => [226; 128; z]) (seqZ 128 11)).

Fixpoint strip_any (prefixes : list bytes) (s : bytes) : option bytes :=
  match prefixes with
  | [] => None
  | p :: prefixes =>
      if bool_decide (ztake (zlen p) s = p) then Some (zdrop (zlen p) s) else strip_any prefixes s
  end.
Fixpoint strip_all (fuel : nat) (prefixes : list bytes) (s : bytes) : bytes :=
  match fuel with
  | O => s
  | S fuel => match strip_any prefixes s with Some s => strip_all fuel prefixes s | None => s end
  end.
Definition trim (s : bytes) : bytes :=
  let s := strip_all (length s) white_space s in
  rev (strip_all (length s) (map (@rev byte) white_space) (rev s)).

Definition fs_readdir (path : bytes) : FM (list bytes) :=
  let! r := root_node in
  if bool_decide (trim path = [SLASH]) then traverse_readdir r []
  else traverse_readdir r (components path).

Definition fs_opendir (path : bytes) : FM Z :=
  let! entries := fs_readdir path in new_object (DirectoryReader entries).

End fs.
