(* ===== verification/VfsSpec.v ===== *)
(** * The in-memory file system: invariant and specification

    The invariant of the state (no dangling address, the directories form a tree, sizes and
    positions within bounds) and the file system as the user sees it: a namespace, which
    maps paths to nodes, with the effect and the errors of every operation on it. *)

From stdpp Require Import gmap sorting.
From S2P Require Import Prelude Vfs.

Section spec.
Context {W : Devices}.

(** ** Invariant *)

Definition entry (s : Fs) (d : Z) (c : bytes) (n : VfsNode) : Prop :=
  exists m, fs_dirs s !! d = Some m /\ m !! c = Some n.

Definition node_ok (s : Fs) (n : VfsNode) : Prop :=
  match n with
  | RomFile a => is_Some (fs_roms s !! a)
  | RamFile a => is_Some (fs_rams s !! a)
  | MemDirectory a _ => is_Some (fs_dirs s !! a)
  end.

Definition object_ok (s : Fs) (o : Object) : Prop :=
  match o with
  | RomFileInterface pos a => exists r, fs_roms s !! a = Some r /\ 0 <= pos <= zlen (rom_data r)
  | RamFileInterface pos a => is_Some (fs_rams s !! a) /\ 0 <= pos <= ISIZE_MAX
  | MemDirectoryInterface a _ => is_Some (fs_dirs s !! a)
  | _ => True
  end.

(** The addresses in use, and the directories as a tree below the root. *)
Record tree_ok (s : Fs) : Prop := {
  ok_next : forall a, is_Some (fs_dirs s !! a) \/ is_Some (fs_roms s !! a) \/ is_Some (fs_rams s !! a)
                      \/ is_Some (fs_objects s !! a) -> a < fs_next s;
  ok_nodes : forall d c n, entry s d c n -> node_ok s n;
  ok_once : forall d1 c1 d2 c2 a x1 x2,
    entry s d1 c1 (MemDirectory a x1) -> entry s d2 c2 (MemDirectory a x2) -> d1 = d2 /\ c1 = c2;
  ok_root : forall r x, fs_root s = Some (r, x) ->
    is_Some (fs_dirs s !! r) /\ forall d c y, ~ entry s d c (MemDirectory r y);
}.

Record data_ok (s : Fs) : Prop := {
  ok_rams : forall a r, fs_rams s !! a = Some r ->
    st_size (ram_attr r) = zlen (ram_data r) /\ zlen (ram_data r) <= ISIZE_MAX;
  ok_roms : forall a r, fs_roms s !! a = Some r ->
    st_size (rom_attr r) = zlen (rom_data r) /\ zlen (rom_data r) <= ISIZE_MAX;
  ok_objects : forall a o, fs_objects s !! a = Some o -> object_ok s o;
  ok_objmap : forall fd a, fs_objmap s !! fd = Some a -> is_Some (fs_objects s !! a);
}.

Definition fs_ok (s : Fs) : Prop := tree_ok s /\ data_ok s.

(** ** The namespace of a state *)

Definition namespace : Type := list bytes -> option VfsNode.

Fixpoint walk (s : Fs) (n : VfsNode) (p : list bytes) : option VfsNode :=
  match p with
  | [] => Some n
  | c :: p =>
      match n with
      | MemDirectory a _ =>
          match fs_dirs s !! a ≫= (fun m => m !! c) with Some n => walk s n p | None => None end
      | _ => None
      end
  end.

Definition ns_of (s : Fs) : namespace :=
  fun p => match fs_root s with Some (a, x) => walk s (MemDirectory a x) p | None => None end.

(** ** Specification of the operations on a namespace *)

Definition is_dir (n : VfsNode) : bool := match n with MemDirectory _ _ => true | _ => false end.

(** The error met on the way to the parent of the path [done ++ todo]: [missing] at a name
    that is not there, [file] at a file that would have to be a directory. *)
Fixpoint ns_way (ns : namespace) (missing file : Errno) (done todo : list bytes) : option Errno :=
  match todo with
  | [] | [_] => None
  | c :: todo =>
      match ns (done ++ [c]) with
      | None => Some missing
      | Some n => if is_dir n then ns_way ns missing file (done ++ [c]) todo else Some file
      end
  end.

Definition ns_insert (p : list bytes) (n : VfsNode) (ns : namespace) : namespace :=
  fun q => if decide (q = p) then Some n else if decide (p `prefix_of` q) then None else ns q.

(** Removing a name removes everything below it. *)
Definition ns_remove (p : list bytes) (ns : namespace) : namespace :=
  fun q => if decide (p `prefix_of` q) then None else ns q.

Definition ns_mkdir (ns : namespace) (p : list bytes) : option Errno :=
  match p with
  | [] => Some Badf
  | _ =>
      match ns_way ns Badf Nosys [] p with
      | Some e => Some e
      | None => match ns p with None => None | Some n => Some (if is_dir n then Badf else Nosys) end
      end
  end.

Definition ns_unlink (kind : NodeKind) (wrong : Errno) (ns : namespace) (p : list bytes) : option Errno :=
  match p with
  | [] => Some Badf
  | _ =>
      match ns_way ns Badf Nosys [] p with
      | Some e => Some e
      | None =>
          match ns p with
          | None => Some Noent
          | Some n => if decide (get_kind n = kind) then None else Some wrong
          end
      end
  end.

(** The error of opening, or whether a file has to be created. *)
Definition ns_open (ns : namespace) (p : list bytes) (opt : Z) : Errno + option VfsNode :=
  match p with
  | [] => inl Noent
  | _ =>
      match ns_way ns Noent Nosys [] p with
      | Some e => inl e
      | None =>
          match ns p with
          | None => if flags_contain opt O_CREAT then inr None else inl Noent
          | Some n => if flags_contain opt O_DIRECTORY && negb (is_dir n) then inl Notdir else inr (Some n)
          end
      end
  end.

Definition ns_create_file (ns : namespace) (p : list bytes) : option Errno :=
  match p with [] => Some Noent | _ => ns_way ns Noent Nosys [] p end.

Definition ns_stat (ns : namespace) (p : list bytes) : Errno + VfsNode :=
  match p with
  | [] => inl Nosys
  | _ =>
      match ns_way ns Badf Badf [] p with
      | Some e => inl e
      | None => match ns p with None => inl Badf | Some n => inr n end
      end
  end.

Definition node_attr (s : Fs) (n : VfsNode) : option FileAttr :=
  match n with
  | RomFile a => rom_attr <$> fs_roms s !! a
  | RamFile a => ram_attr <$> fs_rams s !! a
  | MemDirectory _ attr => Some attr
  end.

(** Listing needs every name of the path to be a directory. *)
Definition ns_readdir (ns : namespace) (p : list bytes) : option Errno := ns_way ns Badf Nosys [] (p ++ [[]]).

Definition is_listing (ns : namespace) (p : list bytes) (l : list bytes) : Prop :=
  StronglySorted bytes_le l /\ NoDup l /\ forall c, c ∈ l <-> is_Some (ns (p ++ [c])).

(** What no operation on the namespace touches: the files that exist, with their contents,
    and the open objects and descriptors. *)
Definition keeps_files (s s' : Fs) : Prop :=
  fs_roms s ⊆ fs_roms s' /\ fs_rams s ⊆ fs_rams s' /\ fs_objects s ⊆ fs_objects s' /\
  fs_objmap s' = fs_objmap s /\ fs_root s' = fs_root s /\ fs_cwd s' = fs_cwd s /\ fs_umask s' = fs_umask s.

End spec.
