(* ===== verification/VfsTheorems.v ===== *)
(** * The in-memory file system: theorems on the namespace

    Every operation on the directories keeps the invariant, changes the namespace as its
    specification says and gives the specified error otherwise. *)

From stdpp Require Import gmap sorting.
From S2P Require Import Prelude Vfs VfsSpec.

Section theorems.
Context {W : Devices}.
Implicit Types (s : Fs) (p q : list bytes) (c : bytes) (n : VfsNode).

(** ** Walking *)

Lemma walk_app s n p q : walk s n (p ++ q) = walk s n p ≫= fun n => walk s n q.
Proof.
  revert n. induction p as [|c p IH]; intros n; [done|]. cbn. destruct n; try done.
  by destruct (fs_dirs s !! inner ≫= _).
Qed.

Lemma walk_entry s d x c : walk s (MemDirectory d x) [c] = fs_dirs s !! d ≫= fun m => m !! c.
Proof. cbn. by destruct (fs_dirs s !! d ≫= _). Qed.

Lemma entry_walk s d x c n : entry s d c n <-> walk s (MemDirectory d x) [c] = Some n.
Proof.
  rewrite walk_entry. unfold entry. destruct (fs_dirs s !! d) as [m|]; cbn; split.
  - by intros (? & [= ->] & ?).
  - intros ?. by exists m.
  - by intros (? & ? & _).
  - done.
Qed.

Lemma ns_of_root s a x : fs_root s = Some (a, x) -> ns_of s = walk s (MemDirectory a x).
Proof. intros H. unfold ns_of. by rewrite H. Qed.

(** The node of a longer path is an entry of the directory before it. *)
Lemma walk_snoc s n p c n' :
  walk s n (p ++ [c]) = Some n' -> exists d x, walk s n p = Some (MemDirectory d x) /\ entry s d c n'.
Proof.
  rewrite walk_app. destruct (walk s n p) as [[| |d x]|]; try done. intros H. exists d, x. split; [done|].
  by apply (entry_walk s d x).
Qed.

Lemma walk_node_ok s p n r x :
  tree_ok s -> fs_root s = Some (r, x) -> walk s (MemDirectory r x) p = Some n -> node_ok s n.
Proof.
  intros Hs Hr. destruct p as [|c p _] using rev_ind; [intros [= <-]; by apply (ok_root s Hs r x)|].
  intros (d & y & _ & He)%walk_snoc. by eapply ok_nodes.
Qed.

(** A directory has one path. *)
Lemma walk_inj s r x p q a y z :
  tree_ok s -> fs_root s = Some (r, x) ->
  walk s (MemDirectory r x) p = Some (MemDirectory a y) -> walk s (MemDirectory r x) q = Some (MemDirectory a z) -> p = q.
Proof.
  intros Hs Hr. revert q a y z. induction p as [|c p IH] using rev_ind; intros q a y z.
  - intros [= <- <-]. destruct q as [|c' q _] using rev_ind; [done|].
    intros (d & w & _ & He)%walk_snoc. by apply (ok_root s Hs r x) in He.
  - intros (d & w & Hp & He)%walk_snoc Hq. destruct q as [|c' q _] using rev_ind.
    + destruct (ok_root s Hs r x Hr) as [_ H]. cbn in Hq. injection Hq as <- <-. by apply H in He.
    + apply walk_snoc in Hq as (d' & w' & Hq & He'). destruct (ok_once s Hs _ _ _ _ _ _ _ He He') as [<- <-].
      by rewrite (IH q _ _ _ Hp Hq).
Qed.

(** ** Changing one entry of one directory *)

Definition ns_set p (o : option VfsNode) (ns : namespace) : namespace :=
  match o with Some n => ns_insert p n ns | None => ns_remove p ns end.

Lemma ns_set_eq p o ns : ns_set p o ns p = o.
Proof.
  destruct o; unfold ns_set, ns_insert, ns_remove; [by rewrite decide_True|].
  by rewrite decide_True by reflexivity.
Qed.

Lemma ns_set_below p o ns q : p `prefix_of` q -> p <> q -> ns_set p o ns q = None.
Proof.
  intros Hp Hne. destruct o; unfold ns_set, ns_insert, ns_remove; [rewrite decide_False by congruence|]; by rewrite decide_True.
Qed.

Lemma ns_set_ne p o ns q : ~ p `prefix_of` q -> ns_set p o ns q = ns q.
Proof.
  intros Hp. destruct o; unfold ns_set, ns_insert, ns_remove; rewrite !decide_False; try done.
  intros ->. by apply Hp.
Qed.

Lemma prefix_snoc_inv p q c : p `prefix_of` q ++ [c] -> p `prefix_of` q \/ p = q ++ [c].
Proof.
  intros [k Hk]. destruct k as [|c' k _] using rev_ind.
  - right. by rewrite app_nil_r in Hk.
  - left. exists k. rewrite app_assoc in Hk. by apply app_inj_tail in Hk as [-> _].
Qed.

Lemma walk_set s s' r x p d y m c o :
  tree_ok s -> fs_root s = Some (r, x) -> fs_root s' = Some (r, x) ->
  walk s (MemDirectory r x) p = Some (MemDirectory d y) -> fs_dirs s !! d = Some m ->
  fs_dirs s' !! d = Some (partial_alter (fun _ => o) c m) ->
  (forall a, a <> d -> is_Some (fs_dirs s !! a) -> fs_dirs s' !! a = fs_dirs s !! a) ->
  (forall a z, o = Some (MemDirectory a z) -> fs_dirs s' !! a = Some ∅) ->
  forall q, ns_of s' q = ns_set (p ++ [c]) o (ns_of s) q.
Proof.
  intros Hs Hr Hr' Hp Hm Hd Hsame Hnew q. rewrite (ns_of_root s' _ _ Hr'), (ns_of_root s _ _ Hr).
  induction q as [|c' q IH] using rev_ind; [by rewrite ns_set_ne by (intros ?%prefix_nil_inv; by destruct p)|].
  rewrite walk_app, IH. destruct (decide (p ++ [c] `prefix_of` q)) as [Hpre|Hpre].
  - rewrite (ns_set_below _ _ _ (q ++ [c'])); [| |].
    + destruct (decide (p ++ [c] = q)) as [<-|Hne]; [|by rewrite ns_set_below].
      rewrite ns_set_eq. destruct o as [[| |a z]|]; try done. cbn [mbind option_bind]. rewrite walk_entry, (Hnew a z eq_refl). done.
    + by apply prefix_app_r.
    + intros Heq. rewrite Heq in Hpre. apply prefix_length in Hpre. rewrite length_app in Hpre. cbn in Hpre. lia.
  - rewrite ns_set_ne by done. destruct (walk s (MemDirectory r x) q) as [nq|] eqn:Hq; cbn [mbind option_bind]; cycle 1.
    { symmetry. destruct (decide (p ++ [c] `prefix_of` q ++ [c'])) as [Hpre'|Hpre'].
      - apply prefix_snoc_inv in Hpre' as [?|Heq]; [done|]. apply app_inj_tail in Heq as [-> ->]. by rewrite Hp in Hq.
      - rewrite ns_set_ne, walk_app, Hq by done. done. }
    destruct nq as [a|a|a z].
    1,2: symmetry; (destruct (decide (p ++ [c] `prefix_of` q ++ [c'])) as [Hpre'|Hpre'];
      [apply prefix_snoc_inv in Hpre' as [?|Heq]; [done|]; apply app_inj_tail in Heq as [-> ->]; by rewrite Hp in Hq
      |by rewrite ns_set_ne, walk_app, Hq by done]).
    rewrite walk_entry. destruct (decide (a = d)) as [->|Hne].
    + rewrite <- (walk_inj s r x p q d y z Hs Hr Hp Hq), Hd. cbn [mbind option_bind].
      destruct (decide (c = c')) as [->|Hc]; [by rewrite lookup_partial_alter_eq, ns_set_eq|].
      rewrite lookup_partial_alter_ne, ns_set_ne, walk_app, Hp; [cbn [mbind option_bind]; by rewrite walk_entry, Hm|..|done].
      intros [?%prefix_length|[_ ?]%app_inj_tail]%prefix_snoc_inv; [|done]. rewrite length_app in *. cbn in *. lia.
    + rewrite Hsame; [|done|by apply (walk_node_ok s q _ r x) in Hq].
      rewrite ns_set_ne, walk_app, Hq; [cbn [mbind option_bind]; by rewrite walk_entry|].
      intros [?|[-> _]%app_inj_tail]%prefix_snoc_inv; [done|]. congruence.
Qed.

(** The same change keeps the tree. *)
Lemma tree_ok_set s s' d m c o :
  tree_ok s -> fs_root s' = fs_root s -> fs_dirs s !! d = Some m ->
  fs_dirs s' !! d = Some (partial_alter (fun _ => o) c m) ->
  (forall a, a <> d -> is_Some (fs_dirs s !! a) -> fs_dirs s' !! a = fs_dirs s !! a) ->
  (forall a, fs_dirs s !! a = None -> fs_dirs s' !! a = None \/ fs_dirs s' !! a = Some ∅) ->
  (forall n, o = Some n -> node_ok s' n) ->
  (forall a z, o = Some (MemDirectory a z) -> fs_dirs s !! a = None) ->
  fs_roms s ⊆ fs_roms s' -> fs_rams s ⊆ fs_rams s' ->
  (forall a, is_Some (fs_dirs s' !! a) \/ is_Some (fs_roms s' !! a) \/ is_Some (fs_rams s' !! a)
             \/ is_Some (fs_objects s' !! a) -> a < fs_next s') ->
  tree_ok s'.
Proof.
  intros Hs Hr Hm Hd Hsame Hfresh Hok Hnew Hroms Hrams Hnext.
  assert (Hent : forall a c' n, entry s' a c' n -> entry s a c' n \/ (a = d /\ c' = c /\ o = Some n)).
  { intros a c' n (m' & Ha & Hc). destruct (decide (a = d)) as [->|Hne].
    - rewrite Hd in Ha. injection Ha as <-. destruct (decide (c = c')) as [->|Hcc].
      + rewrite lookup_partial_alter_eq in Hc. auto.
      + rewrite lookup_partial_alter_ne in Hc by done. left. by exists m.
    - destruct (fs_dirs s !! a) as [m''|] eqn:Ha0.
      + rewrite Hsame, Ha0 in Ha by eauto. injection Ha as <-. left. by exists m''.
      + destruct (Hfresh a Ha0) as [Hx|Hx]; rewrite Hx in Ha; [done|]. injection Ha as <-. by rewrite lookup_empty in Hc. }
  assert (Hmono : forall n, node_ok s n -> node_ok s' n).
  { intros [a|a|a z]; cbn; [eauto using lookup_weaken_is_Some..|]. intros Ha. destruct (decide (a = d)) as [->|Hne]; [by rewrite Hd|].
    by rewrite Hsame. }
  assert (Hold : forall a z a' c', entry s a' c' (MemDirectory a z) -> is_Some (fs_dirs s !! a)) by (intros a z a' c' H; by apply (ok_nodes s Hs) in H).
  constructor; [done|..].
  - intros a c' n [H|(-> & -> & Ho)]%Hent; [by eapply Hmono, ok_nodes|by apply Hok].
  - intros d1 c1 d2 c2 a x1 x2 [H1|(-> & -> & H1)]%Hent [H2|(-> & -> & H2)]%Hent; [by eapply ok_once|..|done].
    + apply Hold in H1. apply Hnew in H2. rewrite H2 in H1. by destruct H1.
    + apply Hold in H2. apply Hnew in H1. rewrite H1 in H2. by destruct H2.
  - intros r x Hrx. rewrite Hr in Hrx. destruct (ok_root s Hs r x Hrx) as [Hdom Hno]. split.
    + destruct (decide (r = d)) as [->|Hne]; [by rewrite Hd|by rewrite Hsame].
    + intros a c' y [H|(-> & -> & H)]%Hent; [by eapply Hno|]. apply Hnew in H. rewrite H in Hdom. by destruct Hdom.
Qed.

(** ** The rest of the invariant *)

(** A state with more addresses, whose new or changed files and objects are well-formed. *)
Record extends s s' : Prop := {
  ext_dirs : forall a, is_Some (fs_dirs s !! a) -> is_Some (fs_dirs s' !! a);
  ext_rams : forall a, is_Some (fs_rams s !! a) -> is_Some (fs_rams s' !! a);
  ext_roms : forall a r, fs_roms s !! a = Some r -> exists r', fs_roms s' !! a = Some r' /\ rom_data r' = rom_data r;
  ext_objects : forall a, is_Some (fs_objects s !! a) -> is_Some (fs_objects s' !! a);
}.

Lemma object_ok_extends s s' o : extends s s' -> object_ok s o -> object_ok s' o.
Proof.
  intros [Hd Hm Hr _]. destruct o; cbn; try done; [|intros [? ?]; auto|auto].
  intros (r & Ha & Hp). destruct (Hr _ _ Ha) as (r' & ? & Heq). exists r'. by rewrite Heq.
Qed.

Lemma data_ok_extends s s' :
  data_ok s -> extends s s' ->
  (forall a r, fs_rams s' !! a = Some r -> fs_rams s !! a = Some r \/
     st_size (ram_attr r) = zlen (ram_data r) /\ zlen (ram_data r) <= ISIZE_MAX) ->
  (forall a r, fs_roms s' !! a = Some r -> fs_roms s !! a = Some r \/
     st_size (rom_attr r) = zlen (rom_data r) /\ zlen (rom_data r) <= ISIZE_MAX) ->
  (forall a o, fs_objects s' !! a = Some o -> fs_objects s !! a = Some o \/ object_ok s' o) ->
  (forall fd a, fs_objmap s' !! fd = Some a -> fs_objmap s !! fd = Some a \/ is_Some (fs_objects s' !! a)) ->
  data_ok s'.
Proof.
  intros [H1 H2 H3 H4] He Hrams Hroms Hobj Hmap. constructor.
  - intros a r [?|?]%Hrams; eauto.
  - intros a r [?|?]%Hroms; eauto.
  - intros a o [?|?]%Hobj; [|done]. by eapply object_ok_extends, H3.
  - intros fd a [?|?]%Hmap; [|done]. by eapply ext_objects, H4.
Qed.

(** The tree does not depend on what the files and objects hold. *)
Lemma tree_ok_same s s' :
  tree_ok s -> fs_dirs s' = fs_dirs s -> fs_root s' = fs_root s -> extends s s' ->
  (forall a, is_Some (fs_roms s' !! a) \/ is_Some (fs_rams s' !! a) \/ is_Some (fs_objects s' !! a) -> a < fs_next s') ->
  fs_next s <= fs_next s' -> tree_ok s'.
Proof.
  intros Hs Hd Hr He Hnext Hle.
  assert (Hent : forall a c n, entry s' a c n <-> entry s a c n) by (intros a c n; unfold entry; by rewrite Hd).
  constructor.
  - intros a [H|H]; [|by apply Hnext]. rewrite Hd in H. enough (a < fs_next s) by lia. apply (ok_next s Hs). by left.
  - intros a c n H%Hent%(ok_nodes s Hs). destruct n; cbn in *; [destruct H as [r H]; apply (ext_roms s s' He) in H as (? & ? & _); eauto|by eapply ext_rams|by eapply ext_dirs].
  - intros ? ? ? ? ? ? ? H1%Hent H2%Hent. by eapply (ok_once s Hs).
  - intros r x Hx. rewrite Hr in Hx. destruct (ok_root s Hs r x Hx) as [Hdom Hno]. rewrite Hd. split; [done|].
    intros a c y H%Hent. by apply Hno in H.
Qed.

(** ** The way down: the same for every operation *)

Definition descends {A} (T : VfsNode -> list bytes -> ST Fs Errno A) (missing file : Errno) : Prop :=
  (forall n c q s, is_dir n = false -> T n (c :: q) s = (s, Err file)) /\
  (forall a x c c' q s m, fs_dirs s !! a = Some m ->
     T (MemDirectory a x) (c :: c' :: q) s =
     match m !! c with Some n => T n (c' :: q) s | None => (s, Err missing) end).

Lemma ns_way_cons ns missing file p c c' q :
  ns_way ns missing file p (c :: c' :: q) =
  match ns (p ++ [c]) with
  | None => Some missing
  | Some n => if is_dir n then ns_way ns missing file (p ++ [c]) (c' :: q) else Some file
  end.
Proof. done. Qed.

Lemma descends_way {A} (T : VfsNode -> list bytes -> ST Fs Errno A) missing file s r x todo :
  descends T missing file -> tree_ok s -> fs_root s = Some (r, x) -> todo <> [] ->
  forall above d y, walk s (MemDirectory r x) above = Some (MemDirectory d y) ->
  match ns_way (ns_of s) missing file above todo with
  | Some e => T (MemDirectory d y) todo s = (s, Err e)
  | None => exists p c d' y' m, todo = p ++ [c] /\ walk s (MemDirectory r x) (above ++ p) = Some (MemDirectory d' y') /\
      fs_dirs s !! d' = Some m /\ T (MemDirectory d y) todo s = T (MemDirectory d' y') [c] s
  end.
Proof.
  intros [HF HD] Hs Hr. induction todo as [|c todo IH]; [done|]. intros _ above d y Hd.
  destruct (walk_node_ok s above _ r x Hs Hr Hd) as [m Hm].
  destruct todo as [|c' todo].
  { cbn. exists [], c, d, y, m. by rewrite app_nil_r. }
  assert (Hns : ns_of s (above ++ [c]) = m !! c).
  { rewrite (ns_of_root s r x Hr), walk_app, Hd. cbn [mbind option_bind]. by rewrite walk_entry, Hm. }
  rewrite ns_way_cons, (HD _ _ _ _ _ _ _ Hm), Hns. destruct (m !! c) as [n|] eqn:Hc; [|done].
  destruct (is_dir n) eqn:Hn; [|by apply HF]. destruct n as [| |d' y']; try done.
  rewrite (ns_of_root s r x Hr) in Hns. specialize (IH ltac:(done) (above ++ [c]) d' y' Hns).
  destruct (ns_way (ns_of s) missing file (above ++ [c]) (c' :: todo)); [done|].
  destruct IH as (p & c0 & d0 & y0 & m0 & Heq & Hw & Hm0 & HT). exists (c :: p), c0, d0, y0, m0.
  rewrite <- app_assoc in Hw. split; [by rewrite Heq|]. done.
Qed.

Ltac run_deref H := unfold sbind at 1, deref at 1; rewrite H.

Lemma descends_open opt mode : descends (fun n p => traverse_open n p opt mode) Noent Nosys.
Proof.
  split; [by intros [] ? ? ? ?|]. intros a x c c' q s m Hm. cbn [traverse_open]. run_deref Hm.
  unfold sbind. by destruct (m !! c).
Qed.

Lemma descends_mkdir mode : descends (fun n p => traverse_mkdir n p mode) Badf Nosys.
Proof.
  split; [by intros [] ? ? ? ?|]. intros a x c c' q s m Hm. cbn [traverse_mkdir]. run_deref Hm. by destruct (m !! c).
Qed.

Lemma descends_remove kind wrong : descends (traverse_remove kind wrong) Badf Nosys.
Proof.
  split; [by intros [] ? ? ? ?|]. intros a x c c' q s m Hm. cbn [traverse_remove]. run_deref Hm.
  unfold sbind. by destruct (m !! c).
Qed.

Lemma descends_create_file data mode : descends (fun n p => traverse_create_file n p data mode) Noent Nosys.
Proof.
  split; [by intros [] ? ? ? ?|]. intros a x c c' q s m Hm. cbn [traverse_create_file]. run_deref Hm.
  unfold sbind. by destruct (m !! c).
Qed.

Lemma descends_stat : descends traverse_stat Badf Badf.
Proof.
  split; [by intros [] ? ? ? ?|]. intros a x c c' q s m Hm. cbn [traverse_stat]. run_deref Hm.
  unfold sbind. by destruct (m !! c).
Qed.

(** What an operation finds at the end of the way: the directory of the last name. *)
Lemma way_down {A} (T : VfsNode -> list bytes -> ST Fs Errno A) missing file s r x c0 p0 :
  descends T missing file -> tree_ok s -> fs_root s = Some (r, x) ->
  match ns_way (ns_of s) missing file [] (c0 :: p0) with
  | Some e => T (MemDirectory r x) (c0 :: p0) s = (s, Err e)
  | None => exists p c d y m, c0 :: p0 = p ++ [c] /\ walk s (MemDirectory r x) p = Some (MemDirectory d y) /\
      fs_dirs s !! d = Some m /\ ns_of s (p ++ [c]) = m !! c /\
      T (MemDirectory r x) (c0 :: p0) s = T (MemDirectory d y) [c] s
  end.
Proof.
  intros HT Hs Hr. pose proof (descends_way T missing file s r x (c0 :: p0) HT Hs Hr ltac:(done) [] r x eq_refl) as H.
  destruct (ns_way (ns_of s) missing file [] (c0 :: p0)); [done|].
  destruct H as (p & c & d & y & m & Heq & Hw & Hm & HTe). exists p, c, d, y, m. repeat split; try done.
  cbn [app] in Hw. rewrite (ns_of_root s r x Hr), walk_app, Hw. cbn [mbind option_bind]. by rewrite walk_entry, Hm.
Qed.

Lemma root_node_run {A} s r x (k : VfsNode -> ST Fs Errno A) :
  fs_root s = Some (r, x) -> (let! n := root_node in k n) s = k (MemDirectory r x) s.
Proof. intros Hr. unfold root_node, sbind, sgets, sopt. by rewrite Hr. Qed.

Lemma next_fresh s : tree_ok s ->
  fs_dirs s !! fs_next s = None /\ fs_roms s !! fs_next s = None /\ fs_rams s !! fs_next s = None /\ fs_objects s !! fs_next s = None.
Proof.
  intros Hs. repeat split; apply eq_None_not_Some; intros H; assert (fs_next s < fs_next s) by (apply (ok_next s Hs); tauto); lia.
Qed.

Lemma next_above s a : tree_ok s -> is_Some (fs_dirs s !! a) \/ is_Some (fs_roms s !! a) \/ is_Some (fs_rams s !! a)
  \/ is_Some (fs_objects s !! a) -> a <> fs_next s.
Proof. intros Hs H%(ok_next s Hs). lia. Qed.

(** ** The change an operation makes: one entry of one directory *)

Record changes s s' d m c (o : option VfsNode) : Prop := {
  ch_dir : fs_dirs s' !! d = Some (partial_alter (fun _ => o) c m);
  ch_same : forall a, a <> d -> is_Some (fs_dirs s !! a) -> fs_dirs s' !! a = fs_dirs s !! a;
  ch_fresh : forall a, fs_dirs s !! a = None -> fs_dirs s' !! a = None \/ fs_dirs s' !! a = Some ∅;
  ch_new : forall a z, o = Some (MemDirectory a z) -> fs_dirs s !! a = None /\ fs_dirs s' !! a = Some ∅;
  ch_node : forall n, o = Some n -> node_ok s' n;
  ch_keeps : keeps_files s s';
  ch_rams : forall a r, fs_rams s' !! a = Some r -> fs_rams s !! a = Some r \/
     st_size (ram_attr r) = zlen (ram_data r) /\ zlen (ram_data r) <= ISIZE_MAX;
  ch_roms : forall a r, fs_roms s' !! a = Some r -> fs_roms s !! a = Some r \/
     st_size (rom_attr r) = zlen (rom_data r) /\ zlen (rom_data r) <= ISIZE_MAX;
  ch_objects : forall a b, fs_objects s' !! a = Some b -> fs_objects s !! a = Some b \/ object_ok s' b;
  ch_next : forall a, is_Some (fs_dirs s' !! a) \/ is_Some (fs_roms s' !! a) \/ is_Some (fs_rams s' !! a)
     \/ is_Some (fs_objects s' !! a) -> a < fs_next s';
}.

Lemma keeps_extends s s' : keeps_files s s' -> (forall a, is_Some (fs_dirs s !! a) -> is_Some (fs_dirs s' !! a)) -> extends s s'.
Proof.
  intros (Hroms & Hrams & Hobj & _) Hd. constructor; [done|by eauto using lookup_weaken_is_Some| |by eauto using lookup_weaken_is_Some].
  intros a r Ha. exists r. split; [by eapply lookup_weaken|done].
Qed.

Lemma fs_change s s' r x p d y m c o :
  fs_ok s -> fs_root s = Some (r, x) -> walk s (MemDirectory r x) p = Some (MemDirectory d y) ->
  fs_dirs s !! d = Some m -> changes s s' d m c o ->
  fs_ok s' /\ forall q, ns_of s' q = ns_set (p ++ [c]) o (ns_of s) q.
Proof.
  intros [Ht Hd] Hr Hp Hm [C1 C2 C3 C4 C5 C6 C7 C8 C9 C10].
  assert (Hdom : forall a, is_Some (fs_dirs s !! a) -> is_Some (fs_dirs s' !! a)).
  { intros a Ha. destruct (decide (a = d)) as [->|?]; [by rewrite C1|by rewrite C2]. }
  pose proof C6 as (K1 & K2 & K3 & K4 & K5 & _). split; [split|].
  - eapply tree_ok_set; eauto. intros a z Ho. by apply (C4 a z).
  - eapply data_ok_extends; eauto; [by apply keeps_extends|]. intros fd a. rewrite K4. by left.
  - eapply walk_set; eauto; [by rewrite K5|]. intros a z Ho. by apply (C4 a z).
Qed.

(** ** [mkdir] *)

Lemma mkdir_leaf s d y c mode m :
  fs_dirs s !! d = Some m -> m !! c = None ->
  exists attr, st_mode attr = Z.lor mode S_IFDIR /\
  traverse_mkdir (MemDirectory d y) [c] mode s =
  (set_dirs (<[d := <[c := MemDirectory (fs_next s) attr]> m]> (<[fs_next s := ∅]> (fs_dirs s))) (set_next (fs_next s + 1) s), Ok tt).
Proof. intros Hm Hc. eexists. split; [|cbn [traverse_mkdir]; run_deref Hm; by rewrite Hc]. done. Qed.

Lemma keeps_files_dirs s D k : keeps_files s (set_dirs D (set_next k s)).
Proof. by repeat split. Qed.

Lemma mkdir_changes s d m c mode :
  fs_ok s -> fs_dirs s !! d = Some m ->
  let n := MemDirectory (fs_next s) mode in
  changes s (set_dirs (<[d := <[c := n]> m]> (<[fs_next s := ∅]> (fs_dirs s))) (set_next (fs_next s + 1) s)) d m c (Some n).
Proof.
  intros [Ht Hd] Hm n. destruct (next_fresh s Ht) as (F1 & F2 & F3 & F4).
  assert (d <> fs_next s) as Hne by (apply next_above; [done|by left; rewrite Hm]).
  constructor; cbn [fs_dirs fs_roms fs_rams fs_objects fs_next set_dirs set_next]; try (by left); try (by apply keeps_files_dirs).
  - by rewrite lookup_insert_eq.
  - intros a Ha Hs. rewrite !lookup_insert_ne; [done| |done]. intros <-. by rewrite F1 in Hs; destruct Hs.
  - intros a Ha. destruct (decide (a = d)) as [->|?]; [by rewrite Hm in Ha|]. rewrite lookup_insert_ne by done.
    destruct (decide (a = fs_next s)) as [->|?]; [rewrite lookup_insert_eq; by right|rewrite lookup_insert_ne by done; by left].
  - intros a z [= <- <-]. split; [done|]. by rewrite lookup_insert_ne, lookup_insert_eq.
  - intros ? [= <-]. cbn. rewrite lookup_insert_ne, lookup_insert_eq by done. by eexists.
  - intros a H. destruct (decide (a = fs_next s)) as [->|?]; [lia|]. enough (a < fs_next s) by lia. apply (ok_next s Ht).
    destruct H as [H|H]; [left|by right]. destruct (decide (a = d)) as [->|?]; [by rewrite Hm|]. by rewrite !lookup_insert_ne in H.
Qed.

Lemma components_mkdir s path mode r x :
  fs_ok s -> fs_root s = Some (r, x) ->
  match ns_mkdir (ns_of s) (components path) with
  | Some e => fs_mkdir path mode s = (s, Err e)
  | None => exists s' a attr, fs_mkdir path mode s = (s', Ok tt) /\ fs_ok s' /\ keeps_files s s' /\
      st_mode attr = Z.lor mode S_IFDIR /\
      forall q, ns_of s' q = ns_insert (components path) (MemDirectory a attr) (ns_of s) q
  end.
Proof.
  intros Hs Hr. unfold fs_mkdir. rewrite (root_node_run s r x _ Hr).
  destruct (components path) as [|c0 p0]; [done|]. unfold ns_mkdir.
  pose proof (way_down _ _ _ s r x c0 p0 (descends_mkdir mode) (proj1 Hs) Hr) as H.
  destruct (ns_way (ns_of s) Badf Nosys [] (c0 :: p0)); [done|].
  destruct H as (p & c & d & y & m & -> & Hw & Hm & Hns & ->). rewrite Hns. destruct (m !! c) as [n|] eqn:Hc.
  - cbn [traverse_mkdir]. run_deref Hm. rewrite Hc. by destruct n.
  - destruct (mkdir_leaf s d y c mode m Hm Hc) as (attr & Hattr & ->). eexists _, _, _. split; [done|].
    destruct (fs_change s _ r x p d y m c _ Hs Hr Hw Hm (mkdir_changes s d m c attr Hs Hm)) as [Hok Hns'].
    split; [done|]. split; [by apply keeps_files_dirs|]. by split.
Qed.

(** ** [rmdir] and [unlink] *)

Lemma set_dirs_id s d m : fs_dirs s !! d = Some m -> set_dirs (<[d := m]> (fs_dirs s)) s = s.
Proof. intros Hm. rewrite insert_id by done. by destruct s. Qed.

Lemma remove_changes s d m c :
  fs_ok s -> fs_dirs s !! d = Some m -> changes s (set_dirs (<[d := delete c m]> (fs_dirs s)) s) d m c None.
Proof.
  intros [Ht Hd] Hm. constructor; cbn [fs_dirs fs_roms fs_rams fs_objects fs_next set_dirs]; try done; try (by left); try (by repeat split).
  - by rewrite lookup_insert_eq.
  - intros a Ha _. by rewrite lookup_insert_ne.
  - intros a Ha. destruct (decide (a = d)) as [->|?]; [by rewrite Hm in Ha|]. rewrite lookup_insert_ne by done. by left.
  - intros a H. apply (ok_next s Ht). destruct H as [H|H]; [left|by right]. destruct (decide (a = d)) as [->|?]; [by rewrite Hm|].
    by rewrite lookup_insert_ne in H.
Qed.

Lemma remove_leaf s kind wrong d y c m n :
  fs_dirs s !! d = Some m -> m !! c = Some n ->
  traverse_remove kind wrong (MemDirectory d y) [c] s =
  if decide (get_kind n = kind) then (set_dirs (<[d := delete c m]> (fs_dirs s)) s, Ok tt) else (s, Err wrong).
Proof.
  intros Hm Hc. cbn [traverse_remove]. run_deref Hm. unfold sopt. rewrite Hc. unfold sbind at 1, sret at 1. unfold sbind at 1, put_dir at 1, smodify at 1.
  case_bool_decide as Hk; cbn [negb].
  - by rewrite decide_True.
  - rewrite decide_False by done. unfold sbind at 1, deref. cbn [fs_dirs set_dirs]. rewrite lookup_insert_eq.
    unfold sbind, put_dir, smodify, sfail. f_equal. cbn [fs_dirs set_dirs]. rewrite insert_insert_eq, insert_delete_id by done.
    transitivity (set_dirs (<[d := m]> (fs_dirs s)) s); [done|by apply set_dirs_id].
Qed.

Lemma components_remove s kind wrong path r x :
  fs_ok s -> fs_root s = Some (r, x) ->
  match ns_unlink kind wrong (ns_of s) (components path) with
  | Some e => traverse_remove kind wrong (MemDirectory r x) (components path) s = (s, Err e)
  | None => exists s', traverse_remove kind wrong (MemDirectory r x) (components path) s = (s', Ok tt) /\
      fs_ok s' /\ keeps_files s s' /\ forall q, ns_of s' q = ns_remove (components path) (ns_of s) q
  end.
Proof.
  intros Hs Hr. destruct (components path) as [|c0 p0]; [done|]. unfold ns_unlink.
  pose proof (way_down _ _ _ s r x c0 p0 (descends_remove kind wrong) (proj1 Hs) Hr) as H.
  destruct (ns_way (ns_of s) Badf Nosys [] (c0 :: p0)); [done|].
  destruct H as (p & c & d & y & m & -> & Hw & Hm & Hns & ->). rewrite Hns. destruct (m !! c) as [n|] eqn:Hc.
  - rewrite (remove_leaf s kind wrong d y c m n Hm Hc). case_decide; [|done]. eexists. split; [done|].
    destruct (fs_change s _ r x p d y m c _ Hs Hr Hw Hm (remove_changes s d m c Hs Hm)) as [Hok Hns'].
    split; [done|]. split; [|done]. by repeat split.
  - cbn [traverse_remove]. run_deref Hm. unfold sopt. by rewrite Hc.
Qed.

(** ** [open] *)

Lemma new_object_run s o :
  new_object o s = (set_objects (<[fs_next s := o]> (fs_objects s)) (set_next (fs_next s + 1) s), Ok (fs_next s)).
Proof. done. Qed.

Lemma open_leaf s d y c opt mode m n :
  fs_dirs s !! d = Some m -> m !! c = Some n ->
  traverse_open (MemDirectory d y) [c] opt mode s =
  if flags_contain opt O_DIRECTORY && negb (is_dir n) then (s, Err Notdir) else new_object (node_object n) s.
Proof.
  intros Hm Hc. cbn [traverse_open]. run_deref Hm. rewrite Hc. destruct n; cbn [get_kind is_dir].
  all: rewrite ?bool_decide_true, ?bool_decide_false by done; cbn [negb]; by destruct (flags_contain opt O_DIRECTORY).
Qed.

Lemma open_create_leaf s d y c opt mode m :
  fs_dirs s !! d = Some m -> m !! c = None -> flags_contain opt O_CREAT = true ->
  exists attr, st_mode attr = Z.lor mode S_IFREG /\ st_size attr = 0 /\
  traverse_open (MemDirectory d y) [c] opt mode s =
  (set_objects (<[fs_next s + 1 := RamFileInterface 0 (fs_next s)]> (fs_objects s))
     (set_dirs (<[d := <[c := RamFile (fs_next s)]> m]> (fs_dirs s))
        (set_rams (<[fs_next s := mkRamFileInner [] attr]> (fs_rams s)) (set_next (fs_next s + 2) s))), Ok (fs_next s + 1)).
Proof.
  intros Hm Hc Ho. eexists (set_times (from_usec (as_i64 (fs_now s))) (set_mode (Z.lor mode S_IFREG) default_attr)).
  split; [done|]. split; [done|]. cbn [traverse_open]. run_deref Hm. rewrite Hc, Ho.
  unfold get_node_object, new_object, RamFile_new, now, fresh_arc, put_ram, put_dir, put_object, sbind, sgets, smodify, sret.
  cbn. replace (fs_next s + 1 + 1) with (fs_next s + 2) by lia. done.
Qed.

Lemma open_changes s d m c attr :
  fs_ok s -> fs_dirs s !! d = Some m -> st_size attr = 0 ->
  changes s (set_objects (<[fs_next s + 1 := RamFileInterface 0 (fs_next s)]> (fs_objects s))
     (set_dirs (<[d := <[c := RamFile (fs_next s)]> m]> (fs_dirs s))
        (set_rams (<[fs_next s := mkRamFileInner [] attr]> (fs_rams s)) (set_next (fs_next s + 2) s)))) d m c (Some (RamFile (fs_next s))).
Proof.
  intros [Ht Hd] Hm Hsize. destruct (next_fresh s Ht) as (F1 & F2 & F3 & F4).
  assert (F5 : fs_objects s !! (fs_next s + 1) = None).
  { apply eq_None_not_Some. intros H. assert (fs_next s + 1 < fs_next s) by (apply (ok_next s Ht); tauto). lia. }
  constructor; cbn [fs_dirs fs_roms fs_rams fs_objects fs_next set_dirs set_next set_rams set_objects]; try done; try (by left).
  - by rewrite lookup_insert_eq.
  - intros a Ha _. by rewrite lookup_insert_ne.
  - intros a Ha. destruct (decide (a = d)) as [->|?]; [by rewrite Hm in Ha|]. rewrite lookup_insert_ne by done. by left.
  - intros ? [= <-]. cbn. rewrite lookup_insert_eq. by eexists.
  - repeat split; cbn; try done; by apply insert_subseteq.
  - intros a r [[<- <-]|[_ ?]]%lookup_insert_Some; [right|by left]. cbn. by rewrite Hsize.
  - intros a o [[<- <-]|[_ ?]]%lookup_insert_Some; [right|by left]. cbn. rewrite lookup_insert_eq. split; [by eexists|done].
  - intros a H. destruct (decide (a < fs_next s + 2)) as [|Hge]; [done|]. enough (a < fs_next s) by lia. apply (ok_next s Ht).
    destruct H as [[? H]|[?|[[? H]|[? H]]]]; [|by tauto|..];
      apply lookup_insert_Some in H as [[<- _]|[_ ?]]; try lia; rewrite ?Hm; eauto.
Qed.

Lemma ns_of_same s s' : fs_dirs s' = fs_dirs s -> fs_root s' = fs_root s -> forall q, ns_of s' q = ns_of s q.
Proof.
  intros Hd Hr q. unfold ns_of. rewrite Hr. destruct (fs_root s) as [[a x]|]; [|done].
  generalize (MemDirectory a x). induction q as [|c q IH]; intros n; [done|]. cbn. rewrite Hd. destruct n; try done.
  destruct (fs_dirs s !! inner ≫= _); [by apply IH|done].
Qed.

Lemma fs_ok_new_object s o :
  fs_ok s -> object_ok s o -> fs_ok (set_objects (<[fs_next s := o]> (fs_objects s)) (set_next (fs_next s + 1) s)).
Proof.
  intros [Ht Hd] Ho. destruct (next_fresh s Ht) as (_ & _ & _ & F4).
  assert (He : extends s (set_objects (<[fs_next s := o]> (fs_objects s)) (set_next (fs_next s + 1) s))).
  { constructor; cbn; eauto. intros a Ha. destruct (decide (a = fs_next s)) as [->|?]; [by rewrite lookup_insert_eq|by rewrite lookup_insert_ne]. }
  split.
  - eapply tree_ok_same; eauto; cbn [fs_next set_objects set_next fs_roms fs_rams fs_objects]; [|lia].
    intros a H. destruct (decide (a < fs_next s + 1)) as [|?]; [done|]. enough (a < fs_next s) by lia. apply (ok_next s Ht).
    destruct H as [?|[?|[? [[<- _]|[_ ?]]%lookup_insert_Some]]]; [tauto..|lia|eauto].
  - eapply data_ok_extends; eauto; [by left..|]. cbn [fs_objects set_objects].
    intros a b [[<- <-]|[_ ?]]%lookup_insert_Some; [right|by left]. by eapply object_ok_extends.
Qed.

Lemma keeps_files_new_object s o :
  tree_ok s -> keeps_files s (set_objects (<[fs_next s := o]> (fs_objects s)) (set_next (fs_next s + 1) s)).
Proof.
  intros Ht. destruct (next_fresh s Ht) as (_ & _ & _ & F4). repeat split; cbn; try done. by apply insert_subseteq.
Qed.

Lemma node_object_ok s n : node_ok s n -> object_ok s (node_object n).
Proof.
  destruct n; cbn; [intros [r H]|intros H|done].
  - exists r. split; [done|]. pose proof (zlen_nonneg (rom_data r)). lia.
  - by split.
Qed.

Lemma components_open s path opt mode r x :
  fs_ok s -> fs_root s = Some (r, x) ->
  match ns_open (ns_of s) (components path) opt with
  | inl e => fs_open path opt mode s = (s, Err e)
  | inr (Some n) => exists s' a, fs_open path opt mode s = (s', Ok a) /\ fs_ok s' /\ keeps_files s s' /\
      fs_objects s !! a = None /\ fs_objects s' !! a = Some (node_object n) /\
      fs_roms s' = fs_roms s /\ fs_rams s' = fs_rams s /\ forall q, ns_of s' q = ns_of s q
  | inr None => exists s' a i attr, fs_open path opt mode s = (s', Ok a) /\ fs_ok s' /\ keeps_files s s' /\
      fs_objects s !! a = None /\ fs_objects s' !! a = Some (RamFileInterface 0 i) /\ st_mode attr = Z.lor mode S_IFREG /\
      fs_rams s !! i = None /\ fs_rams s' !! i = Some (mkRamFileInner [] attr) /\
      forall q, ns_of s' q = ns_insert (components path) (RamFile i) (ns_of s) q
  end.
Proof.
  intros Hs Hr. unfold fs_open. rewrite (root_node_run s r x _ Hr).
  destruct (components path) as [|c0 p0]; [done|]. unfold ns_open.
  pose proof (way_down _ _ _ s r x c0 p0 (descends_open opt mode) (proj1 Hs) Hr) as H.
  destruct (ns_way (ns_of s) Noent Nosys [] (c0 :: p0)); [done|].
  destruct H as (p & c & d & y & m & -> & Hw & Hm & Hns & ->). rewrite Hns.
  destruct (next_fresh s (proj1 Hs)) as (F1 & F2 & F3 & F4). destruct (m !! c) as [n|] eqn:Hc.
  - rewrite (open_leaf s d y c opt mode m n Hm Hc). destruct (flags_contain opt O_DIRECTORY && _); [done|].
    rewrite new_object_run. eexists _, _. split; [done|].
    assert (Hok : node_ok s n) by (eapply (ok_nodes s (proj1 Hs) d c); by exists m).
    split; [by apply fs_ok_new_object, node_object_ok|]. split; [by apply keeps_files_new_object, Hs|].
    split; [done|]. split; [by apply lookup_insert_eq|]. split; [done|]. split; [done|]. by apply ns_of_same.
  - destruct (flags_contain opt O_CREAT) eqn:Ho; [|cbn [traverse_open]; run_deref Hm; by rewrite Hc, Ho].
    destruct (open_create_leaf s d y c opt mode m Hm Hc Ho) as (attr & Hmode & Hsize & ->). eexists _, _, _, attr. split; [done|].
    pose proof (open_changes s d m c attr Hs Hm Hsize) as Hch.
    destruct (fs_change s _ r x p d y m c _ Hs Hr Hw Hm Hch) as [Hok Hns'].
    split; [done|]. split; [by eapply ch_keeps|]. split.
    { apply eq_None_not_Some. intros Ha. assert (fs_next s + 1 < fs_next s) by (apply (ok_next s (proj1 Hs)); tauto). lia. }
    split; [by apply lookup_insert_eq|]. split; [done|]. split; [done|]. split; [by apply lookup_insert_eq|done].
Qed.

(** Opening finds the node of the path, or creates one where there was none. *)
Lemma ns_open_node ns p opt :
  match ns_open ns p opt with inl _ => True | inr o => ns p = o end.
Proof.
  unfold ns_open. destruct p as [|c p]; [done|]. destruct (ns_way ns Noent Nosys [] (c :: p)); [done|].
  destruct (ns (c :: p)); [by destruct (_ && _)|by destruct (flags_contain opt O_CREAT)].
Qed.

(** ** [create_file] *)

Lemma create_file_leaf s d y c data mode m :
  fs_dirs s !! d = Some m -> zlen data <= ISIZE_MAX ->
  exists attr, st_mode attr = Z.lor mode S_IFREG /\ st_size attr = zlen data /\
  traverse_create_file (MemDirectory d y) [c] data mode s =
  (set_dirs (<[d := <[c := RomFile (fs_next s)]> m]> (fs_dirs s))
     (set_roms (<[fs_next s := mkRomFileInner data attr]> (fs_roms s)) (set_next (fs_next s + 1) s)), Ok tt).
Proof.
  intros Hm Hlen. eexists (set_times (from_usec (as_i64 (fs_now s))) (set_mode (Z.lor mode S_IFREG) (set_size (zlen data) default_attr))).
  split; [done|]. split; [done|]. cbn [traverse_create_file].
  unfold RomFile_new, i64_unwrap. guard_false (ISIZE_MAX <? zlen data).
  unfold now, fresh_arc, put_rom, put_dir, deref, sbind, sgets, smodify, sret. cbn. by rewrite Hm.
Qed.

Lemma create_file_changes s d m c data attr :
  fs_ok s -> fs_dirs s !! d = Some m -> zlen data <= ISIZE_MAX -> st_size attr = zlen data ->
  changes s (set_dirs (<[d := <[c := RomFile (fs_next s)]> m]> (fs_dirs s))
     (set_roms (<[fs_next s := mkRomFileInner data attr]> (fs_roms s)) (set_next (fs_next s + 1) s))) d m c (Some (RomFile (fs_next s))).
Proof.
  intros [Ht Hd] Hm Hlen Hsize. destruct (next_fresh s Ht) as (F1 & F2 & F3 & F4).
  constructor; cbn [fs_dirs fs_roms fs_rams fs_objects fs_next set_dirs set_next set_roms]; try done; try (by left).
  - by rewrite lookup_insert_eq.
  - intros a Ha _. by rewrite lookup_insert_ne.
  - intros a Ha. destruct (decide (a = d)) as [->|?]; [by rewrite Hm in Ha|]. rewrite lookup_insert_ne by done. by left.
  - intros ? [= <-]. cbn. rewrite lookup_insert_eq. by eexists.
  - repeat split; cbn; try done; by apply insert_subseteq.
  - intros a r [[<- <-]|[_ ?]]%lookup_insert_Some; [right|by left]. by cbn.
  - intros a H. destruct (decide (a < fs_next s + 1)) as [|Hge]; [done|]. enough (a < fs_next s) by lia. apply (ok_next s Ht).
    destruct H as [[? H]|[[? H]|?]]; [..|by tauto]; apply lookup_insert_Some in H as [[<- _]|[_ ?]]; try lia; rewrite ?Hm; eauto.
Qed.

Lemma components_create_file s path data mode r x :
  fs_ok s -> fs_root s = Some (r, x) -> zlen data <= ISIZE_MAX ->
  match ns_create_file (ns_of s) (components path) with
  | Some e => fs_create_file path data mode s = (s, Err e)
  | None => exists s' i attr, fs_create_file path data mode s = (s', Ok tt) /\ fs_ok s' /\ keeps_files s s' /\
      fs_roms s !! i = None /\ fs_roms s' !! i = Some (mkRomFileInner data attr) /\ st_mode attr = Z.lor mode S_IFREG /\
      forall q, ns_of s' q = ns_insert (components path) (RomFile i) (ns_of s) q
  end.
Proof.
  intros Hs Hr Hlen. unfold fs_create_file. rewrite (root_node_run s r x _ Hr).
  destruct (components path) as [|c0 p0]; [done|]. unfold ns_create_file.
  pose proof (way_down _ _ _ s r x c0 p0 (descends_create_file data mode) (proj1 Hs) Hr) as H.
  destruct (ns_way (ns_of s) Noent Nosys [] (c0 :: p0)); [done|].
  destruct H as (p & c & d & y & m & -> & Hw & Hm & Hns & ->).
  destruct (create_file_leaf s d y c data mode m Hm Hlen) as (attr & Hmode & Hsize & ->). eexists _, _, attr. split; [done|].
  pose proof (create_file_changes s d m c data attr Hs Hm Hlen Hsize) as Hch.
  destruct (fs_change s _ r x p d y m c _ Hs Hr Hw Hm Hch) as [Hok Hns'].
  destruct (next_fresh s (proj1 Hs)) as (_ & F2 & _).
  split; [done|]. split; [by eapply ch_keeps|]. split; [done|]. split; [by apply lookup_insert_eq|]. by split.
Qed.

(** ** [stat] *)

Lemma get_file_attributes_ok s n :
  node_ok s n -> exists attr, node_attr s n = Some attr /\ get_file_attributes n s = (s, Ok attr).
Proof.
  destruct n; cbn; [intros [v H]..|intros _; by eexists]; unfold sbind, deref; rewrite H; by eexists.
Qed.

Lemma components_stat s path r x :
  fs_ok s -> fs_root s = Some (r, x) ->
  match ns_stat (ns_of s) (components path) with
  | inl e => fs_stat path s = (s, Err e)
  | inr n => exists attr, node_attr s n = Some attr /\ fs_stat path s = (s, Ok attr)
  end.
Proof.
  intros Hs Hr. unfold fs_stat. rewrite (root_node_run s r x _ Hr).
  destruct (components path) as [|c0 p0]; [done|]. unfold ns_stat.
  pose proof (way_down _ _ _ s r x c0 p0 descends_stat (proj1 Hs) Hr) as H.
  destruct (ns_way (ns_of s) Badf Badf [] (c0 :: p0)); [done|].
  destruct H as (p & c & d & y & m & -> & Hw & Hm & Hns & ->). rewrite Hns. destruct (m !! c) as [n|] eqn:Hc; cbn [traverse_stat]; cycle 1.
  { run_deref Hm. unfold sopt. by rewrite Hc. }
  assert (Hok : node_ok s n) by (eapply (ok_nodes s (proj1 Hs) d c); by exists m).
  destruct (get_file_attributes_ok s n Hok) as (attr & Ha & Hrun). exists attr. split; [done|].
  run_deref Hm. unfold sopt. rewrite Hc. by unfold sbind, sret.
Qed.

(** ** [readdir] *)

Lemma bytes_le_total (a b : bytes) : bytes_le a b \/ bytes_le b a.
Proof.
  revert b. induction a as [|x a IH]; intros [|y b]; cbn; auto. rewrite (Z.eqb_sym (bz y)).
  destruct (bz x =? bz y) eqn:E; [apply IH|]. destruct (Z.ltb_spec (bz x) (bz y)); [by left|right].
  apply Is_true_true. lia.
Qed.

#[local] Instance bytes_le_Total : Total (fun a b : bytes => Is_true (bytes_le a b)).
Proof. intros a b. apply bytes_le_total. Qed.

#[local] Instance bytes_le_Transitive : Transitive (fun a b : bytes => Is_true (bytes_le a b)).
Proof.
  intros a. induction a as [|x a IH]; intros [|y b] [|z c]; cbn; try done.
  destruct (Z.eqb_spec (bz x) (bz y)), (Z.eqb_spec (bz y) (bz z)), (Z.eqb_spec (bz x) (bz z)); try lia; try apply IH.
  all: rewrite !Is_true_true; lia.
Qed.

Lemma elem_of_keys (m : gmap bytes VfsNode) c : c ∈ dir_keys m <-> is_Some (m !! c).
Proof.
  unfold dir_keys. rewrite (merge_sort_Permutation _ _), list_elem_of_fmap. split.
  - intros ([k n] & -> & H%elem_of_map_to_list). by exists n.
  - intros [n H]. exists (c, n). split; [done|]. by apply elem_of_map_to_list.
Qed.

Lemma keys_sorted (m : gmap bytes VfsNode) : StronglySorted bytes_le (dir_keys m).
Proof. apply StronglySorted_merge_sort; apply _. Qed.

Lemma keys_nodup (m : gmap bytes VfsNode) : NoDup (dir_keys m).
Proof. unfold dir_keys. rewrite (merge_sort_Permutation _ _). apply NoDup_fst_map_to_list. Qed.

Lemma descends_readdir : descends (fun n p => traverse_readdir n (removelast p)) Badf Nosys.
Proof.
  split; [by intros [] ? [] ? ?|]. intros a x c c' q s m Hm. cbn [removelast traverse_readdir]. run_deref Hm.
  unfold sopt, sbind. by destruct (m !! c).
Qed.

Lemma traverse_readdir_spec s p r x :
  fs_ok s -> fs_root s = Some (r, x) ->
  match ns_readdir (ns_of s) p with
  | Some e => traverse_readdir (MemDirectory r x) p s = (s, Err e)
  | None => exists l, traverse_readdir (MemDirectory r x) p s = (s, Ok l) /\ is_listing (ns_of s) p l
  end.
Proof.
  intros Hs Hr. unfold ns_readdir. destruct (p ++ [[]]) as [|c0 p0] eqn:Hp; [by destruct p|].
  pose proof (way_down _ _ _ s r x c0 p0 descends_readdir (proj1 Hs) Hr) as H. rewrite <- Hp in *.
  rewrite removelast_last in H. destruct (ns_way (ns_of s) Badf Nosys [] (p ++ [[]])); [done|].
  destruct H as (p' & c & d & y & m & [<- <-]%app_inj_tail & Hw & Hm & Hns & ->).
  cbn [removelast traverse_readdir]. run_deref Hm. exists (dir_keys m). split; [done|].
  split; [apply keys_sorted|]. split; [apply keys_nodup|]. intros c. rewrite elem_of_keys.
  rewrite (ns_of_root s r x Hr), walk_app, Hw. cbn [mbind option_bind]. by rewrite walk_entry, Hm.
Qed.

End theorems.
