(* ===== verification/Files.v ===== *)
(** * File descriptors and the file system calls

    The objects behind descriptors (kernel/src/fd/mod.rs, kernel/src/fd/stdio.rs with the
    buffer of kernel/src/console.rs), the object map of kernel/src/scheduler/mod.rs, the
    functions of kernel/src/fs/mod.rs on paths, and the system calls of
    kernel/src/syscalls/mod.rs on files. *)

From stdpp Require Import gmap.
From S2P Require Import Prelude Vfs.

Section files.
Context {W : Devices}.
Abbreviation FM A := (ST Fs Errno A).

(** ** The console behind standard output *)

Definition SERIAL_BUFFER_SIZE : Z := 256.
Definition NEWLINE : byte := Byte.x0a.

Definition con_flush : FM unit :=
  let! buffer := sgets fs_buffer in
  if zlen buffer =? 0 then sret tt
  else
    let! _ := with_dev (device_write_all buffer) in
    smodify (set_buffer []).

Definition con_write (buf : bytes) : FM Z :=
  let! buffer := sgets fs_buffer in
  let! _ :=
    if zlen buf <=? SERIAL_BUFFER_SIZE - zlen buffer then
      let! _ := smodify (set_buffer (buffer ++ buf)) in
      if bool_decide (NEWLINE ∈ buf) then con_flush else sret tt
    else
      let! _ := with_dev (device_write_all buffer) in
      let! _ := smodify (set_buffer []) in
      if SERIAL_BUFFER_SIZE <=? zlen buf then with_dev (device_write_all buf)
      else
        let! _ := smodify (set_buffer buf) in
        if bool_decide (NEWLINE ∈ buf) then con_flush else sret tt in
  sret (zlen buf).

(** ** Standard streams; a read that has to wait does not return *)

Definition stdin_poll (event : Z) : FM Z :=
  let! ready := with_dev (fun d => let '(d, b) := keyboard_read_ready d in (d, Ok b)) in
  let! ready := if ready then sret true else with_dev device_read_ready in
  sret (Z.land event (if ready then POLL_READ else 0)).

Definition std_read (len : Z) : FM bytes :=
  let! b := with_dev (fun d => let '(d, b) := keyboard_read len d in (d, Ok b)) in
  if 0 <? zlen b then sret b
  else
    let! b := with_dev (device_read len) in
    if 0 <? zlen b then sret b
    else
      let! polling := sgets (fun s => keyboard_polling_enabled (fs_dev s)) in
      if polling then sret [] else sfuel.

Definition stdout_write (buf : bytes) : FM Z :=
  let! written := con_write buf in
  let! _ := con_flush in
  sret written.

Definition chr_attr : FileAttr := set_mode S_IFCHR default_attr.

(** ** [ObjectInterface], by the address of the object

    A method that no case lists is the default of the trait. *)

Definition obj_poll (a event : Z) : FM Z :=
  let! o := deref fs_objects a in
  match o with
  | RomFileInterface pos inner => rom_poll pos inner event
  | RamFileInterface pos inner => ram_poll pos inner event
  | GenericStdin => stdin_poll event
  | GenericStdout | GenericStderr => sret (Z.land event POLL_WRITE)
  | MemDirectoryInterface _ _ | DirectoryReader _ => sret 0
  end.

Definition obj_read (a len : Z) : FM bytes :=
  let! o := deref fs_objects a in
  match o with
  | RomFileInterface pos inner => let! (o, b) := rom_read pos inner len in let! _ := put_object a o in sret b
  | RamFileInterface pos inner => let! (o, b) := ram_read pos inner len in let! _ := put_object a o in sret b
  | GenericStdin => std_read len
  | _ => sfail Nosys
  end.

Definition obj_write (a : Z) (buf : bytes) : FM Z :=
  let! o := deref fs_objects a in
  match o with
  | RamFileInterface pos inner => let! (o, n) := ram_write pos inner buf in let! _ := put_object a o in sret n
  | GenericStdout | GenericStderr => stdout_write buf
  | _ => sfail Nosys
  end.

Definition obj_lseek (a offset : Z) (whence : SeekWhence) : FM Z :=
  let! o := deref fs_objects a in
  match o with
  | RomFileInterface pos inner => let! (o, n) := rom_lseek pos inner offset whence in let! _ := put_object a o in sret n
  | RamFileInterface pos inner => let! (o, n) := ram_lseek pos inner offset whence in let! _ := put_object a o in sret n
  | MemDirectoryInterface inner read_idx => let! (o, n) := dir_lseek inner read_idx offset whence in let! _ := put_object a o in sret n
  | _ => sfail Inval
  end.

Definition obj_fstat (a : Z) : FM FileAttr :=
  let! o := deref fs_objects a in
  match o with
  | RomFileInterface _ inner => rom_fstat inner
  | RamFileInterface _ inner => ram_fstat inner
  | GenericStdin | GenericStdout | GenericStderr => sret chr_attr
  | _ => sfail Inval
  end.

(** [DirectoryReader::getdents] is [unimplemented!()]. *)
Definition obj_getdents (a len : Z) (pad : Z -> byte) : FM (bytes * Z) :=
  let! o := deref fs_objects a in
  match o with
  | MemDirectoryInterface inner read_idx =>
      let! (o, r) := dir_getdents inner read_idx len pad in let! _ := put_object a o in sret r
  | DirectoryReader _ => slift Panic
  | _ => sfail Inval
  end.

Definition obj_truncate (a size : Z) : FM unit :=
  let! o := deref fs_objects a in
  match o with RamFileInterface _ inner => ram_truncate inner size | _ => sfail Nosys end.

Definition obj_chmod (a mode : Z) : FM unit :=
  let! o := deref fs_objects a in
  match o with RamFileInterface _ inner => ram_chmod inner mode | _ => sfail Nosys end.

Definition obj_isatty (a : Z) : FM bool :=
  let! o := deref fs_objects a in
  match o with GenericStdin | GenericStdout | GenericStderr => sret true | _ => sret false end.

(** ** The object map: kernel/src/scheduler/mod.rs *)

Definition get_object (fd : Z) : FM Z :=
  let! m := sgets fs_objmap in sopt Badf (m !! fd).

(** The loop [new_fd]. *)
Fixpoint new_fd_loop (fuel : nat) (m : gmap Z Z) (fd : Z) : outcome Errno Z :=
  match fuel with
  | O => OutOfFuel
  | S fuel =>
      match m !! fd with
      | None => Ok fd
      | Some _ => if fd =? I32_MAX then Err Overflow else new_fd_loop fuel m (Z.min I32_MAX (fd + 1))
      end
  end.
Definition new_fd (m : gmap Z Z) : outcome Errno Z := new_fd_loop (S (size m)) m 0.

Definition insert_object (obj : Z) : FM Z :=
  let! m := sgets fs_objmap in
  let! fd := slift (new_fd m) in
  let! _ := smodify (set_objmap (<[fd := obj]> m)) in
  sret fd.

Definition dup_object (fd : Z) : FM Z :=
  let! m := sgets fs_objmap in
  let! obj := sopt Inval (m !! fd) in
  let! fd := slift (new_fd m) in
  match m !! fd with
  | Some _ => sfail Mfile
  | None => let! _ := smodify (set_objmap (<[fd := obj]> m)) in sret fd
  end.

Definition dup_object2 (fd1 fd2 : Z) : FM Z :=
  let! m := sgets fs_objmap in
  let! obj := sopt Badf (m !! fd1) in
  match m !! fd2 with
  | Some _ => sfail Mfile
  | None => let! _ := smodify (set_objmap (<[fd2 := obj]> m)) in sret fd2
  end.

Definition remove_object (fd : Z) : FM Z :=
  let! m := sgets fs_objmap in
  let! obj := sopt Badf (m !! fd) in
  let! _ := smodify (set_objmap (delete fd m)) in
  sret obj.

(** ** kernel/src/fd/mod.rs *)

Definition fd_read (fd len : Z) : FM bytes :=
  let! obj := get_object fd in if len =? 0 then sret [] else obj_read obj len.

Definition fd_lseek (fd offset : Z) (whence : SeekWhence) : FM Z :=
  let! obj := get_object fd in obj_lseek obj offset whence.

Definition fd_chmod (fd mode : Z) : FM unit := let! obj := get_object fd in obj_chmod obj mode.

Definition fd_write (fd : Z) (buf : bytes) : FM Z :=
  let! obj := get_object fd in if zlen buf =? 0 then sret 0 else obj_write obj buf.

Definition fd_truncate (fd length : Z) : FM unit := let! obj := get_object fd in obj_truncate obj length.

Definition fd_fstat (fd : Z) : FM FileAttr := let! obj := get_object fd in obj_fstat obj.

Definition fd_isatty (fd : Z) : FM bool := let! obj := get_object fd in obj_isatty obj.

Record PollFd := mkPollFd { pfd_fd : Z; pfd_events : Z; pfd_revents : Z }.

(** One poll of the future of [poll_fds]: the descriptors with their events and the number
    of those that are ready.  The future is pending when it is zero. *)
Fixpoint poll_fds (fds : list PollFd) : FM (list PollFd * Z) :=
  match fds with
  | [] => sret ([], 0)
  | p :: fds =>
      let! obj := scatch (get_object (pfd_fd p)) in
      let! e :=
        match obj with
        | inl obj => let! r := scatch (obj_poll obj (pfd_events p)) in
                     sret (match r with inl e => e | inr _ => 0 end)
        | inr _ => sret 0
        end in
      let! (fds, n) := poll_fds fds in
      sret (mkPollFd (pfd_fd p) (pfd_events p) e :: fds, if e =? 0 then n else n + 1)
  end.

(** ** kernel/src/fs/mod.rs: functions on paths *)

Definition starts_with_slash (name : bytes) : bool :=
  match name with b :: _ => Byte.eqb b SLASH | [] => false end.

Definition with_relative_filename {A} (name : bytes) (callback : bytes -> FM A) : FM A :=
  if starts_with_slash name then callback name
  else
    let! cwd := sgets fs_cwd in
    let! cwd := sopt Badf cwd in
    callback (cwd ++ [SLASH] ++ name).

Definition create_file (name data : bytes) (mode : Z) : FM unit :=
  with_relative_filename name (fun name => fs_create_file name data mode).
Definition remove_dir (path : bytes) : FM unit := with_relative_filename path fs_rmdir.
Definition unlink (path : bytes) : FM unit := with_relative_filename path fs_unlink.

Definition create_dir (path : bytes) (mode : Z) : FM unit :=
  let! mask := sgets fs_umask in
  with_relative_filename path (fun path => fs_mkdir path (Z.land mode mask)).

(** [str::rsplit_once('/')]: the part before the last slash, and the one after it. *)
Fixpoint rsplit_once (sep : byte) (s : bytes) : option (bytes * bytes) :=
  match s with
  | [] => None
  | b :: s =>
      match rsplit_once sep s with
      | Some (l, r) => Some (b :: l, r)
      | None => if Byte.eqb b sep then Some ([], s) else None
      end
  end.

(** The parent path is shorter, so the length of the path bounds the recursion. *)
Fixpoint create_dir_rec (fuel : nat) (path : bytes) (mode : Z) : FM unit :=
  match fuel with
  | O => sfuel
  | S fuel =>
      let! r := scatch (create_dir path mode) in
      match r with
      | inl u => sret u
      | inr errno =>
          if negb (bool_decide (errno = Badf)) then sfail errno
          else
            match rsplit_once SLASH path with
            | None => slift Panic
            | Some (parent_path, _) =>
                let! _ := create_dir_rec fuel parent_path mode in
                create_dir path mode
            end
      end
  end.
Definition create_dir_recursive (path : bytes) (mode : Z) : FM unit := create_dir_rec (S (length path)) path mode.

Definition readdir (name : bytes) : FM (list bytes) := with_relative_filename name fs_readdir.
Definition read_stat (name : bytes) : FM FileAttr := with_relative_filename name fs_stat.

Definition truncate (name : bytes) (size : Z) : FM unit :=
  with_relative_filename name (fun name =>
    let! _ := root_node in
    let! file := scatch (fs_open name O_TRUNC 0) in
    match file with inr _ => sfail Badf | inl file => obj_truncate file size end).

Definition open (name : bytes) (flags mode : Z) : FM Z :=
  let! mask := sgets fs_umask in
  with_relative_filename name (fun name =>
    let! file := fs_open name flags (Z.land mode mask) in
    insert_object file).

Definition get_cwd : FM bytes := let! cwd := sgets fs_cwd in sopt Noent cwd.

Definition set_cwd (cwd : bytes) : FM unit :=
  if starts_with_slash cwd then smodify (set_cwd_cell (Some cwd))
  else
    let! working_dir := sgets fs_cwd in
    let! working_dir := sopt Badf working_dir in
    smodify (set_cwd_cell (Some (working_dir ++ [SLASH] ++ cwd))).

Definition umask (new_mask : Z) : FM Z :=
  let! old := sgets fs_umask in
  let! _ := smodify (set_umask_cell new_mask) in
  sret old.

Definition opendir (name : bytes) : FM Z := let! obj := fs_opendir name in insert_object obj.

Definition file_attributes (path : bytes) : FM FileAttr := fs_stat path.

(** [Metadata] *)
Definition metadata_is_file (a : FileAttr) : bool := flags_contain (st_mode a) S_IFREG.
Definition metadata_is_dir (a : FileAttr) : bool := flags_contain (st_mode a) S_IFDIR.

(** [File]: its descriptor; dropping it removes the descriptor. *)
Definition File_create (path : bytes) : FM Z := open path (Z.lor O_CREAT O_RDWR) 0x1b6.
Definition File_open (path : bytes) : FM Z := open path O_RDWR 0x1b6.
Definition File_drop (fd : Z) : FM unit := let! _ := scatch (remove_object fd) in sret tt.

(** [embedded_io::Write::write_all] on a [File]. *)
Fixpoint file_write_all (fuel : nat) (fd : Z) (buf : bytes) : FM unit :=
  match fuel with
  | O => sret tt
  | S fuel =>
      if zlen buf =? 0 then sret tt
      else
        let! n := fd_write fd buf in
        if n =? 0 then slift Panic else file_write_all fuel fd (zdrop n buf)
  end.

Fixpoint file_write_pieces (fd : Z) (pieces : list bytes) : FM unit :=
  match pieces with
  | [] => sret tt
  | p :: pieces => let! _ := file_write_all (length p) fd p in file_write_pieces fd pieces
  end.

(** [Filesystem::new] and [init]; [version] has the pieces of the text of /proc/version. *)
Definition Filesystem_new : FM (Z * FileAttr) :=
  let! root := MemDirectory_new 0x1ff in
  match root with MemDirectory a attr => sret (a, attr) | _ => slift Panic end.

Definition expect {A} (c : FM A) : FM A :=
  let! r := scatch c in match r with inl a => sret a | inr _ => slift Panic end.

Definition fs_init (version : list bytes) : FM unit :=
  let! fs := Filesystem_new in
  let! old := sgets fs_root in
  let! _ := match old with Some _ => slift Panic | None => smodify (set_root (Some fs)) end in
  let! _ := expect (fs_mkdir (bstr "/tmp") 0x1ff) in
  let! _ := expect (fs_mkdir (bstr "/proc") 0x1ff) in
  let! file := scatch (File_create (bstr "/proc/version")) in
  let! _ :=
    match file with
    | inl fd => let! _ := scatch (file_write_pieces fd version) in File_drop fd
    | inr _ => sret tt
    end in
  smodify (set_cwd_cell (Some (bstr "/tmp"))).

(** ** kernel/src/syscalls/mod.rs

    A name is [CStr::to_str]: [None] for a C string that is not UTF-8. *)

Definition code {A} (c : FM A) (f : A -> Z) : FM Z :=
  let! r := scatch c in sret (match r with inl a => f a | inr e => - errno_i32 e end).

Definition unwrap_name (name : option bytes) : FM bytes :=
  match name with Some name => sret name | None => slift Panic end.

Definition named (name : option bytes) (k : bytes -> FM Z) : FM Z :=
  match name with Some name => k name | None => sret (- errno_i32 Inval) end.

Definition sys_unlink (name : option bytes) : FM Z :=
  let! name := unwrap_name name in code (unlink name) (fun _ => 0).

Definition sys_mkdir (name : option bytes) (mode : Z) : FM Z :=
  let! name := unwrap_name name in code (create_dir name mode) (fun _ => 0).

Definition sys_rmdir (name : option bytes) : FM Z :=
  let! name := unwrap_name name in code (remove_dir name) (fun _ => 0).

(** What is stored through [stat], and the code. *)
Definition code_with {A} (c : FM A) : FM (option A * Z) :=
  let! r := scatch c in sret (match r with inl a => (Some a, 0) | inr e => (None, - errno_i32 e) end).

Definition sys_stat (name : option bytes) : FM (option FileAttr * Z) :=
  let! name := unwrap_name name in code_with (read_stat name).

Definition sys_fstat (fd : Z) (stat_null : bool) : FM (option FileAttr * Z) :=
  if stat_null then sret (None, - errno_i32 Inval) else code_with (fd_fstat fd).

Definition sys_opendir (name : option bytes) : FM Z := named name (fun name => code (opendir name) id).

(** [OpenOption::from_bits]; every bit is a known bit of [AccessPermission]. *)
Definition OPEN_BITS : Z :=
  foldr Z.lor 0 [O_WRONLY; O_RDWR; O_CREAT; O_EXCL; O_TRUNC; O_APPEND; O_NONBLOCK; O_DIRECT; O_DIRECTORY; O_CLOEXEC].
Definition from_bits (all flags : Z) : bool := Z.land flags (Z.lnot all) =? 0.

Definition sys_open (name : option bytes) (flags mode : Z) : FM Z :=
  if negb (from_bits OPEN_BITS flags) then sret (- errno_i32 Inval)
  else named name (fun name => code (open name flags mode) id).

(** The bytes stored at [buf], or the [errno]; [after] is the memory behind the C string. *)
Definition sys_getcwd (buf_null : bool) (size : Z) (after : bytes) : FM (bytes + Errno) :=
  if size =? 0 then sret (inr Inval)
  else if buf_null then sret (inr Noent)
  else
    let! cwd := scatch get_cwd in
    match cwd with
    | inr e => sret (inr e)
    | inl cwd =>
        if bool_decide (Byte.x00 ∈ cwd) then sret (inr Noent)
        else if size <? zlen cwd + 1 then sret (inr Range)
        else sret (inl (ztake size (cwd ++ [Byte.x00] ++ after)))
    end.

Definition sys_fchdir (fd : Z) : FM Z := sret (- errno_i32 Nosys).

Definition sys_chdir (name : option bytes) : FM Z := named name (fun name => code (set_cwd name) (fun _ => 0)).

Definition sys_umask (mask : Z) : FM Z := umask mask.

(** [AccessOption] *)
Definition R_OK : Z := 4.
Definition W_OK : Z := 2.
Definition X_OK : Z := 1.
Definition F_OK : Z := 0.
Definition ACCESS_BITS : Z := 7.

Definition can_access (options permissions : Z) : bool :=
  if flags_contain options R_OK && negb (flags_contain permissions S_IRUSR)
     && negb (flags_contain permissions S_IRGRP) && negb (flags_contain permissions S_IROTH) then false
  else if flags_contain options W_OK && negb (flags_contain permissions S_IWUSR)
     && negb (flags_contain permissions S_IWGRP) && negb (flags_contain permissions S_IWOTH) then false
  else if flags_contain options X_OK && negb (flags_contain permissions S_IXUSR)
     && negb (flags_contain permissions S_IXGRP) && negb (flags_contain permissions S_IXOTH) then false
  else true.

Definition access_code (flags : Z) (name : bytes) : FM Z :=
  let! stat := scatch (read_stat name) in
  sret (match stat with
        | inr e => - errno_i32 e
        | inl stat => if can_access flags (st_mode stat) then 0 else - errno_i32 Acces
        end).

Definition AT_FDCWD : Z := -100.

(** The two branches on [AT_SYMLINK_NOFOLLOW] have the same code. *)
Definition sys_faccessat (dirfd : Z) (name : option bytes) (flags : Z) : FM Z :=
  if negb (from_bits ACCESS_BITS flags) then sret (- errno_i32 Inval)
  else named name (fun name =>
    if starts_with_slash name || (dirfd =? AT_FDCWD) then access_code flags name
    else sret (- errno_i32 Nosys)).

Definition sys_access (name : option bytes) (flags : Z) : FM Z :=
  if negb (from_bits ACCESS_BITS flags) then sret (- errno_i32 Inval)
  else if flags_contain flags F_OK && negb (flags =? F_OK) then sret (- errno_i32 Inval)
  else named name (access_code flags).

Definition sys_fchmod (fd mode : Z) : FM Z := code (fd_chmod fd mode) (fun _ => 0).

Definition sys_close (fd : Z) : FM Z := code (remove_object fd) (fun _ => 0).

(** The bytes put at the start of the buffer, and the code. *)
Definition sys_read (fd len : Z) : FM (bytes * Z) :=
  let! r := scatch (fd_read fd len) in
  sret (match r with inl b => (b, zlen b) | inr e => ([], - errno_i32 e) end).

Definition sys_write (fd : Z) (buf : bytes) : FM Z := code (fd_write fd buf) id.

Definition IOV_MAX : Z := 1024.

(** The bytes put at the start of each buffer, and the code; [total] is [read_bytes]. *)
Fixpoint readv_loop (fd : Z) (lens : list Z) (total : Z) : FM (list bytes * Z) :=
  match lens with
  | [] => sret ([], total)
  | iov_len :: lens =>
      let! (b, len) := sys_read fd iov_len in
      if len <? 0 then sret ([b], len)
      else if len <? iov_len then sret ([b], total + len)
      else let! (bs, r) := readv_loop fd lens (total + len) in sret (b :: bs, r)
  end.
Definition sys_readv (fd : Z) (lens : list Z) : FM (list bytes * Z) :=
  if IOV_MAX <? zlen lens then sret ([], - errno_i32 Inval) else readv_loop fd lens 0.

Fixpoint writev_loop (fd : Z) (bufs : list bytes) (total : Z) : FM Z :=
  match bufs with
  | [] => sret total
  | buf :: bufs =>
      let! len := sys_write fd buf in
      if len <? 0 then sret len
      else if len <? zlen buf then sret (total + len)
      else writev_loop fd bufs (total + len)
  end.
Definition sys_writev (fd : Z) (bufs : list bytes) : FM Z :=
  if IOV_MAX <? zlen bufs then sret (- errno_i32 Inval) else writev_loop fd bufs 0.

Definition sys_ftruncate (fd size : Z) : FM Z := code (fd_truncate fd size) (fun _ => 0).

Definition sys_truncate (path : option bytes) (size : Z) : FM Z :=
  named path (fun path => code (truncate path size) (fun _ => 0)).

(** No object of the file system has status flags. *)
Definition sys_fcntl (fd cmd arg : Z) : FM Z :=
  if (cmd =? 2) && (arg =? 1) then sret 0
  else if (cmd =? 3) || (cmd =? 4) then
    let! obj := scatch (get_object fd) in
    match obj with
    | inr e => sret (- errno_i32 e)
    | inl obj => let! _ := deref fs_objects obj in sret (- errno_i32 Nosys)
    end
  else sret (- errno_i32 Inval).

(** [u8::try_from(whence).unwrap()] and [SeekWhence::try_from(..).unwrap()] *)
Definition seek_whence (whence : Z) : option SeekWhence :=
  match whence with
  | 0 => Some SeekSet | 1 => Some SeekCur | 2 => Some SeekEnd | 3 => Some SeekData | 4 => Some SeekHole
  | _ => None
  end.
Definition sys_lseek (fd offset whence : Z) : FM Z :=
  match seek_whence whence with
  | None => slift Panic
  | Some whence => code (fd_lseek fd offset whence) id
  end.

Definition sys_getdents64 (fd : Z) (dirp_null : bool) (count : Z) (pad : Z -> byte) : FM (bytes * Z) :=
  if dirp_null || (count =? 0) then sret ([], - errno_i32 Inval)
  else
    let! obj := scatch (get_object fd) in
    match obj with
    | inr _ => sret ([], - errno_i32 Inval)
    | inl obj =>
        let! r := scatch (obj_getdents obj count pad) in
        sret (match r with inl r => r | inr e => ([], - errno_i32 e) end)
    end.

Definition sys_dup (fd : Z) : FM Z := code (dup_object fd) id.
Definition sys_dup2 (fd1 fd2 : Z) : FM Z := code (dup_object2 fd1 fd2) id.
Definition sys_isatty (fd : Z) : FM Z := code (fd_isatty fd) (fun v => if v then 1 else 0).

(** The state when [init] is called: the object map of [Task::new_idle] on core 0. *)
Definition boot_fs (now : Z) (d : dev) : Fs :=
  mkFs ∅ ∅ ∅ {[0 := GenericStdin; 1 := GenericStdout; 2 := GenericStderr]} 3 None None 0x1ff
    {[0 := 0; 1 := 1; 2 := 2]} now [] d.

End files.
