(* ===== verification/FilesTheorems.v ===== *)
(** * File descriptors: theorems

    What reading, writing, seeking and truncating through a descriptor do to the contents
    of a file, to the position of the descriptor and to everything else. *)

From stdpp Require Import gmap.
From S2P Require Import Prelude Vfs VfsSpec VfsTheorems Files.

(** ** Specification: a file is its bytes, a descriptor has a position *)

(** [buf] stored at [pos]; a gap behind the end is filled with zeros. *)
Definition write_at (data : bytes) (pos : Z) (buf : bytes) : bytes :=
  ztake pos (data ++ zeros (pos - zlen data)) ++ buf ++ zdrop (pos + zlen buf) data.

Inductive FileOp :=
| FRead (len : Z)
| FWrite (buf : bytes)
| FSeek (offset : Z) (whence : SeekWhence)
| FTruncate (size : Z).

Inductive FileRes :=
| RBytes (b : bytes)
| RCount (n : Z)
| RDone.

(** Where a seek goes. *)
Definition seek_target (data : bytes) (pos offset : Z) (whence : SeekWhence) : Errno + Z :=
  let from base := if (base + offset <? - ISIZE_MAX - 1) || (ISIZE_MAX <? base + offset) then inl Overflow else inr (base + offset) in
  match whence with
  | SeekSet => inr offset
  | SeekCur => from pos
  | SeekEnd => from (zlen data)
  | SeekData | SeekHole => inl Inval
  end.

(** The bytes, the position and the answer after an operation. *)
Definition file_spec (op : FileOp) (data : bytes) (pos : Z) : bytes * Z * (Errno + FileRes) :=
  match op with
  | FRead len => let b := ztake len (zdrop pos data) in (data, pos + zlen b, inr (RBytes b))
  | FWrite buf => if zlen buf =? 0 then (data, pos, inr (RCount 0))
                  else (write_at data pos buf, pos + zlen buf, inr (RCount (zlen buf)))
  | FSeek offset whence =>
      match seek_target data pos offset whence with
      | inl e => (data, pos, inl e)
      | inr p => if p <? 0 then (data, pos, inl Inval) else (data ++ zeros (p - zlen data), p, inr (RCount p))
      end
  | FTruncate size => (ztake size data ++ zeros (size - zlen data), pos, inr RDone)
  end.

(** The arguments the system calls give, and room for what is written. *)
Definition op_fits (op : FileOp) (pos : Z) : Prop :=
  match op with
  | FRead len => 0 <= len
  | FWrite buf => pos + zlen buf <= ISIZE_MAX
  | FSeek offset _ => - ISIZE_MAX - 1 <= offset <= ISIZE_MAX
  | FTruncate size => 0 <= size <= ISIZE_MAX
  end.

Section theorems.
Context {W : Devices}.

Definition run_file_op (fd : Z) (op : FileOp) : ST Fs Errno FileRes :=
  match op with
  | FRead len => let! b := fd_read fd len in sret (RBytes b)
  | FWrite buf => let! n := fd_write fd buf in sret (RCount n)
  | FSeek offset whence => let! n := fd_lseek fd offset whence in sret (RCount n)
  | FTruncate size => let! _ := fd_truncate fd size in sret RDone
  end.

(** Nothing but the contents of the file [i] and the position of the object [a] changes. *)
Definition only_file (s s' : Fs) (i a : Z) : Prop :=
  fs_dirs s' = fs_dirs s /\ fs_roms s' = fs_roms s /\ fs_root s' = fs_root s /\ fs_cwd s' = fs_cwd s /\
  fs_umask s' = fs_umask s /\ fs_objmap s' = fs_objmap s /\ fs_buffer s' = fs_buffer s /\ fs_dev s' = fs_dev s /\
  (forall j, j <> i -> fs_rams s' !! j = fs_rams s !! j) /\
  (forall b, b <> a -> fs_objects s' !! b = fs_objects s !! b).

(** ** The operations of a RAM file *)

Lemma zeros_nonpos n : n <= 0 -> zeros n = [].
Proof. intros H. unfold zeros. by rewrite Z2Nat.nonpos. Qed.

Lemma ztake_nil' n : ztake n (@nil byte) = [].
Proof. unfold ztake. by rewrite take_nil. Qed.

Lemma ztake_len (n : Z) (l : bytes) : ztake (zlen (ztake n l)) l = ztake n l.
Proof.
  rewrite zlen_ztake. pose proof (zlen_nonneg l). destruct (Z_le_gt_dec n 0); [by rewrite !ztake_0 by lia|].
  destruct (Z_le_gt_dec n (zlen l)); [f_equal; lia|]. by rewrite !ztake_all by lia.
Qed.

Lemma ztake_zeros_min n m : n <= m -> ztake n (zeros m) = zeros n.
Proof. intros H. unfold ztake, zeros. rewrite take_replicate. f_equal. lia. Qed.

Lemma resize_grow (data : bytes) n : zlen data <= n -> resize data n = data ++ zeros (n - zlen data).
Proof. intros H. unfold resize. by rewrite ztake_all. Qed.

Lemma zlen_resize (data : bytes) n : 0 <= n -> zlen (resize data n) = n.
Proof.
  intros H. unfold resize. pose proof (zlen_nonneg data). rewrite zlen_app, zlen_ztake.
  destruct (Z_le_gt_dec n (zlen data)).
  - rewrite (zeros_nonpos (n - zlen data)) by lia. change (zlen (@nil byte)) with 0. lia.
  - rewrite zlen_zeros by lia. lia.
Qed.

Lemma write_at_within (data : bytes) pos buf :
  0 <= pos -> pos + zlen buf <= zlen data -> write_at data pos buf = splice data pos buf.
Proof.
  intros Hp Hl. pose proof (zlen_nonneg buf). unfold write_at, splice. by rewrite zeros_nonpos, app_nil_r by lia.
Qed.

Lemma write_at_grow (data : bytes) pos buf :
  0 <= pos -> zlen data < pos + zlen buf -> write_at data pos buf = splice (resize data (pos + zlen buf)) pos buf.
Proof.
  intros Hp Hl. pose proof (zlen_nonneg buf). pose proof (zlen_nonneg data). rewrite resize_grow by lia. unfold write_at, splice. f_equal.
  - destruct (Z_le_gt_dec pos (zlen data)).
    + by rewrite !ztake_app_le by lia.
    + rewrite !ztake_app_ge by lia. by rewrite !ztake_zeros_min by lia.
  - f_equal. rewrite !zdrop_all; [done|..]; rewrite ?zlen_app, ?zlen_zeros; lia.
Qed.

(** The state with a new version of the file [i] and the object [a] at [pos]. *)
Definition upd (s : Fs) (a i pos : Z) (r : RamFileInner) : Fs :=
  set_objects (<[a := RamFileInterface pos i]> (fs_objects s)) (set_rams (<[i := r]> (fs_rams s)) s).

Lemma upd_id s a i pos r :
  fs_objects s !! a = Some (RamFileInterface pos i) -> fs_rams s !! i = Some r -> upd s a i pos r = s.
Proof. intros Ha Hi. unfold upd. rewrite (insert_id (fs_objects s)), (insert_id (fs_rams s)) by done. by destruct s. Qed.

Lemma upd_only s a i pos r : only_file s (upd s a i pos r) i a.
Proof. repeat split; intros j Hj; cbn; by rewrite lookup_insert_ne. Qed.

Lemma is_Some_insert {A} (m : gmap Z A) a v b : is_Some (m !! a) -> is_Some (<[a := v]> m !! b) <-> is_Some (m !! b).
Proof. intros Ha. destruct (decide (a = b)) as [->|?]; [by rewrite lookup_insert_eq|by rewrite lookup_insert_ne]. Qed.

Lemma upd_ok s a i pos r :
  fs_ok s -> is_Some (fs_objects s !! a) -> is_Some (fs_rams s !! i) -> 0 <= pos <= ISIZE_MAX ->
  st_size (ram_attr r) = zlen (ram_data r) -> zlen (ram_data r) <= ISIZE_MAX -> fs_ok (upd s a i pos r).
Proof.
  intros [Ht Hd] Ha Hi Hp Hsize Hmax.
  assert (He : extends s (upd s a i pos r)).
  { constructor; cbn; [done|..]; [intros j; by rewrite is_Some_insert|intros j r' Hj; by exists r'|intros j; by rewrite is_Some_insert]. }
  split.
  - eapply tree_ok_same; eauto; cbn; [|lia]. intros j. rewrite !is_Some_insert by done. intros H. apply (ok_next s Ht). tauto.
  - apply (data_ok_extends s); [done|done|cbn..]; [|by left| |by left].
    + intros j r' [[<- <-]|[_ ?]]%lookup_insert_Some; [by right|by left].
    + intros j o [[<- <-]|[_ ?]]%lookup_insert_Some; [right|by left]. cbn. by rewrite lookup_insert_eq.
Qed.

Ltac run_obj Hf Ha := unfold fd_read, fd_write, fd_lseek, fd_truncate, get_object, obj_read, obj_write, obj_lseek, obj_truncate, sopt, deref, sbind, sgets, sret; rewrite Hf, ?Ha.

Lemma as_i64_small n : - ISIZE_MAX - 1 <= n <= ISIZE_MAX -> as_i64 n = n.
Proof. unfold as_i64, ISIZE_MAX. intros H. rewrite Z.mod_small; lia. Qed.

Section one_file.
Context (s : Fs) (fd a pos i : Z) (r : RamFileInner).
Context (Hs : fs_ok s) (Hf : fs_objmap s !! fd = Some a) (Ha : fs_objects s !! a = Some (RamFileInterface pos i)).
Context (Hi : fs_rams s !! i = Some r).

Lemma pos_range : 0 <= pos <= ISIZE_MAX.
Proof. by apply (ok_objects s (proj2 Hs)) in Ha as [_ ?]. Qed.

Lemma size_range : st_size (ram_attr r) = zlen (ram_data r) /\ 0 <= zlen (ram_data r) <= ISIZE_MAX.
Proof. destruct (ok_rams s (proj2 Hs) i r Hi). pose proof (zlen_nonneg (ram_data r)). lia. Qed.

Lemma deref_object : deref fs_objects a s = (s, Ok (RamFileInterface pos i)).
Proof. unfold deref. by rewrite Ha. Qed.
Lemma deref_ram : deref fs_rams i s = (s, Ok r).
Proof. unfold deref. by rewrite Hi. Qed.
Lemma run_get_object : get_object fd s = (s, Ok a).
Proof. unfold get_object, sbind, sgets, sopt. by rewrite Hf. Qed.

Lemma ram_read_run len :
  0 <= len ->
  let b := ztake len (zdrop pos (ram_data r)) in
  exists attr, st_size attr = st_size (ram_attr r) /\
  ram_read pos i len s = (set_rams (<[i := mkRamFileInner (ram_data r) attr]> (fs_rams s)) s, Ok (RamFileInterface (pos + zlen b) i, b)).
Proof.
  intros Hl b. pose proof pos_range. pose proof size_range as [_ ?]. eexists (set_atim _ (ram_attr r)). split; [done|].
  unfold ram_read. rewrite (sbind_ok _ _ _ _ _ (eq_refl : now s = (s, Ok _))), (sbind_ok _ _ _ _ _ deref_ram).
  unfold put_ram. rewrite (sbind_ok _ _ s _ tt eq_refl). destruct (Z.leb_spec (zlen (ram_data r)) pos) as [Hge|Hlt].
  - unfold b. rewrite (zdrop_all pos), ztake_nil' by lia. change (zlen (@nil byte)) with 0. by rewrite Z.add_0_r.
  - assert (Hn : zlen b = if zlen (ram_data r) - pos <? len then zlen (ram_data r) - pos else len).
    { unfold b. rewrite zlen_ztake, zlen_zdrop by lia. destruct (Z.ltb_spec (zlen (ram_data r) - pos) len); lia. }
    assert (Hb : 0 <= zlen b <= zlen (ram_data r) - pos) by (rewrite Hn; destruct (Z.ltb_spec (zlen (ram_data r) - pos) len); lia).
    rewrite <- Hn, get_slice_ok by lia. unfold slift, sbind, sret. do 3 f_equal.
    unfold slice. replace (pos + zlen b - pos) with (zlen b) by lia. unfold b. rewrite ztake_len. done.
Qed.

Lemma ram_write_run buf :
  0 < zlen buf -> pos + zlen buf <= ISIZE_MAX ->
  exists attr, st_size attr = zlen (write_at (ram_data r) pos buf) /\
  ram_write pos i buf s =
  (set_rams (<[i := mkRamFileInner (write_at (ram_data r) pos buf) attr]> (fs_rams s)) s, Ok (RamFileInterface (pos + zlen buf) i, zlen buf)).
Proof.
  intros Hb Hmax. pose proof pos_range. pose proof size_range as [Hsz ?].
  assert (Hadd : add64 pos (zlen buf) = pos + zlen buf) by (unfold add64; apply as_u64_small; unfold ISIZE_MAX in *; ulia).
  unfold ram_write. rewrite (sbind_ok _ _ _ _ _ (eq_refl : now s = (s, Ok _))), (sbind_ok _ _ _ _ _ deref_ram), Hadd.
  destruct (Z.ltb_spec (zlen (ram_data r)) (pos + zlen buf)) as [Hlt|Hge].
  - rewrite write_at_grow by lia. unfold vec_resize, i64_unwrap. guard_false (ISIZE_MAX <? pos + zlen buf).
    cbv beta iota delta [sbind sret]. rewrite zlen_resize by lia. guard_false (ISIZE_MAX <? pos + zlen buf). cbn [ram_data ram_attr].
    rewrite put_slice_ok by (rewrite ?zlen_resize; lia). eexists. split; cycle 1; [done|].
    cbn. rewrite zlen_splice, zlen_resize; rewrite ?zlen_resize; lia.
  - rewrite write_at_within by lia. cbv beta iota delta [sbind sret].
    rewrite put_slice_ok by lia. eexists. split; cycle 1; [done|]. cbn. rewrite zlen_splice; lia.
Qed.

Lemma ram_lseek_run offset whence :
  - ISIZE_MAX - 1 <= offset <= ISIZE_MAX ->
  match seek_target (ram_data r) pos offset whence with
  | inl e => ram_lseek pos i offset whence s = (s, Err e)
  | inr p =>
      if p <? 0 then ram_lseek pos i offset whence s = (s, Err Inval)
      else exists attr, st_size attr = Z.max (zlen (ram_data r)) p /\ p <= ISIZE_MAX /\
        ram_lseek pos i offset whence s =
        (set_rams (<[i := mkRamFileInner (ram_data r ++ zeros (p - zlen (ram_data r))) attr]> (fs_rams s)) s, Ok (RamFileInterface p i, p))
  end.
Proof.
  intros Ho. pose proof pos_range. pose proof size_range as [Hsz ?].
  unfold ram_lseek. rewrite (sbind_ok _ _ _ _ _ deref_ram), !as_i64_small by (unfold ISIZE_MAX in *; lia).
  assert (Hp : (match whence with
    | SeekSet => sret offset
    | SeekCur => isize_checked_add pos offset
    | SeekEnd => isize_checked_add (zlen (ram_data r)) offset
    | _ => sfail Inval
    end) s = match seek_target (ram_data r) pos offset whence with inl e => (s, Err e) | inr p => (s, Ok p) end).
  { unfold seek_target, isize_checked_add. destruct whence; try done; by destruct (_ || _). }
  assert (Hr : forall p, seek_target (ram_data r) pos offset whence = inr p -> p <= ISIZE_MAX).
  { unfold seek_target. intros p. destruct whence; try done; [intros [= <-]; lia|..]; (destruct (_ || _) eqn:E; [done|]; intros [= <-]; lia). }
  destruct (seek_target _ _ _ _) as [e|p]; [by rewrite (sbind_err _ _ _ _ _ Hp)|]. rewrite (sbind_ok _ _ _ _ _ Hp).
  specialize (Hr p eq_refl). destruct (Z.ltb_spec p 0); [done|]. destruct (Z.ltb_spec (zlen (ram_data r)) p) as [Hlt|Hge].
  - unfold vec_resize, i64_unwrap. guard_false (ISIZE_MAX <? p). cbv beta iota delta [sbind sret]. rewrite zlen_resize by lia.
    guard_false (ISIZE_MAX <? p). rewrite resize_grow by lia. eexists. split; cycle 1; [split; [done|]|].
    + cbn. by rewrite as_u64_small by (unfold ISIZE_MAX in *; ulia).
    + cbn. lia.
  - exists (ram_attr r). split; [lia|]. split; [done|]. rewrite zeros_nonpos, app_nil_r by lia.
    cbv beta iota delta [sbind sret]. rewrite as_u64_small by (unfold ISIZE_MAX in *; ulia). f_equal.
    rewrite insert_id; [by destruct s|]. rewrite Hi. by destruct r.
Qed.

Lemma ram_truncate_run size :
  0 <= size <= ISIZE_MAX ->
  exists attr, st_size attr = size /\
  ram_truncate i size s = (set_rams (<[i := mkRamFileInner (resize (ram_data r) size) attr]> (fs_rams s)) s, Ok tt).
Proof.
  intros Hl. unfold ram_truncate. rewrite (sbind_ok _ _ _ _ _ deref_ram). unfold vec_resize. guard_false (ISIZE_MAX <? size).
  eexists. split; cycle 1; [done|]. cbn. apply as_i64_small. unfold ISIZE_MAX in *; lia.
Qed.

Lemma ram_version_ok data attr :
  st_size attr = zlen data -> zlen data <= ISIZE_MAX -> forall p, 0 <= p <= ISIZE_MAX -> fs_ok (upd s a i p (mkRamFileInner data attr)).
Proof. intros H1 H2 p Hp. by apply upd_ok. Qed.

(** An operation that leaves a new version of the file, and the position [p]. *)
Definition leaves (s' : Fs) (data : bytes) (p : Z) : Prop :=
  exists r', fs_rams s' !! i = Some r' /\ ram_data r' = data /\
  fs_objects s' !! a = Some (RamFileInterface p i) /\ only_file s s' i a /\ fs_ok s'.

Lemma leaves_upd data attr p :
  st_size attr = zlen data -> zlen data <= ISIZE_MAX -> 0 <= p <= ISIZE_MAX ->
  leaves (upd s a i p (mkRamFileInner data attr)) data p.
Proof.
  intros H1 H2 Hp. exists (mkRamFileInner data attr). cbn. rewrite !lookup_insert_eq.
  do 3 (split; [done|]). split; [by apply upd_only|by apply ram_version_ok].
Qed.

Lemma leaves_same : leaves s (ram_data r) pos.
Proof.
  pose proof pos_range as Hp. pose proof size_range as [H1 [_ H2]]. pose proof (leaves_upd _ _ _ H1 H2 Hp) as H.
  assert (mkRamFileInner (ram_data r) (ram_attr r) = r) as Heq by (by destruct r). rewrite Heq in H. by rewrite upd_id in H.
Qed.

Lemma zlen_write_at data buf : 0 <= pos -> zlen (write_at data pos buf) = Z.max (zlen data) (pos + zlen buf).
Proof.
  intros Hp. pose proof (zlen_nonneg buf). pose proof (zlen_nonneg data). destruct (Z_lt_le_dec (zlen data) (pos + zlen buf)).
  - rewrite write_at_grow, zlen_splice, zlen_resize by (rewrite ?zlen_resize; lia). lia.
  - rewrite write_at_within, zlen_splice by lia. lia.
Qed.

Lemma run_read len : 0 <= len -> exists s',
  fd_read fd len s = (s', Ok (ztake len (zdrop pos (ram_data r)))) /\
  leaves s' (ram_data r) (pos + zlen (ztake len (zdrop pos (ram_data r)))).
Proof.
  intros Hl. pose proof pos_range. pose proof size_range as [Hsz ?]. unfold fd_read. rewrite (sbind_ok _ _ _ _ _ run_get_object).
  destruct (Z.eqb_spec len 0) as [->|Hne].
  - rewrite ztake_0 by lia. change (zlen (@nil byte)) with 0. rewrite Z.add_0_r. exists s. split; [done|apply leaves_same].
  - unfold obj_read. rewrite (sbind_ok _ _ _ _ _ deref_object). cbn match.
    destruct (ram_read_run len Hl) as (attr & Hattr & Hrun). rewrite (sbind_ok _ _ _ _ _ Hrun). eexists. split; [done|].
    apply leaves_upd; [lia..|]. rewrite zlen_ztake, zlen_zdrop by lia. lia.
Qed.

Lemma run_write buf : 0 < zlen buf -> pos + zlen buf <= ISIZE_MAX -> exists s',
  fd_write fd buf s = (s', Ok (zlen buf)) /\ leaves s' (write_at (ram_data r) pos buf) (pos + zlen buf).
Proof.
  intros Hb Hmax. pose proof pos_range. pose proof size_range as [Hsz ?]. unfold fd_write. rewrite (sbind_ok _ _ _ _ _ run_get_object).
  guard_false (zlen buf =? 0). unfold obj_write. rewrite (sbind_ok _ _ _ _ _ deref_object). cbn match.
  destruct (ram_write_run buf Hb Hmax) as (attr & Hattr & Hrun). rewrite (sbind_ok _ _ _ _ _ Hrun). eexists. split; [done|].
  apply leaves_upd; [done| |lia]. rewrite zlen_write_at; lia.
Qed.

Lemma run_lseek offset whence : - ISIZE_MAX - 1 <= offset <= ISIZE_MAX ->
  match seek_target (ram_data r) pos offset whence with
  | inl e => fd_lseek fd offset whence s = (s, Err e)
  | inr p =>
      if p <? 0 then fd_lseek fd offset whence s = (s, Err Inval)
      else exists s', fd_lseek fd offset whence s = (s', Ok p) /\ leaves s' (ram_data r ++ zeros (p - zlen (ram_data r))) p
  end.
Proof.
  intros Ho. pose proof size_range as [Hsz Hrange]. pose proof (ram_lseek_run offset whence Ho) as H.
  unfold fd_lseek. rewrite (sbind_ok _ _ _ _ _ run_get_object). unfold obj_lseek. rewrite (sbind_ok _ _ _ _ _ deref_object). cbn match.
  destruct (seek_target _ _ _ _) as [e|p]; [by rewrite (sbind_err _ _ _ _ _ H)|].
  destruct (Z.ltb_spec p 0); [by rewrite (sbind_err _ _ _ _ _ H)|]. destruct H as (attr & Hattr & Hp & Hrun).
  rewrite (sbind_ok _ _ _ _ _ Hrun). eexists. split; [done|].
  assert (zlen (ram_data r ++ zeros (p - zlen (ram_data r))) = Z.max (zlen (ram_data r)) p).
  { rewrite zlen_app. destruct (Z_le_gt_dec p (zlen (ram_data r))); [rewrite zeros_nonpos by lia; change (zlen (@nil byte)) with 0; lia|rewrite zlen_zeros; lia]. }
  apply leaves_upd; lia.
Qed.

Lemma run_truncate size : 0 <= size <= ISIZE_MAX -> exists s',
  fd_truncate fd size s = (s', Ok tt) /\ leaves s' (resize (ram_data r) size) pos.
Proof.
  intros Hl. pose proof pos_range as Hp. unfold fd_truncate. rewrite (sbind_ok _ _ _ _ _ run_get_object).
  unfold obj_truncate. rewrite (sbind_ok _ _ _ _ _ deref_object). cbn match. destruct (ram_truncate_run size Hl) as (attr & Hattr & ->).
  eexists. split; [done|]. pose proof (leaves_upd (resize (ram_data r) size) attr pos) as H. rewrite zlen_resize in H by lia.
  specialize (H Hattr ltac:(lia) ltac:(lia)). unfold upd in H. by rewrite insert_id in H.
Qed.

End one_file.

(** C35: reading, writing, seeking and truncating through a descriptor of a RAM file do to the
    bytes of the file and to the position exactly what the specification says, with its
    answer or error; no other file, object, descriptor or directory changes, and the
    invariant holds again. *)
Theorem file_ops_refine s fd a pos i r op :
  fs_ok s -> fs_objmap s !! fd = Some a -> fs_objects s !! a = Some (RamFileInterface pos i) -> fs_rams s !! i = Some r ->
  op_fits op pos ->
  let '(data', pos', res) := file_spec op (ram_data r) pos in
  exists s' r', run_file_op fd op s = (s', match res with inl e => Err e | inr v => Ok v end) /\
    fs_rams s' !! i = Some r' /\ ram_data r' = data' /\ fs_objects s' !! a = Some (RamFileInterface pos' i) /\
    only_file s s' i a /\ fs_ok s'.
Proof.
  intros Hs Hf Ha Hi Hop. pose proof (leaves_same s a pos i r Hs Ha Hi) as Hsame.
  destruct op as [len|buf|offset whence|size]; cbn [file_spec run_file_op op_fits] in *.
  - destruct (run_read s fd a pos i r Hs Hf Ha Hi len Hop) as (s' & Hrun & r' & H). exists s', r'. by rewrite (sbind_ok _ _ _ _ _ Hrun).
  - pose proof (zlen_nonneg buf). destruct (Z.eqb_spec (zlen buf) 0) as [Hz|Hz].
    + destruct Hsame as (r' & H'). exists s, r'. unfold fd_write. rewrite (sbind_ok _ _ s s 0); [done|].
      rewrite (sbind_ok _ _ _ _ _ (run_get_object s fd a Hf)). by guard_true (zlen buf =? 0).
    + destruct (run_write s fd a pos i r Hs Hf Ha Hi buf ltac:(lia) Hop) as (s' & Hrun & r' & H'). exists s', r'. by rewrite (sbind_ok _ _ _ _ _ Hrun).
  - pose proof (run_lseek s fd a pos i r Hs Hf Ha Hi offset whence Hop) as H.
    destruct (seek_target _ _ _ _) as [e|p]; [destruct Hsame as (r' & H'); exists s, r'; by rewrite (sbind_err _ _ _ _ _ H)|].
    destruct (p <? 0); [destruct Hsame as (r' & H'); exists s, r'; by rewrite (sbind_err _ _ _ _ _ H)|].
    destruct H as (s' & Hrun & r' & H). exists s', r'. by rewrite (sbind_ok _ _ _ _ _ Hrun).
  - destruct (run_truncate s fd a pos i r Hs Hf Ha Hi size Hop) as (s' & Hrun & r' & H). exists s', r'. by rewrite (sbind_ok _ _ _ _ _ Hrun).
Qed.

(** ** Several descriptors *)

Lemma read_written data pos buf : 0 <= pos -> ztake (zlen buf) (zdrop pos (write_at data pos buf)) = buf.
Proof.
  intros Hp. pose proof (zlen_nonneg data). pose proof (zlen_nonneg buf). unfold write_at.
  assert (Hl : zlen (ztake pos (data ++ zeros (pos - zlen data))) = pos).
  { rewrite zlen_ztake, zlen_app. destruct (Z_le_gt_dec pos (zlen data)); [pose proof (zlen_nonneg (zeros (pos - zlen data))); lia|].
    rewrite zlen_zeros; lia. }
  rewrite zdrop_app_ge, Hl, Z.sub_diag, zdrop_0 by lia. by rewrite ztake_app_le, ztake_all by lia.
Qed.

Lemma fs_unlink_keeps s s' path : fs_ok s -> fs_unlink path s = (s', Ok tt) -> fs_ok s' /\ keeps_files s s'.
Proof.
  intros Hs Hrun. destruct (fs_root s) as [[r x]|] eqn:Hr; cycle 1.
  { revert Hrun. unfold fs_unlink, root_node, sbind, sgets, sopt. by rewrite Hr. }
  unfold fs_unlink in Hrun. rewrite (root_node_run s r x _ Hr) in Hrun. unfold traverse_unlink in Hrun.
  pose proof (components_remove s KFile Isdir path r x Hs Hr) as H.
  destruct (ns_unlink KFile Isdir (ns_of s) (components path)); [by rewrite H in Hrun|].
  destruct H as (s1 & H & ? & ? & _). rewrite H in Hrun. by injection Hrun as <-.
Qed.

(** C36: bytes written through one descriptor of a file are read back through any other
    descriptor of the file, at the same offset, also when the name of the file has been
    removed in between. *)
Theorem written_is_read s fd1 a1 pos1 fd2 a2 pos2 i r buf s1 path s2 :
  fs_ok s -> fs_rams s !! i = Some r ->
  fs_objmap s !! fd1 = Some a1 -> fs_objects s !! a1 = Some (RamFileInterface pos1 i) ->
  fs_objmap s !! fd2 = Some a2 -> fs_objects s !! a2 = Some (RamFileInterface pos2 i) ->
  0 < zlen buf -> pos1 + zlen buf <= ISIZE_MAX ->
  fd_write fd1 buf s = (s1, Ok (zlen buf)) -> fs_unlink path s1 = (s2, Ok tt) ->
  exists s3 s4, fd_lseek fd2 pos1 SeekSet s2 = (s3, Ok pos1) /\ fd_read fd2 (zlen buf) s3 = (s4, Ok buf).
Proof.
  intros Hs Hi Hf1 Ha1 Hf2 Ha2 Hb Hmax Hw Hu.
  pose proof (pos_range s a1 pos1 i Hs Ha1) as Hp1.
  destruct (run_write s fd1 a1 pos1 i r Hs Hf1 Ha1 Hi buf Hb Hmax) as (s1' & Hw' & r1 & Hi1 & Hd1 & Ho1 & Honly & Hs1).
  rewrite Hw in Hw'. injection Hw' as <-. destruct (fs_unlink_keeps s1 s2 path Hs1 Hu) as (Hs2 & K1 & K2 & K3 & K4 & _).
  assert (Ho2 : exists p, fs_objects s2 !! a2 = Some (RamFileInterface p i)).
  { destruct (decide (a2 = a1)) as [->|Hne]; [exists (pos1 + zlen buf); by eapply lookup_weaken|].
    exists pos2. eapply lookup_weaken, K3. by rewrite (proj2 (proj2 (proj2 (proj2 (proj2 (proj2 (proj2 (proj2 (proj2 Honly)))))))) a2 Hne). }
  destruct Ho2 as (p2 & Ho2). eapply lookup_weaken in Hi1; [|exact K2].
  assert (Hm2 : fs_objmap s2 !! fd2 = Some a2) by (rewrite K4; by destruct Honly as (_ & _ & _ & _ & _ & -> & _)).
  pose proof (run_lseek s2 fd2 a2 p2 i r1 Hs2 Hm2 Ho2 Hi1 pos1 SeekSet ltac:(lia)) as H. cbn [seek_target] in H.
  destruct (Z.ltb_spec pos1 0); [lia|]. destruct H as (s3 & Hrun3 & r3 & Hi3 & Hd3 & Ho3 & Honly3 & Hs3). exists s3.
  assert (Hm3 : fs_objmap s3 !! fd2 = Some a2) by (by destruct Honly3 as (_ & _ & _ & _ & _ & -> & _)).
  destruct (run_read s3 fd2 a2 pos1 i r3 Hs3 Hm3 Ho3 Hi3 (zlen buf) ltac:(lia)) as (s4 & Hrun4 & _). exists s4. split; [done|].
  rewrite Hrun4, Hd3, Hd1. rewrite zeros_nonpos, app_nil_r; [by rewrite read_written by lia|].
  rewrite zlen_write_at by lia. lia.
Qed.

(** ** The table of descriptors *)

Lemma size_below (m : gmap Z Z) fd : 0 <= fd -> (forall k, 0 <= k < fd -> is_Some (m !! k)) -> fd <= Z.of_nat (size m).
Proof.
  intros Hfd H. assert (Hsub : (list_to_set (seqZ 0 fd) : gset Z) ⊆ dom m).
  { intros k Hk. apply elem_of_dom, H. rewrite elem_of_list_to_set, elem_of_seqZ in Hk. lia. }
  apply subseteq_size in Hsub. rewrite size_list_to_set, length_seqZ, size_dom in Hsub by apply NoDup_seqZ. lia.
Qed.

(** [fd] is the lowest descriptor that is not in use. *)
Definition lowest_free (m : gmap Z Z) (fd : Z) : Prop :=
  0 <= fd <= I32_MAX /\ m !! fd = None /\ forall k, 0 <= k < fd -> is_Some (m !! k).

Lemma new_fd_loop_spec fuel m fd :
  0 <= fd <= I32_MAX -> (forall k, 0 <= k < fd -> is_Some (m !! k)) -> Z.of_nat (size m) < Z.of_nat fuel + fd ->
  match new_fd_loop fuel m fd with
  | Ok fd' => lowest_free m fd'
  | Err e => e = Overflow /\ forall k, 0 <= k <= I32_MAX -> is_Some (m !! k)
  | _ => False
  end.
Proof.
  revert fd. induction fuel as [|fuel IH]; intros fd Hfd Hbelow Hfuel.
  - pose proof (size_below m fd ltac:(lia) Hbelow). lia.
  - cbn [new_fd_loop]. destruct (m !! fd) as [a|] eqn:Hm; [|done]. destruct (Z.eqb_spec fd I32_MAX) as [->|Hne].
    + split; [done|]. intros k Hk. destruct (decide (k = I32_MAX)) as [->|?]; [by rewrite Hm|]. apply Hbelow. lia.
    + replace (Z.min I32_MAX (fd + 1)) with (fd + 1) by lia. apply IH; [lia| |lia].
      intros k Hk. destruct (decide (k = fd)) as [->|?]; [by rewrite Hm|]. apply Hbelow. lia.
Qed.

Lemma new_fd_spec m :
  match new_fd m with
  | Ok fd => lowest_free m fd
  | Err e => e = Overflow /\ forall k, 0 <= k <= I32_MAX -> is_Some (m !! k)
  | _ => False
  end.
Proof. apply new_fd_loop_spec; [unfold I32_MAX; lia|lia|lia]. Qed.

(** C37: opening or duplicating gives the lowest descriptor that is free, an error only when
    all of them are in use; a duplicate has the object of the original, so the two share
    its position; a descriptor that was closed is free again and the others stay. *)
Theorem descriptor_table s obj fd :
  let m := fs_objmap s in
  (match insert_object obj s with
   | (s', Ok n) => lowest_free m n /\ fs_objmap s' = <[n := obj]> m
   | (s', o) => o = Err Overflow /\ s' = s /\ forall k, 0 <= k <= I32_MAX -> is_Some (m !! k)
   end) /\
  (match m !! fd with
   | None => dup_object fd s = (s, Err Inval) /\ remove_object fd s = (s, Err Badf)
   | Some a =>
       match dup_object fd s with
       | (s', Ok n) => lowest_free m n /\ n <> fd /\ fs_objmap s' = <[n := a]> m
       | (s', o) => o = Err Overflow /\ s' = s /\ forall k, 0 <= k <= I32_MAX -> is_Some (m !! k)
       end /\
       exists s', remove_object fd s = (s', Ok a) /\ fs_objmap s' = delete fd m
   end) /\
  (forall fd2, dup_object2 fd fd2 s =
     match m !! fd, m !! fd2 with
     | None, _ => (s, Err Badf)
     | Some _, Some _ => (s, Err Mfile)
     | Some a, None => (set_objmap (<[fd2 := a]> m) s, Ok fd2)
     end).
Proof.
  intros m. pose proof (new_fd_spec m) as Hnew. unfold insert_object, dup_object, dup_object2, remove_object, sbind, sgets, slift, sopt. fold m.
  split; [by destruct (new_fd m) as [n|e| |]; [|destruct Hnew as [-> ?]|..]|]. split.
  - destruct (m !! fd) as [a|] eqn:Hm; [|done]. split; [|by eexists].
    destruct (new_fd m) as [n|e| |]; [|by destruct Hnew as [-> ?]|done..].
    destruct Hnew as (Hr & Hn & Hb). rewrite Hn. split; [done|]. split; [|done]. intros ->. by rewrite Hm in Hn.
  - intros fd2. destruct (m !! fd); [|done]. by destruct (m !! fd2).
Qed.

End theorems.
