(* ===== verification/DirListing.v ===== *)
(** * Listing a directory through [sys_getdents64]

    What a caller that reads a directory in several calls gets: the records parsed back
    from its buffers. *)

From stdpp Require Import gmap sorting.
From S2P Require Import Prelude Vfs VfsSpec VfsTheorems Files.

(** ** The caller: parsing records, reading until the answer is zero *)

Fixpoint until_zero (b : bytes) : bytes :=
  match b with
  | [] => []
  | x :: b => if Byte.eqb x Byte.x00 then [] else x :: until_zero b
  end.

Fixpoint parse_dirents (fuel : nat) (b : bytes) : list bytes :=
  match fuel with
  | O => []
  | S fuel =>
      match b with
      | [] => []
      | _ => until_zero (zdrop DIRENT_NAME b) :: parse_dirents fuel (zdrop (le_combine (slice b 16 18)) b)
      end
  end.

Fixpoint list_dir `{W : Devices} (fuel : nat) (fd count : Z) (pad : Z -> byte) : ST Fs Errno (list bytes) :=
  match fuel with
  | O => sfuel
  | S fuel =>
      let! (b, ret) := sys_getdents64 fd false count pad in
      if ret <=? 0 then sret []
      else let! names := list_dir fuel fd count pad in sret (parse_dirents (length b) b ++ names)
  end.

(** ** One record *)

Lemma align8_spec n : n <= align8 n < n + 8 /\ align8 n mod 8 = 0.
Proof. unfold align8. Z.to_euclidean_division_equations. lia. Qed.

Lemma align8_add o n : o mod 8 = 0 -> align8 (o + n) = o + align8 n.
Proof. unfold align8. intros H. Z.to_euclidean_division_equations. lia. Qed.

Lemma zlen_dirent name reclen : zlen (dirent name reclen) = DIRENT_NAME + zlen name + 1.
Proof. unfold dirent, DIRENT_NAME. rewrite !zlen_app, !zlen_to_le64. unfold le16, zlen. rewrite length_le_split. cbn. lia. Qed.

Definition name_ok (count : Z) (name : bytes) : Prop :=
  (Byte.x00 ∉ name) /\ align8 (DIRENT_NAME + zlen name + 1) <= Z.min count U16_MAX.

Lemma until_zero_name name rest : Byte.x00 ∉ name -> until_zero (name ++ Byte.x00 :: rest) = name.
Proof.
  induction name as [|x name IH]; intros H; [done|]. apply not_elem_of_cons in H as [Hx Hn]. cbn.
  destruct (Byte.eqb x Byte.x00) eqn:E; [by apply Byte.byte_dec_bl in E|]. by rewrite IH.
Qed.

Lemma parse_record fuel name reclen fill rest :
  Byte.x00 ∉ name -> zlen (dirent name reclen) + zlen fill = reclen -> reclen <= U16_MAX ->
  parse_dirents (S fuel) (dirent name reclen ++ fill ++ rest) = name :: parse_dirents fuel rest.
Proof.
  intros Hn Hl Hmax. pose proof (zlen_nonneg name). pose proof (zlen_nonneg fill). rewrite zlen_dirent in Hl. unfold DIRENT_NAME in Hl.
  set (b := dirent name reclen ++ fill ++ rest). cbn [parse_dirents].
  destruct b as [|x b'] eqn:Hb; [by apply (f_equal zlen) in Hb; unfold b in Hb; rewrite zlen_app, zlen_dirent in Hb; unfold DIRENT_NAME in Hb; pose proof (zlen_nonneg (fill ++ rest)); change (zlen (@nil byte)) with 0 in Hb; lia|].
  rewrite <- Hb. unfold b. clear b b' x Hb. f_equal.
  - unfold dirent. rewrite <- !app_assoc, !app_assoc.
    assert (H19 : zlen (((to_le64 1 ++ to_le64 0) ++ le16 reclen) ++ [Byte.x00]) = DIRENT_NAME).
    { rewrite !zlen_app, !zlen_to_le64. unfold le16, zlen. by rewrite length_le_split. }
    rewrite <- !app_assoc. rewrite (app_assoc (to_le64 1)), (app_assoc (_ ++ _) (le16 _)), (app_assoc (_ ++ _) [Byte.x00]).
    rewrite zdrop_app_ge, H19, Z.sub_diag, zdrop_0 by lia. cbn [app]. by apply until_zero_name.
  - assert (Hrec : le_combine (slice (dirent name reclen ++ fill ++ rest) 16 18) = reclen).
    { unfold slice, dirent. rewrite <- !app_assoc. rewrite zdrop_app_ge, zlen_to_le64, zdrop_app_ge, zlen_to_le64, zdrop_0 by (rewrite ?zlen_to_le64; lia).
      rewrite ztake_app_le, ztake_all by (unfold le16, zlen; rewrite length_le_split; cbn; lia).
      unfold le16. rewrite le_combine_split. rewrite Z.mod_small; [done|]. unfold U16_MAX in *. lia. }
    rewrite Hrec, app_assoc, zdrop_app_ge, zdrop_0; [done|..]; rewrite zlen_app, zlen_dirent; unfold DIRENT_NAME; lia.
Qed.

(** ** One call *)

Lemma getdents_loop_spec names count pad : forall offset,
  0 <= offset -> offset mod 8 = 0 -> Forall (name_ok count) names ->
  exists passed rest b, names = passed ++ rest /\
    getdents_loop names count pad offset = Ok (zlen passed, b, offset + zlen b) /\
    (forall fuel, (length passed <= fuel)%nat -> parse_dirents fuel b = passed) /\ zlen passed <= zlen b /\ (zlen b = 0 -> passed = []) /\
    (offset = 0 -> names <> [] -> passed <> []).
Proof.
  induction names as [|name names IH]; intros offset Ho Hal Hok.
  - exists [], [], []. cbn. rewrite Z.add_0_r. repeat split; try done. intros [|fuel]; done.
  - apply Forall_cons in Hok as [[Hz Hfit] Hok]. cbn [getdents_loop]. set (L := DIRENT_NAME + zlen name + 1) in *.
    rewrite align8_add by done. destruct (align8_spec L) as [HL HL8]. pose proof (zlen_nonneg name).
    destruct (Z.ltb_spec count (offset + align8 L)) as [Hfull|Hroom].
    { exists [], (name :: names), []. rewrite Z.add_0_r. repeat split; try done; [intros [|fuel]; done|]. intros ->. lia. }
    guard_false (U16_MAX <? align8 L). cbn match.
    destruct (IH (offset + align8 L)) as (passed & rest & b & -> & Hrun & Hparse & Hlen & Hnil & _).
    { unfold L, DIRENT_NAME in *; lia. } { rewrite Z.add_mod, Hal, HL8 by lia. done. } { done. }
    rewrite Hrun. cbn [obind]. set (fill := pad <$> seqZ (offset + zlen (dirent name (align8 L))) (offset + align8 L - offset - zlen (dirent name (align8 L)))).
    assert (Hfill : zlen (dirent name (align8 L)) + zlen fill = align8 L).
    { unfold fill, zlen at 2. rewrite length_fmap, length_seqZ, zlen_dirent. fold L. lia. }
    exists (name :: passed), rest, (dirent name (align8 L) ++ fill ++ b). split; [done|].
    assert (Hb : zlen (dirent name (align8 L) ++ fill ++ b) = align8 L + zlen b) by (rewrite !zlen_app; lia).
    rewrite Hb, zlen_cons. split; [by rewrite (Z.add_comm (zlen passed)), Z.add_assoc|]. split; [|split; [unfold L, DIRENT_NAME in *; lia|split; [|done]]].
    + intros [|fuel] Hf; [cbn in Hf; lia|]. rewrite parse_record by (try done; lia). rewrite Hparse; [done|]. cbn in Hf. lia.
    + pose proof (zlen_nonneg b). unfold L, DIRENT_NAME in *. lia.
Qed.

Section theorems.
Context {W : Devices}.

Lemma list_dir_rest fuel : forall s fd a inner idx m count pad,
  fs_objmap s !! fd = Some a -> fs_objects s !! a = Some (MemDirectoryInterface inner idx) -> fs_dirs s !! inner = Some m ->
  0 < count -> Forall (name_ok count) (dir_keys m) -> 0 <= idx <= zlen (dir_keys m) -> zlen (dir_keys m) <= ISIZE_MAX ->
  zlen (dir_keys m) - idx < Z.of_nat fuel ->
  exists s', list_dir fuel fd count pad s = (s', Ok (zdrop idx (dir_keys m))).
Proof.
  induction fuel as [|fuel IH]; intros s fd a inner idx m count pad Hf Ha Hd Hc Hok Hidx Hmax Hfuel; [lia|].
  cbn [list_dir]. unfold sys_getdents64. guard_false (count =? 0). cbn [orb].
  assert (Hget : scatch (get_object fd) s = (s, Ok (inl a))).
  { unfold scatch, get_object, sbind, sgets, sopt. by rewrite Hf. }
  destruct (getdents_loop_spec (zdrop idx (dir_keys m)) count pad 0) as (passed & rest & b & Hnames & Hrun & Hparse & Hlen & Hnil & Hsome).
  { done. } { done. } { unfold zdrop. by apply Forall_drop. }
  rewrite Z.add_0_l in Hrun. set (s1 := set_objects (<[a := MemDirectoryInterface inner (add64 idx (zlen passed))]> (fs_objects s)) s).
  assert (Hobj : obj_getdents a count pad s = (s1, Ok (b, zlen b))).
  { unfold obj_getdents, dir_getdents, sbind, deref, slift, sret. rewrite Ha, Hd, Hrun. done. }
  assert (Hcall : (let! obj := scatch (get_object fd) in
    match obj with
    | inr _ => sret ([], - errno_i32 Inval)
    | inl obj => let! r := scatch (obj_getdents obj count pad) in sret (match r with inl r => r | inr e => ([], - errno_i32 e) end)
    end) s = (s1, Ok (b, zlen b))).
  { rewrite (sbind_ok _ _ _ _ _ Hget). cbn match. rewrite (sbind_ok _ _ s s1 (inl (b, zlen b))); [done|]. unfold scatch. by rewrite Hobj. }
  rewrite (sbind_ok _ _ _ _ _ Hcall). pose proof (zlen_nonneg b). pose proof (zlen_nonneg passed). pose proof (zlen_nonneg rest).
  assert (Hsplit : zlen (dir_keys m) - idx = zlen passed + zlen rest).
  { rewrite <- zlen_app, <- Hnames, zlen_zdrop by lia. lia. }
  destruct (Z.leb_spec (zlen b) 0) as [Hz|Hpos].
  - exists s1. destruct (zdrop idx (dir_keys m)) eqn:E; [done|]. rewrite (Hnil ltac:(lia)) in Hsome. by destruct Hsome.
  - assert (passed <> []).
    { apply Hsome; [done|]. intros E. rewrite E in Hnames. symmetry in Hnames. apply app_eq_nil in Hnames as [-> _].
      cbn in Hlen. specialize (Hparse (length b) ltac:(cbn; lia)). destruct b as [|x b]; [change (zlen (@nil byte)) with 0 in Hpos; lia|]. cbn in Hparse. done. }
    assert (0 < zlen passed) by (destruct passed; [done|]; rewrite zlen_cons; pose proof (zlen_nonneg passed); lia).
    assert (Hadd : add64 idx (zlen passed) = idx + zlen passed) by (unfold add64; apply as_u64_small; unfold ISIZE_MAX in *; ulia).
    destruct (IH s1 fd a inner (idx + zlen passed) m count pad) as (s' & Hrest); try done; [|lia..|].
    { unfold s1. cbn. by rewrite lookup_insert_eq, Hadd. }
    exists s'. rewrite (sbind_ok _ _ _ _ _ Hrest). unfold sret. f_equal. f_equal.
    rewrite Hparse by (unfold zlen in Hlen; lia). rewrite <- zdrop_zdrop, Hnames by lia.
    by rewrite zdrop_app_ge, Z.sub_diag, zdrop_0 by lia.
Qed.

(** C38: a caller that reads a freshly opened directory with [sys_getdents64] until the answer
    is zero gets every name of the directory exactly once, in order, whatever the size of
    its buffer, as long as one record fits. *)
Theorem listing_complete s fd a inner m count pad :
  fs_objmap s !! fd = Some a -> fs_objects s !! a = Some (MemDirectoryInterface inner 0) -> fs_dirs s !! inner = Some m ->
  0 < count -> Forall (name_ok count) (dir_keys m) -> zlen (dir_keys m) <= ISIZE_MAX ->
  exists s' l, list_dir (S (length (dir_keys m))) fd count pad s = (s', Ok l) /\
    StronglySorted bytes_le l /\ NoDup l /\ forall name, name ∈ l <-> is_Some (m !! name).
Proof.
  intros Hf Ha Hd Hc Hok Hmax. pose proof (zlen_nonneg (dir_keys m)).
  destruct (list_dir_rest (S (length (dir_keys m))) s fd a inner 0 m count pad Hf Ha Hd Hc Hok ltac:(lia) Hmax) as (s' & Hrun); [unfold zlen; lia|].
  exists s', (dir_keys m). split; [by rewrite Hrun, zdrop_0|]. split; [apply keys_sorted|]. split; [apply keys_nodup|]. apply elem_of_keys.
Qed.

End theorems.
