(* ===== verification/FilesSafety.v ===== *)
(** * When file system calls panic

    In every state that boot and earlier calls lead to, a file system call with arguments in
    range keeps the invariant of the file system and returns, except with an unknown
    [whence] and on listing a descriptor of [opendir], where it panics. *)

From stdpp Require Import gmap.
From S2P Require Import Prelude Vfs VfsSpec VfsTheorems Files FilesTheorems DirListing.

Section safety.
Context {W : Devices}.

(** A device returns, perhaps with an error, and the keyboard is polled, so that reading
    standard input does not wait. *)
Definition returns {A} (o : outcome Errno A) : Prop := match o with Ok _ | Err _ => True | _ => False end.

Definition devices_ok : Prop :=
  (forall d, keyboard_polling_enabled d = true) /\
  (forall len d, returns (snd (device_read len d))) /\
  (forall d, returns (snd (device_read_ready d))) /\
  (forall b d, returns (snd (device_write_all b d))).

Context (Hdev : devices_ok).

Definition good (s : Fs) : Prop := fs_ok s /\ is_Some (fs_root s).

Definition safe {A} (c : ST Fs Errno A) : Prop :=
  forall s, good s -> wp c (fun _ => good) (fun _ => good) s.

Lemma safe_ret {A} (a : A) : safe (sret a).
Proof. intros s Hs. by apply wp_ret. Qed.

Lemma safe_fail {A} e : safe (sfail (A := A) e).
Proof. intros s Hs. by apply wp_fail. Qed.

Lemma safe_bind {A B} (c : ST Fs Errno A) (k : A -> ST Fs Errno B) : safe c -> (forall a, safe (k a)) -> safe (sbind c k).
Proof. intros Hc Hk s Hs. apply wp_bind. eapply wp_mono; [by apply Hc|intros a s' Hs'; by apply Hk|done]. Qed.

Lemma safe_catch {A} (c : ST Fs Errno A) : safe c -> safe (scatch c).
Proof. intros Hc s Hs. apply wp_catch. eapply wp_mono; [by apply Hc|done|done]. Qed.

Lemma safe_gets {A} (f : Fs -> A) : safe (sgets f).
Proof. intros s Hs. by apply wp_gets. Qed.

Lemma safe_code {A} (c : ST Fs Errno A) f : safe c -> safe (code c f).
Proof. intros Hc. apply safe_bind; [by apply safe_catch|]. intros r. apply safe_ret. Qed.

Lemma safe_opt {A} e (o : option A) : safe (sopt e o).
Proof. destruct o; [apply safe_ret|apply safe_fail]. Qed.

(** An operation whose run is known. *)
Lemma good_run {A} (c : ST Fs Errno A) s s' o :
  c s = (s', o) -> returns o -> good s' -> wp c (fun _ => good) (fun _ => good) s.
Proof. intros Hrun Ho Hs'. destruct o; try done; [by eapply wp_ok|by eapply wp_err]. Qed.

(** ** Frames *)

Lemma good_frame s s' :
  good s -> fs_dirs s' = fs_dirs s -> fs_roms s' = fs_roms s -> fs_rams s' = fs_rams s -> fs_objects s' = fs_objects s ->
  fs_next s' = fs_next s -> fs_root s' = fs_root s -> (forall fd a, fs_objmap s' !! fd = Some a -> is_Some (fs_objects s !! a)) -> good s'.
Proof.
  intros [[Ht Hd] Hr] E1 E2 E3 E4 E5 E6 Hm.
  assert (He : extends s s') by (constructor; rewrite ?E1, ?E2, ?E3, ?E4; eauto).
  split; [split|by rewrite E6].
  - apply (tree_ok_same s); [done..| |lia]. rewrite E2, E3, E4, E5. intros a H. apply (ok_next s Ht). tauto.
  - apply (data_ok_extends s); [done|done|..]; rewrite ?E2, ?E3, ?E4; [by left..|]. intros fd a H%Hm. by right.
Qed.

Lemma good_objmap s fd a : good s -> fs_objmap s !! fd = Some a -> is_Some (fs_objects s !! a).
Proof. intros [[_ Hd] _]. by apply ok_objmap. Qed.

Lemma good_put_object s a o :
  good s -> is_Some (fs_objects s !! a) -> object_ok s o -> good (set_objects (<[a := o]> (fs_objects s)) s).
Proof.
  intros [[Ht Hd] Hr] Ha Ho.
  assert (He : extends s (set_objects (<[a := o]> (fs_objects s)) s)).
  { constructor; cbn; eauto. intros b Hb. by rewrite is_Some_insert. }
  split; [split|done].
  - apply (tree_ok_same s); [done..| |cbn; lia]. cbn. intros b H. rewrite is_Some_insert in H by done. apply (ok_next s Ht). tauto.
  - apply (data_ok_extends s); [done|done|cbn; by left..|cbn|cbn; by left].
    intros b o' [[<- <-]|[_ ?]]%lookup_insert_Some; [right|by left]. by eapply object_ok_extends.
Qed.

Lemma good_put_rom s i r attr :
  good s -> fs_roms s !! i = Some r -> st_size attr = st_size (rom_attr r) ->
  good (set_roms (<[i := mkRomFileInner (rom_data r) attr]> (fs_roms s)) s).
Proof.
  intros [[Ht Hd] Hr] Hi Hsize.
  assert (He : extends s (set_roms (<[i := mkRomFileInner (rom_data r) attr]> (fs_roms s)) s)).
  { constructor; cbn; eauto. intros j r' Hj. destruct (decide (i = j)) as [->|?]; [|exists r'; by rewrite lookup_insert_ne].
    rewrite lookup_insert_eq. eexists. split; [done|]. by rewrite Hi in Hj; injection Hj as <-. }
  destruct (ok_roms s Hd i r Hi) as [E1 E2]. split; [split|done].
  - apply (tree_ok_same s); [done..| |cbn; lia]. cbn. intros b H. rewrite is_Some_insert in H by (by rewrite Hi). apply (ok_next s Ht). tauto.
  - apply (data_ok_extends s); [done|done|cbn; by left| |cbn; by left|cbn; by left]. cbn.
    intros b r' [[<- <-]|[_ ?]]%lookup_insert_Some; [right|by left]. cbn. by rewrite Hsize.
Qed.

Lemma good_put_ram s i r r' :
  good s -> fs_rams s !! i = Some r -> st_size (ram_attr r') = zlen (ram_data r') -> zlen (ram_data r') <= ISIZE_MAX ->
  good (set_rams (<[i := r']> (fs_rams s)) s).
Proof.
  intros [[Ht Hd] Hr] Hi Hsize Hmax.
  assert (He : extends s (set_rams (<[i := r']> (fs_rams s)) s)).
  { constructor; cbn; eauto. intros j Hj. by rewrite is_Some_insert. }
  split; [split|done].
  - apply (tree_ok_same s); [done..| |cbn; lia]. cbn. intros b H. rewrite is_Some_insert in H by (by rewrite Hi). apply (ok_next s Ht). tauto.
  - apply (data_ok_extends s); [done|done| |cbn; by left|cbn; by left|cbn; by left]. cbn.
    intros b r'' [[<- <-]|[_ ?]]%lookup_insert_Some; [by right|by left].
Qed.

Lemma good_objects s a o : good s -> fs_objects s !! a = Some o -> object_ok s o.
Proof. intros [[_ Hd] _]. by apply ok_objects. Qed.

Lemma safe_with_dev {A} (f : dev -> dev * outcome Errno A) : (forall d, returns (snd (f d))) -> safe (with_dev f).
Proof.
  intros Hf s Hs. specialize (Hf (fs_dev s)). destruct (f (fs_dev s)) as [d o] eqn:E.
  apply (good_run _ s (set_fs_dev d s) o); [unfold with_dev; by rewrite E|done|].
  apply (good_frame s); try done. intros fd a Hfd. by apply (good_objmap s fd).
Qed.

Lemma safe_cell f : (forall s, fs_dirs (f s) = fs_dirs s /\ fs_roms (f s) = fs_roms s /\ fs_rams (f s) = fs_rams s /\
  fs_objects (f s) = fs_objects s /\ fs_next (f s) = fs_next s /\ fs_root (f s) = fs_root s /\ fs_objmap (f s) = fs_objmap s) ->
  safe (smodify f).
Proof.
  intros Hf s Hs. destruct (Hf s) as (? & ? & ? & ? & ? & ? & E). apply wp_modify, (good_frame s); try done.
  rewrite E. intros fd a Hfd. by apply (good_objmap s fd).
Qed.

(** ** Paths *)

Lemma root_pair s : good s -> exists r x, fs_root s = Some (r, x).
Proof. intros [_ [[r x] H]]. eauto. Qed.

Lemma keeps_root s s' : good s -> fs_ok s' -> keeps_files s s' -> good s'.
Proof. intros [_ Hr] Hs' (_ & _ & _ & _ & E & _). split; [done|by rewrite E]. Qed.

Lemma safe_mkdir path mode : safe (fs_mkdir path mode).
Proof.
  intros s Hs. destruct (root_pair s Hs) as (r & x & Hr). pose proof (components_mkdir s path mode r x (proj1 Hs) Hr) as H.
  destruct (ns_mkdir _ _); [by eapply good_run|]. destruct H as (s' & a & attr & H & ? & ? & _). eapply good_run; [done|done|by eapply keeps_root].
Qed.

Lemma safe_remove kind wrong path : safe (let! r := root_node in traverse_remove kind wrong r (components path)).
Proof.
  intros s Hs. destruct (root_pair s Hs) as (r & x & Hr). pose proof (components_remove s kind wrong path r x (proj1 Hs) Hr) as H.
  destruct (ns_unlink _ _ _ _).
  - eapply good_run; [by rewrite (root_node_run s r x _ Hr)|done|done].
  - destruct H as (s' & H & ? & ? & _). eapply good_run; [by rewrite (root_node_run s r x _ Hr)|done|by eapply keeps_root].
Qed.

Lemma safe_stat path : safe (fs_stat path).
Proof.
  intros s Hs. destruct (root_pair s Hs) as (r & x & Hr). pose proof (components_stat s path r x (proj1 Hs) Hr) as H.
  destruct (ns_stat _ _); [by eapply good_run|]. destruct H as (attr & _ & H). by eapply good_run.
Qed.

Lemma safe_readdir path : safe (fs_readdir path).
Proof.
  intros s Hs. destruct (root_pair s Hs) as (r & x & Hr). unfold fs_readdir.
  assert (Hp : forall p, wp (traverse_readdir (MemDirectory r x) p) (fun _ => good) (fun _ => good) s).
  { intros p. pose proof (traverse_readdir_spec s p r x (proj1 Hs) Hr) as H.
    destruct (ns_readdir _ _); [by eapply good_run|]. destruct H as (l & H & _). by eapply good_run. }
  apply wp_bind. eapply wp_ok; [unfold root_node, sbind, sgets, sopt; rewrite Hr; done|]. case_bool_decide; apply Hp.
Qed.

(** Opening gives an object that exists. *)
Lemma wp_open path opt mode s :
  good s -> wp (fs_open path opt mode) (fun a s' => good s' /\ is_Some (fs_objects s' !! a)) (fun _ => good) s.
Proof.
  intros Hs. destruct (root_pair s Hs) as (r & x & Hr). pose proof (components_open s path opt mode r x (proj1 Hs) Hr) as H.
  destruct (ns_open _ _ _) as [e|[n|]]; [by eapply wp_err|..].
  - destruct H as (s' & a & H & ? & ? & _ & E & _). eapply wp_ok; [done|]. split; [by eapply keeps_root|by rewrite E].
  - destruct H as (s' & a & i & attr & H & ? & ? & _ & E & _). eapply wp_ok; [done|]. split; [by eapply keeps_root|by rewrite E].
Qed.

Lemma wp_insert_object s a :
  good s -> is_Some (fs_objects s !! a) -> wp (insert_object a) (fun _ => good) (fun _ => good) s.
Proof.
  intros Hs Ha. pose proof (new_fd_spec (fs_objmap s)) as H. unfold insert_object. apply wp_bind, wp_gets, wp_bind.
  destruct (new_fd (fs_objmap s)) as [fd|e| |]; [|by eapply wp_lift_err|done..]. eapply wp_lift_ok; [done|].
  apply wp_bind, wp_modify, wp_ret, (good_frame s); try done. cbn. intros fd' b [[<- <-]|[_ Hb]]%lookup_insert_Some; [done|].
  by apply (good_objmap s fd').
Qed.

Lemma safe_relative {A} name (k : bytes -> ST Fs Errno A) : (forall p, safe (k p)) -> safe (with_relative_filename name k).
Proof.
  intros Hk. unfold with_relative_filename. destruct (starts_with_slash name); [apply Hk|].
  apply safe_bind; [apply safe_gets|]. intros cwd. apply safe_bind; [apply safe_opt|]. intros d. apply Hk.
Qed.

Lemma safe_open name flags mode : safe (open name flags mode).
Proof.
  unfold open. apply safe_bind; [apply safe_gets|]. intros mask. apply safe_relative. intros p s Hs. apply wp_bind.
  eapply wp_mono; [by apply wp_open| |done]. intros a s' [Hs' Ha]. by apply wp_insert_object.
Qed.

Lemma safe_opendir name : safe (opendir name).
Proof.
  unfold opendir, fs_opendir. intros s Hs. apply wp_bind, wp_bind. eapply wp_mono; [by apply safe_readdir| |done].
  intros l s' Hs'. eapply wp_ok; [apply new_object_run|]. apply wp_insert_object; [|cbn; rewrite lookup_insert_eq; by eexists].
  split; [by apply fs_ok_new_object; [apply Hs'|]|apply Hs'].
Qed.

(** ** Objects *)

Lemma wp_deref_object {B} s a (k : Object -> ST Fs Errno B) :
  is_Some (fs_objects s !! a) ->
  (forall o, fs_objects s !! a = Some o -> wp (k o) (fun _ => good) (fun _ => good) s) ->
  wp (let! o := deref fs_objects a in k o) (fun _ => good) (fun _ => good) s.
Proof. intros [o Ho] H. apply wp_bind. eapply wp_ok; [unfold deref; by rewrite Ho|]. by apply H. Qed.

Lemma wp_deref_rom s i r Q X : fs_roms s !! i = Some r -> Q r s -> wp (deref fs_roms i) Q X s.
Proof. intros Hi HQ. eapply wp_ok; [unfold deref; by rewrite Hi|done]. Qed.

Lemma wp_deref_ram s i r Q X : fs_rams s !! i = Some r -> Q r s -> wp (deref fs_rams i) Q X s.
Proof. intros Hi HQ. eapply wp_ok; [unfold deref; by rewrite Hi|done]. Qed.

Lemma wp_put_object s a o Q X :
  good s -> is_Some (fs_objects s !! a) -> object_ok s o ->
  (forall s', good s' -> Q tt s') -> wp (put_object a o) Q X s.
Proof. intros Hs Ha Ho HQ. apply wp_modify, HQ. by apply good_put_object. Qed.

Lemma wp_rom_read s a pos inner len :
  good s -> fs_objects s !! a = Some (RomFileInterface pos inner) -> 0 <= len ->
  wp (let! (o, b) := rom_read pos inner len in let! _ := put_object a o in sret b) (fun _ => good) (fun _ => good) s.
Proof.
  intros Hs Ha Hl. destruct (good_objects s a _ Hs Ha) as (r & Hi & Hpos). apply wp_bind. unfold rom_read.
  apply wp_bind, wp_gets, wp_bind. eapply wp_deref_rom; [done|]. apply wp_bind, wp_modify.
  set (s1 := set_roms _ s). assert (Hs1 : good s1) by (by apply good_put_rom).
  assert (Hok : forall p, 0 <= p <= zlen (rom_data r) -> object_ok s1 (RomFileInterface p inner)).
  { intros p Hp. cbn. rewrite lookup_insert_eq. by eexists. }
  destruct (Z.leb_spec (zlen (rom_data r)) pos).
  - apply wp_ret, wp_bind, wp_put_object; [done|by eexists|by apply Hok|]. intros s' Hs'. by apply wp_ret.
  - apply wp_bind. eapply wp_lift_ok; [apply get_slice_ok; lia|].
    apply wp_ret, wp_bind, wp_put_object; [done|by eexists|apply Hok; lia|]. intros s' Hs'. by apply wp_ret.
Qed.

Lemma wp_rom_lseek s a pos inner offset whence :
  good s -> fs_objects s !! a = Some (RomFileInterface pos inner) ->
  wp (let! (o, n) := rom_lseek pos inner offset whence in let! _ := put_object a o in sret n) (fun _ => good) (fun _ => good) s.
Proof.
  intros Hs Ha. destruct (good_objects s a _ Hs Ha) as (r & Hi & Hpos). apply wp_bind. unfold rom_lseek.
  destruct (ok_roms s (proj2 (proj1 Hs)) inner r Hi) as [_ Hmax]. pose proof (zlen_nonneg (rom_data r)).
  apply wp_bind. eapply wp_deref_rom; [done|]. rewrite (as_i64_small (zlen (rom_data r))) by (unfold ISIZE_MAX in *; lia). apply wp_bind.
  assert (Hk : forall n, wp (if negb ((0 <=? n) && (n <=? zlen (rom_data r))) then sfail Inval
     else sret (RomFileInterface (as_u64 n) inner, n)) (fun p s' => wp (let '(o, n) := p in let! _ := put_object a o in sret n) (fun _ => good) (fun _ => good) s') (fun _ => good) s).
  { intros n. destruct ((0 <=? n) && (n <=? zlen (rom_data r))) eqn:E; cbn [negb]; [|by apply wp_fail].
    apply wp_ret, wp_bind, wp_put_object; [done|by eexists| |intros s' Hs'; by apply wp_ret].
    exists r. split; [done|]. rewrite as_u64_small by (unfold ISIZE_MAX in *; ulia). lia. }
  destruct whence; unfold isize_checked_add; repeat (destruct (_ || _)); first [by apply wp_fail|apply wp_ret, Hk].
Qed.

(** Whoever runs an operation of a RAM file through its descriptor finds the file. *)
Lemma ram_object s a pos inner :
  good s -> fs_objects s !! a = Some (RamFileInterface pos inner) -> exists r, fs_rams s !! inner = Some r.
Proof. intros Hs Ha. destruct (good_objects s a _ Hs Ha) as [[r Hr] _]. eauto. Qed.

(** A run of a RAM file operation, then the new object. *)
Lemma wp_ram_op {A} s a (m : ST Fs Errno (Object * A)) inner r data attr p (n : A) :
  good s -> is_Some (fs_objects s !! a) -> fs_rams s !! inner = Some r ->
  m s = (set_rams (<[inner := mkRamFileInner data attr]> (fs_rams s)) s, Ok (RamFileInterface p inner, n)) ->
  st_size attr = zlen data -> zlen data <= ISIZE_MAX -> 0 <= p <= ISIZE_MAX ->
  wp (let! (o, n) := m in let! _ := put_object a o in sret n) (fun _ => good) (fun _ => good) s.
Proof.
  intros Hs Ha Hi Hrun H1 H2 Hp. apply wp_bind. eapply wp_ok; [exact Hrun|]. apply wp_bind, wp_put_object.
  - by eapply good_put_ram.
  - done.
  - split; [cbn; rewrite lookup_insert_eq; by eexists|done].
  - intros s' Hs'. by apply wp_ret.
Qed.

Lemma safe_std_read len : safe (std_read len).
Proof.
  unfold std_read. destruct Hdev as (Hp & Hr & _). apply safe_bind; [apply safe_with_dev; intros d; by destruct (keyboard_read len d)|].
  intros b. destruct (0 <? zlen b); [apply safe_ret|]. apply safe_bind; [by apply safe_with_dev|]. intros b'.
  destruct (0 <? zlen b'); [apply safe_ret|]. intros s Hs. apply wp_bind, wp_gets. rewrite Hp. by apply wp_ret.
Qed.

(** Output touches the console buffer and the device only: whatever does not depend on
    them is kept. *)
Section output.
Context (G : Fs -> Prop) (HGd : forall s d, G s -> G (set_fs_dev d s)) (HGb : forall s b, G s -> G (set_buffer b s)).

Lemma wp_output_dev b (Q : unit -> Fs -> Prop) s :
  G s -> (forall s', G s' -> Q tt s') -> wp (with_dev (device_write_all b)) Q (fun _ => G) s.
Proof.
  intros Hs HQ. destruct Hdev as (_ & _ & _ & Hw). specialize (Hw b (fs_dev s)). destruct (device_write_all b (fs_dev s)) as [d o] eqn:E.
  assert (Hrun : with_dev (device_write_all b) s = (set_fs_dev d s, o)) by (unfold with_dev; by rewrite E).
  destruct o as [[]|e| |]; try done; [eapply wp_ok|eapply wp_err]; eauto.
Qed.

Lemma wp_con_flush (Q : unit -> Fs -> Prop) s : G s -> (forall s', G s' -> Q tt s') -> wp con_flush Q (fun _ => G) s.
Proof.
  intros Hs HQ. apply wp_bind, wp_gets. destruct (zlen (fs_buffer s) =? 0); [by apply wp_ret, HQ|].
  apply wp_bind, wp_output_dev; [done|]. intros s' Hs'. by apply wp_modify, HQ, HGb.
Qed.

Lemma wp_output buf s : G s -> wp (stdout_write buf) (fun n s' => n = zlen buf /\ G s') (fun _ => G) s.
Proof.
  intros Hs. apply wp_bind. eapply (wp_mono _ (fun n s' => n = zlen buf /\ G s') _ (fun _ => G)); [| |done]; cycle 1.
  { intros n s' [-> Hs']. apply wp_bind, wp_con_flush; [done|]. intros s'' Hs''. by apply wp_ret. }
  apply wp_bind, wp_gets, wp_bind. destruct (zlen buf <=? _).
  - apply wp_bind, wp_modify. case_bool_decide; [apply wp_con_flush; [by apply HGb|]; intros s' Hs'|apply wp_ret]; apply wp_ret; split; auto.
  - apply wp_bind, wp_output_dev; [done|]. intros s1 Hs1. apply wp_bind, wp_modify.
    destruct (_ <=? zlen buf); [apply wp_output_dev; [by apply HGb|]; intros s' Hs'; by apply wp_ret|].
    apply wp_bind, wp_modify. assert (G (set_buffer buf (set_buffer [] s1))) by auto.
    case_bool_decide; [apply wp_con_flush; [done|]; intros s' Hs'|apply wp_ret]; by apply wp_ret.
Qed.

End output.

Lemma good_dev s d : good s -> good (set_fs_dev d s).
Proof. intros Hs. apply (good_frame s); try done. intros fd a Hfd. by apply (good_objmap s fd). Qed.

Lemma good_buffer s b : good s -> good (set_buffer b s).
Proof. intros Hs. apply (good_frame s); try done. intros fd a Hfd. by apply (good_objmap s fd). Qed.

Lemma wp_get_object s fd Q X :
  (forall a, fs_objmap s !! fd = Some a -> Q a s) -> (fs_objmap s !! fd = None -> X Badf s) -> wp (get_object fd) Q X s.
Proof.
  intros H1 H2. unfold get_object. apply wp_bind, wp_gets. unfold sopt.
  destruct (fs_objmap s !! fd) as [a|]; [by apply wp_ret, H1|by apply wp_fail, H2].
Qed.

(** Room for what is written, and a directory that can be listed. *)
Definition write_fits (s : Fs) (fd n : Z) : Prop :=
  forall a pos i, fs_objmap s !! fd = Some a -> fs_objects s !! a = Some (RamFileInterface pos i) -> pos + n <= ISIZE_MAX.

Lemma wp_fd_read s fd len : good s -> 0 <= len -> wp (fd_read fd len) (fun _ => good) (fun _ => good) s.
Proof.
  intros Hs Hl. unfold fd_read. apply wp_bind, wp_get_object; [intros a Hf|by intros _]. destruct (Z.eqb_spec len 0); [by apply wp_ret|].
  unfold obj_read. apply wp_deref_object; [by eapply good_objmap|]. intros [pos i|pos i|i idx|l| | |] Ha; try by apply wp_fail.
  - by apply wp_rom_read.
  - destruct (ram_object s a pos i Hs Ha) as [r Hi]. destruct (ram_read_run s a pos i r (proj1 Hs) Ha Hi len Hl) as (attr & H1 & Hrun).
    pose proof (pos_range s a pos i (proj1 Hs) Ha). destruct (size_range s i r (proj1 Hs) Hi) as [H2 H3].
    eapply wp_ram_op; [done|by eexists|done|exact Hrun|lia|lia|]. rewrite zlen_ztake, zlen_zdrop by lia. lia.
  - by apply safe_std_read.
Qed.

Lemma wp_fd_write s fd buf n : good s -> write_fits s fd (zlen buf + n) -> 0 <= n ->
  wp (fd_write fd buf) (fun k s' => k = zlen buf /\ good s' /\ write_fits s' fd n) (fun _ => good) s.
Proof.
  intros Hs Hfit Hn. pose proof (zlen_nonneg buf). unfold fd_write. apply wp_bind, wp_get_object; [intros a Hf|by intros _].
  assert (Hless : write_fits s fd n) by (intros a' pos i Hf' Ha'; specialize (Hfit a' pos i Hf' Ha'); lia).
  destruct (Z.eqb_spec (zlen buf) 0); [by apply wp_ret|].
  assert (Hout : wp (stdout_write buf) (fun k s' => k = zlen buf /\ good s' /\ write_fits s' fd n) (fun _ => good) s).
  { eapply wp_mono; [apply (wp_output (fun s' => good s' /\ write_fits s' fd n))|done|by intros e s' [? _]].
    - intros s' d [? ?]. split; [by apply good_dev|done].
    - intros s' b [? ?]. split; [by apply good_buffer|done].
    - done. }
  unfold obj_write. apply wp_bind. destruct (good_objmap s fd a Hs Hf) as [o Ha]. eapply wp_ok; [unfold deref; by rewrite Ha|].
  destruct o as [pos i|pos i|i idx|l| | |]; try (by apply wp_fail); try done.
  destruct (ram_object s a pos i Hs Ha) as [r Hi]. specialize (Hfit a pos i Hf Ha).
  destruct (run_write s fd a pos i r (proj1 Hs) Hf Ha Hi buf ltac:(lia) ltac:(lia)) as (s' & Hrun & r' & _ & _ & Ho' & Honly & Hs').
  unfold fd_write in Hrun. rewrite (sbind_ok _ _ _ _ _ (run_get_object s fd a Hf)) in Hrun. replace (zlen buf =? 0) with false in Hrun by (symmetry; lia).
  unfold obj_write in Hrun. rewrite (sbind_ok _ _ _ _ _ (deref_object s a pos i Ha)) in Hrun. eapply wp_ok; [exact Hrun|].
  destruct Honly as (_ & _ & Er & _ & _ & Em & _). split; [done|]. split; [split; [done|rewrite Er; apply Hs]|].
  intros a' pos' i' Hf' Ha'. rewrite Em, Hf in Hf'. injection Hf' as <-. rewrite Ho' in Ha'. injection Ha' as <- <-. lia.
Qed.

Lemma wp_fd_lseek s fd offset whence :
  good s -> - ISIZE_MAX - 1 <= offset <= ISIZE_MAX -> wp (fd_lseek fd offset whence) (fun _ => good) (fun _ => good) s.
Proof.
  intros Hs Ho. unfold fd_lseek. apply wp_bind, wp_get_object; [intros a Hf|by intros _].
  unfold obj_lseek. apply wp_deref_object; [by eapply good_objmap|]. intros [pos i|pos i|i idx|l| | |] Ha; try by apply wp_fail.
  - by apply wp_rom_lseek.
  - destruct (ram_object s a pos i Hs Ha) as [r Hi]. destruct (size_range s i r (proj1 Hs) Hi) as [H2 H3].
    pose proof (ram_lseek_run s fd a pos i r (proj1 Hs) Hf Ha Hi offset whence Ho) as H.
    destruct (seek_target _ _ _ _) as [e|p]; [apply wp_bind; by eapply wp_err|].
    destruct (Z.ltb_spec p 0); [apply wp_bind; by eapply wp_err|]. destruct H as (attr & H1 & Hp & Hrun).
    assert (zlen (ram_data r ++ zeros (p - zlen (ram_data r))) = Z.max (zlen (ram_data r)) p).
    { rewrite zlen_app. destruct (Z_le_gt_dec p (zlen (ram_data r))); [rewrite zeros_nonpos by lia; change (zlen (@nil byte)) with 0; lia|rewrite zlen_zeros; lia]. }
    eapply wp_ram_op; [done|by eexists|done|exact Hrun|lia|lia|lia].
  - apply wp_bind. unfold dir_lseek. destruct (_ && _); [by apply wp_fail|].
    apply wp_ret, wp_bind, wp_put_object; [done|by eexists|by apply (good_objects s a _ Hs Ha)|]. intros s' Hs'. by apply wp_ret.
Qed.

Lemma wp_obj_truncate s a size :
  good s -> is_Some (fs_objects s !! a) -> 0 <= size <= ISIZE_MAX -> wp (obj_truncate a size) (fun _ => good) (fun _ => good) s.
Proof.
  intros Hs Ha Hl. apply wp_deref_object; [done|]. intros [pos i|pos i|i idx|l| | |] Ho; try by apply wp_fail.
  destruct (ram_object s a pos i Hs Ho) as [r Hi]. destruct (ram_truncate_run s i r Hi size Hl) as (attr & H1 & Hrun).
  eapply wp_ok; [exact Hrun|]. eapply good_put_ram; [done|done|..]; cbn; rewrite zlen_resize; lia.
Qed.

Lemma wp_fd_truncate s fd size : good s -> 0 <= size <= ISIZE_MAX -> wp (fd_truncate fd size) (fun _ => good) (fun _ => good) s.
Proof.
  intros Hs Hl. apply wp_bind, wp_get_object; [intros a Hf|by intros _]. apply wp_obj_truncate; [done|by eapply good_objmap|done].
Qed.

Lemma safe_truncate name size : 0 <= size <= ISIZE_MAX -> safe (truncate name size).
Proof.
  intros Hl. apply safe_relative. intros p s Hs. destruct (root_pair s Hs) as (r & x & Hr). apply wp_bind.
  eapply wp_ok; [unfold root_node, sbind, sgets, sopt; rewrite Hr; done|]. apply wp_bind, wp_catch.
  eapply wp_mono; [by apply wp_open| |intros e s' Hs'; by apply wp_fail]. intros a s' [Hs' Ha]. by apply wp_obj_truncate.
Qed.

Lemma safe_chmod fd mode : safe (fd_chmod fd mode).
Proof.
  intros s Hs. apply wp_bind, wp_get_object; [intros a Hf|by intros _]. apply wp_deref_object; [by eapply good_objmap|].
  intros [pos i|pos i|i idx|l| | |] Ho; try by apply wp_fail. destruct (ram_object s a pos i Hs Ho) as [r Hi].
  apply wp_bind. eapply wp_deref_ram; [done|]. destruct (size_range s i r (proj1 Hs) Hi) as [H1 H2]. apply wp_modify. eapply good_put_ram; [done|done|done|]. cbn. lia.
Qed.

Lemma safe_fstat fd : safe (fd_fstat fd).
Proof.
  intros s Hs. apply wp_bind, wp_get_object; [intros a Hf|by intros _]. apply wp_deref_object; [by eapply good_objmap|].
  intros [pos i|pos i|i idx|l| | |] Ho; try (by apply wp_fail); try (by apply wp_ret).
  - destruct (good_objects s a _ Hs Ho) as (r & Hi & _). apply wp_bind. eapply wp_deref_rom; [done|]. by apply wp_ret.
  - destruct (ram_object s a pos i Hs Ho) as [r Hi]. apply wp_bind. eapply wp_deref_ram; [done|]. by apply wp_ret.
Qed.

Lemma safe_isatty fd : safe (fd_isatty fd).
Proof.
  intros s Hs. apply wp_bind, wp_get_object; [intros a Hf|by intros _]. apply wp_deref_object; [by eapply good_objmap|].
  intros [] _; by apply wp_ret.
Qed.

(** The length of a directory record has 16 bits. *)
Definition records_fit (s : Fs) (fd : Z) : Prop :=
  forall a i idx m name, fs_objmap s !! fd = Some a -> fs_objects s !! a = Some (MemDirectoryInterface i idx) ->
  fs_dirs s !! i = Some m -> is_Some (m !! name) -> align8 (DIRENT_NAME + zlen name + 1) <= U16_MAX.

(** A directory stream of [opendir]: [DirectoryReader::getdents] is [unimplemented!()]. *)
Definition is_stream (s : Fs) (fd : Z) : bool :=
  match fs_objmap s !! fd ≫= (fun a => fs_objects s !! a) with Some (DirectoryReader _) => true | _ => false end.

Lemma getdents_loop_returns names len pad : forall offset,
  Forall (fun name => align8 (DIRENT_NAME + zlen name + 1) <= U16_MAX) names ->
  exists n b ret, getdents_loop names len pad offset = Ok (n, b, ret).
Proof.
  induction names as [|name names IH]; intros offset Hok; cbn [getdents_loop]; [by eexists _, _, _|].
  apply Forall_cons in Hok as [H Hok]. destruct (len <? _); [by eexists _, _, _|]. guard_false (U16_MAX <? align8 (DIRENT_NAME + zlen name + 1)).
  cbn match. destruct (IH (align8 (offset + (DIRENT_NAME + zlen name + 1))) Hok) as (n & b & ret & ->). by eexists _, _, _.
Qed.

Lemma wp_getdents s fd a len pad :
  good s -> records_fit s fd -> is_stream s fd = false -> fs_objmap s !! fd = Some a ->
  wp (obj_getdents a len pad) (fun _ => good) (fun _ => good) s.
Proof.
  intros Hs Hl Hst Hf. apply wp_deref_object; [by eapply good_objmap|]. intros o Ho.
  unfold is_stream in Hst. rewrite Hf in Hst. cbn in Hst. rewrite Ho in Hst.
  destruct o as [pos i|pos i|i idx|l| | |]; [by apply wp_fail|by apply wp_fail| |done|by apply wp_fail..]. destruct (good_objects s a _ Hs Ho) as [m Hm].
  apply wp_bind. unfold dir_getdents. apply wp_bind. eapply wp_ok; [unfold deref; by rewrite Hm|]. apply wp_bind.
  destruct (getdents_loop_returns (zdrop idx (dir_keys m)) len pad 0) as (n & b & ret & E).
  { apply Forall_drop, Forall_forall. intros name Hn. apply (Hl a i idx m name Hf Ho Hm). by apply elem_of_keys. }
  eapply wp_lift_ok; [exact E|]. apply wp_ret, wp_bind, wp_put_object; [done|by eexists|by eexists|]. intros s' Hs'. by apply wp_ret.
Qed.

(** ** Descriptors *)

Lemma good_set_objmap s m : good s -> (forall fd a, m !! fd = Some a -> is_Some (fs_objects s !! a)) -> good (set_objmap m s).
Proof. intros Hs Hm. by apply (good_frame s). Qed.

Lemma safe_dup fd : safe (dup_object fd).
Proof.
  intros s Hs. pose proof (new_fd_spec (fs_objmap s)) as H. unfold dup_object. apply wp_bind, wp_gets, wp_bind.
  destruct (fs_objmap s !! fd) as [a|] eqn:Hf; [|by apply wp_fail]. apply wp_ret, wp_bind.
  destruct (new_fd (fs_objmap s)) as [n|e| |]; [|by eapply wp_lift_err|done..]. eapply wp_lift_ok; [done|].
  destruct (fs_objmap s !! n); [by apply wp_fail|]. apply wp_bind, wp_modify, wp_ret, good_set_objmap; [done|].
  intros fd' b [[<- <-]|[_ Hb]]%lookup_insert_Some; by eapply good_objmap.
Qed.

Lemma safe_dup2 fd1 fd2 : safe (dup_object2 fd1 fd2).
Proof.
  intros s Hs. unfold dup_object2. apply wp_bind, wp_gets, wp_bind.
  destruct (fs_objmap s !! fd1) as [a|] eqn:Hf; [|by apply wp_fail]. apply wp_ret.
  destruct (fs_objmap s !! fd2); [by apply wp_fail|]. apply wp_bind, wp_modify, wp_ret, good_set_objmap; [done|].
  intros fd' b [[<- <-]|[_ Hb]]%lookup_insert_Some; by eapply good_objmap.
Qed.

Lemma safe_remove_object fd : safe (remove_object fd).
Proof.
  intros s Hs. unfold remove_object. apply wp_bind, wp_gets, wp_bind.
  destruct (fs_objmap s !! fd) as [a|] eqn:Hf; [|by apply wp_fail]. apply wp_ret, wp_bind, wp_modify, wp_ret, good_set_objmap; [done|].
  intros fd' b [_ Hb]%lookup_delete_Some. by eapply good_objmap.
Qed.

(** ** The system calls *)

Inductive FileCall :=
| CUnlink (name : bytes) | CMkdir (name : bytes) (mode : Z) | CRmdir (name : bytes)
| CStat (name : bytes) | CFstat (fd : Z) (null : bool) | COpendir (name : option bytes)
| COpen (name : option bytes) (flags mode : Z) | CGetcwd (null : bool) (size : Z) (after : bytes)
| CChdir (name : option bytes) | CUmask (mask : Z)
| CFaccessat (dirfd : Z) (name : option bytes) (flags : Z) | CAccess (name : option bytes) (flags : Z)
| CFchmod (fd mode : Z) | CClose (fd : Z)
| CRead (fd len : Z) | CReadv (fd : Z) (lens : list Z) | CWrite (fd : Z) (buf : bytes) | CWritev (fd : Z) (bufs : list bytes)
| CFtruncate (fd size : Z) | CTruncate (name : option bytes) (size : Z)
| CFcntl (fd cmd arg : Z) | CLseek (fd offset whence : Z)
| CGetdents (fd : Z) (null : bool) (count : Z) (pad : Z -> byte)
| CDup (fd : Z) | CDup2 (fd1 fd2 : Z) | CIsatty (fd : Z).

Definition ignore {A} (c : ST Fs Errno A) : ST Fs Errno unit := let! _ := c in sret tt.

Definition run_call (c : FileCall) : ST Fs Errno unit :=
  match c with
  | CUnlink name => ignore (sys_unlink (Some name))
  | CMkdir name mode => ignore (sys_mkdir (Some name) mode)
  | CRmdir name => ignore (sys_rmdir (Some name))
  | CStat name => ignore (sys_stat (Some name))
  | CFstat fd null => ignore (sys_fstat fd null)
  | COpendir name => ignore (sys_opendir name)
  | COpen name flags mode => ignore (sys_open name flags mode)
  | CGetcwd null size after => ignore (sys_getcwd null size after)
  | CChdir name => ignore (sys_chdir name)
  | CUmask mask => ignore (sys_umask mask)
  | CFaccessat dirfd name flags => ignore (sys_faccessat dirfd name flags)
  | CAccess name flags => ignore (sys_access name flags)
  | CFchmod fd mode => ignore (sys_fchmod fd mode)
  | CClose fd => ignore (sys_close fd)
  | CRead fd len => ignore (sys_read fd len)
  | CReadv fd lens => ignore (sys_readv fd lens)
  | CWrite fd buf => ignore (sys_write fd buf)
  | CWritev fd bufs => ignore (sys_writev fd bufs)
  | CFtruncate fd size => ignore (sys_ftruncate fd size)
  | CTruncate name size => ignore (sys_truncate name size)
  | CFcntl fd cmd arg => ignore (sys_fcntl fd cmd arg)
  | CLseek fd offset whence => ignore (sys_lseek fd offset whence)
  | CGetdents fd null count pad => ignore (sys_getdents64 fd null count pad)
  | CDup fd => ignore (sys_dup fd)
  | CDup2 fd1 fd2 => ignore (sys_dup2 fd1 fd2)
  | CIsatty fd => ignore (sys_isatty fd)
  end.

(** What a call has to respect: lengths that are lengths, file sizes up to [isize::MAX], and
    names short enough for a directory record. *)
Definition call_ok (s : Fs) (c : FileCall) : Prop :=
  match c with
  | CRead _ len => 0 <= len
  | CReadv _ lens => Forall (fun len => 0 <= len) lens
  | CWrite fd buf => write_fits s fd (zlen buf)
  | CWritev fd bufs => write_fits s fd (zlen (mjoin bufs))
  | CFtruncate _ size | CTruncate _ size => 0 <= size <= ISIZE_MAX
  | CLseek _ offset whence => - ISIZE_MAX - 1 <= offset <= ISIZE_MAX
  | CGetdents fd _ _ _ => records_fit s fd
  | _ => True
  end.

(** The calls that panic: a [whence] that is none, and listing a stream of [opendir]. *)
Definition call_panics (s : Fs) (c : FileCall) : bool :=
  match c with
  | CLseek _ _ whence => negb ((0 <=? whence) && (whence <=? 4))
  | CGetdents fd null count _ => negb (null || (count =? 0)) && is_stream s fd
  | _ => false
  end.

Lemma call_panics_run s c : call_panics s c = true -> run_call c s = (s, Panic).
Proof.
  destruct c as [| | | | | | | | | | | | | | | | | | | | |fd offset whence|fd null count pad| | |]; try done; cbn [call_panics run_call]; intros Hp.
  - assert (seek_whence whence = None) as E.
    { unfold seek_whence. repeat (case_match; try done). }
    unfold ignore, sys_lseek. by rewrite E.
  - apply andb_true_iff in Hp as [Hn Hs]. unfold ignore, sys_getdents64. destruct (null || (count =? 0)); [done|].
    unfold is_stream in Hs. destruct (fs_objmap s !! fd) as [a|] eqn:Hf; [|done]. cbn in Hs.
    destruct (fs_objects s !! a) as [[| | |l| | |]|] eqn:Ho; try done.
    unfold get_object, obj_getdents, scatch, sbind, sgets, sopt, deref. rewrite Hf. cbn. by rewrite Ho.
Qed.

Lemma safe_named name k : (forall n, safe (k n)) -> safe (named name k).
Proof. intros Hk. destruct name; [apply Hk|apply safe_ret]. Qed.

Lemma safe_access_code flags name : safe (access_code flags name).
Proof.
  apply safe_bind; [apply safe_catch, safe_relative; intros p; apply safe_stat|]. intros [a|e]; apply safe_ret.
Qed.

Lemma safe_create_dir path mode : safe (create_dir path mode).
Proof. apply safe_bind; [apply safe_gets|]. intros mask. apply safe_relative. intros p. apply safe_mkdir. Qed.

Lemma safe_set_cwd cwd : safe (set_cwd cwd).
Proof.
  unfold set_cwd. destruct (starts_with_slash cwd); [by apply safe_cell|]. apply safe_bind; [apply safe_gets|]. intros d.
  apply safe_bind; [apply safe_opt|]. intros d'. by apply safe_cell.
Qed.

Lemma safe_getcwd null size after : safe (sys_getcwd null size after).
Proof.
  unfold sys_getcwd. destruct (size =? 0); [apply safe_ret|]. destruct null; [apply safe_ret|].
  apply safe_bind; [apply safe_catch, safe_bind; [apply safe_gets|intros cwd; apply safe_opt]|].
  intros [cwd|e]; [|apply safe_ret]. case_bool_decide; [apply safe_ret|]. destruct (_ <? _); apply safe_ret.
Qed.

Lemma safe_fcntl fd cmd arg : safe (sys_fcntl fd cmd arg).
Proof.
  unfold sys_fcntl. destruct (_ && _); [apply safe_ret|]. destruct (_ || _); [|apply safe_ret].
  intros s Hs. apply wp_bind, wp_catch, wp_get_object; [intros a Hf|intros _; by apply wp_ret].
  apply wp_deref_object; [by eapply good_objmap|]. intros o _. by apply wp_ret.
Qed.

Lemma wp_code {A} (c : ST Fs Errno A) f s :
  wp c (fun _ => good) (fun _ => good) s -> wp (code c f) (fun _ => good) (fun _ => good) s.
Proof. intros Hc. apply wp_bind, wp_catch. eapply wp_mono; [exact Hc|..]; intros ? ? ?; by apply wp_ret. Qed.

Lemma wp_sys_read s fd len : good s -> 0 <= len -> wp (sys_read fd len) (fun _ => good) (fun _ => good) s.
Proof. intros Hs Hl. apply wp_bind, wp_catch. eapply wp_mono; [by apply wp_fd_read|..]; intros ? ? ?; by apply wp_ret. Qed.

Lemma wp_readv fd lens : Forall (fun len => 0 <= len) lens -> forall total, safe (readv_loop fd lens total).
Proof.
  induction 1 as [|len lens Hl _ IH]; intros total; [apply safe_ret|]. intros s Hs. apply wp_bind.
  eapply wp_mono; [by apply wp_sys_read| |done]. intros [b n] s' Hs'. destruct (n <? 0); [by apply wp_ret|].
  destruct (n <? len); [by apply wp_ret|]. apply wp_bind. eapply wp_mono; [by apply IH| |done]. intros [bs r] s'' Hs''. by apply wp_ret.
Qed.

Lemma wp_writev fd bufs : forall total s, good s -> write_fits s fd (zlen (mjoin bufs)) ->
  wp (writev_loop fd bufs total) (fun _ => good) (fun _ => good) s.
Proof.
  induction bufs as [|buf bufs IH]; intros total s Hs Hfit; [by apply wp_ret|]. cbn [writev_loop]. cbn [mjoin list_join] in Hfit. rewrite zlen_app in Hfit.
  apply wp_bind, wp_bind, wp_catch. eapply wp_mono; [apply wp_fd_write; [done|exact Hfit|apply zlen_nonneg]|..].
  - intros n s' (_ & Hs' & Hf'). apply wp_ret. destruct (id n <? 0); [by apply wp_ret|]. destruct (_ <? _); [by apply wp_ret|by apply IH].
  - intros e s' Hs'. apply wp_ret. destruct (_ <? 0) eqn:E; [by apply wp_ret|]. destruct e; done.
Qed.

Lemma wp_unit {A} (c : ST Fs Errno A) s :
  wp c (fun _ => good) (fun _ => good) s -> wp (ignore c) (fun _ => good) (fun _ => good) s.
Proof. intros Hc. apply wp_bind. eapply wp_mono; [exact Hc|intros ? ? ?; by apply wp_ret|done]. Qed.

Lemma wp_call s c :
  good s -> call_ok s c -> call_panics s c = false -> wp (run_call c) (fun _ => good) (fun _ => good) s.
Proof.
  intros Hs Hc Hp. destruct c; cbn [run_call call_ok call_panics] in *; apply wp_unit; revert s Hs Hc Hp.
  all: try match goal with |- forall s, good s -> _ -> false = false -> _ => intros s Hs Hc _; revert s Hs Hc end.
  all: try match goal with |- forall s, good s -> True -> _ => intros s Hs _; revert s Hs end.
  - apply safe_bind; [apply safe_ret|]. intros n. apply safe_code, safe_relative. intros p. apply safe_remove.
  - apply safe_bind; [apply safe_ret|]. intros n. apply safe_code, safe_create_dir.
  - apply safe_bind; [apply safe_ret|]. intros n. apply safe_code, safe_relative. intros p. apply safe_remove.
  - apply safe_bind; [apply safe_ret|]. intros n. apply safe_bind; [apply safe_catch, safe_relative; intros p; apply safe_stat|]. intros [|]; apply safe_ret.
  - unfold sys_fstat. destruct null; [apply safe_ret|]. apply safe_bind; [apply safe_catch, safe_fstat|]. intros [|]; apply safe_ret.
  - apply safe_named. intros n. apply safe_code, safe_opendir.
  - unfold sys_open. destruct (negb _); [apply safe_ret|]. apply safe_named. intros n. apply safe_code, safe_open.
  - apply safe_getcwd.
  - apply safe_named. intros n. apply safe_code, safe_set_cwd.
  - apply safe_bind; [apply safe_gets|]. intros old. apply safe_bind; [by apply safe_cell|]. intros _. apply safe_ret.
  - unfold sys_faccessat. destruct (negb _); [apply safe_ret|]. apply safe_named. intros n. destruct (_ || _); [apply safe_access_code|apply safe_ret].
  - unfold sys_access. destruct (negb _); [apply safe_ret|]. destruct (_ && _); [apply safe_ret|]. apply safe_named. intros n. apply safe_access_code.
  - apply safe_code, safe_chmod.
  - apply safe_code, safe_remove_object.
  - intros s Hs Hl. by apply wp_sys_read.
  - intros s Hs Hl. unfold sys_readv. destruct (_ <? _); [by apply wp_ret|]. by apply wp_readv.
  - intros s Hs Hf. apply wp_code. eapply wp_mono; [apply (wp_fd_write s fd buf 0); [done|by rewrite Z.add_0_r|done]|by intros n s' (_ & ? & _)|done].
  - intros s Hs Hf. unfold sys_writev. destruct (_ <? _); [by apply wp_ret|]. by apply wp_writev.
  - intros s Hs Hl. by apply wp_code, wp_fd_truncate.
  - intros s Hs Hl. revert s Hs. apply safe_named. intros n. by apply safe_code, safe_truncate.
  - apply safe_fcntl.
  - intros s Hs Ho Hw. unfold sys_lseek. bool_to_prop. assert (exists w, seek_whence whence = Some w) as [w ->].
    { assert (whence = 0 \/ whence = 1 \/ whence = 2 \/ whence = 3 \/ whence = 4) as Hcase by lia. destruct Hcase as [->|[->|[->|[->| ->]]]]; by eexists. }
    by apply wp_code, wp_fd_lseek.
  - intros s Hs Hl Hp. unfold sys_getdents64. destruct (_ || _); [by apply wp_ret|].
    apply wp_bind, wp_catch, wp_get_object; [intros a Hf|intros _; by apply wp_ret].
    apply wp_bind, wp_catch. eapply wp_mono; [by eapply wp_getdents|..]; intros ? ? ?; by apply wp_ret.
  - apply safe_code, safe_dup.
  - apply safe_code, safe_dup2.
  - apply safe_code, safe_isatty.
Qed.

(** ** Boot *)

Lemma wp_write_all s fd buf n : good s -> write_fits s fd (zlen buf + n) -> 0 <= n -> forall fuel, (length buf <= fuel)%nat ->
  wp (file_write_all fuel fd buf) (fun _ s' => good s' /\ write_fits s' fd n) (fun _ => good) s.
Proof.
  intros Hs Hfit Hn fuel Hfuel. pose proof (zlen_nonneg buf). destruct (Z.eqb_spec (zlen buf) 0) as [Hz|Hz].
  - assert (write_fits s fd n) by (by rewrite Hz in Hfit). destruct fuel as [|fuel]; [by apply wp_ret|]. cbn [file_write_all].
    guard_true (zlen buf =? 0). by apply wp_ret.
  - destruct fuel as [|fuel]; [unfold zlen in *; lia|]. cbn [file_write_all]. guard_false (zlen buf =? 0). apply wp_bind.
    eapply wp_mono; [by apply wp_fd_write| |done]. intros k s' (-> & Hs' & Hfit'). guard_false (zlen buf =? 0).
    rewrite zdrop_all by lia. destruct fuel; by apply wp_ret.
Qed.

Lemma wp_write_pieces fd pieces : forall s, good s -> write_fits s fd (zlen (mjoin pieces)) ->
  wp (file_write_pieces fd pieces) (fun _ => good) (fun _ => good) s.
Proof.
  induction pieces as [|b pieces IH]; intros s Hs Hfit; [by apply wp_ret|]. cbn [mjoin list_join] in Hfit. rewrite zlen_app in Hfit.
  apply wp_bind. eapply wp_mono; [apply wp_write_all; [done|exact Hfit|apply zlen_nonneg|done]| |done]. intros _ s' [Hs' Hf']. by apply IH.
Qed.

(** A descriptor that was just opened is at the start of its file. *)
Lemma wp_open_start name flags mode s n :
  good s -> n <= ISIZE_MAX -> wp (open name flags mode) (fun fd s' => good s' /\ write_fits s' fd n) (fun _ => good) s.
Proof.
  intros Hs Hn.
  assert (Hp : forall p m s, good s -> wp (let! file := fs_open p flags m in insert_object file) (fun fd s' => good s' /\ write_fits s' fd n) (fun _ => good) s).
  { clear s Hs. intros p m s Hs. apply wp_bind. destruct (root_pair s Hs) as (r & x & Hr). pose proof (components_open s p flags m r x (proj1 Hs) Hr) as H.
    assert (Hins : forall s' a o, good s' -> fs_objects s' !! a = Some o -> (forall pos i, o = RamFileInterface pos i -> pos = 0) ->
      wp (insert_object a) (fun fd s' => good s' /\ write_fits s' fd n) (fun _ => good) s').
    { intros s' a o Hs' Ha Ho. pose proof (wp_insert_object s' a Hs' ltac:(by eexists)) as Hi. pose proof (new_fd_spec (fs_objmap s')) as Hfd.
      revert Hi. unfold insert_object. intros Hi. eapply wp_mono; [eapply (wp_conj _ _ (fun fd s'' => fs_objmap s'' !! fd = Some a /\ fs_objects s'' !! a = Some o) _ (fun _ _ => True)); [exact Hi|]| |by intros ? ? [? _]].
      - apply wp_bind, wp_gets, wp_bind. destruct (new_fd (fs_objmap s')) as [fd|e| |]; [|by eapply wp_lift_err|done..].
        eapply wp_lift_ok; [done|]. apply wp_bind, wp_modify, wp_ret. cbn. by rewrite lookup_insert_eq.
      - intros fd s'' [Hg [Hf Hob]]. split; [done|]. intros a' pos i Hf' Ha'. rewrite Hf in Hf'. injection Hf' as <-. rewrite Hob in Ha'.
        injection Ha' as Ha'. rewrite (Ho _ _ Ha'). lia. }
    destruct (ns_open _ _ _) as [e|[nd|]]; [by eapply wp_err|..].
    - destruct H as (s' & a & H & ? & ? & _ & E & _). eapply wp_ok; [done|]. eapply Hins; [by eapply keeps_root|done|]. intros pos i. by destruct nd; cbn; intros [= <-].
    - destruct H as (s' & a & j & attr & H & ? & ? & _ & E & _). eapply wp_ok; [done|]. eapply Hins; [by eapply keeps_root|done|]. by intros pos i [= <- _]. }
  unfold open. apply wp_bind, wp_gets. unfold with_relative_filename. destruct (starts_with_slash name); [by apply Hp|].
  apply wp_bind, wp_gets, wp_bind. destruct (fs_cwd s); [apply wp_ret; by apply Hp|by apply wp_fail].
Qed.

End safety.
