(* ===== verification/FileProperties.v ===== *)
(** * The file system: its properties, with closed witnesses and examples *)

From stdpp Require Import gmap sorting.
From S2P Require Import Prelude Vfs VfsSpec VfsTheorems Files FilesTheorems DirListing FilesSafety.

(** ** The namespace *)

Section namespace.
Context {W : Devices}.

Inductive NsOp :=
| NMkdir (path : bytes) (mode : Z)
| NRmdir (path : bytes)
| NUnlink (path : bytes)
| NCreateFile (path data : bytes) (mode : Z)
| NOpen (path : bytes) (opt mode : Z).

Inductive NsRes := NDone | NObject (a : Z).

Definition run_ns_op (op : NsOp) : ST Fs Errno NsRes :=
  match op with
  | NMkdir path mode => let! _ := fs_mkdir path mode in sret NDone
  | NRmdir path => let! _ := fs_rmdir path in sret NDone
  | NUnlink path => let! _ := fs_unlink path in sret NDone
  | NCreateFile path data mode => let! _ := fs_create_file path data mode in sret NDone
  | NOpen path opt mode => let! a := fs_open path opt mode in sret (NObject a)
  end.

Definition ns_error (ns : namespace) (op : NsOp) : option Errno :=
  match op with
  | NMkdir path _ => ns_mkdir ns (components path)
  | NRmdir path => ns_unlink KDirectory Notdir ns (components path)
  | NUnlink path => ns_unlink KFile Isdir ns (components path)
  | NCreateFile path _ _ => ns_create_file ns (components path)
  | NOpen path opt _ => match ns_open ns (components path) opt with inl e => Some e | inr _ => None end
  end.

(** A namespace changed at one path. *)
Definition ns_at (p : list bytes) (o : option VfsNode) (ns : namespace) : namespace :=
  fun q => if decide (q = p) then o else ns q.

Definition nothing_below (ns : namespace) (p : list bytes) : Prop :=
  forall q, p `prefix_of` q -> q <> p -> ns q = None.

(** A directory to be removed is empty, and no directory with contents is in the way of a
    file to be created. *)
Definition keeps_contents (ns : namespace) (op : NsOp) : Prop :=
  match op with
  | NRmdir path | NCreateFile path _ _ => nothing_below ns (components path)
  | _ => True
  end.

(** The namespace after the operation, and what is new. *)
Definition ns_effect (s s' : Fs) (op : NsOp) (res : NsRes) : Prop :=
  match op with
  | NMkdir path mode => exists a attr, st_mode attr = Z.lor mode S_IFDIR /\
      forall q, ns_of s' q = ns_at (components path) (Some (MemDirectory a attr)) (ns_of s) q
  | NRmdir path | NUnlink path => forall q, ns_of s' q = ns_at (components path) None (ns_of s) q
  | NCreateFile path data mode => exists i attr, fs_roms s !! i = None /\ fs_roms s' !! i = Some (mkRomFileInner data attr) /\
      st_mode attr = Z.lor mode S_IFREG /\
      forall q, ns_of s' q = ns_at (components path) (Some (RomFile i)) (ns_of s) q
  | NOpen path opt mode => exists a, res = NObject a /\ fs_objects s !! a = None /\
      match ns_of s (components path) with
      | Some n => fs_objects s' !! a = Some (node_object n) /\ forall q, ns_of s' q = ns_of s q
      | None => exists i attr, fs_objects s' !! a = Some (RamFileInterface 0 i) /\ fs_rams s !! i = None /\
          fs_rams s' !! i = Some (mkRamFileInner [] attr) /\ st_mode attr = Z.lor mode S_IFREG /\
          forall q, ns_of s' q = ns_at (components path) (Some (RamFile i)) (ns_of s) q
      end
  end.

Definition data_fits (op : NsOp) : Prop :=
  match op with NCreateFile _ data _ => zlen data <= ISIZE_MAX | _ => True end.

Lemma lift_run {A} (c : ST Fs Errno A) (f : A -> NsRes) s :
  (let! a := c in sret (f a)) s =
  match c s with (s', Ok a) => (s', Ok (f a)) | (s', Err e) => (s', Err e) | (s', Panic) => (s', Panic) | (s', OutOfFuel) => (s', OutOfFuel) end.
Proof. unfold sbind, sret. by destruct (c s) as [? []]. Qed.

Lemma below_not_dir s p :
  match ns_of s p with Some n => is_dir n = false | None => True end -> nothing_below (ns_of s) p.
Proof.
  unfold ns_of. destruct (fs_root s) as [[r x]|]; [|done]. intros Hp q [k ->] Hne.
  rewrite walk_app. destruct (walk s (MemDirectory r x) p) as [n|]; [|done].
  destruct k as [|c k]; [by rewrite app_nil_r in Hne|]. by destruct n.
Qed.

Lemma insert_at s p n q : nothing_below (ns_of s) p -> ns_insert p n (ns_of s) q = ns_at p (Some n) (ns_of s) q.
Proof. intros H. unfold ns_insert, ns_at. repeat case_decide; try done. by rewrite H. Qed.

Lemma remove_at s p q : nothing_below (ns_of s) p -> ns_remove p (ns_of s) q = ns_at p None (ns_of s) q.
Proof.
  intros H. unfold ns_remove, ns_at. repeat case_decide; subst; try done; by rewrite H.
Qed.

Lemma mkdir_absent ns p : ns_mkdir ns p = None -> ns p = None.
Proof. unfold ns_mkdir. destruct p; [done|]. destruct (ns_way _ _ _ _ _); [done|]. by destruct (ns _). Qed.

Lemma unlink_file ns p n : ns_unlink KFile Isdir ns p = None -> ns p = Some n -> is_dir n = false.
Proof.
  unfold ns_unlink. destruct p; [done|]. destruct (ns_way _ _ _ _ _); [done|]. intros H Hn. rewrite Hn in H.
  case_decide as Hk; [|done]. by destruct n.
Qed.

(** C33: the directories behave as a namespace from paths to nodes.  Making a directory,
    removing an empty one, removing a file, creating a file (where no directory with
    contents is in the way) and opening give the specified error and change nothing, or
    change the namespace at the given path alone, as specified, and never a file that
    exists, an open object or a descriptor. *)
Theorem namespace_refines s op :
  fs_ok s -> is_Some (fs_root s) -> data_fits op -> keeps_contents (ns_of s) op ->
  match ns_error (ns_of s) op with
  | Some e => run_ns_op op s = (s, Err e)
  | None => exists s' res, run_ns_op op s = (s', Ok res) /\ fs_ok s' /\ keeps_files s s' /\ ns_effect s s' op res
  end.
Proof.
  intros Hs [[r x] Hr] Hfit Hbelow. destruct op as [path mode|path|path|path data mode|path opt mode];
    cbn [ns_error run_ns_op ns_effect keeps_contents] in *; rewrite lift_run.
  - pose proof (components_mkdir s path mode r x Hs Hr) as H. destruct (ns_mkdir _ _) eqn:E; [by rewrite H|].
    destruct H as (s' & a & attr & -> & ? & ? & ? & Hns). eexists _, _. split; [done|]. do 2 (split; [done|]).
    exists a, attr. split; [done|]. intros q. rewrite Hns. apply insert_at, below_not_dir. by rewrite (mkdir_absent _ _ E).
  - pose proof (components_remove s KDirectory Notdir path r x Hs Hr) as H. unfold fs_rmdir, traverse_rmdir. rewrite (root_node_run s r x _ Hr).
    destruct (ns_unlink _ _ _ _); [by rewrite H|]. destruct H as (s' & -> & ? & ? & Hns). eexists _, _. split; [done|].
    do 2 (split; [done|]). intros q. rewrite Hns. by apply remove_at.
  - pose proof (components_remove s KFile Isdir path r x Hs Hr) as H. unfold fs_unlink, traverse_unlink. rewrite (root_node_run s r x _ Hr).
    destruct (ns_unlink _ _ _ _) eqn:E; [by rewrite H|]. destruct H as (s' & -> & ? & ? & Hns). eexists _, _. split; [done|].
    do 2 (split; [done|]). intros q. rewrite Hns. apply remove_at, below_not_dir.
    destruct (ns_of s (components path)) eqn:En; [by eapply unlink_file|done].
  - pose proof (components_create_file s path data mode r x Hs Hr Hfit) as H. destruct (ns_create_file _ _); [by rewrite H|].
    destruct H as (s' & i & attr & -> & ? & ? & ? & ? & ? & Hns). eexists _, _. split; [done|].
    do 2 (split; [done|]). exists i, attr. do 3 (split; [done|]). intros q. rewrite Hns. by apply insert_at.
  - pose proof (components_open s path opt mode r x Hs Hr) as H. pose proof (ns_open_node (ns_of s) (components path) opt) as Hn.
    destruct (ns_open _ _ _) as [e|o]; [by rewrite H|]. rewrite Hn. destruct o as [n|].
    + destruct H as (s' & a & -> & ? & ? & ? & ? & _ & _ & ?). eexists _, _. split; [done|]. by eauto 10.
    + destruct H as (s' & a & i & attr & -> & ? & ? & ? & ? & ? & ? & ? & Hns). eexists _, _. split; [done|]. do 2 (split; [done|]).
      exists a. do 2 (split; [done|]). exists i, attr. do 4 (split; [done|]). intros q. rewrite Hns.
      apply insert_at, below_not_dir. by rewrite Hn.
Qed.

End namespace.

(** ** Boot, and every sequence of calls *)

Section reach.
Context {W : Devices}.

Inductive reach (version : list bytes) : Fs -> Prop :=
| reach_init now d s : fs_init version (boot_fs now d) = (s, Ok tt) -> reach version s
| reach_tick s now : reach version s -> reach version (set_now now s)
| reach_call s c s' : reach version s -> call_ok s c -> run_call c s = (s', Ok tt) -> reach version s'.

Definition root_state (now : Z) (d : dev) : Fs :=
  let s := boot_fs now d in
  set_root (Some (3, set_times (from_usec (as_i64 now)) (set_mode (Z.lor 0x1ff S_IFDIR) default_attr)))
    (set_dirs (<[3 := ∅]> ∅) (set_next 4 s)).

Lemma root_state_good now d : good (root_state now d).
Proof.
  assert (Hno : forall a c n, ~ entry (root_state now d) a c n).
  { intros a c n (m & Hm & Hc). cbn in Hm. apply lookup_insert_Some in Hm as [[<- <-]|[_ Hm]]; [by rewrite lookup_empty in Hc|by rewrite lookup_empty in Hm]. }
  split; [split|by eexists]; constructor; cbn.
  - intros a [[? H]|[[? H]|[[? H]|[? H]]]]; try by rewrite lookup_empty in H.
    + apply lookup_insert_Some in H as [[<- _]|[_ H]]; [lia|by rewrite lookup_empty in H].
    + repeat (apply lookup_insert_Some in H as [[<- _]|[_ H]]; [lia|]). apply lookup_singleton_Some in H as [<- _]. lia.
  - intros a c n H. by apply Hno in H.
  - intros ? ? ? ? ? ? ? H. by apply Hno in H.
  - intros r x [= <- <-]. split; [by eexists|]. intros a c y. apply Hno.
  - intros a r H. by rewrite lookup_empty in H.
  - intros a r H. by rewrite lookup_empty in H.
  - intros a o H. repeat (apply lookup_insert_Some in H as [[<- <-]|[_ H]]; [done|]). by apply lookup_singleton_Some in H as [<- <-].
  - intros fd a H. repeat (apply lookup_insert_Some in H as [[<- <-]|[_ H]]; [by eexists|]). apply lookup_singleton_Some in H as [<- <-]. by eexists.
Qed.

Lemma root_state_ns now d c : ns_of (root_state now d) [c] = None.
Proof. rewrite (ns_of_root (root_state now d) 3 _ eq_refl), walk_entry. cbn. by rewrite lookup_insert_eq. Qed.

(** A directory of the root is made when its name is free. *)
Lemma wp_expect_mkdir s c path mode (X : Errno -> Fs -> Prop) :
  good s -> components path = [c] -> ns_of s [c] = None ->
  wp (expect (fs_mkdir path mode)) (fun _ s' => good s' /\ forall q, ~ [c] `prefix_of` q -> ns_of s' q = ns_of s q) X s.
Proof.
  intros Hs Hp Hn. destruct (root_pair s Hs) as (r & x & Hr). pose proof (components_mkdir s path mode r x (proj1 Hs) Hr) as H.
  rewrite Hp in H. cbn [ns_mkdir ns_way] in H. rewrite Hn in H. destruct H as (s' & a & attr & Hrun & Hs' & Hk & _ & Hns).
  apply wp_bind, wp_catch. eapply wp_ok; [exact Hrun|]. apply wp_ret. split; [by eapply keeps_root|]. intros q Hq. rewrite Hns.
  unfold ns_insert. rewrite !decide_False; [done|done|]. by intros ->.
Qed.

Lemma wp_init (Hdev : devices_ok) version now d (X : Errno -> Fs -> Prop) :
  zlen (mjoin version) <= ISIZE_MAX -> wp (fs_init version) (fun _ => good) X (boot_fs now d).
Proof.
  intros Hlen. unfold fs_init. apply wp_bind. eapply wp_ok; [done|]. apply wp_bind, wp_gets. cbn match. apply wp_bind, wp_modify.
  change (set_root _ _) with (root_state now d). apply wp_bind.
  eapply wp_mono; [apply (wp_expect_mkdir _ (bstr "tmp")); [apply root_state_good|done|apply root_state_ns]| |done].
  intros _ s1 [Hs1 Hn1]. apply wp_bind.
  eapply wp_mono; [apply (wp_expect_mkdir _ (bstr "proc") _ _ X); [done|done|]| |done].
  { rewrite Hn1; [apply root_state_ns|]. by intros [k [= ?]]. }
  intros _ s2 [Hs2 _]. apply wp_bind, wp_catch. unfold File_create.
  assert (Hend : forall s, good s -> wp (smodify (set_cwd_cell (Some (bstr "/tmp")))) (fun _ => good) X s).
  { intros s Hs. apply wp_modify, (good_frame s); try done. intros fd a Hfd. by apply (good_objmap s fd). }
  eapply wp_mono; [by apply (wp_open_start _ _ _ _ (zlen (mjoin version)))|..].
  - intros fd s3 [Hs3 Hf3]. apply wp_bind, wp_bind, wp_catch.
    assert (Hdrop : forall s, good s -> wp (File_drop fd) (fun _ s' => wp (smodify (set_cwd_cell (Some (bstr "/tmp")))) (fun _ => good) X s') X s).
    { intros s Hs. apply wp_bind, wp_catch. eapply wp_mono; [by apply safe_remove_object|..]; intros ? ? ?; by apply wp_ret, Hend. }
    eapply wp_mono; [by apply (wp_write_pieces Hdev)|..]; intros ? ? ?; by apply Hdrop.
  - intros e s3 Hs3. apply wp_bind, wp_ret. by apply Hend.
Qed.

Lemma reach_good (Hdev : devices_ok) version s : zlen (mjoin version) <= ISIZE_MAX -> reach version s -> good s.
Proof.
  intros Hlen. induction 1 as [now d s Hrun|s now _ IH|s c s' _ IH Hc Hrun].
  - pose proof (wp_init Hdev version now d (fun _ _ => True) Hlen) as H. 
    apply wp_run in H as [(s' & a & E & Hg)|(s' & e & E & _)]; rewrite Hrun in E; [by injection E as <- _|done].
  - apply (good_frame s); try done. intros fd a Hfd. by apply (good_objmap s fd).
  - destruct (call_panics s c) eqn:Hp; [by rewrite (call_panics_run _ _ Hp) in Hrun|].
    pose proof (wp_call Hdev s c IH Hc Hp) as H.
    apply wp_run in H as [(s'' & a & E & Hg)|(s'' & e & E & _)]; rewrite Hrun in E; [by injection E as <- _|done].
Qed.

(** C34: after boot and any sequence of file system calls, every call with file sizes up to
    [isize::MAX] and names below 64 KiB (and memory for the files: a failing allocation is
    not modelled) panics exactly when it gives an unknown [whence] or lists a descriptor of
    [opendir]; every other call returns, with a keyboard attached so that reads of standard
    input do not wait, and the invariant holds again: no descriptor, object or directory
    entry dangles, the directories are a tree, and the size of every file is the length of
    its contents. *)
Theorem file_calls_safe (Hdev : devices_ok) version s c :
  zlen (mjoin version) <= ISIZE_MAX -> reach version s -> call_ok s c ->
  fs_ok s /\ exists s' o, run_call c s = (s', o) /\
    if call_panics s c then o = Panic else returns o /\ fs_ok s'.
Proof.
  intros Hlen Hr Hc. pose proof (reach_good Hdev version s Hlen Hr) as Hs. split; [apply Hs|].
  destruct (call_panics s c) eqn:Hp; [eexists _, _; by rewrite (call_panics_run _ _ Hp)|].
  pose proof (wp_call Hdev s c Hs Hc Hp) as H. apply wp_run in H as [(s' & a & E & Hg)|(s' & e & E & Hg)].
  all: eexists _, _; split; [exact E|]; split; [done|apply Hg].
Qed.

End reach.

(** ** A machine: no keys pressed, the device keeps what is written *)

#[local] Instance echo_devices : Devices := {|
  dev := bytes;
  keyboard_read _ d := (d, []);
  keyboard_read_ready d := (d, false);
  keyboard_polling_enabled _ := true;
  device_read _ d := (d, Ok []);
  device_read_ready d := (d, Ok false);
  device_write_all b d := (d ++ b, Ok tt);
|}.

Lemma echo_devices_ok : devices_ok.
Proof. done. Qed.

(** The state after a run whose answer is known. *)
Lemma run_pair {A} (c : ST Fs Errno A) s o : snd (c s) = o -> c s = (fst (c s), o).
Proof. intros <-. by destruct (c s). Qed.

Definition demo_version : list bytes := [bstr "Hermit version "; bstr "0.10"].
Definition demo_fs : Fs := fst (fs_init demo_version (boot_fs 5000000 (@nil byte))).

Lemma demo_fs_reach : reach demo_version demo_fs.
Proof. apply (reach_init (W := echo_devices) _ 5000000 (@nil byte)). unfold demo_fs. apply run_pair. vm_compute. reflexivity. Qed.

Lemma demo_fs_good : good demo_fs.
Proof. by apply (reach_good echo_devices_ok demo_version demo_fs ltac:(done)), demo_fs_reach. Qed.

Definition empty_dir (s : Fs) (p : list bytes) : bool :=
  match ns_of s p with
  | Some (MemDirectory a _) => match fs_dirs s !! a with Some m => Nat.eqb (size m) 0 | None => false end
  | _ => false
  end.

Lemma empty_dir_below s p : empty_dir s p = true -> nothing_below (ns_of s) p.
Proof.
  unfold empty_dir, ns_of. destruct (fs_root s) as [[r x]|]; [|done].
  destruct (walk s (MemDirectory r x) p) as [[| |a y]|] eqn:Hw; try done.
  destruct (fs_dirs s !! a) as [m|] eqn:Hm; [|done]. intros Hz%Nat.eqb_eq%map_size_empty_inv q [k ->] Hne.
  rewrite walk_app, Hw. destruct k as [|c k]; [by rewrite app_nil_r in Hne|]. cbn. by rewrite Hm, Hz.
Qed.

(** The empty directory [/tmp] is removed. *)
Lemma namespace_refines_witness :
  ns_error (ns_of demo_fs) (NRmdir (bstr "/tmp")) = None /\
  match ns_error (ns_of demo_fs) (NRmdir (bstr "/tmp")) with
  | Some e => run_ns_op (NRmdir (bstr "/tmp")) demo_fs = (demo_fs, Err e)
  | None => exists s' res, run_ns_op (NRmdir (bstr "/tmp")) demo_fs = (s', Ok res) /\ fs_ok s' /\ keeps_files demo_fs s' /\
      ns_effect demo_fs s' (NRmdir (bstr "/tmp")) res
  end.
Proof.
  split; [vm_compute; reflexivity|].
  apply namespace_refines; [apply demo_fs_good|apply demo_fs_good|exact I|].
  apply (empty_dir_below demo_fs [bstr "tmp"]). vm_compute. reflexivity.
Defined.

(** A file under two descriptors, 3 and 4, and a directory under 5. *)
Definition demo_calls : ST Fs Errno (Z * Z * Z) :=
  let! a := sys_open (Some (bstr "notes")) (Z.lor O_CREAT O_RDWR) 0x1b6 in
  let! b := sys_open (Some (bstr "/tmp/notes")) O_RDWR 0 in
  let! c := sys_open (Some (bstr "/tmp")) O_DIRECTORY 0 in
  sret (a, b, c).
Definition demo_open : Fs := fst (demo_calls demo_fs).

Example demo_descriptors : snd (demo_calls demo_fs) = Ok (3, 4, 5).
Proof. vm_compute. reflexivity. Qed.

Lemma reach_after version s c : reach version s -> call_ok s c -> snd (run_call c s) = Ok tt -> reach version (fst (run_call c s)).
Proof. intros Hr Hc E. eapply reach_call; [done|done|]. by apply run_pair. Qed.

Definition demo_open_a : Fs := fst (run_call (COpen (Some (bstr "notes")) (Z.lor O_CREAT O_RDWR) 0x1b6) demo_fs).
Definition demo_open_b : Fs := fst (run_call (COpen (Some (bstr "/tmp/notes")) O_RDWR 0) demo_open_a).
Definition demo_open_c : Fs := fst (run_call (COpen (Some (bstr "/tmp")) O_DIRECTORY 0) demo_open_b).

Lemma demo_open_reach : reach demo_version demo_open_c.
Proof.
  apply reach_after; [apply reach_after; [apply reach_after; [apply demo_fs_reach|done|]|done|]|done|]; vm_compute; reflexivity.
Qed.

Lemma demo_open_good : good demo_open_c.
Proof. by apply (reach_good echo_devices_ok demo_version demo_open_c ltac:(done)), demo_open_reach. Qed.

(** The addresses behind the three descriptors. *)
Definition demo_objects : option (Z * Z * Z) :=
  a ← fs_objmap demo_open_c !! 3; b ← fs_objmap demo_open_c !! 4; c ← fs_objmap demo_open_c !! 5; Some (a, b, c).

Example demo_objects_at : demo_objects = Some (9, 10, 11) /\
  fs_objects demo_open_c !! 9 = Some (RamFileInterface 0 8) /\ fs_objects demo_open_c !! 10 = Some (RamFileInterface 0 8).
Proof. vm_compute. done. Qed.

Definition demo_file : RamFileInner :=
  match fs_rams demo_open_c !! 8 with Some r => r | None => mkRamFileInner [] default_attr end.

Lemma file_ops_refine_witness :
  exists s' r', run_file_op 3 (FWrite (bstr "hello")) demo_open_c = (s', Ok (RCount 5)) /\
    fs_rams s' !! 8 = Some r' /\ ram_data r' = bstr "hello" /\ fs_objects s' !! 9 = Some (RamFileInterface 5 8) /\
    only_file demo_open_c s' 8 9 /\ fs_ok s'.
Proof.
  apply (file_ops_refine demo_open_c 3 9 0 8 demo_file (FWrite (bstr "hello")));
    [apply demo_open_good|vm_compute; reflexivity..|vm_compute; done].
Defined.

Definition demo_written : Fs := fst (fd_write 3 (bstr "hello") demo_open_c).
Definition demo_unlinked : Fs := fst (fs_unlink (bstr "/tmp/notes") demo_written).

Lemma demo_write_run : fd_write 3 (bstr "hello") demo_open_c = (demo_written, Ok (zlen (bstr "hello"))).
Proof. unfold demo_written. apply run_pair. vm_compute. reflexivity. Qed.

Lemma demo_unlink_run : fs_unlink (bstr "/tmp/notes") demo_written = (demo_unlinked, Ok tt).
Proof. unfold demo_unlinked. apply run_pair. vm_compute. reflexivity. Qed.

Lemma written_is_read_witness :
  exists s3 s4, fd_lseek 4 0 SeekSet demo_unlinked = (s3, Ok 0) /\ fd_read 4 5 s3 = (s4, Ok (bstr "hello")).
Proof.
  apply (written_is_read demo_open_c 3 9 0 4 10 0 8 demo_file (bstr "hello") demo_written (bstr "/tmp/notes") demo_unlinked);
    first [apply demo_open_good|apply demo_write_run|apply demo_unlink_run|vm_compute; reflexivity|vm_compute; done].
Defined.

(** The directory /proc, opened by a caller with a small buffer. *)
Definition demo_dir : Fs := fst (run_call (COpen (Some (bstr "/proc")) 0 0) demo_fs).
Definition demo_entries : gmap bytes VfsNode := match fs_dirs demo_dir !! 5 with Some m => m | None => ∅ end.

Lemma demo_entries_at : fs_dirs demo_dir !! 5 = Some demo_entries.
Proof.
  assert (H : match fs_dirs demo_dir !! 5 with Some _ => true | None => false end = true) by (vm_compute; reflexivity).
  unfold demo_entries. by destruct (fs_dirs demo_dir !! 5).
Qed.

Lemma listing_complete_witness :
  exists s' l, list_dir (S (length (dir_keys demo_entries))) 3 32 (fun _ => Byte.x00) demo_dir = (s', Ok l) /\
    StronglySorted bytes_le l /\ NoDup l /\ forall name, name ∈ l <-> is_Some (demo_entries !! name).
Proof.
  apply (listing_complete demo_dir 3 8 5 demo_entries 32); [vm_compute; reflexivity..|apply demo_entries_at|done| |vm_compute; done].
  replace (dir_keys demo_entries) with [bstr "version"] by (vm_compute; reflexivity).
  constructor; [|constructor]. split; [|vm_compute; done]. apply (bool_decide_unpack (Byte.x00 ∉ bstr "version")). vm_compute. exact I.
Defined.

Lemma file_calls_safe_witness :
  (exists s' o, run_call (CTruncate (Some (bstr "notes")) 100) demo_open_c = (s', o) /\ returns o /\ fs_ok s') /\
  (exists s' o, run_call (CLseek 3 0 7) demo_open_c = (s', o) /\ o = Panic).
Proof.
  split.
  - apply (file_calls_safe echo_devices_ok demo_version demo_open_c (CTruncate (Some (bstr "notes")) 100));
      [vm_compute; done|apply demo_open_reach|cbn; unfold ISIZE_MAX; lia].
  - apply (file_calls_safe echo_devices_ok demo_version demo_open_c (CLseek 3 0 7));
      [vm_compute; done|apply demo_open_reach|cbn; unfold ISIZE_MAX; lia].
Defined.

(** ** Examples: what the code does where its text says otherwise *)

(** [F_OK] is zero, which every set of flags contains: a check for read, write or execute
    permission is always refused. *)
Lemma access_refuses_checks `{W : Devices} name flags s :
  0 < flags <= 7 -> sys_access name flags s = (s, Ok (- errno_i32 Inval)).
Proof.
  intros H. assert (flags = 1 \/ flags = 2 \/ flags = 3 \/ flags = 4 \/ flags = 5 \/ flags = 6 \/ flags = 7) as Hc by lia.
  by destruct Hc as [->|[->|[->|[->|[->|[->| ->]]]]]].
Qed.

(** A directory with a file in it is removed with the file. *)
Example rmdir_takes_the_contents :
  snd ((let! r := sys_rmdir (Some (bstr "/proc")) in let! f := sys_open (Some (bstr "/proc/version")) 0 0 in sret (r, f)) demo_fs) =
  Ok (0, - errno_i32 Noent).
Proof. vm_compute. reflexivity. Qed.

(** [File::create] of a file that exists succeeds and keeps what the file holds. *)
Example create_keeps_contents :
  snd ((let! fd := File_create (bstr "/proc/version") in let! b := fd_read fd 14 in sret b) demo_fs) = Ok (bstr "Hermit version").
Proof. vm_compute. reflexivity. Qed.

(** Creating a directory that exists with its parents fails, and leaves a directory with an
    empty name in the working directory. *)
Example recursive_leaves_an_entry :
  snd ((let! r := scatch (create_dir_recursive (bstr "/proc") 0x1ff) in let! l := readdir (bstr "/tmp") in sret (r, l)) demo_fs) =
  Ok (inr Badf, [[]]).
Proof. vm_compute. reflexivity. Qed.

(** The copy of the working directory takes the whole length of the buffer from memory. *)
Example getcwd_copies_beyond :
  snd (sys_getcwd false 10 (bstr "secret") demo_fs) = Ok (inl (bstr "/tmp" ++ [Byte.x00] ++ bstr "secre")).
Proof. vm_compute. reflexivity. Qed.

(** A buffer too small for the next record gets zero, which stands for the end. *)
Example small_buffer_ends_early :
  snd (sys_getdents64 3 false 16 (fun _ => Byte.x00) demo_dir) = Ok ([], 0).
Proof. vm_compute. reflexivity. Qed.

(** A directory takes any offset from the start. *)
Example dir_seek_any_offset : snd (sys_lseek 3 7 0 demo_dir) = Ok 7.
Proof. vm_compute. reflexivity. Qed.

(** After [fchmod] a file is neither a file nor a directory. *)
Example fchmod_loses_the_kind :
  snd ((let! r := sys_fchmod 3 0x1a4 in let! a := fd_fstat 3 in sret (r, metadata_is_file a, metadata_is_dir a)) demo_open_c) =
  Ok (0, false, false).
Proof. vm_compute. reflexivity. Qed.

(** Seeking behind the end makes the file longer. *)
Example seek_grows_the_file :
  snd ((let! r := sys_lseek 3 1000 0 in let! a := fd_fstat 3 in sret (r, st_size a)) demo_open_c) = Ok (1000, 1000).
Proof. vm_compute. reflexivity. Qed.

(** Opening with [O_TRUNC] keeps the contents. *)
Example open_ignores_trunc :
  snd ((let! fd := sys_open (Some (bstr "/proc/version")) (Z.lor O_TRUNC O_RDWR) 0 in let! a := fd_fstat fd in sret (st_size a)) demo_fs) = Ok 19.
Proof. vm_compute. reflexivity. Qed.
