(* ===== verification/Env.v ===== *)
(** * The kernel command line

    [Cli::default] of kernel/src/env.rs: the words of the boot arguments, as
    [shell_words::split] gives them, become options, environment variables and the
    arguments of the application. *)

From stdpp Require Import gmap.
From S2P Require Import Prelude AppText Vfs Files.

Record Cli := mkCli {
  image_path : option bytes;
  freq : option Z;
  env_vars : gmap bytes bytes;
  cli_args : list bytes;
  mmio : list bytes;
}.

Definition set_image p c := mkCli (Some p) (freq c) (env_vars c) (cli_args c) (mmio c).
Definition set_freq f c := mkCli (image_path c) (Some f) (env_vars c) (cli_args c) (mmio c).
Definition set_var k v c := mkCli (image_path c) (freq c) (<[k := v]> (env_vars c)) (cli_args c) (mmio c).
Definition add_args l c := mkCli (image_path c) (freq c) (env_vars c) (cli_args c ++ l) (mmio c).
Definition add_mmio d c := mkCli (image_path c) (freq c) (env_vars c) (cli_args c) (mmio c ++ [d]).
Definition empty_cli : Cli := mkCli None None ∅ [] [].

(** [str::parse::<u16>()] *)
Definition parse_u16 (s : bytes) : option Z :=
  let s := match s with b :: s' => if Byte.eqb b Byte.x2b then s' else s | [] => [] end in
  match parse_decimal s with
  | Some v => if v <=? U16_MAX then Some v else None
  | None => None
  end.

Definition EQUALS : byte := Byte.x3d.

(** [str::split_once('=')] *)
Fixpoint split_once (sep : byte) (s : bytes) : option (bytes * bytes) :=
  match s with
  | [] => None
  | b :: s =>
      if Byte.eqb b sep then Some ([], s)
      else match split_once sep s with Some (l, r) => Some (b :: l, r) | None => None end
  end.

Definition MMIO_PREFIX : bytes := bstr "virtio_mmio.device=".
Definition starts_with (prefix s : bytes) : bool := bool_decide (ztake (zlen prefix) s = prefix).

(** A word that no option takes: [env=key=value], the path of the image, or a word that is
    only reported. *)
Definition plain_word (word : bytes) (c : Cli) : Cli :=
  match split_once EQUALS word with
  | Some (arg, value) =>
      if bool_decide (arg = bstr "env") then
        match split_once EQUALS value with Some (key, value) => set_var key value c | None => c end
      else c
  | None => match image_path c with None => set_image word c | Some _ => c end
  end.

(** The options that set a variable. *)
Definition option_var (word : bytes) : option bytes :=
  if bool_decide (word = bstr "-ip") then Some (bstr "HERMIT_IP")
  else if bool_decide (word = bstr "-mask") then Some (bstr "HERMIT_MASK")
  else if bool_decide (word = bstr "-gateway") then Some (bstr "HERMIT_GATEWAY")
  else if bool_decide (word = bstr "-mount") then Some (bstr "UHYVE_MOUNT")
  else None.

(** The loop over the words. *)
Fixpoint parse_words (words : list bytes) (c : Cli) : outcome Errno Cli :=
  match words with
  | [] => Ok c
  | word :: words =>
      if starts_with MMIO_PREFIX word then
        match split_at EQUALS word with
        | _ :: device :: _ => parse_words words (add_mmio device c)
        | _ => Panic
        end
      else if bool_decide (word = bstr "-freq") then
        match words with
        | [] => Panic
        | s :: words => match parse_u16 s with Some f => parse_words words (set_freq f c) | None => Panic end
        end
      else
        match option_var word with
        | Some key => match words with [] => Panic | v :: words => parse_words words (set_var key v c) end
        | None =>
            if bool_decide (word = bstr "--") then Ok (add_args words c)
            else parse_words words (plain_word word c)
        end
  end.

(** [Cli::default]: the words, or a panic when the boot arguments cannot be split. *)
Definition cli_default (words : option (list bytes)) : outcome Errno Cli :=
  match words with None => Panic | Some words => parse_words words empty_cli end.

(** [env::var] and the other readers, after [env::init]. *)
Definition var (cli : option Cli) (key : bytes) : outcome Errno (option bytes) :=
  match cli with None => Panic | Some c => Ok (env_vars c !! key) end.
Definition args (cli : option Cli) : outcome Errno (list bytes) :=
  match cli with None => Panic | Some c => Ok (cli_args c) end.

(** ** Specification: what each item of a command line means *)

(** The options that take a value and set a variable: the words of the command line and
    the variables that the network setup of kernel/src/executor/device.rs and the uhyve
    file system read. *)
Inductive NetOption := OptIp | OptMask | OptGateway | OptMount.

Definition option_word (o : NetOption) : bytes :=
  match o with
  | OptIp => bstr "-ip" | OptMask => bstr "-mask" | OptGateway => bstr "-gateway" | OptMount => bstr "-mount"
  end.

Definition option_key (o : NetOption) : bytes :=
  match o with
  | OptIp => bstr "HERMIT_IP" | OptMask => bstr "HERMIT_MASK" | OptGateway => bstr "HERMIT_GATEWAY"
  | OptMount => bstr "UHYVE_MOUNT"
  end.

(** The words that are no image path. *)
Definition reserved_words : list bytes :=
  [bstr "-freq"; bstr "-ip"; bstr "-mask"; bstr "-gateway"; bstr "-mount"; bstr "--"].

Inductive Item :=
| IFreq (f : Z)
| IOption (o : NetOption) (value : bytes)
| IEnv (key value : bytes)
| IMmio (device : bytes)
| IImage (path : bytes)
| IUnknown (word value : bytes).

(** The words of an item. *)
Definition item_words (i : Item) : list bytes :=
  match i with
  | IFreq f => [bstr "-freq"; append_decimal [] f]
  | IOption o value => [option_word o; value]
  | IEnv key value => [bstr "env=" ++ key ++ [EQUALS] ++ value]
  | IMmio device => [bstr "virtio_mmio.device=" ++ device]
  | IImage path => [path]
  | IUnknown word value => [word ++ [EQUALS] ++ value]
  end.

Definition item_ok (i : Item) : Prop :=
  match i with
  | IFreq f => 0 <= f <= U16_MAX
  | IOption _ _ => True
  | IEnv key _ => EQUALS ∉ key
  | IMmio device => EQUALS ∉ device
  | IImage path => (EQUALS ∉ path) /\ (path ∉ reserved_words)
  | IUnknown word value =>
      (EQUALS ∉ word) /\ word <> bstr "virtio_mmio.device" /\ (word = bstr "env" -> EQUALS ∉ value)
  end.

Definition item_effect (i : Item) (c : Cli) : Cli :=
  match i with
  | IFreq f => set_freq f c
  | IOption o value => set_var (option_key o) value c
  | IEnv key value => set_var key value c
  | IMmio device => add_mmio device c
  | IImage path => match image_path c with None => set_image path c | Some _ => c end
  | IUnknown _ _ => c
  end.

(** The end of a command line: nothing, or [--] and the words of the application. *)
Definition tail_words (tail : option (list bytes)) : list bytes :=
  match tail with None => [] | Some rest => bstr "--" :: rest end.

(** ** Proofs *)

Lemma split_once_app sep l r : sep ∉ l -> split_once sep (l ++ sep :: r) = Some (l, r).
Proof.
  induction l as [|b l IH]; intros H; cbn; [by rewrite Byte.byte_dec_lb|]. apply not_elem_of_cons in H as [Hb Hl].
  destruct (Byte.eqb b sep) eqn:E; [by apply Byte.byte_dec_bl in E|]. by rewrite IH.
Qed.

Lemma split_once_none sep l : sep ∉ l -> split_once sep l = None.
Proof.
  induction l as [|b l IH]; intros H; [done|]. apply not_elem_of_cons in H as [Hb Hl]. cbn.
  destruct (Byte.eqb b sep) eqn:E; [by apply Byte.byte_dec_bl in E|]. by rewrite IH.
Qed.

Lemma split_at_none sep l : sep ∉ l -> split_at sep l = [l].
Proof.
  induction l as [|b l IH]; intros H; [done|]. apply not_elem_of_cons in H as [Hb Hl]. cbn.
  destruct (Byte.eqb b sep) eqn:E; [by apply Byte.byte_dec_bl in E|]. by rewrite IH.
Qed.

Lemma split_at_app sep l r : sep ∉ l -> split_at sep (l ++ sep :: r) = l :: split_at sep r.
Proof.
  induction l as [|b l IH]; intros H; cbn; [by rewrite Byte.byte_dec_lb|]. apply not_elem_of_cons in H as [Hb Hl].
  destruct (Byte.eqb b sep) eqn:E; [by apply Byte.byte_dec_bl in E|]. by rewrite IH.
Qed.

Lemma starts_mmio w :
  starts_with MMIO_PREFIX w = true -> exists r, split_once EQUALS w = Some (bstr "virtio_mmio.device", r).
Proof.
  unfold starts_with. intros H%bool_decide_eq_true. exists (zdrop (zlen MMIO_PREFIX) w).
  rewrite <- (ztake_zdrop (zlen MMIO_PREFIX) w) at 1. rewrite H.
  apply (split_once_app EQUALS (bstr "virtio_mmio.device")). by apply (bool_decide_unpack (EQUALS ∉ bstr "virtio_mmio.device")).
Qed.

Lemma not_mmio w l : (forall r, split_once EQUALS w <> Some (bstr "virtio_mmio.device", r)) -> l = starts_with MMIO_PREFIX w -> l = false.
Proof. intros H ->. destruct (starts_with MMIO_PREFIX w) eqn:E; [|done]. apply starts_mmio in E as [r E]. by apply H in E. Qed.

Lemma option_words o :
  starts_with MMIO_PREFIX (option_word o) = false /\ bool_decide (option_word o = bstr "-freq") = false /\
  option_var (option_word o) = Some (option_key o).
Proof. by destruct o. Qed.

Lemma not_reserved w :
  w ∉ reserved_words ->
  bool_decide (w = bstr "-freq") = false /\ option_var w = None /\ bool_decide (w = bstr "--") = false.
Proof.
  unfold reserved_words. rewrite !not_elem_of_cons. intros (?&?&?&?&?&?&_). unfold option_var.
  by rewrite !bool_decide_eq_false_2.
Qed.

(** A word with an equals sign is none of the options. *)
Lemma equals_word l r :
  bool_decide (l ++ EQUALS :: r = bstr "-freq") = false /\ option_var (l ++ EQUALS :: r) = None /\
  bool_decide (l ++ EQUALS :: r = bstr "--") = false.
Proof.
  assert (H : forall w, bool_decide (EQUALS ∈ w) = false -> l ++ EQUALS :: r <> w).
  { intros w Hw%bool_decide_eq_false Heq. apply Hw. rewrite <- Heq. apply elem_of_app. right. apply list_elem_of_here. }
  unfold option_var. rewrite !bool_decide_eq_false_2 by (by apply H). done.
Qed.

Lemma parse_item i rest c :
  item_ok i -> parse_words (item_words i ++ rest) c = parse_words rest (item_effect i c).
Proof.
  destruct i as [f|o value|key value|device|path|word value]; cbn [item_words item_ok item_effect app]; intros Hok.
  - cbn [parse_words]. change (starts_with MMIO_PREFIX (bstr "-freq")) with false. cbn match. rewrite bool_decide_eq_true_2 by done.
    unfold parse_u16. assert (Hp : match append_decimal [] f with b :: s' => if Byte.eqb b Byte.x2b then s' else append_decimal [] f | [] => [] end = append_decimal [] f).
    { destruct (append_decimal [] f) as [|b l] eqn:E; [done|]. destruct (Byte.eqb b Byte.x2b) eqn:Eb; [|done].
      apply Byte.byte_dec_bl in Eb as ->. assert (is_ascii_digit Byte.x2b = true); [|done]. apply (append_decimal_digit f). rewrite E. apply list_elem_of_here. }
    rewrite Hp, parse_append_decimal by (unfold U16_MAX in *; ulia). by guard_true (f <=? U16_MAX).
  - cbn [parse_words]. by destruct (option_words o) as (-> & -> & ->).
  - set (w := bstr "env=" ++ key ++ EQUALS :: value). assert (Hw : w = bstr "env" ++ EQUALS :: (key ++ EQUALS :: value)) by done.
    assert (Hs : split_once EQUALS w = Some (bstr "env", key ++ EQUALS :: value)).
    { rewrite Hw. apply split_once_app. by apply (bool_decide_unpack (EQUALS ∉ bstr "env")). }
    cbn [parse_words]. rewrite (not_mmio w _ ltac:(rewrite Hs; by intros r [= ? ?]) eq_refl). rewrite Hw.
    destruct (equals_word (bstr "env") (key ++ EQUALS :: value)) as (-> & -> & ->). rewrite <- Hw.
    unfold plain_word. rewrite Hs, bool_decide_eq_true_2 by done. cbn [app]. by rewrite split_once_app.
  - change (bstr "virtio_mmio.device=") with MMIO_PREFIX.
    cbn [parse_words]. assert (H : starts_with MMIO_PREFIX (MMIO_PREFIX ++ device) = true).
    { apply bool_decide_eq_true. by rewrite ztake_app_le, ztake_all by lia. }
    rewrite H. replace (MMIO_PREFIX ++ device) with (bstr "virtio_mmio.device" ++ EQUALS :: device) by done.
    rewrite split_at_app by (by apply (bool_decide_unpack (EQUALS ∉ bstr "virtio_mmio.device"))). by rewrite split_at_none.
  - destruct Hok as [Heq Hopt]. pose proof (split_once_none EQUALS path Heq) as Hs. cbn [parse_words].
    rewrite (not_mmio path _ ltac:(rewrite Hs; done) eq_refl). destruct (not_reserved path Hopt) as (-> & -> & ->).
    unfold plain_word. by rewrite Hs.
  - destruct Hok as (Heq & Hmm & Henv). assert (Hs : split_once EQUALS (word ++ EQUALS :: value) = Some (word, value)) by (by apply split_once_app).
    cbn [parse_words]. rewrite (not_mmio (word ++ EQUALS :: value) _ ltac:(rewrite Hs; by intros r [= ? ?]) eq_refl).
    destruct (equals_word word value) as (-> & -> & ->). unfold plain_word. rewrite Hs.
    case_bool_decide; [|done]. by rewrite split_once_none by auto.
Qed.

(** C39: a command line made of options with their values, variables, devices, an image
    path and words that are only reported, with or without a [--] at its end, is parsed
    into exactly what its items mean, in order: each option sets the variable of its
    table entry, a later value replaces an earlier one, the first path is the image, and
    everything behind the first [--] reaches the application unchanged. *)
Theorem cli_parses_items items tail :
  Forall item_ok items ->
  cli_default (Some (mjoin (item_words <$> items) ++ tail_words tail)) =
  Ok (add_args (default [] tail) (foldl (fun c i => item_effect i c) empty_cli items)).
Proof.
  intros Hok. unfold cli_default. generalize empty_cli. induction Hok as [|i items Hi _ IH]; intros c.
  - destruct tail; [done|]. cbn. unfold add_args. cbn. rewrite app_nil_r. by destruct c.
  - cbn [fmap list_fmap mjoin list_join foldl]. rewrite <- app_assoc, parse_item by done. apply IH.
Qed.

Lemma cli_parses_items_witness :
  cli_default (Some [bstr "kernel"; bstr "-freq"; bstr "2400"; bstr "env=A=1"; bstr "-mask"; bstr "255.255.255.0";
    bstr "-gateway"; bstr "10.0.5.1"; bstr "env=A=2=3"; bstr "x=y"; bstr "--"; bstr "-freq"]) =
  Ok (mkCli (Some (bstr "kernel")) (Some 2400)
    (<[bstr "A" := bstr "2=3"]> (<[bstr "HERMIT_GATEWAY" := bstr "10.0.5.1"]>
      (<[bstr "HERMIT_MASK" := bstr "255.255.255.0"]> (<[bstr "A" := bstr "1"]> ∅)))) [bstr "-freq"] []) /\
  cli_default (Some [bstr "-mount"; bstr "/host"]) =
  Ok (mkCli None None (<[bstr "UHYVE_MOUNT" := bstr "/host"]> ∅) [] []).
Proof.
  split.
  - apply (cli_parses_items [IImage (bstr "kernel"); IFreq 2400; IEnv (bstr "A") (bstr "1");
      IOption OptMask (bstr "255.255.255.0"); IOption OptGateway (bstr "10.0.5.1");
      IEnv (bstr "A") (bstr "2=3"); IUnknown (bstr "x") (bstr "y")] (Some [bstr "-freq"])).
    repeat constructor; try done; by apply (bool_decide_unpack _).
  - apply (cli_parses_items [IOption OptMount (bstr "/host")] None). repeat constructor.
Defined.

(** An option without its value, and a frequency that is no number of 16 bits. *)
Example cli_missing_value : cli_default (Some [bstr "-gateway"]) = Panic.
Proof. vm_compute. reflexivity. Qed.
Example cli_bad_freq : cli_default (Some [bstr "-freq"; bstr "65536"]) = Panic.
Proof. vm_compute. reflexivity. Qed.
(** The device of an [mmio] word ends at the next equals sign. *)
Example cli_mmio_cut : cli_default (Some [bstr "virtio_mmio.device=4K@0xfeb00e00:12=x"]) = Ok (add_mmio (bstr "4K@0xfeb00e00:12") empty_cli).
Proof. vm_compute. reflexivity. Qed.
