(* ===== verification/EventFd.v ===== *)
(** * Event counters

    kernel/src/fd/eventfd.rs: an object with a 64-bit counter, the tasks that wait to read it
    and the tasks that wait to write it.  A function is one poll of the future of a call: it
    is ready with the result, or pending with the waker of the caller in a queue. *)

From S2P Require Import Prelude Vfs.

Definition EFD_SEMAPHORE : Z := 0x1.
Definition EFD_NONBLOCK : Z := 0x800.

(** A waker is named by its task. *)
Record EventState := mkEventState { counter : Z; read_queue : list Z; write_queue : list Z }.

Definition event_new (initval : Z) : EventState := mkEventState initval [] [].

Inductive Poll (A : Type) := Ready (o : outcome Errno A) | Pending.
Arguments Ready {A}.
Arguments Pending {A}.

(** [queue.pop_front()] and the waking of its task. *)
Definition pop_wake (q : list Z) : list Z * list Z :=
  match q with [] => ([], []) | t :: q => (q, [t]) end.

(** The state, what is ready, and the tasks that are woken. *)
Definition event_read (flags len task : Z) (s : EventState) : EventState * Poll bytes * list Z :=
  if len <? 8 then (s, Ready (Err Inval), [])
  else if flags_contain flags EFD_SEMAPHORE then
    if 0 <? counter s then
      let '(q, woken) := pop_wake (write_queue s) in
      (mkEventState (sub64 (counter s) 1) (read_queue s) q, Ready (Ok (to_le64 1)), woken)
    else (mkEventState (counter s) (read_queue s ++ [task]) (write_queue s), Pending, [])
  else
    let tmp := counter s in
    if 0 <? tmp then
      let '(q, woken) := pop_wake (read_queue s) in
      (mkEventState 0 q (write_queue s), Ready (Ok (to_le64 tmp)), woken)
    else if flags_contain flags EFD_NONBLOCK then (s, Ready (Err Again), [])
    else (mkEventState (counter s) (read_queue s ++ [task]) (write_queue s), Pending, []).

(** The loop [for _i in 0..c]: it ends with the queue. *)
Definition wake_up_to (c : Z) (q : list Z) : list Z * list Z := (zdrop c q, ztake c q).

Definition event_write (flags : Z) (buf : bytes) (task : Z) (s : EventState) : EventState * Poll Z * list Z :=
  if zlen buf <? 8 then (s, Ready (Err Inval), [])
  else
    let c := le_combine (ztake 8 buf) in
    if c <? sub64 U64_MAX (counter s) then
      let '(q, woken) :=
        if flags_contain flags EFD_SEMAPHORE then wake_up_to c (read_queue s) else pop_wake (read_queue s) in
      (mkEventState (add64 (counter s) c) q (write_queue s), Ready (Ok 8), woken)
    else if flags_contain flags EFD_NONBLOCK then (s, Ready (Err Again), [])
    else (mkEventState (counter s) (read_queue s) (write_queue s ++ [task]), Pending, []).

Definition event_poll (event task : Z) (s : EventState) : EventState * Poll Z :=
  let available :=
    Z.lor (if counter s <? U64_MAX - 1 then POLL_WRITE else 0) (if 0 <? counter s then POLL_READ else 0) in
  let ret := Z.land event available in
  if ret =? 0 then
    if has event (Z.lor 0x1 0x40) then (mkEventState (counter s) (read_queue s ++ [task]) (write_queue s), Pending)
    else if has event POLL_WRITE then (mkEventState (counter s) (read_queue s) (write_queue s ++ [task]), Pending)
    else (s, Ready (Ok ret))
  else (s, Ready (Ok ret)).

(** ** Nothing is lost or invented

    [EvRead] and [EvWrite] are polls of calls by a task. *)

Inductive EventOp := EvRead (len task : Z) | EvWrite (buf : bytes) (task : Z).

(** What a poll adds to the sum of the values written and of those read. *)
Definition event_step (flags : Z) (op : EventOp) (s : EventState) : EventState * Z * Z :=
  match op with
  | EvRead len task =>
      let '(s', r, _) := event_read flags len task s in
      (s', 0, match r with Ready (Ok b) => le_combine b | _ => 0 end)
  | EvWrite buf task =>
      let '(s', r, _) := event_write flags buf task s in
      (s', match r with Ready (Ok _) => le_combine (ztake 8 buf) | _ => 0 end, 0)
  end.

Fixpoint event_run (flags : Z) (ops : list EventOp) (s : EventState) : EventState * Z * Z :=
  match ops with
  | [] => (s, 0, 0)
  | op :: ops =>
      let '(s, w, r) := event_step flags op s in
      let '(s, ws, rs) := event_run flags ops s in
      (s, w + ws, r + rs)
  end.

Lemma event_step_sum flags op s :
  u64 (counter s) ->
  let '(s', w, r) := event_step flags op s in u64 (counter s') /\ counter s + w = counter s' + r.
Proof.
  intros Hs. destruct op as [len task|buf task]; cbn [event_step].
  - unfold event_read. destruct (len <? 8); [cbn [counter]; ulia|]. destruct (flags_contain flags EFD_SEMAPHORE).
    + destruct (Z.ltb_spec 0 (counter s)); [|cbn [counter]; ulia]. destruct (pop_wake (write_queue s)) as [q woken]. cbn [counter].
      unfold sub64. rewrite as_u64_small, le_combine_to_le64 by ulia. ulia.
    + destruct (Z.ltb_spec 0 (counter s)).
      * destruct (pop_wake (read_queue s)) as [q woken]. cbn [counter]. rewrite le_combine_to_le64 by done. ulia.
      * destruct (flags_contain flags EFD_NONBLOCK); cbn [counter]; ulia.
  - unfold event_write. destruct (Z.ltb_spec (zlen buf) 8); [cbn [counter]; ulia|].
    assert (Hc : u64 (le_combine (ztake 8 buf))) by (apply le_combine_u64; rewrite zlen_ztake; lia).
    unfold sub64. rewrite as_u64_small by ulia. destruct (Z.ltb_spec (le_combine (ztake 8 buf)) (U64_MAX - counter s)).
    + destruct (if flags_contain flags EFD_SEMAPHORE then _ else _) as [q woken]. cbn [counter].
      unfold add64. rewrite as_u64_small by ulia. ulia.
    + destruct (flags_contain flags EFD_NONBLOCK); cbn [counter]; ulia.
Qed.

(** Whatever is polled in whatever order, the counter never wraps, and what was written is
    what was read and what is left. *)
Lemma event_conserves flags ops s :
  u64 (counter s) ->
  let '(s', w, r) := event_run flags ops s in u64 (counter s') /\ counter s + w = counter s' + r.
Proof.
  revert s. induction ops as [|op ops IH]; intros s Hs; cbn [event_run]; [ulia|].
  pose proof (event_step_sum flags op s Hs) as H. destruct (event_step flags op s) as [[s1 w] r]. destruct H as [H1 H2].
  pose proof (IH s1 H1) as H. destruct (event_run flags ops s1) as [[s2 ws] rs]. ulia.
Qed.

(** A task that waits to write is not woken when a reader empties the counter: its place is
    in the queue that the reader does not look at. *)
Example writer_is_not_woken :
  let '(s1, p1, _) := event_write 0 (to_le64 5) 7 (event_new (U64_MAX - 2)) in
  let '(s2, p2, woken) := event_read 0 8 8 s1 in
  (p1, p2, woken, counter s2, write_queue s2) = (Pending, Ready (Ok (to_le64 (U64_MAX - 2))), [], 0, [7]).
Proof. vm_compute. reflexivity. Qed.

(** A semaphore that must not block blocks. *)
Example semaphore_blocks : event_read (Z.lor EFD_SEMAPHORE EFD_NONBLOCK) 8 1 (event_new 0) = (mkEventState 0 [1] [], Pending, []).
Proof. vm_compute. reflexivity. Qed.
