(* ===== verification/ModelTask.v ===== *)
(** * The task that brings the model from the USB stick into memory and to the SSD

    The asynchronous task of [init_device_with_irq] in kernel/src/drivers/usb/xhci.rs: it
    looks through the ports of the controller for a mass-storage device, reads the model
    from it, announces it to the rest of the kernel and fills the cache on the SSD.  What it
    needs of the USB library is the interface [UsbPorts], and [UsbDisk] for the blocks of an
    open device; [driver_ports] is the library.  Between two [yield_now] a round runs to its
    end.  Bus mastering and the mapping of the registers precede [xhci_new]. *)

From stdpp Require Import gmap.
From S2P Require Import Prelude BlockDevice AhciIo MemoryDb ModelCache UsbRing UsbDesc Xhci UsbDevice UsbMsc UsbDma Fat32.

(** A controller [C] and the mass-storage devices [U] opened through it.  An open device
    holds the controller; closing it gives the controller back. *)
Class UsbPorts (C U : Type) := {
  pt_max_ports : C -> Z;
  pt_poll : ST C unit unit;                   (* ctrl.poll() *)
  pt_connected : Z -> ST C unit bool;         (* ctrl.port_connected(p) *)
  pt_open : Z -> C -> outcome unit (C + U);   (* UsbDevice::new, MscDevice::new *)
  pt_close : U -> outcome unit C;             (* drop(msc) *)
  pt_capacity : ST U unit (option Z);         (* read_capacity(0), the block size *)
  pt_inquiry : ST U unit unit;                (* inquiry(0), printed only *)
  pt_discard : ST C unit (option Z);          (* DeviceAlloc, one page *)
  pt_bounce : ST U unit (option bytes);       (* DeviceAlloc, one page and what it holds *)
}.

(** ** The library behind the interface *)

(** [DeviceAlloc::allocate] *)
Definition device_allocate {F} `{FrameAlloc F} (align_up : Z -> Z -> Z) (phys_offset size align : Z)
    (s : DmaState F) : DmaState F * outcome unit (option Z) :=
  let align := Z.max align 4096 in
  let size := align_up size align in
  if size =? 0 then (s, Panic) else
  match frame_allocate size align (ds_frames s) with
  | (f, Some start) => (mkDmaState f (ds_mem s), Ok (Some (ptr_from phys_offset start)))
  | (f, None) => (mkDmaState f (ds_mem s), Ok None)
  end.

Section driver.
Context {W : Type} `{XhcIo W} (allocate : Z -> Z -> W -> W * outcome unit (option Z)).

(** A call that its caller matches on or that has no error. *)
Definition no_error {S A} (m : ST S UsbError A) : ST S unit A := fun s =>
  let '(s, o) := m s in
  (s, match o with Ok a => Ok a | Err _ => Err tt | Panic => Panic | OutOfFuel => OutOfFuel end).

(** [while let Some(_) = self.poll_event() {}] *)
Fixpoint drain_events (fuel : nat) : XM W unit :=
  match fuel with
  | O => sfuel
  | S fuel =>
      let! t := poll_event in
      match t with Some _ => drain_events fuel | None => sret tt end
  end.

(** The events put aside and one round of the ring. *)
Definition ctrl_poll : XM W unit :=
  let! pending := sgets x_pending_events in
  let! fuel := sgets drain_fuel in
  drain_events (length pending + fuel).

(** [UsbDevice::new(ctrl, p)], then [MscDevice::new(Arc::new(usb_dev))], which drops the
    device when it fails. *)
Definition open_msc (p : Z) (x : XhciCtrl W) : outcome unit (XhciCtrl W + MscSys W) :=
  match usb_device_new p x with
  | (x, Ok d) =>
      match msc_new (mkUsbSys x d) with
      | (s, Ok m) => Ok (inr (mkMscSys s m))
      | (s, Err _) =>
          match usb_device_drop s with
          | (s, Ok _) => Ok (inl (s_ctrl s))
          | (_, OutOfFuel) => OutOfFuel
          | _ => Panic
          end
      | (_, Panic) => Panic
      | (_, OutOfFuel) => OutOfFuel
      end
  | (x, Err _) => Ok (inl x)
  | (_, Panic) => Panic
  | (_, OutOfFuel) => OutOfFuel
  end.

Definition close_msc (u : MscSys W) : outcome unit (XhciCtrl W) :=
  match usb_device_drop (m_sys u) with
  | (s, Ok _) => Ok (s_ctrl s)
  | (_, OutOfFuel) => OutOfFuel
  | _ => Panic
  end.

Definition alloc_page : ST W unit (option Z) := fun w => allocate 4096 4096 w.

#[export] Instance driver_ports : UsbPorts (XhciCtrl W) (MscSys W) := {|
  pt_max_ports x := xc_max_ports (x_cfg x);
  pt_poll := no_error ctrl_poll;
  pt_connected p := no_error (Xhci.port_connected p);
  pt_open := open_msc;
  pt_close := close_msc;
  pt_capacity := no_error (let! r := scatch (read_capacity 0) in
                           sret (match r with inl c => Some (block_size c) | inr _ => None end));
  pt_inquiry := no_error (let! _ := scatch (inquiry 0) in sret tt);
  pt_discard := fun x => let '(w, o) := alloc_page (x_host x) in (set_host w x, o);
  pt_bounce := fun u =>
    let x := s_ctrl (m_sys u) in
    let put w := mkMscSys (mkUsbSys (set_host w x) (s_dev (m_sys u))) (m_dev u) in
    match alloc_page (x_host x) with
    | (w, Ok (Some ptr)) => let '(w, b) := mem_read ptr 4096 w in (put w, Ok (Some b))
    | (w, Ok None) => (put w, Ok None)
    | (w, Err e) => (put w, Err e)
    | (w, Panic) => (put w, Panic)
    | (w, OutOfFuel) => (put w, OutOfFuel)
    end;
|}.
End driver.

(** ** The task *)

Record Hub (C D : Type) := mkHub {
  h_ctrl : C;
  h_kernel : Kernel D;
  msc_found : bool;
}.
Arguments mkHub {C D}.
Arguments h_ctrl {C D}.
Arguments h_kernel {C D}.
Arguments msc_found {C D}.

Section task.
Context {C U : Type} `{UsbPorts C U} `{UsbDisk U} {D : Type} `{BlockDev D}.
Context (heap : Z -> Z -> bytes) (alloc : Z -> Z -> option Z) (align_up : Z -> Z -> Z).

Abbreviation TM A := (ST (Hub C D) unit A).

Definition on_ports {A} (m : ST C unit A) : TM A := fun h =>
  let '(c, o) := m (h_ctrl h) in (mkHub c (h_kernel h) (msc_found h), o).
Definition on_kernel {A} (m : KM D A) : TM A := fun h =>
  let '(k, o) := m (h_kernel h) in (mkHub (h_ctrl h) k (msc_found h), o).
Definition set_found : TM unit := smodify (fun h => mkHub (h_ctrl h) (h_kernel h) true).

(** A call on a local variable of the task: its new value and the result. *)
Definition locally {S A} (m : ST S unit A) (x : S) : TM (S * A) := fun h =>
  let '(x, o) := m x in
  (h, match o with Ok a => Ok (x, a) | Err e => Err e | Panic => Panic | OutOfFuel => OutOfFuel end).

(** What the allocation holds behind the model: the rest of the last cluster and the heap.
    The last sector of the cache takes some of it. *)
Context (slack : Z -> Z -> bytes).

(** From [set_model_info_with_source] on. *)
Definition hand_over (i : Ingested) : TM unit :=
  let mem := in_bytes i ++ slack (in_address i + zlen (in_bytes i))
                             (align_up (in_size i) USB_MAX_READ_BYTES - zlen (in_bytes i)) in
  let! _ := on_kernel (smodify (set_mem (in_address i) (in_bytes i))) in
  let! _ := on_kernel (smodify (set_model_info_with_source (in_address i) (in_size i) (in_source i))) in
  let! _ := scatch (on_kernel (ahci (write_raw_model_cache mem (in_size i)))) in
  sret tt.

(** An open device: the sector size, the bounce buffer, the model; then the device is
    dropped. *)
Definition serve_device (u : U) : TM unit :=
  let! _ := set_found in
  let! (u, capacity) := locally pt_capacity u in
  let device_block_size := default USB_DEFAULT_DEVICE_BLOCK_SIZE capacity in
  let! (u, _) := locally pt_inquiry u in
  let! (u, bounce) := locally pt_bounce u in
  match bounce with
  | None => slift Panic
  | Some bounce_buf =>
      let! (s, model) := locally (ingest_model heap alloc align_up device_block_size) (mkUsb u bounce_buf []) in
      let! _ := match model with Some i => hand_over i | None => sret tt end in
      let! c := slift (pt_close (us_dev s)) in
      on_ports (smodify (fun _ => c))
  end.

(** [for p in 0..ctrl.max_ports()]; the first mass-storage device ends the loop. *)
Fixpoint scan_ports (n : nat) (p : Z) : TM unit :=
  match n with
  | O => sret tt
  | S n =>
      let! connected := on_ports (pt_connected p) in
      if negb connected then scan_ports n (p + 1) else
      let! c := sgets h_ctrl in
      let! r := slift (pt_open p c) in
      match r with
      | inl c => let! _ := on_ports (smodify (fun _ => c)) in scan_ports n (p + 1)
      | inr u => serve_device u
      end
  end.

(** One round of the loop, up to [yield_now]. *)
Definition usb_round : TM unit :=
  let! _ := on_ports pt_poll in
  let! found := sgets msc_found in
  if found : bool then sret tt else
  let! info := sgets (fun h => model_info (h_kernel h)) in
  let! _ := match info with
            | Some info => if negb (mi_address info =? 0) then set_found else sret tt
            | None => sret tt
            end in
  let! found := sgets msc_found in
  if found : bool then sret tt else
  let! ports := sgets (fun h => pt_max_ports (h_ctrl h)) in
  scan_ports (Z.to_nat ports) 0.

(** [for _ in 0..8192]: pages that are never given back. *)
Fixpoint discard_pages (n : nat) : TM (list Z) :=
  match n with
  | O => sret []
  | S n =>
      let! page := on_ports pt_discard in
      let! rest := discard_pages n in
      sret (match page with Some a => a :: rest | None => rest end)
  end.

(** The start of the task: whether it goes on to look for a stick, or only polls. *)
Definition usb_task_start : TM bool :=
  let! info := sgets (fun h => model_info (h_kernel h)) in
  match info with
  | Some _ => sret false
  | None => let! _ := discard_pages (Z.to_nat 8192) in sret true
  end.

(** The task with [n] rounds of its loop. *)
Fixpoint usb_rounds (n : nat) (search : bool) : TM unit :=
  match n with
  | O => sret tt
  | S n =>
      let! _ := if search then usb_round else on_ports pt_poll in
      usb_rounds n search
  end.

Definition usb_task (n : nat) : TM unit :=
  let! search := usb_task_start in
  usb_rounds n search.
End task.
