(* ===== verification/ModelTaskTheorems.v ===== *)
(** * From the USB stick to the SSD: theorems

    The search and the copy of the model on any stick, whatever its sectors hold and
    whichever reads fail, and the task around them. *)

From stdpp Require Import gmap.
From S2P Require Import Prelude BlockDevice AhciIo MemoryDb MemoryDbSpec ModelCache ModelCacheSpec ModelCacheTheorems Fat32 Fat32Theorems ModelTask.

(** ** Fields of a buffer that is long enough *)

Definition gives {E A} (o : outcome E A) (P : A -> Prop) : Prop := exists a, o = Ok a /\ P a.

Lemma gives_bind {E A B} (o : outcome E A) (f : A -> outcome E B) (P : A -> Prop) (Q : B -> Prop) :
  gives o P -> (forall a, P a -> gives (f a) Q) -> gives (obind o f) Q.
Proof. intros (a & -> & Ha) Hf. by apply Hf. Qed.

Lemma gives_ok {E A} (a : A) (P : A -> Prop) : P a -> gives (E := E) (Ok a) P.
Proof. by exists a. Qed.

Lemma wp_gives {S E A} (o : outcome E A) (P : A -> Prop) (Q : A -> S -> Prop) X s :
  gives o P -> (forall a, P a -> Q a s) -> wp (slift o) Q X s.
Proof. intros (a & -> & Ha) HQ. eapply wp_lift_ok; [done|by apply HQ]. Qed.

Lemma get_byte_ok b off : 0 <= off < zlen b -> gives (get_byte b off) (fun x => 0 <= x < 256).
Proof.
  intros Ho. unfold get_byte, zlen in *. destruct (b !! Z.to_nat off) as [x|] eqn:E.
  - apply gives_ok. unfold bz. pose proof (byte.unsigned_range x). lia.
  - apply lookup_ge_None in E. lia.
Qed.

Lemma usb_le_u16_ok b off : 0 <= off -> off + 2 <= zlen b -> gives (usb_le_u16 b off) (fun x => 0 <= x < 65536).
Proof.
  intros ??. eapply gives_bind; [apply get_byte_ok; lia|]. intros lo Hlo. eapply gives_bind; [apply get_byte_ok; lia|].
  intros hi Hhi. apply gives_ok. cbn beta in *. lia.
Qed.

Lemma usb_le_u32_ok b off : 0 <= off -> off + 4 <= zlen b -> gives (usb_le_u32 b off) (fun x => 0 <= x <= U32_MAX).
Proof.
  intros ??. eapply gives_bind; [apply usb_le_u16_ok; lia|]. intros lo Hlo. eapply gives_bind; [apply usb_le_u16_ok; lia|].
  intros hi Hhi. apply gives_ok. cbn beta in *. ulia.
Qed.

(** ** Directory entries *)

Section entries.
Context (entry : bytes) (Hlen : zlen entry = 32).

Ltac field := eapply gives_bind; [first [apply get_byte_ok|apply usb_le_u16_ok|apply usb_le_u32_ok]; lia|intros ? ?; cbn beta in *].

Lemma is_gguf_ok : gives (fat32_entry_is_gguf entry) (fun _ => True).
Proof. unfold fat32_entry_is_gguf. do 2 field. split_if; [by apply gives_ok|]. rewrite get_slice_ok by lia. by apply gives_ok. Qed.

Lemma is_preferred_ok : gives (fat32_entry_is_preferred_bitnet_gguf entry) (fun _ => True).
Proof.
  eapply gives_bind; [apply is_gguf_ok|]. intros g _. destruct g; [|by apply gives_ok].
  cbn [negb]. rewrite get_slice_ok by lia. by apply gives_ok.
Qed.

Lemma lfn_suffix_ok offs suffix : Forall (fun off => 0 <= off <= 30) offs -> gives (lfn_suffix entry offs suffix) (fun _ => True).
Proof.
  intros Ho. revert suffix. induction Ho as [|off offs Hoff _ IH]; intros suffix; [by apply gives_ok|]. cbn [lfn_suffix].
  field. split_if; [by apply gives_ok|apply IH].
Qed.

Lemma has_suffix_ok : gives (fat32_lfn_entry_has_gguf_suffix entry) (fun _ => True).
Proof.
  unfold fat32_lfn_entry_has_gguf_suffix. field. split_if; [by apply gives_ok|].
  eapply gives_bind; [apply lfn_suffix_ok; unfold LFN_OFFSETS; repeat constructor; lia|]. intros l _. by apply gives_ok.
Qed.

Lemma entry_cluster_ok : gives (entry_cluster entry) (fun _ => True).
Proof. unfold entry_cluster. do 2 field. by apply gives_ok. Qed.

Definition file_ok (f : Fat32File) : Prop := 2 <= first_cluster f /\ 0 < file_size f <= U32_MAX.

Lemma file_from_entry_ok : gives (fat32_file_from_entry entry) (fun o => forall f, o = Some f -> file_ok f).
Proof.
  unfold fat32_file_from_entry. do 2 field. split_if; [by apply gives_ok|]. eapply gives_bind; [apply entry_cluster_ok|].
  intros c _. field. apply gives_ok. intros f. split_if; intros; simplify_eq. split; cbn; lia.
Qed.

Lemma directory_from_entry_ok : gives (fat32_directory_from_entry entry) (fun _ => True).
Proof.
  unfold fat32_directory_from_entry. do 2 field. split_if; [by apply gives_ok|]. eapply gives_bind; [apply entry_cluster_ok|].
  intros c _. by apply gives_ok.
Qed.
End entries.

(** ** Reading any blocks of any device *)

Section search.
Context {U : Type} `{UsbDiskSpec U} (u0 : U).
Implicit Types (s : Usb U).

(** What a read keeps: the disk and the length of the buffers. *)
Definition kept s s' : Prop := same_disk (us_dev s) (us_dev s') /\ us_sector_buf s' = us_sector_buf s /\ us_cluster_buf s' = us_cluster_buf s.

Lemma wp_attempts_any k s lba n buf (Q : bool * bytes -> Usb U -> Prop) X :
  (forall s' ok b, kept s s' -> zlen b = zlen buf ->
     (ok = true -> exists u u' d buf', same_disk (us_dev s) u /\ read_blocks lba n (zlen buf) u = (u', (true, d)) /\
        zlen buf' = zlen buf /\ b = fill buf' d) -> Q (ok, b) s') ->
  wp (read_attempts k lba n buf) Q X s.
Proof.
  revert s buf. induction k as [|k IH]; intros s buf HQ; cbn [read_attempts]; [by apply wp_ret, HQ|].
  Transparent wp. unfold wp. Opaque wp. destruct (read_blocks lba n (zlen buf) (us_dev s)) as [u [ok b]] eqn:E.
  assert (same_disk (us_dev s) u) as Hs by (intros l; by eapply ub_frame). destruct ok.
  - cbn. apply HQ; [done|apply zlen_fill|]. intros _. exists (us_dev s), u, b, buf. done.
  - apply (IH (set_us_dev u s) (fill buf b)). rewrite zlen_fill. intros s' ok b' (H1 & H2 & H3) Hb Hok. apply HQ; [|done|].
    + split; [by etrans|done].
    + intros Ht. destruct (Hok Ht) as (v & v' & d & buf' & Hv & Hr & Hz & ->). exists v, v', d, buf'. split; [by etrans|done].
Qed.

Lemma wp_read_loop_any fuel s lba n buf (Q : bool * bytes -> Usb U -> Prop) X :
  0 <= n <= 2 ^ Z.of_nat fuel -> (forall s' ok b, kept s s' -> zlen b = zlen buf -> Q (ok, b) s') ->
  wp (read_device_loop fuel lba n buf) Q X s.
Proof.
  revert s lba n buf Q. induction fuel as [|fuel IH]; intros s lba n buf Q Hn HQ;
    cbn [read_device_loop]; destruct (1 <? n) eqn:E; bool_to_prop; try (apply wp_attempts_any; by auto).
  { cbn in Hn. lia. }
  rewrite Nat2Z.inj_succ, Z.pow_succ_r in Hn by lia. pose proof (Z.div_mod n 2 ltac:(done)). pose proof (Z.mod_pos_bound n 2 ltac:(done)).
  set (h := n / 2) in *. set (cut := h * (zlen buf / n)).
  assert (0 <= cut <= zlen buf) as Hcut.
  { pose proof (zlen_nonneg buf). pose proof (Z.mul_div_le (zlen buf) n ltac:(lia)). pose proof (Z.div_pos (zlen buf) n ltac:(lia) ltac:(lia)). unfold cut. nia. }
  apply wp_bind, wp_attempts_any. intros s1 ok b Hk Hb _. destruct ok; [by apply wp_ret, HQ|].
  apply wp_bind, IH; [lia|]. intros s2 ok lb Hk2 Hlb. rewrite zlen_ztake in Hlb.
  assert (kept s s2) as Hk' by (unfold kept in *; destruct_and!; split; [by etrans|split; congruence]).
  destruct ok.
  - apply wp_bind, IH; [lia|]. intros s3 ok rb Hk3 Hrb. rewrite zlen_zdrop in Hrb by lia. apply wp_ret, HQ.
    + unfold kept in *; destruct_and!; split; [by etrans|split; congruence].
    + rewrite zlen_app. lia.
  - apply wp_ret, HQ; [done|]. rewrite zlen_app, zlen_zdrop; lia.
Qed.

Lemma wp_read_any s lba n buf (Q : bool * bytes -> Usb U -> Prop) X :
  0 <= n <= U16_MAX -> (forall s' ok b, kept s s' -> zlen b = zlen buf -> Q (ok, b) s') ->
  wp (read_device_sectors lba n buf) Q X s.
Proof. intros Hn. apply wp_read_loop_any. change (2 ^ Z.of_nat 16) with 65536. unfold U16_MAX in *. lia. Qed.

Lemma as_u16_range x : 0 <= as_u16 x <= U16_MAX.
Proof. unfold as_u16, U16_MAX. pose proof (Z.mod_pos_bound x 65536). lia. Qed.

(** ** Between two reads of the search *)

Definition sound s : Prop := same_disk u0 (us_dev s) /\ zlen (us_sector_buf s) = 4096.

(** The cluster buffer is left alone, or refilled to its length. *)
Definition searching (n : Z) s : Prop := sound s /\ zlen (us_cluster_buf s) = n.

Lemma wp_bounce_any s lba n len (Q : bool -> Usb U -> Prop) X cb :
  searching cb s -> 0 <= n <= U16_MAX -> 0 <= len <= 4096 -> (forall ok s', searching cb s' -> Q ok s') ->
  wp (read_bounce lba n len) Q X s.
Proof.
  intros [[Hs Hz] Hc] Hn Hlen HQ. unfold read_bounce. apply wp_bind, wp_gets, wp_bind. eapply wp_lift_ok; [apply get_slice_ok; lia|].
  apply wp_bind, wp_read_any; [done|]. intros s' ok b (K1 & K2 & K3) Hb. apply wp_bind, wp_modify, wp_ret, HQ.
  split; [split; [by etrans|]|by rewrite <- Hc, <- K3]. cbn. rewrite zlen_app, Hb, zlen_slice, zlen_zdrop by lia. lia.
Qed.

Context (v : Fat32Volume) (Hv : vol_ok v).

Lemma vol_bps : 0 < bytes_per_sector v <= 4096 /\ bytes_per_sector v mod 4 = 0.
Proof. pose proof ub_bs_pos. unfold vol_ok in Hv. destruct_and! Hv. split; [nia|done]. Qed.

Lemma fat_offset c : 0 <= (fat_lba_for_cluster v c).2 /\ (fat_lba_for_cluster v c).2 + 4 <= 4096.
Proof.
  pose proof vol_bps as [Hb H4]. cbn. unfold mul32, as_u32. set (x := (c * 4) mod 4294967296).
  pose proof (Z.mod_pos_bound x (bytes_per_sector v) ltac:(lia)). split; [lia|].
  assert ((x mod bytes_per_sector v) mod 4 = 0) as Hm.
  { apply Z.mod_divide in H4 as [q Hq]; [|done]. rewrite Hq in *. assert (x mod 4 = 0) as Hx.
    { unfold x. change 4294967296 with (4 * 1073741824). rewrite (Z.mul_comm c 4), Z.mul_mod_distr_l by done.
      rewrite Z.mul_comm. by apply Z.mod_mul. }
    apply Z.mod_divide in Hx as [y ->]; [|done]. rewrite Z.mul_mod_distr_r by lia. by apply Z.mod_mul. }
  apply Z.mod_divide in Hm as [y Hy]; [|done]. apply Z.mod_divide in H4 as [q Hq]; [|done]. lia.
Qed.

Lemma wp_fat_entry_any s c cb (Q : option Z -> Usb U -> Prop) X :
  searching cb s -> (forall o s', searching cb s' -> Q o s') -> wp (read_fat_entry v c) Q X s.
Proof.
  intros Hs HQ. pose proof (fat_offset c) as Ho. pose proof vol_bps. unfold read_fat_entry.
  destruct (fat_lba_for_cluster v c) as [lba off]. cbn [snd] in Ho.
  apply wp_bind. eapply (wp_bounce_any _ _ _ _ _ _ cb); [done|apply as_u16_range|lia|]. intros ok s' Hs'. destruct ok; [|by apply wp_ret, HQ].
  apply wp_bind, wp_gets, wp_bind. destruct Hs' as [[Hd Hz] Hc]. eapply wp_gives; [apply usb_le_u32_ok; lia|].
  intros e _. by apply wp_ret, HQ.
Qed.

Lemma wp_magic_any s f cb (Q : bool -> Usb U -> Prop) X :
  searching cb s -> (forall b s', searching cb s' -> Q b s') -> wp (fat32_file_has_gguf_magic v f) Q X s.
Proof.
  intros Hs HQ. pose proof vol_bps. unfold fat32_file_has_gguf_magic.
  apply wp_bind. eapply (wp_bounce_any _ _ _ _ _ _ cb); [done|apply as_u16_range|lia|]. intros ok s' Hs'. destruct ok; [|by apply wp_ret, HQ].
  apply wp_bind, wp_gets, wp_bind. eapply wp_lift_ok; [apply get_slice_ok; [lia|]; destruct Hs' as [[_ ->] _]; lia|]. by apply wp_ret, HQ.
Qed.

(** ** The search of the directory tree *)

Definition scan_ok (sc : Scan) : Prop :=
  (forall f, sc_first sc = Some f -> file_ok f) /\ (forall f, sc_largest sc = Some f -> file_ok f).

Lemma or_first_ok b f cur : file_ok f -> (forall g, cur = Some g -> file_ok g) -> forall g, or_first b f cur = Some g -> file_ok g.
Proof. intros Hf Hc g. unfold or_first. destruct b, cur; intros; simplify_eq; auto. Qed.

Lemma wp_scan_file s entry f sc cb (Q : Fat32File + Scan -> Usb U -> Prop) X :
  searching cb s -> zlen entry = 32 -> file_ok f -> scan_ok sc ->
  (forall s', searching cb s' -> Q (inl f) s') -> (forall sc' s', searching cb s' -> scan_ok sc' -> Q (inr sc') s') ->
  wp (scan_file v entry f sc) Q X s.
Proof.
  intros Hs He Hf [S1 S2] HL HR. unfold scan_file. apply wp_bind. eapply wp_gives; [by apply is_preferred_ok|].
  intros p _. destruct p; [by apply wp_ret, HL|]. apply wp_bind. eapply wp_gives; [by apply is_gguf_ok|]. intros g _.
  apply wp_bind. eapply wp_magic_any; [done|]. intros m s' Hs'. apply wp_ret, HR; [done|]. split; cbn.
  - apply or_first_ok; [done|]. by apply or_first_ok.
  - intros g'. split_if; intros; simplify_eq; auto.
Qed.

Lemma wp_scan_entries entries : forall s depth sc cb (Q : Fat32File + Scan * bool -> Usb U -> Prop) X,
  searching cb s -> Forall (fun e => zlen e = 32) entries -> scan_ok sc ->
  (forall f s', searching cb s' -> file_ok f -> Q (inl f) s') ->
  (forall sc' b s', searching cb s' -> scan_ok sc' -> Q (inr (sc', b)) s') ->
  wp (scan_entries v depth entries sc) Q X s.
Proof.
  induction entries as [|e entries IH]; intros s depth sc cb Q X Hs He Hsc HL HR; cbn [scan_entries]; [by apply wp_ret, HR|].
  apply Forall_cons in He as [He Hes]. apply wp_bind. eapply wp_gives; [apply get_byte_ok; lia|]. intros b0 _. split_if; [by apply wp_ret, HR|].
  apply wp_bind. eapply wp_gives; [apply get_byte_ok; lia|]. intros b11 _. split_if.
  { apply wp_bind. eapply wp_gives; [by apply has_suffix_ok|]. intros l _. by eapply IH. }
  apply wp_bind. eapply wp_gives; [by apply file_from_entry_ok|]. intros [f|] Hf.
  - apply wp_bind. eapply wp_scan_file; [done|done|by apply Hf|done|..].
    + intros s' Hs'. apply wp_ret, HL; [done|by apply Hf].
    + intros sc' s' Hs' Hsc'. by eapply IH.
  - apply wp_bind. destruct (_ && _).
    + eapply wp_gives; [by apply directory_from_entry_ok|]. intros d _. by eapply IH.
    + apply wp_ret. by eapply IH.
Qed.

Lemma chunks32_ok n : forall b : bytes, 32 * Z.of_nat n <= zlen b -> Forall (fun e => zlen e = 32) (chunks32 n b).
Proof.
  induction n as [|n IH]; intros b Hb; cbn [chunks32]; [constructor|]. constructor; [rewrite zlen_ztake; lia|].
  apply IH. rewrite zlen_zdrop by lia. lia.
Qed.

Lemma wp_read_cluster s c (Q : option bytes -> Usb U -> Prop) X :
  searching (cluster_bytes v) s ->
  (forall o s', searching (cluster_bytes v) s' -> (forall d, o = Some d -> zlen d = cluster_bytes v) -> Q o s') ->
  wp (read_cluster v c) Q X s.
Proof.
  intros [[Hs Hz] Hc] HQ. pose proof (cluster_bytes_pos v Hv). unfold read_cluster. apply wp_bind, wp_gets, wp_bind.
  eapply wp_lift_ok; [apply get_slice_ok; lia|]. apply wp_bind, wp_read_any; [apply as_u16_range|].
  intros s' ok b (K1 & K2 & K3) Hb. rewrite zlen_slice, Z.sub_0_r in Hb by lia. apply wp_bind, wp_modify, wp_ret, HQ.
  - split; [split; [by etrans|by rewrite <- Hz, <- K2]|]. cbn. rewrite zlen_app, zlen_zdrop; lia.
  - intros d. destruct ok; intros; by simplify_eq.
Qed.

Lemma wp_scan_clusters n : forall s depth c sc (Q : option (Fat32File + Scan) -> Usb U -> Prop) X,
  searching (cluster_bytes v) s -> scan_ok sc ->
  (forall s', searching (cluster_bytes v) s' -> Q None s') ->
  (forall f s', searching (cluster_bytes v) s' -> file_ok f -> Q (Some (inl f)) s') ->
  (forall sc' s', searching (cluster_bytes v) s' -> scan_ok sc' -> Q (Some (inr sc')) s') ->
  wp (scan_clusters n v depth c sc) Q X s.
Proof.
  induction n as [|n IH]; intros s depth c sc Q X Hs Hsc HN HL HR; cbn [scan_clusters]; [by apply wp_ret, HR|].
  destruct (negb _); [by apply wp_ret, HR|]. apply wp_bind, wp_read_cluster; [done|]. intros [d|] s1 Hs1 Hd; [|by apply wp_ret, HN].
  apply wp_bind. eapply wp_scan_entries; [done| |done|..].
  - apply chunks32_ok. rewrite (Hd d eq_refl). pose proof (cluster_bytes_pos v Hv).
    rewrite Z2Nat.id by (apply Z.div_pos; lia). apply Z.mul_div_le. lia.
  - intros f s2 Hs2 Hf. by apply wp_ret, HL.
  - intros sc' b s2 Hs2 Hsc'. destruct b; [by apply wp_ret, HR|]. apply wp_bind. eapply wp_fat_entry_any; [done|].
    intros [next|] s3 Hs3; [by apply IH|by apply wp_ret, HN].
Qed.

Lemma wp_find_dir more : forall s c (Q : option Fat32File -> Usb U -> Prop) X,
  searching (cluster_bytes v) s ->
  (forall o s', searching (cluster_bytes v) s' -> (forall f, o = Some f -> file_ok f) -> Q o s') ->
  wp (find_gguf_file_in_fat32_dir more v c) Q X s.
Proof.
  induction more as [|more IH]; intros s c Q X Hs HQ; cbn [find_gguf_file_in_fat32_dir];
    (apply wp_bind, wp_gets; split_if; [by apply wp_ret, HQ|]; apply wp_bind, wp_scan_clusters;
     [done|by split|intros; by apply wp_ret, HQ|intros f s' Hs' Hf; apply wp_ret, HQ; [done|intros; by simplify_eq]|]);
    intros sc s1 Hs1 [S1 S2]; apply wp_bind.
  - apply wp_ret, wp_ret, HQ; [done|]. intros f. destruct (sc_first sc) eqn:E; intros; simplify_eq; auto.
  - revert s1 Hs1. generalize (sc_subdirs sc). intros dirs. induction dirs as [|d dirs IHd]; intros s1 Hs1.
    + apply wp_ret, wp_ret, HQ; [done|]. intros f. destruct (sc_first sc) eqn:E; intros; simplify_eq; auto.
    + apply wp_bind, IH; [done|]. intros [f|] s2 Hs2 Hf; [|by apply IHd]. apply wp_ret, wp_ret, HQ; [done|]. intros g [= <-]. by apply Hf.
Qed.
End search.

(** ** Copying along any chain *)

Section copy.
Context {U : Type} `{UsbDiskSpec U} (u0 : U) (v : Fat32Volume) (Hv : vol_ok v).
Context (heap : Z -> Z -> bytes) (Hheap : forall off n, 0 <= n -> zlen (heap off n) = n).
Implicit Types (s : Usb U).

(** A run of [r] clusters behind [copied] bytes of a file of [size] bytes. *)
Definition run_fits (size copied r : Z) : Prop :=
  1 <= r /\ r * cluster_bytes v <= USB_MAX_READ_BYTES /\ copied + (r - 1) * cluster_bytes v < size.

Lemma wp_extend_any fuel : forall s size copied cluster r next cb (Q : Z * Z * option Z -> Usb U -> Prop) X,
  searching u0 cb s -> run_fits size copied r -> USB_MAX_READ_BYTES / cluster_bytes v <= r + Z.of_nat fuel ->
  (forall last r' next' s', searching u0 cb s' -> run_fits size copied r' -> Q (last, r', next') s') ->
  wp (extend_run fuel v size copied cluster r next) Q X s.
Proof.
  pose proof (cluster_bytes_pos v Hv) as Hcb. assert (cluster_bytes v | USB_MAX_READ_BYTES) as [q Hq] by apply Hv.
  induction fuel as [|fuel IH]; intros s size copied cluster r next cb Q X Hs Hr Hf HQ; cbn [extend_run].
  all: destruct (negb _) eqn:E; [by apply wp_ret, HQ|]; bool_to_prop; destruct next as [next|]; [|by apply wp_ret, HQ].
  all: destruct (_ && _) eqn:E2; [|by apply wp_ret, HQ]; bool_to_prop.
  - rewrite Hq, Z.div_mul in Hf by lia. nia.
  - apply wp_bind. eapply wp_fat_entry_any; [done|done|]. intros o s' Hs'. eapply IH; [done| |lia|done].
    destruct Hr as (? & ? & ?). assert (r < q) by (rewrite Hq in E; nia). split; [lia|]. split; [rewrite Hq; nia|lia].
Qed.

Lemma wp_ingest_any fuel : forall s size alloc_size c out m cb (Q : bytes -> Usb U -> Prop) X,
  searching u0 cb s -> 0 < size <= alloc_size -> (cluster_bytes v | alloc_size) ->
  0 <= m -> (zlen out < size -> zlen out = m * cluster_bytes v) -> zlen out <= size ->
  size <= (m + Z.of_nat fuel) * cluster_bytes v ->
  (forall out' s', searching u0 cb s' -> zlen out' <= size -> Q out' s') ->
  wp (ingest_fat32 heap fuel v size alloc_size c out) Q X s.
Proof.
  pose proof (cluster_bytes_pos v Hv) as Hcb.
  induction fuel as [|fuel IH]; intros s size alloc_size c out m cb Q X Hs Hsz Hal Hm Hout Hle Hf HQ; cbn [ingest_fat32].
  all: destruct (negb _) eqn:E; [by apply wp_ret, HQ|]; bool_to_prop.
  { specialize (Hout ltac:(lia)). lia. }
  specialize (Hout ltac:(lia)). apply wp_bind. eapply wp_fat_entry_any; [done|done|]. intros next s1 Hs1. apply wp_bind.
  eapply wp_extend_any; [done| | |].
  { split_and!; [lia| |lia]. assert (cluster_bytes v | USB_MAX_READ_BYTES) as Hd by apply Hv. apply Z.divide_pos_le in Hd; [lia|done]. }
  { pose proof (run_fuel v Hv). lia. }
  intros last r next' s2 Hs2 (Hr & Hmax & Hend). cbn beta iota.
  assert (zlen out + r * cluster_bytes v <= alloc_size) as Hroom.
  { destruct Hal as [q Hq]. rewrite Hout in *. assert (m + r - 1 < q) by nia. nia. }
  guard_false (alloc_size <? zlen out + r * cluster_bytes v).
  apply wp_bind, wp_read_any; [apply as_u16_range|]. intros s3 ok run (K1 & K2 & K3) Hrun. rewrite Hheap in Hrun by nia.
  assert (searching u0 cb s3) as Hs3.
  { destruct Hs2 as [[Ha Hb] Hc]. split; [split; [by etrans|by rewrite K2]|by rewrite K3]. }
  destruct ok; [|by apply wp_ret, HQ].
  assert (zlen (ztake size (out ++ run)) = Z.min size ((m + r) * cluster_bytes v)) as Hz.
  { rewrite zlen_ztake, zlen_app. lia. }
  split_if; [|apply wp_ret, HQ; [done|lia]]. destruct next' as [next'|]; [|apply wp_ret, HQ; [done|lia]].
  apply (IH _ _ _ _ _ (m + r) cb); try done; try lia. nia.
Qed.

(** The raw image: block by block from [start] on. *)
Lemma wp_raw_any fuel : forall s start total burst alloc_size k out cb (Q : bool * bytes -> Usb U -> Prop) X,
  searching u0 cb s -> 0 <= start -> 0 < burst <= U16_MAX -> 0 <= k <= total -> total * ub_bs <= alloc_size -> total <= k + Z.of_nat fuel ->
  zlen out = k * ub_bs ->
  (forall ok out' s', searching u0 cb s' -> (ok = true -> zlen out' = total * ub_bs) -> Q (ok, out') s') ->
  wp (ingest_raw heap fuel ub_bs start total burst alloc_size k out) Q X s.
Proof.
  pose proof ub_bs_pos as Hbs.
  induction fuel as [|fuel IH]; intros s start total burst alloc_size k out cb Q X Hs Hst Hb Hk Hal Hf Hout HQ; cbn [ingest_raw].
  all: destruct (negb _) eqn:E; bool_to_prop; [apply wp_ret, HQ; [done|intros _; rewrite Hout; f_equal; lia]|].
  { lia. }
  set (n := Z.min (total - k) burst). assert (0 < n <= U16_MAX /\ k + n <= total) as [Hn Hkn] by lia.
  assert (k * ub_bs + n * ub_bs <= alloc_size) by nia. guard_false (alloc_size <? k * ub_bs + n * ub_bs). apply wp_bind, wp_read_any; [apply as_u16_range|].
  intros s1 ok run (K1 & K2 & K3) Hrun. rewrite Hheap in Hrun by nia.
  assert (searching u0 cb s1) as Hs1.
  { destruct Hs as [[Ha Hb'] Hc]. split; [split; [by etrans|by rewrite K2]|by rewrite K3]. }
  destruct ok; [|apply wp_ret, HQ; [done|discriminate]].
  eapply IH; [done|done|done|lia|done|lia|rewrite zlen_app; lia|done].
Qed.

Lemma wp_raw_exact fuel : forall s start total burst alloc_size k X,
  same_disk u0 (us_dev s) -> 0 <= start -> 0 < burst <= U16_MAX -> burst * ub_bs <= USB_MAX_READ_BYTES -> 0 <= k <= total -> start + total <= ub_count ->
  total * ub_bs <= alloc_size -> total <= k + Z.of_nat fuel ->
  wp (ingest_raw heap fuel ub_bs start total burst alloc_size k (blocks u0 start k))
    (fun r _ => r.1 = true -> r.2 = blocks u0 start total) X s.
Proof.
  pose proof ub_bs_pos as Hbs. pose proof ub_count_le as Hcl.
  induction fuel as [|fuel IH]; intros s start total burst alloc_size k X Hs Hst Hb Hbm Hk Hc Hal Hf; cbn [ingest_raw].
  all: destruct (negb _) eqn:E; bool_to_prop; [apply wp_ret; intros _; cbn; f_equal; lia|].
  { lia. }
  set (n := Z.min (total - k) burst). assert (0 < n <= U16_MAX /\ k + n <= total /\ n <= burst) as (Hn & Hkn & Hnb) by lia.
  assert (k * ub_bs + n * ub_bs <= alloc_size) by nia. guard_false (alloc_size <? k * ub_bs + n * ub_bs).
  assert (as_u32 k = k) as -> by (apply as_u32_small; lia). assert (add32 start k = start + k) as -> by (apply as_u32_small; lia).
  assert (as_u16 n = n) as -> by (unfold as_u16, U16_MAX in *; apply Z.mod_small; lia).
  apply wp_bind, (wp_read_device_sectors False); [done|lia|done|lia|nia|rewrite Hheap; nia|]. split.
  - intros u Hu _. cbn beta iota. rewrite (blocks_same u0 (us_dev s)) by done. rewrite <- blocks_app by lia.
    apply IH; try done; try lia. by etrans.
  - intros u b _ _ _. apply wp_ret. done.
Qed.
End copy.

(** ** Any stick *)

Lemma block_size_cases bs : 512 <= bs -> (bs | 4096) -> bs = 512 \/ bs = 1024 \/ bs = 2048 \/ bs = 4096.
Proof. intros Hb [q Hq]. assert (q = 1 \/ q = 2 \/ q = 3 \/ q = 4 \/ q = 5 \/ q = 6 \/ q = 7 \/ q = 8) as Hc by nia. destruct_or! Hc; subst q; lia. Qed.

(** Sectors that fit the bounce buffer and a cluster size that divides the read limit: what
    the FAT specification asks for and [parse_fat32_volume] does not check. *)
Definition std_geometry (v : Fat32Volume) : Prop :=
  bytes_per_sector v <= 4096 /\ (cluster_bytes v | USB_MAX_READ_BYTES).

Lemma parse_ok base bs b :
  zlen b = bs -> 512 <= bs ->
  gives (parse_fat32_volume base bs b) (fun o => forall v, o = Some v ->
    device_block_size v = bs /\ base_lba v = base /\ 0 < bytes_per_sector v < 65536 /\ bytes_per_sector v mod bs = 0 /\
    device_blocks_per_fs_sector v = as_u32 (bytes_per_sector v / bs) /\ 0 < sectors_per_cluster v /\
    0 <= reserved_sectors v /\ 0 <= num_fats v /\ 0 <= fat_size_sectors v).
Proof.
  intros Hz Hbs. unfold parse_fat32_volume. split_if; [lia|].
  do 2 (eapply gives_bind; [apply get_byte_ok; lia|intros ? ?]). split_if; [by apply gives_ok|].
  eapply gives_bind; [apply usb_le_u16_ok; lia|intros bps ?]. eapply gives_bind; [apply get_byte_ok; lia|intros spc ?].
  eapply gives_bind; [apply usb_le_u16_ok; lia|intros res ?]. eapply gives_bind; [apply get_byte_ok; lia|intros fats ?].
  eapply gives_bind; [apply usb_le_u32_ok; lia|intros fsz ?]. eapply gives_bind; [apply usb_le_u32_ok; lia|intros root ?].
  rewrite get_slice_ok by lia. cbn [obind]. cbn beta in *.
  destruct (_ || _) eqn:E; [by apply gives_ok|]. repeat (apply orb_false_iff in E as [E ?]). bool_to_prop.
  apply gives_ok. intros v [= <-]. cbn. split_and!; try done; lia.
Qed.

Section stick.
Context {U : Type} `{UsbDiskSpec U} (u0 : U) (Hbs : 512 <= ub_bs) (Hdiv : (ub_bs | 4096)).
Context (Hend : forall u lba n len u' r, 0 <= lba -> 0 < n -> ub_count < lba + n -> read_blocks lba n len u = (u', r) -> r.1 = false).
Implicit Types (s : Usb U).

(** Every boot sector the search would accept describes a standard volume. *)
Definition plain_stick : Prop :=
  forall l v, 0 <= l < ub_count -> parse_fat32_volume l ub_bs (ub_block u0 l) = Ok (Some v) -> std_geometry v.

Context (Hplain : plain_stick).

Lemma parsed_vol_ok l v : 0 <= l < ub_count -> parse_fat32_volume l ub_bs (ub_block u0 l) = Ok (Some v) -> vol_ok v.
Proof.
  intros Hl Hp. destruct (Hplain l v Hl Hp) as [Hb Hc]. destruct (parse_ok l ub_bs (ub_block u0 l) (ub_block_len u0 l) Hbs) as (o & E & Ho).
  rewrite Hp in E. injection E as <-. destruct (Ho v eq_refl) as (F1 & F2 & F3 & F4 & F5 & F6 & F7 & F8 & F9).
  apply Z.mod_divide in F4 as [q Hq]; [|lia]. assert (0 < q <= 4096) as Hq' by nia.
  rewrite Hq, Z.div_mul, as_u32_small in F5 by lia.
  assert (ub_bs mod 4 = 0) as H4 by (destruct (block_size_cases ub_bs Hbs Hdiv) as [->|[->|[->| ->]]]; done).
  split; [done|]. split_and!; try lia; try done.
  - unfold USB_MAX_READ_BYTES, MIB, U16_MAX. lia.
  - rewrite Hq. apply Z.mod_divide in H4 as [y ->]; [|done]. rewrite Z.mul_assoc. by apply Z.mod_mul.
Qed.

Lemma read_single lba buf : read_device_sectors (U := U) lba 1 buf = read_attempts 3 lba 1 buf.
Proof. lazy beta delta [read_device_sectors]. remember 16%nat as fuel. by destruct fuel. Qed.

(** The boot sector at [base]: the block itself when the read succeeds. *)
Lemma wp_boot_sector s base cb (Q : bool -> Usb U -> Prop) X :
  searching u0 cb s -> 0 <= base ->
  (forall s', searching u0 cb s' -> base < ub_count -> (exists r, us_sector_buf s' = ub_block u0 base ++ r) -> Q true s') ->
  (forall s', searching u0 cb s' -> Q false s') ->
  wp (read_bounce base 1 ub_bs) Q X s.
Proof.
  intros [[Hs Hz] Hc] Hb HT HF. apply Z.divide_pos_le in Hdiv as Hle; [|done]. unfold read_bounce. apply wp_bind, wp_gets, wp_bind.
  eapply wp_lift_ok; [apply get_slice_ok; lia|]. apply wp_bind. rewrite read_single. apply wp_attempts_any.
  intros s' ok b (K1 & K2 & K3) Hlen Hok. rewrite zlen_slice, Z.sub_0_r in * by lia.
  assert (searching u0 cb (set_sector_buf (b ++ zdrop ub_bs (us_sector_buf s)) s')) as Hs'.
  { split; [split; [by etrans|]|cbn; by rewrite K3]. cbn. rewrite zlen_app, zlen_zdrop; lia. }
  apply wp_bind, wp_modify, wp_ret. destruct ok; [|by apply HF]. destruct (Hok eq_refl) as (u & u' & d & buf' & Hu & Hr & Hl & ->).
  assert (base < ub_count) as Hin.
  { destruct (decide (base < ub_count)); [done|]. apply Hend in Hr; [done|done|lia|lia]. }
  apply HT; [done|done|]. cbn. replace ub_bs with (1 * ub_bs) in Hr by lia. apply ub_data in Hr; [|lia|unfold U16_MAX; lia|lia].
  fold (blocks u base 1) in Hr. change 1 with (0 + 1) in Hr. rewrite blocks_S in Hr by lia. change (blocks u (base + 1) 0) with (@nil byte) in Hr.
  rewrite app_nil_r in Hr. assert (ub_block u base = ub_block u0 base) as E by (rewrite (Hu base); apply Hs).
  rewrite E in Hr. subst d. rewrite fill_all by (rewrite ub_block_len; lia). eauto.
Qed.

(** What the probes may find. *)
Definition probed (p : Probe) : Prop :=
  match p with
  | ProbeRaw base => 0 <= base < ub_count /\ ztake 4 (ub_block u0 base) = bstr "GGUF"
  | ProbeFile v f => file_ok f /\ exists base, 0 <= base < ub_count /\ parse_fat32_volume base ub_bs (ub_block u0 base) = Ok (Some v)
  | ProbeNothing => True
  end.

Lemma wp_candidates s cb (Q : list Z -> Usb U -> Prop) X :
  searching u0 cb s -> (forall l s', searching u0 cb s' -> Forall (fun b => 0 <= b) l -> Q l s') -> wp (partition_candidates ub_bs) Q X s.
Proof.
  intros Hs HQ. unfold partition_candidates. apply wp_bind. eapply (wp_boot_sector _ _ cb); [done|done|..].
  - intros s' Hs' _ _. apply wp_bind, wp_bind, wp_gets. pose proof Hs' as [[_ Hz] _]. apply wp_bind. eapply wp_gives; [apply get_byte_ok; lia|].
    intros t _. apply wp_bind. eapply wp_gives; [apply usb_le_u32_ok; lia|]. intros st Hst. cbn beta in Hst. apply wp_ret, wp_ret, HQ; [done|].
    destruct (_ && _) eqn:E; bool_to_prop; repeat constructor; lia.
  - intros s' Hs'. apply wp_bind, wp_ret, wp_ret, HQ; [done|]. repeat constructor. lia.
Qed.

Lemma wp_probe l : forall s cb (Q : Probe -> Usb U -> Prop) X,
  Forall (fun b => 0 <= b) l -> searching u0 cb s -> (forall p s', sound u0 s' -> probed p -> Q p s') -> wp (probe_candidates ub_bs l) Q X s.
Proof.
  apply Z.divide_pos_le in Hdiv as Hle; [|done].
  induction l as [|base l IH]; intros s cb Q X Hl Hs HQ; cbn [probe_candidates].
  { apply wp_ret, HQ; [apply Hs|done]. }
  apply Forall_cons in Hl as [Hb Hl]. apply wp_bind. eapply (wp_boot_sector _ _ cb); [done|done| |intros s' Hs'; by eapply IH].
  intros s' Hs' Hin [r Hr]. cbn [negb]. apply wp_bind, wp_gets, wp_bind. pose proof Hs' as [[_ Hz] _].
  eapply wp_lift_ok; [apply get_slice_ok; lia|]. pose proof (ub_block_len u0 base) as Hlen.
  assert (forall n, 0 <= n <= ub_bs -> slice (us_sector_buf s') 0 n = ztake n (ub_block u0 base)) as Hsl.
  { intros n Hn. unfold slice. rewrite Hr, zdrop_0, Z.sub_0_r, ztake_app_le by lia. done. }
  case_bool_decide as Hm.
  { apply wp_ret, HQ; [apply Hs'|]. split; [lia|]. by rewrite <- Hsl by lia. }
  apply wp_bind. eapply wp_lift_ok; [apply get_slice_ok; lia|]. rewrite Hsl by lia. rewrite ztake_all by lia.
  destruct (parse_ok base ub_bs _ Hlen Hbs) as (o & Hp & _). apply wp_bind. eapply wp_lift_ok; [exact Hp|].
  destruct o as [v|]; [|by eapply IH]. pose proof (parsed_vol_ok base v (conj Hb Hin) Hp) as Hv.
  apply wp_bind, wp_modify, wp_bind. unfold find_gguf_file_in_fat32. eapply wp_find_dir; [exact Hv| |].
  - split; [apply Hs'|]. cbn. apply zlen_zeros. pose proof (cluster_bytes_pos v Hv). lia.
  - intros [f|] s2 Hs2 Hf; [|by eapply IH]. apply wp_ret, HQ; [apply Hs2|]. split; [by apply Hf|]. exists base. split; [lia|done].
Qed.

(** ** The whole ingestion *)

Context (heap : Z -> Z -> bytes) (Hheap : forall off n, 0 <= n -> zlen (heap off n) = n).
Context (alloc : Z -> Z -> option Z) (align_up : Z -> Z -> Z) (Halign : rounds_up align_up).

Definition raw_blocks : Z := (RAW_GGUF_FALLBACK_SIZE + ub_bs - 1) / ub_bs.

(** What was loaded: the whole file of a FAT32 volume of the stick, or the raw image from a
    block that starts with the magic number. *)
Definition loaded_from (i : Ingested) : Prop :=
  (in_source i = bstr "usb-msc-fat32" /\ zlen (in_bytes i) = in_size i /\
   exists base v f, 0 <= base < ub_count /\ parse_fat32_volume base ub_bs (ub_block u0 base) = Ok (Some v) /\ vol_ok v /\ file_ok f /\
     in_size i = file_size f /\
     (Forall (cluster_ok v) (chain u0 v (clusters_for v (file_size f)) (first_cluster f)) ->
      in_bytes i = file_bytes u0 v (first_cluster f) (file_size f))) \/
  (in_source i = bstr "usb-msc-raw" /\ in_size i = RAW_GGUF_FALLBACK_SIZE /\ zlen (in_bytes i) = raw_blocks * ub_bs /\
   exists base, 0 <= base < ub_count /\ ztake 4 (ub_block u0 base) = bstr "GGUF" /\
     (base + raw_blocks <= ub_count -> in_bytes i = blocks u0 base raw_blocks)).

Lemma chain_same u v k c : same_disk u0 u -> chain u v k c = chain u0 v k c.
Proof.
  intros Hs. revert c. induction k as [|k IH]; intros c; [done|]. cbn. rewrite IH. do 2 f_equal.
  unfold fat_entry. by rewrite (blocks_same u0 u).
Qed.

Lemma file_bytes_same u v c n : same_disk u0 u -> file_bytes u v c n = file_bytes u0 v c n.
Proof.
  intros Hs. unfold file_bytes, chain_data. rewrite chain_same by done. do 2 f_equal. apply list_fmap_ext. intros i x _. by apply blocks_same.
Qed.

Lemma wp_copy_file s v f (Q : bytes -> Usb U -> Prop) X :
  sound u0 s -> vol_ok v -> file_ok f ->
  (forall out s', sound u0 s' -> zlen out <= file_size f ->
     (Forall (cluster_ok v) (chain u0 v (clusters_for v (file_size f)) (first_cluster f)) -> file_size f <= zlen out ->
      out = file_bytes u0 v (first_cluster f) (file_size f)) -> Q out s') ->
  wp (ingest_fat32 heap (Z.to_nat (div_ceil (file_size f) (cluster_bytes v))) v (file_size f)
        (align_up (file_size f) USB_MAX_READ_BYTES) (first_cluster f) []) Q X s.
Proof.
  intros [Hs Hz] Hv Hf HQ. pose proof Hf as [_ Hsz]. destruct (rounds_up_fits _ _ Halign Hsz) as [Hle Hd].
  pose proof (clusters_for_bounds v Hv (file_size f) ltac:(lia)) as Hcl. fold (clusters_for v (file_size f)).
  destruct (wp_run_ok (ingest_fat32 heap (clusters_for v (file_size f)) v (file_size f) (align_up (file_size f) USB_MAX_READ_BYTES) (first_cluster f) [])
              (fun out s' => searching u0 (zlen (us_cluster_buf s)) s' /\ zlen out <= file_size f) s) as (s' & out & E & Hs' & Hout).
  { eapply (wp_ingest_any u0 v Hv heap Hheap _ _ _ _ _ _ 0); try done; try lia.
    - etrans; [|exact Hd]. apply Hv.
    - change (0 <= file_size f). lia. }
  apply (wp_ok _ _ _ _ _ _ E). apply HQ; [apply Hs'|done|]. intros Hch Hfull.
  destruct (ingest_fat32_run heap align_up s v f Hheap Halign Hv Hz Hsz) as (s2 & out2 & E2 & _ & Hex & _); [by rewrite chain_same|].
  rewrite E in E2. injection E2 as <- <-. rewrite <- (file_bytes_same (us_dev s)) by done. by apply Hex.
Qed.

Lemma raw_fits : raw_blocks * ub_bs <= align_up RAW_GGUF_FALLBACK_SIZE USB_MAX_READ_BYTES /\ RAW_GGUF_FALLBACK_SIZE <= raw_blocks * ub_bs.
Proof.
  destruct (Halign RAW_GGUF_FALLBACK_SIZE USB_MAX_READ_BYTES eq_refl) as [Hr Hm]; [done|done|].
  apply Z.mod_divide in Hm as [q Hq]; [|done]. unfold raw_blocks. unfold RAW_GGUF_FALLBACK_SIZE, USB_MAX_READ_BYTES, MIB in *.
  change (4 * (1024 * 1024)) with 4194304 in *.
  destruct (block_size_cases ub_bs Hbs Hdiv) as [->|[->|[->| ->]]].
  - change ((1187801280 + 512 - 1) / 512 * 512) with 1187801600. lia.
  - change ((1187801280 + 1024 - 1) / 1024 * 1024) with 1187802112. lia.
  - change ((1187801280 + 2048 - 1) / 2048 * 2048) with 1187803136. lia.
  - change ((1187801280 + 4096 - 1) / 4096 * 4096) with 1187803136. lia.
Qed.

Lemma wp_copy_raw s base (Q : bool * bytes -> Usb U -> Prop) X :
  sound u0 s -> 0 <= base ->
  (forall ok out s', sound u0 s' -> (ok = true -> zlen out = raw_blocks * ub_bs /\ (base + raw_blocks <= ub_count -> out = blocks u0 base raw_blocks)) ->
     Q (ok, out) s') ->
  wp (ingest_raw heap (Z.to_nat raw_blocks) ub_bs base raw_blocks (Z.min USB_MAX_READ_BYTES (U16_MAX * ub_bs) / ub_bs)
        (align_up RAW_GGUF_FALLBACK_SIZE USB_MAX_READ_BYTES) 0 []) Q X s.
Proof.
  intros [Hs Hz] Hb HQ. destruct raw_fits as [Hfit Hge]. set (burst := Z.min _ _ / ub_bs).
  assert (0 < burst <= U16_MAX /\ burst * ub_bs <= USB_MAX_READ_BYTES) as [Hbu Hbm].
  { unfold burst, USB_MAX_READ_BYTES, MIB, U16_MAX. by destruct (block_size_cases ub_bs Hbs Hdiv) as [->|[->|[->| ->]]]. }
  assert (0 < raw_blocks) as Hpos by (unfold RAW_GGUF_FALLBACK_SIZE in Hge; nia).
  destruct (wp_run_ok (ingest_raw heap (Z.to_nat raw_blocks) ub_bs base raw_blocks burst (align_up RAW_GGUF_FALLBACK_SIZE USB_MAX_READ_BYTES) 0 [])
              (fun r s' => searching u0 (zlen (us_cluster_buf s)) s' /\ (r.1 = true -> zlen r.2 = raw_blocks * ub_bs)) s) as (s' & [ok out] & E & Hs' & Hout).
  { eapply (wp_raw_any u0 heap Hheap); try done; try lia. }
  apply (wp_ok _ _ _ _ _ _ E). apply HQ; [apply Hs'|]. intros Hok. split; [by apply Hout|]. intros Hin.
  pose proof (wp_raw_exact u0 heap Hheap (Z.to_nat raw_blocks) s base raw_blocks burst _ 0 (fun _ _ => True) Hs Hb Hbu Hbm ltac:(lia) Hin Hfit ltac:(lia)) as Hw.
  change (blocks u0 base 0) with (@nil byte) in Hw. apply wp_run in Hw as [(s2 & r & E2 & Hr)|(s2 & e & E2 & _)]; rewrite E in E2; [|done].
  injection E2 as <- <-. by apply Hr.
Qed.

Lemma layout_ok n : 0 < n <= U32_MAX -> layout_from_size_align (align_up n USB_MAX_READ_BYTES) 4096 = Some (align_up n USB_MAX_READ_BYTES, 4096).
Proof.
  intros Hn. destruct (Halign n USB_MAX_READ_BYTES eq_refl) as [Hr _]; [lia|unfold USB_MAX_READ_BYTES, MIB; ulia|].
  unfold layout_from_size_align. cbn [negb is_power_of_two]. change (is_power_of_two 4096) with true. cbn [negb].
  assert ((ISIZE_MAX - (4096 - 1) <? align_up n USB_MAX_READ_BYTES) = false) as ->; [|done].
  unfold ISIZE_MAX, USB_MAX_READ_BYTES, MIB in *. apply Z.ltb_ge. ulia.
Qed.

Lemma wp_ingest_model s (Q : option Ingested -> Usb U -> Prop) X :
  sound u0 s ->
  (forall o s', sound u0 s' -> (forall i, o = Some i -> loaded_from i /\ exists size align, alloc size align = Some (in_address i)) -> Q o s') ->
  wp (ingest_model heap alloc align_up ub_bs) Q X s.
Proof.
  intros Hs HQ. unfold ingest_model. apply wp_bind. eapply wp_candidates; [by split|]. intros l s1 Hs1 Hl.
  apply wp_bind. eapply wp_probe; [done|done|]. intros p s2 Hs2 Hp. clear s1 Hs1 s Hs.
  destruct p as [base|v f|]; cbn beta iota zeta.
  - rewrite layout_ok by done. destruct (alloc _ _) as [addr|] eqn:Ha; [|by apply wp_ret, HQ]. guard_false (ub_bs =? 0).
    destruct Hp as [Hb Hm]. apply wp_bind. eapply wp_copy_raw; [done|lia|]. intros ok out s3 Hs3 Ho. destruct ok; [|by apply wp_ret, HQ].
    destruct (Ho eq_refl) as [Hz Hex]. apply wp_ret, HQ; [done|]. intros i [= <-]. split; [|eauto]. right. cbn. eauto 10.
  - destruct Hp as [Hf (base & Hb & Hp)]. pose proof Hf as [_ Hsz]. rewrite layout_ok by done.
    destruct (alloc _ _) as [addr|] eqn:Ha; [|by apply wp_ret, HQ]. pose proof (parsed_vol_ok base v Hb Hp) as Hv.
    apply wp_bind. eapply wp_copy_file; [done|done|done|]. intros out s3 Hs3 Hle Hex. split_if; [|by apply wp_ret, HQ].
    apply wp_ret, HQ; [done|]. intros i [= <-]. split; [|eauto]. left. cbn. split; [done|]. split; [lia|].
    exists base, v, f. split_and!; try done; try lia. intros Hch. apply Hex; [done|lia].
  - rewrite layout_ok by done. destruct (alloc _ _); by apply wp_ret, HQ.
Qed.
End stick.

(** ** The task *)

(** The USB library as the task relies on it: calls return, an open device that does not
    tell its block size has blocks of 512 bytes, a page of device memory is there when a
    stick is served, no call changes what is on a stick, and nothing is read behind its end. *)
Class UsbPortsSpec (C U : Type) `{UsbPorts C U} `{UsbDiskSpec U} : Prop := {
  pts_poll c : exists c', pt_poll c = (c', Ok tt);
  pts_connected p c : exists c' b, pt_connected p c = (c', Ok b);
  pts_open p c : exists r, pt_open p c = Ok r;
  pts_close u : exists c, pt_close u = Ok c;
  pts_capacity u : exists u' o, pt_capacity u = (u', Ok o) /\ same_disk u u' /\ default 512 o = ub_bs;
  pts_inquiry u : exists u', pt_inquiry u = (u', Ok tt) /\ same_disk u u';
  pts_discard c : exists c' o, pt_discard c = (c', Ok o);
  pts_bounce u : exists u' b, pt_bounce u = (u', Ok (Some b)) /\ same_disk u u' /\ zlen b = 4096;
  pts_blocks : 512 <= ub_bs /\ (ub_bs | 4096);
  pts_end u lba n len u' r :
    0 <= lba -> 0 < n -> ub_count < lba + n -> read_blocks lba n len u = (u', r) -> r.1 = false;
}.

Section task.
Context {C U : Type} `{UsbPortsSpec C U} {D : Type} `{BlockDevSpec D}.
Context (heap : Z -> Z -> bytes) (Hheap : forall off n, 0 <= n -> zlen (heap off n) = n).
Context (slack : Z -> Z -> bytes) (Hslack : forall a n, 0 <= n -> zlen (slack a n) = n).
Context (alloc : Z -> Z -> option Z) (Halloc : alloc_nonnull alloc) (align_up : Z -> Z -> Z) (Halign : rounds_up align_up).
Context (Hplain : forall p (c : C) (u : U), pt_open p c = Ok (inr u) -> plain_stick u).
Implicit Types (h : Hub C D) (k : Kernel D).

(** The model of a stick is in memory and announced; the cache holds it, or what it held
    before, or nothing. *)
Definition delivered k k' : Prop :=
  exists p (c : C) (u : U) i, pt_open p c = Ok (inr u) /\ loaded_from u i /\
    model_info k' = Some (mkModelInfo (in_address i) (in_size i) (in_source i)) /\
    k_mem k' !! in_address i = Some (in_bytes i) /\
    let new := cached (ah_dev (k_ahci k')) in
    new = as_cached (ztake (in_size i) (in_bytes i)) \/ new = cached (ah_dev (k_ahci k)) \/ new = None.

Lemma wp_ports {A} (m : ST C unit A) h c a (Q : A -> Hub C D -> Prop) X :
  m (h_ctrl h) = (c, Ok a) -> Q a (mkHub c (h_kernel h) (msc_found h)) -> wp (on_ports m) Q X h.
Proof. intros E HQ. eapply wp_ok; [|exact HQ]. unfold on_ports. by rewrite E. Qed.

Lemma wp_local {S A} (m : ST S unit A) (x x' : S) h (a : A) (Q : S * A -> Hub C D -> Prop) X :
  m x = (x', Ok a) -> Q (x', a) h -> wp (locally m x) Q X h.
Proof. intros E HQ. eapply wp_ok; [|exact HQ]. unfold locally. by rewrite E. Qed.

Lemma loaded_size (u : U) i : loaded_from u i -> 0 < in_size i <= U32_MAX /\ in_size i <= zlen (in_bytes i) <= align_up (in_size i) USB_MAX_READ_BYTES.
Proof.
  destruct (pts_blocks (C := C) (U := U)) as [Hb Hd].
  intros [(_ & Hz & base & v & f & _ & _ & _ & [_ Hf] & E & _)|(_ & E & Hz & _)]; rewrite Hz, E.
  - split; [done|]. split; [lia|]. by apply rounds_up_fits.
  - split; [done|]. pose proof (raw_fits Hb Hd align_up Halign). lia.
Qed.

Lemma sectors_in_allocation n : 0 < n <= U32_MAX -> sectors_for_bytes n * SECTOR_SIZE <= align_up n USB_MAX_READ_BYTES.
Proof.
  intros Hn. destruct (rounds_up_fits _ _ Halign Hn) as [Hle [q Hq]]. destruct (sectors_for_spec n ltac:(lia)) as [_ HS].
  unfold SECTOR_SIZE. rewrite Hq in *. unfold USB_MAX_READ_BYTES, MIB in *. lia.
Qed.

Lemma wp_model_hand_over h p (c : C) (u : U) i (Q : unit -> Hub C D -> Prop) X :
  cache_disk (k_ahci (h_kernel h)) -> pt_open p c = Ok (inr u) -> loaded_from u i -> in_address i <> 0 ->
  (forall k', cache_disk (k_ahci k') -> delivered (h_kernel h) k' -> Q tt (mkHub (h_ctrl h) k' (msc_found h))) ->
  wp (hand_over align_up slack i) Q X h.
Proof.
  intros Hcd Ho Hl Ha HQ. destruct (loaded_size u i Hl) as [Hn Hz]. unfold hand_over. set (mem := in_bytes i ++ _).
  assert (zlen mem = align_up (in_size i) USB_MAX_READ_BYTES) as Hm by (unfold mem; rewrite zlen_app, Hslack; lia).
  destruct (write_cache_atomic (k_ahci (h_kernel h)) mem (in_size i) Hcd) as (s' & r & Hrun & Hcd' & Hres).
  { ulia. }
  { rewrite Hm. by apply sectors_in_allocation. }
  assert (ztake (in_size i) mem = ztake (in_size i) (in_bytes i)) as Et by (unfold mem; apply ztake_app_le; lia). rewrite Et in Hres.
  set (k' := set_ahci_of s' (set_model_info_with_source (in_address i) (in_size i) (in_source i) (set_mem (in_address i) (in_bytes i) (h_kernel h)))).
  assert (delivered (h_kernel h) k') as Hdel.
  { exists p, c, u, i. split; [done|]. split; [done|]. split; [|split; [by cbn; rewrite lookup_insert_eq|]].
    - unfold model_info, k'. cbn. by guard_false (in_address i =? 0).
    - unfold k'. cbn. destruct Hres as [[_ Hc]|[_ Hc]]; [by left|]. destruct Hc as [?|[?|?]]; auto. }
  eapply wp_ok; [|by apply (HQ k')]. unfold sbind, on_kernel, smodify, scatch, ahci. cbn. rewrite Hrun.
  by destruct Hres as [[-> _]|[-> _]].
Qed.

Lemma wp_serve h p c (u : U) (Q : unit -> Hub C D -> Prop) X :
  cache_disk (k_ahci (h_kernel h)) -> pt_open p c = Ok (inr u) ->
  (forall c' k', cache_disk (k_ahci k') -> k' = h_kernel h \/ delivered (h_kernel h) k' -> Q tt (mkHub c' k' true)) ->
  wp (serve_device heap alloc align_up slack u) Q X h.
Proof.
  intros Hcd Ho HQ. unfold serve_device. apply wp_bind, wp_modify.
  destruct (pts_capacity (C := C) u) as (u1 & o & E1 & S1 & Hbs). apply wp_bind. eapply wp_local; [exact E1|].
  destruct (pts_inquiry (C := C) u1) as (u2 & E2 & S2). apply wp_bind. eapply wp_local; [exact E2|].
  destruct (pts_bounce (C := C) u2) as (u3 & b & E3 & S3 & Hb). apply wp_bind. eapply wp_local; [exact E3|].
  change USB_DEFAULT_DEVICE_BLOCK_SIZE with 512. rewrite Hbs. destruct (pts_blocks (C := C) (U := U)) as [Hb1 Hb2].
  destruct (wp_run_ok (ingest_model heap alloc align_up ub_bs) (fun o s' => forall i, o = Some i -> loaded_from u i /\ exists size align, alloc size align = Some (in_address i))
              (mkUsb u3 b [])) as (s' & m & E & Hm).
  { apply (wp_ingest_model u Hb1 Hb2 (pts_end (C := C)) (Hplain _ _ _ Ho) heap Hheap alloc align_up Halign); [|auto].
    split; [|done]. cbn. by do 2 (etrans; [eassumption|]). }
  apply wp_bind. eapply wp_local; [exact E|]. cbn beta iota.
  destruct (pts_close (C := C) (us_dev s')) as (c' & Hc'). apply wp_bind. destruct m as [i|].
  - destruct (Hm i eq_refl) as [Hl (size & align & Hal)]. eapply wp_model_hand_over; [done|done|done|by apply (Halloc size align)|].
    intros k' Hcd' Hdel. apply wp_bind. eapply wp_lift_ok; [exact Hc'|]. eapply wp_ports; [done|]. apply HQ; auto.
  - apply wp_ret, wp_bind. eapply wp_lift_ok; [exact Hc'|]. eapply wp_ports; [done|]. apply HQ; auto.
Qed.

(** Before the model is there the kernel is as it was; afterwards the task leaves it alone. *)
Definition task_inv k0 h : Prop :=
  cache_disk (k_ahci (h_kernel h)) /\ (h_kernel h = k0 \/ msc_found h = true /\ delivered k0 (h_kernel h)).

Lemma wp_scan_ports n : forall p h k0 (Q : unit -> Hub C D -> Prop) X,
  cache_disk (k_ahci k0) -> h_kernel h = k0 -> (forall h', task_inv k0 h' -> Q tt h') ->
  wp (scan_ports heap alloc align_up slack n p) Q X h.
Proof.
  induction n as [|n IH]; intros p h k0 Q X Hcd Hk HQ; cbn [scan_ports].
  { apply wp_ret, HQ. split; [by rewrite Hk|by left]. }
  destruct (pts_connected p (h_ctrl h)) as (c1 & b & E1). apply wp_bind. eapply wp_ports; [exact E1|]. destruct b; cbn [negb]; [|by apply (IH _ _ k0)].
  apply wp_bind, wp_gets. cbn [h_ctrl]. destruct (pts_open p c1) as (r & E2). apply wp_bind. eapply wp_lift_ok; [exact E2|]. destruct r as [c2|u].
  - apply wp_bind. eapply wp_ports; [done|]. by apply (IH _ _ k0).
  - eapply wp_serve; [by cbn; rewrite Hk|exact E2|]. cbn [h_kernel]. rewrite Hk. intros c' k' Hcd' Hd. apply HQ. split; [done|].
    destruct Hd; [by left|by right].
Qed.

Lemma wp_round h k0 (Q : unit -> Hub C D -> Prop) X :
  model_info k0 = None -> cache_disk (k_ahci k0) -> task_inv k0 h -> (forall h', task_inv k0 h' -> Q tt h') ->
  wp (usb_round heap alloc align_up slack) Q X h.
Proof.
  intros Hno Hcd Hi HQ. unfold usb_round. destruct (pts_poll (h_ctrl h)) as (c1 & E1). apply wp_bind. eapply wp_ports; [exact E1|].
  apply wp_bind, wp_gets. cbn [msc_found]. destruct (msc_found h) eqn:Ef; [apply wp_ret, HQ; destruct Hi as [? [?|[_ ?]]]; split; cbn; auto|].
  destruct Hi as [_ [Hk|[? _]]]; [|congruence]. apply wp_bind, wp_gets. cbn [h_kernel]. rewrite Hk, Hno. apply wp_bind, wp_ret.
  apply wp_bind, wp_gets. cbn [msc_found]. apply wp_bind, wp_gets. by apply (wp_scan_ports _ _ _ k0).
Qed.

Lemma wp_discard n : forall h (Q : list Z -> Hub C D -> Prop) X,
  (forall l c, Q l (mkHub c (h_kernel h) (msc_found h))) -> wp (discard_pages n) Q X h.
Proof.
  induction n as [|n IH]; intros h Q X HQ; cbn [discard_pages]; [destruct h; apply wp_ret, HQ|].
  destruct (pts_discard (h_ctrl h)) as (c & o & E). apply wp_bind. eapply wp_ports; [exact E|]. apply wp_bind, IH. intros l c'. apply wp_ret, HQ.
Qed.

Lemma wp_rounds n : forall h k0 X, model_info k0 = None -> cache_disk (k_ahci k0) -> task_inv k0 h ->
  wp (usb_rounds heap alloc align_up slack n true) (fun _ => task_inv k0) X h.
Proof.
  induction n as [|n IH]; intros h k0 X Hno Hcd Hi; cbn [usb_rounds]; [by apply wp_ret|]. apply wp_bind. apply (wp_round h k0); [done..|].
  intros h' Hi'. by apply IH.
Qed.

Lemma wp_idle n : forall h X, wp (usb_rounds heap alloc align_up slack n false) (fun _ h' => h_kernel h' = h_kernel h) X h.
Proof.
  induction n as [|n IH]; intros h X; cbn [usb_rounds]; [by apply wp_ret|]. destruct (pts_poll (h_ctrl h)) as (c & E). apply wp_bind. eapply wp_ports; [exact E|].
  exact (IH (mkHub c (h_kernel h) (msc_found h)) X).
Qed.

End task.

(** ** Concrete sticks *)

Module TaskDemo.
(** A partition at block 100 with a volume of one sector per cluster: the root directory in
    cluster 2 holds a text file and a model of 700 bytes in the clusters 3 and 5. *)
Definition entry (name : bytes) (cluster size : Z) : bytes :=
  splice_fields (zeros 32) [(0, name); (11, [Byte.x20]); (26, le_split 2 cluster); (28, to_le32 size)].

Definition block (l : Z) : bytes :=
  if l =? 0 then splice_fields (zeros 512) [(450, [Byte.x0c]); (454, to_le32 100)]
  else if l =? 100 then
    splice_fields (zeros 512)
      [(11, le_split 2 512); (13, [Byte.x01]); (14, le_split 2 1); (16, [Byte.x01]); (36, to_le32 1); (44, to_le32 2);
       (82, bstr "FAT32   "); (510, [Byte.x55; Byte.xaa])]
  else if l =? 101 then splice_fields (zeros 512) [(8, to_le32 0x0fffffff); (12, to_le32 5); (20, to_le32 0x0fffffff)]
  else if l =? 102 then splice_fields (zeros 512) [(0, entry (bstr "README  TXT") 6 20); (32, entry (bstr "GGMLI2_SGGF") 3 700)]
  else if l =? 103 then splice_fields (zeros 512) [(0, bstr "GGUF")]
  else zeros 512.

Definition count : Z := 4096.

Lemma zlen_demo_block l : zlen (block l) = 512.
Proof. unfold block. by repeat split_if. Qed.

(** What is in each port: nothing, or the stick, with the number of reads that will fail. *)
Record Ctrl := mkCtrl { ct_ports : list (option nat) }.
Record Open := mkOpen { op_ctrl : Ctrl; op_failures : nat }.

Definition open_read (lba n len : Z) (u : Open) : Open * (bool * bytes) :=
  if count <? lba + n then (u, (false, [])) else
  match op_failures u with
  | O => (u, (true, concat ((fun i => block (lba + Z.of_nat i)) <$> seq 0 (Z.to_nat n))))
  | S k => (mkOpen (op_ctrl u) k, (false, replicate (Z.to_nat (len / 2)) Byte.xff))
  end.

#[global] Instance open_disk : UsbDisk Open := {| read_blocks := open_read |}.

#[global] Program Instance open_spec : UsbDiskSpec Open := {|
  ub_bs := 512;
  ub_count := count;
  ub_block _ := block;
  ub_ok u := op_failures u = O;
|}.
Next Obligation. lia. Qed.
Next Obligation. unfold count. lia. Qed.
Next Obligation. intros u l. apply zlen_demo_block. Qed.
Next Obligation. done. Qed.
Next Obligation.
  intros u lba n u' b _ _ Hc. cbn. unfold open_read. guard_false (count <? lba + n). destruct (op_failures u); by intros [= <- <-].
Qed.
Next Obligation.
  intros u lba n u' r Hok _ _ Hc _. cbn. unfold open_read. guard_false (count <? lba + n). rewrite Hok. by intros [= <- <-].
Qed.

#[global] Instance demo_ports : UsbPorts Ctrl Open := {|
  pt_max_ports c := zlen (ct_ports c);
  pt_poll := sret tt;
  pt_connected p := sgets (fun c => match ct_ports c !! Z.to_nat p with Some (Some _) => true | _ => false end);
  pt_open p c := Ok (match ct_ports c !! Z.to_nat p with Some (Some k) => inr (mkOpen c k) | _ => inl c end);
  pt_close u := Ok (op_ctrl u);
  pt_capacity := sret (Some 512);
  pt_inquiry := sret tt;
  pt_discard := sret None;
  pt_bounce := sret (Some (zeros 4096));
|}.

#[global] Instance demo_ports_spec : UsbPortsSpec Ctrl Open.
Proof.
  split.
  - intros c. by exists c.
  - intros p c. eexists c, _. reflexivity.
  - intros p c. eexists. reflexivity.
  - intros u. eexists. reflexivity.
  - intros u. exists u, (Some 512). done.
  - intros u. exists u. done.
  - intros c. by exists c, None.
  - intros u. exists u, (zeros 4096). split; [reflexivity|]. split; [done|]. apply zlen_zeros. lia.
  - cbn [ub_bs open_spec]. split; [lia|]. by exists 8.
  - intros u lba n len u' r _ _ Hc. cbn [read_blocks open_disk ub_count open_spec] in *. unfold open_read. guard_true (count <? lba + n). by intros [= <- <-].
Qed.

Lemma demo_plain (u : Open) : plain_stick u.
Proof.
  intros l v _. change (parse_fat32_volume l 512 (block l) = Ok (Some v) -> std_geometry v).
  destruct (decide (l = 100)) as [->|Hn].
  - intros E. vm_compute in E. injection E as <-. split; [done|]. by exists 8192.
  - assert (parse_fat32_volume l 512 (block l) = Ok None) as ->; [|done].
    unfold block. do 5 (split_if; [first [lia|vm_compute; reflexivity]|]). vm_compute. reflexivity.
Qed.

Definition align_alloc (size align : Z) : option Z := Some 4096.

Definition hub (ports : list (option nat)) : Hub Ctrl MemDisk :=
  mkHub (mkCtrl ports) (mkKernel (CacheDemo.blank None) NO_MODEL None ∅) false.

(** The model is found and copied although the first two reads fail. *)
Example demo_ingested :
  match ingest_model (fun _ n => zeros n) align_alloc align_up_div 512 (mkUsb (mkOpen (mkCtrl []) 2) (zeros 4096) []) with
  | (_, Ok (Some i)) => in_size i = 700 /\ in_source i = bstr "usb-msc-fat32" /\ in_bytes i = ztake 700 (block 103 ++ block 105)
  | _ => False
  end.
Proof. vm_compute. done. Qed.

(** A stick that reports blocks of 8192 bytes, or a volume with sectors of that size, is
    sliced out of a buffer of 4096 bytes. *)
Example large_blocks_panic :
  snd (partition_candidates 8192 (mkUsb (mkOpen (mkCtrl []) 0) (zeros 4096) [])) = Panic.
Proof. by vm_compute. Qed.

Definition large_sectors : bytes :=
  splice_fields (zeros 512)
    [(11, le_split 2 8192); (13, [Byte.x01]); (14, le_split 2 1); (16, [Byte.x01]); (36, to_le32 1); (44, to_le32 2);
     (82, bstr "FAT32   "); (510, [Byte.x55; Byte.xaa])].

Example large_sectors_panic :
  match parse_fat32_volume 100 512 large_sectors with
  | Ok (Some v) => snd (read_fat_entry v 2 (mkUsb (mkOpen (mkCtrl []) 0) (zeros 4096) [])) = Panic
  | _ => False
  end.
Proof. by vm_compute. Qed.
End TaskDemo.

