(* ===== verification/SyncCalls.v ===== *)
(** * Clocks and the system calls of locks

    kernel/src/time.rs, kernel/src/syscalls/timer.rs and the system calls around semaphores,
    recursive mutexes, spin locks and condition variables (kernel/src/syscalls/{semaphore,
    recmutex,spinlock,condvar}.rs).  A lock is a box behind a pointer; a pointer to no box is
    a panic.  A call that may block is split into the part up to the first round and the
    rounds of Synch.v.  The argument [box] is the address the allocator gives. *)

From stdpp Require Import gmap.
From S2P Require Import Prelude TaskQueue Scheduler Tasks Synch Vfs.

Definition ETIME : Z := 62.
Definition ECANCELED : Z := 125.

(** ** Times *)

Record timeval := mkTimeval { tv_secs : Z; tv_usec : Z }.

Definition i64_checked (x : Z) : option Z :=
  if (-9223372036854775808 <=? x) && (x <=? 9223372036854775807) then Some x else None.

Definition timeval_from_usec (microseconds : Z) : timeval :=
  mkTimeval (Z.quot microseconds 1000000) (wrap_i32 (Z.rem microseconds 1000000)).

Definition timeval_into_usec (t : timeval) : option Z :=
  usec ← i64_checked (tv_secs t * 1000000); i64_checked (usec + tv_usec t).

Definition timespec_into_usec (t : timespec) : option Z :=
  usec ← i64_checked (tv_sec t * 1000000); i64_checked (usec + Z.quot (tv_nsec t) 1000).

(** [SystemTime::duration_since], in microseconds. *)
Definition duration_since (self earlier : timespec) : outcome unit Z :=
  match timespec_into_usec self, timespec_into_usec earlier with
  | Some a, Some b =>
      match i64_checked (a - b) with
      | Some d => if 0 <=? d then Ok d else Panic
      | None => Panic
      end
  | _, _ => Panic
  end.

Definition CLOCK_REALTIME : Z := 1.
Definition CLOCK_PROCESS_CPUTIME_ID : Z := 2.
Definition CLOCK_THREAD_CPUTIME_ID : Z := 3.
Definition CLOCK_MONOTONIC : Z := 4.
Definition TIMER_ABSTIME : Z := 4.

(** The two clocks, in microseconds: [systemtime::now_micros] and [get_timer_ticks]. *)
Record Clocks := mkClocks { now_micros : Z; timer_ticks : Z }.

(** The calls that fill in a time: the code, and what was stored. *)
Definition sys_clock_getres (clock_id : Z) : Z * option timespec :=
  if (clock_id =? CLOCK_REALTIME) || (clock_id =? CLOCK_PROCESS_CPUTIME_ID)
     || (clock_id =? CLOCK_THREAD_CPUTIME_ID) || (clock_id =? CLOCK_MONOTONIC)
  then (0, Some (from_usec 1)) else (- EINVAL, None).

Definition sys_clock_gettime (c : Clocks) (clock_id : Z) : Z * option timespec :=
  if clock_id =? CLOCK_REALTIME then (0, Some (from_usec (as_i64 (now_micros c))))
  else if clock_id =? CLOCK_MONOTONIC then (0, Some (from_usec (as_i64 (timer_ticks c))))
  else (- EINVAL, None).

Definition sys_clock_settime (clock_id : Z) (tp : timespec) : Z := - EINVAL.

Definition sys_gettimeofday (c : Clocks) (tp : bool) (tz : Z) : Z * option timeval :=
  (if 0 <? tz then - EINVAL else 0, if tp then Some (timeval_from_usec (as_i64 (now_micros c))) else None).

Definition requested_usecs (t : timespec) : Z :=
  add64 (as_u64 (as_u64 (tv_sec t) * 1000000)) (as_u64 (tv_nsec t) / 1000).

(** The code, or the time that is slept. *)
Definition sys_clock_nanosleep (c : Clocks) (clock_id flags : Z) (rqtp : timespec) : Z + Z :=
  if (tv_sec rqtp <? 0) || (999999999 <? tv_nsec rqtp) then inl (- EINVAL)
  else if (clock_id =? CLOCK_REALTIME) || (clock_id =? CLOCK_MONOTONIC) then
    let microseconds := requested_usecs rqtp in
    inr (if 0 <? Z.land flags TIMER_ABSTIME
         then sub64 microseconds (if clock_id =? CLOCK_REALTIME then now_micros c else timer_ticks c)
         else microseconds)
  else inl (- EINVAL).

Definition sys_nanosleep (rqtp : timespec) : Z + Z :=
  if (tv_sec rqtp <? 0) || (999999999 <? tv_nsec rqtp) then inl (- EINVAL)
  else inr (requested_usecs rqtp).

(** ** Boxes *)

Record CondQueue := mkCondQueue { cq_counter : Z; cq_sem1 : Z; cq_sem2 : Z }.

(** The system, the variables of the application that hold pointers to boxes, the
    condition variables, and the spin locks with whether their guard is held. *)
Record Calls := mkCalls {
  cl_sys : System;
  cl_cells : gmap Z Z;
  cl_conds : gmap Z CondQueue;
  cl_spins : gmap Z bool;
}.

Abbreviation LM A := (ST Calls unit A).

Definition set_sys (s : System) (c : Calls) : Calls := mkCalls s (cl_cells c) (cl_conds c) (cl_spins c).
Definition set_cells x (c : Calls) : Calls := mkCalls (cl_sys c) x (cl_conds c) (cl_spins c).
Definition set_conds x (c : Calls) : Calls := mkCalls (cl_sys c) (cl_cells c) x (cl_spins c).
Definition set_spins x (c : Calls) : Calls := mkCalls (cl_sys c) (cl_cells c) (cl_conds c) x.

Definition on_sys {A} (m : SM A) : LM A := fun c =>
  let '(s, o) := m (cl_sys c) in (set_sys s c, o).

(** [*ptr] and [*ptr = v] *)
Definition load_cell (ptr : Z) : LM Z :=
  let! m := sgets cl_cells in
  match m !! ptr with Some v => sret v | None => slift Panic end.
Definition store_cell (ptr v : Z) : LM unit := smodify (fun c => set_cells (<[ptr := v]> (cl_cells c)) c).

Definition new_semaphore (box count : Z) : SM unit :=
  smodify (fun s => set_semaphores (<[box := semaphore_new count]> (s_semaphores s)) s).

(** ** Semaphores *)

Definition sys_sem_init (sem pshared value box : Z) : LM Z :=
  if (sem =? 0) || negb (pshared =? 0) then sret (- EINVAL) else
  let! _ := on_sys (new_semaphore box value) in
  let! _ := store_cell sem box in
  sret 0.

Definition sys_sem_destroy (sem : Z) : LM Z :=
  if sem =? 0 then sret (- EINVAL) else
  let! a := load_cell sem in
  let! _ := on_sys (get_semaphore a) in
  let! _ := on_sys (smodify (fun s => set_semaphores (delete a (s_semaphores s)) s)) in
  sret 0.

Definition sys_sem_post (k now sem : Z) : LM Z :=
  if sem =? 0 then sret (- EINVAL) else
  let! a := load_cell sem in
  let! _ := on_sys (sem_release k now a) in
  sret 0.

Definition sys_sem_trywait (sem : Z) : LM Z :=
  if sem =? 0 then sret (- EINVAL) else
  let! a := load_cell sem in
  let! ok := on_sys (sem_try_acquire a) in
  sret (if ok : bool then 0 else - ECANCELED).

(** Up to the first round: the code, or the semaphore and the time limit of the rounds. *)
Definition sem_timedwait (now sem ms : Z) : LM (Z + Z * option Z) :=
  if sem =? 0 then sret (inl (- EINVAL)) else
  let! a := load_cell sem in
  sret (inr (a, if 0 <? ms then Some (add64 now (as_u64 (ms * 1000))) else None)).

(** A round of the acquire, as the code of the call. *)
Definition sem_wait_round (k now a : Z) (wakeup_time : option Z) (spun : bool) : LM (option Z) :=
  let! r := on_sys (sem_acquire k now a wakeup_time spun) in
  sret ((fun b : bool => if b then 0 else - ETIME) <$> r).

(** The milliseconds from [current] to [ts]. *)
Definition wait_millis (ts current : timespec) : Z :=
  wrap_i64 (wrap_i64 (wrap_i64 (tv_sec ts - tv_sec current) * 1000)
            + Z.quot (tv_nsec ts - tv_nsec current) 1000000).

Definition sys_sem_timedwait (c : Clocks) (sem : Z) (ts : option timespec) : LM (Z + Z * option Z) :=
  match ts with
  | None => sem_timedwait (timer_ticks c) sem 0
  | Some ts =>
      let current_ts := default (mkTimespec 0 0) (snd (sys_clock_gettime c CLOCK_REALTIME)) in
      let ms := wait_millis ts current_ts in
      if 0 <? ms then
        if U32_MAX <? ms then slift Panic else sem_timedwait (timer_ticks c) sem ms
      else sret (inl 0)
  end.

(** ** Recursive mutexes *)

Definition sys_recmutex_init (recmutex box : Z) : LM Z :=
  if recmutex =? 0 then sret (- EINVAL) else
  let! _ := on_sys (smodify (fun s => set_mutexes (<[box := recmutex_new]> (s_mutexes s)) s)) in
  let! _ := store_cell recmutex box in
  sret 0.

Definition sys_recmutex_destroy (recmutex : Z) : LM Z :=
  if recmutex =? 0 then sret (- EINVAL) else
  let! _ := on_sys (get_mutex recmutex) in
  let! _ := on_sys (smodify (fun s => set_mutexes (delete recmutex (s_mutexes s)) s)) in
  sret 0.

(** A round of the lock; [None] goes round again after a switch. *)
Definition sys_recmutex_lock (k recmutex : Z) : LM (option Z) :=
  if recmutex =? 0 then sret (Some (- EINVAL)) else
  let! ok := on_sys (mutex_acquire k recmutex) in
  sret (if ok : bool then Some 0 else None).

Definition sys_recmutex_unlock (k now recmutex : Z) : LM Z :=
  if recmutex =? 0 then sret (- EINVAL) else
  let! _ := on_sys (mutex_release k now recmutex) in
  sret 0.

(** ** Spin locks: the container holds the lock and, while it is taken, its guard *)

Definition get_spin (lock : Z) : LM bool :=
  let! m := sgets cl_spins in
  match m !! lock with Some held => sret held | None => slift Panic end.
Definition put_spin (lock : Z) (held : bool) : LM unit := smodify (fun c => set_spins (<[lock := held]> (cl_spins c)) c).

Definition sys_spinlock_init (lock box : Z) : LM Z :=
  if lock =? 0 then sret (- EINVAL) else
  let! _ := put_spin box false in
  let! _ := store_cell lock box in
  sret 0.

Definition sys_spinlock_destroy (lock : Z) : LM Z :=
  if lock =? 0 then sret (- EINVAL) else
  let! _ := get_spin lock in
  let! _ := smodify (fun c => set_spins (delete lock (cl_spins c)) c) in
  sret 0.

(** [assert!(container.guard.is_none())], then the free lock is taken at once. *)
Definition sys_spinlock_lock (lock : Z) : LM Z :=
  if lock =? 0 then sret (- EINVAL) else
  let! held := get_spin lock in
  if held : bool then slift Panic else
  let! _ := put_spin lock true in
  sret 0.

Definition sys_spinlock_unlock (lock : Z) : LM Z :=
  if lock =? 0 then sret (- EINVAL) else
  let! held := get_spin lock in
  if negb held then slift Panic else
  let! _ := put_spin lock false in
  sret 0.

(** The containers that also keep interrupts off: the same calls over another lock type.
    Interrupts are not part of this state. *)
Definition sys_spinlock_irqsave_init (lock box : Z) : LM Z := sys_spinlock_init lock box.
Definition sys_spinlock_irqsave_destroy (lock : Z) : LM Z := sys_spinlock_destroy lock.
Definition sys_spinlock_irqsave_lock (lock : Z) : LM Z := sys_spinlock_lock lock.
Definition sys_spinlock_irqsave_unlock (lock : Z) : LM Z := sys_spinlock_unlock lock.

(** ** Condition variables *)

Definition get_cond (b : Z) : LM CondQueue :=
  let! m := sgets cl_conds in
  match m !! b with Some q => sret q | None => slift Panic end.
Definition put_cond (b : Z) (q : CondQueue) : LM unit := smodify (fun c => set_conds (<[b := q]> (cl_conds c)) c).

(** [counter.fetch_add(d)] *)
Definition cond_add (b d : Z) : LM unit :=
  let! q := get_cond b in
  put_cond b (mkCondQueue (wrap_i64 (cq_counter q + d)) (cq_sem1 q) (cq_sem2 q)).

(** [Box::new(CondQueue::new())]: the semaphores are inside the box. *)
Definition cond_new (box : Z) : LM unit :=
  let! _ := on_sys (new_semaphore (box + 1) 0) in
  let! _ := on_sys (new_semaphore (box + 2) 0) in
  put_cond box (mkCondQueue 0 (box + 1) (box + 2)).

Definition create_if_null (ptr box : Z) : LM unit :=
  let! id := load_cell ptr in
  if id =? 0 then let! _ := cond_new box in store_cell ptr box else sret tt.

Definition sys_init_queue (ptr box : Z) : LM Z :=
  if ptr =? 0 then sret (-1) else
  let! _ := create_if_null ptr box in
  sret 0.

Definition sys_destroy_queue (ptr : Z) : LM Z :=
  if ptr =? 0 then sret (-1) else
  let! id := load_cell ptr in
  if id =? 0 then sret 0 else
  let! q := get_cond id in
  let! _ := smodify (fun c => set_conds (delete id (cl_conds c)) c) in
  let! _ := on_sys (smodify (fun s => set_semaphores (delete (cq_sem2 q) (delete (cq_sem1 q) (s_semaphores s))) s)) in
  sret 0.

Definition sys_add_queue (ptr timeout_ns box : Z) : LM Z :=
  if ptr =? 0 then sret (-1) else
  let! _ := create_if_null ptr box in
  if timeout_ns <=? 0 then
    let! id := load_cell ptr in
    let! _ := cond_add id 1 in
    sret 0
  else sret (-1).

(** [sys_wait]: the code, or the condition variable; then rounds on the first semaphore,
    then the release of the second. *)
Definition sys_wait (ptr : Z) : LM (Z + Z) :=
  if ptr =? 0 then sret (inl (-1)) else
  let! id := load_cell ptr in
  if id =? 0 then sret (inl (-1)) else sret (inr id).

Definition wait_round (k now id : Z) (spun : bool) : LM (option bool) :=
  let! q := get_cond id in
  on_sys (sem_acquire k now (cq_sem1 q) None spun).

Definition wait_leave (k now id : Z) : LM unit :=
  let! q := get_cond id in
  on_sys (sem_release k now (cq_sem2 q)).

(** [sys_notify]: the code, or the condition variable and how many are notified, [None]
    for all. *)
Definition sys_notify (ptr count : Z) : LM (Z + Z * option Z) :=
  if ptr =? 0 then sret (inl (-1)) else
  let! id := load_cell ptr in
  if id =? 0 then sret (inl (-1)) else
  sret (inr (id, if count <? 0 then None else Some count)).

(** The condition of its two loops, and the three calls of a round. *)
Definition notify_goes_on (id : Z) (left : option Z) : LM bool :=
  match left with
  | None => let! q := get_cond id in sret (0 <? cq_counter q)
  | Some n => sret (0 <? n)
  end.

Definition notify_subtract (id : Z) : LM unit := cond_add id (-1).

Definition notify_release (k now id : Z) : LM unit :=
  let! q := get_cond id in
  on_sys (sem_release k now (cq_sem1 q)).

Definition notify_round (k now id : Z) (spun : bool) : LM (option bool) :=
  let! q := get_cond id in
  on_sys (sem_acquire k now (cq_sem2 q) None spun).

Definition notify_left (left : option Z) : option Z := (fun n => n - 1) <$> left.
