(* ===== verification/SyncCallsTheorems.v ===== *)
(** * Clocks and the system calls of locks: theorems

    Times survive their conversions; what a call on a semaphore does to the counts; and the
    protocol of a condition variable, two semaphores and a counter, under every
    interleaving. *)

From stdpp Require Import gmap.
From S2P Require Import Prelude TaskQueue TaskQueueTheorems Scheduler Tasks Synch Vfs SyncCalls.

(** ** Times *)

Lemma i64_checked_small x : -9223372036854775808 <= x <= 9223372036854775807 -> i64_checked x = Some x.
Proof. intros Hx. unfold i64_checked. by guard_true ((-9223372036854775808 <=? x) && (x <=? 9223372036854775807)). Qed.

Lemma quot_rem_bounds us : -9223372036854775808 <= us <= 9223372036854775807 ->
  us = 1000000 * Z.quot us 1000000 + Z.rem us 1000000 /\ -1000000 < Z.rem us 1000000 < 1000000 /\
  -9223372036854775808 <= Z.quot us 1000000 * 1000000 <= 9223372036854775807.
Proof.
  intros Hu. pose proof (Z.quot_rem us 1000000 ltac:(done)). destruct (decide (0 <= us)).
  - pose proof (Z.rem_bound_pos us 1000000 ltac:(lia) ltac:(lia)). lia.
  - pose proof (Z.rem_bound_pos_neg us 1000000 ltac:(lia) ltac:(lia)). lia.
Qed.

Lemma timespec_roundtrip us :
  -9223372036854775808 <= us <= 9223372036854775807 -> timespec_into_usec (from_usec us) = Some us.
Proof.
  intros Hu. destruct (quot_rem_bounds us Hu) as (E & Hr & Hq). unfold timespec_into_usec, from_usec. cbn.
  rewrite i64_checked_small by lia. cbn. rewrite Z.quot_mul by done. rewrite i64_checked_small; [f_equal|]; lia.
Qed.

Lemma timeval_roundtrip us :
  -9223372036854775808 <= us <= 9223372036854775807 -> timeval_into_usec (timeval_from_usec us) = Some us.
Proof.
  intros Hu. destruct (quot_rem_bounds us Hu) as (E & Hr & Hq). unfold timeval_into_usec, timeval_from_usec. cbn.
  rewrite i64_checked_small by lia. cbn.
  assert (wrap_i32 (Z.rem us 1000000) = Z.rem us 1000000) as -> by (unfold wrap_i32; rewrite Z.mod_small; lia).
  rewrite i64_checked_small; [f_equal|]; lia.
Qed.

(** Two readings of a clock that does not go back are as far apart as the clock says. *)
Lemma duration_between a b :
  0 <= a <= b -> b <= 9223372036854775807 -> duration_since (from_usec b) (from_usec a) = Ok (b - a).
Proof.
  intros Ha Hb. unfold duration_since. rewrite !timespec_roundtrip, i64_checked_small by lia. by guard_true (0 <=? b - a).
Qed.

(** An absolute sleep until a time that has passed lasts more than half a million years. *)
Example past_deadline_sleeps :
  sys_clock_nanosleep (mkClocks 0 1000001) CLOCK_MONOTONIC TIMER_ABSTIME (mkTimespec 1 0) = inr 18446744073709551615.
Proof. reflexivity. Qed.

(** A negative number of nanoseconds is not refused. *)
Example negative_nanoseconds_sleep : sys_nanosleep (mkTimespec 1 (-1)) = inr 18446744074709551.
Proof. reflexivity. Qed.

(** ** Semaphores *)

(** A wait with a deadline that has passed reports success and takes nothing. *)
Lemma past_wait_reports_success clocks sem ts c :
  wait_millis ts (from_usec (as_i64 (now_micros clocks))) <= 0 -> sys_sem_timedwait clocks sem (Some ts) c = (c, Ok (inl 0)).
Proof. intros Hm. unfold sys_sem_timedwait. cbn [snd sys_clock_gettime Z.eqb CLOCK_REALTIME default]. cbn. by guard_false (0 <? wait_millis ts (from_usec (as_i64 (now_micros clocks)))). Qed.

Example past_wait_on_empty_semaphore :
  let s := mkCalls (set_semaphores {[7 := semaphore_new 0]} (mkSystem ∅ ∅ ∅ 0 1 1 0 ∅ ∅ ∅ ∅ ∅)) {[3 := 7]} ∅ ∅ in
  sys_sem_timedwait (mkClocks 5000000 0) 3 (Some (mkTimespec 4 0)) s = (s, Ok (inl 0)).
Proof. reflexivity. Qed.

(** A limit of more than 49 days is a panic. *)
Example long_wait_panics s : snd (sys_sem_timedwait (mkClocks 0 0) 3 (Some (mkTimespec 4294968 0)) s) = Panic.
Proof. reflexivity. Qed.

(** A second task at a taken spin lock does not spin: the assertion fails. *)
Lemma contended_spinlock_panics lock c : lock <> 0 -> cl_spins c !! lock = Some true -> snd (sys_spinlock_lock lock c) = Panic.
Proof. intros Hl Hh. unfold sys_spinlock_lock, get_spin, sbind, sgets. guard_false (lock =? 0). by rewrite Hh. Qed.

(** What the steps of a semaphore do to the counts of all of them. *)
Definition count_of (c : Calls) (a : Z) : option Z := sem_count <$> s_semaphores (cl_sys c) !! a.

Lemma on_core_sems {A} k (m : CM A) s s' o : on_core k m s = (s', o) -> s_semaphores s' = s_semaphores s.
Proof. unfold on_core. destruct (s_cores s !! k) as [c|]; [|by intros [= <- <-]]. destruct (m c). by intros [= <- <-]. Qed.

Lemma put_sem_counts s a x b : sem_count <$> <[a := x]> (s_semaphores s) !! b = (if b =? a then Some (sem_count x) else sem_count <$> s_semaphores s !! b).
Proof. destruct (b =? a) eqn:E; bool_to_prop; [subst; by rewrite lookup_insert_eq|by rewrite lookup_insert_ne]. Qed.

Lemma acquire_counts k now a spun s s' r :
  sem_acquire k now a None spun s = (s', Ok r) ->
  exists n, sem_count <$> s_semaphores s !! a = Some n /\
    match r with
    | Some b => b = true /\ 0 < n /\ forall c, sem_count <$> s_semaphores s' !! c = (if c =? a then Some (n - 1) else sem_count <$> s_semaphores s !! c)
    | None => n <= 0 /\ forall c, sem_count <$> s_semaphores s' !! c = sem_count <$> s_semaphores s !! c
    end.
Proof.
  unfold sem_acquire, get_semaphore, put_semaphore, sbind, sgets, smodify, sret, slift. destruct (s_semaphores s !! a) as [x|] eqn:Ea; [|done].
  destruct (0 <? sem_count x) eqn:E; bool_to_prop.
  { intros [= <- <-]. exists (sem_count x). split; [done|]. split; [done|]. split; [done|]. intros c. apply put_sem_counts. }
  destruct spun; [|intros [= <- <-]; exists (sem_count x); done].
  destruct (on_core k (block_current_task None) s) as [s1 [u| | |]] eqn:E1; try done. apply on_core_sems in E1.
  destruct (on_core k get_current_task_handle s1) as [s2 [h| | |]] eqn:E2; try done. apply on_core_sems in E2.
  destruct (hq_push (sem_queue x) h) as [q| | |]; try done. intros [= <- <-]. exists (sem_count x). split; [done|]. split; [done|].
  intros c. cbn [s_semaphores set_semaphores]. rewrite put_sem_counts, E2, E1. destruct (c =? a) eqn:Ec; [|done]. bool_to_prop. subst. by rewrite Ea.
Qed.

Lemma release_counts k now a s s' :
  sem_release k now a s = (s', Ok tt) ->
  exists n, sem_count <$> s_semaphores s !! a = Some n /\
    forall c, sem_count <$> s_semaphores s' !! c = (if c =? a then Some (wrap_i64 (n + 1)) else sem_count <$> s_semaphores s !! c).
Proof.
  unfold sem_release, get_semaphore, put_semaphore, sbind, sgets, smodify, sret, slift. destruct (s_semaphores s !! a) as [x|] eqn:Ea; [|done].
  destruct (hq_pop (sem_queue x)) as [[q task]| | |]; try done. set (s1 := set_semaphores _ _). intros E. exists (sem_count x). split; [done|].
  assert (s_semaphores s' = s_semaphores s1) as ->.
  { destruct task as [h|]; [|by injection E as <-]. unfold custom_wakeup in E. destruct (_ =? _); by eapply on_core_sems. }
  intros c. unfold s1. cbn [s_semaphores set_semaphores]. apply put_sem_counts.
Qed.

(** ** Condition variables *)

(** Where the task that notifies is in [sys_notify]. *)
Inductive Notifier :=
| NIdle
| NCheck (todo : option Z)     (* at the condition of the loop *)
| NSubtract (todo : option Z)
| NRelease (todo : option Z)   (* before sem1.release() *)
| NAcquire (todo : option Z).  (* in sem2.acquire(None) *)

(** One condition variable: the kernel, how many tasks have entered themselves and wait for
    the first semaphore, how many are between the two semaphores, and the notifier.  Its
    callers hold the mutex of the condition variable, so there is one at a time. *)
Record Cond := mkCond { cv_calls : Calls; cv_waiting : Z; cv_leaving : Z; cv_notifier : Notifier }.

Section cond.
Context (ptr b sem1 sem2 : Z).

Definition cond_here (c : Calls) : Prop :=
  ptr <> 0 /\ b <> 0 /\ sem1 <> sem2 /\ cl_cells c !! ptr = Some b /\ exists n, cl_conds c !! b = Some (mkCondQueue n sem1 sem2).

Definition counter_of (c : Calls) : Z := default 0 (cq_counter <$> cl_conds c !! b).

(** The rest of the system goes on: it does not touch the condition variable. *)
Definition elsewhere (c c' : Calls) : Prop :=
  cl_cells c' !! ptr = cl_cells c !! ptr /\ cl_conds c' !! b = cl_conds c !! b /\ count_of c' sem1 = count_of c sem1 /\ count_of c' sem2 = count_of c sem2.

Inductive cond_step : Cond -> Cond -> Prop :=
| step_add c c' w r p t box : t <= 0 -> counter_of c < 9223372036854775807 -> sys_add_queue ptr t box c = (c', Ok 0) ->
    cond_step (mkCond c w r p) (mkCond c' (w + 1) r p)
| step_wait c c' w r p k now spun : 0 < w -> wait_round k now b spun c = (c', Ok (Some true)) ->
    cond_step (mkCond c w r p) (mkCond c' (w - 1) (r + 1) p)
| step_wait_again c c' w r p k now spun : 0 < w -> wait_round k now b spun c = (c', Ok None) ->
    cond_step (mkCond c w r p) (mkCond c' w r p)
| step_leave c c' w r p k now : 0 < r -> wait_leave k now b c = (c', Ok tt) ->
    cond_step (mkCond c w r p) (mkCond c' w (r - 1) p)
| step_notify c w r count todo : count <= counter_of c -> sys_notify ptr count c = (c, Ok (inr (b, todo))) ->
    cond_step (mkCond c w r NIdle) (mkCond c w r (NCheck todo))
| step_check c w r todo go : notify_goes_on b todo c = (c, Ok go) ->
    cond_step (mkCond c w r (NCheck todo)) (mkCond c w r (if go then NSubtract todo else NIdle))
| step_subtract c c' w r todo : notify_subtract b c = (c', Ok tt) ->
    cond_step (mkCond c w r (NSubtract todo)) (mkCond c' w r (NRelease todo))
| step_release c c' w r todo k now : notify_release k now b c = (c', Ok tt) ->
    cond_step (mkCond c w r (NRelease todo)) (mkCond c' w r (NAcquire todo))
| step_acquire c c' w r todo k now spun : notify_round k now b spun c = (c', Ok (Some true)) ->
    cond_step (mkCond c w r (NAcquire todo)) (mkCond c' w r (NCheck (notify_left todo)))
| step_acquire_again c c' w r todo k now spun : notify_round k now b spun c = (c', Ok None) ->
    cond_step (mkCond c w r (NAcquire todo)) (mkCond c' w r (NAcquire todo))
| step_elsewhere c c' w r p : elsewhere c c' -> cond_step (mkCond c w r p) (mkCond c' w r p).

(** What is left to notify never exceeds what has been entered. *)
Definition left_ok (n : Z) (todo : option Z) : Prop := match todo with Some m => m <= n | None => True end.

Definition notifier_ok (n : Z) (p : Notifier) : Prop :=
  match p with
  | NIdle => True
  | NCheck todo => left_ok n todo
  | NSubtract todo => left_ok n todo /\ 0 < n
  | NRelease todo | NAcquire todo => left_ok n (notify_left todo)
  end.

Definition releasing (p : Notifier) : Z := match p with NRelease _ => 1 | _ => 0 end.
Definition acquiring (p : Notifier) : Z := match p with NAcquire _ => 1 | _ => 0 end.

(** Whoever waits is counted, or has a wake-up on its way; and while the notifier waits,
    and only then, there is one wake-up: in the first semaphore, with a task between the
    semaphores, or in the second. *)
Definition cond_inv (v : Cond) : Prop :=
  cond_here (cv_calls v) /\ exists n1 n2,
    count_of (cv_calls v) sem1 = Some n1 /\ count_of (cv_calls v) sem2 = Some n2 /\
    0 <= n1 /\ 0 <= n2 /\ 0 <= cv_leaving v /\ 0 <= counter_of (cv_calls v) <= 9223372036854775807 /\
    cv_waiting v = counter_of (cv_calls v) + n1 + releasing (cv_notifier v) /\
    n1 + cv_leaving v + n2 = acquiring (cv_notifier v) /\
    notifier_ok (counter_of (cv_calls v)) (cv_notifier v).

Lemma on_sys_run {A} (m : SM A) c c' o : on_sys m c = (c', o) -> exists s', m (cl_sys c) = (s', o) /\ c' = set_sys s' c.
Proof. unfold on_sys. destruct (m (cl_sys c)) as [s' o']. intros [= <- <-]. eauto. Qed.

Lemma with_cond {A} (f : CondQueue -> LM A) c q : cl_conds c !! b = Some q -> sbind (get_cond b) f c = f q c.
Proof. intros Hq. unfold get_cond, sbind, sgets. by rewrite Hq. Qed.

Lemma here_sys c s' : cond_here c -> cond_here (set_sys s' c).
Proof. done. Qed.

Lemma acquire_here a k now spun c c' r n :
  on_sys (sem_acquire k now a None spun) c = (c', Ok r) -> cond_here c -> count_of c a = Some n ->
  cond_here c' /\ counter_of c' = counter_of c /\
  match r with
  | Some ok => ok = true /\ 0 < n /\ count_of c' a = Some (n - 1) /\ forall a', a' <> a -> count_of c' a' = count_of c a'
  | None => n <= 0 /\ forall a', count_of c' a' = count_of c a'
  end.
Proof.
  intros (s' & E & ->)%on_sys_run Hh Hn. split; [done|]. split; [done|]. apply acquire_counts in E as (n' & Hn' & E).
  unfold count_of in *. rewrite Hn in Hn'. injection Hn' as <-. cbn [cl_sys set_sys]. destruct r as [ok|].
  - destruct E as (-> & Hpos & Hc). split; [done|]. split; [done|]. rewrite Hc, Z.eqb_refl. split; [done|]. intros a' Ha'. rewrite Hc.
    by guard_false (a' =? a).
  - done.
Qed.

Lemma release_here a k now c c' n :
  on_sys (sem_release k now a) c = (c', Ok tt) -> cond_here c -> count_of c a = Some n -> 0 <= n <= 1 ->
  cond_here c' /\ counter_of c' = counter_of c /\ count_of c' a = Some (n + 1) /\ forall a', a' <> a -> count_of c' a' = count_of c a'.
Proof.
  intros (s' & E & ->)%on_sys_run Hh Hn Hb. split; [done|]. split; [done|]. apply release_counts in E as (n' & Hn' & Hc).
  unfold count_of in *. rewrite Hn in Hn'. injection Hn' as <-. cbn [cl_sys set_sys]. split.
  - rewrite Hc, Z.eqb_refl. f_equal. unfold wrap_i64. rewrite Z.mod_small; lia.
  - intros a' Ha'. rewrite Hc. by guard_false (a' =? a).
Qed.

Lemma add_here d c c' :
  cond_add b d c = (c', Ok tt) -> cond_here c -> -9223372036854775808 <= counter_of c + d <= 9223372036854775807 ->
  cond_here c' /\ counter_of c' = counter_of c + d /\ forall a, count_of c' a = count_of c a.
Proof.
  intros E (H1 & H2 & H3 & H4 & n & Hq) Hb. unfold cond_add in E. rewrite (with_cond _ _ _ Hq) in E. cbn in E. unfold put_cond, smodify in E. injection E as <-.
  unfold counter_of in *. rewrite Hq in *. cbn in *. rewrite lookup_insert_eq. cbn. split; [split_and!; try done; eexists; cbn; by rewrite lookup_insert_eq|].
  split; [|done]. unfold wrap_i64. rewrite Z.mod_small; lia.
Qed.

Lemma add_queue_here t box c c' :
  t <= 0 -> sys_add_queue ptr t box c = (c', Ok 0) -> cond_here c -> cond_add b 1 c = (c', Ok tt).
Proof.
  intros Ht E Hh. pose proof Hh as (H1 & H2 & _ & H4 & n & Hq). unfold sys_add_queue in E. replace (ptr =? 0) with false in E by lia.
  unfold create_if_null, load_cell, sbind, sgets in E. rewrite H4 in E. unfold sret in E. replace (b =? 0) with false in E by lia.
  replace (t <=? 0) with true in E by lia. rewrite H4 in E. destruct (cond_add b 1 c) as [c1 [[]| | |]]; by simplify_eq.
Qed.

Ltac cond_show := cbn [cq_sem1 cq_sem2 cv_calls cv_waiting cv_leaving cv_notifier releasing acquiring] in *.
Ltac cond_facts Hh := pose proof Hh as (_ & _ & Hne & _ & nq & Hq).

Lemma cond_step_inv v v' : cond_step v v' -> cond_inv v -> cond_inv v'.
Proof.
  destruct 1; intros (Hh & n1 & n2 & C1 & C2 & P1 & P2 & P3 & P4 & Hw & Ha & Hn); cond_show; cond_facts Hh.
  - match goal with E : sys_add_queue _ _ _ _ = _ |- _ => apply add_queue_here in E; [|done|done]; apply add_here in E as (Hh' & E1 & E2); [|done|lia] end.
    split; [done|]. exists n1, n2. cond_show. rewrite E1, !E2. split_and!; try done; try lia.
    destruct p as [|[?|]|[?|]|[?|]|[?|]]; cbn in *; lia.
  - match goal with E : wait_round _ _ _ _ _ = _ |- _ => unfold wait_round in E; rewrite (with_cond _ _ _ Hq) in E;
      eapply acquire_here in E as (Hh' & E1 & _ & Hpos & E2 & E3); [|done|exact C1] end.
    split; [done|]. exists (n1 - 1), n2. cond_show. rewrite E1. rewrite E2, E3 by congruence. split_and!; try done; lia.
  - match goal with E : wait_round _ _ _ _ _ = _ |- _ => unfold wait_round in E; rewrite (with_cond _ _ _ Hq) in E;
      eapply acquire_here in E as (Hh' & E1 & _ & E2); [|done|exact C1] end.
    split; [done|]. exists n1, n2. cond_show. rewrite E1, !E2. split_and!; try done; lia.
  - match goal with E : wait_leave _ _ _ _ = _ |- _ => unfold wait_leave in E; rewrite (with_cond _ _ _ Hq) in E;
      eapply release_here in E as (Hh' & E1 & E2 & E3); [|done|exact C2|destruct p; cbn in *; lia] end.
    split; [done|]. exists n1, (n2 + 1). cond_show. rewrite E1. rewrite E2, E3 by congruence. split_and!; try done; lia.
  - split; [done|]. exists n1, n2. cond_show. split_and!; try done; try lia. cbn [cv_notifier notifier_ok].
    match goal with E : sys_notify _ _ _ = _ |- _ => unfold sys_notify, load_cell, sbind, sgets in E; destruct Hh as (H1 & H2 & _ & H4 & _);
      replace (ptr =? 0) with false in E by lia; rewrite H4 in E; unfold sret in E; replace (b =? 0) with false in E by lia; injection E as <- end.
    destruct (count <? 0); [done|]. done.
  - destruct go; (split; [done|]; exists n1, n2; cond_show; split_and!; try done; try lia); cbn [cv_notifier notifier_ok cv_calls] in *.
    destruct todo as [m|]; cbn in *.
    + match goal with E : sret _ _ = _ |- _ => injection E as E end. split; [done|]. lia.
    + match goal with E : sbind _ _ _ = _ |- _ => rewrite (with_cond _ _ _ Hq) in E; injection E as E end.
      unfold counter_of. rewrite Hq. cbn. split; [done|]. cbn in *. lia.
  - destruct Hn as [Hl Hpos]. match goal with E : notify_subtract _ _ = _ |- _ => apply add_here in E as (Hh' & E1 & E2); [|done|lia] end.
    split; [done|]. exists n1, n2. cond_show. rewrite E1, !E2. split_and!; try done; try lia.
    destruct todo; cbn in *; [lia|done].
  - match goal with E : notify_release _ _ _ _ = _ |- _ => unfold notify_release in E; rewrite (with_cond _ _ _ Hq) in E;
      eapply release_here in E as (Hh' & E1 & E2 & E3); [|done|exact C1|lia] end.
    split; [done|]. exists (n1 + 1), n2. cond_show. rewrite E1. rewrite E2, E3 by congruence. split_and!; try done; lia.
  - match goal with E : notify_round _ _ _ _ _ = _ |- _ => unfold notify_round in E; rewrite (with_cond _ _ _ Hq) in E;
      eapply acquire_here in E as (Hh' & E1 & _ & Hpos & E2 & E3); [|done|exact C2] end.
    split; [done|]. exists n1, (n2 - 1). cond_show. rewrite E1. rewrite E2, E3 by congruence. split_and!; try done; lia.
  - match goal with E : notify_round _ _ _ _ _ = _ |- _ => unfold notify_round in E; rewrite (with_cond _ _ _ Hq) in E;
      eapply acquire_here in E as (Hh' & E1 & _ & E2); [|done|exact C2] end.
    split; [done|]. exists n1, n2. cond_show. rewrite E1, !E2. split_and!; try done; lia.
  - match goal with E : elsewhere _ _ |- _ => destruct E as (E1 & E2 & E3 & E4) end. destruct Hh as (H1 & H2 & H3 & H4 & H5).
    assert (counter_of c' = counter_of c) as Ec by (unfold counter_of; by rewrite E2).
    split; [cond_show; split_and!; try done; [by rewrite E1|by rewrite E2]|]. exists n1, n2. cond_show. rewrite Ec. cbn [cv_calls]. rewrite E3, E4. done.
Qed.
End cond.

Lemma fresh_cond ptr box c c' :
  ptr <> 0 -> box <> 0 -> cl_cells c !! ptr = Some 0 -> sys_init_queue ptr box c = (c', Ok 0) ->
  cond_inv ptr box (box + 1) (box + 2) (mkCond c' 0 0 NIdle).
Proof.
  intros Hp Hb Hc E. unfold sys_init_queue in E. replace (ptr =? 0) with false in E by lia.
  unfold create_if_null, load_cell, sbind, sgets in E. rewrite Hc in E. cbn in E. injection E as <-.
  split; [split_and!; cbn; try done; [lia|by rewrite lookup_insert_eq|eexists; by rewrite lookup_insert_eq]|].
  exists 0, 0. unfold count_of, counter_of. cbn. rewrite lookup_insert_eq. cbn. rewrite lookup_insert_ne by lia. rewrite !lookup_insert_eq. cbn. split_and!; done.
Qed.

Lemma cond_reach_inv ptr b sem1 sem2 v v' :
  rtc (cond_step ptr b sem1 sem2) v v' -> cond_inv ptr b sem1 sem2 v -> cond_inv ptr b sem1 sem2 v'.
Proof. induction 1 as [|v v1 v' Hs _ IH]; [done|]. intros Hi. by apply IH, (cond_step_inv _ _ _ _ v). Qed.

(** A semaphore with a positive count is acquired at once. *)
Lemma acquire_now k now a spun c n :
  count_of c a = Some n -> 0 < n -> exists c', on_sys (sem_acquire k now a None spun) c = (c', Ok (Some true)).
Proof.
  unfold count_of. intros Hn Hpos. destruct (s_semaphores (cl_sys c) !! a) as [x|] eqn:E; [|done]. injection Hn as Hn.
  unfold on_sys, sem_acquire, get_semaphore, sbind, sgets. rewrite E. unfold sret at 1. guard_true (0 <? sem_count x). cbn. eauto.
Qed.


Module CondDemo.
Definition c0 : Calls := mkCalls (mkSystem ∅ ∅ ∅ 0 1 1 0 ∅ ∅ ∅ ∅ ∅) {[3 := 0]} ∅ ∅.
Definition c1 : Calls := fst (sys_init_queue 3 7 c0).
Definition c2 : Calls := fst (sys_add_queue 3 0 0 c1).
Definition c3 : Calls := fst (notify_subtract 7 c2).
Definition c4 : Calls := fst (notify_release 0 0 7 c3).

(** One task has entered itself, and all are being notified. *)
Lemma notifying : rtc (cond_step 3 7 8 9) (mkCond c1 0 0 NIdle) (mkCond c4 1 0 (NAcquire None)).
Proof.
  eapply rtc_l. { apply (step_add 3 7 8 9 c1 c2 0 0 NIdle 0 0); [lia|by vm_compute|by vm_compute]. }
  eapply rtc_l. { apply (step_notify 3 7 8 9 c2 1 0 (-1) None); [by vm_compute|by vm_compute]. }
  eapply rtc_l. { apply (step_check 3 7 8 9 c2 1 0 None true). by vm_compute. }
  eapply rtc_l. { apply (step_subtract 3 7 8 9 c2 c3 1 0 None). by vm_compute. }
  apply rtc_once. apply (step_release 3 7 8 9 c3 c4 1 0 None 0 0). by vm_compute.
Qed.

(** A notification of one when nobody has entered waits until somebody does. *)
Definition d1 : Calls := fst (notify_subtract 7 c1).
Definition d2 : Calls := fst (notify_release 0 0 7 d1).
Example lone_notify_waits :
  sys_notify 3 1 c1 = (c1, Ok (inr (7, Some 1))) /\ notify_goes_on 7 (Some 1) c1 = (c1, Ok true) /\
  notify_subtract 7 c1 = (d1, Ok tt) /\ notify_release 0 0 7 d1 = (d2, Ok tt) /\ counter_of 7 d2 = -1 /\
  forall k now c3 r, notify_round k now 7 false d2 = (c3, Ok r) -> r = None.
Proof. split_and!; try (by vm_compute). intros k now c3 r. vm_compute. by intros [= <- <-]. Qed.

(** The pointer stays when the condition variable is destroyed. *)
Example destroyed_is_used :
  snd (sys_add_queue 3 0 0 (fst (sys_destroy_queue 3 c1))) = Panic.
Proof. by vm_compute. Qed.
End CondDemo.

